(* ===== verification/_CoqProject ===== *)
-Q . S2P
Prelude.v
Numbers.v
TimeUtil.v
ByteOrder.v
ByteBuffer.v
Effects.v
SocketAddress.v
StdMap.v
Stun.v
StunFacts.v
StunServer.v
StunMessages.v
StunRequest.v
Port.v
PortRuns.v
PortFacts.v
PortProps.v
PortSteps.v
Channel.v
ChannelRuns.v
ChannelFacts.v
ChannelProps.v
Base64.v
StringCodes.v
RelayServer.v
RelayInv.v
RelayRuns.v
RelayFacts.v
PseudoTcp.v
TcpLogic.v
TcpSend.v
TcpRecv.v
TcpConn.v
TcpMain.v
TcpRuns.v
TcpNet.v
TcpFacts.v
MediaFilters.v
MessageQueue.v
Xml.v
SessionMessages.v
P2PTransport.v
MediaSession.v
MediaRead.v
Transport.v
Jid.v
Session.v
SessionSteps.v
SessionFacts.v
SessionNet.v
SessionManager.v
ManagerFacts.v
