(* ===== verification/Prelude.v ===== *)
(** * libjingle: a verified model of the peer-to-peer core

    libjingle connects two peers through NATs.  This development models the
    parts that carry its own logic, from the wire upwards, as executable
    definitions that read like the C++ under src/talk/, and proves what makes
    them correct.

    ** The parts, and where they are

    - [Prelude]: machine words as [Z] with the wrap of their width written out,
      lists of bytes, record updates, generic lemmas.
    - [ByteOrder] (talk/base/byteorder.h), [ByteBuffer]
      (talk/base/bytebuffer.cc): the buffer every packet is read from and
      written to.  Class [ByteQueue], with its laws [ByteQueueLaws], is what the
      clients need of a buffer; [Buf.ByteBuffer], memory with a start, an end
      and a capacity, implements it on hosts of either byte order.  All clients
      are proved against the class.
    - [TimeUtil] (talk/base/time.cc): comparison of wrapping timestamps.
    - [Numbers]: the text of numbers, as the streams of the C++ library write
      and read it (talk/base/stringencode.h, candidate.h).
    - [SocketAddress] (talk/base/socketaddress.cc), [StdMap] (std::map over the
      comparison of its key, and talk/base/socketaddresspair.cc).
    - [Effects]: programs over a shared state that may fault (a failed ASSERT,
      an access out of bounds, a division by zero, a dangling pointer), and
      their weakest preconditions.
    - [Stun], [StunFacts] (talk/p2p/base/stun.cc): the STUN and TURN codec.
    - [StunServer] (stunserver.cc): packets in, answers out.  [StunMessages]:
      the attributes and encodings that the relay and the ports share.
    - [StunRequest] (stunrequest.cc): the transactions of a client, with their
      retransmission timers, as a transition system.
    - [RelayServer] (relayserver.cc), [RelayInv], [RelayRuns], [RelayFacts]: the
      relay that forwards between peers; its bindings and connections are
      objects of a heap named by pointers, shared by two maps, two lists per
      binding and the timers.
    - [PseudoTcp] (pseudotcp.cc), [TcpLogic], [TcpSend], [TcpRecv], [TcpConn],
      [TcpMain], [TcpRuns], [TcpNet], [TcpFacts]: TCP over datagrams; one
      endpoint is a state monad over the control block and the world it calls
      back, two endpoints and a lossy network are a transition system.
    - [Port] (port.cc, udpport.cc, candidate.h, talk/base/ratetracker.cc), [PortRuns],
      [PortFacts], [PortProps]: a UDP port and its connections to the remote
      candidates, their pings over the STUN transactions, their states and
      timeouts, and the deletion of connections and of the port.  [PortRuns]
      gives every operation on a connection a pure function on its fields,
      [PortFacts] the events and the invariant.
    - [Channel] (p2ptransportchannel.cc, transportchannel.cc): the channel that
      owns the ports, tries a connection from each to every candidate of the
      peer and sends on the best.  It runs operations of [Port] on the ports of
      its heap and handles the signals they emit right after them.
      [PortSteps] states what a port promises it: operations keep the port's
      invariant and the identity of its connections, and every change of state
      is signalled.  [ChannelRuns] holds the channel's invariant, sorting by a
      pure comparison and pruning, [ChannelFacts] candidates, packets, ports
      that go and pings, [ChannelProps] the events and the properties.
    - [Base64] (talk/base/base64.cc), [StringCodes] (talk/base/stringencode.cc,
      urlencode.cc): the text encodings, with the bounds of the caller's buffer.
    - [MediaFilters] (talk/session/phone: rtputils.cc, rtcpmuxfilter.cc,
      srtpfilter.cc): the headers of media packets, the negotiation of RTCP
      multiplexing and of SRTP between the two ends of a call.
    - [MessageQueue] (talk/base/messagequeue.cc, messagehandler.cc, thread.cc):
      the queues through which the threads talk; posts, delayed posts, sends
      that wait for an answer (and serve other sends meanwhile), clearing,
      quitting, and the deletion of handlers and queues.  A run interleaves the
      atomic steps of its threads.
    - [Xml] (talk/xmllite/qname.cc, xmlelement.cc, talk/p2p/base/parsing.cc):
      names with their static hash table, trees of elements, and the helpers
      that read and build them.
    - [SessionMessages] (talk/p2p/base/sessionmessages.cc, constants.cc,
      talk/xmpp/constants.cc): the stanzas of sessions in the two syntaxes,
      Jingle and Gingle.  What a client and a transport promise of their parsers
      are the classes [ContentLaws], [MediaLaws] and [TransportLaws], relative to
      a [Reading]: what the other side makes of a description or a candidate.
    - [P2PTransport] (p2ptransport.cc, candidate.h): the parser and writer of
      candidates.  [MediaSession] (talk/session/phone/mediasessionclient.cc,
      codec.cc): the descriptions of audio and video and their elements;
      [MediaRead]: what is read of them.  Both keep the promises of the classes.
    - [Transport] (transport.cc, and the [TransportProxy] of session.cc): the
      channels of one content, split between the worker and the signaling
      thread, and the proxy in front of it until the negotiation is complete.
    - [Jid] (talk/xmpp/jid.cc): the addresses by which peers are compared.
    - [Session] (session.cc, sessiondescription.cc): the state machine that
      offers, accepts, rejects and ends, with its posted messages and its timer;
      a program over its state that emits stanzas and signals.  The client is
      the calls it makes when it hears a signal, before the signal returns; they
      signal in turn.
      [SessionSteps] gives every handler its specification, [SessionFacts] the
      refinement of a small specification and what follows for a session,
      [SessionNet] two sessions and the stanzas between them.
    - [SessionManager] (sessionmanager.cc), [ManagerFacts]: sessions as objects
      of a heap, the map from their ids, the answers that no session gives.

    A record has the fields of the C++ class under their names, an inductive
    type its enumerators, a definition the name of the member function it
    translates; an overload gets a suffix.  Packets enter an endpoint as byte
    lists and leave it in the record of its effects.

    ** What is shown

    - The buffer refines a queue of bytes and gives the same bytes on both
      kinds of host.
    - What [StunMessage::Write] writes any receiver reads back; what it accepts
      is well-formed and typed; reading ends.
    - The STUN server answers every packet once, to its sender, with a message
      every receiver decodes.  A STUN transaction fires at most once and only
      for its own id; it is sent nine times and then times out;
      retransmissions follow the schedule of RFC 3489.
    - Two users of PseudoTcp over a network that loses, repeats and reorders
      packets (but brings no data before the connect message) read what the other
      wrote, in order; no sequence of calls within [call_ok] makes an endpoint fault; the send and receive buffers keep their invariants;
      the peer's window, the next timer and the results of the calls are as
      documented.
    - The relay keeps bindings apart: a packet only makes it send to its sender
      or within one binding.  No event makes it fault, its maps, lists and
      timers agree in every reachable state, packets are forwarded unchanged or
      in a decodable wrapping, bindings live exactly as long as they are used,
      and shutting down frees everything.

    - A connection of a port becomes writable only by its peer's answer to one
      of its own pings and readable only by a ping of its peer; a ping between
      two ports that know each other has this effect at both ends; timeouts and
      deletions happen exactly when the code says, no event within [event_ok] makes
      a port fault, and its map, connections, posted messages and timers agree in every
      reachable state.
    - A channel never uses a port or connection that is gone, within
      [chan_event_ok]; its list, its
      best connection and its flags agree with the connections of its ports
      unless a sort is posted; sorting chooses the first connection in the order
      of write state, preferences, generation and latency, and prunes only
      connections that another one on the network dominates; pings go to the
      best connection when it is due, else to the one pinged longest ago; a peer
      that pings from a new address is answered and gets a connection there.

    - Decoding gives back what the encodings wrote and stays within the buffer;
      strict Base64 accepts exactly the canonical encodings.
    - The two ends of a call agree on RTCP multiplexing; SRTP, once negotiated,
      uses at each end the keys the other one offered, so that each reads what
      the other protects, and refuses every other order of offers and answers.
    - A message posted to a queue is delivered once, cleared or still there; a
      post wakes the thread that waits, and a thread that waits for a send is
      woken by its reply and by sends; delayed messages come when due and in
      the order of their times as numbers; a send returns after its handler ran; a
      deleted handler gets nothing.
    - An initiate or accept is read back from its stanza, whichever syntax it
      is written in, and so are audio and video descriptions and candidates.  When the messages posted to it are run, a transport's
      state is that of its channels and every candidate was signalled once.
    - Every event of a session refines a specification of the changes it may
      make, each with what it sends or receives for it; it ends unless its client
      sets errors while it hears of errors (then it may not:
      [restless_never_ends]); its states are a walk through the state machine;
      with assertions off and a client whose calls cannot fail no message of a peer
      makes it fault, except candidates that come before the offer; messages are
      answered once, and with assertions off an out of order one changes nothing
      but the protocol that the first message chooses.  Two sessions over any network agree on the
      contents of both.
    - The manager answers every stanza once, gives it to no session but that of
      its id and its sender, so that only its own events reach a session, and
      removes the sessions that end.

    A safety theorem quantifies over all reachable states of a transition
    system whose steps are the calls and events of the code; the conditions on
    a step ([call_ok], [event_ok], [chan_event_ok]) say what the code relies on, and closed runs
    at the end of [TcpFacts], [RelayFacts], [PortProps] and [ChannelProps] show what happens without them.

    ** Fuel and bounds

    Recursion that the code bounds by a size takes that size as fuel: the
    attributes of a message ([read_attrs], the length of the packet, proved
    enough), the transmit loops of PseudoTcp (the number of MTU levels and of
    queued segments; that fuel never runs out is part of [tcp_never_faults]),
    the bindings to delete (their number; part of [relay_shutdown]), the text
    left to decode, the delayed messages that are due (their number).  A signal
    of a session runs its client, which may signal again: [signal_fuel] is 12,
    because each change of state goes up in [rank], which is at most 5, and an
    error can be set between two of them ([session_refines] includes that it is
    enough, for a client that sets no error while it hears of one).  [TerminateAll] has no fuel that
    is enough, and this is proved.  The probes of the table of names take the
    size of the table.  Words
    wrap at 8, 16 and 32 bits; where a theorem needs a clock or a stream that
    does not wrap it says so.

    ** Parameters

    The clock, [rand], random strings, the local addresses of sockets, the
    results of writing to the network and the delivery order of packets and timers are arguments
    of the definitions, unconstrained unless a theorem says otherwise.  So are
    the answers of libsrtp and the bytes behind a text whose decoder reads past
    its end, and [inet_aton], of which only is asked that it reads what
    [IPToString] writes ([reads_dotted]).  Of libsrtp is asked that contexts made
    with one policy and key are a pair, and that of a pair one reads what the
    other protected, packets in sequence.  The parsers of contents and candidates
    are parameters with laws where sessions use them; the name and the addresses of the host,
    the random id of a session and the reaction of the client to a signal are
    arguments.  The handlers of SignalRequestSignaling and of the signal of a session
    that is being destroyed do not call the session.  The allocation sessions of a channel are known by the ports they hand over.

    ** Not modelled

    The sockets, threads, files and the secure sockets (system calls); the text
    form of XML, the login and stream of XMPP, HTTP and the sound devices (other
    protocols and drivers); the
    voice and video engines (outside the repository); third-party code.  Of the
    modelled parts: resolving of socket addresses, the offers and answers that
    a client of calls makes up ([CreateOffer], [CreateAnswer]), STUN message
    integrity, logging, the starting and joining of threads.  The ports of STUN
    servers, relays and TCP, and the allocator that creates them, are left out:
    they add little to the transactions and the port that are modelled besides
    sockets and the interfaces of the host. *)

From stdpp Require Export base numbers list gmap option strings.
From Stdlib Require Export ZArith Lia.
From coqutil Require Export Byte.
From coqutil Require Import Word.LittleEndianList.

#[global] Open Scope Z_scope.
#[global] Set Default Goal Selector "!".

(** ** Machine words

    [uint8], [uint16], [uint32] values are [Z]; every arithmetic operation of
    the source is followed by the wrap of its type. *)

Definition u8 (z : Z) : Z := z mod 256.
Definition u16 (z : Z) : Z := z mod 65536.
Definition u32 (z : Z) : Z := z mod 4294967296.

(** The conversion [uint32 -> int32] (two's complement). *)
Definition s32 (z : Z) : Z := (z + 2147483648) mod 4294967296 - 2147483648.

Definition is_u8 (z : Z) : Prop := 0 <= z < 256.
Definition is_u16 (z : Z) : Prop := 0 <= z < 65536.
Definition is_u32 (z : Z) : Prop := 0 <= z < 4294967296.

Declare Scope jingle_scope.
Delimit Scope jingle_scope with jingle.
Notation "x +u y" := (u32 (x + y)) (at level 50, left associativity) : jingle_scope.
Notation "x -u y" := (u32 (x - y)) (at level 50, left associativity) : jingle_scope.
Notation "x *u y" := (u32 (x * y)) (at level 40, left associativity) : jingle_scope.

(** [word_lia] is [lia] with the wraps unfolded and [mod]/[div] linearised. *)
Ltac word_unfold := unfold u8, u16, u32, s32, is_u8, is_u16, is_u32 in *.
Ltac word_lia := word_unfold; Z.div_mod_to_equations; lia.

Lemma u8_small z : is_u8 z -> u8 z = z.
Proof. intros; apply Z.mod_small; done. Qed.
Lemma u16_small z : is_u16 z -> u16 z = z.
Proof. intros; apply Z.mod_small; done. Qed.
Lemma u32_small z : is_u32 z -> u32 z = z.
Proof. intros; apply Z.mod_small; done. Qed.
Lemma u8_range z : is_u8 (u8 z).
Proof. apply Z.mod_pos_bound; lia. Qed.
Lemma u16_range z : is_u16 (u16 z).
Proof. apply Z.mod_pos_bound; lia. Qed.
Lemma u32_range z : is_u32 (u32 z).
Proof. apply Z.mod_pos_bound; lia. Qed.
Lemma u32_idemp z : u32 (u32 z) = u32 z.
Proof. apply u32_small, u32_range. Qed.
Lemma u16_idemp z : u16 (u16 z) = u16 z.
Proof. apply u16_small, u16_range. Qed.
Lemma s32_small z : -2147483648 <= z < 2147483648 -> s32 z = z.
Proof. intros. word_lia. Qed.

(** Packing two fields: [(a << k) | b] with [b] below [2^k] is a sum. *)
Lemma lor_shiftl a b k : 0 <= k -> 0 <= b < 2 ^ k -> Z.lor (Z.shiftl a k) b = a * 2 ^ k + b.
Proof.
  intros Hk Hb. rewrite Z.shiftl_mul_pow2 by done.
  assert (Z.land (a * 2 ^ k) b = 0) as E.
  { apply Z.bits_inj'. intros i Hi. rewrite Z.land_spec, Z.bits_0.
    destruct (Z.lt_ge_cases i k).
    - by rewrite Z.mul_pow2_bits_low by lia.
    - rewrite <- (Z.mod_small b (2 ^ k)) by done.
      rewrite Z.mod_pow2_bits_high by lia. apply andb_false_r. }
  pose proof (Z.add_lor_land (a * 2 ^ k) b) as Ha. lia.
Qed.

Create HintDb words.
Create Rewrite HintDb words.
Create Rewrite HintDb slices.
#[export] Hint Resolve u8_range u16_range u32_range : words.
#[export] Hint Rewrite u8_small u16_small u32_small using (auto with words; word_lia) : words.

(** ** Bytes and byte strings *)

Abbreviation bytes := (list byte).

#[export] Instance byte_eq_dec : EqDecision byte.
Proof. intros x y. destruct (Byte.byte_eq_dec x y); [left|right]; done. Defined.

#[export] Instance byte_countable : Countable byte :=
  inj_countable Byte.to_N Byte.of_N Byte.of_to_N.

(** A string literal as the bytes of the C string. *)
Definition str (s : String.string) : bytes := String.list_byte_of_string s.
#[global] Arguments str _%_string.

(** A [char] literal or the low byte of an integer. *)
Abbreviation mkbyte := byte.of_Z (only parsing).

Lemma unsigned_u8 b : u8 (byte.unsigned b) = byte.unsigned b.
Proof. apply byte.wrap_unsigned. Qed.
Lemma unsigned_range b : is_u8 (byte.unsigned b).
Proof. apply byte.unsigned_range. Qed.
Lemma unsigned_mkbyte z : byte.unsigned (mkbyte z) = u8 z.
Proof. apply byte.unsigned_of_Z. Qed.
Lemma unsigned_mkbyte_small z : is_u8 z -> byte.unsigned (mkbyte z) = z.
Proof. intros. rewrite unsigned_mkbyte. by apply u8_small. Qed.
#[export] Hint Resolve unsigned_range : words.

(** ** Slices and writes of arrays

    [sub off len l] is the array segment read by a [memcpy] out of [l];
    [blit off src dst] is the array after a [memcpy] of [src] into [dst]. *)

Section Slices.
Context {A : Type}.
Implicit Types l src dst : list A.

Definition sub (off len : nat) (l : list A) : list A := take len (drop off l).

Definition blit (off : nat) (src dst : list A) : list A :=
  take off dst ++ src ++ drop (off + length src) dst.

Lemma length_sub off len l :
  (off + len <= length l)%nat -> length (sub off len l) = len.
Proof. intros. unfold sub. rewrite length_take, length_drop. lia. Qed.

Lemma length_blit off src dst :
  (off + length src <= length dst)%nat -> length (blit off src dst) = length dst.
Proof.
  intros. unfold blit. rewrite !length_app, length_take, length_drop. lia.
Qed.

Lemma sub_lookup off len l i :
  sub off len l !! i = if decide (i < len)%nat then l !! (off + i)%nat else None.
Proof.
  unfold sub. case_decide.
  - rewrite lookup_take_lt by done. apply lookup_drop.
  - apply lookup_take_ge. lia.
Qed.

Lemma blit_lookup off src dst i :
  (off + length src <= length dst)%nat ->
  blit off src dst !! i =
    if decide (off <= i < off + length src)%nat then src !! (i - off)%nat else dst !! i.
Proof.
  intros Hin. unfold blit. case_decide as Hi.
  - rewrite lookup_app_r by (rewrite length_take; lia).
    rewrite length_take, Nat.min_l by lia.
    apply lookup_app_l. lia.
  - destruct (decide (i < off)%nat).
    + rewrite lookup_app_l by (rewrite length_take; lia).
      apply lookup_take_lt. lia.
    + rewrite lookup_app_r by (rewrite length_take; lia).
      rewrite length_take, Nat.min_l by lia.
      rewrite lookup_app_r by lia. rewrite lookup_drop. f_equal. lia.
Qed.

Lemma sub_all l : sub 0 (length l) l = l.
Proof. unfold sub. rewrite drop_0. by apply take_ge. Qed.

Lemma sub_0 off l : sub off 0 l = [].
Proof. done. Qed.

Lemma sub_split off n m l : sub off (n + m) l = sub off n l ++ sub (off + n) m l.
Proof.
  unfold sub. rewrite <- (take_drop n (take (n + m) (drop off l))).
  rewrite take_take, Nat.min_l by lia. f_equal.
  rewrite skipn_firstn_comm, drop_drop. f_equal. lia.
Qed.

Lemma sub_blit_same off src dst :
  (off + length src <= length dst)%nat -> sub off (length src) (blit off src dst) = src.
Proof.
  intros. unfold sub, blit.
  rewrite drop_app_length' by (rewrite length_take; lia).
  by rewrite take_app_length.
Qed.

Lemma sub_blit_eq off n src dst :
  length src = n -> (off + n <= length dst)%nat -> sub off n (blit off src dst) = src.
Proof. intros <-. apply sub_blit_same. Qed.

Lemma sub_blit_before off len o src dst :
  (off + len <= o)%nat -> (o + length src <= length dst)%nat ->
  sub off len (blit o src dst) = sub off len dst.
Proof.
  intros. apply list_eq. intros i. rewrite !sub_lookup. case_decide; [|done].
  rewrite blit_lookup by done. case_decide; [lia|done].
Qed.

Lemma sub_blit_after off len o src dst :
  (o + length src <= off)%nat -> (o + length src <= length dst)%nat ->
  sub off len (blit o src dst) = sub off len dst.
Proof.
  intros. apply list_eq. intros i. rewrite !sub_lookup. case_decide; [|done].
  rewrite blit_lookup by done. case_decide; [lia|done].
Qed.

Lemma sub_sub off len o n l :
  (o + n <= len)%nat -> sub o n (sub off len l) = sub (off + o) n l.
Proof.
  intros. apply list_eq. intros i. rewrite !sub_lookup.
  repeat case_decide; try lia; [|done]. f_equal. lia.
Qed.

Lemma sub_take off len l n :
  (off + len <= n)%nat -> sub off len (take n l) = sub off len l.
Proof.
  intros. apply list_eq. intros i. rewrite !sub_lookup. case_decide; [|done].
  apply lookup_take_lt. lia.
Qed.
End Slices.

#[export] Hint Rewrite @length_sub @length_blit using lia : slices.

(** ** Big-endian byte strings *)

Definition be_bytes (n : nat) (z : Z) : bytes := rev (le_split n z).
Definition be_value (l : bytes) : Z := le_combine (rev l).

Lemma length_be_bytes n z : length (be_bytes n z) = n.
Proof. unfold be_bytes. rewrite length_rev. apply length_le_split. Qed.

Lemma be_value_bytes n z : be_value (be_bytes n z) = z mod 2 ^ (Z.of_nat n * 8).
Proof. unfold be_value, be_bytes. rewrite rev_involutive. apply le_combine_split. Qed.

Lemma be_bytes_value l : be_bytes (length l) (be_value l) = l.
Proof.
  unfold be_value, be_bytes. rewrite <- (length_rev l), split_le_combine.
  apply rev_involutive.
Qed.

Lemma be_value_bytes_1 z : be_value (be_bytes 1 z) = u8 z.
Proof. by rewrite be_value_bytes. Qed.
Lemma be_value_bytes_2 z : be_value (be_bytes 2 z) = u16 z.
Proof. by rewrite be_value_bytes. Qed.
Lemma be_value_bytes_4 z : be_value (be_bytes 4 z) = u32 z.
Proof. by rewrite be_value_bytes. Qed.

Lemma be_value_range l : 0 <= be_value l < 2 ^ (8 * Z.of_nat (length l)).
Proof.
  unfold be_value. pose proof (le_combine_bound (rev l)) as H.
  by rewrite length_rev in H.
Qed.

#[global] Arguments be_bytes : simpl never.
#[global] Arguments be_value : simpl never.

(** ** Record updates

    [r <| f := v |>] is [r] with field [f] set to [v].  A record type declares
    its eta expansion ([Eta]); the update function of a field is found by
    abstracting the projection in it. *)

Class Eta (R : Type) := eta : R -> R.
Class Update {R T : Type} (proj : R -> T) := update_field : (T -> T) -> R -> R.
#[global] Arguments update_field {R T} proj {_} f r /.
#[global] Arguments eta {R _} r /.

Ltac find_update :=
  match goal with
  | |- @Update ?R ?T ?proj =>
      let e := constr:(_ : Eta R) in
      let b := eval hnf in e in
      let h := eval pattern proj in b in
      match h with
      | ?g _ => let u := eval cbv beta in (fun (f : T -> T) (r : R) => g (fun r => f (proj r)) r) in
          exact u
      end
  end.
#[export] Hint Extern 1 (Update _) => find_update : typeclass_instances.

Notation "r <| f := v |>" := (update_field f (fun _ => v) r)
  (at level 1, left associativity, f constr at level 0, v at level 99,
   format "r  <| f  :=  v |>") : jingle_scope.
