(* ===== verification/Numbers.v ===== *)
(** * The text of numbers (the conversions of the C++ streams and of [atoi])

    [talk_base::ToString] and [FromString] (talk/base/stringencode.h), the
    conversions of a candidate (talk/p2p/base/candidate.h) and of an address
    (talk/base/socketaddress.cc) go through [std::ostringstream] and
    [std::istringstream] in the C locale: decimal numbers, six significant
    digits for a [float]. *)

From S2P Require Import Prelude.
From Stdlib Require Import SpecFloat.

Module Num.

(** ** Digits *)

Definition digit (d : Z) : byte := mkbyte (48 + d).
Definition is_digit (c : byte) : bool := (48 <=? byte.unsigned c) && (byte.unsigned c <=? 57).
Definition digit_value (c : byte) : Z := byte.unsigned c - 48.
Definition value (l : bytes) : Z := foldl (fun acc c => acc * 10 + digit_value c) 0 l.
Fixpoint show_digits (fuel : nat) (z : Z) : bytes :=
  match fuel with
  | O => []
  | S fuel => (if z <? 10 then [] else show_digits fuel (z / 10)) ++ [digit (z mod 10)]
  end.
(** The bits of a number are more than its digits. *)
Definition show_nat (z : Z) : bytes := show_digits (S (Z.to_nat (Z.log2 z))) z.
(** [ost << z] for an integer. *)
Definition ToString (z : Z) : bytes := if z <? 0 then str "-" ++ show_nat (- z) else show_nat z.

(** [isspace], and the sign and the digits a number begins with. *)
Definition is_space (c : byte) : bool :=
  let v := byte.unsigned c in ((9 <=? v) && (v <=? 13)) || (v =? 32).
Fixpoint skip_ws (s : bytes) : bytes :=
  match s with c :: s' => if is_space c then skip_ws s' else s | [] => [] end.
Definition sign (s : bytes) : bool * bytes :=
  match s with
  | c :: s' => if decide (c = Byte.x2d) then (true, s') else if decide (c = Byte.x2b) then (false, s') else (false, s)
  | [] => (false, [])
  end.
Fixpoint span_digits (s : bytes) : bytes * bytes :=
  match s with
  | c :: s' => if is_digit c then let '(a, b) := span_digits s' in (c :: a, b) else ([], s)
  | [] => ([], [])
  end.
Definition signed (neg : bool) (z : Z) : Z := if neg then - z else z.
Definition clamp (lo hi z : Z) : Z := Z.max lo (Z.min hi z).

(** [atoi]: [strtol] on a 64-bit [long], cut to an [int]. *)
Definition atoi (s : bytes) : Z :=
  let '(neg, s) := sign (skip_ws s) in
  s32 (clamp (- 2 ^ 63) (2 ^ 63 - 1) (signed neg (value (fst (span_digits s))))).

(** [strtoul] in base 10, on a 64-bit [unsigned long]. *)
Definition strtoul (s : bytes) : Z :=
  let '(neg, s) := sign (skip_ws s) in
  let v := value (fst (span_digits s)) in
  if 2 ^ 64 - 1 <? v then 2 ^ 64 - 1 else signed neg v mod 2 ^ 64.

(** [ist >> t]: the new value of [t], and whether the stream has not failed.  An
    empty stream leaves [t] alone; no digits give 0, too many the bound of the
    type.  A sign before an unsigned number negates it. *)
Definition extract_int (old : Z) (s : bytes) : Z * bool :=
  match skip_ws s with
  | [] => (old, false)
  | s =>
      let '(neg, s) := sign s in
      match fst (span_digits s) with
      | [] => (0, false)
      | ds => let v := signed neg (value ds) in
              let v' := clamp (- 2147483648) 2147483647 v in (v', bool_decide (v' = v))
      end
  end.
Definition extract_uint32 (old : Z) (s : bytes) : Z * bool :=
  match skip_ws s with
  | [] => (old, false)
  | s =>
      let '(neg, s) := sign s in
      match fst (span_digits s) with
      | [] => (0, false)
      | ds => if 4294967295 <? value ds then (4294967295, false) else (u32 (signed neg (value ds)), true)
      end
  end.

(** ** Floats

    A finite [float] is a mantissa times a power of two; [num_den] is that
    fraction. *)

Definition num_den (m : positive) (e : Z) : Z * Z := if 0 <=? e then (Z.pos m * 2 ^ e, 1) else (Z.pos m, 2 ^ (- e)).
(** [10^x <= n/d]. *)
Definition le10 (n d x : Z) : bool := if 0 <=? x then 10 ^ x * d <=? n else d <=? n * 10 ^ (- x).
(** The largest such [x], searched downwards; floats lie between [10^-46] and [10^39]. *)
Fixpoint exponent10 (fuel : nat) (n d x : Z) : Z :=
  match fuel with O => x | S fuel => if le10 n d x then x else exponent10 fuel n d (x - 1) end.
Definition round_even (n d : Z) : Z :=
  let q := n / d in let r := 2 * (n mod d) in
  if r <? d then q else if d <? r then q + 1 else if Z.even q then q else q + 1.
(** Six significant digits and the exponent of the first. *)
Definition six_digits (n d : Z) : Z * Z :=
  let x := exponent10 90 n d 39 in
  let q := if 0 <=? 5 - x then round_even (n * 10 ^ (5 - x)) d else round_even n (d * 10 ^ (x - 5)) in
  if q =? 1000000 then (100000, x + 1) else (q, x).
Fixpoint strip_zeros (s : bytes) : bytes :=
  match s with
  | [] => []
  | c :: s => match strip_zeros s with [] => if decide (c = Byte.x30) then [] else [c] | s => c :: s end
  end.
Definition fraction (s : bytes) : bytes := match strip_zeros s with [] => [] | s => str "." ++ s end.
(** The format [%g]. *)
Definition format_g (q x : Z) : bytes :=
  let ds := show_nat q in
  if (x <? -4) || (6 <=? x) then
    take 1 ds ++ fraction (drop 1 ds) ++ str "e" ++ (if x <? 0 then str "-" else str "+") ++
    (if Z.abs x <? 10 then str "0" else []) ++ show_nat (Z.abs x)
  else if 0 <=? x then take (Z.to_nat (x + 1)) ds ++ fraction (drop (Z.to_nat (x + 1)) ds)
  else str "0" ++ fraction (replicate (Z.to_nat (- x - 1)) Byte.x30 ++ ds).
(** [ost << f] for a [float]. *)
Definition float_ToString (f : spec_float) : bytes :=
  match f with
  | S754_zero s => if s then str "-0" else str "0"
  | S754_infinity s => if s then str "-inf" else str "inf"
  | S754_nan => str "nan"
  | S754_finite s m e =>
      let '(n, d) := num_den m e in let '(q, x) := six_digits n d in
      (if s then str "-" else []) ++ format_g q x
  end.

(** [float] is binary32. *)
Definition float_prec : Z := 24.
Definition float_emax : Z := 128.
(** The float nearest to [n/d]: a quotient of enough bits, with a last bit that
    says whether there is a rest. *)
Definition float_of_ratio (s : bool) (n d : Z) : spec_float :=
  if n =? 0 then S754_zero s else
  let k := Z.max 0 (30 + Z.log2 d - Z.log2 n) in
  let q := n * 2 ^ k / d in
  let sticky := if n * 2 ^ k mod d =? 0 then 0 else 1 in
  binary_normalize float_prec float_emax (signed s (2 * q + sticky)) (- k - 1) s.
Definition float_max : spec_float := S754_finite false 16777215 104.
Definition opp_if (s : bool) (f : spec_float) : spec_float := if s then SFopp f else f.
(** [ist >> f]: a sign, digits with a point, and an exponent; a number that is
    too large gives the largest and fails. *)
Definition extract_float (old : spec_float) (s : bytes) : spec_float * bool :=
  match skip_ws s with
  | [] => (old, false)
  | s =>
      let '(neg, s) := sign s in
      let '(ip, s) := span_digits s in
      let '(fp, s) := match s with
                      | c :: s' => if decide (c = Byte.x2e) then span_digits s' else ([], s)
                      | [] => ([], [])
                      end in
      if decide (ip ++ fp = []) then (S754_zero false, false) else
      let exp := match s with
                 | c :: s' =>
                     if decide (c = Byte.x65 \/ c = Byte.x45) then
                       let '(eneg, s') := sign s' in
                       match fst (span_digits s') with [] => None | ds => Some (signed eneg (value ds)) end
                     else Some 0
                 | [] => Some 0
                 end in
      match exp with
      | None => (S754_zero false, false)
      | Some e =>
          let x := e - Z.of_nat (length fp) in
          let n := value (ip ++ fp) in
          let magnitude := Z.of_nat (length (show_nat n)) + x in
          let f := if n =? 0 then S754_zero neg
                   else if 50 <? magnitude then S754_infinity neg
                   else if magnitude <? -60 then S754_zero neg
                   else if 0 <=? x then float_of_ratio neg (n * 10 ^ x) 1 else float_of_ratio neg n (10 ^ (- x)) in
          match f with S754_infinity _ => (opp_if neg float_max, false) | f => (f, true) end
      end
  end.

(** ** What is written is read *)

Lemma unsigned_digit d : 0 <= d < 10 -> byte.unsigned (digit d) = 48 + d.
Proof. intros. unfold digit. apply unsigned_mkbyte_small. word_lia. Qed.
Lemma is_digit_digit d : 0 <= d < 10 -> is_digit (digit d) = true.
Proof. intros. unfold is_digit. rewrite unsigned_digit by done. lia. Qed.
Lemma value_app l c : value (l ++ [c]) = value l * 10 + digit_value c.
Proof. unfold value. by rewrite foldl_app. Qed.

Lemma show_digits_spec fuel z : 0 <= z -> (Z.to_nat (Z.log2 z) < fuel)%nat ->
  value (show_digits fuel z) = z /\ Forall (fun c => is_digit c = true) (show_digits fuel z) /\ show_digits fuel z <> [].
Proof.
  revert z. induction fuel as [|fuel IH]; intros z Hz Hf; [lia|]. cbn [show_digits].
  assert (Hm : 0 <= z mod 10 < 10) by (apply Z.mod_pos_bound; lia).
  assert (Hd : digit_value (digit (z mod 10)) = z mod 10) by (unfold digit_value; rewrite unsigned_digit by done; lia).
  destruct (z <? 10) eqn:E.
  - split; [|split; [by repeat constructor; apply is_digit_digit|done]].
    rewrite app_nil_l. unfold value. cbn [foldl]. rewrite Hd, Z.mod_small; lia.
  - apply Z.ltb_ge in E. assert (0 <= z / 10) by (apply Z.div_pos; lia).
    assert (1 <= Z.log2 z) by (apply (Z.log2_le_mono 2); lia).
    assert (Hlog : Z.log2 (z / 10) <= Z.log2 z - 1).
    { rewrite <- (Z.max_r 0 (Z.log2 z - 1)) by lia. rewrite <- Z.log2_shiftr by lia. apply Z.log2_le_mono.
      rewrite Z.shiftr_div_pow2 by done. Z.div_mod_to_equations. lia. }
    destruct (IH (z / 10)) as (Hv & Hall & _); [done|lia|]. split; [|split].
    + rewrite value_app, Hv, Hd. pose proof (Z.div_mod z 10). lia.
    + apply Forall_app. split; [done|]. by repeat constructor; apply is_digit_digit.
    + by destruct (show_digits fuel (z / 10)).
Qed.
Lemma show_nat_spec z : 0 <= z ->
  value (show_nat z) = z /\ Forall (fun c => is_digit c = true) (show_nat z) /\ show_nat z <> [].
Proof. intros. apply show_digits_spec; [done|lia]. Qed.

Lemma span_digits_app l s :
  Forall (fun c => is_digit c = true) l -> (forall c, head s = Some c -> is_digit c = false) -> span_digits (l ++ s) = (l, s).
Proof.
  intros Hl Hs. induction Hl as [|c l Hc _ IH]; simpl.
  - destruct s as [|c s]; [done|]. simpl. by rewrite (Hs c).
  - by rewrite Hc, IH.
Qed.
Lemma digit_no_space c : is_digit c = true -> is_space c = false /\ c <> Byte.x2d /\ c <> Byte.x2b.
Proof. unfold is_digit, is_space. intros. split; [lia|]. split; intros ->; by compute in H. Qed.
(** The beginning of the text of a number. *)
Lemma read_ToString z s : (forall c, head s = Some c -> is_digit c = false) ->
  skip_ws (ToString z ++ s) = ToString z ++ s /\ ToString z <> [] /\
  sign (ToString z ++ s) = (z <? 0, show_nat (Z.abs z) ++ s) /\
  span_digits (show_nat (Z.abs z) ++ s) = (show_nat (Z.abs z), s).
Proof.
  intros Hs. destruct (show_nat_spec (Z.abs z)) as (_ & Hall & Hne); [lia|].
  assert (Hspan := span_digits_app _ s Hall Hs). unfold ToString. destruct (z <? 0) eqn:E.
  - rewrite Z.abs_neq in * by lia. cbn. by split_and!.
  - rewrite Z.abs_eq in * by lia. destruct (show_nat z) as [|c l] eqn:El; [done|].
    inversion Hall as [|? ? Hc _]; subst. destruct (digit_no_space c Hc) as (H1 & H2 & H3). cbn.
    rewrite H1. split_and!; try done. by rewrite !decide_False by done.
Qed.
Lemma signed_abs z : signed (z <? 0) (Z.abs z) = z.
Proof. unfold signed. destruct (z <? 0) eqn:E; lia. Qed.

Definition is_s32 (z : Z) : Prop := - 2147483648 <= z < 2147483648.
Lemma clamp_id lo hi z : lo <= z <= hi -> clamp lo hi z = z.
Proof. unfold clamp. lia. Qed.
Lemma atoi_ToString z : is_s32 z -> atoi (ToString z) = z.
Proof.
  unfold is_s32. intros Hz. destruct (read_ToString z []) as (H1 & _ & H2 & H3); [done|]. rewrite !app_nil_r in *.
  unfold atoi. rewrite H1, H2, H3. simpl. destruct (show_nat_spec (Z.abs z)) as (-> & _); [lia|].
  rewrite signed_abs, clamp_id by lia. by apply s32_small.
Qed.
Lemma strtoul_ToString z : is_u32 z -> strtoul (ToString z) = z.
Proof.
  intros Hz. destruct (read_ToString z []) as (H1 & _ & H2 & H3); [done|]. rewrite !app_nil_r in *.
  unfold strtoul. rewrite H1, H2, H3. cbn [fst]. destruct (show_nat_spec (Z.abs z)) as (-> & _); [lia|].
  destruct (_ <? Z.abs z) eqn:E; [word_lia|]. rewrite signed_abs. apply Z.mod_small. word_lia.
Qed.
Lemma extract_int_ToString old z : is_s32 z -> extract_int old (ToString z) = (z, true).
Proof.
  unfold is_s32. intros Hz. destruct (read_ToString z []) as (H1 & Hne & H2 & H3); [done|]. rewrite !app_nil_r in *.
  unfold extract_int. rewrite H1. destruct (ToString z); [done|]. rewrite H2, H3.
  destruct (show_nat_spec (Z.abs z)) as (Hv & _ & Hn); [lia|]. simpl. destruct (show_nat (Z.abs z)); [done|].
  rewrite Hv, signed_abs, clamp_id by lia. by rewrite bool_decide_true.
Qed.
Lemma extract_uint32_ToString old z : is_u32 z -> extract_uint32 old (ToString z) = (z, true).
Proof.
  intros Hz. destruct (read_ToString z []) as (H1 & Hne & H2 & H3); [done|]. rewrite !app_nil_r in *.
  unfold extract_uint32. rewrite H1. destruct (ToString z); [done|]. rewrite H2, H3.
  destruct (show_nat_spec (Z.abs z)) as (Hv & _ & Hn); [lia|]. simpl. destruct (show_nat (Z.abs z)); [done|].
  rewrite Hv. destruct (4294967295 <? Z.abs z) eqn:E; [word_lia|]. rewrite signed_abs. by rewrite u32_small.
Qed.
Lemma extract_uint32_range old s : is_u32 old -> is_u32 (fst (extract_uint32 old s)).
Proof.
  intros Ho. unfold extract_uint32. destruct (skip_ws s); [done|]. destruct (sign _) as [neg r]. destruct (fst (span_digits r)); [done|].
  destruct (_ <? _); [done|]. apply u32_range.
Qed.
Lemma ToString_nonempty z : ToString z <> [].
Proof. by destruct (read_ToString z []) as (_ & ? & _). Qed.

(** The preferences of the ports are read as they were, a third is not. *)
Definition read_back (f : spec_float) : spec_float := fst (extract_float (S754_zero false) (float_ToString f)).
Example float_read_back :
  map (fun q => read_back (float_of_ratio false q 10)) [0; 1; 2; 3; 5; 8; 9; 10] =
  map (fun q => float_of_ratio false q 10) [0; 1; 2; 3; 5; 8; 9; 10] /\
  read_back (float_of_ratio false 1 3) <> float_of_ratio false 1 3.
Proof. split; [vm_compute; reflexivity|]. vm_compute. discriminate. Qed.
End Num.
