(* ===== verification/TimeUtil.v ===== *)
(** * Millisecond timestamps that wrap (talk/base/time.h, time.cc)

    [Time()] is a parameter of the operations that read the clock.  The
    comparisons are the compiled ones ([EFFICIENT_IMPLEMENTATION]); the
    reference versions of the [#else] branches are modelled beside them and
    proved equivalent. *)

From S2P Require Import Prelude.
#[local] Open Scope jingle_scope.

Definition LAST : Z := 0xFFFFFFFF.
Definition HALF : Z := 0x80000000.

(** [TimeAfter(elapsed)] at clock [now]; [None] is a failed [ASSERT]. *)
Definition TimeAfter (now elapsed : Z) : option Z :=
  if (0 <=? elapsed) && (u32 elapsed <? HALF) then Some (now +u elapsed) else None.

Definition TimeIsBetween (earlier middle later : Z) : bool :=
  if earlier <=? later then (earlier <=? middle) && (middle <=? later)
  else negb ((later <? middle) && (middle <? earlier)).

Definition TimeIsLaterOrEqual (earlier later : Z) : bool :=
  let diff := s32 (later -u earlier) in (0 <=? diff) && (u32 diff <? HALF).

Definition TimeIsLater (earlier later : Z) : bool :=
  let diff := s32 (later -u earlier) in (0 <? diff) && (u32 diff <? HALF).

Definition TimeDiff (later earlier : Z) : Z := s32 (later -u earlier).

(** The [#else] branches. *)
Definition TimeIsLaterOrEqual_ref (earlier later : Z) : bool :=
  TimeIsBetween earlier later (earlier +u HALF).
Definition TimeIsLater_ref (earlier later : Z) : bool :=
  negb (TimeIsBetween later earlier (later +u HALF)).
Definition TimeDiff_ref (later earlier : Z) : Z :=
  if TimeIsBetween earlier later (earlier +u HALF) then
    s32 (if earlier <=? later then later -u earlier else u32 (later + (LAST - earlier) + 1))
  else if later <=? earlier then - (earlier -u later)
  else - u32 (earlier + (LAST - later) + 1).

Definition TimeMax (ts1 ts2 : Z) : Z := if TimeIsLaterOrEqual ts1 ts2 then ts2 else ts1.
Definition TimeMin (ts1 ts2 : Z) : Z := if TimeIsLaterOrEqual ts1 ts2 then ts1 else ts2.
Definition TimeSince (now earlier : Z) : Z := TimeDiff now earlier.
Definition TimeUntil (now later : Z) : Z := TimeDiff later now.

(** ** Facts *)

Lemma TimeDiff_range a b : -2147483648 <= TimeDiff a b < 2147483648.
Proof. unfold TimeDiff. word_lia. Qed.

(** The signed difference of two readings of a true (unbounded) clock less than
    2^31 ms apart is their distance. *)
Lemma TimeDiff_exact t1 t2 :
  -2147483648 <= t2 - t1 < 2147483648 -> TimeDiff (u32 t2) (u32 t1) = t2 - t1.
Proof. intros. unfold TimeDiff. word_lia. Qed.

Lemma TimeIsLaterOrEqual_diff a b : TimeIsLaterOrEqual a b = (0 <=? TimeDiff b a).
Proof.
  unfold TimeIsLaterOrEqual, TimeDiff, HALF. set (d := s32 (b -u a)).
  assert (-2147483648 <= d < 2147483648) by (unfold d; word_lia).
  destruct (Z.leb_spec 0 d); [|done]. apply Z.ltb_lt. word_lia.
Qed.

Lemma TimeIsLater_diff a b : TimeIsLater a b = (0 <? TimeDiff b a).
Proof.
  unfold TimeIsLater, TimeDiff, HALF. set (d := s32 (b -u a)).
  assert (-2147483648 <= d < 2147483648) by (unfold d; word_lia).
  destruct (Z.ltb_spec 0 d); [|done]. apply Z.ltb_lt. word_lia.
Qed.

(** [TimeIsBetween] is membership of a circular interval. *)
Lemma TimeIsBetween_circular a m l : is_u32 a -> is_u32 m -> is_u32 l ->
  TimeIsBetween a m l = (m -u a <=? l -u a).
Proof.
  intros Ha Hm Hl. unfold TimeIsBetween.
  assert (E : forall x, is_u32 x -> x -u a = if a <=? x then x - a else x - a + 4294967296)
    by (intros x Hx; destruct (Z.leb_spec a x); word_lia).
  rewrite !E by done. unfold is_u32 in *.
  destruct (Z.leb_spec a l), (Z.leb_spec a m), (Z.leb_spec m l), (Z.ltb_spec l m), (Z.ltb_spec m a);
    try lia; simpl; symmetry; first [apply Z.leb_le; lia | apply Z.leb_gt; lia].
Qed.

Lemma half_window a : (a +u HALF) -u a = HALF.
Proof. unfold HALF. word_lia. Qed.

(** As long as two readings of the real clock are less than 2^31 ms (24.8
    days) apart, the wrapped timestamps compare like the readings: the
    difference is exact and the two orders are the orders of the readings. *)
Theorem time_comparisons_exact (t1 t2 : Z) :
  -2147483648 <= t2 - t1 < 2147483648 ->
  TimeDiff (u32 t2) (u32 t1) = t2 - t1 /\
  TimeIsLater (u32 t1) (u32 t2) = (t1 <? t2) /\
  TimeIsLaterOrEqual (u32 t1) (u32 t2) = (t1 <=? t2) /\
  TimeMax (u32 t1) (u32 t2) = u32 (Z.max t1 t2) /\
  TimeMin (u32 t1) (u32 t2) = u32 (Z.min t1 t2).
Proof.
  intros Hd. unfold TimeMax, TimeMin. rewrite TimeIsLater_diff, TimeIsLaterOrEqual_diff.
  rewrite TimeDiff_exact by done. split; [done|].
  split; [destruct (Z.ltb_spec 0 (t2 - t1)), (Z.ltb_spec t1 t2); lia|].
  destruct (Z.leb_spec 0 (t2 - t1)), (Z.leb_spec t1 t2); try lia;
    repeat split; f_equal; lia.
Qed.

(** The efficient comparisons and the reference ones of the disabled branch
    agree on all timestamps, except that [TimeIsLaterOrEqual] differs at the
    single distance 2^31, where only the reference says yes. *)
Theorem time_efficient_is_reference (earlier later : Z) :
  is_u32 earlier -> is_u32 later ->
  TimeIsLater earlier later = TimeIsLater_ref earlier later /\
  TimeDiff later earlier = TimeDiff_ref later earlier /\
  TimeIsLaterOrEqual_ref earlier later =
    TimeIsLaterOrEqual earlier later || (later -u earlier =? HALF).
Proof.
  intros He Hl. rewrite TimeIsLater_diff, TimeIsLaterOrEqual_diff.
  unfold TimeIsLater_ref, TimeDiff_ref, TimeIsLaterOrEqual_ref, TimeDiff.
  rewrite !TimeIsBetween_circular, !half_window by (done || apply u32_range).
  pose proof (u32_range (later - earlier)) as Hx.
  split; [|split].
  - destruct (Z.leb_spec (earlier -u later) HALF), (Z.ltb_spec 0 (s32 (later -u earlier)));
      try done; unfold HALF in *; word_lia.
  - unfold LAST. destruct (Z.leb_spec (later -u earlier) HALF);
      [destruct (Z.leb_spec earlier later)|destruct (Z.leb_spec later earlier)];
      unfold HALF in *; try done; word_lia.
  - destruct (Z.leb_spec (later -u earlier) HALF), (Z.leb_spec 0 (s32 (later -u earlier))),
      (Z.eqb_spec (later -u earlier) HALF); try done; unfold HALF in *; word_lia.
Qed.

Lemma time_comparisons_exact_witness :
  TimeDiff (u32 4294967296) (u32 4294967000) = 296 /\
  TimeIsLater (u32 4294967000) (u32 4294967296) = true.
Proof. destruct (time_comparisons_exact 4294967000 4294967296) as (?&?&_); [lia|]. split; done. Defined.

Lemma time_efficient_is_reference_witness :
  TimeIsLater 4294967000 5 = TimeIsLater_ref 4294967000 5.
Proof. apply (time_efficient_is_reference 4294967000 5); unfold is_u32; lia. Defined.
