(* ===== verification/ByteOrder.v ===== *)
(** * Byte order (talk/base/byteorder.h)

    The readers and writers of little- and big-endian integers in memory, the
    host's own byte order as a parameter ([Platform]), and the conversions
    between host and network order.  Memory is a list of bytes; an address is
    the list from that address on. *)

From S2P Require Import Prelude.
From coqutil Require Import Word.LittleEndianList.

(** ** The platform

    [host_big_endian] is the byte order of the machine; [uninit i] is the
    content of byte [i] of a freshly allocated array ([new char[n]] does not
    initialise it). *)

Class Platform := {
  host_big_endian : bool;
  uninit : nat -> byte;
}.

(** A little-endian machine whose allocator returns zeroed memory, used to
    evaluate the definitions. *)
Definition little_host : Platform :=
  {| host_big_endian := false; uninit := fun _ => Byte.x00 |}.
Definition big_host : Platform :=
  {| host_big_endian := true; uninit := fun i => mkbyte (Z.of_nat i) |}.

(** ** Byte accesses *)

Definition Set8 (memory : bytes) (offset : nat) (v : Z) : bytes :=
  <[offset := mkbyte v]> memory.
Definition Get8 (memory : bytes) (offset : nat) : Z :=
  byte.unsigned (nth offset memory Byte.x00).

(** ** Big endian *)

Definition SetBE16 (memory : bytes) (v : Z) : bytes :=
  let memory := Set8 memory 0 (Z.shiftr v 8) in
  Set8 memory 1 (Z.shiftr v 0).
Definition SetBE32 (memory : bytes) (v : Z) : bytes :=
  let memory := Set8 memory 0 (Z.shiftr v 24) in
  let memory := Set8 memory 1 (Z.shiftr v 16) in
  let memory := Set8 memory 2 (Z.shiftr v 8) in
  Set8 memory 3 (Z.shiftr v 0).
Definition SetBE64 (memory : bytes) (v : Z) : bytes :=
  let memory := Set8 memory 0 (Z.shiftr v 56) in
  let memory := Set8 memory 1 (Z.shiftr v 48) in
  let memory := Set8 memory 2 (Z.shiftr v 40) in
  let memory := Set8 memory 3 (Z.shiftr v 32) in
  let memory := Set8 memory 4 (Z.shiftr v 24) in
  let memory := Set8 memory 5 (Z.shiftr v 16) in
  let memory := Set8 memory 6 (Z.shiftr v 8) in
  Set8 memory 7 (Z.shiftr v 0).

Definition GetBE16 (memory : bytes) : Z :=
  u16 (Z.lor (Z.shiftl (u16 (Get8 memory 0)) 8) (Z.shiftl (u16 (Get8 memory 1)) 0)).
Definition GetBE32 (memory : bytes) : Z :=
  Z.lor (Z.lor (Z.lor
    (u32 (Z.shiftl (Get8 memory 0) 24)) (u32 (Z.shiftl (Get8 memory 1) 16)))
    (u32 (Z.shiftl (Get8 memory 2) 8))) (u32 (Z.shiftl (Get8 memory 3) 0)).

(** [u64] is only needed for the eight-byte readers. *)
Definition u64 (z : Z) : Z := z mod 18446744073709551616.

Definition GetBE64 (memory : bytes) : Z :=
  Z.lor (Z.lor (Z.lor (Z.lor (Z.lor (Z.lor (Z.lor
    (u64 (Z.shiftl (Get8 memory 0) 56)) (u64 (Z.shiftl (Get8 memory 1) 48)))
    (u64 (Z.shiftl (Get8 memory 2) 40))) (u64 (Z.shiftl (Get8 memory 3) 32)))
    (u64 (Z.shiftl (Get8 memory 4) 24))) (u64 (Z.shiftl (Get8 memory 5) 16)))
    (u64 (Z.shiftl (Get8 memory 6) 8))) (u64 (Z.shiftl (Get8 memory 7) 0)).

(** ** Little endian *)

Definition SetLE16 (memory : bytes) (v : Z) : bytes :=
  let memory := Set8 memory 1 (Z.shiftr v 8) in
  Set8 memory 0 (Z.shiftr v 0).
Definition SetLE32 (memory : bytes) (v : Z) : bytes :=
  let memory := Set8 memory 3 (Z.shiftr v 24) in
  let memory := Set8 memory 2 (Z.shiftr v 16) in
  let memory := Set8 memory 1 (Z.shiftr v 8) in
  Set8 memory 0 (Z.shiftr v 0).
Definition SetLE64 (memory : bytes) (v : Z) : bytes :=
  let memory := Set8 memory 7 (Z.shiftr v 56) in
  let memory := Set8 memory 6 (Z.shiftr v 48) in
  let memory := Set8 memory 5 (Z.shiftr v 40) in
  let memory := Set8 memory 4 (Z.shiftr v 32) in
  let memory := Set8 memory 3 (Z.shiftr v 24) in
  let memory := Set8 memory 2 (Z.shiftr v 16) in
  let memory := Set8 memory 1 (Z.shiftr v 8) in
  Set8 memory 0 (Z.shiftr v 0).

Definition GetLE16 (memory : bytes) : Z :=
  u16 (Z.lor (Z.shiftl (u16 (Get8 memory 1)) 8) (Z.shiftl (u16 (Get8 memory 0)) 0)).
Definition GetLE32 (memory : bytes) : Z :=
  Z.lor (Z.lor (Z.lor
    (u32 (Z.shiftl (Get8 memory 3) 24)) (u32 (Z.shiftl (Get8 memory 2) 16)))
    (u32 (Z.shiftl (Get8 memory 1) 8))) (u32 (Z.shiftl (Get8 memory 0) 0)).
Definition GetLE64 (memory : bytes) : Z :=
  Z.lor (Z.lor (Z.lor (Z.lor (Z.lor (Z.lor (Z.lor
    (u64 (Z.shiftl (Get8 memory 7) 56)) (u64 (Z.shiftl (Get8 memory 6) 48)))
    (u64 (Z.shiftl (Get8 memory 5) 40))) (u64 (Z.shiftl (Get8 memory 4) 32)))
    (u64 (Z.shiftl (Get8 memory 3) 24))) (u64 (Z.shiftl (Get8 memory 2) 16)))
    (u64 (Z.shiftl (Get8 memory 1) 8))) (u64 (Z.shiftl (Get8 memory 0) 0)).

(** ** The host's byte order *)

Section Host.
Context `{Platform}.

(** The memory of an [n]-byte integer variable, and the integer a memory
  block holds, on this host. *)
Definition host_store (n : nat) (z : Z) : bytes :=
if host_big_endian then be_bytes n z else le_split n z.
Definition host_load (m : bytes) : Z :=
if host_big_endian then be_value m else le_combine m.

Definition IsHostBigEndian : bool := Get8 (host_store 4 1) 0 =? 0.

(** [htons], [htonl] of the C library: the integer whose memory is the
  big-endian form of the argument. [ntohs] and [ntohl] are their inverses. *)
Definition htons (n : Z) : Z := host_load (be_bytes 2 n).
Definition htonl (n : Z) : Z := host_load (be_bytes 4 n).
Definition ntohs (n : Z) : Z := be_value (host_store 2 n).
Definition ntohl (n : Z) : Z := be_value (host_store 4 n).

Definition HostToNetwork16 (n : Z) : Z := htons n.
Definition HostToNetwork32 (n : Z) : Z := htonl n.
Definition HostToNetwork64 (n : Z) : Z :=
if IsHostBigEndian then n else GetBE64 (host_store 8 n).
Definition NetworkToHost16 (n : Z) : Z := ntohs n.
Definition NetworkToHost32 (n : Z) : Z := ntohl n.
Definition NetworkToHost64 (n : Z) : Z :=
if IsHostBigEndian then n else GetBE64 (host_store 8 n).
End Host.

(** ** Lemmas: the accessors against the reference byte strings *)

Lemma be_value_cons a l :
  be_value (a :: l) =
    Z.lor (Z.shiftl (byte.unsigned a) (8 * Z.of_nat (length l))) (be_value l).
Proof.
  unfold be_value. simpl rev. rewrite le_combine_app, le_combine_1, length_rev.
  rewrite Z.lor_comm. do 2 f_equal. lia.
Qed.

Lemma be_bytes_S n z :
  be_bytes (S n) z = mkbyte (Z.shiftr z (8 * Z.of_nat n)) :: be_bytes n z.
Proof.
  unfold be_bytes. revert z. induction n as [|n IH]; intros z.
  - simpl. rewrite Z.shiftr_0_r. done.
  - change (le_split (S (S n)) z) with (mkbyte z :: le_split (S n) (Z.shiftr z 8)).
    change (le_split (S n) z) with (mkbyte z :: le_split n (Z.shiftr z 8)).
    cbn [rev]. rewrite IH, Z.shiftr_shiftr by lia.
    replace (8 + 8 * Z.of_nat n) with (8 * Z.of_nat (S n)) by lia. done.
Qed.

Lemma le_split_S n z : le_split (S n) z = mkbyte z :: le_split n (Z.shiftr z 8).
Proof. done. Qed.

Lemma shiftl_unsigned_small b n m :
  0 <= n -> n + 8 <= m -> Z.shiftl (byte.unsigned b) n mod 2 ^ m = Z.shiftl (byte.unsigned b) n.
Proof.
  intros. apply Z.mod_small. rewrite Z.shiftl_mul_pow2 by done.
  pose proof (unsigned_range b) as Hb. unfold is_u8 in Hb.
  assert (0 < 2 ^ n) by (apply Z.pow_pos_nonneg; lia).
  assert (2 ^ n * 2 ^ (m - n) = 2 ^ m)
    by (rewrite <- Z.pow_add_r by lia; f_equal; lia).
  assert (2 ^ 8 <= 2 ^ (m - n)) by (apply Z.pow_le_mono_r; lia).
  change (2 ^ 8) with 256 in *.
  set (q := 2 ^ n) in *. set (p := 2 ^ (m - n)) in *.
  split; [nia|]. apply Z.lt_le_trans with (256 * q); nia.
Qed.

(** [be_norm] brings a big-endian value of a concrete list, and the readers on
    it, to the same disjunction of shifted bytes. *)
Ltac be_norm :=
  unfold u16, u32, u64;
  change 65536 with (2 ^ 16); change 4294967296 with (2 ^ 32);
  change 18446744073709551616 with (2 ^ 64);
  rewrite ?shiftl_unsigned_small by lia;
  rewrite ?be_value_cons; cbn [length Z.of_nat Pos.of_succ_nat Pos.succ];
  rewrite ?Z.shiftl_0_r, ?Z.lor_assoc.

Lemma be_value_nil : be_value [] = 0.
Proof. done. Qed.

Lemma GetBE32_be m : (4 <= length m)%nat -> GetBE32 m = be_value (take 4 m).
Proof.
  intros Hm. do 4 (destruct m as [|? m]; [simpl in Hm; lia|]).
  unfold GetBE32, Get8. cbn [nth]; rewrite ?firstn_cons, ?firstn_O.
  be_norm. rewrite be_value_nil, Z.lor_0_r. done.
Qed.

Lemma GetBE64_be m : (8 <= length m)%nat -> GetBE64 m = be_value (take 8 m).
Proof.
  intros Hm. do 8 (destruct m as [|? m]; [simpl in Hm; lia|]).
  unfold GetBE64, Get8. cbn [nth]; rewrite ?firstn_cons, ?firstn_O.
  be_norm. rewrite be_value_nil, Z.lor_0_r. done.
Qed.

Lemma GetBE16_be m : (2 <= length m)%nat -> GetBE16 m = be_value (take 2 m).
Proof.
  intros Hm. do 2 (destruct m as [|? m]; [simpl in Hm; lia|]).
  unfold GetBE16, Get8. cbn [nth]; rewrite ?firstn_cons, ?firstn_O.
  rewrite !(u16_small (byte.unsigned _))
    by (pose proof (unsigned_range b); pose proof (unsigned_range b0); unfold is_u8, is_u16 in *; lia).
  rewrite u16_small.
  - be_norm. rewrite be_value_nil, Z.lor_0_r. done.
  - pose proof (be_value_range [b; b0]) as Hr.
    rewrite !be_value_cons, be_value_nil, Z.lor_0_r in Hr. exact Hr.
Qed.

Lemma GetLE16_le m : (2 <= length m)%nat -> GetLE16 m = le_combine (take 2 m).
Proof.
  intros Hm. do 2 (destruct m as [|? m]; [simpl in Hm; lia|]).
  pose proof (GetBE16_be [b0; b] ltac:(simpl; lia)) as E.
  unfold be_value in E. exact E.
Qed.

Lemma GetLE32_le m : (4 <= length m)%nat -> GetLE32 m = le_combine (take 4 m).
Proof.
  intros Hm. do 4 (destruct m as [|? m]; [simpl in Hm; lia|]).
  pose proof (GetBE32_be [b2; b1; b0; b] ltac:(simpl; lia)) as E.
  unfold be_value in E. exact E.
Qed.

Lemma GetLE64_le m : (8 <= length m)%nat -> GetLE64 m = le_combine (take 8 m).
Proof.
  intros Hm. do 8 (destruct m as [|? m]; [simpl in Hm; lia|]).
  pose proof (GetBE64_be [b6; b5; b4; b3; b2; b1; b0; b] ltac:(simpl; lia)) as E.
  unfold be_value in E. exact E.
Qed.

Lemma SetBE16_be m v : (2 <= length m)%nat -> SetBE16 m v = be_bytes 2 v ++ drop 2 m.
Proof.
  intros Hm. do 2 (destruct m as [|? m]; [simpl in Hm; lia|]).
  rewrite !be_bytes_S. done.
Qed.
Lemma SetBE32_be m v : (4 <= length m)%nat -> SetBE32 m v = be_bytes 4 v ++ drop 4 m.
Proof.
  intros Hm. do 4 (destruct m as [|? m]; [simpl in Hm; lia|]).
  rewrite !be_bytes_S. done.
Qed.
Lemma SetBE64_be m v : (8 <= length m)%nat -> SetBE64 m v = be_bytes 8 v ++ drop 8 m.
Proof.
  intros Hm. do 8 (destruct m as [|? m]; [simpl in Hm; lia|]).
  rewrite !be_bytes_S. done.
Qed.

Lemma le_split_shiftr n k z :
  0 <= k -> le_split (S n) (Z.shiftr z k) = mkbyte (Z.shiftr z k) :: le_split n (Z.shiftr z (k + 8)).
Proof. intros. rewrite le_split_S, Z.shiftr_shiftr by lia. done. Qed.

Lemma SetLE16_le m v : (2 <= length m)%nat -> SetLE16 m v = le_split 2 v ++ drop 2 m.
Proof.
  intros Hm. do 2 (destruct m as [|? m]; [simpl in Hm; lia|]).
  rewrite <- (Z.shiftr_0_r v) at 2. rewrite !le_split_shiftr by lia. done.
Qed.
Lemma SetLE32_le m v : (4 <= length m)%nat -> SetLE32 m v = le_split 4 v ++ drop 4 m.
Proof.
  intros Hm. do 4 (destruct m as [|? m]; [simpl in Hm; lia|]).
  rewrite <- (Z.shiftr_0_r v) at 2. rewrite !le_split_shiftr by lia. done.
Qed.
Lemma SetLE64_le m v : (8 <= length m)%nat -> SetLE64 m v = le_split 8 v ++ drop 8 m.
Proof.
  intros Hm. do 8 (destruct m as [|? m]; [simpl in Hm; lia|]).
  rewrite <- (Z.shiftr_0_r v) at 2. rewrite !le_split_shiftr by lia. done.
Qed.

(** ** Lemmas: host and network order *)

Section HostLemmas.
Context `{Platform}.

Lemma length_host_store n z : length (host_store n z) = n.
Proof.
  unfold host_store. destruct host_big_endian;
    [apply length_be_bytes|apply length_le_split].
Qed.

Lemma host_load_store n z : host_load (host_store n z) = z mod 2 ^ (Z.of_nat n * 8).
Proof.
  unfold host_load, host_store. destruct host_big_endian;
    [apply be_value_bytes|apply le_combine_split].
Qed.

Lemma host_store_load m : host_store (length m) (host_load m) = m.
Proof.
  unfold host_load, host_store. destruct host_big_endian;
    [apply be_bytes_value|apply split_le_combine].
Qed.

Lemma host_store_load' n m : length m = n -> host_store n (host_load m) = m.
Proof. intros <-. apply host_store_load. Qed.

Lemma IsHostBigEndian_eq : IsHostBigEndian = host_big_endian.
Proof. unfold IsHostBigEndian, host_store. by destruct host_big_endian. Qed.

Lemma store_HostToNetwork16 n : host_store 2 (HostToNetwork16 n) = be_bytes 2 n.
Proof. apply host_store_load', length_be_bytes. Qed.
Lemma store_HostToNetwork32 n : host_store 4 (HostToNetwork32 n) = be_bytes 4 n.
Proof. apply host_store_load', length_be_bytes. Qed.

Lemma GetBE64_host_store n :
  GetBE64 (host_store 8 n) = be_value (host_store 8 n).
Proof.
  rewrite GetBE64_be by (rewrite length_host_store; lia).
  rewrite take_ge; [done|]. by rewrite length_host_store.
Qed.

Lemma store_HostToNetwork64 n : host_store 8 (HostToNetwork64 n) = be_bytes 8 n.
Proof.
  unfold HostToNetwork64. rewrite IsHostBigEndian_eq, GetBE64_host_store.
  unfold host_store. destruct host_big_endian; [done|].
  unfold be_value, be_bytes. apply (split_le_combine' (rev (le_split 8 n)) 8).
  by rewrite length_rev, length_le_split.
Qed.

Lemma NetworkToHost16_load m : length m = 2%nat -> NetworkToHost16 (host_load m) = be_value m.
Proof. intros E. unfold NetworkToHost16, ntohs. by rewrite host_store_load'. Qed.
Lemma NetworkToHost32_load m : length m = 4%nat -> NetworkToHost32 (host_load m) = be_value m.
Proof. intros E. unfold NetworkToHost32, ntohl. by rewrite host_store_load'. Qed.
Lemma NetworkToHost64_load m : length m = 8%nat -> NetworkToHost64 (host_load m) = be_value m.
Proof.
  intros E. unfold NetworkToHost64. rewrite IsHostBigEndian_eq, GetBE64_host_store.
  rewrite (host_store_load' 8) by done. unfold host_load.
  by destruct host_big_endian.
Qed.
End HostLemmas.

#[export] Hint Rewrite @length_host_store @store_HostToNetwork16 @store_HostToNetwork32
  @store_HostToNetwork64 @length_be_bytes : slices.
