(* ===== verification/ByteBuffer.v ===== *)
(** * The byte buffer (talk/base/bytebuffer.h, bytebuffer.cc)

    [Buf] models class [ByteBuffer]: an array with a read position [start_], a
    write position [end_] and a growth policy.  [ByteQueue] is what its clients
    (the STUN codec) rely on: a queue of bytes with network-order readers and
    writers.  The buffer is an instance of it, and refines, operation by
    operation, the abstract queue [AQ]. *)

From S2P Require Import Prelude ByteOrder.
From coqutil Require Import Word.LittleEndianList.

(** ** Interface: a queue of bytes in network order *)

Section Interface.
Context {B : Type} (ok : B -> Prop) (contents : B -> bytes).

(** [rd] takes [n] bytes off the front and returns [dec] of them; with fewer
    than [n] bytes it fails. *)
Definition reads {A} (n : nat) (rd : B -> option (A * B)) (dec : bytes -> A) : Prop :=
  forall b, ok b ->
    if decide (n <= length (contents b))%nat
    then exists b', rd b = Some (dec (take n (contents b)), b') /\ ok b' /\
           contents b' = drop n (contents b)
    else rd b = None.

(** [wr] appends [enc] to the back. *)
Definition writes (wr : B -> B) (enc : bytes) : Prop :=
  forall b, ok b -> ok (wr b) /\ contents (wr b) = contents b ++ enc.
End Interface.

Class ByteQueue (B : Type) := {
  q_ok : B -> Prop;
  q_contents : B -> bytes;
  q_new : B;
  q_of : bytes -> B;
  q_length : B -> nat;
  q_read8 : B -> option (Z * B);
  q_read16 : B -> option (Z * B);
  q_read32 : B -> option (Z * B);
  q_read_bytes : nat -> B -> option (bytes * B);
  q_write8 : B -> Z -> B;
  q_write16 : B -> Z -> B;
  q_write32 : B -> Z -> B;
  q_write_bytes : B -> bytes -> B;
}.

Class ByteQueueLaws (B : Type) `{ByteQueue B} := {
  q_new_spec : q_ok q_new /\ q_contents q_new = [];
  q_of_spec s : q_ok (q_of s) /\ q_contents (q_of s) = s;
  q_length_spec b : q_ok b -> q_length b = length (q_contents b);
  q_read8_spec : reads q_ok q_contents 1 q_read8 be_value;
  q_read16_spec : reads q_ok q_contents 2 q_read16 be_value;
  q_read32_spec : reads q_ok q_contents 4 q_read32 be_value;
  q_read_bytes_spec n : reads q_ok q_contents n (q_read_bytes n) id;
  q_write8_spec v : writes q_ok q_contents (fun b => q_write8 b v) (be_bytes 1 v);
  q_write16_spec v : writes q_ok q_contents (fun b => q_write16 b v) (be_bytes 2 v);
  q_write32_spec v : writes q_ok q_contents (fun b => q_write32 b v) (be_bytes 4 v);
  q_write_bytes_spec s : writes q_ok q_contents (fun b => q_write_bytes b s) s;
}.

(** ** The class *)

Module Buf.

Inductive Order := ORDER_NETWORK | ORDER_HOST.

#[export] Instance Order_eq_dec : EqDecision Order.
Proof. solve_decision. Defined.

Record ByteBuffer := mkByteBuffer {
  bytes_ : bytes;
  size_ : nat;
  start_ : nat;
  end_ : nat;
  byte_order_ : Order;
}.

Definition DEFAULT_SIZE : nat := Z.to_nat 4096.

Section Ops.
Context `{Platform}.

(** [new char[n]]. *)
Definition new_char (n : nat) : bytes := map uninit (seq 0 n).

Definition Construct (src : option bytes) (len : nat) (byte_order : Order) : ByteBuffer :=
  match src with
  | Some s =>
      {| bytes_ := blit 0 (take len s) (new_char len); size_ := len;
         start_ := 0; end_ := len; byte_order_ := byte_order |}
  | None =>
      {| bytes_ := new_char len; size_ := len;
         start_ := 0; end_ := 0; byte_order_ := byte_order |}
  end.

Definition make : ByteBuffer := Construct None DEFAULT_SIZE ORDER_NETWORK.
Definition make_order (o : Order) : ByteBuffer := Construct None DEFAULT_SIZE o.
Definition make_bytes (s : bytes) : ByteBuffer := Construct (Some s) (length s) ORDER_NETWORK.
Definition make_bytes_order (s : bytes) (o : Order) : ByteBuffer :=
  Construct (Some s) (length s) o.

Definition Length (b : ByteBuffer) : nat := end_ b - start_ b.
Definition Capacity (b : ByteBuffer) : nat := size_ b - start_ b.
(** [Data()] with its [Length()] valid bytes. *)
Definition Data (b : ByteBuffer) : bytes := sub (start_ b) (Length b) (bytes_ b).

Definition set_start (b : ByteBuffer) (n : nat) : ByteBuffer :=
  {| bytes_ := bytes_ b; size_ := size_ b; start_ := n; end_ := end_ b;
     byte_order_ := byte_order_ b |}.

(** *** Reading: [None] is [return false], which changes nothing *)

Definition ReadBytes (len : nat) (b : ByteBuffer) : option (bytes * ByteBuffer) :=
  if (Length b <? len)%nat then None
  else Some (sub (start_ b) len (bytes_ b), set_start b (start_ b + len)).

Definition ReadString (val : bytes) (len : nat) (b : ByteBuffer) : option (bytes * ByteBuffer) :=
  if (Length b <? len)%nat then None
  else Some (val ++ sub (start_ b) len (bytes_ b), set_start b (start_ b + len)).

Definition is_network (b : ByteBuffer) : bool :=
  match byte_order_ b with ORDER_NETWORK => true | ORDER_HOST => false end.

Definition ReadUInt8 (b : ByteBuffer) : option (Z * ByteBuffer) :=
  '(v, b') ← ReadBytes 1 b; Some (host_load v, b').

Definition ReadUInt16 (b : ByteBuffer) : option (Z * ByteBuffer) :=
  '(m, b') ← ReadBytes 2 b;
  let v := host_load m in
  Some (if is_network b then NetworkToHost16 v else v, b').

Definition ReadUInt24 (b : ByteBuffer) : option (Z * ByteBuffer) :=
  let v := host_store 4 0 in
  let read_into := if is_network b || IsHostBigEndian then 1%nat else 0%nat in
  '(m, b') ← ReadBytes 3 b;
  let v := host_load (blit read_into m v) in
  Some (if is_network b then NetworkToHost32 v else v, b').

Definition ReadUInt32 (b : ByteBuffer) : option (Z * ByteBuffer) :=
  '(m, b') ← ReadBytes 4 b;
  let v := host_load m in
  Some (if is_network b then NetworkToHost32 v else v, b').

Definition ReadUInt64 (b : ByteBuffer) : option (Z * ByteBuffer) :=
  '(m, b') ← ReadBytes 8 b;
  let v := host_load m in
  Some (if is_network b then NetworkToHost64 v else v, b').

(** *** Writing *)

Definition Resize (b : ByteBuffer) (size : nat) : ByteBuffer :=
  let size := if (size_ b <? size)%nat then Nat.max size (3 * size_ b / 2) else size in
  let len := Nat.min (end_ b - start_ b) size in
  let new_bytes := blit 0 (sub (start_ b) len (bytes_ b)) (new_char size) in
  {| bytes_ := new_bytes; size_ := size; start_ := 0; end_ := len;
     byte_order_ := byte_order_ b |}.

Definition WriteBytes (b : ByteBuffer) (val : bytes) : ByteBuffer :=
  let len := length val in
  let b := if (Capacity b <? Length b + len)%nat then Resize b (Length b + len) else b in
  {| bytes_ := blit (end_ b) val (bytes_ b); size_ := size_ b; start_ := start_ b;
     end_ := end_ b + len; byte_order_ := byte_order_ b |}.

Definition WriteUInt8 (b : ByteBuffer) (val : Z) : ByteBuffer :=
  WriteBytes b (host_store 1 val).
Definition WriteUInt16 (b : ByteBuffer) (val : Z) : ByteBuffer :=
  let v := if is_network b then HostToNetwork16 val else val in
  WriteBytes b (host_store 2 v).
Definition WriteUInt24 (b : ByteBuffer) (val : Z) : ByteBuffer :=
  let v := if is_network b then HostToNetwork32 val else val in
  let start := if is_network b || IsHostBigEndian then 1%nat else 0%nat in
  WriteBytes b (sub start 3 (host_store 4 v)).
Definition WriteUInt32 (b : ByteBuffer) (val : Z) : ByteBuffer :=
  let v := if is_network b then HostToNetwork32 val else val in
  WriteBytes b (host_store 4 v).
Definition WriteUInt64 (b : ByteBuffer) (val : Z) : ByteBuffer :=
  let v := if is_network b then HostToNetwork64 val else val in
  WriteBytes b (host_store 8 v).
Definition WriteString (b : ByteBuffer) (val : bytes) : ByteBuffer := WriteBytes b val.

Definition Consume (b : ByteBuffer) (size : nat) : ByteBuffer :=
  if (Length b <? size)%nat then b else set_start b (start_ b + size).

Definition Shift (b : ByteBuffer) (size : nat) : ByteBuffer :=
  if (Length b <? size)%nat then b
  else
    let end' := (Length b - size)%nat in
    {| bytes_ := blit 0 (sub (start_ b + size) end' (bytes_ b)) (bytes_ b);
       size_ := size_ b; start_ := 0; end_ := end'; byte_order_ := byte_order_ b |}.

End Ops.
End Buf.

(** ** Correctness of the class *)

Module BufFacts.
Import Buf.

(** The representation invariant: the array has [size_] bytes and the two
    positions are ordered inside it. *)
Definition wf (b : ByteBuffer) : Prop :=
  length (bytes_ b) = size_ b /\ (start_ b <= end_ b)%nat /\ (end_ b <= size_ b)%nat.

Section Facts.
Context `{Platform}.
Implicit Types b : ByteBuffer.

Lemma length_new_char n : length (new_char n) = n.
Proof. unfold new_char. by rewrite length_map, length_seq. Qed.

Lemma length_Data b : wf b -> length (Data b) = Length b.
Proof. intros (?&?&?). unfold Data, Length. apply length_sub. lia. Qed.

Lemma wf_Construct_None n o : wf (Construct None n o).
Proof. unfold wf; simpl. rewrite length_new_char. lia. Qed.

Lemma wf_Construct_Some s o : wf (Construct (Some s) (length s) o).
Proof.
  unfold wf; simpl. rewrite take_ge by lia.
  rewrite length_blit by (rewrite length_new_char; lia).
  rewrite length_new_char. lia.
Qed.

Lemma Data_Construct_None n o : Data (Construct None n o) = [].
Proof. done. Qed.

Lemma Data_Construct_Some s o : Data (Construct (Some s) (length s) o) = s.
Proof.
  unfold Data, Length; simpl. rewrite Nat.sub_0_r, take_ge by lia.
  apply sub_blit_same. rewrite length_new_char. lia.
Qed.

Lemma Data_set_start b n :
  (n <= Length b)%nat -> Data (set_start b (start_ b + n)) = drop n (Data b).
Proof.
  intros. unfold Data, Length, sub in *; simpl.
  rewrite skipn_firstn_comm, drop_drop.
  replace (end_ b - (start_ b + n))%nat with (end_ b - start_ b - n)%nat by lia. done.
Qed.

Lemma take_Data b n :
  (n <= Length b)%nat -> sub (start_ b) n (bytes_ b) = take n (Data b).
Proof.
  intros. unfold Data, Length, sub in *. rewrite take_take. f_equal. lia.
Qed.

Lemma wf_set_start b n : wf b -> (n <= Length b)%nat -> wf (set_start b (start_ b + n)).
Proof. unfold wf, Length; simpl. lia. Qed.

Lemma ReadBytes_spec b n : wf b ->
  ReadBytes n b =
    if decide (n <= length (Data b))%nat
    then Some (take n (Data b), set_start b (start_ b + n)) else None.
Proof.
  intros Hwf. unfold ReadBytes. rewrite length_Data by done.
  destruct (Nat.ltb_spec (Length b) n); case_decide; try lia; [done|].
  by rewrite take_Data by lia.
Qed.

Lemma Resize_spec b n : wf b ->
  wf (Resize b n) /\ Data (Resize b n) = take n (Data b) /\
  (n <= size_ (Resize b n))%nat /\ byte_order_ (Resize b n) = byte_order_ b /\
  start_ (Resize b n) = 0%nat.
Proof.
  intros (Hlen & ? & ?).
  set (size := if (size_ b <? n)%nat then Nat.max n (3 * size_ b / 2) else n).
  assert (n <= size /\ (size = n \/ size_ b < n))%nat as [? Hsz].
  { unfold size. destruct (Nat.ltb_spec (size_ b) n); lia. }
  set (len := Nat.min (end_ b - start_ b) size).
  assert (length (sub (start_ b) len (bytes_ b)) = len)
    by (apply length_sub; unfold len; lia).
  assert (Hfit : (0 + length (sub (start_ b) len (bytes_ b)) <= length (new_char size))%nat)
    by (rewrite length_new_char; unfold len in *; lia).
  unfold Resize. fold size len. unfold wf, Data, Length; cbn [bytes_ size_ start_ end_ byte_order_].
  rewrite length_blit, length_new_char by done. repeat split; try (unfold len; lia).
  rewrite Nat.sub_0_r, sub_blit_eq by (done || (rewrite length_new_char; unfold len; lia)).
  unfold sub. rewrite take_take. f_equal. unfold len. lia.
Qed.

Lemma WriteBytes_spec b val : wf b ->
  wf (WriteBytes b val) /\ Data (WriteBytes b val) = Data b ++ val /\
  byte_order_ (WriteBytes b val) = byte_order_ b.
Proof.
  intros Hwf. unfold WriteBytes.
  set (b1 := if (_ <? _)%nat then _ else _).
  assert (wf b1 /\ Data b1 = Data b /\ byte_order_ b1 = byte_order_ b /\
          (end_ b1 + length val <= size_ b1)%nat) as (Hwf1 & HD & Ho & Hfit).
  { unfold b1. destruct (Nat.ltb_spec (Capacity b) (Length b + length val)).
    - destruct (Resize_spec b (Length b + length val) Hwf) as (Hw & HD & Hs & Ho & H0').
      rewrite HD, take_ge by (rewrite length_Data by done; lia).
      repeat split; try done; try apply Hw.
      assert (length (Data (Resize b (Length b + length val))) = Length b) as HL
        by (rewrite HD, length_take, length_Data by done; lia).
      rewrite length_Data in HL by done. unfold Length in *. lia.
    - unfold wf, Capacity, Length in *. repeat split; try done; lia. }
  clearbody b1. destruct Hwf1 as (Hlen & ? & ?). rewrite <- HD.
  unfold wf, Data, Length; cbn [bytes_ size_ start_ end_ byte_order_].
  rewrite length_blit by lia. repeat split; try done; try lia.
  replace (end_ b1 + length val - start_ b1)%nat
    with (end_ b1 - start_ b1 + length val)%nat by lia.
  rewrite sub_split. f_equal.
  - by rewrite sub_blit_before by lia.
  - replace (start_ b1 + (end_ b1 - start_ b1))%nat with (end_ b1) by lia.
    apply sub_blit_same. lia.
Qed.

Lemma Consume_spec b n : wf b ->
  wf (Consume b n) /\ byte_order_ (Consume b n) = byte_order_ b /\
  Data (Consume b n) = if decide (n <= length (Data b))%nat then drop n (Data b) else Data b.
Proof.
  intros Hwf. unfold Consume. rewrite length_Data by done.
  destruct (Nat.ltb_spec (Length b) n); case_decide; try lia; [done|].
  split; [by apply wf_set_start|]. split; [done|]. by apply Data_set_start.
Qed.

Lemma Shift_spec b n : wf b ->
  wf (Shift b n) /\ byte_order_ (Shift b n) = byte_order_ b /\
  Data (Shift b n) = if decide (n <= length (Data b))%nat then drop n (Data b) else Data b.
Proof.
  intros Hwf. unfold Shift. rewrite length_Data by done.
  destruct (Nat.ltb_spec (Length b) n); case_decide; try lia; [done|].
  destruct Hwf as (Hlen & ? & ?). unfold Length in *.
  set (e := (end_ b - start_ b - n)%nat).
  assert (length (sub (start_ b + n) e (bytes_ b)) = e) as Hs
    by (apply length_sub; unfold e; lia).
  unfold wf, Data, Length; cbn [bytes_ size_ start_ end_ byte_order_].
  rewrite length_blit by (rewrite Hs; unfold e; lia).
  repeat split; try done; try (unfold e; lia).
  rewrite Nat.sub_0_r, sub_blit_eq by (done || (unfold e; lia)).
  unfold sub. rewrite skipn_firstn_comm, drop_drop. done.
Qed.

(** *** Integers *)

(** The bytes an [n]-byte integer occupies in a buffer of the given order, and
    the integer read back from them. *)
Definition big (o : Order) : bool :=
  match o with ORDER_NETWORK => true | ORDER_HOST => host_big_endian end.
Definition order_enc (o : Order) (n : nat) (v : Z) : bytes :=
  if big o then be_bytes n v else le_split n v.
Definition order_dec (o : Order) (m : bytes) : Z :=
  if big o then be_value m else le_combine m.

Lemma ReadBytes_length n b m b' : wf b -> ReadBytes n b = Some (m, b') -> length m = n.
Proof.
  intros Hwf. rewrite ReadBytes_spec by done. case_decide; [|done].
  intros [= <- _]. rewrite length_take. lia.
Qed.

(** Every integer reader is [ReadBytes] followed by the order's decoding. *)
Definition read_int (n : nat) b : option (Z * ByteBuffer) :=
  '(m, b') ← ReadBytes n b; Some (order_dec (byte_order_ b) m, b').

Ltac read_int_tac n :=
  intros Hwf; unfold read_int, order_dec, big, is_network;
  let E := fresh in
  destruct (ReadBytes n _) as [[m b']|] eqn:E; [|done]; simpl;
  apply (ReadBytes_length n) in E; [|exact Hwf];
  rewrite ?NetworkToHost16_load, ?NetworkToHost32_load, ?NetworkToHost64_load by done;
  destruct (byte_order_ _); simpl; rewrite ?IsHostBigEndian_eq; try done.

Lemma ReadUInt8_eq b : wf b -> ReadUInt8 b = read_int 1 b.
Proof.
  unfold ReadUInt8. read_int_tac 1%nat.
  destruct m as [|x [|]]; try done. unfold host_load.
  by destruct host_big_endian.
Qed.

Lemma ReadUInt16_eq b : wf b -> ReadUInt16 b = read_int 2 b.
Proof. unfold ReadUInt16. read_int_tac 2%nat. Qed.
Lemma ReadUInt32_eq b : wf b -> ReadUInt32 b = read_int 4 b.
Proof. unfold ReadUInt32. read_int_tac 4%nat. Qed.
Lemma ReadUInt64_eq b : wf b -> ReadUInt64 b = read_int 8 b.
Proof. unfold ReadUInt64. read_int_tac 8%nat. Qed.

Lemma host_store_0 n : host_store n 0 = replicate n Byte.x00.
Proof.
  assert (le_split n 0 = replicate n Byte.x00) as E.
  { induction n as [|n IH]; [done|]. rewrite le_split_S, Z.shiftr_0_l, IH. done. }
  unfold host_store, be_bytes. rewrite E.
  destruct host_big_endian; [|done]. rewrite rev_alt.
  apply reverse_replicate.
Qed.

Lemma be_value_pad m : be_value (Byte.x00 :: m) = be_value m.
Proof. rewrite be_value_cons. by rewrite Z.shiftl_0_l. Qed.

Lemma ReadUInt24_eq b : wf b -> ReadUInt24 b = read_int 3 b.
Proof.
  assert (E1 : forall m, length m = 3%nat -> blit 1 m (replicate 4 Byte.x00) = Byte.x00 :: m).
  { intros m Hm. do 4 (destruct m as [|? m]; try done). }
  assert (E0 : forall m, length m = 3%nat -> blit 0 m (replicate 4 Byte.x00) = m ++ [Byte.x00]).
  { intros m Hm. do 4 (destruct m as [|? m]; try done). }
  unfold ReadUInt24. rewrite host_store_0. read_int_tac 3%nat.
  - rewrite E1, NetworkToHost32_load, be_value_pad by (simpl; lia). done.
  - unfold host_load. destruct host_big_endian.
    + by rewrite E1, be_value_pad by done.
    + by rewrite E0, le_combine_snoc_0 by done.
Qed.

(** Every integer writer is [WriteBytes] of the order's encoding. *)
Ltac write_int_tac :=
  unfold order_enc, big, is_network; destruct (byte_order_ _); simpl;
  rewrite ?store_HostToNetwork16, ?store_HostToNetwork32, ?store_HostToNetwork64,
    ?IsHostBigEndian_eq; try done.

Lemma WriteUInt8_eq b v : WriteUInt8 b v = WriteBytes b (order_enc (byte_order_ b) 1 v).
Proof. unfold WriteUInt8, host_store. write_int_tac; by destruct host_big_endian. Qed.
Lemma WriteUInt16_eq b v : WriteUInt16 b v = WriteBytes b (order_enc (byte_order_ b) 2 v).
Proof. unfold WriteUInt16. write_int_tac. Qed.
Lemma WriteUInt32_eq b v : WriteUInt32 b v = WriteBytes b (order_enc (byte_order_ b) 4 v).
Proof. unfold WriteUInt32. write_int_tac. Qed.
Lemma WriteUInt64_eq b v : WriteUInt64 b v = WriteBytes b (order_enc (byte_order_ b) 8 v).
Proof. unfold WriteUInt64. write_int_tac. Qed.
Lemma WriteUInt24_eq b v : WriteUInt24 b v = WriteBytes b (order_enc (byte_order_ b) 3 v).
Proof.
  assert (Eb : sub 1 3 (be_bytes 4 v) = be_bytes 3 v).
  { rewrite (be_bytes_S 3). unfold sub. simpl drop. apply take_ge. by rewrite length_be_bytes. }
  unfold WriteUInt24. write_int_tac.
  unfold host_store. by destruct host_big_endian; rewrite ?Eb.
Qed.

Lemma read_int_spec n b : wf b ->
  read_int n b =
    if decide (n <= length (Data b))%nat
    then Some (order_dec (byte_order_ b) (take n (Data b)), set_start b (start_ b + n))
    else None.
Proof.
  intros Hwf. unfold read_int. rewrite ReadBytes_spec by done. by case_decide.
Qed.

Lemma set_start_spec n b : wf b -> (n <= length (Data b))%nat ->
  let b' := set_start b (start_ b + n) in
  wf b' /\ byte_order_ b' = byte_order_ b /\ Data b' = drop n (Data b).
Proof.
  intros Hwf Hn. rewrite length_Data in Hn by done.
  split; [by apply wf_set_start|]. split; [done|]. by apply Data_set_start.
Qed.
End Facts.
End BufFacts.

(** ** The abstract queue and the refinement

    An abstract queue is just its bytes.  [op] lists every operation of the
    class, [exec] runs one on the class and [aexec] on the queue. *)

Module AQ.
Import Buf BufFacts.

Inductive op :=
  | OpReadUInt8 | OpReadUInt16 | OpReadUInt24 | OpReadUInt32 | OpReadUInt64
  | OpReadString (val : bytes) (len : nat) | OpReadBytes (len : nat)
  | OpWriteUInt8 (v : Z) | OpWriteUInt16 (v : Z) | OpWriteUInt24 (v : Z)
  | OpWriteUInt32 (v : Z) | OpWriteUInt64 (v : Z)
  | OpWriteString (s : bytes) | OpWriteBytes (s : bytes)
  | OpResize (size : nat) | OpConsume (size : nat) | OpShift (size : nat).

(** What an operation returns: nothing, [false], or [true] with its value. *)
Inductive out := RVoid | RFail | RInt (v : Z) | RBytes (s : bytes).

Section Exec.
Context `{Platform}.

Definition ret_int {B} (b : B) (r : option (Z * B)) : out * B :=
  match r with Some (v, b') => (RInt v, b') | None => (RFail, b) end.
Definition ret_bytes {B} (b : B) (r : option (bytes * B)) : out * B :=
  match r with Some (v, b') => (RBytes v, b') | None => (RFail, b) end.

Definition exec (o : op) (b : ByteBuffer) : out * ByteBuffer :=
  match o with
  | OpReadUInt8 => ret_int b (ReadUInt8 b)
  | OpReadUInt16 => ret_int b (ReadUInt16 b)
  | OpReadUInt24 => ret_int b (ReadUInt24 b)
  | OpReadUInt32 => ret_int b (ReadUInt32 b)
  | OpReadUInt64 => ret_int b (ReadUInt64 b)
  | OpReadString val len => ret_bytes b (ReadString val len b)
  | OpReadBytes len => ret_bytes b (ReadBytes len b)
  | OpWriteUInt8 v => (RVoid, WriteUInt8 b v)
  | OpWriteUInt16 v => (RVoid, WriteUInt16 b v)
  | OpWriteUInt24 v => (RVoid, WriteUInt24 b v)
  | OpWriteUInt32 v => (RVoid, WriteUInt32 b v)
  | OpWriteUInt64 v => (RVoid, WriteUInt64 b v)
  | OpWriteString s => (RVoid, WriteString b s)
  | OpWriteBytes s => (RVoid, WriteBytes b s)
  | OpResize n => (RVoid, Resize b n)
  | OpConsume n => (RVoid, Consume b n)
  | OpShift n => (RVoid, Shift b n)
  end.

(** Taking [n] bytes off the front of the queue. *)
Definition pop (n : nat) (q : bytes) : option (bytes * bytes) :=
  if decide (n <= length q)%nat then Some (take n q, drop n q) else None.
Definition pop_int (o : Order) (n : nat) (q : bytes) : out * bytes :=
  ret_int q ('(m, q') ← pop n q; Some (order_dec o m, q')).
Definition discard (n : nat) (q : bytes) : bytes :=
  if decide (n <= length q)%nat then drop n q else q.

Definition aexec (ord : Order) (o : op) (q : bytes) : out * bytes :=
  match o with
  | OpReadUInt8 => pop_int ord 1 q
  | OpReadUInt16 => pop_int ord 2 q
  | OpReadUInt24 => pop_int ord 3 q
  | OpReadUInt32 => pop_int ord 4 q
  | OpReadUInt64 => pop_int ord 8 q
  | OpReadString val len => ret_bytes q ('(m, q') ← pop len q; Some (val ++ m, q'))
  | OpReadBytes len => ret_bytes q (pop len q)
  | OpWriteUInt8 v => (RVoid, q ++ order_enc ord 1 v)
  | OpWriteUInt16 v => (RVoid, q ++ order_enc ord 2 v)
  | OpWriteUInt24 v => (RVoid, q ++ order_enc ord 3 v)
  | OpWriteUInt32 v => (RVoid, q ++ order_enc ord 4 v)
  | OpWriteUInt64 v => (RVoid, q ++ order_enc ord 8 v)
  | OpWriteString s | OpWriteBytes s => (RVoid, q ++ s)
  | OpResize n => (RVoid, take n q)
  | OpConsume n | OpShift n => (RVoid, discard n q)
  end.

(** Running a sequence of operations collects their results. *)
Fixpoint run {S} (f : op -> S -> out * S) (ops : list op) (s : S) : list out * S :=
  match ops with
  | [] => ([], s)
  | o :: ops =>
      let '(r, s) := f o s in
      let '(rs, s) := run f ops s in (r :: rs, s)
  end.

(** The simulation relation. *)
Definition sim (ord : Order) (b : ByteBuffer) (q : bytes) : Prop :=
  wf b /\ byte_order_ b = ord /\ Data b = q.

Lemma sim_read_int ord n b q : sim ord b q ->
  exists b', ret_int b (read_int n b) = (fst (pop_int ord n q), b') /\
             sim ord b' (snd (pop_int ord n q)).
Proof.
  intros (Hwf & <- & <-). unfold pop_int, pop. rewrite read_int_spec by done.
  case_decide as Hn; simpl; [|by exists b].
  eexists; split; [done|]. by apply set_start_spec.
Qed.

Lemma sim_write ord b q s : sim ord b q -> sim ord (WriteBytes b s) (q ++ s).
Proof.
  intros (Hwf & <- & <-). destruct (WriteBytes_spec b s Hwf) as (?&?&?). done.
Qed.

Lemma exec_refines ord o b q : sim ord b q ->
  exists b', exec o b = (fst (aexec ord o q), b') /\ sim ord b' (snd (aexec ord o q)).
Proof.
  intros Hs. pose proof Hs as (Hwf & Ho & HD).
  destruct o; unfold exec, aexec;
    rewrite ?ReadUInt8_eq, ?ReadUInt16_eq, ?ReadUInt24_eq, ?ReadUInt32_eq, ?ReadUInt64_eq,
      ?WriteUInt8_eq, ?WriteUInt16_eq, ?WriteUInt24_eq, ?WriteUInt32_eq, ?WriteUInt64_eq, ?Ho
      by done;
    try (by apply sim_read_int);
    try (eexists; split; [done|]; by apply sim_write).
  - unfold ReadString, pop. subst q. rewrite length_Data by done.
    destruct (Nat.ltb_spec (Length b) len); case_decide; try lia; simpl; [by exists b|].
    rewrite take_Data by lia. eexists; split; [done|]. subst ord.
    apply set_start_spec; [done|]. by rewrite length_Data.
  - rewrite ReadBytes_spec by done. unfold pop. subst q. case_decide; simpl; [|by exists b].
    eexists; split; [done|]. subst ord. by apply set_start_spec.
  - eexists; split; [done|]. destruct (Resize_spec b size Hwf) as (?&?&?&?&?).
    subst. done.
  - eexists; split; [done|]. destruct (Consume_spec b size Hwf) as (?&?&?). subst. done.
  - eexists; split; [done|]. destruct (Shift_spec b size Hwf) as (?&?&?). subst. done.
Qed.

Lemma run_refines ord ops b q : sim ord b q ->
  exists b', run exec ops b = (fst (run (aexec ord) ops q), b') /\
             sim ord b' (snd (run (aexec ord) ops q)).
Proof.
  revert b q. induction ops as [|o ops IH]; intros b q Hs; [by exists b|].
  simpl. destruct (exec_refines ord o b q Hs) as (b1 & -> & Hs1).
  destruct (aexec ord o q) as [r q1]; simpl in *.
  destruct (IH b1 q1 Hs1) as (b2 & -> & Hs2).
  destruct (run (aexec ord) ops q1) as [rs q2]; simpl in *. by exists b2.
Qed.

(** C30. Started on the same bytes, any sequence of operations of [ByteBuffer]
    returns exactly the results a plain queue of bytes returns (integers in the
    buffer's byte order, failures on too few bytes), and its readable bytes are
    the queue's; the positions stay inside the array whatever the growth. *)
Theorem bytebuffer_refines_queue (init : bytes) (ord : Order) (ops : list op) :
  let '(rs, b) := run exec ops (make_bytes_order init ord) in
  let '(ars, q) := run (aexec ord) ops init in
  rs = ars /\ Data b = q /\ wf b.
Proof.
  assert (Hs : sim ord (make_bytes_order init ord) init).
  { split; [apply wf_Construct_Some|]. split; [done|]. apply Data_Construct_Some. }
  destruct (run_refines ord ops _ _ Hs) as (b & -> & Hwf & _ & HD).
  destruct (run (aexec ord) ops init) as [ars q]; simpl in *. done.
Qed.

End Exec.

(** On a network-order buffer the host does not matter: a big- and a
    little-endian machine get the same results from the same operations and
    end with the same bytes. *)
Theorem network_order_portable (h1 h2 : Platform) (init : bytes) (ops : list op) :
  fst (run (@exec h1) ops (@make_bytes h1 init)) = fst (run (@exec h2) ops (@make_bytes h2 init)) /\
  Data (snd (run (@exec h1) ops (@make_bytes h1 init))) =
  Data (snd (run (@exec h2) ops (@make_bytes h2 init))).
Proof.
  assert (Hs : forall h, @sim ORDER_NETWORK (@make_bytes h init) init).
  { intros h. split; [apply wf_Construct_Some|]. split; [done|]. apply Data_Construct_Some. }
  destruct (@run_refines h1 ORDER_NETWORK ops _ _ (Hs h1)) as (b1 & -> & _ & _ & D1).
  destruct (@run_refines h2 ORDER_NETWORK ops _ _ (Hs h2)) as (b2 & -> & _ & _ & D2).
  simpl. by rewrite D1, D2.
Qed.
End AQ.

(** ** The class implements the interface *)

Section BufQueue.
Import Buf BufFacts AQ.
Context `{Platform}.

#[export] Instance Buf_queue : ByteQueue ByteBuffer := {|
  q_ok b := wf b /\ byte_order_ b = ORDER_NETWORK;
  q_contents := Data;
  q_new := make;
  q_of := make_bytes;
  q_length := Length;
  q_read8 := ReadUInt8;
  q_read16 := ReadUInt16;
  q_read32 := ReadUInt32;
  q_read_bytes := ReadBytes;
  q_write8 := WriteUInt8;
  q_write16 := WriteUInt16;
  q_write32 := WriteUInt32;
  q_write_bytes := WriteBytes;
|}.

Lemma reads_int n (rd : ByteBuffer -> option (Z * ByteBuffer)) :
  (forall b, wf b -> rd b = read_int n b) -> reads q_ok q_contents n rd be_value.
Proof.
  intros Hrd b [Hwf Ho]. rewrite Hrd, read_int_spec by done. simpl. case_decide as Hn; [|done].
  eexists. split; [by rewrite Ho|].
  destruct (set_start_spec n b Hwf Hn) as (?&?&?). split; [|done]. by rewrite <- Ho.
Qed.

Lemma writes_bytes (wr : ByteBuffer -> ByteBuffer) s :
  (forall b, byte_order_ b = ORDER_NETWORK -> wr b = WriteBytes b s) ->
  writes q_ok q_contents wr s.
Proof.
  intros Hwr b [Hwf Ho]. rewrite Hwr by done. simpl.
  destruct (WriteBytes_spec b s Hwf) as (?&?&?). by rewrite <- Ho.
Qed.

#[export] Instance Buf_laws : ByteQueueLaws ByteBuffer.
Proof.
  split.
  - split; [split; [apply wf_Construct_None|done]|apply Data_Construct_None].
  - intros s. split; [split; [apply wf_Construct_Some|done]|apply Data_Construct_Some].
  - intros b [Hwf _]. symmetry. by apply length_Data.
  - apply reads_int, ReadUInt8_eq.
  - apply reads_int, ReadUInt16_eq.
  - apply reads_int, ReadUInt32_eq.
  - intros n b [Hwf Ho]. simpl. rewrite ReadBytes_spec by done. case_decide as Hn; [|done].
    eexists. split; [done|].
    destruct (set_start_spec n b Hwf Hn) as (?&?&?). split; [|done]. by rewrite <- Ho.
  - intros v. apply writes_bytes. intros b Hb. etransitivity; [apply WriteUInt8_eq|by rewrite Hb].
  - intros v. apply writes_bytes. intros b Hb. etransitivity; [apply WriteUInt16_eq|by rewrite Hb].
  - intros v. apply writes_bytes. intros b Hb. etransitivity; [apply WriteUInt32_eq|by rewrite Hb].
  - intros s. by apply writes_bytes.
Qed.
End BufQueue.
