(* ===== verification/Effects.v ===== *)
(** * Effectful code

    The state monad with faults in which the components with shared mutable
    objects are written: a program reads and changes a state [S] and may fail.
    [wp m Q s] is its weakest precondition: [m] run from [s] does not fail and
    ends in a result and state that satisfy [Q].  A fault is what the C++
    leaves undefined, or a failed [ASSERT]; [OutOfFuel] says that a recursion got
    too little fuel.  [wpf F] is the same with the faults of [F] allowed. *)

From S2P Require Import Prelude.

Inductive fault := AssertFailed | OutOfBounds | DivideByZero | Dangling | OutOfFuel.

Inductive outcome (S A : Type) :=
  | Done (a : A) (s : S)
  | Failed (f : fault).
#[global] Arguments Done {S A} a s.
#[global] Arguments Failed {S A} f.

Definition Prog (S A : Type) : Type := S -> outcome S A.

#[export] Instance Prog_ret S : MRet (Prog S) := fun A a s => Done a s.
#[export] Instance Prog_bind S : MBind (Prog S) := fun A B f m s =>
  match m s with Done a s => f a s | Failed e => Failed e end.

Section Prims.
Context {S : Type}.
Definition get : Prog S S := fun s => Done s s.
Definition gets {A} (f : S -> A) : Prog S A := fun s => Done (f s) s.
Definition modify (f : S -> S) : Prog S unit := fun s => Done tt (f s).
Definition fail {A} (f : fault) : Prog S A := fun _ => Failed f.
Definition ASSERT (b : bool) : Prog S unit := if b then mret tt else fail AssertFailed.
(** The value of an option, or a fault. *)
Definition the {A} (f : fault) (o : option A) : Prog S A :=
  match o with Some a => mret a | None => fail f end.
(** Runs a program for every element of a list, in order. *)
Fixpoint for_each {A} (f : A -> Prog S unit) (l : list A) : Prog S unit :=
  match l with [] => mret tt | a :: l => f a;; for_each f l end.
End Prims.

Definition wp {S A} (m : Prog S A) (Q : A -> S -> Prop) (s : S) : Prop :=
  match m s with Done a s' => Q a s' | Failed _ => False end.

Section Wp.
Context {S : Type}.
Implicit Types s : S.

Lemma pwp_mono {A} (m : Prog S A) (Q R : A -> S -> Prop) s :
  wp m Q s -> (forall a s', Q a s' -> R a s') -> wp m R s.
Proof. unfold wp. destruct (m s); auto. Qed.
Lemma pwp_bind {A B} (m : Prog S A) (f : A -> Prog S B) Q s :
  wp m (fun a s => wp (f a) Q s) s -> wp (m ≫= f) Q s.
Proof. unfold wp, mbind, Prog_bind. by destruct (m s). Qed.
Lemma pwp_ret {A} (a : A) (Q : A -> S -> Prop) s : Q a s -> wp (mret a) Q s.
Proof. done. Qed.
Lemma pwp_get (Q : S -> S -> Prop) s : Q s s -> wp get Q s.
Proof. done. Qed.
Lemma wp_gets {A} (f : S -> A) (Q : A -> S -> Prop) s : Q (f s) s -> wp (gets f) Q s.
Proof. done. Qed.
Lemma pwp_modify f (Q : unit -> S -> Prop) s : Q tt (f s) -> wp (modify f) Q s.
Proof. done. Qed.
Lemma pwp_assert b (Q : unit -> S -> Prop) s : b = true -> Q tt s -> wp (ASSERT b) Q s.
Proof. by intros ->. Qed.
Lemma wp_the {A} f (o : option A) a (Q : A -> S -> Prop) s : o = Some a -> Q a s -> wp (the f o) Q s.
Proof. by intros ->. Qed.

(** A run with a precondition ends, in a result that satisfies it. *)
Lemma wp_done {A} (m : Prog S A) Q s a s' : wp m Q s -> m s = Done a s' -> Q a s'.
Proof. unfold wp. intros Hw E. by rewrite E in Hw. Qed.
Lemma wp_total {A} (m : Prog S A) Q s : wp m Q s -> exists a s', m s = Done a s' /\ Q a s'.
Proof. unfold wp. destruct (m s) as [a s'|]; [by eauto|done]. Qed.

(** An invariant of the loop over a list, indexed by what is left. *)
Lemma wp_for_each {A} (f : A -> Prog S unit) (I : list A -> S -> Prop) l s :
  I l s -> (forall a l' s', I (a :: l') s' -> wp (f a) (fun _ => I l') s') ->
  wp (for_each f l) (fun _ => I []) s.
Proof.
  intros H0 Hstep. revert s H0. induction l as [|a l IH]; intros s H0; cbn [for_each]; [done|].
  apply pwp_bind. eapply pwp_mono; [by apply Hstep|]. intros [] s' Hs. by apply IH.
Qed.
End Wp.

(** What a sequence has done. *)
Lemma bind_done {S A B} (p : Prog S A) (f : A -> Prog S B) s b s' :
  (p ≫= f) s = Done b s' -> exists a s1, p s = Done a s1 /\ f a s1 = Done b s'.
Proof. unfold mbind, Prog_bind. destruct (p s) as [a s1|]; [|done]. by exists a, s1. Qed.

(** ** Allowed faults

    [wpf F m Q s]: [m] run from [s] ends in a result and state that satisfy [Q]
    or in a fault that [F] allows. *)
Definition wpf {S A} (F : fault -> Prop) (m : Prog S A) (Q : A -> S -> Prop) (s : S) : Prop :=
  match m s with Done a s' => Q a s' | Failed f => F f end.

Section Wpf.
Context {S : Type} (F : fault -> Prop).
Implicit Types s : S.

Lemma wpf_mono {A} (m : Prog S A) (Q R : A -> S -> Prop) s :
  wpf F m Q s -> (forall a s', Q a s' -> R a s') -> wpf F m R s.
Proof. unfold wpf. destruct (m s); auto. Qed.
Lemma wpf_bind {A B} (m : Prog S A) (f : A -> Prog S B) Q s :
  wpf F m (fun a s => wpf F (f a) Q s) s -> wpf F (m ≫= f) Q s.
Proof. unfold wpf, mbind, Prog_bind. by destruct (m s). Qed.
Lemma wpf_ret {A} (a : A) (Q : A -> S -> Prop) s : Q a s -> wpf F (mret a) Q s.
Proof. done. Qed.
Lemma wpf_get (Q : S -> S -> Prop) s : Q s s -> wpf F get Q s.
Proof. done. Qed.
Lemma wpf_gets {A} (f : S -> A) (Q : A -> S -> Prop) s : Q (f s) s -> wpf F (gets f) Q s.
Proof. done. Qed.
Lemma wpf_modify f (Q : unit -> S -> Prop) s : Q tt (f s) -> wpf F (modify f) Q s.
Proof. done. Qed.
Lemma wpf_the {A} f (o : option A) (Q : A -> S -> Prop) s :
  F f \/ is_Some o -> (forall a, o = Some a -> Q a s) -> wpf F (the f o) Q s.
Proof. destruct o as [a|]; [intros _ HQ; by apply HQ|]. by intros [H|[? [=]]] _. Qed.
Lemma wpf_assert b (Q : unit -> S -> Prop) s : F AssertFailed \/ b = true -> (b = true -> Q tt s) -> wpf F (ASSERT b) Q s.
Proof. destruct b; [intros _ HQ; by apply HQ|]. by intros [H|[=]] _. Qed.

(** A property of the state that the body of a loop keeps. *)
Lemma wpf_for_each {A} (f : A -> Prog S unit) (I : S -> Prop) l s :
  I s -> (forall a s', a ∈ l -> I s' -> wpf F (f a) (fun _ => I) s') -> wpf F (for_each f l) (fun _ => I) s.
Proof.
  revert s. induction l as [|a l IH]; intros s H0 Hstep; cbn [for_each]; [done|].
  apply wpf_bind. eapply wpf_mono; [apply Hstep; [set_solver|done]|]. intros [] s' Hs. apply IH; [done|].
  intros b t Hb. apply Hstep. set_solver.
Qed.
Lemma wpf_done {A} (m : Prog S A) Q s a s' : wpf F m Q s -> m s = Done a s' -> Q a s'.
Proof. unfold wpf. intros Hw E. by rewrite E in Hw. Qed.
End Wpf.

Ltac wpf_step :=
  lazymatch goal with
  | |- wpf _ (mbind _ _) _ _ => apply wpf_bind
  | |- wpf _ (mret _) _ _ => apply wpf_ret
  | |- wpf _ get _ _ => apply wpf_get
  | |- wpf _ (gets _) _ _ => apply wpf_gets
  | |- wpf _ (modify _) _ _ => apply wpf_modify
  end.
Ltac wpf_steps := repeat (wpf_step; cbv beta).
Ltac wpf_apply H := eapply wpf_mono; [apply H|cbv beta].

(** Runs through the primitives at the head of the goal. *)
Ltac wp_step :=
  lazymatch goal with
  | |- wp (mbind _ _) _ _ => apply pwp_bind
  | |- wp (mret _) _ _ => apply pwp_ret
  | |- wp get _ _ => apply pwp_get
  | |- wp (gets _) _ _ => apply wp_gets
  | |- wp (modify _) _ _ => apply pwp_modify
  end.
Ltac wp_steps := repeat (wp_step; cbv beta).
Ltac wp_apply H := eapply pwp_mono; [apply H|cbv beta].
