(* ===== verification/SocketAddress.v ===== *)
(** * Socket addresses (talk/base/socketaddress.h, socketaddress.cc)

    The address with its setters, predicates, comparisons and its two wire
    forms.  [inet_aton] is the C library's parser, a parameter of the setters
    that use it; name resolution and the list of the host's addresses are I/O
    and left out. *)

From S2P Require Import Prelude Numbers ByteOrder.

Record SocketAddress := mkSocketAddress {
  sa_hostname : bytes;
  sa_ip : Z;
  sa_port : Z;
}.

#[export] Instance SocketAddress_eq_dec : EqDecision SocketAddress.
Proof. solve_decision. Defined.

Module SockAddr.

Definition AF_INET : Z := 2.

Definition Clear : SocketAddress := mkSocketAddress [] 0 0.
Definition IsNil (a : SocketAddress) : bool :=
  match sa_hostname a with [] => (0 =? sa_ip a) && (0 =? sa_port a) | _ => false end.
Definition IsComplete (a : SocketAddress) : bool := negb (0 =? sa_ip a) && negb (0 =? sa_port a).
Definition SetIP (ip : Z) (a : SocketAddress) : SocketAddress := mkSocketAddress [] ip (sa_port a).
Definition SetResolvedIP (ip : Z) (a : SocketAddress) : SocketAddress :=
  mkSocketAddress (sa_hostname a) ip (sa_port a).
(** The [ASSERT] on the range is the caller's; [port_] is a [uint16]. *)
Definition SetPort (port : Z) (a : SocketAddress) : SocketAddress :=
  mkSocketAddress (sa_hostname a) (sa_ip a) (u16 port).
Definition make (ip port : Z) : SocketAddress := SetPort port (SetIP ip Clear).

Definition IsAnyIP (a : SocketAddress) : bool := sa_ip a =? 0.
Definition IsUnresolvedIP (a : SocketAddress) : bool :=
  IsAnyIP a && match sa_hostname a with [] => false | _ => true end.

(** [stricmp(s, t) == 0] for ASCII strings. *)
Definition tolower (c : byte) : byte :=
  let v := byte.unsigned c in
  if (65 <=? v) && (v <=? 90) then mkbyte (v + 32) else c.
Definition stricmp_eq (s t : bytes) : bool := bool_decide (map tolower s = map tolower t).

Definition IsLoopbackIP (a : SocketAddress) : bool :=
  if 0 =? sa_ip a then stricmp_eq (sa_hostname a) (str "localhost")
  else Z.shiftr (sa_ip a) 24 =? 127.

Definition IsPrivateIP (a : SocketAddress) : bool :=
  let ip := sa_ip a in
  (Z.shiftr ip 24 =? 127) || (Z.shiftr ip 24 =? 10) ||
  (Z.shiftr ip 20 =? Z.lor (Z.shiftl 172 4) 1) ||
  (Z.shiftr ip 16 =? Z.lor (Z.shiftl 192 8) 168) ||
  (Z.shiftr ip 16 =? Z.lor (Z.shiftl 169 8) 254).

Definition EqualIPs (a b : SocketAddress) : bool :=
  (sa_ip a =? sa_ip b) && (negb (sa_ip a =? 0) || bool_decide (sa_hostname a = sa_hostname b)).
Definition EqualPorts (a b : SocketAddress) : bool := sa_port a =? sa_port b.
Definition eqb (a b : SocketAddress) : bool := EqualIPs a b && EqualPorts a b.

(** [std::string::operator<]: lexicographic on unsigned bytes. *)
Fixpoint string_ltb (s t : bytes) : bool :=
  match s, t with
  | _, [] => false
  | [], _ :: _ => true
  | x :: s, y :: t =>
      if byte.unsigned x <? byte.unsigned y then true
      else if byte.unsigned y <? byte.unsigned x then false
      else string_ltb s t
  end.

Definition ltb (a b : SocketAddress) : bool :=
  if sa_ip a <? sa_ip b then true
  else if sa_ip b <? sa_ip a then false
  else if (sa_ip b =? 0) && string_ltb (sa_hostname a) (sa_hostname b) then true
  else if (sa_ip b =? 0) && string_ltb (sa_hostname b) (sa_hostname a) then false
  else sa_port a <? sa_port b.

(** [size_t] is 64 bits wide here, wider than both operands. *)
Definition Hash (a : SocketAddress) : Z :=
  Z.lxor (sa_ip a) (Z.lor (sa_port a) (Z.shiftl (sa_port a) 16)).

Definition Size_ : Z := 4 + 2 + 2.

Definition Write_ (a : SocketAddress) (buf : bytes) (len : Z) : option bytes :=
  if len <? Size_ then None
  else
    let buf := Set8 buf 0 0 in
    let buf := Set8 buf 1 AF_INET in
    let buf := take 2 buf ++ SetBE16 (drop 2 buf) (sa_port a) in
    Some (take 4 buf ++ SetBE32 (drop 4 buf) (sa_ip a)).

Definition Read_ (a : SocketAddress) (buf : bytes) (len : Z) : option SocketAddress :=
  if (len <? Size_) || negb (Get8 buf 1 =? AF_INET) then None
  else Some (mkSocketAddress (sa_hostname a) (GetBE32 (drop 4 buf)) (GetBE16 (drop 2 buf))).

(** The fields of [struct sockaddr_in] the code sets. *)
Record sockaddr_in := mkSockaddr { sin_family : Z; sin_port : Z; s_addr : Z }.

Section Host.
Context `{Platform}.

Definition ToSockAddr (a : SocketAddress) : sockaddr_in :=
  mkSockaddr AF_INET (HostToNetwork16 (sa_port a))
    (if 0 =? sa_ip a then 0 else HostToNetwork32 (sa_ip a)).

Definition FromSockAddr (saddr : sockaddr_in) (a : SocketAddress) : option SocketAddress :=
  if negb (sin_family saddr =? AF_INET) then None
  else Some (SetPort (NetworkToHost16 (sin_port saddr)) (SetIP (NetworkToHost32 (s_addr saddr)) a)).

(** [inet_aton]: [None] for an unparsable string, else the address in network
    order. *)
Variable inet_aton : bytes -> option Z.

Definition StringToIP (hostname : bytes) : Z :=
  match inet_aton hostname with Some s_addr => NetworkToHost32 s_addr | None => 0 end.
Definition SetIP_host (hostname : bytes) (a : SocketAddress) : SocketAddress :=
  mkSocketAddress hostname (StringToIP hostname) (sa_port a).
Definition make_host (hostname : bytes) (port : Z) : SocketAddress :=
  SetPort port (SetIP_host hostname Clear).
End Host.

(** The numbers and dots of an address. *)
Definition IPToString (ip : Z) : bytes :=
  Num.ToString (Z.land (Z.shiftr ip 24) 255) ++ str "." ++ Num.ToString (Z.land (Z.shiftr ip 16) 255) ++ str "." ++
  Num.ToString (Z.land (Z.shiftr ip 8) 255) ++ str "." ++ Num.ToString (Z.land (Z.shiftr ip 0) 255).
Definition IPAsString (a : SocketAddress) : bytes :=
  match sa_hostname a with [] => IPToString (sa_ip a) | h => h end.
Definition PortAsString (a : SocketAddress) : bytes := Num.ToString (sa_port a).
Definition ToString (a : SocketAddress) : bytes := IPAsString a ++ str ":" ++ Num.ToString (sa_port a).
(** The parts of a string before and after a byte. *)
Fixpoint split_first (c : byte) (s : bytes) : option (bytes * bytes) :=
  match s with
  | [] => None
  | d :: s => if decide (d = c) then Some ([], s) else '(a, b) ← split_first c s; Some (d :: a, b)
  end.
Definition FromString `{Platform} (inet_aton : bytes -> option Z) (s : bytes) (a : SocketAddress) : option SocketAddress :=
  '(host, port) ← split_first Byte.x3a s;
  Some (SetIP_host inet_aton host (SetPort (Num.strtoul port) a)).

(** ** Facts *)

(** The part of an address that [==] and [<] look at. *)
Definition sa_key (a : SocketAddress) : Z * bytes * Z :=
  (sa_ip a, if sa_ip a =? 0 then sa_hostname a else [], sa_port a).

Lemma eqb_key a b : eqb a b = true <-> sa_key a = sa_key b.
Proof.
  unfold eqb, EqualIPs, EqualPorts, sa_key.
  rewrite !andb_true_iff, orb_true_iff, negb_true_iff, bool_decide_eq_true, !Z.eqb_eq, Z.eqb_neq.
  destruct a as [h1 i1 p1], b as [h2 i2 p2]; simpl.
  destruct (Z.eqb_spec i1 0), (Z.eqb_spec i2 0); split.
  all: try (intros [[? [?|?]] ?]; subst; done || lia).
  all: intros E; simplify_eq; auto; lia.
Qed.

Lemma string_ltb_irrefl s : string_ltb s s = false.
Proof. induction s as [|x s IH]; [done|]. simpl. by rewrite Z.ltb_irrefl. Qed.

Lemma string_ltb_total s t : string_ltb s t = false -> string_ltb t s = false -> s = t.
Proof.
  revert t. induction s as [|x s IH]; intros [|y t]; simpl; try done.
  destruct (Z.ltb_spec (byte.unsigned x) (byte.unsigned y)),
    (Z.ltb_spec (byte.unsigned y) (byte.unsigned x)); try done; try lia.
  intros. f_equal; [|by apply IH]. apply byte.unsigned_inj. lia.
Qed.

Lemma string_ltb_trans s t u : string_ltb s t = true -> string_ltb t u = true -> string_ltb s u = true.
Proof.
  revert t u. induction s as [|x s IH]; intros [|y t] [|z u]; simpl; try done.
  repeat match goal with |- context [?a <? ?b] => destruct (Z.ltb_spec a b) end;
    try done; try lia. apply IH.
Qed.

(** [<] as the lexicographic order it implements. *)
Lemma ltb_spec a b :
  ltb a b = true <->
  sa_ip a < sa_ip b \/
  sa_ip a = sa_ip b /\
    ((sa_ip b = 0 /\ string_ltb (sa_hostname a) (sa_hostname b) = true) \/
     ((sa_ip b = 0 -> sa_hostname a = sa_hostname b) /\ sa_port a < sa_port b)).
Proof.
  unfold ltb. destruct a as [h1 i1 p1], b as [h2 i2 p2]; simpl.
  destruct (Z.ltb_spec i1 i2); [split; [by left|done]|].
  destruct (Z.ltb_spec i2 i1); [split; [done|lia]|]. assert (i1 = i2) as -> by lia.
  destruct (Z.eqb_spec i2 0); simpl.
  - destruct (string_ltb h1 h2) eqn:E12; [split; [by right; auto|done]|].
    destruct (string_ltb h2 h1) eqn:E21.
    + split; [done|]. intros [?|(_ & [[_ ?]|[Hh _]])]; [lia|congruence|].
      rewrite Hh, string_ltb_irrefl in E21 by done. done.
    + rewrite (string_ltb_total _ _ E12 E21), Z.ltb_lt.
      split; [auto|]. intros [?|(_ & [[_ ?]|[_ ?]])]; (lia || done).
  - rewrite Z.ltb_lt. split; [intros; right; split; [done|]; by right|].
    intros [?|(_ & [[? _]|[_ ?]])]; lia.
Qed.

Lemma ltb_trans a b c : ltb a b = true -> ltb b c = true -> ltb a c = true.
Proof.
  rewrite !ltb_spec. intros [H1|(E1 & H1)] [H2|(E2 & H2)]; [left; lia..|].
  right. split; [lia|]. rewrite <- E2 in *.
  destruct H1 as [[Z1 S1]|[S1 P1]], H2 as [[Z2 S2]|[S2 P2]].
  - left. eauto using string_ltb_trans.
  - left. rewrite <- S2 by done. auto.
  - left. rewrite S1 by lia. auto.
  - right. split; [|lia]. intros Hz. rewrite S1, S2 by lia. done.
Qed.

Lemma ltb_irrefl a : ltb a a = false.
Proof. unfold ltb. rewrite !Z.ltb_irrefl, string_ltb_irrefl, andb_false_r. done. Qed.

Lemma ltb_incomparable a b : ltb a b = false /\ ltb b a = false <-> sa_key a = sa_key b.
Proof.
  unfold ltb, sa_key. destruct a as [h1 i1 p1], b as [h2 i2 p2]; simpl. split.
  - intros [H1 H2]. destruct (Z.ltb_spec i1 i2), (Z.ltb_spec i2 i1); try done; try lia.
    assert (i1 = i2) as <- by lia.
    destruct (Z.eqb_spec i1 0); simpl in *.
    + destruct (string_ltb h1 h2) eqn:E12; [done|]. destruct (string_ltb h2 h1) eqn:E21; [done|].
      apply Z.ltb_ge in H1, H2. rewrite (string_ltb_total _ _ E12 E21). do 2 f_equal; lia.
    + apply Z.ltb_ge in H1, H2. f_equal; lia.
  - intros [= -> Hh ->]. rewrite Z.ltb_irrefl. destruct (Z.eqb_spec i2 0); simpl; [subst|];
      rewrite ?string_ltb_irrefl, !Z.ltb_irrefl; done.
Qed.

(** The order that keys the address maps is a strict total order of what
    [==] distinguishes: it is irreflexive and transitive, and two addresses
    that neither precedes are exactly the [==] ones (the hostname counts only
    for unresolved addresses), so a map never separates equal addresses. *)
Theorem socket_address_order (a b c : SocketAddress) :
  ltb a a = false /\
  (ltb a b = true -> ltb b c = true -> ltb a c = true) /\
  (ltb a b = false /\ ltb b a = false <-> eqb a b = true) /\
  (eqb a b = true -> Hash a = Hash b).
Proof.
  split; [apply ltb_irrefl|]. split; [apply ltb_trans|]. rewrite eqb_key.
  split; [apply ltb_incomparable|]. unfold sa_key, Hash. by intros [= -> _ ->].
Qed.

(** The bytes [Write_] leaves in a buffer that is long enough. *)
Lemma Write_bytes a buf : (8 <= length buf)%nat ->
  (let buf := Set8 buf 0 0 in
   let buf := Set8 buf 1 AF_INET in
   let buf := take 2 buf ++ SetBE16 (drop 2 buf) (sa_port a) in
   take 4 buf ++ SetBE32 (drop 4 buf) (sa_ip a)) =
  [mkbyte 0; mkbyte 2] ++ be_bytes 2 (sa_port a) ++ be_bytes 4 (sa_ip a) ++ drop 8 buf.
Proof.
  intros Hl. do 8 (destruct buf as [|? buf]; [simpl in Hl; lia|]).
  change (drop 8 (b :: b0 :: b1 :: b2 :: b3 :: b4 :: b5 :: b6 :: buf)) with buf.
  rewrite !be_bytes_S. done.
Qed.

(** Both wire forms give the address back: [Read_] inverts [Write_] in any
    buffer of at least the eight bytes it needs (and both refuse a shorter
    one), and the [sockaddr_in] filled in on a host of either byte order is read
    back as the same address and port. *)
Theorem socket_address_wire_roundtrip `{Platform} (a a0 : SocketAddress) (buf : bytes) :
  is_u32 (sa_ip a) -> is_u16 (sa_port a) ->
  FromSockAddr (ToSockAddr a) a0 = Some (mkSocketAddress [] (sa_ip a) (sa_port a)) /\
  let len := Z.of_nat (length buf) in
  match Write_ a buf len with
  | Some buf' =>
      8 <= len /\ length buf' = length buf /\ drop 8 buf' = drop 8 buf /\
      Read_ a0 buf' len = Some (mkSocketAddress (sa_hostname a0) (sa_ip a) (sa_port a))
  | None => len < 8 /\ Read_ a0 buf len = None
  end.
Proof.
  intros Hip Hport. split.
  - unfold FromSockAddr, ToSockAddr, SetPort, SetIP.
    cbn [sin_family sin_port s_addr sa_hostname sa_ip sa_port].
    change (AF_INET =? AF_INET) with true. cbn [negb]. f_equal. f_equal.
    + unfold HostToNetwork32, htonl. destruct (Z.eqb_spec 0 (sa_ip a)) as [<-|].
      * unfold NetworkToHost32, ntohl, host_store. by destruct host_big_endian.
      * rewrite NetworkToHost32_load by apply length_be_bytes.
        rewrite be_value_bytes_4. by apply u32_small.
    + unfold HostToNetwork16, htons. rewrite NetworkToHost16_load by apply length_be_bytes.
      rewrite be_value_bytes_2, !u16_small by (done || apply u16_range || (rewrite u16_small; done)). done.
  - cbv zeta. unfold Write_, Read_. change Size_ with 8.
    destruct (Z.ltb_spec (Z.of_nat (length buf)) 8); [done|].
    rewrite Write_bytes by lia. split; [done|]. split; [|split; [|]].
    + rewrite !length_app, !length_be_bytes, length_drop. simpl. lia.
    + rewrite !app_assoc. by rewrite drop_app_length' by (rewrite !length_app, !length_be_bytes; done).
    + change (Get8 _ 1 =? AF_INET) with true. simpl negb. cbn [orb]. f_equal. f_equal.
      * rewrite GetBE32_be by (rewrite length_drop, !length_app, !length_be_bytes; simpl; lia).
        rewrite app_assoc, drop_app_length' by (rewrite length_app, length_be_bytes; done).
        rewrite take_app_length' by (by rewrite length_be_bytes).
        rewrite be_value_bytes_4. by apply u32_small.
      * rewrite GetBE16_be by (rewrite length_drop, !length_app, !length_be_bytes; simpl; lia).
        rewrite drop_app_length' by done. rewrite take_app_length' by (by rewrite length_be_bytes).
        rewrite be_value_bytes_2. by apply u16_small.
Qed.

(** [inet_aton] reads the numbers and dots that [IPToString] writes. *)
Definition reads_dotted `{Platform} (inet_aton : bytes -> option Z) : Prop :=
  forall ip, is_u32 ip -> inet_aton (IPToString ip) = Some (HostToNetwork32 ip).
Lemma StringToIP_IPToString `{Platform} inet_aton ip :
  reads_dotted inet_aton -> is_u32 ip -> StringToIP inet_aton (IPToString ip) = ip.
Proof.
  intros Hr Hip. unfold StringToIP. rewrite Hr by done. unfold HostToNetwork32, htonl.
  rewrite NetworkToHost32_load by apply length_be_bytes. rewrite be_value_bytes_4. by apply u32_small.
Qed.
Lemma IPToString_nonempty ip : IPToString ip <> [].
Proof. unfold IPToString. intros E. apply app_eq_nil in E as [E _]. by apply Num.ToString_nonempty in E. Qed.

Lemma split_first_app c a b : c ∉ a -> split_first c (a ++ c :: b) = Some (a, b).
Proof.
  induction a as [|d a IH]; intros Hc; simpl; [by rewrite decide_True|].
  rewrite not_elem_of_cons in Hc. destruct Hc as [Hd Hc]. rewrite decide_False by done. by rewrite IH.
Qed.
(** The text of an address is read back, with the host's name as it was
    resolved. *)
Theorem address_text_roundtrip `{Platform} inet_aton (a a0 : SocketAddress) :
  is_u16 (sa_port a) -> Byte.x3a ∉ IPAsString a ->
  FromString inet_aton (ToString a) a0 =
    Some (mkSocketAddress (IPAsString a) (StringToIP inet_aton (IPAsString a)) (sa_port a)).
Proof.
  intros Hp Hc. unfold FromString, ToString. change (str ":" ++ ?s) with (Byte.x3a :: s). rewrite split_first_app by done.
  simpl. rewrite Num.strtoul_ToString by word_lia. unfold SetIP_host, SetPort. simpl. by rewrite u16_small.
Qed.

Lemma socket_address_wire_roundtrip_witness :
  @FromSockAddr big_host (@ToSockAddr big_host (make 167772161 5060)) Clear =
    Some (make 167772161 5060).
Proof.
  apply (@socket_address_wire_roundtrip big_host (make 167772161 5060) Clear (replicate 8 Byte.x00));
    vm_compute; split; congruence.
Defined.
End SockAddr.
