(* ===== verification/StdMap.v ===== *)
(** * [std::map]

    An ordered map is the list of its entries in the order of its comparator;
    two keys are the same entry when neither precedes the other. *)

From S2P Require Import Prelude ByteOrder SocketAddress.

(** The comparator of a key type, and what the lookups rely on: "neither
    precedes the other" is an equivalence. *)
Class MapKey (K : Type) := key_ltb : K -> K -> bool.
Definition key_same `{MapKey K} (a b : K) : bool := negb (key_ltb a b) && negb (key_ltb b a).
Class MapKeyLaws (K : Type) `{MapKey K} := {
  key_same_refl : forall a : K, key_same a a = true;
  key_same_trans : forall a b c : K, key_same a b = true -> key_same b c = true -> key_same a c = true;
}.

Section Map.
Context {K V : Type} `{MapKey K}.

Definition smap : Type := list (K * V).

Fixpoint map_find (k : K) (m : smap) : option V :=
  match m with
  | [] => None
  | (k', v) :: m => if key_same k k' then Some v else map_find k m
  end.

(** [m[k] = v]: an entry that is there keeps its key. *)
Fixpoint map_set (k : K) (v : V) (m : smap) : smap :=
  match m with
  | [] => [(k, v)]
  | (k', v') :: m' =>
      if key_ltb k k' then (k, v) :: m
      else if key_ltb k' k then (k', v') :: map_set k v m'
      else (k', v) :: m'
  end.

Definition map_erase (k : K) (m : smap) : smap := List.filter (fun e => negb (key_same k (fst e))) m.

Context `{!MapKeyLaws K}.

Lemma key_same_sym (a b : K) : key_same a b = key_same b a.
Proof. unfold key_same. apply andb_comm. Qed.

Lemma key_same_l (a b c : K) : key_same a b = true -> key_same a c = key_same b c.
Proof.
  intros E. destruct (key_same b c) eqn:Ebc; [by apply (key_same_trans a b c)|].
  destruct (key_same a c) eqn:Eac; [|done]. rewrite key_same_sym in E.
  by rewrite (key_same_trans b a c) in Ebc.
Qed.

Lemma map_find_same k k' m : key_same k k' = true -> map_find k m = map_find k' m.
Proof. intros E. induction m as [|[k0 v0] m IH]; [done|]. simpl. by rewrite (key_same_l k k' k0 E), IH. Qed.

Lemma map_find_set k k' v m :
  map_find k (map_set k' v m) = if key_same k k' then Some v else map_find k m.
Proof.
  induction m as [|[k0 v0] m IH]; simpl; [done|].
  destruct (key_ltb k' k0) eqn:E1; [done|]. destruct (key_ltb k0 k') eqn:E2; simpl.
  - rewrite IH. destruct (key_same k k') eqn:Ek; [|done].
    rewrite (key_same_l _ _ k0 Ek). unfold key_same. by rewrite E1, E2.
  - assert (E : key_same k' k0 = true) by (unfold key_same; by rewrite E1, E2).
    rewrite (key_same_sym k k'), (key_same_l _ _ k E), (key_same_sym k0 k). by destruct (key_same k k0).
Qed.

Lemma map_find_erase k k' m :
  map_find k (map_erase k' m) = if key_same k k' then None else map_find k m.
Proof.
  induction m as [|[k0 v0] m IH]; simpl; [by destruct (key_same k k')|].
  destruct (key_same k' k0) eqn:E; simpl.
  - rewrite IH. destruct (key_same k k') eqn:Ek; [done|].
    rewrite (key_same_sym k k0), <- (key_same_l _ _ k E), key_same_sym, Ek. done.
  - rewrite IH. destruct (key_same k k0) eqn:E0; [|done].
    destruct (key_same k k') eqn:Ek; [|done].
    rewrite key_same_sym in Ek. by rewrite (key_same_trans k' k k0) in E.
Qed.

Lemma map_find_In k v m : map_find k m = Some v -> exists k', In (k', v) m /\ key_same k k' = true.
Proof.
  induction m as [|[k0 v0] m IH]; simpl; [done|]. destruct (key_same k k0) eqn:E.
  - intros [= ->]. exists k0. auto.
  - intros Hf. destruct (IH Hf) as (k' & ? & ?). exists k'. auto.
Qed.

(** The values: a new key adds its own, an erased key takes its own. *)
Lemma map_set_values k v m : map_find k m = None -> Permutation (map snd (map_set k v m)) (v :: map snd m).
Proof.
  induction m as [|[k0 v0] m IH]; simpl; [done|]. destruct (key_same k k0) eqn:Es; [done|]. intros Hf.
  destruct (key_ltb k k0) eqn:E1; [done|]. destruct (key_ltb k0 k) eqn:E2; simpl.
  - rewrite (IH Hf). apply Permutation_swap.
  - unfold key_same in Es. by rewrite E1, E2 in Es.
Qed.
Lemma map_erase_values k m v : NoDup (map snd m) -> map_find k m = Some v ->
  NoDup (map snd (map_erase k m)) /\ forall u, u ∈ map snd (map_erase k m) -> u ∈ map snd m /\ u <> v.
Proof.
  intros Hn Hf. split.
  - clear Hf. induction m as [|[k0 v0] m IH]; simpl in *; [done|]. apply NoDup_cons in Hn as [Hv Hn].
    destruct (key_same k k0); simpl; [by apply IH|]. apply NoDup_cons. split; [|by apply IH].
    intros Hin. apply Hv. clear -Hin. apply list_elem_of_fmap in Hin as ([k1 v1] & -> & Hin).
    apply list_elem_of_In, List.filter_In in Hin as [Hin _]. apply list_elem_of_fmap. exists (k1, v1). by rewrite list_elem_of_In.
  - intros u Hin. apply list_elem_of_fmap in Hin as ([k1 v1] & -> & Hin).
    apply list_elem_of_In, List.filter_In in Hin as [Hin Hs]. simpl in *.
    split; [apply list_elem_of_fmap; exists (k1, v1); by rewrite list_elem_of_In|]. intros ->.
    induction m as [|[k0 v0] m IH]; simpl in *; [done|]. apply NoDup_cons in Hn as [Hv Hn].
    assert (Hm : forall k', In (k', v) m -> v ∈ map snd m).
    { intros k' Hi. apply list_elem_of_fmap. exists (k', v). by rewrite list_elem_of_In. }
    destruct (key_same k k0) eqn:Es.
    + injection Hf as ->. destruct Hin as [E|Hin]; [injection E as ->; by rewrite Es in Hs|]. by apply Hv, (Hm k1).
    + destruct Hin as [E|Hin]; [injection E as -> ->|by apply IH]. apply map_find_In in Hf as (k' & Hi & _). by apply Hv, (Hm k').
Qed.
End Map.
#[global] Arguments smap : clear implicits.

(** ** Keys: strings, addresses and pairs of addresses *)

#[export] Instance string_key : MapKey bytes := SockAddr.string_ltb.
#[export] Instance address_key : MapKey SocketAddress := SockAddr.ltb.

(** [talk_base::SocketAddressPair]. *)
Record SocketAddressPair := mkPair { src_ : SocketAddress; dest_ : SocketAddress }.
#[export] Instance SocketAddressPair_eq_dec : EqDecision SocketAddressPair.
Proof. solve_decision. Defined.

Module AddrPair.
Definition eqb (p q : SocketAddressPair) : bool :=
  SockAddr.eqb (src_ p) (src_ q) && SockAddr.eqb (dest_ p) (dest_ q).
Definition ltb (p q : SocketAddressPair) : bool :=
  if SockAddr.ltb (src_ p) (src_ q) then true
  else if SockAddr.ltb (src_ q) (src_ p) then false
  else if SockAddr.ltb (dest_ p) (dest_ q) then true
  else if SockAddr.ltb (dest_ q) (dest_ p) then false
  else false.
Definition Hash (p : SocketAddressPair) : Z := Z.lxor (SockAddr.Hash (src_ p)) (SockAddr.Hash (dest_ p)).
End AddrPair.
#[export] Instance pair_key : MapKey SocketAddressPair := AddrPair.ltb.

Lemma string_same (a b : bytes) : key_same a b = true <-> a = b.
Proof.
  unfold key_same, key_ltb, string_key. rewrite andb_true_iff, !negb_true_iff. split.
  - intros [? ?]. by apply SockAddr.string_ltb_total.
  - intros ->. by rewrite SockAddr.string_ltb_irrefl.
Qed.
#[export] Instance string_key_laws : MapKeyLaws bytes.
Proof.
  split; [intros; by apply string_same|]. intros a b c. rewrite !string_same. congruence.
Qed.

Lemma address_same (a b : SocketAddress) : key_same a b = SockAddr.eqb a b.
Proof.
  apply eq_true_iff_eq. unfold key_same, key_ltb, address_key.
  rewrite andb_true_iff, !negb_true_iff, SockAddr.eqb_key. apply SockAddr.ltb_incomparable.
Qed.
#[export] Instance address_key_laws : MapKeyLaws SocketAddress.
Proof.
  split; [intros; rewrite address_same; by apply SockAddr.eqb_key|].
  intros a b c. rewrite !address_same, !SockAddr.eqb_key. congruence.
Qed.

Lemma pair_same (p q : SocketAddressPair) : key_same p q = AddrPair.eqb p q.
Proof.
  unfold AddrPair.eqb. rewrite <- !address_same. unfold key_same, key_ltb, pair_key, address_key, AddrPair.ltb.
  destruct (SockAddr.ltb (src_ p) (src_ q)) eqn:E1, (SockAddr.ltb (src_ q) (src_ p)) eqn:E2; try done.
  by destruct (SockAddr.ltb (dest_ p) (dest_ q)), (SockAddr.ltb (dest_ q) (dest_ p)).
Qed.
#[export] Instance pair_key_laws : MapKeyLaws SocketAddressPair.
Proof.
  split; [intros; rewrite pair_same; unfold AddrPair.eqb; rewrite <- !address_same; by rewrite !key_same_refl|].
  intros a b c. rewrite !pair_same. unfold AddrPair.eqb. rewrite <- !address_same, !andb_true_iff.
  intros [? ?] [? ?]. split; eapply key_same_trans; eauto.
Qed.
