(* ===== verification/Stun.v ===== *)
(** * STUN/TURN messages (talk/p2p/base/stun.h, stun.cc)

    One module per attribute class, then the message.  The codec is written
    against the [ByteQueue] interface; [Read] is a parser that keeps, like the
    C++ object, whatever it had stored when it failed. *)

From S2P Require Import Prelude ByteOrder ByteBuffer.

(** ** Message and attribute types *)

Definition STUN_BINDING_REQUEST : Z := 0x0001.
Definition STUN_BINDING_RESPONSE : Z := 0x0101.
Definition STUN_BINDING_ERROR_RESPONSE : Z := 0x0111.
Definition STUN_SHARED_SECRET_REQUEST : Z := 0x0002.
Definition STUN_SHARED_SECRET_RESPONSE : Z := 0x0102.
Definition STUN_SHARED_SECRET_ERROR_RESPONSE : Z := 0x0112.
Definition STUN_ALLOCATE_REQUEST : Z := 0x0003.
Definition STUN_ALLOCATE_RESPONSE : Z := 0x0103.
Definition STUN_ALLOCATE_ERROR_RESPONSE : Z := 0x0113.
Definition STUN_SEND_REQUEST : Z := 0x0004.
Definition STUN_SEND_RESPONSE : Z := 0x0104.
Definition STUN_SEND_ERROR_RESPONSE : Z := 0x0114.
Definition STUN_DATA_INDICATION : Z := 0x0115.

Definition STUN_ATTR_MAPPED_ADDRESS : Z := 0x0001.
Definition STUN_ATTR_RESPONSE_ADDRESS : Z := 0x0002.
Definition STUN_ATTR_CHANGE_REQUEST : Z := 0x0003.
Definition STUN_ATTR_SOURCE_ADDRESS : Z := 0x0004.
Definition STUN_ATTR_CHANGED_ADDRESS : Z := 0x0005.
Definition STUN_ATTR_USERNAME : Z := 0x0006.
Definition STUN_ATTR_PASSWORD : Z := 0x0007.
Definition STUN_ATTR_MESSAGE_INTEGRITY : Z := 0x0008.
Definition STUN_ATTR_ERROR_CODE : Z := 0x0009.
Definition STUN_ATTR_UNKNOWN_ATTRIBUTES : Z := 0x000a.
Definition STUN_ATTR_REFLECTED_FROM : Z := 0x000b.
Definition STUN_ATTR_TRANSPORT_PREFERENCES : Z := 0x000c.
Definition STUN_ATTR_LIFETIME : Z := 0x000d.
Definition STUN_ATTR_ALTERNATE_SERVER : Z := 0x000e.
Definition STUN_ATTR_MAGIC_COOKIE : Z := 0x000f.
Definition STUN_ATTR_BANDWIDTH : Z := 0x0010.
Definition STUN_ATTR_DESTINATION_ADDRESS : Z := 0x0011.
Definition STUN_ATTR_SOURCE_ADDRESS2 : Z := 0x0012.
Definition STUN_ATTR_DATA : Z := 0x0013.
Definition STUN_ATTR_OPTIONS : Z := 0x8001.

Definition STUN_ERROR_BAD_REQUEST : Z := 400.
Definition STUN_ERROR_UNAUTHORIZED : Z := 401.
Definition STUN_ERROR_UNKNOWN_ATTRIBUTE : Z := 420.
Definition STUN_ERROR_STALE_CREDENTIALS : Z := 430.
Definition STUN_ERROR_SERVER_ERROR : Z := 500.
Definition STUN_ERROR_GLOBAL_FAILURE : Z := 600.

Definition STUN_ERROR_REASON_BAD_REQUEST : bytes := str "BAD REQUEST".
Definition STUN_ERROR_REASON_STALE_CREDENTIALS : bytes := str "STALE CREDENTIALS".
Definition STUN_ERROR_REASON_SERVER_ERROR : bytes := str "SERVER ERROR".

Definition kStunTransactionIdOffset : nat := 8.
Definition kStunTransactionIdLength : nat := 12.
Definition kStunMagicCookie : bytes := map mkbyte [0x21; 0x12; 0xA4; 0x42].
Definition kStunMagicCookieLength : nat := 4.
Definition kStunLegacyTransactionIdLength : nat := 16.
Definition TURN_MAGIC_COOKIE_VALUE : bytes := map mkbyte [0x72; 0xC6; 0x4B; 0xC6].

(** The case labels the [switch]es over the attribute type share. *)
Definition is_in (t : Z) (l : list Z) : bool := existsb (Z.eqb t) l.
Definition address_types : list Z :=
  [STUN_ATTR_MAPPED_ADDRESS; STUN_ATTR_RESPONSE_ADDRESS; STUN_ATTR_SOURCE_ADDRESS;
   STUN_ATTR_CHANGED_ADDRESS; STUN_ATTR_REFLECTED_FROM; STUN_ATTR_ALTERNATE_SERVER;
   STUN_ATTR_DESTINATION_ADDRESS; STUN_ATTR_SOURCE_ADDRESS2].
Definition uint32_types : list Z :=
  [STUN_ATTR_CHANGE_REQUEST; STUN_ATTR_LIFETIME; STUN_ATTR_BANDWIDTH; STUN_ATTR_OPTIONS].
Definition bytestring_types : list Z :=
  [STUN_ATTR_USERNAME; STUN_ATTR_PASSWORD; STUN_ATTR_MESSAGE_INTEGRITY; STUN_ATTR_DATA;
   STUN_ATTR_MAGIC_COOKIE].

(** ** Parsers

    A parser works on an object under construction and the buffer.  [get]
    models [if (!buf->ReadX(&field)) return false;], [andthen] the sequence of
    such statements, [guard] an early [return false]. *)

Section Parsers.
Context {B : Type} `{ByteQueue B}.

Definition parser (S : Type) : Type := S * B -> bool * (S * B).

Definition get {S V} (rd : B -> option (V * B)) (upd : V -> S -> S) : parser S :=
  fun '(s, b) =>
    match rd b with
    | Some (v, b') => (true, (upd v s, b'))
    | None => (false, (s, b))
    end.
Definition andthen {S} (p q : parser S) : parser S :=
  fun sb => let '(ok, sb') := p sb in if ok then q sb' else (false, sb').
Definition done_ok {S} : parser S := fun sb => (true, sb).
Definition update {S} (f : S -> S) : parser S := fun '(s, b) => (true, (f s, b)).
Definition guard {S} (c : S -> bool) : parser S := fun '(s, b) => (c s, (s, b)).
(** A part of the object decided by the state reached so far. *)
Definition dep {S} (p : S -> parser S) : parser S := fun '(s, b) => p s (s, b).
End Parsers.

Notation "p ;> q" := (andthen p q) (at level 60, right associativity) : jingle_scope.
#[local] Open Scope jingle_scope.

(** ** Attributes *)

(** The fields of [StunAddressAttribute]. *)
Record Address := mkAddress { family_ : Z; port_ : Z; ip_ : Z }.

(** The fields of each subclass of [StunAttribute].  [bytes_] is [None] for a
    null pointer; the address of the transport preferences carries its type. *)
Inductive body :=
  | BAddress (a : Address)
  | BUInt32 (bits_ : Z)
  | BByteString (bytes_ : option bytes)
  | BErrorCode (class_ number_ : Z) (reason_ : bytes)
  | BUInt16List (attr_types_ : list Z)
  | BTransportPrefs (preallocate_ : bool) (prefs_ : Z) (addr_ : option (Z * Address)).

Record StunAttribute := mkAttr { type_ : Z; length_ : Z; body_ : body }.

Definition SetLength (a : StunAttribute) (l : Z) : StunAttribute :=
  {| type_ := type_ a; length_ := u16 l; body_ := body_ a |}.
Definition set_body (a : StunAttribute) (bd : body) : StunAttribute :=
  {| type_ := type_ a; length_ := length_ a; body_ := bd |}.

Module StunAddressAttribute.
Definition SIZE : Z := 8.
Definition make (type : Z) : StunAttribute := mkAttr type SIZE (BAddress (mkAddress 0 0 0)).
Definition SetFamily (v : Z) (a : Address) : Address := mkAddress v (port_ a) (ip_ a).
Definition SetPort (v : Z) (a : Address) : Address := mkAddress (family_ a) v (ip_ a).
Definition SetIP (v : Z) (a : Address) : Address := mkAddress (family_ a) (port_ a) v.

Section RW.
Context {B : Type} `{ByteQueue B}.
Definition Read : parser (B := B) Address :=
  get q_read8 (fun _ a => a) ;>
  get q_read8 SetFamily ;>
  get q_read16 SetPort ;>
  get q_read32 SetIP.
Definition Write (a : Address) (buf : B) : B :=
  let buf := q_write8 buf 0 in
  let buf := q_write8 buf (family_ a) in
  let buf := q_write16 buf (port_ a) in
  q_write32 buf (ip_ a).
End RW.
End StunAddressAttribute.

Module StunUInt32Attribute.
Definition SIZE : Z := 4.
Definition make (type : Z) : StunAttribute := mkAttr type SIZE (BUInt32 0).
Definition GetBit (bits : Z) (index : Z) : bool := negb (Z.land (Z.shiftr bits index) 1 =? 0).
Definition SetBit (bits : Z) (index : Z) (value : bool) : Z :=
  let bits := Z.land bits (u32 (Z.lnot (Z.shiftl 1 index))) in
  Z.lor bits (if value then u32 (Z.shiftl 1 index) else 0).
Section RW.
Context {B : Type} `{ByteQueue B}.
Definition Read : parser (B := B) Z := get q_read32 (fun v _ => v).
Definition Write (bits : Z) (buf : B) : B := q_write32 buf bits.
End RW.
End StunUInt32Attribute.

Module StunByteStringAttribute.
Definition make (type length : Z) : StunAttribute := mkAttr type length (BByteString None).
(** [CopyBytes(const void*, uint16)] copies [length] bytes and sets both the
    pointer and the length. *)
Definition CopyBytes (s : bytes) (length : Z) (a : StunAttribute) : StunAttribute :=
  SetLength (set_body a (BByteString (Some (take (Z.to_nat (u16 length)) s)))) length.
Section RW.
Context {B : Type} `{ByteQueue B}.
(** A failed read leaves a fresh array in [bytes_]; the attribute is then
    dropped, so its content is not modelled. *)
Definition Read (length : Z) : parser (B := B) (option bytes) :=
  get (q_read_bytes (Z.to_nat length)) (fun s _ => Some s).
Definition Write (length : Z) (s : option bytes) (buf : B) : B :=
  q_write_bytes buf (take (Z.to_nat length) (default [] s)).
End RW.
End StunByteStringAttribute.

Module StunErrorCodeAttribute.
Definition MIN_SIZE : Z := 4.
Definition make (type length : Z) : StunAttribute := mkAttr type length (BErrorCode 0 0 []).
(** [error_code()]. *)
Definition error_code (class_ number_ : Z) : Z := Z.lor (Z.shiftl class_ 8) number_.
(** The fields as a triple (class, number, reason). *)
Definition fields : Type := Z * Z * bytes.
Definition SetErrorCode (code : Z) (f : fields) : fields :=
  (u8 (Z.land (Z.shiftr code 8) 0x7), u8 (Z.land code 0xff), snd f).
Definition SetErrorClass (v : Z) (f : fields) : fields := (u8 v, snd (fst f), snd f).
Definition SetNumber (v : Z) (f : fields) : fields := (fst (fst f), u8 v, snd f).
Definition to_body (f : fields) : body := BErrorCode (fst (fst f)) (snd (fst f)) (snd f).
Definition of_body (b : body) : fields :=
  match b with BErrorCode c n r => (c, n, r) | _ => (0, 0, []) end.
Definition SetReason (reason : bytes) (a : StunAttribute) : StunAttribute :=
  let a := SetLength a (MIN_SIZE + u16 (Z.of_nat (length reason))) in
  let '(c, n, _) := of_body (body_ a) in
  set_body a (BErrorCode c n reason).
Section RW.
Context {B : Type} `{ByteQueue B}.
(** [ReadString(&reason_, length() - 4)]: a length below 4 converts to a
    huge [size_t], which the buffer refuses. *)
Definition read_reason (length : Z) (b : B) : option (bytes * B) :=
  if length <? 4 then None else q_read_bytes (Z.to_nat (length - 4)) b.
Definition Read (length : Z) : parser (B := B) fields :=
  get q_read32 SetErrorCode ;>
  get (read_reason length) (fun s f => (fst f, snd f ++ s)).
Definition Write (f : fields) (buf : B) : B :=
  let buf := q_write32 buf (error_code (fst (fst f)) (snd (fst f))) in
  q_write_bytes buf (snd f).
End RW.
End StunErrorCodeAttribute.

Module StunUInt16ListAttribute.
Definition make (type length : Z) : StunAttribute := mkAttr type length (BUInt16List []).
Definition AddType (value : Z) (a : StunAttribute) : StunAttribute :=
  match body_ a with
  | BUInt16List l =>
      let l := l ++ [value] in
      SetLength (set_body a (BUInt16List l)) (u16 (Z.of_nat (length l) * 2))
  | _ => a
  end.
Section RW.
Context {B : Type} `{ByteQueue B}.
(** The [for] loop over [i < length() / 2]. *)
Fixpoint Read_loop (n : nat) : parser (B := B) (list Z) :=
  match n with
  | O => done_ok
  | S n => get q_read16 (fun v l => l ++ [v]) ;> Read_loop n
  end.
Definition Read (length : Z) : parser (B := B) (list Z) :=
  Read_loop (Z.to_nat (length / 2)).
Definition Write (l : list Z) (buf : B) : B :=
  fold_left (fun buf v => q_write16 buf v) l buf.
End RW.
End StunUInt16ListAttribute.

Module StunTransportPrefsAttribute.
Definition SIZE1 : Z := 4.
Definition SIZE2 : Z := 12.
Definition make (type length : Z) : StunAttribute :=
  mkAttr type length (BTransportPrefs false 0 None).
(** The fields as a triple (preallocate, prefs, addr). *)
Definition fields : Type := bool * Z * option (Z * Address).
Definition SetPreallocateAddress (addr : option (Z * Address)) (a : StunAttribute)
    : StunAttribute :=
  match body_ a, addr with
  | BTransportPrefs _ prefs _, None => SetLength (set_body a (BTransportPrefs false prefs None)) SIZE1
  | BTransportPrefs _ prefs _, Some _ => SetLength (set_body a (BTransportPrefs true prefs addr)) SIZE2
  | _, _ => a
  end.
Section RW.
Context {B : Type} `{ByteQueue B}.
Definition read_flags (val : Z) (f : fields) : fields :=
  (negb (Z.land (Z.shiftr val 2) 0x1 =? 0), u8 (Z.land val 0x3), snd f).
(** [addr_ = new StunAddressAttribute(...); addr_->Read(buf);]: the result
    of the nested read is not looked at. *)
Definition read_addr : parser (B := B) fields := fun '(f, b) =>
  let '(_, (ad, b')) := StunAddressAttribute.Read (mkAddress 0 0 0, b) in
  (true, ((fst f, Some (STUN_ATTR_SOURCE_ADDRESS, ad)), b')).
Definition Read (length : Z) : parser (B := B) fields :=
  get q_read32 read_flags ;>
  dep (fun f =>
    if negb (fst (fst f)) then guard (fun _ => length =? StunUInt32Attribute.SIZE)
    else
      guard (fun _ => length =? StunUInt32Attribute.SIZE + StunAddressAttribute.SIZE) ;>
      read_addr).
Definition Write (f : fields) (buf : B) : B :=
  let '(preallocate, prefs, addr) := f in
  let buf := q_write32 buf (Z.lor (if preallocate then 4 else 0) prefs) in
  if preallocate then
    match addr with Some (_, ad) => StunAddressAttribute.Write ad buf | None => buf end
  else buf.
End RW.
End StunTransportPrefsAttribute.

(** [StunAttribute]: the factory and the virtual methods. *)
Module StunAttributeBase.
Definition Create (type length : Z) : option StunAttribute :=
  if is_in type address_types then
    if negb (length =? StunAddressAttribute.SIZE) then None
    else Some (StunAddressAttribute.make type)
  else if is_in type uint32_types then
    if negb (length =? StunUInt32Attribute.SIZE) then None
    else Some (StunUInt32Attribute.make type)
  else if is_in type [STUN_ATTR_USERNAME; STUN_ATTR_PASSWORD; STUN_ATTR_MAGIC_COOKIE] then
    if length mod 4 =? 0 then Some (StunByteStringAttribute.make type length) else None
  else if type =? STUN_ATTR_MESSAGE_INTEGRITY then
    if length =? 20 then Some (StunByteStringAttribute.make type length) else None
  else if type =? STUN_ATTR_DATA then Some (StunByteStringAttribute.make type length)
  else if type =? STUN_ATTR_ERROR_CODE then
    if length <? StunErrorCodeAttribute.MIN_SIZE then None
    else Some (StunErrorCodeAttribute.make type length)
  else if type =? STUN_ATTR_UNKNOWN_ATTRIBUTES then
    if length mod 2 =? 0 then Some (StunUInt16ListAttribute.make type length) else None
  else if type =? STUN_ATTR_TRANSPORT_PREFERENCES then
    if negb (length =? StunTransportPrefsAttribute.SIZE1) &&
       negb (length =? StunTransportPrefsAttribute.SIZE2) then None
    else Some (StunTransportPrefsAttribute.make type length)
  else None.

(** The typed factories; [ASSERT(false); return 0;] for other types. *)
Definition CreateAddress (type : Z) : option StunAttribute :=
  if is_in type address_types then Some (StunAddressAttribute.make type) else None.
Definition CreateUInt32 (type : Z) : option StunAttribute :=
  if is_in type uint32_types then Some (StunUInt32Attribute.make type) else None.
Definition CreateByteString (type : Z) : option StunAttribute :=
  if is_in type bytestring_types then Some (StunByteStringAttribute.make type 0) else None.
Definition CreateErrorCode : StunAttribute :=
  StunErrorCodeAttribute.make STUN_ATTR_ERROR_CODE StunErrorCodeAttribute.MIN_SIZE.
Definition CreateUnknownAttributes : StunAttribute :=
  StunUInt16ListAttribute.make STUN_ATTR_UNKNOWN_ATTRIBUTES 0.
Definition CreateTransportPrefs : StunAttribute :=
  StunTransportPrefsAttribute.make STUN_ATTR_TRANSPORT_PREFERENCES
    StunTransportPrefsAttribute.SIZE1.

Section RW.
Context {B : Type} `{ByteQueue B}.
(** Runs a subclass's reader and stores its fields back. *)
Definition lift {S} (p : parser (B := B) S) (s : S) (inj : S -> body) :
    parser (B := B) StunAttribute :=
  fun '(a, b) => let '(ok, (s', b')) := p (s, b) in (ok, (set_body a (inj s'), b')).
Definition Read : parser (B := B) StunAttribute := fun '(a, b) =>
  match body_ a with
  | BAddress ad => lift StunAddressAttribute.Read ad BAddress (a, b)
  | BUInt32 v => lift StunUInt32Attribute.Read v BUInt32 (a, b)
  | BByteString s => lift (StunByteStringAttribute.Read (length_ a)) s BByteString (a, b)
  | BErrorCode c n r =>
      lift (StunErrorCodeAttribute.Read (length_ a)) (c, n, r)
        StunErrorCodeAttribute.to_body (a, b)
  | BUInt16List l => lift (StunUInt16ListAttribute.Read (length_ a)) l BUInt16List (a, b)
  | BTransportPrefs p t ad =>
      lift (StunTransportPrefsAttribute.Read (length_ a)) (p, t, ad)
        (fun f => BTransportPrefs (fst (fst f)) (snd (fst f)) (snd f)) (a, b)
  end.
Definition Write (a : StunAttribute) (buf : B) : B :=
  match body_ a with
  | BAddress ad => StunAddressAttribute.Write ad buf
  | BUInt32 v => StunUInt32Attribute.Write v buf
  | BByteString s => StunByteStringAttribute.Write (length_ a) s buf
  | BErrorCode c n r => StunErrorCodeAttribute.Write (c, n, r) buf
  | BUInt16List l => StunUInt16ListAttribute.Write l buf
  | BTransportPrefs p t ad => StunTransportPrefsAttribute.Write (p, t, ad) buf
  end.
End RW.
End StunAttributeBase.

(** ** Messages *)

Record StunMessage := mkMessage {
  m_type : Z;
  m_length : Z;
  transaction_id_ : bytes;
  attrs_ : list StunAttribute;
}.

Module StunMsg.
Import StunAttributeBase.

Definition IsValidTransactionId (id : bytes) : bool :=
  (length id =? kStunTransactionIdLength)%nat ||
  (length id =? kStunLegacyTransactionIdLength)%nat.

(** The constructor [StunMessage()]. *)
Definition make : StunMessage := mkMessage 0 0 (str "000000000000") [].

Definition IsLegacy (m : StunMessage) : bool :=
  (length (transaction_id_ m) =? kStunLegacyTransactionIdLength)%nat.

Definition SetType (t : Z) (m : StunMessage) : StunMessage :=
  mkMessage (u16 t) (m_length m) (transaction_id_ m) (attrs_ m).
Definition SetTransactionID (id : bytes) (m : StunMessage) : StunMessage :=
  mkMessage (m_type m) (m_length m) id (attrs_ m).
Definition set_length (l : Z) (m : StunMessage) : StunMessage :=
  mkMessage (m_type m) l (transaction_id_ m) (attrs_ m).
Definition set_attrs (l : list StunAttribute) (m : StunMessage) : StunMessage :=
  mkMessage (m_type m) (m_length m) (transaction_id_ m) l.

Definition AddAttribute (a : StunAttribute) (m : StunMessage) : StunMessage :=
  mkMessage (m_type m) (u16 (m_length m + (length_ a + 4))) (transaction_id_ m)
    (attrs_ m ++ [a]).

(** The first attribute of the given type. *)
Definition GetAttribute (type : Z) (m : StunMessage) : option StunAttribute :=
  List.find (fun a => type_ a =? type) (attrs_ m).

(** The getters; each casts the attribute to the subclass its [switch] names,
    and asserts (here: [None]) on other types. *)
Definition GetAddress (type : Z) (m : StunMessage) : option StunAttribute :=
  if is_in type address_types then GetAttribute type m else None.
Definition GetUInt32 (type : Z) (m : StunMessage) : option StunAttribute :=
  if is_in type uint32_types then GetAttribute type m else None.
Definition GetByteString (type : Z) (m : StunMessage) : option StunAttribute :=
  if is_in type bytestring_types then GetAttribute type m else None.
Definition GetErrorCode (m : StunMessage) : option StunAttribute :=
  GetAttribute STUN_ATTR_ERROR_CODE m.
Definition GetUnknownAttributes (m : StunMessage) : option StunAttribute :=
  GetAttribute STUN_ATTR_UNKNOWN_ATTRIBUTES m.
Definition GetTransportPrefs (m : StunMessage) : option StunAttribute :=
  GetAttribute STUN_ATTR_TRANSPORT_PREFERENCES m.

Section RW.
Context {B : Type} `{ByteQueue B}.

(** The body of the [while (buf->Length() > rest)] loop, [fuel] times at most.
    [read_attrs_unfold] below: with the buffer's length as fuel it is the loop. *)
Fixpoint read_attrs (fuel rest : nat) : parser (B := B) StunMessage := fun '(m, b) =>
  if (q_length b <=? rest)%nat then (true, (m, b))
  else match fuel with
  | O => (false, (m, b))
  | S fuel =>
      match q_read16 b with
      | None => (false, (m, b))
      | Some (attr_type, b) =>
          match q_read16 b with
          | None => (false, (m, b))
          | Some (attr_length, b) =>
              match Create attr_type attr_length with
              | None => (false, (m, b))
              | Some attr =>
                  let '(ok, (attr, b)) := StunAttributeBase.Read (attr, b) in
                  if ok then read_attrs fuel rest (set_attrs (attrs_ m ++ [attr]) m, b)
                  else (false, (m, b))
              end
          end
      end
  end.

(** From the length check on. *)
Definition read_body : parser (B := B) StunMessage := fun '(m, b) =>
  if Z.of_nat (q_length b) <? m_length m then (false, (m, b))
  else
    let m := set_attrs [] m in
    let rest := (q_length b - Z.to_nat (m_length m))%nat in
    let '(ok, (m, b)) := read_attrs (q_length b) rest (m, b) in
    if ok then ((q_length b =? rest)%nat, (m, b)) else (false, (m, b)).

(** The magic cookie and the transaction id; without the cookie the sixteen
    bytes are the id (RFC 3489). *)
Definition read_ids : parser (B := B) StunMessage := fun '(m, b) =>
  match q_read_bytes kStunMagicCookieLength b with
  | None => (false, (m, b))
  | Some (magic_cookie, b) =>
      match q_read_bytes kStunTransactionIdLength b with
      | None => (false, (m, b))
      | Some (transaction_id, b) =>
          let id := if decide (magic_cookie = kStunMagicCookie) then transaction_id
                    else magic_cookie ++ transaction_id in
          (true, (SetTransactionID id m, b))
      end
  end.

Definition Read : parser (B := B) StunMessage :=
  get q_read16 SetType ;>
  guard (fun m => Z.land (m_type m) 0x8000 =? 0) ;>
  get q_read16 set_length ;>
  read_ids ;>
  read_body.

Definition write_attr (buf : B) (a : StunAttribute) : B :=
  let buf := q_write16 buf (type_ a) in
  let buf := q_write16 buf (length_ a) in
  StunAttributeBase.Write a buf.

Definition Write (m : StunMessage) (buf : B) : B :=
  let buf := q_write16 buf (m_type m) in
  let buf := q_write16 buf (m_length m) in
  let buf := if IsLegacy m then buf else q_write_bytes buf kStunMagicCookie in
  let buf := q_write_bytes buf (transaction_id_ m) in
  fold_left write_attr (attrs_ m) buf.
End RW.

Definition GetStunResponseType (request_type : Z) : Z :=
  if request_type =? STUN_SHARED_SECRET_REQUEST then STUN_SHARED_SECRET_RESPONSE
  else if request_type =? STUN_ALLOCATE_REQUEST then STUN_ALLOCATE_RESPONSE
  else if request_type =? STUN_SEND_REQUEST then STUN_SEND_RESPONSE
  else STUN_BINDING_RESPONSE.

Definition GetStunErrorResponseType (request_type : Z) : Z :=
  if request_type =? STUN_SHARED_SECRET_REQUEST then STUN_SHARED_SECRET_ERROR_RESPONSE
  else if request_type =? STUN_ALLOCATE_REQUEST then STUN_ALLOCATE_ERROR_RESPONSE
  else if request_type =? STUN_SEND_REQUEST then STUN_SEND_ERROR_RESPONSE
  else STUN_BINDING_ERROR_RESPONSE.
End StunMsg.
