(* ===== verification/StunFacts.v ===== *)
(** * Correctness of the STUN codec

    The wire format as a function to bytes ([enc_message]), the well-formed
    messages, and the proofs that [Write] produces the wire format, [Read]
    inverts it, and [Read] on arbitrary input yields well-formed messages and
    consumes exactly the bytes the header announces. *)

From S2P Require Import Prelude ByteOrder ByteBuffer Stun.
#[local] Open Scope jingle_scope.

(** Case analysis on [is_in t l = true] for a literal list [l]. *)
Lemma is_in_elem t l : is_in t l = true -> In t l.
Proof. unfold is_in. rewrite existsb_exists. by intros (x & ? & ->%Z.eqb_eq). Qed.
Ltac is_in_cases H :=
  apply is_in_elem in H; simpl in H; repeat destruct H as [H|H]; [subst..|done].

(** ** The wire format *)

Definition enc_address (a : Address) : bytes :=
  be_bytes 1 0 ++ be_bytes 1 (family_ a) ++ be_bytes 2 (port_ a) ++ be_bytes 4 (ip_ a).

Definition enc_body (len : Z) (b : body) : bytes :=
  match b with
  | BAddress a => enc_address a
  | BUInt32 v => be_bytes 4 v
  | BByteString s => take (Z.to_nat len) (default [] s)
  | BErrorCode c n r => be_bytes 4 (StunErrorCodeAttribute.error_code c n) ++ r
  | BUInt16List l => concat (map (be_bytes 2) l)
  | BTransportPrefs p t ad =>
      be_bytes 4 (Z.lor (if p then 4 else 0) t) ++
      (if p then match ad with Some (_, a) => enc_address a | None => [] end else [])
  end.

Definition enc_attr (a : StunAttribute) : bytes :=
  be_bytes 2 (type_ a) ++ be_bytes 2 (length_ a) ++ enc_body (length_ a) (body_ a).

Definition enc_message (m : StunMessage) : bytes :=
  be_bytes 2 (m_type m) ++ be_bytes 2 (m_length m) ++
  (if StunMsg.IsLegacy m then [] else kStunMagicCookie) ++ transaction_id_ m ++
  concat (map enc_attr (attrs_ m)).

(** ** Well-formed attributes and messages *)

Definition address_wf (a : Address) : Prop :=
  is_u8 (family_ a) /\ is_u16 (port_ a) /\ is_u32 (ip_ a).

(** The subclass the type selects, the length the type asks for and fields in
    the range of their C++ types. *)
Definition attr_wf (a : StunAttribute) : Prop :=
  is_u16 (type_ a) /\ is_u16 (length_ a) /\
  match body_ a with
  | BAddress ad => is_in (type_ a) address_types = true /\ length_ a = 8 /\ address_wf ad
  | BUInt32 v => is_in (type_ a) uint32_types = true /\ length_ a = 4 /\ is_u32 v
  | BByteString s =>
      is_in (type_ a) bytestring_types = true /\
      (exists l, s = Some l /\ Z.of_nat (length l) = length_ a) /\
      (type_ a = STUN_ATTR_MESSAGE_INTEGRITY -> length_ a = 20) /\
      (is_in (type_ a) [STUN_ATTR_USERNAME; STUN_ATTR_PASSWORD; STUN_ATTR_MAGIC_COOKIE] = true ->
       length_ a mod 4 = 0)
  | BErrorCode c n r =>
      type_ a = STUN_ATTR_ERROR_CODE /\ 0 <= c < 8 /\ is_u8 n /\
      length_ a = 4 + Z.of_nat (length r)
  | BUInt16List l =>
      type_ a = STUN_ATTR_UNKNOWN_ATTRIBUTES /\ length_ a = 2 * Z.of_nat (length l) /\
      Forall is_u16 l
  | BTransportPrefs p t ad =>
      type_ a = STUN_ATTR_TRANSPORT_PREFERENCES /\ 0 <= t < 4 /\
      match p, ad with
      | false, None => length_ a = 4
      | true, Some (ty, a') => length_ a = 12 /\ ty = STUN_ATTR_SOURCE_ADDRESS /\ address_wf a'
      | _, _ => False
      end
  end.

(** The bytes the attributes occupy. *)
Definition attrs_length (l : list StunAttribute) : Z :=
  fold_right (fun a n => length_ a + 4 + n) 0 l.

(** Twelve bytes, or a legacy id of sixteen that does not start with the cookie. *)
Definition valid_id (id : bytes) : Prop :=
  length id = kStunTransactionIdLength \/
  length id = kStunLegacyTransactionIdLength /\ take 4 id <> kStunMagicCookie.

(** A message with a STUN type, a valid id and the length its attributes have. *)
Definition message_wf (m : StunMessage) : Prop :=
  0 <= m_type m < 32768 /\
  valid_id (transaction_id_ m) /\
  m_length m = attrs_length (attrs_ m) /\ is_u16 (m_length m) /\
  Forall attr_wf (attrs_ m).

(** ** Writing *)

Create HintDb wrote.

Section Writing.
Context {B : Type} `{ByteQueueLaws B}.

(** [b] is [b0] with [e] appended. *)
Definition wrote (b0 b : B) (e : bytes) : Prop :=
  q_ok b /\ q_contents b = q_contents b0 ++ e.

Lemma wrote_nil b : q_ok b -> wrote b b [].
Proof. intros Hb. split; [done|]. by rewrite app_nil_r. Qed.

Lemma wrote_writes wr e2 b0 b e1 :
  writes q_ok q_contents wr e2 -> wrote b0 b e1 -> wrote b0 (wr b) (e1 ++ e2).
Proof.
  intros Hw [Hok Hc]. destruct (Hw b Hok) as [? E]. split; [done|].
  by rewrite E, Hc, app_assoc.
Qed.

Lemma wrote_8 v b0 b e : wrote b0 b e -> wrote b0 (q_write8 b v) (e ++ be_bytes 1 v).
Proof. apply (wrote_writes (fun b => q_write8 b v)), q_write8_spec. Qed.
Lemma wrote_16 v b0 b e : wrote b0 b e -> wrote b0 (q_write16 b v) (e ++ be_bytes 2 v).
Proof. apply (wrote_writes (fun b => q_write16 b v)), q_write16_spec. Qed.
Lemma wrote_32 v b0 b e : wrote b0 b e -> wrote b0 (q_write32 b v) (e ++ be_bytes 4 v).
Proof. apply (wrote_writes (fun b => q_write32 b v)), q_write32_spec. Qed.
Lemma wrote_bytes s b0 b e : wrote b0 b e -> wrote b0 (q_write_bytes b s) (e ++ s).
Proof. apply (wrote_writes (fun b => q_write_bytes b s)), q_write_bytes_spec. Qed.

Lemma wrote_eq b0 b e e' : wrote b0 b e -> e = e' -> wrote b0 b e'.
Proof. by intros ? <-. Qed.

#[local] Hint Resolve wrote_nil wrote_8 wrote_16 wrote_32 wrote_bytes : wrote.

Lemma wrote_fold {A} (w : B -> A -> B) (enc : A -> bytes) (l : list A) b0 b e :
  (forall a b e, wrote b0 b e -> wrote b0 (w b a) (e ++ enc a)) ->
  wrote b0 b e -> wrote b0 (fold_left w l b) (e ++ concat (map enc l)).
Proof.
  intros Hw. revert b e. induction l as [|a l IH]; intros b e Hb; simpl.
  - by rewrite app_nil_r.
  - eapply wrote_eq; [apply IH, Hw, Hb|]. by rewrite app_assoc.
Qed.

Lemma wrote_address a b0 b e :
  wrote b0 b e -> wrote b0 (StunAddressAttribute.Write a b) (e ++ enc_address a).
Proof.
  intros Hb. unfold StunAddressAttribute.Write, enc_address.
  eapply wrote_eq; [eauto with wrote|]. by rewrite <- !app_assoc.
Qed.
#[local] Hint Resolve wrote_address : wrote.

Lemma wrote_body a b0 b e :
  wrote b0 b e -> wrote b0 (StunAttributeBase.Write a b) (e ++ enc_body (length_ a) (body_ a)).
Proof.
  intros Hb. unfold StunAttributeBase.Write, StunErrorCodeAttribute.Write,
    StunUInt32Attribute.Write, StunByteStringAttribute.Write,
    StunUInt16ListAttribute.Write, StunTransportPrefsAttribute.Write.
  destruct (body_ a) as [ad|v|s|c n r|l|p t ad]; simpl; try (by eauto with wrote).
  - eapply wrote_eq; [eauto with wrote|]. by rewrite <- !app_assoc.
  - apply (wrote_fold (fun b v => q_write16 b v)); eauto with wrote.
  - destruct p; [destruct ad as [[? ?]|]|];
      (eapply wrote_eq; [eauto with wrote|]; by rewrite ?app_nil_r, <- ?app_assoc).
Qed.
#[local] Hint Resolve wrote_body : wrote.

Lemma wrote_attr a b0 b e : wrote b0 b e -> wrote b0 (StunMsg.write_attr b a) (e ++ enc_attr a).
Proof.
  intros Hb. unfold StunMsg.write_attr, enc_attr.
  eapply wrote_eq; [eauto with wrote|]. by rewrite <- !app_assoc.
Qed.

Lemma wrote_message m b0 b e :
  wrote b0 b e -> wrote b0 (StunMsg.Write m b) (e ++ enc_message m).
Proof.
  intros Hb. unfold StunMsg.Write, enc_message. destruct (StunMsg.IsLegacy m);
    (eapply wrote_eq;
      [apply (wrote_fold StunMsg.write_attr enc_attr);
        [intros; by apply wrote_attr|eauto with wrote]|]; by rewrite <- ?app_assoc).
Qed.

(** [Write] appends the wire format to the buffer. *)
Lemma Write_contents m b : q_ok b ->
  q_ok (StunMsg.Write m b) /\ q_contents (StunMsg.Write m b) = q_contents b ++ enc_message m.
Proof. intros Hb. by apply (wrote_message m b b []), wrote_nil. Qed.
End Writing.

(** ** Reading back what was written *)

Section Reading.
Context {B : Type} `{ByteQueueLaws B}.

(** [p], run from [s] on a buffer that starts with [e], succeeds with [s']
    having consumed exactly [e]. *)
Definition parses {S} (p : parser (B := B) S) (s : S) (e : bytes) (s' : S) : Prop :=
  forall b rest, q_ok b -> q_contents b = e ++ rest ->
  exists b', p (s, b) = (true, (s', b')) /\ q_ok b' /\ q_contents b' = rest.

Lemma reads_app {A} n (rd : B -> option (A * B)) dec e b rest :
  reads q_ok q_contents n rd dec -> length e = n -> q_ok b -> q_contents b = e ++ rest ->
  exists b', rd b = Some (dec e, b') /\ q_ok b' /\ q_contents b' = rest.
Proof.
  intros Hrd Hn Hok Hc. specialize (Hrd b Hok). rewrite decide_True in Hrd
    by (rewrite Hc, length_app; lia).
  destruct Hrd as (b' & -> & Hok' & Hc'). exists b'.
  rewrite Hc' , Hc. rewrite take_app_length', drop_app_length' by done. done.
Qed.

Lemma parses_get {S V} n (rd : B -> option (V * B)) dec (upd : V -> S -> S) s e s' :
  reads q_ok q_contents n rd dec -> length e = n -> upd (dec e) s = s' ->
  parses (get rd upd) s e s'.
Proof.
  intros Hrd Hn <- b rest Hok Hc. unfold get.
  destruct (reads_app n rd dec e b rest) as (b' & -> & ? & ?); [done..|]. by exists b'.
Qed.

Lemma parses_then {S} (p q : parser S) s e1 s1 e2 s2 :
  parses p s e1 s1 -> parses q s1 e2 s2 -> parses (p ;> q) s (e1 ++ e2) s2.
Proof.
  intros Hp Hq b rest Hok Hc. unfold andthen. rewrite <- app_assoc in Hc.
  destruct (Hp b _ Hok Hc) as (b1 & -> & Hok1 & Hc1).
  by apply Hq.
Qed.

Lemma parses_guard {S} (c : S -> bool) s : c s = true -> parses (guard c) s [] s.
Proof. intros Hc b rest Hok Hb. unfold guard. rewrite Hc. by exists b. Qed.

Lemma parses_dep {S} (p : S -> parser S) s e s' : parses (p s) s e s' -> parses (dep p) s e s'.
Proof. intros Hp b rest Hok Hb. by apply Hp. Qed.

Lemma parses_guard_then {S} (c : S -> bool) (q : parser S) s e s' :
  c s = true -> parses q s e s' -> parses (guard c ;> q) s e s'.
Proof. intros Hc Hq. apply (parses_then _ _ s [] s e s'); [by apply parses_guard|done]. Qed.

Lemma parses_address a0 a :
  address_wf a -> parses StunAddressAttribute.Read a0 (enc_address a) a.
Proof.
  intros (?&?&?). unfold StunAddressAttribute.Read, enc_address.
  eapply parses_then; [eapply parses_get; [apply q_read8_spec|apply length_be_bytes|done]|].
  eapply parses_then; [eapply parses_get; [apply q_read8_spec|apply length_be_bytes|done]|].
  eapply parses_then; [eapply parses_get; [apply q_read16_spec|apply length_be_bytes|done]|].
  eapply parses_get; [apply q_read32_spec|apply length_be_bytes|].
  rewrite be_value_bytes_1, be_value_bytes_2, be_value_bytes_4.
  rewrite u8_small, u16_small, u32_small by done. by destruct a.
Qed.

Lemma parses_uint16_list l0 l :
  Forall is_u16 l ->
  parses (StunUInt16ListAttribute.Read_loop (length l)) l0 (concat (map (be_bytes 2) l)) (l0 ++ l).
Proof.
  intros Hl. revert l0. induction Hl as [|v l Hv Hl IH]; intros l0.
  - intros b rest Hok Hc. rewrite app_nil_r. by exists b.
  - cbn [map concat length StunUInt16ListAttribute.Read_loop]. eapply parses_then.
    + eapply parses_get; [apply q_read16_spec|apply length_be_bytes|done].
    + rewrite be_value_bytes_2, u16_small by done.
      replace (l0 ++ v :: l) with ((l0 ++ [v]) ++ l) by (by rewrite <- app_assoc).
      apply IH.
Qed.

Lemma error_code_fields c n f :
  0 <= c < 8 -> is_u8 n ->
  StunErrorCodeAttribute.SetErrorCode (be_value (be_bytes 4 (StunErrorCodeAttribute.error_code c n))) f
    = (c, n, snd f).
Proof.
  intros Hc Hn. unfold StunErrorCodeAttribute.SetErrorCode, StunErrorCodeAttribute.error_code.
  rewrite lor_shiftl by (unfold is_u8 in Hn; lia). change (2 ^ 8) with 256.
  rewrite be_value_bytes_4, u32_small by (unfold is_u8, is_u32 in *; lia).
  change 7 with (Z.ones 3). change 255 with (Z.ones 8). rewrite !Z.land_ones by lia.
  rewrite Z.shiftr_div_pow2 by lia. change (2 ^ 8) with 256. change (2 ^ 3) with 8.
  unfold is_u8 in Hn. do 2 f_equal; word_lia.
Qed.

Lemma parses_transport_prefs p t ad f :
  0 <= t < 4 ->
  match p, ad with
  | false, None => True
  | true, Some (ty, a) => ty = STUN_ATTR_SOURCE_ADDRESS /\ address_wf a
  | _, _ => False
  end -> snd f = None ->
  parses (StunTransportPrefsAttribute.Read (if p then 12 else 4)) f
    (enc_body 0 (BTransportPrefs p t ad)) (p, t, ad).
Proof.
  intros Ht Had Hf. unfold StunTransportPrefsAttribute.Read.
  eapply parses_then; [eapply parses_get; [apply q_read32_spec|apply length_be_bytes|done]|].
  assert (StunTransportPrefsAttribute.read_flags
    (be_value (be_bytes 4 (Z.lor (if p then 4 else 0) t))) f = (p, t, None)) as ->.
  { rewrite be_value_bytes_4. unfold StunTransportPrefsAttribute.read_flags. rewrite Hf.
    assert (t = 0 \/ t = 1 \/ t = 2 \/ t = 3) as Hc by lia.
    destruct p; destruct Hc as [->|[->|[->| ->]]]; reflexivity. }
  apply parses_dep. destruct p; simpl.
  - destruct ad as [[ty a]|]; [|done]. destruct Had as [-> Ha].
    apply parses_guard_then; [done|].
    intros b rest Hok Hc. unfold StunTransportPrefsAttribute.read_addr.
    destruct (parses_address (mkAddress 0 0 0) a Ha b rest Hok Hc) as (b' & -> & ? & ?).
    by exists b'.
  - destruct ad; [done|]. by apply parses_guard.
Qed.

Lemma parses_lift {S} (p : parser S) s inj e s' a0 a :
  (forall b, StunAttributeBase.Read (a0, b) = StunAttributeBase.lift p s inj (a0, b)) ->
  parses p s e s' -> set_body a0 (inj s') = a -> parses StunAttributeBase.Read a0 e a.
Proof.
  intros HR Hp <- b rest Hok Hc. rewrite HR. unfold StunAttributeBase.lift.
  destruct (Hp b rest Hok Hc) as (b' & -> & ? & ?). by exists b'.
Qed.

(** The factory accepts the type and length of a well-formed attribute, and
    the object it makes reads the attribute back. *)
Lemma parses_attr a : attr_wf a ->
  exists a0, StunAttributeBase.Create (type_ a) (length_ a) = Some a0 /\
    parses StunAttributeBase.Read a0 (enc_body (length_ a) (body_ a)) a.
Proof.
  destruct a as [ty len bd]. intros (Hty & Hlen & Hbd). cbn [type_ length_ body_] in *.
  destruct bd as [ad|v|s|c n r|l|p t ad].
  - destruct Hbd as (Ht & -> & Had). exists (StunAddressAttribute.make ty).
    split; [unfold StunAttributeBase.Create; by rewrite Ht|].
    eapply parses_lift; [done|by apply (parses_address _ ad)|done].
  - destruct Hbd as (Ht & -> & Hv). exists (StunUInt32Attribute.make ty).
    split; [is_in_cases Ht; reflexivity|].
    eapply parses_lift; [done| |done].
    eapply parses_get; [apply q_read32_spec|apply length_be_bytes|].
    cbn [enc_body]. by rewrite be_value_bytes_4, u32_small.
  - destruct Hbd as (Ht & (l & -> & Hl) & Hmi & Hmod).
    exists (StunByteStringAttribute.make ty len). split.
    { is_in_cases Ht; unfold StunAttributeBase.Create; simpl in *;
        rewrite ?Hmi, ?Hmod by done; reflexivity. }
    eapply parses_lift; [done| |done].
    unfold StunByteStringAttribute.Read. simpl.
    eapply parses_get; [apply q_read_bytes_spec|rewrite length_take; lia|].
    unfold id. by rewrite take_ge by lia.
  - destruct Hbd as (-> & Hc & Hn & ->). exists (StunErrorCodeAttribute.make
      STUN_ATTR_ERROR_CODE (4 + Z.of_nat (length r))). split.
    { unfold StunAttributeBase.Create. simpl.
      destruct (Z.ltb_spec (4 + Z.of_nat (length r)) StunErrorCodeAttribute.MIN_SIZE) as [Hlt|];
        [unfold StunErrorCodeAttribute.MIN_SIZE in Hlt; lia|done]. }
    eapply (parses_lift _ _ _ _ (c, n, r)); [done| |done].
    eapply parses_then; [eapply parses_get; [apply q_read32_spec|apply length_be_bytes|]|].
    + by apply error_code_fields.
    + apply (parses_get (length r) _ id); [|done|done].
      intros b Hok. unfold StunErrorCodeAttribute.read_reason.
      cbn [length_ StunErrorCodeAttribute.make].
      destruct (Z.ltb_spec (4 + Z.of_nat (length r)) 4); [lia|].
      replace (Z.to_nat (4 + Z.of_nat (length r) - 4)) with (length r) by lia.
      by apply q_read_bytes_spec.
  - destruct Hbd as (-> & -> & Hl). exists (StunUInt16ListAttribute.make
      STUN_ATTR_UNKNOWN_ATTRIBUTES (2 * Z.of_nat (length l))). split.
    { unfold StunAttributeBase.Create. simpl.
      by rewrite (Z.mul_comm 2), Z.mod_mul by lia. }
    eapply parses_lift; [done| |done].
    unfold StunUInt16ListAttribute.Read. simpl.
    replace (Z.to_nat (2 * Z.of_nat (length l) / 2)) with (length l)
      by (rewrite Z.mul_comm, Z.div_mul by lia; lia).
    by apply parses_uint16_list.
  - destruct Hbd as (-> & Ht & Had).
    assert (len = (if p then 12 else 4)) as ->.
    { destruct p, ad as [[? ?]|]; try done; by destruct Had. }
    exists (StunTransportPrefsAttribute.make STUN_ATTR_TRANSPORT_PREFERENCES (if p then 12 else 4)).
    split; [by destruct p|].
    eapply (parses_lift _ (false, 0, None) _ _ (p, t, ad)); [done| |done].
    simpl length_. apply parses_transport_prefs; try done.
    destruct p, ad as [[? ?]|]; try done; by destruct Had as (?&?&?).
Qed.

Lemma length_enc_attr a : (4 <= length (enc_attr a))%nat.
Proof. unfold enc_attr. rewrite !length_app, !length_be_bytes. lia. Qed.

Lemma length_enc_address a : length (enc_address a) = 8%nat.
Proof. unfold enc_address. by rewrite !length_app, !length_be_bytes. Qed.

Lemma length_enc_attr_wf a : attr_wf a -> Z.of_nat (length (enc_attr a)) = length_ a + 4.
Proof.
  intros (_ & Hlen & Hbd). unfold enc_attr. rewrite !length_app, !length_be_bytes.
  assert (Z.of_nat (length (enc_body (length_ a) (body_ a))) = length_ a); [|lia].
  destruct (body_ a) as [ad|v|s|c n r|l|p t ad]; cbn [enc_body].
  - rewrite length_enc_address. lia.
  - rewrite length_be_bytes. lia.
  - destruct Hbd as (_ & (l & -> & Hl) & _). simpl. rewrite length_take. lia.
  - rewrite length_app, length_be_bytes. lia.
  - destruct Hbd as (_ & -> & _).
    assert (length (concat (map (be_bytes 2) l)) = 2 * length l)%nat as ->; [|lia].
    induction l as [|v l IH]; [done|]. cbn [map concat length].
    rewrite length_app, length_be_bytes. lia.
  - destruct Hbd as (_ & _ & Had). rewrite length_app, length_be_bytes.
    destruct p, ad as [[? ?]|]; try done; rewrite ?length_enc_address; simpl; lia.
Qed.

(** The attribute loop, started with enough fuel, reads a list of attributes
    and stops at the bytes after it. *)
Lemma read_attrs_enc l : Forall attr_wf l -> forall m b fuel rest,
  q_ok b -> q_contents b = concat (map enc_attr l) ++ rest -> (length l <= fuel)%nat ->
  exists b', StunMsg.read_attrs fuel (length rest) (m, b) =
      (true, (StunMsg.set_attrs (attrs_ m ++ l) m, b')) /\ q_ok b' /\ q_contents b' = rest.
Proof.
  induction 1 as [|a l Ha Hl IH]; intros m b fuel rest Hok Hc Hf.
  - exists b. destruct fuel; simpl in *; rewrite q_length_spec, Hc, Nat.leb_refl by done;
      (split; [|done]); rewrite app_nil_r; by destruct m.
  - destruct fuel as [|fuel]; [simpl in Hf; lia|]. cbn [StunMsg.read_attrs].
    cbn [map concat] in Hc. rewrite <- app_assoc in Hc.
    rewrite q_length_spec, Hc, !length_app by done.
    pose proof (length_enc_attr a).
    destruct (Nat.leb_spec (length (enc_attr a) + (length (concat (map enc_attr l)) + length rest))
      (length rest)); [lia|].
    unfold enc_attr in Hc. rewrite <- !app_assoc in Hc.
    destruct (reads_app _ _ _ _ _ _ q_read16_spec (length_be_bytes 2 (type_ a)) Hok Hc)
      as (b1 & -> & Hok1 & Hc1).
    destruct (reads_app _ _ _ _ _ _ q_read16_spec (length_be_bytes 2 (length_ a)) Hok1 Hc1)
      as (b2 & -> & Hok2 & Hc2).
    destruct (parses_attr a Ha) as (a0 & HC & HR). destruct Ha as (Hty & Hlen & _).
    rewrite !be_value_bytes_2, (u16_small (type_ a)), (u16_small (length_ a)), HC by done.
    destruct (HR b2 _ Hok2 Hc2) as (b3 & -> & Hok3 & Hc3).
    destruct (IH (StunMsg.set_attrs (attrs_ m ++ [a]) m) b3 fuel rest Hok3 Hc3) as (b' & -> & ? & ?);
      [simpl in Hf; lia|].
    exists b'. split; [|done]. simpl. by rewrite <- app_assoc.
Qed.

Lemma parses_ids m id : valid_id id ->
  parses StunMsg.read_ids m
    ((if (length id =? kStunLegacyTransactionIdLength)%nat then [] else kStunMagicCookie) ++ id)
    (StunMsg.SetTransactionID id m).
Proof.
  intros Hid b rest Hok Hc. unfold StunMsg.read_ids.
  set (e := (if (length id =? kStunLegacyTransactionIdLength)%nat
             then [] else kStunMagicCookie) ++ id) in *.
  assert (Hl : length e = 16%nat) by (destruct Hid as [Hl|[Hl _]];
    unfold e; rewrite length_app, Hl; done).
  rewrite <- (take_drop 4 e), <- app_assoc in Hc.
  assert (length (take 4 e) = 4%nat) as H4 by (by rewrite length_take, Hl).
  assert (length (drop 4 e) = 12%nat) as H12 by (by rewrite length_drop, Hl).
  destruct (reads_app _ _ _ _ _ _ (q_read_bytes_spec kStunMagicCookieLength) H4 Hok Hc) as (b1 & -> & Hok1 & Hc1).
  destruct (reads_app _ _ _ _ _ _ (q_read_bytes_spec kStunTransactionIdLength)
    H12 Hok1 Hc1) as (b2 & -> & Hok2 & Hc2).
  exists b2. split; [|done]. unfold Datatypes.id.
  assert ((if decide (take 4 e = kStunMagicCookie) then drop 4 e else take 4 e ++ drop 4 e) = id)
    as ->; [|done].
  destruct Hid as [Hi|[Hi Hne]].
  - assert (e = kStunMagicCookie ++ id) as -> by (unfold e; by rewrite Hi).
    by rewrite decide_True.
  - assert (e = id) as -> by (unfold e; by rewrite Hi).
    rewrite decide_False by done. apply take_drop.
Qed.

Lemma parses_body m l : Forall attr_wf l ->
  m_length m = attrs_length l ->
  parses StunMsg.read_body m (concat (map enc_attr l)) (StunMsg.set_attrs l m).
Proof.
  intros Hl Hm b rest Hok Hc. unfold StunMsg.read_body.
  assert (HL : Z.of_nat (length (concat (map enc_attr l))) = attrs_length l /\
               (length l <= length (concat (map enc_attr l)))%nat).
  { clear -Hl. induction Hl as [|a l Ha Hl IH]; [done|]. cbn [map concat length attrs_length fold_right].
    rewrite length_app. pose proof (length_enc_attr a). pose proof (length_enc_attr_wf a Ha).
    fold (attrs_length l). lia. }
  rewrite q_length_spec, Hc, length_app by done.
  destruct (Z.ltb_spec (Z.of_nat (length (concat (map enc_attr l)) + length rest)) (m_length m));
    [lia|].
  cbn zeta. change (m_length (StunMsg.set_attrs [] m)) with (m_length m).
  replace (length (concat (map enc_attr l)) + length rest - Z.to_nat (m_length m))%nat
    with (length rest) by lia.
  destruct (read_attrs_enc l Hl (StunMsg.set_attrs [] m) b
    (length (concat (map enc_attr l)) + length rest) rest Hok Hc ltac:(lia)) as (b' & -> & Hok' & Hc').
  rewrite q_length_spec, Hc', Nat.eqb_refl by done. by exists b'.
Qed.

Lemma parses_message m0 m : message_wf m -> parses StunMsg.Read m0 (enc_message m) m.
Proof.
  intros (Hty & Hid & Hlen & Hl16 & Hattrs). unfold StunMsg.Read, enc_message.
  eapply parses_then; [eapply parses_get; [apply q_read16_spec|apply length_be_bytes|done]|].
  apply parses_guard_then.
  { simpl. rewrite be_value_bytes_2, !u16_small by word_lia.
    apply Z.eqb_eq, Z.bits_inj'. intros i Hi. rewrite Z.land_spec, Z.bits_0.
    destruct (Z.eq_dec i 15) as [->|].
    - rewrite <- (Z.mod_small (m_type m) (2 ^ 15)) by lia.
      by rewrite Z.mod_pow2_bits_high by lia.
    - change 0x8000 with (2 ^ 15). rewrite Z.pow2_bits_false by lia. apply andb_false_r. }
  eapply parses_then; [eapply parses_get; [apply q_read16_spec|apply length_be_bytes|done]|].
  rewrite app_assoc. eapply parses_then; [by apply parses_ids|].
  assert (m = StunMsg.set_attrs (attrs_ m) (StunMsg.SetTransactionID (transaction_id_ m)
    (StunMsg.set_length (be_value (be_bytes 2 (m_length m)))
      (StunMsg.SetType (be_value (be_bytes 2 (m_type m))) m0)))) as E.
  { unfold StunMsg.set_attrs, StunMsg.SetTransactionID, StunMsg.set_length, StunMsg.SetType. simpl.
    rewrite !be_value_bytes_2, u16_idemp, !u16_small by word_lia. by destruct m. }
  eapply eq_ind_r with (P := parses _ _ _); [|exact E]. apply parses_body; [done|].
  simpl. by rewrite be_value_bytes_2, u16_small.
Qed.
End Reading.

(** ** Reading arbitrary bytes *)

Section Sound.
Context {B : Type} `{ByteQueueLaws B}.

(** [b'] is [b] with [n] bytes taken off its front. *)
Definition consumed (n : nat) (b b' : B) : Prop :=
  q_ok b' /\ (n <= length (q_contents b))%nat /\ q_contents b' = drop n (q_contents b).

(** Whatever [p] returns from a state in [P] it has consumed some [n] bytes,
    and its verdict, the state and [n] satisfy [R]. *)
Definition effect {S} (P : S -> Prop) (p : parser (B := B) S) (R : bool -> S -> nat -> Prop) : Prop :=
  forall s b, P s -> q_ok b -> forall ok s' b', p (s, b) = (ok, (s', b')) ->
  exists n, consumed n b b' /\ R ok s' n.

Lemma consumed_0 b : q_ok b -> consumed 0 b b.
Proof. split; [done|]. split; [lia|done]. Qed.

Lemma consumed_trans n1 n2 b b1 b2 :
  consumed n1 b b1 -> consumed n2 b1 b2 -> consumed (n1 + n2) b b2.
Proof.
  intros (?&?&E1) (?&Hn&E2). rewrite E1, length_drop in Hn. split; [done|].
  split; [lia|]. by rewrite E2, E1, drop_drop.
Qed.

Lemma reads_consumed {A} n (rd : B -> option (A * B)) dec b r :
  reads q_ok q_contents n rd dec -> q_ok b -> rd b = Some r ->
  consumed n b (snd r) /\ exists e, length e = n /\ fst r = dec e.
Proof.
  intros Hrd Hok E. specialize (Hrd b Hok). case_decide; [|by rewrite Hrd in E].
  destruct Hrd as (b' & E' & ? & ?). rewrite E in E'. injection E' as ->.
  split; [done|]. eexists. split; [|done]. rewrite length_take. lia.
Qed.

Lemma effect_get {S V} n (rd : B -> option (V * B)) dec (upd : V -> S -> S) P R :
  reads q_ok q_contents n rd dec ->
  (forall s e, P s -> length e = n -> R true (upd (dec e) s) n) ->
  (forall s, P s -> R false s 0%nat) ->
  effect P (get rd upd) R.
Proof.
  intros Hrd Ht Hf s b HP Hok ok s' b'. unfold get.
  destruct (rd b) as [[v b1]|] eqn:E; intros [= <- <- <-].
  - destruct (reads_consumed n rd dec b _ Hrd Hok E) as (? & e & ? & Hv). simpl in *.
    exists n. rewrite Hv. eauto.
  - exists 0%nat. eauto using consumed_0.
Qed.

Lemma effect_then {S} (p q : parser S) P R1 R :
  effect P p R1 ->
  (forall n1, effect (fun s => R1 true s n1) q (fun ok s n2 => R ok s (n1 + n2)%nat)) ->
  (forall s n, R1 false s n -> R false s n) ->
  effect P (p ;> q) R.
Proof.
  intros Hp Hq Hf s b HP Hok ok s' b'. unfold andthen.
  destruct (p (s, b)) as [ok1 [s1 b1]] eqn:E1.
  destruct (Hp s b HP Hok _ _ _ E1) as (n1 & Hc1 & HR1).
  destruct ok1; [|intros [= <- <- <-]; eauto].
  intros E2. destruct (Hq n1 s1 b1 HR1 (proj1 Hc1) _ _ _ E2) as (n2 & Hc2 & HR2).
  eauto using consumed_trans.
Qed.

Lemma effect_guard {S} (c : S -> bool) (P : S -> Prop) (R : bool -> S -> nat -> Prop) :
  (forall s, P s -> R (c s) s 0%nat) -> effect P (guard c) R.
Proof. intros HR s b HP Hok ok s' b' [= <- <- <-]. exists 0%nat. eauto using consumed_0. Qed.

Lemma effect_dep {S} (p : S -> parser S) (P : S -> Prop) R :
  (forall s, P s -> effect (eq s) (p s) R) -> effect P (dep p) R.
Proof. intros Hp s b HP Hok ok s' b' E. by apply (Hp s HP s b eq_refl Hok). Qed.

Lemma effect_mono {S} (p : parser S) (P P' : S -> Prop) (R R' : bool -> S -> nat -> Prop) :
  effect P p R -> (forall s, P' s -> P s) -> (forall ok s n, R ok s n -> R' ok s n) ->
  effect P' p R'.
Proof.
  intros Hp HP HR s b Hs Hok ok s' b' E.
  destruct (Hp s b (HP s Hs) Hok _ _ _ E) as (n & ? & ?). eauto.
Qed.

Lemma be_value_is_u8 (e : bytes) : length e = 1%nat -> is_u8 (be_value e).
Proof. intros L. pose proof (be_value_range e) as R. by rewrite L in R. Qed.
Lemma be_value_is_u16 (e : bytes) : length e = 2%nat -> is_u16 (be_value e).
Proof. intros L. pose proof (be_value_range e) as R. by rewrite L in R. Qed.
Lemma be_value_is_u32 (e : bytes) : length e = 4%nat -> is_u32 (be_value e).
Proof. intros L. pose proof (be_value_range e) as R. by rewrite L in R. Qed.
#[local] Hint Resolve be_value_is_u8 be_value_is_u16 be_value_is_u32 : words.

Lemma effect_address :
  effect address_wf StunAddressAttribute.Read
    (fun ok a n => address_wf a /\ (ok = true -> n = 8%nat)).
Proof.
  unfold StunAddressAttribute.Read.
  eapply (effect_then _ _ _ (fun ok a n => address_wf a /\ (ok = true -> n = 1%nat))).
  { eapply effect_get; [apply q_read8_spec|done|done]. }
  2: by intros s n [? _].
  intros n1. eapply (effect_then _ _ _
    (fun ok a n => address_wf a /\ (ok = true -> (n1 + n)%nat = 2%nat))).
  { eapply effect_get; [apply q_read8_spec| |]; [|by intros s [? _]].
    intros s e ((?&?&?)&Hn) He. split; [|rewrite Hn by done; lia].
    split; simpl; auto with words. }
  2: by intros s n [? _].
  intros n2. eapply (effect_then _ _ _
    (fun ok a n => address_wf a /\ (ok = true -> (n1 + (n2 + n))%nat = 4%nat))).
  { eapply effect_get; [apply q_read16_spec| |]; [|by intros s [? _]].
    intros s e ((?&?&?)&Hn) He. specialize (Hn eq_refl). split; [|lia].
    split; [|split]; simpl; auto with words. }
  2: by intros s n [? _].
  intros n3. eapply effect_get; [apply q_read32_spec| |]; [|by intros s [? _]].
  intros s e ((?&?&?)&Hn) He. specialize (Hn eq_refl). split; [|lia].
  split; [|split]; simpl; auto with words.
Qed.

Lemma effect_uint32 :
  effect (fun _ => True) StunUInt32Attribute.Read (fun ok v n => ok = true -> is_u32 v /\ n = 4%nat).
Proof. eapply effect_get; [apply q_read32_spec| |done]. auto with words. Qed.

Lemma effect_string len : is_u16 len ->
  effect (fun _ => True) (StunByteStringAttribute.Read len) (fun ok v n => ok = true ->
    (exists l, v = Some l /\ Z.of_nat (length l) = len) /\ n = Z.to_nat len).
Proof.
  intros Hlen. eapply effect_get; [apply q_read_bytes_spec| |done].
  intros s e _ He _. split; [|done]. eexists. split; [done|]. unfold id. word_lia.
Qed.

Lemma effect_error_code len :
  effect (fun f => snd f = []) (StunErrorCodeAttribute.Read len)
    (fun ok f n => ok = true ->
       0 <= fst (fst f) < 8 /\ is_u8 (snd (fst f)) /\
       len = 4 + Z.of_nat (length (snd f)) /\ Z.of_nat n = len).
Proof.
  unfold StunErrorCodeAttribute.Read.
  eapply (effect_then _ _ _ (fun ok f n => ok = true ->
    0 <= fst (fst f) < 8 /\ is_u8 (snd (fst f)) /\ snd f = [] /\ n = 4%nat)).
  { eapply effect_get; [apply q_read32_spec| |done].
    intros f e Hf He _. unfold StunErrorCodeAttribute.SetErrorCode. simpl.
    change 7 with (Z.ones 3). change 255 with (Z.ones 8). rewrite !Z.land_ones by lia.
    change (2 ^ 3) with 8. change (2 ^ 8) with 256. split; [word_lia|]. auto with words. }
  2: done.
  intros n1 f b Hf Hok ok f' b'. unfold get, StunErrorCodeAttribute.read_reason.
  destruct (Z.ltb_spec len 4); [intros [= <- <- <-]; exists 0%nat; split; [by apply consumed_0|done]|].
  destruct (q_read_bytes _ b) as [[v b1]|] eqn:E; intros [= <- <- <-];
    [|exists 0%nat; split; [by apply consumed_0|done]].
  destruct (reads_consumed _ _ _ b _ (q_read_bytes_spec _) Hok E) as (Hc & e & He & Hv).
  eexists. split; [exact Hc|]. intros _. destruct (Hf eq_refl) as (?&?&E2&->).
  cbn [fst snd] in *. rewrite E2, Hv. unfold id. cbn [app]. rewrite He. split; [done|]. split; [done|]. lia.
Qed.

Lemma effect_uint16_list n k :
  effect (fun l => Forall is_u16 l /\ length l = k) (StunUInt16ListAttribute.Read_loop n)
    (fun ok l m => ok = true -> Forall is_u16 l /\ length l = (k + n)%nat /\ m = (2 * n)%nat).
Proof.
  revert k. induction n as [|n IH]; intros k.
  - intros l b [Hl Hk] Hok ok l' b' [= <- <- <-]. exists 0%nat. split; [by apply consumed_0|].
    intros _. split; [done|]. lia.
  - cbn [StunUInt16ListAttribute.Read_loop].
    eapply (effect_then _ _ _ (fun ok l m => ok = true ->
      (Forall is_u16 l /\ length l = S k) /\ m = 2%nat)); [| |done].
    + eapply effect_get; [apply q_read16_spec| |done].
      intros l e [Hl Hk] He _. split; [|done]. split.
      * apply Forall_app. auto with words.
      * rewrite length_app. simpl. lia.
    + intros n1 l b Hpre Hok ok l' b' E. destruct (Hpre eq_refl) as [Hl ->].
      destruct (IH (S k) l b Hl Hok _ _ _ E) as (n2 & Hc & HR). exists n2.
      split; [done|]. intros Ht. destruct (HR Ht) as (?&?&?). split; [done|]. lia.
Qed.

Definition has_addr (b : body) : bool :=
  match b with BTransportPrefs p _ _ => p | _ => false end.

Lemma effect_transport_prefs len :
  effect (fun f => snd f = None) (StunTransportPrefsAttribute.Read len)
    (fun ok f n => ok = true ->
       0 <= snd (fst f) < 4 /\
       match fst (fst f), snd f with
       | false, None => len = 4 /\ n = 4%nat
       | true, Some (ty, a) => len = 12 /\ ty = STUN_ATTR_SOURCE_ADDRESS /\ address_wf a
       | _, _ => False
       end).
Proof.
  unfold StunTransportPrefsAttribute.Read.
  eapply (effect_then _ _ _ (fun ok f n => ok = true ->
    0 <= snd (fst f) < 4 /\ snd f = None /\ n = 4%nat)); [| |done].
  { eapply effect_get; [apply q_read32_spec| |done].
    intros f e Hf He _. unfold StunTransportPrefsAttribute.read_flags. simpl.
    change 3 with (Z.ones 2). rewrite Z.land_ones by lia. change (2 ^ 2) with 4.
    split; [word_lia|done]. }
  intros n1. apply effect_dep. intros [[p t] ad] Hf. destruct (Hf eq_refl) as (Ht & Had & ->).
  simpl in *. subst ad. destruct p; simpl.
  - eapply (effect_then _ _ _ (fun ok f n => ok = true -> f = (true, t, None) /\ len = 12)); [| |done].
    + apply effect_guard. intros ? <- Hok. split; [done|]. by apply Z.eqb_eq in Hok.
    + intros n2 f b Hf' Hok ok f' b'. destruct (Hf' eq_refl) as [-> ->].
      unfold StunTransportPrefsAttribute.read_addr.
      destruct (StunAddressAttribute.Read _) as [r [a b1]] eqn:E. intros [= <- <- <-].
      destruct (effect_address (mkAddress 0 0 0) b ltac:(by repeat split) Hok _ _ _ E)
        as (n & Hc & Ha & _). exists n. split; [done|]. intros _. simpl. done.
  - apply effect_guard. intros ? <- Hok. apply Z.eqb_eq in Hok.
    split; [exact Ht|]. split; [exact Hok|done].
Qed.

(** Case analysis on a hypothesis [Create ty len = Some a]. *)
Ltac create_cases HC :=
  unfold StunAttributeBase.Create in HC; repeat case_match; simplify_eq;
  repeat match goal with
  | H : negb (_ =? _) = false |- _ => apply negb_false_iff in H
  | H : (_ =? _) = true |- _ => apply Z.eqb_eq in H
  end; subst.

Lemma Create_length ty len a :
  StunAttributeBase.Create ty len = Some a -> type_ a = ty /\ length_ a = len.
Proof.
  intros HC. create_cases HC; done.
Qed.

Lemma effect_lift {S P R} {p : parser S} (Hp : effect P p R) s inj a0 b ok a' b' :
  P s -> q_ok b ->
  StunAttributeBase.lift p s inj (a0, b) = (ok, (a', b')) ->
  exists n s', consumed n b b' /\ R ok s' n /\ a' = set_body a0 (inj s').
Proof.
  intros Hs Hok. unfold StunAttributeBase.lift. destruct (p (s, b)) as [r [s' b1]] eqn:E.
  intros [= <- <- <-]. destruct (Hp s b Hs Hok _ _ _ E) as (n & ? & ?). eauto.
Qed.

Lemma read_string_sound ty len b a b' :
  is_u16 ty -> is_u16 len -> q_ok b ->
  is_in ty bytestring_types = true ->
  (ty = STUN_ATTR_MESSAGE_INTEGRITY -> len = 20) ->
  (is_in ty [STUN_ATTR_USERNAME; STUN_ATTR_PASSWORD; STUN_ATTR_MAGIC_COOKIE] = true -> len mod 4 = 0) ->
  StunAttributeBase.lift (StunByteStringAttribute.Read len) None BByteString
    (StunByteStringAttribute.make ty len, b) = (true, (a, b')) ->
  attr_wf a /\ exists n, consumed n b b' /\
    (has_addr (body_ a) = false -> Z.of_nat n = length_ a).
Proof.
  intros Hty Hlen Hok Hin Hmi Hmod HR.
  eapply (effect_lift (effect_string len Hlen)) in HR as (n & s' & Hc & HR & ->); [|done|done].
  destruct (HR eq_refl) as [(l & -> & Hl) ->].
  split; [|exists (Z.to_nat len); split; [done|]; simpl; word_lia].
  split; [done|]. split; [done|]. split; [done|]. split; [by exists l|]. split; done.
Qed.

(** An attribute the factory accepted, once read, is well-formed; it took as
    many bytes as it announces, unless it holds a nested address. *)
Lemma read_attr_sound ty len a0 b a b' :
  is_u16 ty -> is_u16 len -> q_ok b ->
  StunAttributeBase.Create ty len = Some a0 ->
  StunAttributeBase.Read (a0, b) = (true, (a, b')) ->
  attr_wf a /\ exists n, consumed n b b' /\
    (has_addr (body_ a) = false -> Z.of_nat n = length_ a).
Proof.
  intros Hty Hlen Hok HC HR.
  create_cases HC; cbn [StunAttributeBase.Read body_ StunAddressAttribute.make
    StunUInt32Attribute.make StunByteStringAttribute.make StunErrorCodeAttribute.make
    StunUInt16ListAttribute.make StunTransportPrefsAttribute.make type_ length_] in *.
  - eapply (effect_lift effect_address) in HR as (n & s' & Hc & [Ha Hn] & ->); [|by repeat split|done].
    split; [split; [done|]; split; done|]. exists n. split; [done|]. intros _. by rewrite Hn.
  - eapply (effect_lift effect_uint32) in HR as (n & s' & Hc & HR & ->); [|done|done].
    destruct (HR eq_refl) as [Hv ->]. split; [split; [done|]; split; done|]. by exists 4%nat.
  - match goal with H : is_in ty _ = true |- _ => rename H into Hin end.
    apply (read_string_sound ty len b a b'); try done; by is_in_cases Hin.
  - by apply (read_string_sound STUN_ATTR_MESSAGE_INTEGRITY 20 b a b').
  - by apply (read_string_sound STUN_ATTR_DATA len b a b').
  - eapply (effect_lift (effect_error_code len)) in HR as (n & [[c x] r] & Hc & HR & ->); [|done|done].
    destruct (HR eq_refl) as (?&?&?&?). split; [done|]. exists n. done.
  - eapply (effect_lift (effect_uint16_list _ 0)) in HR as (n & l & Hc & HR & ->); [|done|done].
    destruct (HR eq_refl) as (?&Hl&->).
    match goal with H : _ mod 2 = 0 |- _ => rename H into Hm end.
    assert (len = 2 * Z.of_nat (length l)) by (rewrite Hl; cbn [Nat.add]; word_lia).
    split; [split; [done|]; split; done|]. eexists. split; [exact Hc|]. intros _.
    change (Z.of_nat (2 * Z.to_nat (len / 2)) = len). word_lia.
  - eapply (effect_lift (effect_transport_prefs len)) in HR as (n & [[p t] ad] & Hc & HR & ->); [|done|done].
    destruct (HR eq_refl) as (?&HR'). cbn [fst snd] in HR'.
    split; [split; [done|]; split; [done|]; split; [done|]; split; [done|];
      destruct p, ad as [[? ?]|]; tauto|].
    exists n. split; [done|]. simpl. intros ->. destruct ad; [done|]. destruct HR' as [-> ->]. done.
Qed.

(** *** The attribute loop *)

(** One read of an attribute header and body, on every outcome. *)
Lemma read_attr_consumes ty len a0 b ok a b' :
  q_ok b -> StunAttributeBase.Create ty len = Some a0 ->
  StunAttributeBase.Read (a0, b) = (ok, (a, b')) -> ok = true ->
  is_u16 ty -> is_u16 len -> exists n, consumed n b b'.
Proof.
  intros Hok HC HR -> Hty Hlen.
  destruct (read_attr_sound ty len a0 b a b' Hty Hlen Hok HC HR) as (_ & n & ? & _). by exists n.
Qed.

Lemma read16_sound b v b1 : q_ok b -> q_read16 b = Some (v, b1) -> consumed 2 b b1 /\ is_u16 v.
Proof.
  intros Hok E. destruct (reads_consumed _ _ _ b _ q_read16_spec Hok E) as (Hc & e & He & Hv).
  simpl in *. subst v. auto with words.
Qed.

(** The fuel is enough: with at least as much as there are bytes, more fuel
    changes nothing, so exhaustion is never the reason of a failure. *)
Lemma read_attrs_fuel f1 : forall f2 rest m b, q_ok b ->
  (length (q_contents b) <= f1)%nat -> (length (q_contents b) <= f2)%nat ->
  StunMsg.read_attrs f1 rest (m, b) = StunMsg.read_attrs f2 rest (m, b).
Proof.
  induction f1 as [|f1 IH]; intros [|f2] rest m b Hok H1 H2; cbn [StunMsg.read_attrs];
    destruct (Nat.leb_spec (q_length b) rest) as [|Hl]; try done;
    rewrite q_length_spec in Hl by done; try lia.
  destruct (q_read16 b) as [[ty b1]|] eqn:E1; [|done].
  destruct (read16_sound b ty b1 Hok E1) as [Hc1 Hty]. pose proof Hc1 as (Hok1 & _).
  destruct (q_read16 b1) as [[len b2]|] eqn:E2; [|done].
  destruct (read16_sound b1 len b2 Hok1 E2) as [Hc2 Hlen]. pose proof Hc2 as (Hok2 & _).
  destruct (StunAttributeBase.Create ty len) as [a0|] eqn:EC; [|done].
  destruct (StunAttributeBase.Read (a0, b2)) as [ok [a b3]] eqn:ER. destruct ok; [|done].
  destruct (read_attr_consumes ty len a0 b2 true a b3) as [n Hc3]; [done..|].
  destruct (consumed_trans _ _ _ _ _ (consumed_trans _ _ _ _ _ Hc1 Hc2) Hc3) as (? & ? & Hc).
  apply IH; [done|rewrite Hc, length_drop; lia..].
Qed.

Lemma read_attrs_sound fuel rest : forall m b m' b', q_ok b ->
  StunMsg.read_attrs fuel rest (m, b) = (true, (m', b')) ->
  exists l n, m' = StunMsg.set_attrs (attrs_ m ++ l) m /\ Forall attr_wf l /\ consumed n b b' /\
    (Forall (fun a => has_addr (body_ a) = false) l -> Z.of_nat n = attrs_length l).
Proof.
  induction fuel as [|fuel IH]; intros m b m' b' Hok; cbn [StunMsg.read_attrs];
    destruct (q_length b <=? rest)%nat.
  1,3: intros [= <- <-]; exists [], 0%nat; rewrite app_nil_r; destruct m;
    auto using consumed_0.
  - done.
  - destruct (q_read16 b) as [[ty b1]|] eqn:E1; [|done].
    destruct (read16_sound b ty b1 Hok E1) as [Hc1 Hty]. pose proof Hc1 as (Hok1 & _).
    destruct (q_read16 b1) as [[len b2]|] eqn:E2; [|done].
    destruct (read16_sound b1 len b2 Hok1 E2) as [Hc2 Hlen]. pose proof Hc2 as (Hok2 & _).
    destruct (StunAttributeBase.Create ty len) as [a0|] eqn:EC; [|done].
    destruct (StunAttributeBase.Read (a0, b2)) as [ok [a b3]] eqn:ER. destruct ok; [|done].
    destruct (read_attr_sound ty len a0 b2 a b3 Hty Hlen Hok2 EC ER) as (Ha & n3 & Hc3 & Hn3).
    intros Hrec. destruct (IH _ b3 _ _ (proj1 Hc3) Hrec) as (l & n4 & -> & Hl & Hc4 & Hn4).
    exists (a :: l), (2 + 2 + n3 + n4)%nat. cbn [StunMsg.set_attrs attrs_].
    rewrite <- app_assoc. split; [done|]. split; [by constructor|].
    split; [eauto using consumed_trans|].
    intros Hna. apply Forall_cons in Hna as [Hna Hnl]. cbn [attrs_length fold_right].
    fold (attrs_length l). specialize (Hn3 Hna). specialize (Hn4 Hnl). lia.
Qed.

Lemma read_ids_sound m b m' b' : q_ok b -> StunMsg.read_ids (m, b) = (true, (m', b')) ->
  consumed 16 b b' /\ exists id, valid_id id /\ m' = StunMsg.SetTransactionID id m /\
    take 16 (q_contents b) = (if (length id =? 16)%nat then [] else kStunMagicCookie) ++ id.
Proof.
  intros Hok. unfold StunMsg.read_ids.
  destruct (q_read_bytes _ b) as [[mc b1]|] eqn:E1; [|done].
  destruct (reads_consumed _ _ _ b _ (q_read_bytes_spec _) Hok E1) as (Hc1 & e1 & He1 & Hv1).
  pose proof Hc1 as (Hok1 & Hl1 & HC1).
  destruct (q_read_bytes _ b1) as [[tid b2]|] eqn:E2; [|done].
  destruct (reads_consumed _ _ _ b1 _ (q_read_bytes_spec _) Hok1 E2) as (Hc2 & e2 & He2 & Hv2).
  pose proof (q_read_bytes_spec kStunMagicCookieLength b Hok) as S1.
  pose proof (q_read_bytes_spec kStunTransactionIdLength b1 Hok1) as S2.
  rewrite decide_True in S1 by done. destruct S1 as (? & S1 & _). rewrite E1 in S1.
  injection S1 as Hmc _.
  pose proof Hc2 as (? & Hl2 & HC2). simpl in HC2, HC1, Hl2.
  rewrite decide_True in S2 by done. destruct S2 as (? & S2 & _). rewrite E2 in S2.
  injection S2 as Htid _. unfold id in *. cbn [fst] in *. subst e1 e2.
  intros [= <- <-]. split; [by apply (consumed_trans 4 12 b b1 b2)|].
  assert (Ht : take 16 (q_contents b) = mc ++ tid).
  { rewrite Hmc, Htid. simpl in HC1. rewrite HC1.
    change 16%nat with (4 + 12)%nat.
    exact (sub_split 0 4 12 (q_contents b)). }
  case_decide as Hm.
  - exists tid. split; [by left|]. split; [done|]. by rewrite He2, Ht, Hm.
  - exists (mc ++ tid). rewrite Ht, length_app, He1, He2. split; [|done].
    right. split; [by rewrite length_app, He1, He2|]. by rewrite take_app_length' by done.
Qed.

Lemma read16_value b v b1 : q_ok b -> q_read16 b = Some (v, b1) ->
  consumed 2 b b1 /\ v = be_value (take 2 (q_contents b)).
Proof.
  intros Hok E. destruct (reads_consumed _ _ _ b _ q_read16_spec Hok E) as (Hc & _).
  split; [done|]. pose proof (q_read16_spec b Hok) as S1. destruct Hc as (_ & Hl & _).
  rewrite decide_True in S1 by done. destruct S1 as (? & S1 & _). rewrite E in S1.
  by injection S1 as -> _.
Qed.

(** What [read_body] does to the buffer: exactly [m_length] bytes go. *)
Lemma read_body_sound m b m' b' : q_ok b -> 0 <= m_length m ->
  StunMsg.read_body (m, b) = (true, (m', b')) ->
  exists l, m' = StunMsg.set_attrs l m /\ Forall attr_wf l /\
    consumed (Z.to_nat (m_length m)) b b' /\
    (Forall (fun a => has_addr (body_ a) = false) l -> m_length m = attrs_length l).
Proof.
  intros Hok Hm. unfold StunMsg.read_body. rewrite q_length_spec by done.
  destruct (Z.ltb_spec (Z.of_nat (length (q_contents b))) (m_length m)); [done|].
  cbn zeta. change (m_length (StunMsg.set_attrs [] m)) with (m_length m).
  destruct (StunMsg.read_attrs _ _ _) as [ok [m1 b1]] eqn:E. destruct ok; [|done].
  destruct (read_attrs_sound _ _ _ _ _ _ Hok E) as (l & n & -> & Hl & Hc & Hn).
  intros [= Hlen <- <-]. pose proof Hc as (Hok1 & Hle & HC).
  rewrite q_length_spec, HC, length_drop in Hlen by done. apply Nat.eqb_eq in Hlen.
  assert (n = Z.to_nat (m_length m)) as -> by lia.
  exists l. split; [done|]. split; [done|]. split; [done|]. intros Hna. rewrite <- Hn by done. lia.
Qed.

Lemma Read_sound m0 b m b' : q_ok b -> StunMsg.Read (m0, b) = (true, (m, b')) ->
  m_type m = be_value (take 2 (q_contents b)) /\ m_type m < 32768 /\
  m_length m = be_value (sub 2 2 (q_contents b)) /\
  valid_id (transaction_id_ m) /\
  sub 4 16 (q_contents b) = (if StunMsg.IsLegacy m then [] else kStunMagicCookie) ++ transaction_id_ m /\
  Forall attr_wf (attrs_ m) /\
  consumed (20 + Z.to_nat (m_length m)) b b' /\
  (Forall (fun a => has_addr (body_ a) = false) (attrs_ m) -> m_length m = attrs_length (attrs_ m)).
Proof.
  intros Hok. unfold StunMsg.Read, andthen, get, guard.
  destruct (q_read16 b) as [[ty b1]|] eqn:E1; [|done].
  destruct (read16_value b ty b1 Hok E1) as [Hc1 Hty].
  destruct (read16_sound b ty b1 Hok E1) as [_ Rty]. pose proof Hc1 as (Hok1 & Hl1 & HC1).
  destruct (Z.eqb_spec (Z.land (m_type (StunMsg.SetType ty m0)) 0x8000) 0) as [Hmsb|]; [|done].
  destruct (q_read16 b1) as [[len b2]|] eqn:E2; [|done].
  destruct (read16_value b1 len b2 Hok1 E2) as [Hc2 Hlen].
  destruct (read16_sound b1 len b2 Hok1 E2) as [_ Rlen]. pose proof Hc2 as (Hok2 & Hl2 & HC2).
  destruct (StunMsg.read_ids _) as [ok [m3 b3]] eqn:E3. destruct ok; [|done].
  destruct (read_ids_sound _ _ _ _ Hok2 E3) as (Hc3 & tid & Hid & -> & Htid).
  intros E4.
  apply read_body_sound in E4 as (l & -> & Hl & Hc4 & Hn);
    [|apply Hc3|simpl; unfold is_u16 in Rlen; lia].
  simpl in *. rewrite u16_small in * by done. rewrite HC1 in Hlen.
  rewrite HC2, HC1, drop_drop in Htid.
  split; [done|]. split.
  { clear -Rty Hmsb. apply Z.nle_gt. intros Hge.
    assert (Z.testbit (Z.land ty 0x8000) 15 = false) as Hb by (rewrite Hmsb; apply Z.bits_0).
    rewrite Z.land_spec in Hb. change 0x8000 with (2 ^ 15) in Hb.
    rewrite Z.pow2_bits_true, andb_true_r in Hb by lia.
    apply Z.testbit_false in Hb; [|lia]. change (2 ^ 15) with 32768 in Hb. word_lia. }
  split; [done|]. split; [done|]. split.
  { unfold StunMsg.IsLegacy; cbn [transaction_id_ StunMsg.set_attrs StunMsg.SetTransactionID].
    exact Htid. }
  split; [done|]. split; [|done].
  change (20 + Z.to_nat len)%nat with (2 + (2 + (16 + Z.to_nat len)))%nat.
  apply (consumed_trans _ _ _ _ _ Hc1), (consumed_trans _ _ _ _ _ Hc2),
    (consumed_trans _ _ _ _ _ Hc3), Hc4.
Qed.
End Sound.

(** ** Building messages *)

Lemma attrs_length_app l1 l2 : attrs_length (l1 ++ l2) = attrs_length l1 + attrs_length l2.
Proof. induction l1 as [|a l1 IH]; [done|]. simpl. unfold attrs_length in *. lia. Qed.

(** [AddAttribute] keeps a message well-formed while its length fits. *)
Lemma AddAttribute_wf a m :
  message_wf m -> attr_wf a -> m_length m + (length_ a + 4) < 65536 ->
  message_wf (StunMsg.AddAttribute a m).
Proof.
  intros (?&?&Hl&?&?) Ha Hfit. pose proof Ha as (_ & Hr & _).
  assert (u16 (m_length m + (length_ a + 4)) = m_length m + (length_ a + 4)) as E by word_lia.
  split; [done|]. split; [done|]. cbn [m_length attrs_ StunMsg.AddAttribute].
  rewrite E, attrs_length_app. simpl.
  split; [lia|]. split; [word_lia|]. apply Forall_app. auto.
Qed.

(** ** Typed access *)

Definition is_address b := match b with BAddress _ => true | _ => false end.
Definition is_uint32 b := match b with BUInt32 _ => true | _ => false end.
Definition is_bytestring b := match b with BByteString (Some _) => true | _ => false end.
Definition is_error_code b := match b with BErrorCode _ _ _ => true | _ => false end.
Definition is_uint16_list b := match b with BUInt16List _ => true | _ => false end.
Definition is_transport_prefs b := match b with BTransportPrefs _ _ _ => true | _ => false end.

Lemma attr_wf_kind a : attr_wf a ->
  (is_in (type_ a) address_types = true -> is_address (body_ a) = true) /\
  (is_in (type_ a) uint32_types = true -> is_uint32 (body_ a) = true) /\
  (is_in (type_ a) bytestring_types = true -> is_bytestring (body_ a) = true) /\
  (type_ a = STUN_ATTR_ERROR_CODE -> is_error_code (body_ a) = true) /\
  (type_ a = STUN_ATTR_UNKNOWN_ATTRIBUTES -> is_uint16_list (body_ a) = true) /\
  (type_ a = STUN_ATTR_TRANSPORT_PREFERENCES -> is_transport_prefs (body_ a) = true).
Proof.
  destruct a as [ty len bd]. intros (_ & _ & Hb). cbn [type_ length_ body_] in *.
  destruct bd as [ad|v|s|c n r|l|p t ad].
  - destruct Hb as (Hi & _). is_in_cases Hi; repeat split; done.
  - destruct Hb as (Hi & _). is_in_cases Hi; repeat split; done.
  - destruct Hb as (Hi & (l & -> & _) & _). is_in_cases Hi; repeat split; done.
  - destruct Hb as (-> & _). repeat split; done.
  - destruct Hb as (-> & _). repeat split; done.
  - destruct Hb as (-> & _). repeat split; done.
Qed.

Lemma GetAttribute_spec t m a : Forall attr_wf (attrs_ m) ->
  StunMsg.GetAttribute t m = Some a -> attr_wf a /\ type_ a = t.
Proof.
  intros Hwf Hf. apply List.find_some in Hf as [Hin Ht%Z.eqb_eq]. split; [|done].
  rewrite Forall_forall in Hwf. apply Hwf. by apply list_elem_of_In.
Qed.

(** ** The properties *)

Section Properties.
Context {B : Type} `{ByteQueueLaws B}.

(** C16. A well-formed message, written to an empty buffer and followed by any
    other bytes, reads back as itself into any message object, and the reader
    stops exactly at the bytes that follow. *)
Theorem stun_write_read (m m0 : StunMessage) (rest : bytes) :
  message_wf m ->
  exists b', StunMsg.Read (m0, q_write_bytes (StunMsg.Write m q_new) rest) = (true, (m, b')) /\
             q_contents b' = rest.
Proof.
  intros Hm. destruct q_new_spec as [Hok Hc].
  destruct (Write_contents m q_new Hok) as [Hok1 Hc1].
  destruct (q_write_bytes_spec rest _ Hok1) as [Hok2 Hc2].
  rewrite Hc1, Hc in Hc2.
  destruct (parses_message m0 m Hm _ rest Hok2 Hc2) as (b' & ? & _ & ?). by exists b'.
Qed.

(** C27. Whatever bytes arrive, if [Read] accepts them then: the type is the
    first 16-bit field and has its top bit clear, the length the second, the
    transaction id is the rest of the 20-byte header (without the cookie, or
    all sixteen bytes for a legacy message), every attribute is an object of
    the class and length its type requires with fields in range, the reader
    consumed exactly the header and the announced length, and the announced
    length is the sum of the attributes' unless a transport preference carries
    an address. *)
Theorem stun_read_sound (m0 m : StunMessage) (b b' : B) :
  q_ok b -> StunMsg.Read (m0, b) = (true, (m, b')) ->
  m_type m = be_value (take 2 (q_contents b)) /\ m_type m < 32768 /\
  m_length m = be_value (sub 2 2 (q_contents b)) /\
  valid_id (transaction_id_ m) /\
  sub 4 16 (q_contents b) = (if StunMsg.IsLegacy m then [] else kStunMagicCookie) ++ transaction_id_ m /\
  Forall attr_wf (attrs_ m) /\
  (20 + Z.to_nat (m_length m) <= length (q_contents b))%nat /\
  q_contents b' = drop (20 + Z.to_nat (m_length m)) (q_contents b) /\
  (Forall (fun a => has_addr (body_ a) = false) (attrs_ m) -> m_length m = attrs_length (attrs_ m)).
Proof.
  intros Hok HR. destruct (Read_sound _ _ _ _ Hok HR) as (?&?&?&?&?&?&(_&?&?)&?). done.
Qed.

(** C29. The casts of the typed getters are safe on every message [Read]
    accepts: an attribute found under a type is an object of the class that
    the getter for this type casts it to, and a byte string has its bytes. *)
Theorem stun_getters_typed (m0 m : StunMessage) (b b' : B) (t : Z) (a : StunAttribute) :
  q_ok b -> StunMsg.Read (m0, b) = (true, (m, b')) ->
  (StunMsg.GetAddress t m = Some a -> is_address (body_ a) = true) /\
  (StunMsg.GetUInt32 t m = Some a -> is_uint32 (body_ a) = true) /\
  (StunMsg.GetByteString t m = Some a -> is_bytestring (body_ a) = true) /\
  (StunMsg.GetErrorCode m = Some a -> is_error_code (body_ a) = true) /\
  (StunMsg.GetUnknownAttributes m = Some a -> is_uint16_list (body_ a) = true) /\
  (StunMsg.GetTransportPrefs m = Some a -> is_transport_prefs (body_ a) = true).
Proof.
  intros Hok HR. destruct (Read_sound _ _ _ _ Hok HR) as (_&_&_&_&_&Hwf&_).
  repeat split;
    unfold StunMsg.GetAddress, StunMsg.GetUInt32, StunMsg.GetByteString, StunMsg.GetErrorCode,
      StunMsg.GetUnknownAttributes, StunMsg.GetTransportPrefs;
    try (destruct (is_in t _) eqn:Hi; [|done]); intros Hg;
    apply GetAttribute_spec in Hg as [Ha Ht]; try done;
    apply attr_wf_kind in Ha; rewrite Ht in Ha; tauto.
Qed.

(** The attribute loop terminates: run with as many iterations as the
    buffer has bytes (what [read_body] does) it never stops for lack of fuel;
    any larger number gives the same result on every input. *)
Theorem stun_read_attrs_terminates (extra rest : nat) (m : StunMessage) (b : B) :
  q_ok b ->
  StunMsg.read_attrs (q_length b + extra) rest (m, b) = StunMsg.read_attrs (q_length b) rest (m, b).
Proof. intros Hok. apply read_attrs_fuel; rewrite ?q_length_spec by done; [done|lia..]. Qed.
End Properties.

(** *** Witnesses, with the byte buffer of a little-endian machine *)

Definition sample_message : StunMessage :=
  StunMsg.AddAttribute (mkAttr STUN_ATTR_TRANSPORT_PREFERENCES 12
    (BTransportPrefs true 2 (Some (STUN_ATTR_SOURCE_ADDRESS, mkAddress 1 80 3232235777))))
  (StunMsg.AddAttribute (mkAttr STUN_ATTR_UNKNOWN_ATTRIBUTES 4 (BUInt16List [7; 65535]))
  (StunMsg.AddAttribute (mkAttr STUN_ATTR_ERROR_CODE 15 (BErrorCode 4 20 (str "BAD REQUEST")))
  (StunMsg.AddAttribute (mkAttr STUN_ATTR_USERNAME 8 (BByteString (Some (str "userpass"))))
  (StunMsg.AddAttribute (mkAttr STUN_ATTR_LIFETIME 4 (BUInt32 600))
  (StunMsg.AddAttribute (mkAttr STUN_ATTR_MAPPED_ADDRESS 8 (BAddress (mkAddress 1 12345 167772161)))
  (StunMsg.SetType STUN_BINDING_RESPONSE StunMsg.make)))))).

Lemma sample_message_wf : message_wf sample_message.
Proof.
  split; [done|]. split; [by left|]. split; [done|]. split; [done|].
  repeat apply Forall_cons_2; [..|apply Forall_nil_2]; (split; [done|]; split; [done|]).
  - done.
  - done.
  - split; [done|]. split; [by eexists|]. done.
  - done.
  - split; [done|]. split; [done|]. repeat constructor; done.
  - done.
Qed.

Section Witnesses.
Import Buf.
#[local] Existing Instance little_host.

Lemma stun_write_read_witness :
  exists b', StunMsg.Read (StunMsg.make, q_write_bytes (StunMsg.Write sample_message q_new) (str "more"))
    = (true, (sample_message, b')) /\ q_contents b' = str "more".
Proof. apply (stun_write_read (B := ByteBuffer)). exact sample_message_wf. Defined.

(** A legacy binding request with a user name, followed by two more bytes. *)
Definition sample_packet : bytes :=
  map mkbyte [0; 1; 0; 8; 1; 2; 3; 4; 5; 6; 7; 8; 9; 10; 11; 12; 13; 14; 15; 16;
              0; 6; 0; 4; 97; 98; 99; 100; 254; 255].
Definition read_packet (p : bytes) : bool * (StunMessage * ByteBuffer) :=
  StunMsg.Read (StunMsg.make, q_of p).

Lemma stun_read_sound_witness :
  let m := fst (snd (read_packet sample_packet)) in
  valid_id (transaction_id_ m) /\ Forall attr_wf (attrs_ m) /\ m_length m = 8.
Proof.
  destruct (stun_read_sound (B := ByteBuffer) StunMsg.make (fst (snd (read_packet sample_packet)))
    (q_of sample_packet) (snd (snd (read_packet sample_packet)))) as (_&_&Hl&Hid&_&Hwf&_).
  - apply q_of_spec.
  - vm_compute. reflexivity.
  - split; [exact Hid|]. split; [exact Hwf|]. rewrite Hl. vm_compute. reflexivity.
Defined.

Lemma stun_getters_typed_witness :
  exists a, StunMsg.GetByteString STUN_ATTR_USERNAME (fst (snd (read_packet sample_packet))) = Some a /\
            is_bytestring (body_ a) = true.
Proof.
  eexists. split; [vm_compute; reflexivity|].
  apply (stun_getters_typed (B := ByteBuffer) StunMsg.make (fst (snd (read_packet sample_packet)))
    (q_of sample_packet) (snd (snd (read_packet sample_packet))) STUN_ATTR_USERNAME).
  - apply q_of_spec.
  - vm_compute. reflexivity.
  - vm_compute. reflexivity.
Defined.

Lemma stun_read_attrs_terminates_witness :
  StunMsg.read_attrs (q_length (q_of sample_packet) + 5) 0 (StunMsg.make, q_of sample_packet) =
  StunMsg.read_attrs (q_length (q_of sample_packet)) 0 (StunMsg.make, q_of sample_packet).
Proof. apply (stun_read_attrs_terminates (B := ByteBuffer)), q_of_spec. Defined.

(** A transport preference that announces an address but ends after its flags
    is accepted: the nested read's failure is ignored. *)
Example truncated_prefs_accepted :
  let p := map mkbyte ([0; 1; 0; 8; 0x21; 0x12; 0xA4; 0x42] ++ replicate 12 7 ++
                       [0; 12; 0; 12; 0; 0; 0; 4]) in
  fst (read_packet p) = true /\
  m_length (fst (snd (read_packet p))) = 8 /\
  attrs_length (attrs_ (fst (snd (read_packet p)))) = 16.
Proof. by vm_compute. Qed.
End Witnesses.
