(* ===== verification/StunServer.v ===== *)
(** * The STUN server (talk/p2p/base/stunserver.h, stunserver.cc)

    The server keeps no state besides its socket: a packet is answered by one
    packet.  A handler returns the datagrams it sends, in order; the socket's
    local address is a parameter, and the result of [SendTo], which the code
    only logs, is not looked at. *)

From S2P Require Import Prelude ByteOrder ByteBuffer SocketAddress Stun StunFacts.

Module StunSrv.
Import StunAttributeBase.

Section Server.
Context {B : Type} `{ByteQueue B}.

(** A datagram and its destination. *)
Definition datagram : Type := bytes * SocketAddress.

Definition SendResponse (msg : StunMessage) (addr : SocketAddress) : list datagram :=
  let buf := StunMsg.Write msg q_new in
  [(q_contents buf, addr)].

(** [CreateAddress(type)] with family, port and ip set. *)
Definition address_attr (type port ip : Z) : StunAttribute :=
  mkAttr type StunAddressAttribute.SIZE (BAddress
    (StunAddressAttribute.SetIP ip (StunAddressAttribute.SetPort port
      (StunAddressAttribute.SetFamily 1 (mkAddress 0 0 0))))).

(** [CreateErrorCode()] with the class, the number and the reason set. *)
Definition error_attr (error_code : Z) (error_desc : bytes) : StunAttribute :=
  let f := StunErrorCodeAttribute.of_body (body_ CreateErrorCode) in
  let f := StunErrorCodeAttribute.SetErrorClass (error_code / 100) f in
  let f := StunErrorCodeAttribute.SetNumber (error_code mod 100) f in
  StunErrorCodeAttribute.SetReason error_desc
    (set_body CreateErrorCode (StunErrorCodeAttribute.to_body f)).

Definition SendErrorResponse (msg : StunMessage) (addr : SocketAddress) (error_code : Z)
    (error_desc : bytes) : list datagram :=
  let err_msg := StunMsg.SetType (StunMsg.GetStunErrorResponseType (m_type msg)) StunMsg.make in
  let err_msg := StunMsg.SetTransactionID (transaction_id_ msg) err_msg in
  let err_msg := StunMsg.AddAttribute (error_attr error_code error_desc) err_msg in
  SendResponse err_msg addr.

Definition OnBindingRequest (local_addr : SocketAddress) (msg : StunMessage)
    (remote_addr : SocketAddress) : list datagram :=
  let response := StunMsg.SetType STUN_BINDING_RESPONSE StunMsg.make in
  let response := StunMsg.SetTransactionID (transaction_id_ msg) response in
  let response := StunMsg.AddAttribute
    (address_attr STUN_ATTR_MAPPED_ADDRESS (sa_port remote_addr) (sa_ip remote_addr)) response in
  let response := StunMsg.AddAttribute
    (address_attr STUN_ATTR_SOURCE_ADDRESS (sa_port local_addr) (sa_ip local_addr)) response in
  SendResponse response remote_addr.

Definition OnAllocateRequest (msg : StunMessage) (addr : SocketAddress) : list datagram :=
  SendErrorResponse msg addr 600 (str "Operation Not Supported").
Definition OnSharedSecretRequest (msg : StunMessage) (addr : SocketAddress) : list datagram :=
  SendErrorResponse msg addr 600 (str "Operation Not Supported").
Definition OnSendRequest (msg : StunMessage) (addr : SocketAddress) : list datagram :=
  SendErrorResponse msg addr 600 (str "Operation Not Supported").

Definition OnPacket (local_addr : SocketAddress) (buf : bytes) (remote_addr : SocketAddress)
    : list datagram :=
  let '(ok, (msg, _)) := StunMsg.Read (StunMsg.make, q_of buf) in
  if negb ok then SendErrorResponse msg remote_addr 400 (str "Bad Request")
  else if m_type msg =? STUN_BINDING_REQUEST then OnBindingRequest local_addr msg remote_addr
  else if m_type msg =? STUN_ALLOCATE_REQUEST then OnAllocateRequest msg remote_addr
  else SendErrorResponse msg remote_addr 600 (str "Operation Not Supported").
End Server.

(** ** Facts *)

Section Facts.
Context {B : Type} `{ByteQueueLaws B}.

(** The answer [d] is one packet to [addr] that any receiver decodes to [r]. *)
Definition answers (addr : SocketAddress) (r : StunMessage) (d : list datagram) : Prop :=
  exists p, d = [(p, addr)] /\
    forall m0, exists b', StunMsg.Read (B := B) (m0, q_of p) = (true, (r, b')) /\ q_contents b' = [].

Lemma SendResponse_answers r addr : message_wf r -> answers addr r (SendResponse (B := B) r addr).
Proof.
  intros Hr. eexists. split; [done|]. intros m0.
  destruct q_new_spec as [Hok Hc]. destruct (Write_contents r q_new Hok) as [_ Hc1].
  rewrite Hc in Hc1. simpl in Hc1.
  destruct (q_of_spec (q_contents (StunMsg.Write r q_new))) as [Hok2 Hc2].
  rewrite Hc1 in *. rewrite <- (app_nil_r (enc_message r)) in Hc2 at 2.
  destruct (parses_message m0 r Hr _ [] Hok2 Hc2) as (b' & ? & _ & ?). by exists b'.
Qed.

Lemma address_attr_wf t p i :
  is_in t address_types = true -> is_u16 p -> is_u32 i -> attr_wf (address_attr t p i).
Proof.
  intros Ht ? ?. split; [|split; [done|]].
  - is_in_cases Ht; done.
  - done.
Qed.

Lemma error_attr_eq code desc : 0 <= code < 800 -> Z.of_nat (length desc) < 1000 ->
  error_attr code desc =
    mkAttr STUN_ATTR_ERROR_CODE (4 + Z.of_nat (length desc)) (BErrorCode (code / 100) (code mod 100) desc).
Proof.
  intros Hc Hd. unfold error_attr, StunErrorCodeAttribute.SetReason, SetLength, set_body. simpl.
  unfold StunErrorCodeAttribute.MIN_SIZE.
  rewrite (u16_small (Z.of_nat (length desc))), u16_small by (unfold is_u16; lia).
  rewrite !u8_small by (unfold is_u8; Z.div_mod_to_equations; lia). done.
Qed.

Lemma error_attr_wf code desc : 0 <= code < 800 -> Z.of_nat (length desc) < 1000 ->
  attr_wf (error_attr code desc).
Proof.
  intros Hc Hd. rewrite error_attr_eq by done.
  split; [done|]. split; [unfold is_u16; simpl; lia|]. simpl. split; [done|].
  unfold is_u8. split; [|split]; Z.div_mod_to_equations; lia.
Qed.

Lemma make_wf t id : 0 <= t < 32768 -> valid_id id ->
  message_wf (StunMsg.SetTransactionID id (StunMsg.SetType t StunMsg.make)).
Proof.
  intros Ht Hid. split; [simpl; word_lia|]. split; [done|]. split; [done|]. split; [done|]. constructor.
Qed.

Lemma error_type_range t : 0 <= StunMsg.GetStunErrorResponseType t < 32768.
Proof. unfold StunMsg.GetStunErrorResponseType. repeat case_match; done. Qed.

(** The answer of the server to a message in error. *)
Definition error_response (msg : StunMessage) (class number : Z) (reason : bytes) : StunMessage :=
  mkMessage (StunMsg.GetStunErrorResponseType (m_type msg)) (8 + Z.of_nat (length reason))
    (transaction_id_ msg)
    [mkAttr STUN_ATTR_ERROR_CODE (4 + Z.of_nat (length reason)) (BErrorCode class number reason)].

Lemma SendErrorResponse_answers msg addr code desc :
  valid_id (transaction_id_ msg) -> 0 <= code < 800 -> Z.of_nat (length desc) < 1000 ->
  answers addr (error_response msg (code / 100) (code mod 100) desc)
    (SendErrorResponse (B := B) msg addr code desc).
Proof.
  intros Hid Hc Hd. pose proof (error_type_range (m_type msg)) as Ht.
  pose proof (make_wf _ _ Ht Hid) as Hm.
  pose proof (AddAttribute_wf (error_attr code desc) _ Hm (error_attr_wf _ _ Hc Hd)) as Hr.
  rewrite error_attr_eq in Hr by done. specialize (Hr ltac:(simpl; lia)).
  unfold SendErrorResponse. rewrite error_attr_eq by done.
  assert (E : StunMsg.AddAttribute (mkAttr STUN_ATTR_ERROR_CODE (4 + Z.of_nat (length desc))
      (BErrorCode (code / 100) (code mod 100) desc))
    (StunMsg.SetTransactionID (transaction_id_ msg)
      (StunMsg.SetType (StunMsg.GetStunErrorResponseType (m_type msg)) StunMsg.make)) =
    error_response msg (code / 100) (code mod 100) desc).
  { unfold error_response, StunMsg.AddAttribute, StunMsg.SetTransactionID, StunMsg.SetType.
    cbn [m_type m_length transaction_id_ attrs_ length_ StunMsg.make app]. f_equal.
    - apply u16_small. unfold is_u16. lia.
    - rewrite u16_small by (unfold is_u16; lia). lia. }
  rewrite E in *. by apply SendResponse_answers.
Qed.

(** Reading never leaves an invalid transaction id, whatever the outcome. *)
Lemma read_attrs_id fuel rest : forall m b,
  transaction_id_ (fst (snd (StunMsg.read_attrs (B := B) fuel rest (m, b)))) = transaction_id_ m.
Proof.
  induction fuel as [|fuel IH]; intros m b; cbn [StunMsg.read_attrs];
    destruct (q_length b <=? rest)%nat; try done.
  destruct (q_read16 b) as [[ty b1]|]; [|done]. destruct (q_read16 b1) as [[len b2]|]; [|done].
  destruct (Create ty len) as [a0|]; [|done].
  destruct (StunAttributeBase.Read (a0, b2)) as [ok [a b3]]. destruct ok; [|done]. by rewrite IH.
Qed.

Lemma Read_valid_id m0 b : q_ok b -> valid_id (transaction_id_ m0) ->
  valid_id (transaction_id_ (fst (snd (StunMsg.Read (B := B) (m0, b))))).
Proof.
  intros Hok Hid. unfold StunMsg.Read, andthen, get, guard.
  destruct (q_read16 b) as [[ty b1]|] eqn:E1; [|done].
  destruct (read16_sound b ty b1 Hok E1) as [(Hok1 & _) _].
  destruct (_ =? 0); [|done].
  destruct (q_read16 b1) as [[len b2]|] eqn:E2; [|done].
  destruct (read16_sound b1 len b2 Hok1 E2) as [(Hok2 & _) _].
  destruct (StunMsg.read_ids _) as [ok [m3 b3]] eqn:E3. destruct ok.
  - destruct (read_ids_sound _ _ _ _ Hok2 E3) as (_ & tid & Ht & -> & _).
    unfold StunMsg.read_body. destruct (_ <? _); [done|]. cbn zeta.
    destruct (StunMsg.read_attrs _ _ _) as [ok [m4 b4]] eqn:E4.
    assert (transaction_id_ m4 = tid) as <-
      by (change m4 with (fst (snd (ok, (m4, b4)))); rewrite <- E4, read_attrs_id; done).
    by destruct ok.
  - unfold StunMsg.read_ids in E3. repeat case_match; simplify_eq; done.
Qed.

(** The answer to a binding request. *)
Definition binding_response (id : bytes) (remote local : SocketAddress) : StunMessage :=
  mkMessage STUN_BINDING_RESPONSE 24 id
    [mkAttr STUN_ATTR_MAPPED_ADDRESS 8 (BAddress (mkAddress 1 (sa_port remote) (sa_ip remote)));
     mkAttr STUN_ATTR_SOURCE_ADDRESS 8 (BAddress (mkAddress 1 (sa_port local) (sa_ip local)))].

Definition sa_wf (a : SocketAddress) : Prop := is_u32 (sa_ip a) /\ is_u16 (sa_port a).

Lemma OnBindingRequest_answers local msg remote :
  valid_id (transaction_id_ msg) -> sa_wf local -> sa_wf remote ->
  answers remote (binding_response (transaction_id_ msg) remote local)
    (OnBindingRequest (B := B) local msg remote).
Proof.
  intros Hid [? ?] [? ?]. unfold OnBindingRequest.
  assert (message_wf (binding_response (transaction_id_ msg) remote local)) as Hr.
  { split; [done|]. split; [done|]. split; [done|]. split; [done|].
    repeat apply Forall_cons_2; [..|apply Forall_nil_2]; by apply (address_attr_wf _). }
  by apply (SendResponse_answers _ remote) in Hr.
Qed.

(** C26. The server answers every packet, of any content, with exactly one
    packet to its sender, which every receiver decodes completely: a binding
    request gets a binding response that carries the sender's address as the
    mapped address and the socket's own as the source address; a packet that
    does not parse gets error 400 and any other request error 600, each of the
    error type of the request; all of them with the transaction id of the
    request. *)
Theorem stun_server_answers (local remote : SocketAddress) (packet : bytes) :
  sa_wf local -> sa_wf remote ->
  let '(ok, (msg, _)) := StunMsg.Read (B := B) (StunMsg.make, q_of packet) in
  answers remote
    (if negb ok then error_response msg 4 0 (str "Bad Request")
     else if m_type msg =? STUN_BINDING_REQUEST
     then binding_response (transaction_id_ msg) remote local
     else error_response msg 6 0 (str "Operation Not Supported"))
    (OnPacket (B := B) local packet remote).
Proof.
  intros Hl Hr. unfold OnPacket. destruct (q_of_spec packet) as [Hok _].
  pose proof (Read_valid_id StunMsg.make (q_of packet) Hok ltac:(by left)) as Hid.
  destruct (StunMsg.Read _) as [ok [msg b]]. simpl in Hid.
  destruct ok; simpl.
  - destruct (m_type msg =? STUN_BINDING_REQUEST); [by apply OnBindingRequest_answers|].
    assert (answers remote (error_response msg 6 0 (str "Operation Not Supported"))
      (SendErrorResponse (B := B) msg remote 600 (str "Operation Not Supported"))) as HA
      by (by apply SendErrorResponse_answers).
    by destruct (m_type msg =? STUN_ALLOCATE_REQUEST).
  - by apply SendErrorResponse_answers.
Qed.
End Facts.

Section Witness.
#[local] Existing Instance little_host.

Definition sample_request : bytes :=
  map mkbyte [0; 1; 0; 0; 0x21; 0x12; 0xA4; 0x42] ++ str "abcdefghijkl".

Lemma stun_server_answers_witness :
  fst (read_packet sample_request) = true /\
  answers (SockAddr.make 3232235777 4000)
    (binding_response (transaction_id_ (fst (snd (read_packet sample_request))))
      (SockAddr.make 3232235777 4000) (SockAddr.make 1 3478))
    (OnPacket (B := Buf.ByteBuffer) (SockAddr.make 1 3478) sample_request
      (SockAddr.make 3232235777 4000)).
Proof.
  split; [by vm_compute|].
  pose proof (stun_server_answers (B := Buf.ByteBuffer) (SockAddr.make 1 3478)
    (SockAddr.make 3232235777 4000) sample_request ltac:(by vm_compute) ltac:(by vm_compute)) as HA.
  assert (fst (read_packet sample_request) = true) as Hok by (by vm_compute).
  assert (m_type (fst (snd (read_packet sample_request))) = 1) as Ht by (by vm_compute).
  unfold read_packet in *. destruct (StunMsg.Read _) as [ok [msg b]]. simpl in Hok, Ht.
  rewrite Hok, Ht in HA. exact HA.
Defined.
End Witness.
End StunSrv.
