(* ===== verification/StunMessages.v ===== *)
(** * STUN messages as the peer-to-peer components build and read them

    The combinations of factory, setters and getters of stun.h that the relay
    server and the ports share, and the encoding of a whole message. *)

From S2P Require Import Prelude ByteOrder ByteBuffer SocketAddress Stun StunFacts StunServer.
Import StunAttributeBase.

(** [CreateByteString(type)] with [CopyBytes(bytes, length)]. *)
Definition bytes_attr (type : Z) (s : bytes) (length : Z) : StunAttribute :=
  StunByteStringAttribute.CopyBytes s length (StunByteStringAttribute.make type 0).
(** [CreateUInt32(type)] with [SetValue(v)]. *)
Definition uint32_attr (type v : Z) : StunAttribute :=
  set_body (StunUInt32Attribute.make type) (BUInt32 v).

(** The bytes of a byte-string attribute, [length()] of them. *)
Definition attr_bytes (a : StunAttribute) : bytes :=
  match body_ a with BByteString s => take (Z.to_nat (length_ a)) (default [] s) | _ => [] end.
Definition attr_value (a : StunAttribute) : Z := match body_ a with BUInt32 v => v | _ => 0 end.
Definition attr_address (a : StunAttribute) : SocketAddress :=
  match body_ a with BAddress ad => SockAddr.make (ip_ ad) (port_ ad) | _ => SockAddr.Clear end.

Section Wire.
Context {B : Type} `{ByteQueue B}.
(** [msg.Write] to a fresh buffer. *)
Definition stun_bytes (msg : StunMessage) : bytes := q_contents (StunMsg.Write (B := B) msg q_new).
End Wire.

Section Laws.
Context {B : Type} `{ByteQueueLaws B}.
(** Any receiver decodes [d] completely, to [m]. *)
Definition decodes (d : bytes) (m : StunMessage) : Prop :=
  forall m0, exists b', StunMsg.Read (B := B) (m0, q_of d) = (true, (m, b')) /\ q_contents b' = [].

Lemma stun_bytes_decodes m : message_wf m -> decodes (stun_bytes (B := B) m) m.
Proof.
  intros Hm. destruct (StunSrv.SendResponse_answers m SockAddr.Clear Hm) as (p & E & Hd). by injection E as <-.
Qed.

Lemma bytes_attr_wf t s : is_in t bytestring_types = true -> t <> STUN_ATTR_MESSAGE_INTEGRITY ->
  (is_in t [STUN_ATTR_USERNAME; STUN_ATTR_PASSWORD; STUN_ATTR_MAGIC_COOKIE] = true -> Z.of_nat (length s) mod 4 = 0) ->
  Z.of_nat (length s) < 65536 ->
  bytes_attr t s (Z.of_nat (length s)) = mkAttr t (Z.of_nat (length s)) (BByteString (Some s)) /\
  attr_wf (bytes_attr t s (Z.of_nat (length s))).
Proof.
  intros Ht Hmi H4 Hl. assert (E : bytes_attr t s (Z.of_nat (length s)) = mkAttr t (Z.of_nat (length s)) (BByteString (Some s))).
  { unfold bytes_attr, StunByteStringAttribute.CopyBytes, SetLength, set_body. cbn.
    rewrite u16_small by (unfold is_u16; lia). by rewrite Nat2Z.id, take_ge. }
  split; [done|]. rewrite E. split; [|split; [unfold is_u16; cbn; lia|]]; cbn [type_ length_ body_].
  - is_in_cases Ht; done.
  - split_and!; [done|by exists s|done|done].
Qed.

End Laws.
