(* ===== verification/StunRequest.v ===== *)
(** * STUN transactions (talk/p2p/base/stunrequest.h, stunrequest.cc)

    A manager owns the outstanding requests, keyed by transaction id, and posts
    one timed message per request to its thread.  The manager and the part of
    the thread's queue that concerns it are one state; a request object is
    identified by its id (the map's key).  The virtual callbacks are events in
    a trace, [Prepare] is a parameter. *)

From S2P Require Import Prelude TimeUtil ByteOrder ByteBuffer SocketAddress Stun StunFacts.

Module StunReq.

Definition MSG_STUN_SEND : Z := 1.
Definition MAX_SENDS : Z := 9.
Definition DELAY_UNIT : Z := 100.
Definition DELAY_MAX_FACTOR : Z := 16.

(** The fields of [StunRequest]; [manager_] is set exactly while the request is
    in a manager's map. *)
Record StunRequest := mkRequest {
  count_ : Z;
  timeout_ : bool;
  id_ : bytes;
  msg_ : StunMessage;
  tstamp_ : Z;
}.

(** [requests_], and the delayed posts [(due time, id)] of the thread. *)
Record StunRequestManager := mkManager {
  requests_ : gmap bytes StunRequest;
  posts : list (Z * bytes);
}.

(** What the outside sees. *)
Inductive event :=
  | SignalSendPacket (id data : bytes)
  | OnResponse (id : bytes) (msg : StunMessage)
  | OnErrorResponse (id : bytes) (msg : StunMessage)
  | OnTimeout (id : bytes).

(** [StunRequest()] with its random id and [StunRequest(StunMessage* )]. *)
Definition make (random_id : bytes) : StunRequest :=
  mkRequest 0 false random_id (StunMsg.SetTransactionID random_id StunMsg.make) 0.
Definition make_msg (request : StunMessage) : StunRequest :=
  mkRequest 0 false (transaction_id_ request) request 0.

Definition empty_manager : StunRequestManager := mkManager ∅ [].

(** [thread_->Clear(request)] and [requests_.erase]. *)
Definition thread_clear (id : bytes) (ps : list (Z * bytes)) : list (Z * bytes) :=
  List.filter (fun p => negb (bool_decide (snd p = id))) ps.

Definition GetNextDelay (r : StunRequest) : Z * StunRequest :=
  let delay := DELAY_UNIT * Z.min (Z.shiftl 1 (count_ r)) DELAY_MAX_FACTOR in
  let count := count_ r + 1 in
  (delay, mkRequest count (if count =? MAX_SENDS then true else timeout_ r) (id_ r) (msg_ r) (tstamp_ r)).

Definition Elapsed (now : Z) (r : StunRequest) : Z := u32 (TimeSince now (tstamp_ r)).

Section Manager.
Context {B : Type} `{ByteQueue B}.
Variable Prepare : StunMessage -> StunMessage.

Definition Construct (r : StunRequest) : StunRequest :=
  if m_type (msg_ r) =? 0
  then mkRequest (count_ r) (timeout_ r) (id_ r) (Prepare (msg_ r)) (tstamp_ r) else r.

(** [None] is the failed [ASSERT] on a duplicate id. *)
Definition SendDelayed (now : Z) (r : StunRequest) (delay : Z) (mgr : StunRequestManager)
    : option StunRequestManager :=
  match requests_ mgr !! id_ r with
  | Some _ => None
  | None =>
      let r := Construct r in
      Some (mkManager (<[id_ r := r]> (requests_ mgr)) (posts mgr ++ [(now + delay, id_ r)]))
  end.
Definition Send (now : Z) (r : StunRequest) (mgr : StunRequestManager) := SendDelayed now r 0 mgr.

Definition Remove (id : bytes) (mgr : StunRequestManager) : StunRequestManager :=
  match requests_ mgr !! id with
  | Some _ => mkManager (delete id (requests_ mgr)) (thread_clear id (posts mgr))
  | None => mgr
  end.

Definition Clear (mgr : StunRequestManager) : StunRequestManager :=
  fold_left (fun mgr id => Remove id mgr) (map fst (map_to_list (requests_ mgr))) mgr.

(** [delete request]: the destructor removes it and clears its posts. *)
Definition delete_request (id : bytes) (mgr : StunRequestManager) : StunRequestManager :=
  let mgr := Remove id mgr in mkManager (requests_ mgr) (thread_clear id (posts mgr)).

Definition CheckResponse_msg (msg : StunMessage) (mgr : StunRequestManager)
    : bool * (list event * StunRequestManager) :=
  match requests_ mgr !! transaction_id_ msg with
  | None => (false, ([], mgr))
  | Some request =>
      let type := m_type (msg_ request) in
      if m_type msg =? StunMsg.GetStunResponseType type then
        (true, ([OnResponse (id_ request) msg], delete_request (id_ request) mgr))
      else if m_type msg =? StunMsg.GetStunErrorResponseType type then
        (true, ([OnErrorResponse (id_ request) msg], delete_request (id_ request) mgr))
      else (false, ([], mgr))
  end.

Definition CheckResponse (data : bytes) (mgr : StunRequestManager)
    : bool * (list event * StunRequestManager) :=
  if (length data <? 20)%nat then (false, ([], mgr))
  else
    let id := sub kStunTransactionIdOffset kStunTransactionIdLength data in
    match requests_ mgr !! id with
    | None => (false, ([], mgr))
    | Some _ =>
        let '(ok, (msg, _)) := StunMsg.Read (StunMsg.make, q_of data) in
        if ok then CheckResponse_msg msg mgr else (false, ([], mgr))
    end.

(** [OnMessage] of the request with this id, its post having been taken off
    the queue; [next_delay] is the virtual [GetNextDelay]. *)
Definition OnMessage_by (next_delay : StunRequest -> Z * StunRequest) (now : Z) (id : bytes)
    (mgr : StunRequestManager) : list event * StunRequestManager :=
  match requests_ mgr !! id with
  | None => ([], mgr)
  | Some r =>
      if timeout_ r then ([OnTimeout (id_ r)], delete_request (id_ r) mgr)
      else
        let r := mkRequest (count_ r) (timeout_ r) (id_ r) (msg_ r) (u32 now) in
        let data := q_contents (StunMsg.Write (msg_ r) q_new) in
        let '(delay, r') := next_delay r in
        ([SignalSendPacket (id_ r) data],
         mkManager (<[id := r']> (requests_ mgr)) (posts mgr ++ [(now + delay, id_ r)]))
  end.

Definition OnMessage := OnMessage_by GetNextDelay.

(** The thread delivers post [i] of the queue. *)
Definition deliver (now : Z) (i : nat) (mgr : StunRequestManager)
    : list event * StunRequestManager :=
  match posts mgr !! i with
  | None => ([], mgr)
  | Some (_, id) => OnMessage now id (mkManager (requests_ mgr) (delete i (posts mgr)))
  end.

(** ** The transaction layer as a transition system

    A new request, the delivery of a post that is due, a packet from the
    network, [Remove], [Clear].  The history has the requests that were started
    and what the outside saw. *)
Inductive entry := Started (id : bytes) | Seen (ev : event).
Inductive step (now : Z) : StunRequestManager -> list entry -> StunRequestManager -> Prop :=
  | step_send r delay mgr mgr' :
      count_ r = 0 -> timeout_ r = false -> 0 <= delay ->
      SendDelayed now r delay mgr = Some mgr' -> step now mgr [Started (id_ r)] mgr'
  | step_deliver i due id mgr :
      posts mgr !! i = Some (due, id) -> due <= now ->
      step now mgr (map Seen (fst (deliver now i mgr))) (snd (deliver now i mgr))
  | step_packet data mgr :
      step now mgr (map Seen (fst (snd (CheckResponse data mgr)))) (snd (snd (CheckResponse data mgr)))
  | step_remove id mgr : step now mgr [] (Remove id mgr)
  | step_clear mgr : step now mgr [] (Clear mgr).

(** Executions: the history, with time passing between steps. *)
Inductive execution : Z -> StunRequestManager -> list entry -> Prop :=
  | exec_start now : execution now empty_manager []
  | exec_step now now' mgr tr es mgr' :
      execution now mgr tr -> now <= now' -> step now' mgr es mgr' ->
      execution now' mgr' (tr ++ es).
Definition event_id (ev : event) : bytes :=
  match ev with SignalSendPacket id _ | OnResponse id _ | OnErrorResponse id _ | OnTimeout id => id end.
(** What was seen of the request with this id that was started last. *)
Definition see (id : bytes) (seen : list event) (e : entry) : list event :=
  match e with
  | Started i => if bool_decide (i = id) then [] else seen
  | Seen ev => if bool_decide (event_id ev = id) then seen ++ [ev] else seen
  end.
Definition since (id : bytes) (tr : list entry) : list event := fold_left (see id) tr [].

(** Delivery of the only pending post at the moment it is due, [n] times. *)
Fixpoint run_timers (n : nat) (mgr : StunRequestManager) : list (Z * event) * StunRequestManager :=
  match n with
  | O => ([], mgr)
  | S n =>
      match posts mgr with
      | [] => ([], mgr)
      | (due, _) :: _ =>
          let '(ev, mgr) := deliver due 0 mgr in
          let '(tr, mgr) := run_timers n mgr in
          (map (pair due) ev ++ tr, mgr)
      end
  end.
End Manager.

(** ** Invariant *)

Section Facts.
Context {B : Type} `{ByteQueueLaws B}.
Variable Prepare : StunMessage -> StunMessage.

Definition request_wf (id : bytes) (r : StunRequest) : Prop :=
  id_ r = id /\ 0 <= count_ r <= MAX_SENDS /\ (timeout_ r = true <-> count_ r = MAX_SENDS).

(** Every outstanding request satisfies [W] and has exactly one pending post. *)
Definition mgr_ok (W : bytes -> StunRequest -> Prop) (mgr : StunRequestManager) : Prop :=
  map_Forall W (requests_ mgr) /\
  NoDup (posts mgr).*2 /\
  (forall id, id ∈ (posts mgr).*2 <-> is_Some (requests_ mgr !! id)).
Definition mgr_wf : StunRequestManager -> Prop := mgr_ok request_wf.

Lemma thread_clear_ids (id : bytes) ps :
  (thread_clear id ps).*2 = List.filter (fun i => negb (bool_decide (i = id))) ps.*2.
Proof.
  unfold thread_clear. induction ps as [|[d i] ps IH]; [done|]. simpl.
  case_bool_decide; simpl; [done|]. by f_equal.
Qed.

Lemma elem_of_filter_ids (id i : bytes) (l : list bytes) :
  i ∈ List.filter (fun i => negb (bool_decide (i = id))) l <-> i ∈ l /\ i <> id.
Proof.
  rewrite !list_elem_of_In, List.filter_In, negb_true_iff, bool_decide_eq_false. done.
Qed.

Lemma thread_clear_wf (id : bytes) (m : gmap bytes StunRequest) (ps : list (Z * bytes)) :
  NoDup ps.*2 -> (forall i, i ∈ ps.*2 <-> is_Some (m !! i)) ->
  NoDup (thread_clear id ps).*2 /\
  (forall i, i ∈ (thread_clear id ps).*2 <-> is_Some (delete id m !! i)).
Proof.
  intros Hnd Hiff. rewrite thread_clear_ids. split.
  - apply NoDup_ListNoDup, List.NoDup_filter, NoDup_ListNoDup, Hnd.
  - intros i. rewrite elem_of_filter_ids, Hiff.
    destruct (decide (id = i)) as [->|]; [rewrite lookup_delete_eq|rewrite lookup_delete_ne by done].
    + split; [intros [_ ?]; done|intros [? ?]; done].
    + split; [intros [? _]; done|intros ?; split; congruence].
Qed.

Lemma Remove_wf W id mgr : mgr_ok W mgr -> mgr_ok W (Remove id mgr).
Proof.
  intros (Hr & Hnd & Hiff). unfold Remove.
  destruct (requests_ mgr !! id) eqn:E; [|done].
  destruct (thread_clear_wf id (requests_ mgr) (posts mgr) Hnd Hiff) as [? ?].
  split; [|done]. by apply map_Forall_delete.
Qed.

Lemma Clear_wf W mgr : mgr_ok W mgr -> mgr_ok W (Clear mgr).
Proof.
  unfold Clear. generalize (map fst (map_to_list (requests_ mgr))) as l.
  intros l. revert mgr. induction l as [|id l IH]; intros mgr Hm; [done|]. by apply IH, Remove_wf.
Qed.

Lemma thread_clear_absent (id : bytes) ps : id ∉ ps.*2 -> thread_clear id ps = ps.
Proof.
  induction ps as [|[d i] ps IH]; [done|]. simpl. rewrite not_elem_of_cons. intros [? ?].
  rewrite bool_decide_eq_false_2 by done. simpl. by rewrite IH.
Qed.

(** Deleting an outstanding request whose post may already be gone. *)
Lemma delete_request_spec (id : bytes) m ps r :
  m !! id = Some r ->
  delete_request id (mkManager m ps) = mkManager (delete id m) (thread_clear id ps).
Proof.
  intros E. unfold delete_request, Remove. simpl. rewrite E. simpl. f_equal.
  apply thread_clear_absent. rewrite thread_clear_ids, elem_of_filter_ids. by intros [_ ?].
Qed.

Lemma delete_request_wf W id mgr : mgr_ok W mgr -> is_Some (requests_ mgr !! id) ->
  mgr_ok W (delete_request id mgr).
Proof.
  destruct mgr as [m ps]. intros (Hr & Hnd & Hiff) [r E].
  rewrite (delete_request_spec id m ps r E).
  destruct (thread_clear_wf id m ps Hnd Hiff). split; [|done]. by apply map_Forall_delete.
Qed.

Lemma SendDelayed_wf now r delay mgr mgr' :
  mgr_wf mgr -> count_ r = 0 -> timeout_ r = false ->
  SendDelayed Prepare now r delay mgr = Some mgr' -> mgr_wf mgr'.
Proof.
  intros (Hr & Hnd & Hiff) Hc Ht. unfold SendDelayed.
  destruct (requests_ mgr !! id_ r) eqn:E; [done|]. intros [= <-].
  assert (id_ (Construct Prepare r) = id_ r) as Hid by (unfold Construct; by destruct (_ =? _)).
  rewrite Hid. unfold mgr_wf, mgr_ok; simpl. rewrite fmap_app; simpl. split; [|split].
  - apply map_Forall_insert_2; [|done]. split; [done|].
    assert (count_ (Construct Prepare r) = 0 /\ timeout_ (Construct Prepare r) = false) as [-> ->]
      by (unfold Construct; by destruct (_ =? _)).
    unfold MAX_SENDS. split; [lia|]. split; [done|lia].
  - apply NoDup_app. split; [done|]. split; [|apply NoDup_singleton].
    intros i Hi ->%list_elem_of_singleton. apply Hiff in Hi as [? ?]. congruence.
  - intros i. rewrite elem_of_app, list_elem_of_singleton, Hiff.
    destruct (decide (id_ r = i)) as [<-|]; [rewrite lookup_insert_eq|rewrite lookup_insert_ne by done].
    + split; [by eexists|by right].
    + split; [intros [?|?]; congruence|by left].
Qed.

Lemma CheckResponse_msg_wf msg mgr :
  mgr_wf mgr -> mgr_wf (snd (snd (CheckResponse_msg msg mgr))).
Proof.
  intros Hm. unfold CheckResponse_msg.
  destruct (requests_ mgr !! transaction_id_ msg) as [r|] eqn:E; [|done].
  pose proof (proj1 Hm _ _ E) as (Hid & _).
  repeat case_match; simpl; try done; apply delete_request_wf; try done; rewrite Hid; by eexists.
Qed.

Lemma CheckResponse_wf data mgr :
  mgr_wf mgr -> mgr_wf (snd (snd (CheckResponse (B := B) data mgr))).
Proof.
  intros Hm. unfold CheckResponse. repeat case_match; try done. by apply CheckResponse_msg_wf.
Qed.

Lemma delete_post (ps : list (Z * bytes)) i d id :
  ps !! i = Some (d, id) -> NoDup ps.*2 ->
  NoDup (delete i ps).*2 /\ (forall j, j ∈ (delete i ps).*2 <-> j ∈ ps.*2 /\ j <> id).
Proof.
  intros Hi Hnd. pose proof (delete_Permutation ps i (d, id) Hi) as Hp.
  apply (fmap_Permutation snd) in Hp. simpl in Hp. rewrite Hp in Hnd.
  apply NoDup_cons in Hnd as [Hni Hnd]. split; [done|]. intros j. rewrite Hp, elem_of_cons.
  split; [intros Hj; split; [auto|]; by intros ->|]. by intros [[?|?] ?].
Qed.

Lemma request_wf_next id r t : request_wf id r -> timeout_ r = false ->
  request_wf id (snd (GetNextDelay (mkRequest (count_ r) (timeout_ r) (id_ r) (msg_ r) t))).
Proof.
  intros (Hid & Hc & Ht) E. unfold GetNextDelay, request_wf; simpl. split; [done|].
  rewrite E in *. assert (count_ r <> MAX_SENDS) by (intros ?%Ht; done). split; [lia|].
  destruct (Z.eqb_spec (count_ r + 1) MAX_SENDS); split; done || lia.
Qed.

Lemma deliver_wf now i mgr : mgr_wf mgr -> mgr_wf (snd (deliver (B := B) now i mgr)).
Proof.
  intros (Hr & Hnd & Hiff). unfold deliver.
  destruct (posts mgr !! i) as [[d id]|] eqn:Ei; [|done].
  destruct (delete_post (posts mgr) i d id Ei Hnd) as [Hnd' Hin'].
  assert (id ∈ (posts mgr).*2) as Hid by (apply list_elem_of_fmap; exists (d, id);
    split; [done|by eapply list_elem_of_lookup_2]).
  apply Hiff in Hid as [r E]. unfold OnMessage, OnMessage_by. simpl. rewrite E.
  pose proof (Hr _ _ E) as Hw. pose proof Hw as (Hid & _). destruct (timeout_ r) eqn:Et.
  - simpl. rewrite Hid. rewrite (delete_request_spec id (requests_ mgr) _ r E).
    rewrite thread_clear_absent by (rewrite Hin'; by intros [_ ?]).
    split; [by apply map_Forall_delete|]. split; [done|]. intros j. simpl. rewrite Hin', Hiff.
    destruct (decide (id = j)) as [->|];
      [rewrite lookup_delete_eq|rewrite lookup_delete_ne by done].
    + split; [by intros [_ ?]|by intros [? ?]].
    + split; [by intros [? _]|intros ?; split; congruence].
  - pose proof (request_wf_next id r (u32 now) Hw Et) as Hw'. rewrite Et in Hw'.
    unfold GetNextDelay in Hw'. simpl in *. rewrite Hid in *.
    unfold mgr_wf, mgr_ok; simpl. rewrite fmap_app; simpl. split; [by apply map_Forall_insert_2|]. split.
    + apply NoDup_app. split; [done|]. split; [|apply NoDup_singleton].
      intros j Hj ->%list_elem_of_singleton. apply Hin' in Hj as [_ ?]. done.
    + intros j. rewrite elem_of_app, list_elem_of_singleton, Hin', Hiff.
      destruct (decide (id = j)) as [->|];
        [rewrite lookup_insert_eq|rewrite lookup_insert_ne by done].
      * split; [by eexists|by right].
      * split; [intros [[? _]|?]; [done|congruence]|intros ?; left; split; congruence].
Qed.

Lemma step_wf now mgr ev mgr' :
  step (B := B) Prepare now mgr ev mgr' -> mgr_wf mgr -> mgr_wf mgr'.
Proof.
  destruct 1; eauto using SendDelayed_wf, deliver_wf, CheckResponse_wf; intros; [by apply Remove_wf|by apply Clear_wf].
Qed.

(** ** Responses *)

(** The bytes at the offset of the transaction id in a message with a cookie. *)
Lemma enc_message_id m rest :
  length (transaction_id_ m) = kStunTransactionIdLength ->
  sub kStunTransactionIdOffset kStunTransactionIdLength (enc_message m ++ rest) = transaction_id_ m /\
  (20 <= length (enc_message m ++ rest))%nat.
Proof.
  intros Hid. unfold enc_message, StunMsg.IsLegacy. rewrite Hid.
  change (12 =? kStunLegacyTransactionIdLength)%nat with false. cbv iota.
  rewrite <- !app_assoc. split.
  - unfold sub. rewrite 2!app_assoc.
    rewrite drop_app_length' by (rewrite !length_app, !length_be_bytes; done).
    by rewrite take_app_length' by done.
  - rewrite !length_app, !length_be_bytes, Hid. unfold kStunTransactionIdLength. simpl. lia.
Qed.

(** The outcome of a message that answers the outstanding request [r]. *)
Definition answer_event (r : StunRequest) (msg : StunMessage) : option event :=
  if m_type msg =? StunMsg.GetStunResponseType (m_type (msg_ r)) then Some (OnResponse (id_ r) msg)
  else if m_type msg =? StunMsg.GetStunErrorResponseType (m_type (msg_ r))
  then Some (OnErrorResponse (id_ r) msg)
  else None.

Lemma CheckResponse_msg_spec msg mgr : mgr_wf mgr ->
  CheckResponse_msg msg mgr =
    match requests_ mgr !! transaction_id_ msg with
    | Some r =>
        match answer_event r msg with
        | Some ev => (true, ([ev], mkManager (delete (transaction_id_ msg) (requests_ mgr))
                                     (thread_clear (transaction_id_ msg) (posts mgr))))
        | None => (false, ([], mgr))
        end
    | None => (false, ([], mgr))
    end.
Proof.
  intros Hm. unfold CheckResponse_msg, answer_event.
  destruct (requests_ mgr !! transaction_id_ msg) as [r|] eqn:E; [|done].
  pose proof (proj1 Hm _ _ E) as (Hid & _). rewrite Hid. destruct mgr as [m ps].
  rewrite (delete_request_spec _ _ _ r E). repeat case_match; done.
Qed.

Definition wire (r : StunRequest) : bytes := q_contents (StunMsg.Write (B := B) (msg_ r) q_new).

(** What one step does to the requests, and what is seen of it. *)
Inductive effect (mgr : StunRequestManager) : list entry -> StunRequestManager -> Prop :=
  | effect_start r mgr' : count_ r = 0 -> requests_ mgr !! id_ r = None ->
      requests_ mgr' = <[id_ r := r]> (requests_ mgr) -> effect mgr [Started (id_ r)] mgr'
  | effect_none mgr' : requests_ mgr' ⊆ requests_ mgr -> effect mgr [] mgr'
  | effect_send id r r' mgr' : requests_ mgr !! id = Some r -> count_ r < MAX_SENDS -> count_ r' = count_ r + 1 -> msg_ r' = msg_ r ->
      requests_ mgr' = <[id := r']> (requests_ mgr) -> effect mgr [Seen (SignalSendPacket id (wire r))] mgr'
  | effect_timeout id r mgr' : requests_ mgr !! id = Some r -> count_ r = MAX_SENDS ->
      requests_ mgr' = delete id (requests_ mgr) -> effect mgr [Seen (OnTimeout id)] mgr'
  | effect_answer id r ev msg mgr' : requests_ mgr !! id = Some r -> ev = OnResponse id msg \/ ev = OnErrorResponse id msg ->
      requests_ mgr' = delete id (requests_ mgr) -> effect mgr [Seen ev] mgr'.
Lemma Remove_requests id mgr : requests_ (Remove id mgr) ⊆ requests_ mgr.
Proof. unfold Remove. destruct (requests_ mgr !! id); [apply delete_subseteq|done]. Qed.
Lemma Clear_requests mgr : requests_ (Clear mgr) ⊆ requests_ mgr.
Proof.
  unfold Clear. generalize (map fst (map_to_list (requests_ mgr))) as l. intros l. revert mgr. induction l as [|id l IH]; intros mgr; [done|].
  cbn. etransitivity; [apply IH|apply Remove_requests].
Qed.
(** The timer of a request sends it once more, or after nine sends times it out. *)
Lemma deliver_effect now i due id mgr : mgr_wf mgr -> posts mgr !! i = Some (due, id) ->
  exists r, requests_ mgr !! id = Some r /\
  if count_ r =? MAX_SENDS then
    fst (deliver (B := B) now i mgr) = [OnTimeout id] /\ requests_ (snd (deliver (B := B) now i mgr)) = delete id (requests_ mgr)
  else fst (deliver (B := B) now i mgr) = [SignalSendPacket id (wire r)] /\
    exists r', count_ r' = count_ r + 1 /\ msg_ r' = msg_ r /\ requests_ (snd (deliver (B := B) now i mgr)) = <[id := r']> (requests_ mgr).
Proof.
  intros (Hr & Hnd & Hiff) Ei.
  assert (id ∈ (posts mgr).*2) as Hid by (apply list_elem_of_fmap; exists (due, id); split; [done|by eapply list_elem_of_lookup_2]).
  apply Hiff in Hid as [r E]. exists r. split; [done|]. destruct (Hr _ _ E) as (Hid & _ & Ht).
  unfold deliver, OnMessage, OnMessage_by. rewrite Ei. cbn [requests_]. rewrite E. destruct (Z.eqb_spec (count_ r) MAX_SENDS) as [Hc|Hc].
  - rewrite (proj2 Ht Hc). cbn. rewrite Hid. split; [done|]. unfold delete_request, Remove. cbn. by rewrite E.
  - destruct (timeout_ r); [exfalso; by apply Hc, Ht|]. cbn. rewrite Hid. split; [done|]. eexists. split_and!; [| |reflexivity]; done.
Qed.
Lemma step_effect now mgr es mgr' : step (B := B) Prepare now mgr es mgr' -> mgr_wf mgr -> effect mgr es mgr'.
Proof.
  intros Hs Hm. destruct Hs as [r delay mgr mgr' Hc Ht Hd Hs | i due id mgr Hi Hdue | data mgr | id mgr | mgr].
  - unfold SendDelayed in Hs. destruct (requests_ mgr !! id_ r) eqn:E; [done|]. injection Hs as <-.
    assert (id_ (Construct Prepare r) = id_ r /\ count_ (Construct Prepare r) = 0) as [Hid Hc'] by (unfold Construct; by destruct (_ =? _)).
    rewrite <- Hid in *. by apply (effect_start _ (Construct Prepare r)).
  - destruct (deliver_effect now i due id mgr Hm Hi) as (r & E & Hd). destruct (proj1 Hm _ _ E) as (_ & Hc & _).
    destruct (Z.eqb_spec (count_ r) MAX_SENDS).
    + destruct Hd as [-> Hd]. by apply (effect_timeout _ id r).
    + destruct Hd as [-> (r' & H1 & H2 & H3)]. apply (effect_send _ id r r'); try done. lia.
  - unfold CheckResponse. destruct (_ <? _)%nat; [by apply effect_none|]. destruct (requests_ mgr !! sub _ _ data); [|by apply effect_none].
    destruct (StunMsg.Read _) as [ok [msg b]]. destruct ok; [|by apply effect_none]. rewrite CheckResponse_msg_spec by done.
    destruct (requests_ mgr !! transaction_id_ msg) as [r|] eqn:E; [|by apply effect_none].
    destruct (proj1 Hm _ _ E) as (Hid & _). unfold answer_event. destruct (_ =? _); [|destruct (_ =? _); [|by apply effect_none]]; cbn.
    + eapply (effect_answer _ (transaction_id_ msg) r _ msg); [done|left; by rewrite Hid|done].
    + eapply (effect_answer _ (transaction_id_ msg) r _ msg); [done|right; by rewrite Hid|done].
  - apply effect_none, Remove_requests.
  - apply effect_none, Clear_requests.
Qed.

(** The history: an outstanding request has been sent as often as it counts, with
    the same bytes, and nothing else was seen of it; what was seen came in turn. *)
Definition sends (id data : bytes) (n : Z) : list event := replicate (Z.to_nat n) (SignalSendPacket id data).
Definition in_turn (ev : event) (before : list event) : Prop :=
  match ev with
  | SignalSendPacket id data => exists n, 0 <= n < MAX_SENDS /\ before = sends id data n
  | OnTimeout id => exists data, before = sends id data MAX_SENDS
  | OnResponse id _ | OnErrorResponse id _ => exists data n, 0 <= n <= MAX_SENDS /\ before = sends id data n
  end.
Definition history_ok (mgr : StunRequestManager) (tr : list entry) : Prop :=
  (forall id r, requests_ mgr !! id = Some r -> since id tr = sends id (wire r) (count_ r)) /\
  (forall tr1 ev tr2, tr = tr1 ++ Seen ev :: tr2 -> in_turn ev (since (event_id ev) tr1)).
Lemma since_snoc id tr e : since id (tr ++ [e]) = see id (since id tr) e.
Proof. unfold since. by rewrite fold_left_app. Qed.
Lemma seen_snoc tr e : (forall tr1 ev tr2, tr = tr1 ++ Seen ev :: tr2 -> in_turn ev (since (event_id ev) tr1)) ->
  (forall ev, e = Seen ev -> in_turn ev (since (event_id ev) tr)) ->
  forall tr1 ev tr2, tr ++ [e] = tr1 ++ Seen ev :: tr2 -> in_turn ev (since (event_id ev) tr1).
Proof.
  intros Htr He tr1 ev tr2 E. destruct tr2 as [|x tr2 _] using rev_ind.
  - apply app_inj_tail in E as [-> E]. by apply He.
  - rewrite app_comm_cons, app_assoc in E. apply app_inj_tail in E as [E _]. by eapply Htr.
Qed.
Lemma effect_history mgr tr es mgr' : mgr_wf mgr -> history_ok mgr tr -> effect mgr es mgr' -> history_ok mgr' (tr ++ es).
Proof.
  intros Hm [H1 H2] He. assert (Hcount : forall id r, requests_ mgr !! id = Some r -> 0 <= count_ r <= MAX_SENDS)
    by (intros id r E; by destruct (proj1 Hm _ _ E) as (_ & ? & _)).
  destruct He as [r mgr' Hc Hn Em | mgr' Hsub | id r r' mgr' E Hc Hc' Hmsg Em | id r mgr' E Hc Em | id r ev msg mgr' E Hev Em].
  - split; [|apply seen_snoc; [exact H2|done]]. rewrite Em. intros id x. rewrite since_snoc. cbn.
    destruct (bool_decide_reflect (id_ r = id)) as [<-|].
    + rewrite lookup_insert_eq. intros [= <-]. by rewrite Hc.
    + rewrite lookup_insert_ne by done. apply H1.
  - rewrite app_nil_r. split; [|exact H2]. intros id r E. apply H1. by eapply lookup_weaken.
  - specialize (Hcount _ _ E). split.
    + rewrite Em. intros id' x. rewrite since_snoc. cbn. destruct (bool_decide_reflect (id = id')) as [<-|].
      * rewrite lookup_insert_eq. intros [= <-]. rewrite (H1 _ _ E). unfold sends, wire. rewrite Hc', Hmsg.
        replace (Z.to_nat (count_ r + 1)) with (Z.to_nat (count_ r) + 1)%nat by lia. by rewrite replicate_add.
      * rewrite lookup_insert_ne by done. apply H1.
    + apply seen_snoc; [exact H2|]. intros ev [= <-]. cbn. exists (count_ r). split; [lia|]. by apply H1.
  - split.
    + rewrite Em. intros id' x [Hne Hx]%lookup_delete_Some. rewrite since_snoc. cbn. rewrite bool_decide_false by done. by apply H1.
    + apply seen_snoc; [exact H2|]. intros ev [= <-]. cbn. exists (wire r). rewrite <- Hc. by apply H1.
  - specialize (Hcount _ _ E). assert (Hid : event_id ev = id) by (by destruct Hev as [-> | ->]). split.
    + rewrite Em. intros id' x [Hne Hx]%lookup_delete_Some. rewrite since_snoc. cbn. rewrite bool_decide_false by congruence. by apply H1.
    + apply seen_snoc; [exact H2|]. intros ev' [= <-]. rewrite Hid, (H1 _ _ E).
      assert (Hn : exists data n, 0 <= n <= MAX_SENDS /\ sends id (wire r) (count_ r) = sends id data n) by eauto.
      by destruct Hev as [-> | ->].
Qed.

(** C22. In every execution of the transaction layer, with time passing, packets
    arriving and requests starting and being removed in any order: every
    outstanding request has exactly one pending timer and no other timer is
    left; it is filed under its own id and has been sent as often as it counts,
    at most nine times, with the bytes of its message; nothing else was seen of
    it.  Whatever was seen came in turn: a send after fewer than nine of the same
    bytes, a timeout after exactly nine, an answer once, and after a timeout or an
    answer nothing until the id is started again.  And a timer that is delivered
    sends the request once, or after nine sends times it out and forgets it. *)
Theorem stun_transactions_invariant (now : Z) (mgr : StunRequestManager) (tr : list entry) :
  execution (B := B) Prepare now mgr tr ->
  mgr_wf mgr /\ history_ok mgr tr /\
  forall now' i due id, posts mgr !! i = Some (due, id) ->
    exists r, requests_ mgr !! id = Some r /\
    if count_ r =? MAX_SENDS then
      fst (deliver (B := B) now' i mgr) = [OnTimeout id] /\ requests_ (snd (deliver (B := B) now' i mgr)) = delete id (requests_ mgr)
    else fst (deliver (B := B) now' i mgr) = [SignalSendPacket id (wire r)] /\
      exists r', count_ r' = count_ r + 1 /\ msg_ r' = msg_ r /\ requests_ (snd (deliver (B := B) now' i mgr)) = <[id := r']> (requests_ mgr).
Proof.
  intros He. assert (mgr_wf mgr /\ history_ok mgr tr) as [Hm Hh].
  { induction He as [now | now now' mgr tr es mgr' _ [IH1 IH2] _ Hs].
    - split; [|by split; [done|intros [] ? ? [=]]].
      split; [apply map_Forall_empty|]. split; [apply NoDup_nil_2|]. intros id. simpl.
      split; [by intros ?%not_elem_of_nil|]. by intros [? ?].
    - split; [by eapply step_wf|]. eapply effect_history; [exact IH1|exact IH2|]. by eapply step_effect. }
  split; [exact Hm|]. split; [exact Hh|]. intros now' i due id Hi. by eapply deliver_effect.
Qed.

(** The response to an outstanding request is recognised: the bytes of a
    well-formed message with the request's id and a response (or error
    response) type of the request, followed by anything, make [CheckResponse]
    return true, call the corresponding callback once with exactly that message,
    and forget the request together with its timer.  With any other type the
    request stays. *)
Theorem check_response_complete (m : StunMessage) (rest : bytes) (r : StunRequest)
    (mgr : StunRequestManager) :
  mgr_wf mgr -> message_wf m -> length (transaction_id_ m) = kStunTransactionIdLength ->
  requests_ mgr !! transaction_id_ m = Some r ->
  CheckResponse (B := B) (q_contents (StunMsg.Write (B := B) m q_new) ++ rest) mgr =
    match answer_event r m with
    | Some ev => (true, ([ev], mkManager (delete (transaction_id_ m) (requests_ mgr))
                                 (thread_clear (transaction_id_ m) (posts mgr))))
    | None => (false, ([], mgr))
    end.
Proof.
  intros Hm Hwf Hid E. unfold CheckResponse.
  destruct q_new_spec as [Hok Hc]. destruct (Write_contents m q_new Hok) as [_ ->].
  rewrite Hc, app_nil_l. cbv zeta. destruct (enc_message_id m rest Hid) as [Hsub Hlen].
  destruct (Nat.ltb_spec (length (enc_message m ++ rest)) 20); [lia|].
  rewrite Hsub, E. destruct (q_of_spec (enc_message m ++ rest)) as [Hok2 Hc2].
  destruct (parses_message StunMsg.make m Hwf _ rest Hok2 Hc2) as (b' & -> & _).
  by rewrite CheckResponse_msg_spec, E.
Qed.

(** Nothing else is taken for a response: if [CheckResponse] returns true
    then the packet parses to a message whose id is that of an outstanding
    request and whose type answers it, and exactly this request is completed;
    if it returns false nothing changes and no callback runs.  When all
    outstanding ids are twelve bytes long (as the requests make them), the
    message carries the magic cookie and the id the packet has at offset 8. *)
Theorem check_response_sound (data : bytes) (mgr : StunRequestManager) :
  mgr_wf mgr ->
  let '(res, (evs, mgr')) := CheckResponse (B := B) data mgr in
  if res then
    exists msg b' r ev, StunMsg.Read (B := B) (StunMsg.make, q_of data) = (true, (msg, b')) /\
      requests_ mgr !! transaction_id_ msg = Some r /\ answer_event r msg = Some ev /\
      evs = [ev] /\
      mgr' = mkManager (delete (transaction_id_ msg) (requests_ mgr))
               (thread_clear (transaction_id_ msg) (posts mgr)) /\
      (map_Forall (fun id _ => length id = kStunTransactionIdLength) (requests_ mgr) ->
       StunMsg.IsLegacy msg = false /\ sub 4 4 data = kStunMagicCookie /\
       transaction_id_ msg = sub kStunTransactionIdOffset kStunTransactionIdLength data)
  else evs = [] /\ mgr' = mgr.
Proof.
  intros Hm. unfold CheckResponse.
  destruct (length data <? 20)%nat; [done|].
  destruct (requests_ mgr !! sub _ _ data); [|done].
  destruct (StunMsg.Read _) as [ok [msg b]] eqn:ER. destruct ok; [|done].
  rewrite CheckResponse_msg_spec by done.
  destruct (requests_ mgr !! transaction_id_ msg) as [r|] eqn:E; [|done].
  destruct (answer_event r msg) as [ev|] eqn:Ea; [|done].
  exists msg, b, r, ev. split_and!; try done. intros Hids.
  specialize (Hids _ _ E). simpl in Hids.
  destruct (q_of_spec data) as [Hok Hc].
  destruct (Read_sound _ _ _ _ Hok ER) as (_&_&_&_&Hhdr&_). rewrite Hc in Hhdr.
  assert (StunMsg.IsLegacy msg = false) as HL by (unfold StunMsg.IsLegacy; by rewrite Hids).
  rewrite HL in Hhdr. split; [done|]. change 16%nat with (4 + 12)%nat in Hhdr.
  rewrite sub_split in Hhdr. apply app_inj_1 in Hhdr as [? ?]; [done|].
  apply (f_equal length) in Hhdr. rewrite !length_app, Hids in Hhdr.
  unfold sub in *. rewrite !length_take, !length_drop in *.
  change (length kStunMagicCookie) with 4%nat in *. unfold kStunTransactionIdLength in *. lia.
Qed.

(** ** The retransmission schedule *)

(** A manager with one request in state [(count, timeout)] and its timer. *)
Definition solo (r : StunRequest) (count : Z) (t due : Z) : StunRequestManager :=
  mkManager {[ id_ r := mkRequest count (count =? MAX_SENDS) (id_ r) (msg_ r) t ]} [(due, id_ r)].

Lemma deliver_solo r c t due : 0 <= c < MAX_SENDS ->
  deliver (B := B) due 0 (solo r c t due) =
    ([SignalSendPacket (id_ r) (wire r)],
     solo r (c + 1) (u32 due) (due + DELAY_UNIT * Z.min (2 ^ c) DELAY_MAX_FACTOR)).
Proof.
  intros Hc. unfold deliver, solo, OnMessage, OnMessage_by. simpl. rewrite lookup_singleton_eq. simpl.
  destruct (Z.eqb_spec c MAX_SENDS); [lia|]. simpl.
  rewrite insert_singleton_eq, Z.shiftl_1_l. do 4 f_equal.
  by destruct (c + 1 =? MAX_SENDS).
Qed.

Lemma deliver_solo_timeout r t due :
  deliver (B := B) due 0 (solo r MAX_SENDS t due) = ([OnTimeout (id_ r)], empty_manager).
Proof.
  unfold deliver, solo, OnMessage, OnMessage_by. simpl. rewrite lookup_singleton_eq. simpl.
  erewrite delete_request_spec by apply lookup_singleton_eq.
  by rewrite delete_singleton_eq.
Qed.

Lemma run_timers_solo n r c t due : 0 <= c < MAX_SENDS ->
  run_timers (B := B) (S n) (solo r c t due) =
    let '(tr, mgr) := run_timers (B := B) n
      (solo r (c + 1) (u32 due) (due + DELAY_UNIT * Z.min (2 ^ c) DELAY_MAX_FACTOR)) in
    ((due, SignalSendPacket (id_ r) (wire r)) :: tr, mgr).
Proof. intros Hc. cbn [run_timers posts solo]. by rewrite deliver_solo. Qed.

(** A request that is never answered is sent nine times, 0, 100, 300, 700,
    1500, 3100, 4700, 6300 and 7900 ms after its start, each time with the bytes
    of its message; 9500 ms after its start it times out, once, and the manager
    has then neither the request nor a timer left. *)
Theorem stun_request_schedule (now delay : Z) (r : StunRequest) :
  count_ r = 0 -> timeout_ r = false ->
  exists mgr, SendDelayed Prepare now r delay empty_manager = Some mgr /\
  let t := now + delay in
  let packet := SignalSendPacket (id_ r) (wire (Construct Prepare r)) in
  run_timers (B := B) 10 mgr =
    ([(t, packet); (t + 100, packet); (t + 300, packet); (t + 700, packet); (t + 1500, packet);
      (t + 3100, packet); (t + 4700, packet); (t + 6300, packet); (t + 7900, packet);
      (t + 9500, OnTimeout (id_ r))], empty_manager).
Proof.
  intros Hc Ht. eexists. split; [done|]. cbv zeta.
  assert (id_ (Construct Prepare r) = id_ r) as Hid by (unfold Construct; by destruct (_ =? _)).
  assert (mkManager (<[id_ (Construct Prepare r) := Construct Prepare r]> (requests_ empty_manager))
      (posts empty_manager ++ [(now + delay, id_ (Construct Prepare r))]) =
    solo (Construct Prepare r) 0 (tstamp_ (Construct Prepare r)) (now + delay)) as ->.
  { unfold solo. rewrite Hid. f_equal. unfold empty_manager; cbn [requests_]; rewrite insert_empty. f_equal. unfold Construct.
    destruct (_ =? _); simpl; rewrite <- ?Hc, <- ?Ht; [done|].
    destruct r as [c to i m t]; simpl in *; by subst. }
  rewrite <- Hid. generalize (Construct Prepare r) as r'. intros r'.
  do 9 (rewrite run_timers_solo by (unfold MAX_SENDS; lia)).
  cbn [run_timers posts solo]. change (0 + 1 + 1 + 1 + 1 + 1 + 1 + 1 + 1 + 1) with MAX_SENDS.
  rewrite deliver_solo_timeout. cbn [map app].
  repeat match goal with |- context [DELAY_UNIT * Z.min (2 ^ ?c) DELAY_MAX_FACTOR] =>
    let v := eval vm_compute in (DELAY_UNIT * Z.min (2 ^ c) DELAY_MAX_FACTOR) in
    change (DELAY_UNIT * Z.min (2 ^ c) DELAY_MAX_FACTOR) with v end.
  rewrite <- !(Z.add_assoc (now + delay)). reflexivity.
Qed.
End Facts.

(** ** Witnesses *)

Section Witnesses.
#[local] Existing Instance little_host.

Definition sample_prepare (m : StunMessage) : StunMessage := StunMsg.SetType STUN_BINDING_REQUEST m.
Definition sample_id : bytes := str "000000000000".
Definition sample_manager : StunRequestManager :=
  mkManager {[ sample_id := Construct sample_prepare (make sample_id) ]} [(50, sample_id)].

Lemma sample_manager_wf : mgr_wf sample_manager.
Proof.
  split; [|split].
  - apply map_Forall_singleton. split; [done|]. split; [done|]. split; done.
  - apply NoDup_singleton.
  - intros id. simpl. rewrite list_elem_of_singleton. split.
    + intros ->. by eexists.
    + intros [? [<- _]%lookup_singleton_Some]. done.
Qed.

(** The request is started and sent once. *)
Definition sample_sent : StunRequestManager := snd (deliver (B := Buf.ByteBuffer) 50 0 sample_manager).
Lemma stun_transactions_invariant_witness : mgr_wf sample_sent /\
  since sample_id ([Started sample_id] ++ map Seen (fst (deliver (B := Buf.ByteBuffer) 50 0 sample_manager))) =
    [SignalSendPacket sample_id (wire (B := Buf.ByteBuffer) (Construct sample_prepare (make sample_id)))].
Proof.
  destruct (stun_transactions_invariant (B := Buf.ByteBuffer) sample_prepare 50 sample_sent
    (([] ++ [Started sample_id]) ++ map Seen (fst (deliver (B := Buf.ByteBuffer) 50 0 sample_manager)))) as (Hm & [Hh _] & _).
  - eapply (exec_step _ 50); [|lia|].
    + eapply (exec_step _ 0); [apply exec_start|lia|]. apply (step_send _ 50 (make sample_id) 0); [done..|]. reflexivity.
    + by apply (step_deliver _ _ 0 50 sample_id).
  - split; [exact Hm|].
    refine (eq_trans (Hh sample_id (mkRequest 1 false sample_id (msg_ (Construct sample_prepare (make sample_id))) 50) _) _);
      vm_compute; reflexivity.
Defined.

Lemma check_response_complete_witness :
  fst (CheckResponse (B := Buf.ByteBuffer)
    (q_contents (StunMsg.Write (B := Buf.ByteBuffer) sample_message q_new) ++ str "more")
    sample_manager) = true.
Proof.
  rewrite (check_response_complete (B := Buf.ByteBuffer) sample_message (str "more")
    (Construct sample_prepare (make sample_id)) sample_manager).
  - reflexivity.
  - exact sample_manager_wf.
  - exact sample_message_wf.
  - reflexivity.
  - reflexivity.
Defined.

Lemma check_response_sound_witness :
  snd (CheckResponse (B := Buf.ByteBuffer) sample_packet sample_manager) = ([], sample_manager).
Proof.
  pose proof (check_response_sound (B := Buf.ByteBuffer) sample_packet sample_manager
    sample_manager_wf) as HW.
  assert (fst (CheckResponse (B := Buf.ByteBuffer) sample_packet sample_manager) = false) as E
    by (by vm_compute).
  destruct (CheckResponse _ _) as [res [evs mgr']]. simpl in *. subst res.
  destruct HW as [-> ->]. reflexivity.
Defined.

Lemma stun_request_schedule_witness :
  exists mgr, SendDelayed sample_prepare 1000 (make sample_id) 5 empty_manager = Some mgr /\
    posts (snd (run_timers (B := Buf.ByteBuffer) 10 mgr)) = [].
Proof.
  destruct (stun_request_schedule (B := Buf.ByteBuffer) sample_prepare 1000 5 (make sample_id))
    as (mgr & E & R); [reflexivity|reflexivity|].
  exists mgr. split; [exact E|]. cbv zeta in R. rewrite R. reflexivity.
Defined.
End Witnesses.
End StunReq.
