(* ===== verification/Port.v ===== *)
(** * Ports and connections (talk/p2p/base/port.h, port.cc, udpport.cc,
    candidate.h, talk/base/ratetracker.cc)

    A port owns one socket and a connection per remote address.  Connections
    are objects of a heap, named by the pointers to them; the port's map and
    the pending deletions hold such names.  The clock, the random strings and
    the results of the socket are parameters; signals and datagrams are
    recorded in order.  Handlers of the signals run after the operation that
    emits them, as those of the transport channels do. *)

From S2P Require Import Prelude TimeUtil ByteOrder ByteBuffer SocketAddress StdMap Stun StunFacts StunServer StunMessages StunRequest Effects.
From Stdlib Require Import SpecFloat.
#[local] Open Scope jingle_scope.

(** ** Statistics *)

Module RateTracker.
Definition NEVER : Z := 4294967295.
Record RateTracker := mkRate {
  total_units_ : Z; units_second_ : Z; last_units_second_time_ : Z; last_units_second_calc_ : Z }.
Definition make : RateTracker := mkRate 0 0 NEVER 0.
Definition total_units (r : RateTracker) : Z := total_units_ r.
(** [units_second] at time [now]; [size_t] and [int] have 32 bits, and C++
    division rounds towards zero. *)
Definition units_second (now : Z) (r : RateTracker) : Z * RateTracker :=
  let r :=
    if negb (last_units_second_time_ r =? NEVER) then
      let delta := TimeDiff now (last_units_second_time_ r) in
      if 1000 <=? delta then
        let fraction_time := delta mod 1000 in
        let seconds := delta / 1000 in
        let fraction_units :=
          Z.quot (s32 (s32 (total_units_ r -u last_units_second_calc_ r) * fraction_time)) delta in
        mkRate (total_units_ r)
          (((total_units_ r -u last_units_second_calc_ r) -u fraction_units) / seconds)
          (now -u fraction_time) (total_units_ r -u fraction_units)
      else r
    else r in
  let r :=
    if last_units_second_time_ r =? NEVER
    then mkRate (total_units_ r) (units_second_ r) now (total_units_ r) else r in
  (units_second_ r, r).
Definition Update (units : Z) (r : RateTracker) : RateTracker :=
  mkRate (total_units_ r +u units) (units_second_ r) (last_units_second_time_ r) (last_units_second_calc_ r).
End RateTracker.

Module Port.
Import StunAttributeBase.

(** ** Candidates *)

(** The preference is a [float]. *)
Record Candidate := mkCandidate {
  c_name : bytes; c_protocol : bytes; c_address : SocketAddress; c_preference : spec_float;
  c_username : bytes; c_password : bytes; c_type : bytes; c_network_name : bytes; c_generation : Z }.
Definition IsEquivalent (a b : Candidate) : bool :=
  bool_decide (c_name a = c_name b) && bool_decide (c_protocol a = c_protocol b) &&
  SockAddr.eqb (c_address a) (c_address b) && bool_decide (c_username a = c_username b) &&
  bool_decide (c_password a = c_password b) && bool_decide (c_type a = c_type b) &&
  (c_generation a =? c_generation b).

(** ** Constants *)

Definition CONNECTION_READ_TIMEOUT : Z := 30 * 1000.
Definition CONNECTION_WRITE_TIMEOUT : Z := 15 * 1000.
Definition CONNECTION_WRITE_CONNECT_TIMEOUT : Z := 5 * 1000.
Definition CONNECTION_WRITE_CONNECT_FAILURES : nat := 5.
Definition CONNECTION_RESPONSE_TIMEOUT : Z := 5 * 1000.
Definition MINIMUM_RTT : Z := 100.
Definition MAXIMUM_RTT : Z := 3000.
Definition DEFAULT_RTT : Z := MAXIMUM_RTT.
Definition RTT_RATIO : Z := 3.
Definition kPortTimeoutDelay : Z := 30 * 1000.
Definition MSG_CHECKTIMEOUT : Z := 1.
Definition MSG_DELETE : Z := 1.
Definition EWOULDBLOCK : Z := 11.
Definition SOCKET_ERROR : Z := -1.

(** [None] is an access out of bounds. *)
Definition TooManyFailures (pings : list Z) (maximum_failures : nat) (rtt_estimate now : Z) : option bool :=
  if (length pings <? maximum_failures)%nat then Some false
  else p ← pings !! (maximum_failures - 1)%nat; Some ((p +u rtt_estimate) <? now).
Definition TooLongWithoutResponse (pings : list Z) (maximum_time now : Z) : bool :=
  match pings with [] => false | p :: _ => (p +u maximum_time) <? now end.
Definition ConservativeRTTEstimate (rtt : Z) : Z :=
  Z.max MINIMUM_RTT (Z.min MAXIMUM_RTT (2 *u rtt)).

(** ** State *)

Definition ptr : Type := nat.
Inductive ReadState := STATE_READABLE | STATE_READ_TIMEOUT.
Inductive WriteState := STATE_WRITABLE | STATE_WRITE_CONNECT | STATE_WRITE_TIMEOUT.
Inductive Lifetime := LT_PRESTART | LT_PRETIMEOUT | LT_POSTTIMEOUT.
#[export] Instance ReadState_eq_dec : EqDecision ReadState.
Proof. solve_decision. Defined.
#[export] Instance WriteState_eq_dec : EqDecision WriteState.
Proof. solve_decision. Defined.
#[export] Instance Lifetime_eq_dec : EqDecision Lifetime.
Proof. solve_decision. Defined.

(** [Connection], with the [error_] of [ProxyConnection]. *)
Record Connection := mkConnection {
  local_candidate_index_ : nat;
  remote_candidate_ : Candidate;
  read_state_ : ReadState;
  write_state_ : WriteState;
  connected_ : bool;
  pruned_ : bool;
  requests_ : StunReq.StunRequestManager;
  rtt_ : Z;
  last_ping_sent_ : Z;
  last_ping_received_ : Z;
  last_data_received_ : Z;
  pings_since_last_response_ : list Z;
  recv_rate_tracker_ : RateTracker.RateTracker;
  send_rate_tracker_ : RateTracker.RateTracker;
  reported_ : bool;
  error_ : Z;
}.
#[export] Instance Connection_eta : Eta Connection := fun c =>
  mkConnection (local_candidate_index_ c) (remote_candidate_ c) (read_state_ c) (write_state_ c)
    (connected_ c) (pruned_ c) (requests_ c) (rtt_ c) (last_ping_sent_ c) (last_ping_received_ c)
    (last_data_received_ c) (pings_since_last_response_ c) (recv_rate_tracker_ c)
    (send_rate_tracker_ c) (reported_ c) (error_ c).

(** A network interface: the identity of the object, and its name. *)
Record Network := mkNetwork { network_id : nat; net_name : bytes }.

(** What the port and its connections signal. *)
Inductive signal :=
  | SignalAddressReady
  | SignalConnectionCreated (c : ptr)
  | SignalUnknownAddress (addr : SocketAddress) (msg : StunMessage) (remote_username : bytes)
  | SignalPortPacket (data : bytes) (addr : SocketAddress)
  | SignalStateChange (c : ptr)
  | SignalReadPacket (c : ptr) (data : bytes)
  | SignalConnectionDestroyed (c : ptr)
  | SignalDestroyed.

(** [Port] and [UDPPort], the heap of the connections, and the record of
    effects; [check_posted] and [deletes] are the posted messages
    [MSG_CHECKTIMEOUT] and [MSG_DELETE]; [destroyed] is set when the port
    deletes itself. *)
Record Port := mkPort {
  port_type_ : bytes;
  network_ : Network;
  generation_ : Z;
  port_name_ : bytes;
  username_frag_ : bytes;
  password_ : bytes;
  preference_ : spec_float;
  candidates_ : list Candidate;
  connections_ : smap SocketAddress ptr;
  lifetime_ : Lifetime;
  enable_port_packets_ : bool;
  socket_error_ : Z;
  conn_heap : gmap ptr Connection;
  next_ptr : ptr;
  ticks : nat;
  random_strings : nat;
  sent : list (bytes * SocketAddress);
  signals : list signal;
  check_posted : bool;
  deletes : list ptr;
  destroyed : bool;
}.
#[export] Instance Port_eta : Eta Port := fun p =>
  mkPort (port_type_ p) (network_ p) (generation_ p) (port_name_ p) (username_frag_ p) (password_ p)
    (preference_ p) (candidates_ p) (connections_ p) (lifetime_ p) (enable_port_packets_ p) (socket_error_ p)
    (conn_heap p) (next_ptr p) (ticks p) (random_strings p) (sent p) (signals p) (check_posted p)
    (deletes p) (destroyed p).

(** ** Operations *)

Section Code.
Context {B : Type} `{ByteQueue B}.
(** The clock, [CreateRandomString] of a request, and the result and error of
    the socket's [n]-th [SendTo]. *)
Variable clock : nat -> Z.
Variable random_id : nat -> bytes.
Variable socket_SendTo : nat -> Z.
Variable socket_GetError : nat -> Z.

Definition P (A : Type) : Type := Prog Port A.
Definition Clock : P Z := fun p => Done (clock (ticks p)) (p <| ticks := S (ticks p) |>).
Definition Time : P Z := fun p => Done (u32 (clock (ticks p))) (p <| ticks := S (ticks p) |>).
Definition signal_ (s : signal) : P unit := modify (fun p => p <| signals := signals p ++ [s] |>).

Definition conn_at (c : ptr) : P Connection :=
  o ← gets (fun p => conn_heap p !! c); the Dangling o.
(** Changes the fields of a connection. *)
Definition upd (c : ptr) (f : Connection -> Connection) : P unit :=
  x ← conn_at c; modify (fun p => p <| conn_heap := <[c := f x]> (conn_heap p) |>).

(** [UDPPort::SendTo]. *)
Definition SendTo (data : bytes) (addr : SocketAddress) (payload : bool) : P Z :=
  p ← get;
  let n := length (sent p) in
  let sent_ := socket_SendTo n in
  modify (fun p => p <| sent := sent p ++ [(data, addr)] |>);;
  (if sent_ <? 0 then modify (fun p => p <| socket_error_ := socket_GetError n |>) else mret tt);;
  mret sent_.

Definition GetConnection (remote_addr : SocketAddress) : P (option ptr) :=
  gets (fun p => map_find remote_addr (connections_ p)).

Definition AddAddress (address : SocketAddress) (protocol : bytes) (final : bool) : P unit :=
  modify (fun p => p <| candidates_ := candidates_ p ++
    [mkCandidate (port_name_ p) protocol address (preference_ p) (username_frag_ p) (password_ p)
       (port_type_ p) (net_name (network_ p)) (generation_ p)] |>);;
  if final then signal_ SignalAddressReady else mret tt.

(** [UDPPort::PrepareAddress] of a socket in state BOUND or not, and
    [OnAddressReady]. *)
Definition PrepareAddress (bound : bool) (local : SocketAddress) : P unit :=
  if bound then AddAddress local (str "udp") true else mret tt.
Definition OnAddressReady (address : SocketAddress) : P unit := AddAddress address (str "udp") true.

Definition EnablePortPackets : P unit := modify (fun p => p <| enable_port_packets_ := true |>).

Definition Start : P unit :=
  p ← get;
  if bool_decide (lifetime_ p = LT_PRESTART) then
    modify (fun p => p <| lifetime_ := LT_PRETIMEOUT |> <| check_posted := true |>)
  else mret tt.

Definition Destroy : P unit :=
  p ← get;
  ASSERT (match connections_ p with [] => true | _ => false end);;
  signal_ SignalDestroyed;;
  modify (fun p => p <| destroyed := true |>).

Definition CheckTimeout : P unit :=
  p ← get;
  if bool_decide (lifetime_ p = LT_POSTTIMEOUT) && match connections_ p with [] => true | _ => false end
  then Destroy else mret tt.

Definition OnMessage (message_id : Z) : P unit :=
  ASSERT (message_id =? MSG_CHECKTIMEOUT);;
  p ← get;
  ASSERT (bool_decide (lifetime_ p = LT_PRETIMEOUT));;
  modify (fun p => p <| lifetime_ := LT_POSTTIMEOUT |>);;
  CheckTimeout.

(** *** States of a connection *)

(** [Connection::CheckTimeout]. *)
Definition conn_CheckTimeout (c : ptr) : P unit :=
  x ← conn_at c;
  if bool_decide (read_state_ x = STATE_READ_TIMEOUT) && bool_decide (write_state_ x = STATE_WRITE_TIMEOUT)
  then modify (fun p => p <| deletes := deletes p ++ [c] |>) else mret tt.

Definition set_read_state (c : ptr) (value : ReadState) : P unit :=
  x ← conn_at c;
  upd c (fun x => x <| read_state_ := value |>);;
  if negb (bool_decide (value = read_state_ x)) then signal_ (SignalStateChange c);; conn_CheckTimeout c
  else mret tt.
Definition set_write_state (c : ptr) (value : WriteState) : P unit :=
  x ← conn_at c;
  upd c (fun x => x <| write_state_ := value |>);;
  if negb (bool_decide (value = write_state_ x)) then signal_ (SignalStateChange c);; conn_CheckTimeout c
  else mret tt.
Definition set_connected (c : ptr) (value : bool) : P unit := upd c (fun x => x <| connected_ := value |>).

Definition ReceivedPing (c : ptr) : P unit :=
  now ← Time;
  upd c (fun x => x <| last_ping_received_ := now |>);;
  set_read_state c STATE_READABLE.

(** *** Answers to pings *)

Definition binding_response (request : StunMessage) (username_attr : StunAttribute) (addr : SocketAddress)
    : StunMessage :=
  let response := StunMsg.SetType STUN_BINDING_RESPONSE StunMsg.make in
  let response := StunMsg.SetTransactionID (transaction_id_ request) response in
  let response := StunMsg.AddAttribute
    (bytes_attr STUN_ATTR_USERNAME (attr_bytes username_attr) (length_ username_attr)) response in
  StunMsg.AddAttribute (StunSrv.address_attr STUN_ATTR_MAPPED_ADDRESS (sa_port addr) (sa_ip addr)) response.

Definition SendBindingResponse (request : StunMessage) (addr : SocketAddress) : P unit :=
  ASSERT (m_type request =? STUN_BINDING_REQUEST);;
  match StunMsg.GetByteString STUN_ATTR_USERNAME request with
  | None => fail AssertFailed
  | Some username_attr =>
      SendTo (stun_bytes (B := B) (binding_response request username_attr addr)) addr false;;
      conn ← GetConnection addr;
      match conn with None => fail AssertFailed | Some conn => ReceivedPing conn end
  end.

(** [CreateErrorCode] with [SetErrorCode] and [SetReason]. *)
Definition error_code_attr (error_code : Z) (reason : bytes) : StunAttribute :=
  let f := StunErrorCodeAttribute.of_body (body_ CreateErrorCode) in
  let f := StunErrorCodeAttribute.SetErrorCode error_code f in
  StunErrorCodeAttribute.SetReason reason (set_body CreateErrorCode (StunErrorCodeAttribute.to_body f)).

Definition binding_error_response (request : StunMessage) (username_attr : StunAttribute)
    (error_code : Z) (reason : bytes) : StunMessage :=
  let response := StunMsg.SetType STUN_BINDING_ERROR_RESPONSE StunMsg.make in
  let response := StunMsg.SetTransactionID (transaction_id_ request) response in
  let response := StunMsg.AddAttribute
    (bytes_attr STUN_ATTR_USERNAME (attr_bytes username_attr) (length_ username_attr)) response in
  StunMsg.AddAttribute (error_code_attr error_code reason) response.

Definition SendBindingErrorResponse (request : StunMessage) (addr : SocketAddress) (error_code : Z)
    (reason : bytes) : P unit :=
  ASSERT (m_type request =? STUN_BINDING_REQUEST);;
  match StunMsg.GetByteString STUN_ATTR_USERNAME request with
  | None => fail AssertFailed
  | Some username_attr =>
      SendTo (stun_bytes (B := B) (binding_error_response request username_attr error_code reason)) addr false;;
      mret tt
  end.

(** *** Reading packets *)

(** The returned flag, and the message with the remote part of its username. *)
Definition GetStunMessage (data : bytes) (addr : SocketAddress)
    : P (bool * option (StunMessage * bytes)) :=
  p ← get;
  let frag := username_frag_ p in
  let '(ok, (msg, buf)) := StunMsg.Read (B := B) (StunMsg.make, q_of data) in
  if negb ok || (0 <? q_length buf)%nat then mret (false, None)
  else
    let username_attr := StunMsg.GetByteString STUN_ATTR_USERNAME msg in
    let remote_frag_len :=
      (match username_attr with Some a => length_ a | None => 0 end) - Z.of_nat (length frag) in
    if m_type msg =? STUN_BINDING_REQUEST then
      if remote_frag_len <? 0 then mret (true, None)
      else
        a ← the Dangling username_attr;
        if negb (bool_decide (take (length frag) (attr_bytes a) = frag)) then
          SendBindingErrorResponse msg addr STUN_ERROR_BAD_REQUEST STUN_ERROR_REASON_BAD_REQUEST;;
          mret (true, None)
        else mret (true, Some (msg, drop (length frag) (attr_bytes a)))
    else if (m_type msg =? STUN_BINDING_RESPONSE) || (m_type msg =? STUN_BINDING_ERROR_RESPONSE) then
      if remote_frag_len <? 0 then mret (true, None)
      else
        a ← the Dangling username_attr;
        if negb (bool_decide (drop (Z.to_nat remote_frag_len) (attr_bytes a) = frag)) then mret (true, None)
        else
          let username := take (Z.to_nat remote_frag_len) (attr_bytes a) in
          if m_type msg =? STUN_BINDING_ERROR_RESPONSE then
            match StunMsg.GetErrorCode msg with
            | Some _ => mret (true, Some (msg, username))
            | None => mret (true, None)
            end
          else mret (true, Some (msg, username))
    else mret (true, None).

(** [Port::OnReadPacket]. *)
Definition port_OnReadPacket (data : bytes) (addr : SocketAddress) : P unit :=
  p ← get;
  if enable_port_packets_ p then signal_ (SignalPortPacket data addr)
  else
    r ← GetStunMessage data addr;
    match r with
    | (true, Some (msg, remote_username)) =>
        if m_type msg =? STUN_BINDING_REQUEST then signal_ (SignalUnknownAddress addr msg remote_username)
        else mret tt
    | _ => mret tt
    end.

(** *** Pings and their answers *)

(** [ConnectionRequest::Prepare] and [GetNextDelay]. *)
Definition Prepare (username : bytes) (request : StunMessage) : StunMessage :=
  StunMsg.AddAttribute (bytes_attr STUN_ATTR_USERNAME username (Z.of_nat (length username)))
    (StunMsg.SetType STUN_BINDING_REQUEST request).
Definition GetNextDelay (r : StunReq.StunRequest) : Z * StunReq.StunRequest :=
  (CONNECTION_RESPONSE_TIMEOUT,
   StunReq.mkRequest (StunReq.count_ r) true (StunReq.id_ r) (StunReq.msg_ r) (StunReq.tstamp_ r)).

Definition OnConnectionRequestResponse (c : ptr) (request : StunReq.StunRequest) : P unit :=
  now ← Time;
  let rtt := StunReq.Elapsed now request in
  set_write_state c STATE_WRITABLE;;
  upd c (fun x => x <| pings_since_last_response_ := [] |>
    <| rtt_ := ((RTT_RATIO *u rtt_ x) +u rtt) / (RTT_RATIO + 1) |>).

Definition error_code_of (response : StunMessage) : Z :=
  match StunMsg.GetErrorCode response with
  | Some a =>
      let '(c, n, _) := StunErrorCodeAttribute.of_body (body_ a) in StunErrorCodeAttribute.error_code c n
  | None => STUN_ERROR_GLOBAL_FAILURE
  end.
Definition OnConnectionRequestErrorResponse (c : ptr) (response : StunMessage) : P unit :=
  let error_code := error_code_of response in
  if (error_code =? STUN_ERROR_UNKNOWN_ATTRIBUTE) || (error_code =? STUN_ERROR_SERVER_ERROR) ||
     (error_code =? STUN_ERROR_UNAUTHORIZED) then mret tt
  else if error_code =? STUN_ERROR_STALE_CREDENTIALS then mret tt
  else set_write_state c STATE_WRITE_TIMEOUT.

(** The callbacks of the request manager; [request] is the object of the id. *)
Definition on_request_event (c : ptr) (request : StunReq.StunRequest) (e : StunReq.event) : P unit :=
  match e with
  | StunReq.SignalSendPacket _ data =>
      x ← conn_at c; SendTo data (c_address (remote_candidate_ x)) false;; mret tt
  | StunReq.OnResponse _ _ => OnConnectionRequestResponse c request
  | StunReq.OnErrorResponse _ response => OnConnectionRequestErrorResponse c response
  | StunReq.OnTimeout _ => mret tt
  end.

(** [requests_.CheckResponse(msg)]. *)
Definition conn_CheckResponse (c : ptr) (msg : StunMessage) : P unit :=
  x ← conn_at c;
  match StunReq.requests_ (requests_ x) !! transaction_id_ msg with
  | None => mret tt
  | Some request =>
      let '(_, (events, mgr)) := StunReq.CheckResponse_msg msg (requests_ x) in
      for_each (on_request_event c request) events;;
      upd c (fun x => x <| requests_ := mgr |>)
  end.

(** The thread delivers post [i] of the requests of [c]. *)
Definition request_OnMessage (c : ptr) (i : nat) : P unit :=
  now ← Clock;
  x ← conn_at c;
  let mgr := requests_ x in
  match StunReq.posts mgr !! i with
  | None => mret tt
  | Some (_, id) =>
      match StunReq.requests_ mgr !! id with
      | None => mret tt
      | Some request =>
          let '(events, mgr) := StunReq.OnMessage_by (B := B) GetNextDelay now id
            (StunReq.mkManager (StunReq.requests_ mgr) (base.delete i (StunReq.posts mgr))) in
          for_each (on_request_event c request) events;;
          upd c (fun x => x <| requests_ := mgr |>)
      end
  end.

Definition Ping (c : ptr) (now : Z) : P unit :=
  x ← conn_at c;
  ASSERT (connected_ x);;
  upd c (fun x => x <| last_ping_sent_ := now |>
    <| pings_since_last_response_ := pings_since_last_response_ x ++ [now] |>);;
  p ← get;
  modify (fun p => p <| random_strings := S (random_strings p) |>);;
  thread_now ← Clock;
  let req := StunReq.make (random_id (random_strings p)) in
  let username := c_username (remote_candidate_ x) ++ username_frag_ p in
  mgr ← the AssertFailed (StunReq.Send (Prepare username) thread_now req (requests_ x));
  upd c (fun x => x <| requests_ := mgr |>).

(** [Connection::OnReadPacket]. *)
Definition conn_OnReadPacket (c : ptr) (data : bytes) : P unit :=
  x ← conn_at c;
  let addr := c_address (remote_candidate_ x) in
  r ← GetStunMessage data addr;
  match r with
  | (false, _) =>
      if bool_decide (read_state_ x = STATE_READABLE) then
        now ← Time;
        upd c (fun x => x <| last_data_received_ := now |>
          <| recv_rate_tracker_ := RateTracker.Update (Z.of_nat (length data)) (recv_rate_tracker_ x) |>);;
        signal_ (SignalReadPacket c data);;
        if negb (pruned_ x) && bool_decide (write_state_ x = STATE_WRITE_TIMEOUT)
        then set_write_state c STATE_WRITE_CONNECT else mret tt
      else mret tt
  | (true, None) => mret tt
  | (true, Some (msg, remote_username)) =>
      if negb (bool_decide (remote_username = c_username (remote_candidate_ x))) then
        if m_type msg =? STUN_BINDING_REQUEST then
          SendBindingErrorResponse msg addr STUN_ERROR_BAD_REQUEST STUN_ERROR_REASON_BAD_REQUEST
        else mret tt
      else if m_type msg =? STUN_BINDING_REQUEST then
        SendBindingResponse msg addr;;
        x ← conn_at c;
        if negb (pruned_ x) && bool_decide (write_state_ x = STATE_WRITE_TIMEOUT)
        then set_write_state c STATE_WRITE_CONNECT else mret tt
      else if (m_type msg =? STUN_BINDING_RESPONSE) || (m_type msg =? STUN_BINDING_ERROR_RESPONSE) then
        conn_CheckResponse c msg
      else fail AssertFailed
  end.

(** [UDPPort::OnReadPacket]. *)
Definition OnReadPacket (data : bytes) (remote_addr : SocketAddress) : P unit :=
  o ← GetConnection remote_addr;
  match o with Some c => conn_OnReadPacket c data | None => port_OnReadPacket data remote_addr end.

(** *** Life of a connection *)

Definition Prune (c : ptr) : P unit :=
  x ← conn_at c;
  if negb (pruned_ x) then
    upd c (fun x => x <| pruned_ := true |> <| requests_ := StunReq.Clear (requests_ x) |>);;
    set_write_state c STATE_WRITE_TIMEOUT
  else mret tt.

Definition conn_Destroy (c : ptr) : P unit :=
  set_read_state c STATE_READ_TIMEOUT;; set_write_state c STATE_WRITE_TIMEOUT.

Definition UpdateState (c : ptr) (now : Z) : P unit :=
  x ← conn_at c;
  let rtt := ConservativeRTTEstimate (rtt_ x) in
  (if bool_decide (read_state_ x = STATE_READABLE) && ((last_ping_received_ x +u CONNECTION_READ_TIMEOUT) <=? now)
   then set_read_state c STATE_READ_TIMEOUT else mret tt);;
  x ← conn_at c;
  (if bool_decide (write_state_ x = STATE_WRITABLE) then
     failures ← the OutOfBounds
       (TooManyFailures (pings_since_last_response_ x) CONNECTION_WRITE_CONNECT_FAILURES rtt now);
     if failures && TooLongWithoutResponse (pings_since_last_response_ x) CONNECTION_WRITE_CONNECT_TIMEOUT now
     then set_write_state c STATE_WRITE_CONNECT else mret tt
   else mret tt);;
  x ← conn_at c;
  if bool_decide (write_state_ x = STATE_WRITE_CONNECT) &&
     TooLongWithoutResponse (pings_since_last_response_ x) CONNECTION_WRITE_TIMEOUT now
  then set_write_state c STATE_WRITE_TIMEOUT else mret tt.

(** [UDPPort::CreateConnection], with the constructors and [AddConnection]. *)
Definition new_Connection (index : nat) (remote_candidate : Candidate) : Connection :=
  mkConnection index remote_candidate STATE_READ_TIMEOUT STATE_WRITE_CONNECT true false
    StunReq.empty_manager DEFAULT_RTT 0 0 0 [] RateTracker.make RateTracker.make false 0.
Definition AddConnection (c : ptr) : P unit :=
  x ← conn_at c;
  modify (fun p => p <| connections_ := map_set (c_address (remote_candidate_ x)) c (connections_ p) |>);;
  signal_ (SignalConnectionCreated c).
Definition CreateConnection (address : Candidate) : P (option ptr) :=
  if negb (bool_decide (c_protocol address = str "udp")) then mret None
  else
    p ← get;
    let c := next_ptr p in
    modify (fun p => p <| next_ptr := S c |> <| conn_heap := <[c := new_Connection 0 address]> (conn_heap p) |>);;
    AddConnection c;;
    mret (Some c).

Definition OnConnectionDestroyed (c : ptr) : P unit :=
  x ← conn_at c;
  p ← get;
  let addr := c_address (remote_candidate_ x) in
  ASSERT (negb (bool_decide (map_find addr (connections_ p) = None)));;
  modify (fun p => p <| connections_ := map_erase addr (connections_ p) |>);;
  CheckTimeout.

(** [Connection::OnMessage]: [delete this] takes the object and its posts. *)
Definition conn_OnMessage (c : ptr) (message_id : Z) : P unit :=
  ASSERT (message_id =? MSG_DELETE);;
  conn_at c;;
  signal_ (SignalConnectionDestroyed c);;
  OnConnectionDestroyed c;;
  modify (fun p => p <| conn_heap := base.delete c (conn_heap p) |>
    <| deletes := List.filter (fun d => negb (d =? c)%nat) (deletes p) |>).

(** [~Port]: every connection goes, silently. *)
Definition delete_port : P unit :=
  p ← get;
  for_each (fun c => conn_at c;; modify (fun p => p <| conn_heap := base.delete c (conn_heap p) |>
    <| deletes := List.filter (fun d => negb (d =? c)%nat) (deletes p) |>)) (map snd (connections_ p));;
  modify (fun p => p <| check_posted := false |> <| destroyed := true |>).

(** [ProxyConnection::Send]. *)
Definition Send (c : ptr) (data : bytes) : P Z :=
  x ← conn_at c;
  if negb (bool_decide (write_state_ x = STATE_WRITABLE)) then
    upd c (fun x => x <| error_ := EWOULDBLOCK |>);; mret SOCKET_ERROR
  else
    sent_ ← SendTo data (c_address (remote_candidate_ x)) true;
    (if sent_ <=? 0 then
       ASSERT (sent_ <? 0);;
       p ← get; upd c (fun x => x <| error_ := socket_error_ p |>)
     else upd c (fun x => x <| send_rate_tracker_ := RateTracker.Update sent_ (send_rate_tracker_ x) |>));;
    mret sent_.

Definition recv_bytes_second (c : ptr) : P Z :=
  now ← Time;
  x ← conn_at c;
  let '(units, tracker) := RateTracker.units_second now (recv_rate_tracker_ x) in
  upd c (fun x => x <| recv_rate_tracker_ := tracker |>);; mret units.
Definition sent_bytes_second (c : ptr) : P Z :=
  now ← Time;
  x ← conn_at c;
  let '(units, tracker) := RateTracker.units_second now (send_rate_tracker_ x) in
  upd c (fun x => x <| send_rate_tracker_ := tracker |>);; mret units.
Definition recv_total_bytes (x : Connection) : Z := RateTracker.total_units (recv_rate_tracker_ x).
Definition sent_total_bytes (x : Connection) : Z := RateTracker.total_units (send_rate_tracker_ x).

Definition set_reported (c : ptr) (reported : bool) : P unit := upd c (fun x => x <| reported_ := reported |>).
Definition local_candidate (c : ptr) : P Candidate :=
  x ← conn_at c; p ← get; the AssertFailed (candidates_ p !! local_candidate_index_ x).
End Code.

(** [Port(...)] of type local, with its two random strings and preference -1. *)
Definition make (network : Network) (frag password : bytes) : Port :=
  mkPort (str "local") network 0 [] frag password (S754_finite true 8388608 (-23)) [] [] LT_PRESTART false 0 ∅ 0%nat 0%nat 0%nat
    [] [] false [] false.
End Port.
