(* ===== verification/PortRuns.v ===== *)
(** * What the operations of a port do to its connections

    Every operation on a connection changes that connection alone: [acts] names
    the pure function on its fields, the datagrams sent and, when the
    connection has timed out both ways, its posted deletion.  The invariant of
    the port follows from the invariant of the changed connection. *)

From S2P Require Import Prelude TimeUtil ByteOrder ByteBuffer SocketAddress StdMap Stun StunFacts StunServer StunMessages StunRequest Effects Port.
#[local] Open Scope jingle_scope.
Import Port.
#[local] Set Default Proof Using "Type*".

(** ** One connection *)

(** Timed out both ways. *)
Definition dead (x : Connection) : Prop := read_state_ x = STATE_READ_TIMEOUT /\ write_state_ x = STATE_WRITE_TIMEOUT.
#[export] Instance dead_dec x : Decision (dead x).
Proof. unfold dead. apply _. Defined.

(** The fields that no operation on a connection touches. *)
Definition fixed (p : Port) :=
  (port_type_ p, network_ p, generation_ p, port_name_ p, username_frag_ p, password_ p, preference_ p,
   candidates_ p, connections_ p, lifetime_ p, enable_port_packets_ p, next_ptr p, check_posted p, destroyed p).

(** From [p] to [p'] connection [c] went through [f], and [out] was sent. *)
Definition acts (c : ptr) (f : Connection -> Connection) (out : list (bytes * SocketAddress)) (p p' : Port) : Prop :=
  fixed p' = fixed p /\ sent p' = sent p ++ out /\
  exists x n, conn_heap p !! c = Some x /\ conn_heap p' = <[c := f x]> (conn_heap p) /\
    deletes p' = deletes p ++ replicate n c /\ (dead (f x) -> dead x \/ n <> 0%nat).

Lemma acts_refl c p x : conn_heap p !! c = Some x -> acts c id [] p p.
Proof.
  intros E. split; [done|]. split; [by rewrite app_nil_r|]. exists x, 0%nat.
  split; [done|]. split; [by rewrite insert_id|]. split; [by rewrite app_nil_r|]. by left.
Qed.
Lemma acts_trans c f g o1 o2 p1 p2 p3 : acts c f o1 p1 p2 -> acts c g o2 p2 p3 -> acts c (fun x => g (f x)) (o1 ++ o2) p1 p3.
Proof.
  intros (F1 & S1 & x & n & E1 & H1 & D1 & K1) (F2 & S2 & y & k & E2 & H2 & D2 & K2).
  rewrite H1, lookup_insert_eq in E2. injection E2 as <-. split; [congruence|]. split; [by rewrite S2, S1, app_assoc|].
  exists x, (n + k)%nat. split; [done|]. split; [by rewrite H2, H1, insert_insert_eq|].
  split; [by rewrite D2, D1, <- app_assoc, replicate_add|]. intros Hd. destruct (K2 Hd) as [Hd'|]; [|right; lia].
  destruct (K1 Hd') as [|]; [by left|right; lia].
Qed.
(** The function only matters at the connection. *)
Lemma acts_ext c f g out p p' x : conn_heap p !! c = Some x -> g x = f x -> acts c f out p p' -> acts c g out p p'.
Proof.
  intros E Eg (F & S & y & n & E1 & H1 & D1 & K1). rewrite E in E1. injection E1 as <-.
  split; [done|]. split; [done|]. exists x, n. by rewrite Eg.
Qed.

Section Code.
Context {B : Type} `{ByteQueue B}.
Variable clock : nat -> Z.
Variable random_id : nat -> bytes.
Variable socket_SendTo : nat -> Z.
Variable socket_GetError : nat -> Z.

Lemma wp_conn c x p (Q : Connection -> Port -> Prop) : conn_heap p !! c = Some x -> Q x p -> wp (conn_at c) Q p.
Proof. intros E Hq. unfold conn_at. wp_steps. rewrite E. by apply pwp_ret. Qed.

Lemma upd_acts c f x p (Q : unit -> Port -> Prop) : conn_heap p !! c = Some x -> (dead (f x) -> dead x) ->
  (forall p', acts c f [] p p' -> Q tt p') -> wp (upd c f) Q p.
Proof.
  intros E Hd Hq. unfold upd. apply pwp_bind. eapply wp_conn; [exact E|]. apply pwp_modify, Hq.
  split; [done|]. split; [by rewrite app_nil_r|]. exists x, 0%nat.
  split; [done|]. split; [done|]. split; [by rewrite app_nil_r|]. intros Hf. left. by apply Hd.
Qed.

Lemma upd_eq c f x p (Q : unit -> Port -> Prop) : conn_heap p !! c = Some x ->
  Q tt (p <| conn_heap := <[c := f x]> (conn_heap p) |>) -> wp (upd c f) Q p.
Proof. intros E Hq. unfold upd. apply pwp_bind. eapply wp_conn; [exact E|]. by apply pwp_modify. Qed.

(** Steps that leave the connections alone. *)
Definition idle (p p' : Port) : Prop :=
  fixed p' = fixed p /\ sent p' = sent p /\ conn_heap p' = conn_heap p /\ deletes p' = deletes p.
Lemma idle_acts c f out p p1 p2 : idle p p1 -> acts c f out p1 p2 -> acts c f out p p2.
Proof.
  intros (F & S & Hh & D) (F1 & S1 & x & n & E1 & H1 & D1 & K1). split; [congruence|]. split; [congruence|].
  exists x, n. rewrite Hh in *. rewrite D in *. done.
Qed.
Lemma acts_idle c f out p p1 p2 : acts c f out p p1 -> idle p1 p2 -> acts c f out p p2.
Proof.
  intros (F1 & S1 & x & n & E1 & H1 & D1 & K1) (F & S & Hh & D). split; [congruence|]. split; [congruence|].
  exists x, n. rewrite Hh, D. done.
Qed.
Lemma acts_heap c f out p p' x : acts c f out p p' -> conn_heap p !! c = Some x -> conn_heap p' !! c = Some (f x).
Proof. intros (_ & _ & y & n & E & Hh & _) E'. rewrite E' in E. injection E as <-. by rewrite Hh, lookup_insert_eq. Qed.

Lemma wp_PortTime p (Q : Z -> Port -> Prop) : (forall p', idle p p' -> Q (u32 (clock (ticks p))) p') -> wp (Time clock) Q p.
Proof. intros Hq. unfold Time, wp. by apply Hq. Qed.
Lemma wp_Clock p (Q : Z -> Port -> Prop) : (forall p', idle p p' -> Q (clock (ticks p)) p') -> wp (Clock clock) Q p.
Proof. intros Hq. unfold Clock, wp. by apply Hq. Qed.
Lemma wp_signal s p (Q : unit -> Port -> Prop) : (forall p', idle p p' -> Q tt p') -> wp (signal_ s) Q p.
Proof. intros Hq. unfold signal_. by apply pwp_modify, Hq. Qed.

Lemma SendTo_wp data addr payload p (Q : Z -> Port -> Prop) :
  (forall p', fixed p' = fixed p -> sent p' = sent p ++ [(data, addr)] -> conn_heap p' = conn_heap p ->
     deletes p' = deletes p -> Q (socket_SendTo (length (sent p))) p') ->
  wp (SendTo socket_SendTo socket_GetError data addr payload) Q p.
Proof.
  intros Hq. unfold SendTo. apply pwp_bind, pwp_get, pwp_bind, pwp_modify, pwp_bind.
  destruct (_ <? 0); [apply pwp_modify|]; by apply pwp_ret, Hq.
Qed.
Lemma SendTo_acts c x data addr payload p (Q : Z -> Port -> Prop) : conn_heap p !! c = Some x ->
  (forall p', acts c id [(data, addr)] p p' -> Q (socket_SendTo (length (sent p))) p') ->
  wp (SendTo socket_SendTo socket_GetError data addr payload) Q p.
Proof.
  intros E Hq. apply SendTo_wp. intros p' F S Hh D. apply Hq. split; [done|]. split; [done|]. exists x, 0%nat.
  split; [done|]. split; [by rewrite Hh, insert_id|]. split; [by rewrite D, app_nil_r|]. by left.
Qed.

(** *** The states *)

Lemma CheckTimeout_spec c x p : conn_heap p !! c = Some x ->
  wp (conn_CheckTimeout c) (fun _ p' => fixed p' = fixed p /\ sent p' = sent p /\ conn_heap p' = conn_heap p /\
    exists n, deletes p' = deletes p ++ replicate n c /\ (dead x -> n <> 0%nat)) p.
Proof.
  intros E. unfold conn_CheckTimeout. apply pwp_bind. eapply wp_conn; [exact E|].
  destruct (bool_decide (read_state_ x = STATE_READ_TIMEOUT) && bool_decide (write_state_ x = STATE_WRITE_TIMEOUT)) eqn:Ed.
  - apply pwp_modify. split_and!; try done. exists 1%nat. by split.
  - apply pwp_ret. split_and!; try done. exists 0%nat. split; [by rewrite app_nil_r|]. intros [H1 H2].
    by rewrite H1, H2, !bool_decide_true in Ed.
Qed.

Lemma set_state_acts c x f (changed : bool) p (Q : unit -> Port -> Prop) :
  conn_heap p !! c = Some x -> (changed = false -> f x = x) ->
  (forall p', acts c f [] p p' -> Q tt p') ->
  wp (upd c f;; if changed then signal_ (SignalStateChange c);; conn_CheckTimeout c else mret tt) Q p.
Proof.
  intros E Hch Hq. unfold upd. apply pwp_bind, pwp_bind. eapply wp_conn; [exact E|]. apply pwp_modify.
  set (p1 := p <| conn_heap := <[c := f x]> (conn_heap p) |>).
  assert (F : fixed p1 = fixed p /\ sent p1 = sent p /\ conn_heap p1 = <[c := f x]> (conn_heap p) /\ deletes p1 = deletes p) by done.
  clearbody p1. destruct F as (F1 & S1 & H1 & D1). destruct changed.
  - apply pwp_bind, wp_signal. intros p2 (F2 & S2 & H2 & D2).
    assert (E2 : conn_heap p2 !! c = Some (f x)) by by rewrite H2, H1, lookup_insert_eq.
    wp_apply (CheckTimeout_spec c (f x) p2 E2). intros [] p3 (F3 & S3 & H3 & n & D3 & K3). apply Hq.
    split; [congruence|]. split; [by rewrite S3, S2, S1, app_nil_r|]. exists x, n.
    split; [done|]. split; [congruence|]. split; [by rewrite D3, D2, D1|]. auto.
  - apply pwp_ret, Hq. split; [done|]. split; [by rewrite S1, app_nil_r|]. exists x, 0%nat.
    split; [done|]. split; [done|]. split; [by rewrite D1, app_nil_r|]. rewrite (Hch eq_refl). auto.
Qed.

Definition with_read (v : ReadState) (x : Connection) : Connection := x <| read_state_ := v |>.
Definition with_write (v : WriteState) (x : Connection) : Connection := x <| write_state_ := v |>.

Lemma set_read_state_wp c v x p (Q : unit -> Port -> Prop) : conn_heap p !! c = Some x ->
  (forall p', acts c (with_read v) [] p p' -> Q tt p') -> wp (set_read_state c v) Q p.
Proof.
  intros E Hq. unfold set_read_state. apply pwp_bind. eapply wp_conn; [exact E|].
  apply (set_state_acts c x (with_read v)); [done| |done].
  intros Hb. apply negb_false_iff, bool_decide_eq_true in Hb. subst v. by destruct x.
Qed.
Lemma set_write_state_wp c v x p (Q : unit -> Port -> Prop) : conn_heap p !! c = Some x ->
  (forall p', acts c (with_write v) [] p p' -> Q tt p') -> wp (set_write_state c v) Q p.
Proof.
  intros E Hq. unfold set_write_state. apply pwp_bind. eapply wp_conn; [exact E|].
  apply (set_state_acts c x (with_write v)); [done| |done].
  intros Hb. apply negb_false_iff, bool_decide_eq_true in Hb. subst v. by destruct x.
Qed.

Lemma ReceivedPing_wp c x p (Q : unit -> Port -> Prop) : conn_heap p !! c = Some x ->
  (forall now p', acts c (fun x => with_read STATE_READABLE (x <| last_ping_received_ := now |>)) [] p p' -> Q tt p') ->
  wp (ReceivedPing clock c) Q p.
Proof.
  intros E Hq. unfold ReceivedPing. apply pwp_bind, wp_PortTime. intros p1 I1.
  assert (E1 : conn_heap p1 !! c = Some x) by (destruct I1 as (_ & _ & -> & _); done).
  apply pwp_bind. eapply upd_acts; [exact E1|by destruct x|]. intros p2 A2.
  eapply set_read_state_wp; [by eapply acts_heap|]. intros p3 A3. eapply Hq, idle_acts; [exact I1|].
  exact (acts_trans _ _ _ _ _ _ _ _ A2 A3).
Qed.

(** *** Timeouts *)

Lemma TooManyFailures_total pings n rtt now : (0 < n)%nat -> exists b, TooManyFailures pings n rtt now = Some b.
Proof.
  intros Hn. unfold TooManyFailures. destruct (Nat.ltb_spec (length pings) n); [by eexists|].
  destruct (lookup_lt_is_Some_2 pings (n - 1)) as [x ->]; [lia|]. by eexists.
Qed.

(** What [UpdateState] does to the fields. *)
Definition update_read (now : Z) (x : Connection) : Connection :=
  if bool_decide (read_state_ x = STATE_READABLE) && ((last_ping_received_ x +u CONNECTION_READ_TIMEOUT) <=? now)
  then with_read STATE_READ_TIMEOUT x else x.
Definition update_writable (rtt now : Z) (x : Connection) : Connection :=
  if bool_decide (write_state_ x = STATE_WRITABLE) &&
     (default false (TooManyFailures (pings_since_last_response_ x) CONNECTION_WRITE_CONNECT_FAILURES rtt now) &&
      TooLongWithoutResponse (pings_since_last_response_ x) CONNECTION_WRITE_CONNECT_TIMEOUT now)
  then with_write STATE_WRITE_CONNECT x else x.
Definition update_connect (now : Z) (x : Connection) : Connection :=
  if bool_decide (write_state_ x = STATE_WRITE_CONNECT) &&
     TooLongWithoutResponse (pings_since_last_response_ x) CONNECTION_WRITE_TIMEOUT now
  then with_write STATE_WRITE_TIMEOUT x else x.
Definition update_state (now : Z) (x : Connection) : Connection :=
  update_connect now (update_writable (ConservativeRTTEstimate (rtt_ x)) now (update_read now x)).

Lemma acts_if (b : bool) c (f : Connection -> Connection) x p m (Q : unit -> Port -> Prop) :
  conn_heap p !! c = Some x ->
  (b = true -> wp m (fun _ => acts c f [] p) p) ->
  (forall p', acts c (fun y => if b then f y else y) [] p p' -> Q tt p') ->
  wp (if b then m else mret tt) Q p.
Proof.
  intros E Hm Hq. destruct b.
  - eapply pwp_mono; [by apply Hm|]. intros [] p' A. by apply Hq.
  - apply pwp_ret, Hq. by eapply acts_refl.
Qed.

Lemma UpdateState_wp c x now p (Q : unit -> Port -> Prop) : conn_heap p !! c = Some x ->
  (forall p', acts c (update_state now) [] p p' -> Q tt p') -> wp (UpdateState c now) Q p.
Proof.
  intros E Hq. unfold UpdateState. apply pwp_bind. eapply wp_conn; [exact E|]. apply pwp_bind.
  eapply (acts_if _ c (with_read STATE_READ_TIMEOUT)); [exact E|intros _; by eapply set_read_state_wp|].
  intros p1 A1. apply (acts_ext _ _ (update_read now) _ _ _ _ E) in A1; [|done].
  pose proof (acts_heap _ _ _ _ _ _ A1 E) as E1. set (x1 := update_read now x) in *.
  apply pwp_bind. eapply wp_conn; [exact E1|]. apply pwp_bind.
  set (rtt := ConservativeRTTEstimate (rtt_ x)).
  eapply (pwp_mono _ (fun _ => acts c (update_writable rtt now) [] p1)).
  { destruct (TooManyFailures_total (pings_since_last_response_ x1) CONNECTION_WRITE_CONNECT_FAILURES rtt now) as [b Hb];
      [unfold CONNECTION_WRITE_CONNECT_FAILURES; lia|].
    destruct (bool_decide (write_state_ x1 = STATE_WRITABLE)) eqn:Ew.
    - apply pwp_bind. eapply wp_the; [exact Hb|].
      eapply (acts_if _ c (with_write STATE_WRITE_CONNECT)); [exact E1|intros _; by eapply set_write_state_wp|].
      intros p2 A2. eapply acts_ext; [exact E1| |exact A2]. unfold update_writable. by rewrite Ew, Hb.
    - apply pwp_ret. eapply acts_ext; [exact E1| |by eapply acts_refl]. unfold update_writable. by rewrite Ew. }
  intros [] p2 A2. pose proof (acts_heap _ _ _ _ _ _ A2 E1) as E2. set (x2 := update_writable rtt now x1) in *.
  apply pwp_bind. eapply wp_conn; [exact E2|].
  eapply (acts_if _ c (with_write STATE_WRITE_TIMEOUT)); [exact E2|intros _; by eapply set_write_state_wp|].
  intros p3 A3. apply (acts_ext _ _ (update_connect now) _ _ _ _ E2) in A3; [|done].
  apply Hq. eapply acts_ext; [exact E| |exact (acts_trans _ _ _ _ _ _ _ _ A1 (acts_trans _ _ _ _ _ _ _ _ A2 A3))].
  unfold update_state, x2, x1, rtt. done.
Qed.

(** *** Pruning, destroying, pinging, sending *)

Definition pruned (x : Connection) : Connection :=
  if pruned_ x then x
  else with_write STATE_WRITE_TIMEOUT (x <| pruned_ := true |> <| requests_ := StunReq.Clear (requests_ x) |>).

Lemma Prune_wp c x p (Q : unit -> Port -> Prop) : conn_heap p !! c = Some x ->
  (forall p', acts c pruned [] p p' -> Q tt p') -> wp (Prune c) Q p.
Proof.
  intros E Hq. unfold Prune. apply pwp_bind. eapply wp_conn; [exact E|]. destruct (pruned_ x) eqn:Ep; cbn [negb].
  - apply pwp_ret, Hq. eapply acts_ext; [exact E| |by eapply acts_refl]. unfold pruned. by rewrite Ep.
  - apply pwp_bind. eapply upd_acts; [exact E|by destruct x|]. intros p1 A1.
    eapply set_write_state_wp; [by eapply acts_heap|]. intros p2 A2. apply Hq.
    eapply acts_ext; [exact E| |exact (acts_trans _ _ _ _ _ _ _ _ A1 A2)]. unfold pruned. by rewrite Ep.
Qed.

Lemma conn_Destroy_wp c x p (Q : unit -> Port -> Prop) : conn_heap p !! c = Some x ->
  (forall p', acts c (fun x => with_write STATE_WRITE_TIMEOUT (with_read STATE_READ_TIMEOUT x)) [] p p' -> Q tt p') ->
  wp (conn_Destroy c) Q p.
Proof.
  intros E Hq. unfold conn_Destroy. apply pwp_bind. eapply set_read_state_wp; [exact E|]. intros p1 A1.
  eapply set_write_state_wp; [by eapply acts_heap|]. intros p2 A2. apply Hq.
  exact (acts_trans _ _ _ _ _ _ _ _ A1 A2).
Qed.

(** The request of a ping. *)
Definition ping_request (id username : bytes) : StunReq.StunRequest :=
  StunReq.Construct (Prepare username) (StunReq.make id).
Definition pinged (now thread_now : Z) (id frag : bytes) (x : Connection) : Connection :=
  x <| last_ping_sent_ := now |> <| pings_since_last_response_ := pings_since_last_response_ x ++ [now] |>
    <| requests_ := StunReq.mkManager
         (<[id := ping_request id (c_username (remote_candidate_ x) ++ frag)]> (StunReq.requests_ (requests_ x)))
         (StunReq.posts (requests_ x) ++ [(thread_now + 0, id)]) |>.

Lemma Ping_wp c x now p (Q : unit -> Port -> Prop) : conn_heap p !! c = Some x -> connected_ x = true ->
  StunReq.requests_ (requests_ x) !! random_id (random_strings p) = None ->
  (forall thread_now p', acts c (pinged now thread_now (random_id (random_strings p)) (username_frag_ p)) [] p p' -> Q tt p') ->
  wp (Ping clock random_id c now) Q p.
Proof.
  intros E Hc Hid Hq. unfold Ping. apply pwp_bind. eapply wp_conn; [exact E|].
  apply pwp_bind, pwp_assert; [done|]. apply pwp_bind. eapply upd_eq; [exact E|].
  match goal with |- _ ?u ?p1 => set (p0 := p1) end.
  assert (F0 : fixed p0 = fixed p /\ sent p0 = sent p /\ deletes p0 = deletes p /\ random_strings p0 = random_strings p /\
    username_frag_ p0 = username_frag_ p /\ ticks p0 = ticks p /\ exists y, conn_heap p0 = <[c := y]> (conn_heap p) /\
    requests_ x = requests_ x /\ y = x <| last_ping_sent_ := now |>
      <| pings_since_last_response_ := pings_since_last_response_ x ++ [now] |>).
  { split_and!; try done. by eexists. }
  clearbody p0. destruct F0 as (F0 & S0 & D0 & R0 & U0 & T0 & y & H0 & _ & Hy).
  apply pwp_bind, pwp_get, pwp_bind, pwp_modify, pwp_bind, wp_Clock. intros p1 (F1 & S1 & H1 & D1).
  apply pwp_bind. unfold StunReq.Send, StunReq.SendDelayed. cbn [StunReq.make StunReq.id_].
  rewrite R0, U0, Hid. eapply wp_the; [done|].
  assert (H1' : conn_heap p1 = <[c := y]> (conn_heap p)) by by rewrite H1.
  eapply upd_eq; [by rewrite H1', lookup_insert_eq|]. apply (Hq (clock (ticks p0))).
  split; [by transitivity (fixed p1); [|rewrite F1]|].
  split; [cbn; rewrite S1; cbn; by rewrite S0, app_nil_r|]. exists x, 0%nat.
  split; [done|]. split; [|split; [cbn; rewrite D1; cbn; by rewrite D0, app_nil_r|by destruct x; left]].
  cbn. rewrite H1', insert_insert_eq. by subst y.
Qed.

Lemma Send_wp c x data p (Q : Z -> Port -> Prop) : conn_heap p !! c = Some x ->
  socket_SendTo (length (sent p)) <> 0 ->
  (forall f p', let writable := bool_decide (write_state_ x = STATE_WRITABLE) in
     acts c f (if writable then [(data, c_address (remote_candidate_ x))] else []) p p' ->
     (exists e r, f x = x <| error_ := e |> <| send_rate_tracker_ := r |>) ->
     Q (if writable then socket_SendTo (length (sent p)) else SOCKET_ERROR) p') ->
  wp (Send socket_SendTo socket_GetError c data) Q p.
Proof.
  intros E Hn Hq. unfold Send. apply pwp_bind. eapply wp_conn; [exact E|].
  destruct (bool_decide (write_state_ x = STATE_WRITABLE)); cbn [negb]; cbv zeta in Hq.
  - apply pwp_bind. eapply SendTo_acts; [exact E|]. intros p1 A1. apply pwp_bind.
    pose proof (acts_heap _ _ _ _ _ _ A1 E) as E1. cbn [id] in E1. destruct (Z.leb_spec (socket_SendTo (length (sent p))) 0).
    + apply pwp_bind, pwp_assert; [by apply Z.ltb_lt; lia|]. apply pwp_bind, pwp_get.
      eapply upd_acts; [exact E1|by destruct x|]. intros p2 A2. apply pwp_ret. eapply Hq.
      * exact (acts_trans _ _ _ _ _ _ _ _ A1 A2).
      * by exists (socket_error_ p1), (send_rate_tracker_ x).
    + eapply upd_acts; [exact E1|by destruct x|]. intros p2 A2. apply pwp_ret. eapply Hq.
      * exact (acts_trans _ _ _ _ _ _ _ _ A1 A2).
      * by eexists (error_ x), _.
  - apply pwp_bind. eapply upd_acts; [exact E|by destruct x|]. intros p2 A2. apply pwp_ret. eapply Hq; [exact A2|].
    by exists EWOULDBLOCK, (send_rate_tracker_ x).
Qed.

(** A reading of a rate moves the reference point of its tracker. *)
Lemma rates_wp c x p (Q : Z -> Port -> Prop) : conn_heap p !! c = Some x ->
  (forall v r s p', acts c (fun x => x <| recv_rate_tracker_ := r |> <| send_rate_tracker_ := s |>) [] p p' -> Q v p') ->
  wp (recv_bytes_second clock c) Q p /\ wp (sent_bytes_second clock c) Q p.
Proof.
  intros E Hq. assert (Hi : forall p1, idle p p1 -> conn_heap p1 !! c = Some x) by by intros p1 (_ & _ & -> & _).
  split; apply pwp_bind, wp_PortTime; intros p1 I1; pose proof (Hi p1 I1) as E1; apply pwp_bind; (eapply wp_conn; [exact E1|]);
    destruct (RateTracker.units_second _ _) as [v t]; apply pwp_bind; (eapply upd_acts; [exact E1|by destruct x|]);
    intros p2 A2; apply pwp_ret.
  - apply (Hq v t (send_rate_tracker_ x)), (idle_acts _ _ _ _ _ _ I1). by eapply acts_ext; [exact E1| |exact A2].
  - apply (Hq v (recv_rate_tracker_ x) t), (idle_acts _ _ _ _ _ _ I1). by eapply acts_ext; [exact E1| |exact A2].
Qed.

(** *** Responses *)

Definition with_requests (m : StunReq.StunRequestManager) (x : Connection) : Connection := x <| requests_ := m |>.
Definition responded (now : Z) (r : StunReq.StunRequest) (x : Connection) : Connection :=
  (with_write STATE_WRITABLE x) <| pings_since_last_response_ := [] |>
    <| rtt_ := ((RTT_RATIO *u rtt_ x) +u StunReq.Elapsed now r) / (RTT_RATIO + 1) |>.
Definition recoverable (code : Z) : bool :=
  (code =? STUN_ERROR_UNKNOWN_ATTRIBUTE) || (code =? STUN_ERROR_SERVER_ERROR) ||
  (code =? STUN_ERROR_UNAUTHORIZED) || (code =? STUN_ERROR_STALE_CREDENTIALS).
Definition refused (code : Z) (x : Connection) : Connection :=
  if recoverable code then x else with_write STATE_WRITE_TIMEOUT x.

(** What a response does to the fields at time [now]. *)
Definition answered (now : Z) (msg : StunMessage) (x : Connection) : Connection :=
  match StunReq.requests_ (requests_ x) !! transaction_id_ msg with
  | None => x
  | Some r =>
      let forget := with_requests (StunReq.delete_request (StunReq.id_ r) (requests_ x)) in
      let type := m_type (StunReq.msg_ r) in
      if m_type msg =? StunMsg.GetStunResponseType type then forget (responded now r x)
      else if m_type msg =? StunMsg.GetStunErrorResponseType type then forget (refused (error_code_of msg) x)
      else x
  end.

Lemma responded_wp c x r p (Q : unit -> Port -> Prop) : conn_heap p !! c = Some x ->
  (forall now p', acts c (responded now r) [] p p' -> Q tt p') ->
  wp (OnConnectionRequestResponse clock c r) Q p.
Proof.
  intros E Hq. unfold OnConnectionRequestResponse. apply pwp_bind, wp_PortTime. intros p1 I1.
  assert (E1 : conn_heap p1 !! c = Some x) by (destruct I1 as (_ & _ & -> & _); done).
  apply pwp_bind. eapply set_write_state_wp; [exact E1|]. intros p2 A2.
  eapply upd_acts; [by eapply acts_heap|by destruct x|]. intros p3 A3. eapply Hq, idle_acts; [exact I1|].
  eapply acts_ext; [exact E1| |exact (acts_trans _ _ _ _ _ _ _ _ A2 A3)]. done.
Qed.

Lemma refused_wp c x msg p (Q : unit -> Port -> Prop) : conn_heap p !! c = Some x ->
  (forall p', acts c (refused (error_code_of msg)) [] p p' -> Q tt p') ->
  wp (OnConnectionRequestErrorResponse c msg) Q p.
Proof.
  intros E Hq. unfold OnConnectionRequestErrorResponse, refused, recoverable in *. set (code := error_code_of msg) in *.
  destruct (code =? STUN_ERROR_UNKNOWN_ATTRIBUTE); cbn [orb] in *; [by eapply pwp_ret, Hq, acts_refl|].
  destruct (code =? STUN_ERROR_SERVER_ERROR); cbn [orb] in *; [by eapply pwp_ret, Hq, acts_refl|].
  destruct (code =? STUN_ERROR_UNAUTHORIZED); cbn [orb] in *; [by eapply pwp_ret, Hq, acts_refl|].
  destruct (code =? STUN_ERROR_STALE_CREDENTIALS); [by eapply pwp_ret, Hq, acts_refl|].
  by eapply set_write_state_wp.
Qed.

Lemma conn_CheckResponse_wp c x msg p (Q : unit -> Port -> Prop) : conn_heap p !! c = Some x ->
  (forall now p', acts c (answered now msg) [] p p' -> Q tt p') ->
  wp (conn_CheckResponse clock socket_SendTo socket_GetError c msg) Q p.
Proof.
  intros E Hq. unfold conn_CheckResponse. apply pwp_bind. eapply wp_conn; [exact E|].
  destruct (StunReq.requests_ (requests_ x) !! transaction_id_ msg) as [r|] eqn:Er.
  2: { eapply pwp_ret, (Hq 0), acts_ext; [exact E| |by eapply acts_refl]. unfold answered. by rewrite Er. }
  unfold StunReq.CheckResponse_msg. rewrite Er.
  destruct (m_type msg =? StunMsg.GetStunResponseType (m_type (StunReq.msg_ r))) eqn:E1; cbn [for_each on_request_event].
  { apply pwp_bind, pwp_bind. eapply responded_wp; [exact E|]. intros now p1 A1. apply pwp_ret.
    eapply upd_acts; [by eapply acts_heap|by destruct x|]. intros p2 A2. apply (Hq now).
    eapply acts_ext; [exact E| |exact (acts_trans _ _ _ _ _ _ _ _ A1 A2)].
    unfold answered. by rewrite Er, E1. }
  destruct (m_type msg =? StunMsg.GetStunErrorResponseType (m_type (StunReq.msg_ r))) eqn:E2; cbn [for_each on_request_event].
  { apply pwp_bind, pwp_bind. eapply refused_wp; [exact E|]. intros p1 A1. apply pwp_ret.
    eapply upd_acts; [by eapply acts_heap|by destruct (refused _ x)|]. intros p2 A2. apply (Hq 0).
    eapply acts_ext; [exact E| |exact (acts_trans _ _ _ _ _ _ _ _ A1 A2)].
    unfold answered. by rewrite Er, E1, E2. }
  apply pwp_bind, pwp_ret. eapply upd_acts; [exact E|by destruct x|]. intros p2 A2. apply (Hq 0).
  eapply acts_ext; [exact E| |exact A2]. unfold answered. rewrite Er, E1, E2. by destruct x.
Qed.

(** *** The timers of the pings *)

(** The post of request [r] is delivered: it is sent, or forgotten. *)
Definition fired (now : Z) (i : nat) (r : StunReq.StunRequest) (x : Connection) : Connection :=
  let m := StunReq.mkManager (StunReq.requests_ (requests_ x)) (base.delete i (StunReq.posts (requests_ x))) in
  with_requests
    (if StunReq.timeout_ r then StunReq.delete_request (StunReq.id_ r) m
     else StunReq.mkManager
       (<[StunReq.id_ r := StunReq.mkRequest (StunReq.count_ r) true (StunReq.id_ r) (StunReq.msg_ r) (u32 now)]> (StunReq.requests_ m))
       (StunReq.posts m ++ [(now + CONNECTION_RESPONSE_TIMEOUT, StunReq.id_ r)])) x.

Lemma request_OnMessage_wp c x i due id r p (Q : unit -> Port -> Prop) : conn_heap p !! c = Some x ->
  StunReq.posts (requests_ x) !! i = Some (due, id) -> StunReq.requests_ (requests_ x) !! id = Some r ->
  StunReq.id_ r = id ->
  (forall p', acts c (fired (clock (ticks p)) i r)
     (if StunReq.timeout_ r then [] else [(stun_bytes (B := B) (StunReq.msg_ r), c_address (remote_candidate_ x))]) p p' -> Q tt p') ->
  wp (request_OnMessage (B := B) clock socket_SendTo socket_GetError c i) Q p.
Proof.
  intros E Ei Er Hid Hq. unfold request_OnMessage. apply pwp_bind, wp_Clock. intros p1 I1.
  assert (E1 : conn_heap p1 !! c = Some x) by (destruct I1 as (_ & _ & -> & _); done).
  apply pwp_bind. eapply wp_conn; [exact E1|]. rewrite Ei, Er. unfold StunReq.OnMessage_by. cbn [StunReq.requests_].
  rewrite Er. set (now := clock (ticks p)) in *. destruct (StunReq.timeout_ r) eqn:Et.
  - cbn [for_each on_request_event]. apply pwp_bind, pwp_bind, pwp_ret, pwp_ret.
    eapply upd_acts; [exact E1|by destruct x|]. intros p2 A2. apply Hq. eapply idle_acts; [exact I1|].
    eapply acts_ext; [exact E1| |exact A2]. unfold fired. by rewrite Et.
  - cbn [GetNextDelay for_each on_request_event]. apply pwp_bind, pwp_bind, pwp_bind. eapply wp_conn; [exact E1|].
    apply pwp_bind. eapply SendTo_acts; [exact E1|]. intros p2 A2. apply pwp_ret, pwp_ret.
    eapply upd_acts; [by eapply acts_heap|by destruct x|]. intros p3 A3. apply Hq. eapply idle_acts; [exact I1|].
    eapply acts_ext; [exact E1| |exact (acts_trans _ _ _ _ _ _ _ _ A2 A3)].
    unfold fired. rewrite Et, Hid. done.
Qed.

(** *** Packets *)

(** What a packet is to a port with username fragment [frag]. *)
Inductive reading :=
  | NotStun
  | Ignored
  | BadUser (msg : StunMessage) (a : StunAttribute)
  | FromPeer (msg : StunMessage) (remote_username : bytes).

Definition read_stun (frag data : bytes) : reading :=
  let '(ok, (msg, buf)) := StunMsg.Read (B := B) (StunMsg.make, q_of data) in
  if negb ok || (0 <? q_length buf)%nat then NotStun
  else
    match StunMsg.GetByteString STUN_ATTR_USERNAME msg with
    | None => Ignored
    | Some a =>
        let n := Z.to_nat (length_ a - Z.of_nat (length frag)) in
        if length_ a <? Z.of_nat (length frag) then Ignored
        else if m_type msg =? STUN_BINDING_REQUEST then
          if bool_decide (take (length frag) (attr_bytes a) = frag) then FromPeer msg (drop (length frag) (attr_bytes a))
          else BadUser msg a
        else if m_type msg =? STUN_BINDING_RESPONSE then
          if bool_decide (drop n (attr_bytes a) = frag) then FromPeer msg (take n (attr_bytes a)) else Ignored
        else if m_type msg =? STUN_BINDING_ERROR_RESPONSE then
          if bool_decide (drop n (attr_bytes a) = frag) then
            match StunMsg.GetErrorCode msg with Some _ => FromPeer msg (take n (attr_bytes a)) | None => Ignored end
          else Ignored
        else Ignored
    end.

(** What [GetStunMessage] hands over of a packet. *)
Definition handed (r : reading) : bool * option (StunMessage * bytes) :=
  match r with
  | NotStun => (false, None)
  | Ignored | BadUser _ _ => (true, None)
  | FromPeer msg user => (true, Some (msg, user))
  end.

(** A message that is handed over has a type the port knows, and a username. *)
Lemma read_stun_type frag data msg user : read_stun frag data = FromPeer msg user ->
  (m_type msg = STUN_BINDING_REQUEST \/ m_type msg = STUN_BINDING_RESPONSE \/ m_type msg = STUN_BINDING_ERROR_RESPONSE) /\
  exists a, StunMsg.GetByteString STUN_ATTR_USERNAME msg = Some a.
Proof.
  unfold read_stun. destruct (StunMsg.Read _) as [ok [m b]]. destruct (negb ok || _); [done|].
  destruct (StunMsg.GetByteString _ m) as [a|] eqn:Ea; [|done].
  destruct (_ <? _); [done|].
  destruct (Z.eqb_spec (m_type m) STUN_BINDING_REQUEST).
  { case_bool_decide; [|done]. intros [= <- _]. eauto. }
  destruct (Z.eqb_spec (m_type m) STUN_BINDING_RESPONSE).
  { case_bool_decide; [|done]. intros [= <- _]. eauto. }
  destruct (Z.eqb_spec (m_type m) STUN_BINDING_ERROR_RESPONSE); [|done].
  case_bool_decide; [|done]. destruct (StunMsg.GetErrorCode m); [|done]. intros [= <- _]. eauto.
Qed.

Definition bad_request (msg : StunMessage) (a : StunAttribute) : bytes :=
  stun_bytes (B := B) (binding_error_response msg a STUN_ERROR_BAD_REQUEST STUN_ERROR_REASON_BAD_REQUEST).

Lemma GetStunMessage_wp data addr p (Q : bool * option (StunMessage * bytes) -> Port -> Prop) :
  username_frag_ p <> [] ->
  (forall p', fixed p' = fixed p -> conn_heap p' = conn_heap p -> deletes p' = deletes p ->
     sent p' = sent p ++ (match read_stun (username_frag_ p) data with
       BadUser msg a => [(bad_request msg a, addr)] | _ => [] end) ->
     Q (handed (read_stun (username_frag_ p) data)) p') ->
  wp (GetStunMessage (B := B) socket_SendTo socket_GetError data addr) Q p.
Proof.
  intros Hf Hq. unfold GetStunMessage. apply pwp_bind, pwp_get. unfold read_stun in Hq.
  destruct (StunMsg.Read _) as [ok [msg b]].
  destruct (negb ok || (0 <? q_length b)%nat); [by apply pwp_ret, Hq; rewrite ?app_nil_r|].
  destruct (StunMsg.GetByteString STUN_ATTR_USERNAME msg) as [a|] eqn:Ea.
  2: { assert (Hl : (0 - Z.of_nat (length (username_frag_ p)) <? 0) = true).
       { apply Z.ltb_lt. destruct (username_frag_ p); [done|cbn [length]; lia]. }
       rewrite Hl. destruct (_ =? STUN_BINDING_REQUEST); [by apply pwp_ret, Hq; rewrite ?app_nil_r|].
       destruct (_ || _); by apply pwp_ret, Hq; rewrite ?app_nil_r. }
  assert (El : (length_ a - Z.of_nat (length (username_frag_ p)) <? 0) = (length_ a <? Z.of_nat (length (username_frag_ p)))).
  { apply eq_true_iff_eq. rewrite !Z.ltb_lt. lia. }
  rewrite El. destruct (length_ a <? Z.of_nat (length (username_frag_ p))).
  { destruct (_ =? STUN_BINDING_REQUEST); [by apply pwp_ret, Hq; rewrite ?app_nil_r|].
    destruct (_ || _); by apply pwp_ret, Hq; rewrite ?app_nil_r. }
  destruct (m_type msg =? STUN_BINDING_REQUEST) eqn:Et.
  { apply pwp_bind. eapply wp_the; [done|]. destruct (bool_decide _); cbn [negb]; [by apply pwp_ret, Hq; rewrite ?app_nil_r|].
    apply pwp_bind. unfold SendBindingErrorResponse. apply pwp_bind, pwp_assert; [done|]. rewrite Ea.
    apply pwp_bind, SendTo_wp. intros p' F S Hh D. apply pwp_ret, pwp_ret. by apply Hq. }
  destruct (m_type msg =? STUN_BINDING_RESPONSE) eqn:Et2; cbn [orb].
  { apply pwp_bind. eapply wp_the; [done|]. destruct (bool_decide _); cbn [negb]; [|by apply pwp_ret, Hq; rewrite ?app_nil_r].
    assert (Et3 : (m_type msg =? STUN_BINDING_ERROR_RESPONSE) = false) by (apply Z.eqb_eq in Et2; rewrite Et2; done).
    rewrite Et3. by apply pwp_ret, Hq; rewrite ?app_nil_r. }
  destruct (m_type msg =? STUN_BINDING_ERROR_RESPONSE) eqn:Et3; [|by apply pwp_ret, Hq; rewrite ?app_nil_r].
  apply pwp_bind. eapply wp_the; [done|]. destruct (bool_decide _); cbn [negb]; [|by apply pwp_ret, Hq; rewrite ?app_nil_r].
  destruct (StunMsg.GetErrorCode msg); by apply pwp_ret, Hq; rewrite ?app_nil_r.
Qed.

(** [OnReadPacket] of a connection: what it becomes, and what is sent. *)
Definition revived (x : Connection) : Connection :=
  if negb (pruned_ x) && bool_decide (write_state_ x = STATE_WRITE_TIMEOUT) then with_write STATE_WRITE_CONNECT x else x.
Definition got_data (now : Z) (data : bytes) (x : Connection) : Connection :=
  if bool_decide (read_state_ x = STATE_READABLE) then
    revived (x <| last_data_received_ := now |>
      <| recv_rate_tracker_ := RateTracker.Update (Z.of_nat (length data)) (recv_rate_tracker_ x) |>)
  else x.
Definition got_ping (now : Z) (x : Connection) : Connection :=
  revived (with_read STATE_READABLE (x <| last_ping_received_ := now |>)).

Definition packet_effect (now : Z) (frag data : bytes) (x : Connection) : Connection :=
  match read_stun frag data with
  | NotStun => got_data now data x
  | FromPeer msg user =>
      if bool_decide (user = c_username (remote_candidate_ x)) then
        if m_type msg =? STUN_BINDING_REQUEST then got_ping now x else answered now msg x
      else x
  | _ => x
  end.
Definition packet_answer (frag data : bytes) (x : Connection) : list (bytes * SocketAddress) :=
  let addr := c_address (remote_candidate_ x) in
  match read_stun frag data with
  | BadUser msg a => [(bad_request msg a, addr)]
  | FromPeer msg user =>
      if m_type msg =? STUN_BINDING_REQUEST then
        match StunMsg.GetByteString STUN_ATTR_USERNAME msg with
        | Some a => [(if bool_decide (user = c_username (remote_candidate_ x))
                      then stun_bytes (B := B) (binding_response msg a addr) else bad_request msg a, addr)]
        | None => []
        end
      else []
  | _ => []
  end.

Lemma revived_wp c x p (Q : unit -> Port -> Prop) : conn_heap p !! c = Some x ->
  (forall p', acts c revived [] p p' -> Q tt p') ->
  wp (if negb (pruned_ x) && bool_decide (write_state_ x = STATE_WRITE_TIMEOUT)
      then set_write_state c STATE_WRITE_CONNECT else mret tt) Q p.
Proof.
  intros E Hq. eapply (acts_if _ c (with_write STATE_WRITE_CONNECT)); [exact E|intros _; by eapply set_write_state_wp|].
  intros p' A. apply Hq. by eapply acts_ext; [exact E| |exact A].
Qed.

Lemma fixed_frag p p' : fixed p' = fixed p -> username_frag_ p' = username_frag_ p /\ connections_ p' = connections_ p.
Proof. by intros [=]. Qed.

Lemma conn_OnReadPacket_wp c x data p (Q : unit -> Port -> Prop) : conn_heap p !! c = Some x ->
  username_frag_ p <> [] -> map_find (c_address (remote_candidate_ x)) (connections_ p) = Some c ->
  (forall now p', acts c (packet_effect now (username_frag_ p) data) (packet_answer (username_frag_ p) data x) p p' -> Q tt p') ->
  wp (conn_OnReadPacket (B := B) clock socket_SendTo socket_GetError c data) Q p.
Proof.
  intros E Hf Hm Hq. unfold conn_OnReadPacket. apply pwp_bind. eapply wp_conn; [exact E|].
  set (addr := c_address (remote_candidate_ x)) in *. apply pwp_bind, GetStunMessage_wp; [done|].
  intros p1 F1 H1 D1 S1. pose proof (read_stun_type (username_frag_ p) data) as Hty.
  assert (A1 : acts c id (match read_stun (username_frag_ p) data with
       BadUser msg a => [(bad_request msg a, addr)] | _ => [] end) p p1).
  { split; [done|]. split; [done|]. exists x, 0%nat. split_and!; [done|by rewrite H1, insert_id|by rewrite D1, app_nil_r|by left]. }
  assert (E1 : conn_heap p1 !! c = Some x) by by rewrite H1.
  destruct (fixed_frag _ _ F1) as [_ Cm]. rewrite <- Cm in Hm.
  unfold packet_effect, packet_answer in Hq. fold addr in Hq.
  destruct (read_stun (username_frag_ p) data) as [| |msg a|msg user] eqn:Er; cbn [handed].
  - destruct (bool_decide (read_state_ x = STATE_READABLE)) eqn:Erd.
    2: { apply pwp_ret, (Hq 0). eapply acts_ext; [exact E| |exact A1]. unfold got_data. by rewrite Erd. }
    apply pwp_bind, wp_PortTime. intros p2 I2. assert (E2 : conn_heap p2 !! c = Some x) by (destruct I2 as (_ & _ & -> & _); done).
    apply pwp_bind. eapply upd_acts; [exact E2|by destruct x|]. intros p3 A3. apply pwp_bind, wp_signal. intros p4 I4.
    pose proof (acts_idle _ _ _ _ _ _ (idle_acts _ _ _ _ _ _ I2 A3) I4) as A4.
    pose proof (acts_heap _ _ _ _ _ _ A4 E1) as E4.
    match type of E4 with _ = Some ?y => change (pruned_ x) with (pruned_ y); change (write_state_ x) with (write_state_ y) end.
    eapply revived_wp; [exact E4|]. intros p5 A5. eapply Hq, acts_ext; [exact E| |
      exact (acts_trans _ _ _ _ _ _ _ _ A1 (acts_trans _ _ _ _ _ _ _ _ A4 A5))]. unfold got_data. by rewrite Erd.
  - apply pwp_ret, (Hq 0). by eapply acts_ext; [exact E| |exact A1].
  - apply pwp_ret, (Hq 0). by eapply acts_ext; [exact E| |exact A1].
  - destruct (Hty msg user eq_refl) as [Ht [a Ea]]. rewrite Ea in Hq.
    destruct (bool_decide (user = c_username (remote_candidate_ x))) eqn:Eu; cbn [negb].
    + destruct (m_type msg =? STUN_BINDING_REQUEST) eqn:Erq.
      * apply pwp_bind. unfold SendBindingResponse. apply pwp_bind, pwp_assert; [done|]. rewrite Ea.
        apply pwp_bind. eapply SendTo_acts; [exact E1|]. intros p2 A2. unfold GetConnection. apply pwp_bind, wp_gets.
        destruct (fixed_frag _ _ (proj1 A2)) as [_ Cm2]. rewrite Cm2, Hm.
        pose proof (acts_heap _ _ _ _ _ _ A2 E1) as E2. eapply ReceivedPing_wp; [exact E2|]. intros now p3 A3.
        pose proof (acts_heap _ _ _ _ _ _ A3 E2) as E3. apply pwp_bind. eapply wp_conn; [exact E3|].
        eapply revived_wp; [exact E3|]. intros p4 A4. apply (Hq now).
        eapply acts_ext; [exact E| |exact (acts_trans _ _ _ _ _ _ _ _ A1 (acts_trans _ _ _ _ _ _ _ _ A2
          (acts_trans _ _ _ _ _ _ _ _ A3 A4)))]. cbv beta. rewrite Eu. done.
      * assert (Ho : (m_type msg =? STUN_BINDING_RESPONSE) || (m_type msg =? STUN_BINDING_ERROR_RESPONSE) = true).
        { rewrite orb_true_iff, !Z.eqb_eq. apply Z.eqb_neq in Erq. by destruct Ht as [?|[?|?]]; [|left|right]. }
        rewrite Ho. eapply conn_CheckResponse_wp; [exact E1|]. intros now p2 A2. apply (Hq now).
        eapply acts_ext; [exact E| |exact (acts_trans _ _ _ _ _ _ _ _ A1 A2)]. cbv beta. by rewrite Eu.
    + destruct (m_type msg =? STUN_BINDING_REQUEST) eqn:Erq.
      * unfold SendBindingErrorResponse. apply pwp_bind, pwp_assert; [done|]. rewrite Ea.
        apply pwp_bind. eapply SendTo_acts; [exact E1|]. intros p2 A2. apply pwp_ret, (Hq 0).
        eapply acts_ext; [exact E| |exact (acts_trans _ _ _ _ _ _ _ _ A1 A2)]. cbv beta. by rewrite Eu.
      * apply pwp_ret, (Hq 0). eapply acts_ext; [exact E| |exact A1]. cbv beta. by rewrite Eu.
Qed.
End Code.
