(* ===== verification/PortFacts.v ===== *)
(** * Ports over their whole life

    The invariant of a port and its connections, the events of a port as a
    transition system, and the properties of all reachable states. *)

From S2P Require Import Prelude TimeUtil ByteOrder ByteBuffer SocketAddress StdMap Stun StunFacts StunServer StunMessages StunRequest Effects Port PortRuns.
#[local] Open Scope jingle_scope.
Import Port.
#[local] Set Default Proof Using "Type*".

(** ** The invariant *)

Definition ping_wf (id : bytes) (r : StunReq.StunRequest) : Prop :=
  StunReq.id_ r = id /\ m_type (StunReq.msg_ r) = STUN_BINDING_REQUEST.
(** Every outstanding ping has exactly one pending timer. *)
Definition conn_ok (x : Connection) : Prop := StunReq.mgr_ok ping_wf (requests_ x).

Record port_inv (p : Port) : Prop := {
  pi_frag : username_frag_ p <> [];
  pi_key : forall a c, map_find a (connections_ p) = Some c ->
    exists x, conn_heap p !! c = Some x /\ key_same a (c_address (remote_candidate_ x)) = true;
  pi_conn : forall c x, conn_heap p !! c = Some x ->
    map_find (c_address (remote_candidate_ x)) (connections_ p) = Some c /\ (c < next_ptr p)%nat /\
    conn_ok x /\ (dead x -> c ∈ deletes p);
  pi_deletes : forall c, c ∈ deletes p -> is_Some (conn_heap p !! c);
  pi_values : NoDup (map snd (connections_ p)) /\ forall c, c ∈ map snd (connections_ p) -> is_Some (conn_heap p !! c);
  pi_timer : check_posted p = true <-> lifetime_ p = LT_PRETIMEOUT;
  pi_destroyed : destroyed p = true <-> lifetime_ p = LT_POSTTIMEOUT /\ connections_ p = [];
}.

Lemma port_make_inv network frag password : frag <> [] -> port_inv (make network frag password).
Proof.
  intros Hf. split; try done; [by intros c Hc%not_elem_of_nil| |by split; [|intros [? _]]].
  split; [constructor|by intros c Hc%not_elem_of_nil].
Qed.

Lemma fixed_fields p p' : fixed p' = fixed p -> username_frag_ p' = username_frag_ p /\
  connections_ p' = connections_ p /\ lifetime_ p' = lifetime_ p /\ next_ptr p' = next_ptr p /\
  check_posted p' = check_posted p /\ destroyed p' = destroyed p /\
  enable_port_packets_ p' = enable_port_packets_ p.
Proof. by intros [=]. Qed.

(** What stays for the life of a port that has its addresses. *)
Definition steady (p : Port) := (username_frag_ p, network_ p, generation_ p, preference_ p, candidates_ p).
Lemma fixed_steady p p' : fixed p' = fixed p -> steady p' = steady p.
Proof. unfold steady. by intros [= _ -> -> _ -> _ -> -> _]. Qed.

(** What the invariant reads. *)
Lemma same_inv p p' : port_inv p -> fixed p' = fixed p -> conn_heap p' = conn_heap p -> deletes p' = deletes p ->
  port_inv p'.
Proof.
  intros [] (E1 & E2 & E3 & E4 & E5 & E6 & _)%fixed_fields Hh Hd. split; rewrite ?E1, ?E2, ?E3, ?E4, ?E5, ?E6, ?Hh, ?Hd; auto.
Qed.

Lemma acts_inv c f out p p' x : port_inv p -> conn_heap p !! c = Some x -> acts c f out p p' ->
  remote_candidate_ (f x) = remote_candidate_ x -> conn_ok (f x) -> port_inv p'.
Proof.
  intros Hp E ((E1 & E2 & E3 & E4 & E5 & E6 & _)%fixed_fields & _ & y & n & Ey & Hh & Hd & Hdead) Hr Hok.
  rewrite E in Ey. injection Ey as <-.
  split; rewrite ?E1, ?E2, ?E3, ?E4, ?E5, ?E6, ?Hh, ?Hd; try apply Hp.
  - intros a c0 Hf. destruct (pi_key _ Hp _ _ Hf) as (y & Ey & Ek). destruct (decide (c0 = c)) as [->|Hne].
    + rewrite E in Ey. injection Ey as <-. exists (f x). rewrite lookup_insert_eq, Hr. done.
    + exists y. by rewrite lookup_insert_ne.
  - intros c0 y. destruct (decide (c0 = c)) as [->|Hne].
    + rewrite lookup_insert_eq. intros [= <-]. destruct (pi_conn _ Hp _ _ E) as (Hm & Hlt & _ & Hdl).
      rewrite Hr. split_and!; [done|done|done|]. intros Hf. destruct (Hdead Hf) as [Hx|Hn]; apply elem_of_app; [by left; apply Hdl|right].
      by apply elem_of_replicate.
    + rewrite lookup_insert_ne by done. intros Ey. destruct (pi_conn _ Hp _ _ Ey) as (? & ? & ? & Hdl).
      split_and!; [done|done|done|]. intros Hy. apply elem_of_app. left. by apply Hdl.
  - intros c0. rewrite elem_of_app, elem_of_replicate. intros [Hin|[-> _]]; [|by rewrite lookup_insert_eq].
    destruct (decide (c0 = c)) as [->|]; [by rewrite lookup_insert_eq|rewrite lookup_insert_ne by done].
    by apply (pi_deletes _ Hp).
  - destruct (pi_values _ Hp) as [Hn Hl]. split; [done|]. intros c0 Hin. apply lookup_insert_is_Some'. right. by apply Hl.
Qed.

(** ** The pings of a connection *)

Lemma new_connection_ok i candidate : conn_ok (new_Connection i candidate).
Proof.
  split; [apply map_Forall_empty|]. split; [apply NoDup_nil_2|]. intros id. cbn.
  split; [by intros ?%not_elem_of_nil|by intros [? ?]].
Qed.


Lemma fresh_ping_ok x id now t frag : conn_ok x -> StunReq.requests_ (requests_ x) !! id = None ->
  conn_ok (pinged now t id frag x).
Proof.
  intros (Hr & Hn & Hi) Hid. unfold conn_ok, pinged. cbn [requests_]. split; cbn.
  - apply map_Forall_insert_2; [|done]. done.
  - rewrite fmap_app. cbn. split.
    + apply NoDup_app. split; [done|]. split; [|apply NoDup_singleton].
      intros i Hin ->%list_elem_of_singleton. apply Hi in Hin as [? E]. by rewrite Hid in E.
    + intros i. rewrite elem_of_app, list_elem_of_singleton, Hi. destruct (decide (i = id)) as [->|Hne].
      * rewrite lookup_insert_eq. split; [by eexists|by right].
      * rewrite lookup_insert_ne by done. split; [by intros [?|?]|by left].
Qed.

Lemma forget_ok W mgr id r : StunReq.mgr_ok W mgr -> StunReq.requests_ mgr !! id = Some r -> StunReq.id_ r = id ->
  StunReq.mgr_ok W (StunReq.delete_request (StunReq.id_ r) mgr).
Proof. intros Hm E Hid. rewrite Hid. apply StunReq.delete_request_wf; [done|by eexists]. Qed.

Lemma fired_ok x now i due id r : conn_ok x -> StunReq.posts (requests_ x) !! i = Some (due, id) ->
  StunReq.requests_ (requests_ x) !! id = Some r -> conn_ok (fired now i r x).
Proof.
  intros (Hr & Hn & Hi) Ei Er. destruct (Hr _ _ Er) as [Hid Ht]. unfold conn_ok, fired, with_requests. cbn [requests_].
  destruct (StunReq.delete_post _ _ _ _ Ei Hn) as [Hn' Hin'].
  destruct (StunReq.timeout_ r); rewrite Hid.
  - rewrite (StunReq.delete_request_spec id _ _ r Er), StunReq.thread_clear_absent by (rewrite Hin'; by intros [_ ?]).
    split; [by apply map_Forall_delete|]. split; [done|]. intros j. cbn. rewrite Hin', Hi.
    destruct (decide (id = j)) as [->|]; [rewrite lookup_delete_eq|rewrite lookup_delete_ne by done].
    + split; [by intros [_ ?]|by intros [? ?]].
    + split; [by intros [? _]|intros ?; split; congruence].
  - cbn. split; [by apply map_Forall_insert_2|]. cbn. rewrite fmap_app. cbn. split.
    + apply NoDup_app. split; [done|]. split; [|apply NoDup_singleton].
      intros j Hj ->%list_elem_of_singleton. by apply Hin' in Hj as [_ ?].
    + intros j. rewrite elem_of_app, list_elem_of_singleton, Hin', Hi.
      destruct (decide (id = j)) as [->|]; [rewrite lookup_insert_eq|rewrite lookup_insert_ne by done].
      * split; [by eexists|by right].
      * split; [intros [[? _]|?]; [done|congruence]|intros ?; left; split; congruence].
Qed.

Lemma answered_ok now msg x : conn_ok x -> conn_ok (answered now msg x) /\
  remote_candidate_ (answered now msg x) = remote_candidate_ x.
Proof.
  intros Hx. unfold answered. destruct (StunReq.requests_ (requests_ x) !! transaction_id_ msg) as [r|] eqn:Er; [|done].
  pose proof (proj1 Hx _ _ Er) as [Hid _]. destruct (_ =? _); [|destruct (_ =? _); [|done]].
  - split; [|done]. by eapply forget_ok.
  - split; [by eapply forget_ok|]. unfold refused. cbn. by destruct (recoverable _).
Qed.

Lemma revived_keeps x y : conn_ok x -> requests_ y = requests_ x -> remote_candidate_ y = remote_candidate_ x ->
  conn_ok (revived y) /\ remote_candidate_ (revived y) = remote_candidate_ x.
Proof. intros Hx Er Ec. unfold conn_ok in *. rewrite <- Er in Hx. unfold revived. by destruct (_ && _). Qed.

Section Packets.
Context {B : Type} `{ByteQueue B}.

Lemma packet_ok now frag data x : conn_ok x -> conn_ok (packet_effect (B := B) now frag data x) /\
  remote_candidate_ (packet_effect (B := B) now frag data x) = remote_candidate_ x.
Proof.
  intros Hx. unfold packet_effect. destruct (read_stun _ _) as [| | |msg user]; try done.
  - unfold got_data. destruct (bool_decide _); [|done]. by apply revived_keeps.
  - destruct (bool_decide _); [|done]. destruct (_ =? _); [by apply revived_keeps|by apply answered_ok].
Qed.
End Packets.

Lemma update_ok now x : conn_ok x -> conn_ok (update_state now x) /\ remote_candidate_ (update_state now x) = remote_candidate_ x.
Proof.
  intros Hx. unfold update_state, update_connect, update_writable, update_read.
  by repeat match goal with |- context [if ?b then _ else _] => destruct b end.
Qed.

Lemma pruned_ok x : conn_ok x -> conn_ok (pruned x) /\ remote_candidate_ (pruned x) = remote_candidate_ x.
Proof.
  intros Hx. unfold pruned. destruct (pruned_ x); [done|]. split; [|done]. by apply StunReq.Clear_wf.
Qed.

(** ** Events *)

(** Packets on the socket, deliveries of the thread, and the calls of the
    transport channel that owns the port. *)
Inductive event :=
  | Packet (data : bytes) (addr : SocketAddress)
  | PingTimer (c : ptr) (i : nat)
  | CheckTimer
  | Deletion (c : ptr)
  | CallStart
  | CallPing (c : ptr) (now : Z)
  | CallUpdateState (c : ptr) (now : Z)
  | CallPrune (c : ptr)
  | CallDestroy (c : ptr)
  | CallSend (c : ptr) (data : bytes)
  | CallCreateConnection (candidate : Candidate)
  | CallSendBindingResponse (request : StunMessage) (addr : SocketAddress)
  | CallAddAddress (addr : SocketAddress) (protocol : bytes) (final : bool)
  | CallEnablePortPackets
  | CallRecvBytesSecond (c : ptr)
  | CallSentBytesSecond (c : ptr)
  | CallSendBindingErrorResponse (request : StunMessage) (addr : SocketAddress) (error_code : Z) (reason : bytes).

Section Life.
Context {B : Type} `{ByteQueue B}.
Variable clock : nat -> Z.
Variable random_id : nat -> bytes.
Variable socket_SendTo : nat -> Z.
Variable socket_GetError : nat -> Z.

Definition run_event (e : event) : P unit :=
  match e with
  | Packet data addr => OnReadPacket (B := B) clock socket_SendTo socket_GetError data addr
  | PingTimer c i => request_OnMessage (B := B) clock socket_SendTo socket_GetError c i
  | CheckTimer => modify (fun p => p <| check_posted := false |>);; OnMessage MSG_CHECKTIMEOUT
  | Deletion c => conn_OnMessage c MSG_DELETE
  | CallStart => Start
  | CallPing c now => Ping clock random_id c now
  | CallUpdateState c now => UpdateState c now
  | CallPrune c => Prune c
  | CallDestroy c => conn_Destroy c
  | CallSend c data => Send socket_SendTo socket_GetError c data;; mret tt
  | CallCreateConnection candidate => CreateConnection candidate;; mret tt
  | CallSendBindingResponse request addr =>
      SendBindingResponse (B := B) clock socket_SendTo socket_GetError request addr
  | CallAddAddress addr protocol final => AddAddress addr protocol final
  | CallEnablePortPackets => EnablePortPackets
  | CallRecvBytesSecond c => recv_bytes_second clock c;; mret tt
  | CallSentBytesSecond c => sent_bytes_second clock c;; mret tt
  | CallSendBindingErrorResponse request addr error_code reason =>
      SendBindingErrorResponse (B := B) socket_SendTo socket_GetError request addr error_code reason
  end.

(** What the port relies on: it is not used after it deleted itself, calls name
    live connections, deliveries are of posted messages, a transaction id is
    not outstanding when it is drawn again, the socket does not accept zero
    bytes of a datagram, and there is one connection per remote address. *)
Definition event_ok (e : event) (p : Port) : Prop :=
  destroyed p = false /\
  match e with
  | PingTimer c i => exists x, conn_heap p !! c = Some x /\ is_Some (StunReq.posts (requests_ x) !! i)
  | CheckTimer => check_posted p = true
  | Deletion c => c ∈ deletes p
  | CallPing c _ => exists x, conn_heap p !! c = Some x /\ connected_ x = true /\
      StunReq.requests_ (requests_ x) !! random_id (random_strings p) = None
  | CallUpdateState c _ | CallPrune c | CallDestroy c
  | CallRecvBytesSecond c | CallSentBytesSecond c => is_Some (conn_heap p !! c)
  | CallSend c _ => is_Some (conn_heap p !! c) /\ socket_SendTo (length (sent p)) <> 0
  | CallCreateConnection candidate => map_find (c_address candidate) (connections_ p) = None
  | CallSendBindingResponse request addr => m_type request = STUN_BINDING_REQUEST /\
      is_Some (StunMsg.GetByteString STUN_ATTR_USERNAME request) /\ is_Some (map_find addr (connections_ p))
  | CallSendBindingErrorResponse request _ _ _ => m_type request = STUN_BINDING_REQUEST /\
      is_Some (StunMsg.GetByteString STUN_ATTR_USERNAME request)
  | _ => True
  end.

Inductive reach : Port -> Prop :=
  | reach_make network frag password : frag <> [] -> reach (make network frag password)
  | reach_step p e p' : reach p -> event_ok e p -> run_event e p = Done tt p' -> reach p'.

(** How event [e] of port [p] may change connection [c], from [x] to [x']. *)
Definition changes (e : event) (p : Port) (c : ptr) (x x' : Connection) : Prop :=
  match e with
  | Packet data addr => map_find addr (connections_ p) = Some c /\
      exists now, x' = packet_effect (B := B) now (username_frag_ p) data x
  | PingTimer c' i => c' = c /\ exists now r, x' = fired now i r x
  | CallPing c' now => c' = c /\ exists t, x' = pinged now t (random_id (random_strings p)) (username_frag_ p) x
  | CallUpdateState c' now => c' = c /\ x' = update_state now x
  | CallPrune c' => c' = c /\ x' = pruned x
  | CallDestroy c' => c' = c /\ x' = with_write STATE_WRITE_TIMEOUT (with_read STATE_READ_TIMEOUT x)
  | CallSend c' _ => c' = c /\ exists e r, x' = x <| error_ := e |> <| send_rate_tracker_ := r |>
  | CallSendBindingResponse _ addr => map_find addr (connections_ p) = Some c /\
      exists now, x' = with_read STATE_READABLE (x <| last_ping_received_ := now |>)
  | CallRecvBytesSecond c' | CallSentBytesSecond c' =>
      c' = c /\ exists r s, x' = x <| recv_rate_tracker_ := r |> <| send_rate_tracker_ := s |>
  | _ => False
  end.
Definition evolves (e : event) (p : Port) (c : ptr) (x' : Connection) : Prop :=
  conn_heap p !! c = Some x' \/
  (exists x, conn_heap p !! c = Some x /\ changes e p c x x') \/
  (exists candidate, e = CallCreateConnection candidate /\ x' = new_Connection 0 candidate).

(** The result of an event. *)
Definition follows (e : event) (p p' : Port) : Prop :=
  port_inv p' /\ forall c x', conn_heap p' !! c = Some x' -> evolves e p c x'.

Lemma acts_follows e c f out p p' x : port_inv p -> conn_heap p !! c = Some x -> acts c f out p p' ->
  conn_ok (f x) -> remote_candidate_ (f x) = remote_candidate_ x -> changes e p c x (f x) -> follows e p p'.
Proof.
  intros Hp E A Hok Hr Hch. split; [by eapply acts_inv|]. destruct A as (_ & _ & y & n & Ey & Hh & _).
  rewrite E in Ey. injection Ey as <-. intros c' x'. rewrite Hh. destruct (decide (c' = c)) as [->|Hne].
  - rewrite lookup_insert_eq. intros [= <-]. right. left. by exists x.
  - rewrite lookup_insert_ne by done. intros Ex. by left.
Qed.
Lemma same_follows e p p' : port_inv p -> fixed p' = fixed p -> conn_heap p' = conn_heap p -> deletes p' = deletes p ->
  follows e p p'.
Proof. intros Hp F Hh D. split; [by eapply same_inv|]. intros c x'. rewrite Hh. by left. Qed.

Lemma packet_follows data addr p : port_inv p -> wp (run_event (Packet data addr)) (fun _ => follows (Packet data addr) p) p.
Proof.
  intros Hp. cbn [run_event]. unfold OnReadPacket, GetConnection. apply pwp_bind, wp_gets.
  destruct (map_find addr (connections_ p)) as [c|] eqn:Hf.
  - destruct (pi_key _ Hp _ _ Hf) as (x & E & _). destruct (pi_conn _ Hp _ _ E) as (Hm & _ & Hok & _).
    eapply conn_OnReadPacket_wp; [exact E|apply Hp|exact Hm|]. intros now p' A.
    destruct (packet_ok (B := B) now (username_frag_ p) data x Hok) as [Hok' Hr].
    eapply acts_follows; [done|exact E|exact A|done|done|]. split; [done|by eexists].
  - unfold port_OnReadPacket. apply pwp_bind, pwp_get. destruct (enable_port_packets_ p).
    { apply wp_signal. intros p' (F & _ & Hh & D). by apply same_follows. }
    apply pwp_bind, GetStunMessage_wp; [apply Hp|]. intros p1 F1 H1 D1 _.
    assert (Hs : follows (Packet data addr) p p1) by by apply same_follows.
    destruct (handed _) as [[|] [[msg user]|]]; try by apply pwp_ret.
    destruct (_ =? _); [|by apply pwp_ret]. apply wp_signal. intros p' (F & _ & Hh & D).
    apply same_follows; [done|congruence..].
Qed.

Lemma simple_follows e p : port_inv p -> event_ok e p ->
  match e with
  | PingTimer _ _ | CallPing _ _ | CallUpdateState _ _ | CallPrune _ | CallDestroy _ | CallSend _ _
  | CallRecvBytesSecond _ | CallSentBytesSecond _ =>
      wp (run_event e) (fun _ => follows e p) p
  | _ => True
  end.
Proof.
  intros Hp [_ Hok]. destruct e as [| c i| | | |c now|c now|c|c|c data| | | | |c|c|]; try done; cbn [run_event event_ok] in *.
  - destruct Hok as (x & E & [[due id] Ei]). destruct (pi_conn _ Hp _ _ E) as (_ & _ & Hx & _).
    destruct (proj1 (proj2 (proj2 Hx) id)) as [r Er].
    { apply list_elem_of_fmap. exists (due, id). split; [done|by eapply list_elem_of_lookup_2]. }
    destruct (proj1 Hx _ _ Er) as [Hid _].
    eapply request_OnMessage_wp; [exact E|exact Ei|exact Er|done|]. intros p' A.
    eapply acts_follows; [done|exact E|exact A|by eapply fired_ok|done|]. split; [done|by do 2 eexists].
  - destruct Hok as (x & E & Hc & Hid). destruct (pi_conn _ Hp _ _ E) as (_ & _ & Hx & _).
    eapply Ping_wp; [exact E|done|done|]. intros t p' A.
    eapply acts_follows; [done|exact E|exact A|by apply fresh_ping_ok|done|]. split; [done|by eexists].
  - destruct Hok as (x & E). destruct (pi_conn _ Hp _ _ E) as (_ & _ & Hx & _).
    eapply UpdateState_wp; [exact E|]. intros p' A. destruct (update_ok now x Hx).
    by eapply acts_follows.
  - destruct Hok as (x & E). destruct (pi_conn _ Hp _ _ E) as (_ & _ & Hx & _).
    eapply Prune_wp; [exact E|]. intros p' A. destruct (pruned_ok x Hx). by eapply acts_follows.
  - destruct Hok as (x & E). destruct (pi_conn _ Hp _ _ E) as (_ & _ & Hx & _).
    eapply conn_Destroy_wp; [exact E|]. intros p' A. by eapply acts_follows.
  - destruct Hok as ([x E] & Hn). destruct (pi_conn _ Hp _ _ E) as (_ & _ & Hx & _). apply pwp_bind.
    eapply Send_wp; [exact E|done|]. intros f p' w A (er & rt & Ef). apply pwp_ret.
    eapply acts_follows; [done|exact E|exact A| | |].
    + rewrite Ef. done.
    + by rewrite Ef.
    + split; [done|]. by exists er, rt.
  - destruct Hok as [x E]. destruct (pi_conn _ Hp _ _ E) as (_ & _ & Hx & _). apply pwp_bind.
    refine (proj1 (rates_wp clock c x p _ E _)). intros v r s p' A. apply pwp_ret.
    eapply acts_follows; [done|exact E|exact A|done|done|]. split; [done|by exists r, s].
  - destruct Hok as [x E]. destruct (pi_conn _ Hp _ _ E) as (_ & _ & Hx & _). apply pwp_bind.
    refine (proj2 (rates_wp clock c x p _ E _)). intros v r s p' A. apply pwp_ret.
    eapply acts_follows; [done|exact E|exact A|done|done|]. split; [done|by exists r, s].
Qed.

(** [Port::CheckTimeout]: the port deletes itself exactly when it is useless. *)
Definition useless (p : Port) : bool :=
  bool_decide (lifetime_ p = LT_POSTTIMEOUT) && match connections_ p with [] => true | _ => false end.
Lemma CheckTimeout_wp p (Q : unit -> Port -> Prop) :
  Q tt (if useless p then p <| signals := signals p ++ [SignalDestroyed] |> <| destroyed := true |> else p) -> wp CheckTimeout Q p.
Proof.
  intros Hq. unfold CheckTimeout. apply pwp_bind, pwp_get. change (_ && _) with (useless p).
  destruct (useless p) eqn:Eu; [|by apply pwp_ret]. unfold Destroy.
  apply pwp_bind, pwp_get, pwp_bind, pwp_assert; [by unfold useless in Eu; apply andb_true_iff in Eu as [_ ?]|].
  unfold signal_. by apply pwp_bind, pwp_modify, pwp_modify.
Qed.

Lemma useless_true p : useless p = true <-> lifetime_ p = LT_POSTTIMEOUT /\ connections_ p = [].
Proof.
  unfold useless. rewrite andb_true_iff, bool_decide_eq_true. destruct (connections_ p); by split; intros [? ?].
Qed.

(** The state before the check: the invariant, but for a useless port. *)
Lemma CheckTimeout_inv p p0 : port_inv p0 -> destroyed p = false -> username_frag_ p = username_frag_ p0 ->
  connections_ p = connections_ p0 -> conn_heap p = conn_heap p0 -> deletes p = deletes p0 -> next_ptr p = next_ptr p0 ->
  (check_posted p = true <-> lifetime_ p = LT_PRETIMEOUT) ->
  wp CheckTimeout (fun _ p' => port_inv p' /\ conn_heap p' = conn_heap p /\ steady p' = steady p /\
    signals p' = signals p ++ (if destroyed p' then [SignalDestroyed] else [])) p.
Proof.
  intros Hp Hd E1 E2 E3 E4 E5 Ht. apply CheckTimeout_wp.
  assert (Hb : forall q, username_frag_ q = username_frag_ p -> connections_ q = connections_ p -> conn_heap q = conn_heap p ->
    deletes q = deletes p -> next_ptr q = next_ptr p -> check_posted q = check_posted p -> lifetime_ q = lifetime_ p ->
    destroyed q = useless p -> port_inv q).
  { intros q F1 F2 F3 F4 F5 F6 F7 F8.
    split; rewrite ?F1, ?F2, ?F3, ?F4, ?F5, ?F6, ?F7, ?F8, ?E1, ?E2, ?E3, ?E4, ?E5; try apply Hp; [done|].
    rewrite <- E2. apply useless_true. }
  destruct (useless p) eqn:Eu; (split; [|split; [done|split; [done|]]]); [by apply Hb|done|by apply Hb|].
  by rewrite Hd, app_nil_r.
Qed.

Lemma check_follows p : port_inv p -> event_ok CheckTimer p ->
  wp (run_event CheckTimer) (fun _ p' => follows CheckTimer p p' /\ conn_heap p' = conn_heap p /\ steady p' = steady p /\
    signals p' = signals p ++ (if destroyed p' then [SignalDestroyed] else [])) p.
Proof.
  intros Hp [Hd Hc]. cbn [run_event]. unfold OnMessage.
  apply pwp_bind, pwp_modify, pwp_bind, pwp_assert; [done|]. apply pwp_bind, pwp_get, pwp_bind, pwp_assert.
  { apply bool_decide_eq_true. by apply (pi_timer _ Hp). }
  apply pwp_bind, pwp_modify. match goal with |- wp _ _ ?q => set (p1 := q) end.
  wp_apply (CheckTimeout_inv p1 p); try done.
  intros _ p' (Hp' & Hh & Hs & Hg). split; [|done]. split; [done|]. intros c x'. rewrite Hh. by left.
Qed.

Lemma delete_follows c p : port_inv p -> event_ok (Deletion c) p ->
  wp (run_event (Deletion c)) (fun _ p' => follows (Deletion c) p p' /\ conn_heap p' = base.delete c (conn_heap p) /\
    lifetime_ p' = lifetime_ p /\ (c ∉ deletes p') /\ steady p' = steady p /\
    signals p' = signals p ++ SignalConnectionDestroyed c :: (if destroyed p' then [SignalDestroyed] else [])) p.
Proof.
  intros Hp [Hd Hc]. destruct (pi_deletes _ Hp _ Hc) as [x E]. destruct (pi_conn _ Hp _ _ E) as (Hm & Hlt & Hok & _).
  cbn [run_event]. unfold conn_OnMessage. apply pwp_bind, pwp_assert; [done|]. apply pwp_bind. eapply wp_conn; [exact E|].
  apply pwp_bind. unfold signal_. apply pwp_modify. apply pwp_bind. unfold OnConnectionDestroyed.
  apply pwp_bind. eapply wp_conn; [exact E|]. apply pwp_bind, pwp_get, pwp_bind, pwp_assert.
  { change (connections_ _) with (connections_ p). by rewrite Hm. }
  apply pwp_bind, pwp_modify.
  match goal with |- wp _ _ ?q => set (p1 := q) end.
  assert (F : username_frag_ p1 = username_frag_ p /\ connections_ p1 = map_erase (c_address (remote_candidate_ x)) (connections_ p) /\
    conn_heap p1 = conn_heap p /\ deletes p1 = deletes p /\ next_ptr p1 = next_ptr p /\ check_posted p1 = check_posted p /\
    lifetime_ p1 = lifetime_ p /\ destroyed p1 = false /\ steady p1 = steady p /\
    signals p1 = signals p ++ [SignalConnectionDestroyed c]) by done.
  clearbody p1. destruct F as (F1 & F2 & F3 & F4 & F5 & F6 & F7 & F8 & F9 & F10). apply CheckTimeout_wp. apply pwp_modify.
  assert (Hb : forall q, username_frag_ q = username_frag_ p1 -> connections_ q = connections_ p1 ->
    conn_heap q = base.delete c (conn_heap p1) -> deletes q = List.filter (fun d => negb (d =? c)%nat) (deletes p1) ->
    next_ptr q = next_ptr p1 -> check_posted q = check_posted p1 -> lifetime_ q = lifetime_ p1 -> destroyed q = useless p1 ->
    steady q = steady p1 -> signals q = signals p1 ++ (if destroyed q then [SignalDestroyed] else []) ->
    follows (Deletion c) p q /\ conn_heap q = base.delete c (conn_heap p) /\ lifetime_ q = lifetime_ p /\ (c ∉ deletes q) /\ steady q = steady p /\
    signals q = signals p ++ SignalConnectionDestroyed c :: (if destroyed q then [SignalDestroyed] else [])).
  { intros q G1 G2 G3 G4 G5 G6 G7 G8 G9 G10.
    assert (Gd : forall d, d ∈ deletes q <-> d ∈ deletes p /\ d <> c).
    { intros d. rewrite G4, F4, !list_elem_of_In, List.filter_In, negb_true_iff, Nat.eqb_neq. done. }
    split; [split|split_and!; [by rewrite G3, F3|by rewrite G7, F7|by intros [_ ?]%Gd|congruence|by rewrite G10, F10, <- app_assoc]].
    - split; rewrite ?G1, ?G2, ?G3, ?G5, ?G6, ?G7, ?G8, ?F1, ?F2, ?F3, ?F5, ?F6, ?F7; try apply Hp.
      + intros a c'. rewrite map_find_erase. destruct (key_same a _) eqn:Es; [done|]. intros Hf.
        destruct (pi_key _ Hp _ _ Hf) as (y & Ey & Ek). exists y. rewrite lookup_delete_ne; [done|].
        intros <-. rewrite E in Ey. injection Ey as <-. congruence.
      + intros c' y. destruct (decide (c' = c)) as [->|Hne]; [by rewrite lookup_delete_eq|]. rewrite lookup_delete_ne by done.
        intros Ey. destruct (pi_conn _ Hp _ _ Ey) as (Hm' & ? & ? & Hdl). split_and!; [|done|done|].
        * rewrite map_find_erase. destruct (key_same _ _) eqn:Es; [|done].
          rewrite (map_find_same _ _ _ Es), Hm in Hm'. congruence.
        * intros Hy. apply Gd. split; [by apply Hdl|done].
      + intros d [Hin Hne]%Gd. rewrite lookup_delete_ne by done. by apply (pi_deletes _ Hp).
      + destruct (pi_values _ Hp) as [Hn Hl]. destruct (map_erase_values _ _ _ Hn Hm) as [Hn' Hv]. split; [done|].
        intros d [Hin Hne]%Hv. rewrite lookup_delete_ne by done. by apply Hl.
      + rewrite <- F2, <- F7. apply useless_true.
    - intros c' x'. rewrite G3, F3, lookup_delete_Some. intros [_ ?]. by left. }
  destruct (useless p1) eqn:Eu; apply Hb; try done. change (signals p1 = signals p1 ++ (if destroyed p1 then [SignalDestroyed] else [])). by rewrite F8, app_nil_r.
Qed.

Lemma CreateConnection_wp candidate p : port_inv p -> destroyed p = false ->
  map_find (c_address candidate) (connections_ p) = None ->
  wp (CreateConnection candidate) (fun o p' => port_inv p' /\ steady p' = steady p /\ destroyed p' = false /\
    (c_protocol candidate = str "udp" -> o <> None) /\
    match o with
    | None => p' = p
    | Some c => conn_heap p !! c = None /\ conn_heap p' = <[c := new_Connection 0 candidate]> (conn_heap p) /\
        map_find (c_address candidate) (connections_ p') = Some c /\
        signals p' = signals p ++ [SignalConnectionCreated c] /\ random_strings p' = random_strings p
    end) p.
Proof.
  intros Hp Hd Hm. unfold CreateConnection.
  destruct (bool_decide (c_protocol candidate = str "udp")) eqn:Eproto; cbn [negb].
  2: { apply bool_decide_eq_false in Eproto. apply pwp_ret. split_and!; try done. }
  apply pwp_bind, pwp_get, pwp_bind, pwp_modify, pwp_bind. unfold AddConnection.
  set (c := next_ptr p). set (x := new_Connection 0 candidate). apply pwp_bind.
  eapply wp_conn; [by apply lookup_insert_eq|]. unfold signal_. apply pwp_bind, pwp_modify, pwp_modify, pwp_ret.
  match goal with |- port_inv ?q /\ _ => set (p1 := q) end.
  assert (F : username_frag_ p1 = username_frag_ p /\ connections_ p1 = map_set (c_address candidate) c (connections_ p) /\
    conn_heap p1 = <[c := x]> (conn_heap p) /\ deletes p1 = deletes p /\ next_ptr p1 = S (next_ptr p) /\
    check_posted p1 = check_posted p /\ lifetime_ p1 = lifetime_ p /\ destroyed p1 = destroyed p /\ steady p1 = steady p /\
    signals p1 = signals p ++ [SignalConnectionCreated c] /\ random_strings p1 = random_strings p) by done.
  clearbody p1. destruct F as (F1 & F2 & F3 & F4 & F5 & F6 & F7 & F8 & F9 & F10 & F11).
  assert (Hfound : map_find (c_address candidate) (connections_ p1) = Some c) by by rewrite F2, map_find_set, key_same_refl.
  assert (Hlt : forall c' y, conn_heap p !! c' = Some y -> c' <> c).
  { intros c' y Ey ->. destruct (pi_conn _ Hp _ _ Ey) as (_ & Hl & _). unfold c in Hl. lia. }
  assert (Hfresh : conn_heap p !! c = None).
  { destruct (conn_heap p !! c) as [y|] eqn:Ey; [|done]. by destruct (Hlt _ _ Ey). }
  split; [|split_and!; [done|congruence|done|done|done|done|done|done]].
  split; rewrite ?F1, ?F3, ?F4, ?F5, ?F6, ?F7, ?F8; try apply Hp; try done.
  - intros a c'. rewrite F2, map_find_set. destruct (key_same a (c_address candidate)) eqn:Es.
    + intros [= <-]. exists x. by rewrite lookup_insert_eq.
    + intros Hf. destruct (pi_key _ Hp _ _ Hf) as (y & Ey & Ek). exists y.
      rewrite lookup_insert_ne; [done|]. by apply not_eq_sym, (Hlt _ y).
  - intros c' y. destruct (decide (c' = c)) as [->|Hn].
    + rewrite lookup_insert_eq. intros [= <-]. cbn [new_Connection remote_candidate_ x].
      split_and!; [done|unfold c; lia|apply new_connection_ok|by intros [_ ?]].
    + rewrite lookup_insert_ne by done. intros Ey. destruct (pi_conn _ Hp _ _ Ey) as (Hm' & ? & ? & ?).
      rewrite F2, map_find_set. destruct (key_same _ _) eqn:Es; [|split_and!; [done|lia|done|done]].
      rewrite (map_find_same _ _ _ Es) in Hm'. congruence.
  - intros d Hin. destruct (pi_deletes _ Hp _ Hin) as [y Ey]. pose proof (Hlt _ _ Ey). rewrite lookup_insert_ne by done. by exists y.
  - destruct (pi_values _ Hp) as [Hn Hl]. rewrite F2. pose proof (map_set_values _ c _ Hm) as Hv. split.
    + rewrite Hv. constructor; [|done]. intros [y Ey]%Hl. congruence.
    + intros d. rewrite Hv. intros [->|Hin]%elem_of_cons; [by rewrite lookup_insert_eq|]. apply lookup_insert_is_Some'. right. by apply Hl.
  - split; [congruence|]. intros [_ He]. by rewrite He in Hfound.
Qed.

Lemma create_follows candidate p : port_inv p -> event_ok (CallCreateConnection candidate) p ->
  wp (run_event (CallCreateConnection candidate)) (fun _ => follows (CallCreateConnection candidate) p) p.
Proof.
  intros Hp [Hd Hm]. cbn [run_event]. apply pwp_bind. wp_apply CreateConnection_wp; [done..|].
  intros [c|] p' (Hp' & _ & _ & _ & Hc); apply pwp_ret; [|subst p'; split; [done|by left]].
  split; [done|]. intros c' x'. destruct Hc as (_ & -> & _). destruct (decide (c' = c)) as [->|Hn].
  - rewrite lookup_insert_eq. intros [= <-]. right. right. by exists candidate.
  - rewrite lookup_insert_ne by done. by left.
Qed.

Lemma other_follows e p : port_inv p -> event_ok e p ->
  match e with
  | CallStart | CallSendBindingResponse _ _ | CallAddAddress _ _ _ | CallEnablePortPackets
  | CallSendBindingErrorResponse _ _ _ _ =>
      wp (run_event e) (fun _ => follows e p) p
  | _ => True
  end.
Proof.
  intros Hp [Hd Hok]. destruct e as [| | | | | | | | | | |request addr|addr proto final| | | |request addr code reason]; try done; cbn [run_event] in *.
  - unfold Start. apply pwp_bind, pwp_get. destruct (bool_decide (lifetime_ p = LT_PRESTART)) eqn:El; [|by apply pwp_ret, same_follows].
    apply bool_decide_eq_true in El. apply pwp_modify. split; [|intros c x'; by left].
    split; cbn; try apply Hp; try done. split; [congruence|by intros [? _]].
  - destruct Hok as (Ht & [a Ea] & [c Hc]). unfold SendBindingResponse.
    apply pwp_bind, pwp_assert; [by apply Z.eqb_eq|]. rewrite Ea. destruct (pi_key _ Hp _ _ Hc) as (x & E & _).
    destruct (pi_conn _ Hp _ _ E) as (_ & _ & Hx & _).
    apply pwp_bind. eapply SendTo_acts; [exact E|]. intros p1 A1. unfold GetConnection. apply pwp_bind, wp_gets.
    destruct (fixed_frag _ _ (proj1 A1)) as [_ ->]. rewrite Hc.
    eapply ReceivedPing_wp; [by eapply acts_heap|]. intros now p2 A2.
    eapply acts_follows; [done|exact E|exact (acts_trans _ _ _ _ _ _ _ _ A1 A2)|done|done|].
    split; [done|by eexists].
  - unfold AddAddress. apply pwp_bind, pwp_modify. match goal with |- wp _ _ ?q => set (p1 := q) end.
    assert (Hs : follows (CallAddAddress addr proto final) p p1).
    { split; [|intros c x'; by left]. split; cbn; apply Hp. }
    destruct final; [|by apply pwp_ret]. unfold signal_. apply pwp_modify. split; [|intros c x'; by left].
    split; cbn; apply Hp.
  - unfold EnablePortPackets. apply pwp_modify. split; [|intros c x'; by left]. split; cbn; apply Hp.
  - destruct Hok as (Ht & [a Ea]). unfold SendBindingErrorResponse. apply pwp_bind, pwp_assert; [by apply Z.eqb_eq|].
    rewrite Ea. apply pwp_bind, SendTo_wp. intros p' F _ Hh D. by apply pwp_ret, same_follows.
Qed.

Lemma event_follows e p : port_inv p -> event_ok e p -> wp (run_event e) (fun _ => follows e p) p.
Proof.
  intros Hp Hok. pose proof (simple_follows e p Hp Hok) as H1. pose proof (other_follows e p Hp Hok) as H2.
  destruct e; try done; [by apply packet_follows|by eapply pwp_mono; [by apply check_follows|intros _ ? [? _]]| |by apply create_follows].
  eapply pwp_mono; [by apply delete_follows|]. by intros _ ? [? _].
Qed.

Lemma port_reach_inv p : reach p -> port_inv p.
Proof.
  induction 1 as [|p e p' _ IH Hok Hrun]; [by apply port_make_inv|].
  pose proof (event_follows e p IH Hok) as Hw. unfold wp in Hw. rewrite Hrun in Hw. by destruct Hw.
Qed.
End Life.
