(* ===== verification/PortProps.v ===== *)
(** * Properties of ports and connections

    Who can make a connection writable or readable, the timeouts, the deletion
    of connections and of the port, and a whole ping between two ports. *)

From S2P Require Import Prelude TimeUtil ByteOrder ByteBuffer SocketAddress StdMap Stun StunFacts StunServer StunMessages StunRequest Effects Port PortRuns PortFacts.
From Stdlib Require Import SpecFloat.
#[local] Open Scope jingle_scope.
Import StunAttributeBase Port.
#[local] Set Default Proof Using "Type*".

(** ** What a packet says *)

Section Reading.
Context {B : Type} `{ByteQueueLaws B}.

(** [data] is exactly the message [msg], whose username joins the fragment of
    the port and that of its peer, the receiver's of a request first. *)
Definition from_peer (frag user data : bytes) (msg : StunMessage) : Prop :=
  exists b a, StunMsg.Read (B := B) (StunMsg.make, q_of data) = (true, (msg, b)) /\ q_contents b = [] /\
    StunMsg.GetByteString STUN_ATTR_USERNAME msg = Some a /\
    attr_bytes a = if m_type msg =? STUN_BINDING_REQUEST then frag ++ user else user ++ frag.

Lemma read_empty data msg b : StunMsg.Read (B := B) (StunMsg.make, q_of data) = (true, (msg, b)) ->
  q_length b = length (q_contents b).
Proof.
  intros HR. destruct (q_of_spec data) as [Hok _].
  destruct (Read_sound _ _ _ _ Hok HR) as (_ & _ & _ & _ & _ & _ & (Hb & _) & _). by apply q_length_spec.
Qed.

Lemma read_stun_sound frag data msg user : read_stun (B := B) frag data = FromPeer msg user -> from_peer frag user data msg.
Proof.
  unfold read_stun. destruct (StunMsg.Read _) as [ok [m b]] eqn:HR.
  destruct ok; cbn [negb orb]; [|done]. destruct (Nat.ltb_spec 0 (q_length b)) as [|Hb]; [done|].
  rewrite (read_empty _ _ _ HR) in Hb. assert (Eb : q_contents b = []) by (apply nil_length_inv; lia).
  destruct (StunMsg.GetByteString _ m) as [a|] eqn:Ea; [|done]. destruct (_ <? _); [done|].
  assert (Hf : forall u, attr_bytes a = (if m_type m =? STUN_BINDING_REQUEST then frag ++ u else u ++ frag) -> from_peer frag u data m).
  { intros u Hu. by exists b, a. }
  destruct (m_type m =? STUN_BINDING_REQUEST).
  { case_bool_decide as Ht; [|done]. intros [= <- <-]. apply Hf. rewrite <- Ht at 1. by rewrite take_drop. }
  set (n := Z.to_nat _). assert (Hd : drop n (attr_bytes a) = frag -> from_peer frag (take n (attr_bytes a)) data m).
  { intros Hd. apply Hf. rewrite <- Hd at 1. by rewrite take_drop. }
  destruct (_ =? STUN_BINDING_RESPONSE); [case_bool_decide; [|done]; intros [= <- <-]; by apply Hd|].
  destruct (_ =? STUN_BINDING_ERROR_RESPONSE); [|done]. case_bool_decide; [|done].
  destruct (StunMsg.GetErrorCode m); [|done]. intros [= <- <-]. by apply Hd.
Qed.

(** A decoded message with a username of the right fragments is handed over. *)
Definition username_attr (s : bytes) : StunAttribute :=
  mkAttr STUN_ATTR_USERNAME (Z.of_nat (length s)) (BByteString (Some s)).

Lemma read_stun_complete frag user data msg :
  decodes (B := B) data msg ->
  m_type msg = STUN_BINDING_REQUEST \/ m_type msg = STUN_BINDING_RESPONSE ->
  StunMsg.GetByteString STUN_ATTR_USERNAME msg =
    Some (username_attr (if m_type msg =? STUN_BINDING_REQUEST then frag ++ user else user ++ frag)) ->
  read_stun (B := B) frag data = FromPeer msg user.
Proof.
  intros Hd Ht Ea. unfold read_stun. destruct (Hd StunMsg.make) as (b & HR & Eb). pose proof (read_empty _ _ _ HR) as El.
  rewrite HR, El, Eb, Ea. cbn [negb orb length Nat.ltb Nat.leb username_attr length_].
  assert (Hs : forall s, attr_bytes (username_attr s) = s).
  { intros s. unfold attr_bytes, username_attr. cbn. by rewrite Nat2Z.id, take_ge. }
  rewrite Hs. destruct Ht as [Ht|Ht]; rewrite Ht.
  - change (STUN_BINDING_REQUEST =? STUN_BINDING_REQUEST) with true. cbv iota.
    rewrite length_app. destruct (Z.ltb_spec (Z.of_nat (length frag + length user)) (Z.of_nat (length frag))); [lia|].
    rewrite take_app_length, drop_app_length. by rewrite bool_decide_true.
  - change (STUN_BINDING_RESPONSE =? STUN_BINDING_REQUEST) with false. cbv iota.
    rewrite length_app. destruct (Z.ltb_spec (Z.of_nat (length user + length frag)) (Z.of_nat (length frag))); [lia|].
    change (STUN_BINDING_RESPONSE =? STUN_BINDING_RESPONSE) with true. cbv iota.
    replace (Z.to_nat _) with (length user) by lia.
    rewrite take_app_length, drop_app_length. by rewrite bool_decide_true.
Qed.

(** ** The messages of a ping *)

Definition ping_message (id username : bytes) : StunMessage := StunReq.msg_ (ping_request id username).
Definition pong_message (id username : bytes) (addr : SocketAddress) : StunMessage :=
  binding_response (ping_message id username) (username_attr username) addr.

Lemma username_attr_wf s : Z.of_nat (length s) mod 4 = 0 -> Z.of_nat (length s) < 65536 ->
  bytes_attr STUN_ATTR_USERNAME s (Z.of_nat (length s)) = username_attr s /\ attr_wf (username_attr s).
Proof.
  intros H4 Hl. destruct (bytes_attr_wf STUN_ATTR_USERNAME s) as [E Hw]; [done|done|done|done|].
  split; [done|]. by rewrite E in Hw.
Qed.

Section Messages.
Variables (id username : bytes) (addr : SocketAddress).
Hypothesis Hid : length id = 12%nat.
Hypothesis H4 : Z.of_nat (length username) mod 4 = 0.
Hypothesis Hlen : Z.of_nat (length username) < 60000.
Hypothesis Haddr : is_u16 (sa_port addr) /\ is_u32 (sa_ip addr).

Lemma ping_message_decodes : decodes (B := B) (stun_bytes (B := B) (ping_message id username)) (ping_message id username).
Proof.
  apply stun_bytes_decodes. destruct (username_attr_wf username H4 ltac:(lia)) as [E Hw].
  change (ping_message id username) with (StunMsg.AddAttribute (bytes_attr STUN_ATTR_USERNAME username (Z.of_nat (length username)))
    (StunMsg.SetTransactionID id (StunMsg.SetType STUN_BINDING_REQUEST StunMsg.make))).
  rewrite E. apply AddAttribute_wf; [apply StunSrv.make_wf; [done|by left]|done|cbn; lia].
Qed.
Lemma ping_message_user : StunMsg.GetByteString STUN_ATTR_USERNAME (ping_message id username) = Some (username_attr username).
Proof. destruct (username_attr_wf username H4 ltac:(lia)) as [E _]. by rewrite <- E. Qed.

Lemma pong_message_eq : pong_message id username addr =
  StunMsg.AddAttribute (StunSrv.address_attr STUN_ATTR_MAPPED_ADDRESS (sa_port addr) (sa_ip addr))
    (StunMsg.AddAttribute (username_attr username)
      (StunMsg.SetTransactionID id (StunMsg.SetType STUN_BINDING_RESPONSE StunMsg.make))).
Proof.
  destruct (username_attr_wf username H4 ltac:(lia)) as [E _]. unfold pong_message, binding_response.
  assert (Ea : attr_bytes (username_attr username) = username).
  { unfold attr_bytes, username_attr. cbn. by rewrite Nat2Z.id, take_ge. }
  rewrite Ea. change (length_ (username_attr username)) with (Z.of_nat (length username)). by rewrite E.
Qed.
Lemma pong_message_decodes :
  decodes (B := B) (stun_bytes (B := B) (pong_message id username addr)) (pong_message id username addr).
Proof.
  apply stun_bytes_decodes. destruct (username_attr_wf username H4 ltac:(lia)) as [_ Hw]. rewrite pong_message_eq.
  destruct Haddr. apply AddAttribute_wf; [|by apply StunSrv.address_attr_wf|].
  - apply AddAttribute_wf; [apply StunSrv.make_wf; [done|by left]|done|cbn; lia].
  - cbn [StunMsg.AddAttribute m_length]. cbn. rewrite u16_small by (unfold is_u16; lia). unfold StunAddressAttribute.SIZE. lia.
Qed.
Lemma pong_message_user : StunMsg.GetByteString STUN_ATTR_USERNAME (pong_message id username addr) = Some (username_attr username).
Proof. by rewrite pong_message_eq. Qed.
End Messages.
End Reading.

(** ** A whole ping *)

Section Events.
Context {B : Type} `{ByteQueueLaws B}.
Variable clock : nat -> Z.
Variable random_id : nat -> bytes.
Variable socket_SendTo : nat -> Z.
Variable socket_GetError : nat -> Z.
#[local] Abbreviation runs := (run_event (B := B) clock random_id socket_SendTo socket_GetError).

(** The outcome of an event on connection [c]: what it becomes, and what is sent. *)
Definition becomes (e : event) (p : Port) (c : ptr) (x' : Connection) (out : list (bytes * SocketAddress)) (p' : Port) : Prop :=
  runs e p = Done tt p' /\ fixed p' = fixed p /\ conn_heap p' !! c = Some x' /\ sent p' = sent p ++ out.

Lemma acts_becomes e p c x : conn_heap p !! c = Some x ->
  forall f out, (forall Q : unit -> Port -> Prop, (forall p', acts c f out p p' -> Q tt p') -> wp (runs e) Q p) ->
  exists p', becomes e p c (f x) out p'.
Proof.
  intros E f out Hw. destruct (wp_total _ _ _ (Hw (fun _ => acts c f out p) ltac:(done))) as ([] & p' & Er & A).
  exists p'. split_and!; [done|apply A|by eapply acts_heap|apply A].
Qed.

(** A packet from the address of connection [c] reaches it. *)
Lemma packet_becomes data addr p c x : conn_heap p !! c = Some x -> username_frag_ p <> [] ->
  map_find addr (connections_ p) = Some c -> map_find (c_address (remote_candidate_ x)) (connections_ p) = Some c ->
  exists now p', becomes (Packet data addr) p c (packet_effect (B := B) now (username_frag_ p) data x)
    (packet_answer (B := B) (username_frag_ p) data x) p'.
Proof.
  intros E Hf Ha Hm.
  assert (Hw : wp (runs (Packet data addr)) (fun _ p' => exists now,
    acts c (packet_effect (B := B) now (username_frag_ p) data) (packet_answer (B := B) (username_frag_ p) data x) p p') p).
  { cbn [run_event]. unfold OnReadPacket, GetConnection. apply pwp_bind, wp_gets. rewrite Ha.
    eapply conn_OnReadPacket_wp; [exact E|done|done|]. intros now p' A. by exists now. }
  destruct (wp_total _ _ _ Hw) as ([] & p' & Er & now & A). exists now, p'.
  split_and!; [done|apply A|by eapply acts_heap|apply A].
Qed.
End Events.

Section Exchange.
Context {B : Type} `{ByteQueueLaws B}.
#[local] Abbreviation user pa pb := (username_frag_ pb ++ username_frag_ pa).

(** What the messages of a ping from [pa] do to the connections at both ends. *)
Lemma ping_effect now pa pb xb id :
  length id = 12%nat -> Z.of_nat (length (user pa pb)) mod 4 = 0 -> Z.of_nat (length (user pa pb)) < 60000 ->
  c_username (remote_candidate_ xb) = username_frag_ pa ->
  let ping := stun_bytes (B := B) (ping_message id (user pa pb)) in
  packet_effect (B := B) now (username_frag_ pb) ping xb = got_ping now xb /\
  packet_answer (B := B) (username_frag_ pb) ping xb =
    [(stun_bytes (B := B) (pong_message id (user pa pb) (c_address (remote_candidate_ xb))), c_address (remote_candidate_ xb))].
Proof.
  intros Hid H4 Hl Hu ping. unfold packet_effect, packet_answer.
  rewrite (read_stun_complete _ (username_frag_ pa) _ (ping_message id (user pa pb)));
    [|by apply ping_message_decodes|by left|by apply ping_message_user].
  rewrite ping_message_user by done. change (m_type (ping_message id (user pa pb)) =? STUN_BINDING_REQUEST) with true.
  cbv iota. by rewrite Hu, bool_decide_true.
Qed.

Lemma pong_effect now pa pb xa id addr r :
  length id = 12%nat -> Z.of_nat (length (user pa pb)) mod 4 = 0 -> Z.of_nat (length (user pa pb)) < 60000 ->
  is_u16 (sa_port addr) /\ is_u32 (sa_ip addr) ->
  c_username (remote_candidate_ xa) = username_frag_ pb ->
  StunReq.requests_ (requests_ xa) !! id = Some r -> m_type (StunReq.msg_ r) = STUN_BINDING_REQUEST -> StunReq.id_ r = id ->
  packet_effect (B := B) now (username_frag_ pa) (stun_bytes (B := B) (pong_message id (user pa pb) addr)) xa =
    with_requests (StunReq.delete_request id (requests_ xa)) (responded now r xa).
Proof.
  intros Hid H4 Hl Ha Hu Er Ht Hi. unfold packet_effect.
  rewrite (read_stun_complete _ (username_frag_ pb) _ (pong_message id (user pa pb) addr));
    [|by apply pong_message_decodes|by right|by apply pong_message_user].
  rewrite Hu, bool_decide_true by done.
  change (m_type (pong_message id (user pa pb) addr) =? STUN_BINDING_REQUEST) with false. cbv iota. unfold answered.
  change (transaction_id_ (pong_message id (user pa pb) addr)) with id. rewrite Er, Ht, Hi. done.
Qed.

Lemma forgotten id m r : StunReq.requests_ m !! id = Some r -> StunReq.requests_ (StunReq.delete_request id m) !! id = None.
Proof using. destruct m as [rs ps]. intros E. rewrite (StunReq.delete_request_spec _ _ _ _ E). apply lookup_delete_eq. Qed.

Variables clockA clockB : nat -> Z.
Variables randomA randomB : nat -> bytes.
Variables sendA sendB errorA errorB : nat -> Z.
#[local] Abbreviation reachA := (reach (B := B) clockA randomA sendA errorA).
#[local] Abbreviation reachB := (reach (B := B) clockB randomB sendB errorB).
#[local] Abbreviation runA := (run_event (B := B) clockA randomA sendA errorA).
#[local] Abbreviation runB := (run_event (B := B) clockB randomB sendB errorB).

(** C9. A whole ping between two ports that know each other's usernames: the
    ping of one connection is sent when its message is delivered; its bytes,
    arriving from the address the other side knows, make the other connection
    readable and are answered; and the bytes of the answer make the pinging
    connection writable, with no ping left unanswered and the request
    forgotten.  The two sides share no state, only the bytes. *)
Theorem ping_exchange pa pb ca cb xa xb now : let id := randomA (random_strings pa) in
  reachA pa -> reachB pb ->
  conn_heap pa !! ca = Some xa -> conn_heap pb !! cb = Some xb ->
  connected_ xa = true -> StunReq.requests_ (requests_ xa) !! id = None -> length id = 12%nat ->
  c_username (remote_candidate_ xa) = username_frag_ pb -> c_username (remote_candidate_ xb) = username_frag_ pa ->
  Z.of_nat (length (user pa pb)) mod 4 = 0 -> Z.of_nat (length (user pa pb)) < 60000 ->
  is_u16 (sa_port (c_address (remote_candidate_ xb))) /\ is_u32 (sa_ip (c_address (remote_candidate_ xb))) ->
  exists pa1 pa2 pa3 pb1 xa' xb' ping pong,
    runA (CallPing ca now) pa = Done tt pa1 /\
    runA (PingTimer ca (length (StunReq.posts (requests_ xa)))) pa1 = Done tt pa2 /\
    sent pa2 = sent pa ++ [(ping, c_address (remote_candidate_ xa))] /\
    runB (Packet ping (c_address (remote_candidate_ xb))) pb = Done tt pb1 /\
    conn_heap pb1 !! cb = Some xb' /\ read_state_ xb' = STATE_READABLE /\
    sent pb1 = sent pb ++ [(pong, c_address (remote_candidate_ xb))] /\
    runA (Packet pong (c_address (remote_candidate_ xa))) pa2 = Done tt pa3 /\
    conn_heap pa3 !! ca = Some xa' /\ write_state_ xa' = STATE_WRITABLE /\
    pings_since_last_response_ xa' = [] /\ StunReq.requests_ (requests_ xa') !! id = None.
Proof.
  intros id Ha%port_reach_inv Hb%port_reach_inv Ea Eb Hc Hn Hid Hua Hub H4 Hl Hr.
  destruct (pi_conn _ Ha _ _ Ea) as (Hma & _). destruct (pi_conn _ Hb _ _ Eb) as (Hmb & _).
  set (u := user pa pb) in *. set (req := ping_request id u).
  assert (W1 : exists t pa1, becomes (B := B) clockA randomA sendA errorA (CallPing ca now) pa ca (pinged now t id (username_frag_ pa) xa) [] pa1).
  { destruct (wp_total _ _ _ (Ping_wp clockA randomA ca xa now pa (fun _ p' => exists t,
      acts ca (pinged now t id (username_frag_ pa)) [] pa p') Ea Hc Hn ltac:(intros t p' A; by exists t))) as ([] & p' & E & t & A).
    exists t, p'. split_and!; [done|apply A|by eapply acts_heap|apply A]. }
  destruct W1 as (t & pa1 & R1 & F1 & E1 & S1). set (x1 := pinged now t id (username_frag_ pa) xa) in *.
  assert (Er : StunReq.requests_ (requests_ x1) !! id = Some req).
  { unfold x1, pinged, req, u. cbn. rewrite Hua. apply lookup_insert_eq. }
  assert (Ei : StunReq.posts (requests_ x1) !! length (StunReq.posts (requests_ xa)) = Some (t + 0, id)).
  { unfold x1, pinged. cbn. by apply list_lookup_middle. }
  set (i := length (StunReq.posts (requests_ xa))) in *.
  destruct (acts_becomes clockA randomA sendA errorA (PingTimer ca i) pa1 ca x1 E1 _ _
    (fun Q => request_OnMessage_wp clockA sendA errorA ca x1 i _ id req pa1 Q E1 Ei Er eq_refl)) as (pa2 & R2 & F2 & E2 & S2).
  set (x2 := fired (clockA (ticks pa1)) i req x1) in *.
  assert (Er2 : StunReq.requests_ (requests_ x2) !! id =
    Some (StunReq.mkRequest 0 true id (ping_message id u) (u32 (clockA (ticks pa1))))).
  { unfold x2, fired. cbn. apply lookup_insert_eq. }
  destruct (fixed_fields _ _ (eq_trans F2 F1)) as (U2 & C2 & _).
  destruct (packet_becomes clockB randomB sendB errorB (stun_bytes (B := B) (ping_message id u)) (c_address (remote_candidate_ xb))
    pb cb xb Eb (pi_frag _ Hb) Hmb Hmb) as (nowB & pb1 & R3 & F3 & E3 & S3).
  destruct (ping_effect nowB pa pb xb id Hid H4 Hl Hub) as [P1 P2]. fold u in P1, P2. rewrite P1 in E3. rewrite P2 in S3.
  destruct (packet_becomes clockA randomA sendA errorA (stun_bytes (B := B) (pong_message id u (c_address (remote_candidate_ xb))))
    (c_address (remote_candidate_ xa)) pa2 ca x2 E2) as (nowA & pa3 & R4 & F4 & E4 & S4);
    [rewrite U2; apply Ha|by rewrite C2|by rewrite C2|].
  pose proof (pong_effect nowA pa pb x2 id _ _ Hid H4 Hl Hr Hua Er2 eq_refl eq_refl) as P4. fold u in P4. rewrite U2, P4 in E4.
  exists pa1, pa2, pa3, pb1. do 4 eexists. split_and!; [exact R1|exact R2| |exact R3|exact E3| |exact S3|exact R4|exact E4|done|done|].
  - rewrite S2, S1, app_nil_r. done.
  - unfold got_ping, revived. by destruct (_ && _).
  - exact (forgotten id _ _ Er2).
Qed.
End Exchange.

(** ** The write state of [UpdateState] *)

(** The next state when [U] says that pings fail and [O] that they failed for
    15 seconds. *)
Definition next_write (s : WriteState) (U O : bool) : WriteState :=
  match s with
  | STATE_WRITABLE => if U then if O then STATE_WRITE_TIMEOUT else STATE_WRITE_CONNECT else STATE_WRITABLE
  | STATE_WRITE_CONNECT => if O then STATE_WRITE_TIMEOUT else STATE_WRITE_CONNECT
  | STATE_WRITE_TIMEOUT => STATE_WRITE_TIMEOUT
  end.
Lemma next_write_spec s U O :
  (next_write s U O = STATE_WRITABLE <-> s = STATE_WRITABLE /\ ~ U = true) /\
  (next_write s U O = STATE_WRITE_TIMEOUT <-> s = STATE_WRITE_TIMEOUT \/ (s = STATE_WRITE_CONNECT \/ U = true) /\ O = true).
Proof. destruct s, U, O; cbn; intuition (try congruence; auto). Qed.

(** ** Properties of all reachable states *)

Section Properties.
Context {B : Type} `{ByteQueueLaws B}.
Variable clock : nat -> Z.
Variable random_id : nat -> bytes.
Variable socket_SendTo : nat -> Z.
Variable socket_GetError : nat -> Z.
#[local] Abbreviation reach := (reach (B := B) clock random_id socket_SendTo socket_GetError).
#[local] Abbreviation event_ok := (event_ok random_id socket_SendTo).
#[local] Abbreviation run_event := (run_event (B := B) clock random_id socket_SendTo socket_GetError).

(** C25. Within what the port relies on ([event_ok]), whatever packets arrive and
    whatever its owner does, no handler uses a deleted connection, reads out of
    bounds or fails an ASSERT.  What it relies on: it is not used after it
    deleted itself, calls name live connections, a ping is sent over one that
    is connected, only timers and messages that are posted fire, the socket does not accept
    zero bytes of a datagram that is sent (an empty one fails an ASSERT), a candidate has a
    new address, the answers its owner asks for are to binding requests with a user
    name (an acceptance, from an address of a connection), and no outstanding transaction
    id is drawn again. *)
Theorem port_never_faults p e : reach p -> event_ok e p -> exists p', run_event e p = Done tt p'.
Proof.
  intros Hp%port_reach_inv Hok.
  destruct (wp_total _ _ _ (event_follows clock random_id socket_SendTo socket_GetError e p Hp Hok)) as ([] & p' & E & _).
  by exists p'.
Qed.

(** In every reachable state the port's map and the connections describe
    each other, every connection that timed out both ways has its deletion
    posted, no deletion is posted for a connection that is gone, every
    unanswered ping has exactly one timer, and the port has deleted itself
    exactly when its first timeout has passed and no connection is left. *)
Theorem port_invariant p : reach p -> port_inv p.
Proof. apply port_reach_inv. Qed.

Lemma answered_writable now msg x : conn_ok x -> write_state_ (answered now msg x) = STATE_WRITABLE ->
  write_state_ x = STATE_WRITABLE \/
  m_type msg = STUN_BINDING_RESPONSE /\ is_Some (StunReq.requests_ (requests_ x) !! transaction_id_ msg) /\
  StunReq.requests_ (requests_ (answered now msg x)) !! transaction_id_ msg = None.
Proof using.
  intros Hx. unfold answered. destruct (StunReq.requests_ (requests_ x) !! transaction_id_ msg) as [r|] eqn:Er; [|by left].
  destruct (proj1 Hx _ _ Er) as [Hid Ht]. rewrite Ht, Hid.
  change (StunMsg.GetStunResponseType STUN_BINDING_REQUEST) with STUN_BINDING_RESPONSE.
  destruct (Z.eqb_spec (m_type msg) STUN_BINDING_RESPONSE).
  - intros _. right. split_and!; [done|by exists r|]. by apply (forgotten _ _ r).
  - destruct (_ =? _); [|by left]. unfold refused. destruct (recoverable _); [by left|done].
Qed.
Lemma revived_states x : (write_state_ (revived x) = STATE_WRITABLE -> write_state_ x = STATE_WRITABLE) /\
  read_state_ (revived x) = read_state_ x.
Proof using. unfold revived. by destruct (_ && _). Qed.
Lemma answered_read now msg x : read_state_ (answered now msg x) = read_state_ x.
Proof using.
  unfold answered, refused. destruct (_ !! _); [|done]. destruct (_ =? _); [done|]. destruct (_ =? _); [|done].
  by destruct (recoverable _).
Qed.
Lemma update_states now x : (write_state_ (update_state now x) = STATE_WRITABLE -> write_state_ x = STATE_WRITABLE) /\
  (read_state_ (update_state now x) = STATE_READABLE -> read_state_ x = STATE_READABLE).
Proof using.
  unfold update_state, update_connect, update_writable, update_read.
  split; repeat (case_match; cbn; try done).
Qed.

(** The packets that may change the state of a connection to [remote]. *)
Definition message_of (e : event) (frag : bytes) (remote : Candidate) (msg : StunMessage) : Prop :=
  exists data addr, e = Packet data addr /\ key_same addr (c_address remote) = true /\
    from_peer (B := B) frag (c_username remote) data msg.

Lemma packet_states now frag data x : conn_ok x ->
  let x' := packet_effect (B := B) now frag data x in
  let peer := from_peer (B := B) frag (c_username (remote_candidate_ x)) data in
  (write_state_ x' = STATE_WRITABLE -> write_state_ x = STATE_WRITABLE \/
     exists msg, peer msg /\ m_type msg = STUN_BINDING_RESPONSE /\
       is_Some (StunReq.requests_ (requests_ x) !! transaction_id_ msg) /\
       StunReq.requests_ (requests_ x') !! transaction_id_ msg = None) /\
  (read_state_ x' = STATE_READABLE -> read_state_ x = STATE_READABLE \/
     exists msg, peer msg /\ m_type msg = STUN_BINDING_REQUEST).
Proof using H0.
  intros Hx x' peer. unfold x', packet_effect. destruct (read_stun _ _) as [| | |msg user] eqn:Er; [| by split; left..|].
  - unfold got_data. destruct (bool_decide _); [|by split; left].
    match goal with |- context [revived ?y] => destruct (revived_states y) as [Hw Hr] end.
    split; [intros Hy; left; exact (Hw Hy)|rewrite Hr; by left].
  - case_bool_decide as Hu; [|by split; left]. apply read_stun_sound in Er. subst user.
    destruct (Z.eqb_spec (m_type msg) STUN_BINDING_REQUEST) as [Ht|].
    + unfold got_ping. match goal with |- context [revived ?y] => destruct (revived_states y) as [Hw Hr] end.
      split; [intros Hy; left; exact (Hw Hy)|]. intros _. right. by exists msg.
    + split; [|rewrite answered_read; by left]. intros Hw.
      destruct (answered_writable _ _ _ Hx Hw) as [?|?]; [by left|right; by exists msg].
Qed.

(** C10. Only the peer moves a connection to a better state.  A connection
    becomes writable only by a packet from its remote address that is exactly
    a binding response, whose username joins the two fragments and whose
    transaction id is that of an unanswered ping, which is forgotten; it
    becomes readable only by a binding request from its remote address with
    the two fragments, or when the owner answers such a request by itself. *)
Theorem port_authentic p e p' c x x' : reach p -> event_ok e p -> run_event e p = Done tt p' ->
  conn_heap p !! c = Some x -> conn_heap p' !! c = Some x' ->
  (write_state_ x' = STATE_WRITABLE -> write_state_ x = STATE_WRITABLE \/
     exists msg, message_of e (username_frag_ p) (remote_candidate_ x) msg /\ m_type msg = STUN_BINDING_RESPONSE /\
       is_Some (StunReq.requests_ (requests_ x) !! transaction_id_ msg) /\
       StunReq.requests_ (requests_ x') !! transaction_id_ msg = None) /\
  (read_state_ x' = STATE_READABLE -> read_state_ x = STATE_READABLE \/
     (exists msg, message_of e (username_frag_ p) (remote_candidate_ x) msg /\ m_type msg = STUN_BINDING_REQUEST) \/
     exists request addr, e = CallSendBindingResponse request addr /\ key_same addr (c_address (remote_candidate_ x)) = true).
Proof.
  intros Hp%port_reach_inv Hok Er E E'. destruct (pi_conn _ Hp _ _ E) as (Hm & _ & Hx & _).
  pose proof (wp_done _ _ _ _ _ (event_follows clock random_id socket_SendTo socket_GetError e p Hp Hok) Er) as [_ Hev].
  assert (Hsame : forall addr, map_find addr (connections_ p) = Some c -> key_same addr (c_address (remote_candidate_ x)) = true).
  { intros addr Hf. destruct (pi_key _ Hp _ _ Hf) as (y & Ey & Ek). rewrite E in Ey. by injection Ey as <-. }
  destruct (Hev c x' E') as [Ex|[(y & Ey & Hch)|(candidate & _ & ->)]]; [|rewrite E in Ey; injection Ey as <-|by split].
  { rewrite E in Ex. injection Ex as <-. split; by left. }
  destruct e as [data addr|c' i| | | |c' now|c' now|c'|c'|c' data| |request addr| | |c'|c'|]; cbn in Hch; try done.
  - destruct Hch as (Hf & now & ->). destruct (packet_states now (username_frag_ p) data x Hx) as [Hw Hr].
    split.
    + intros [?|(msg & Hf' & Ht)]%Hw; [by left|right]. exists msg. split; [|done]. exists data, addr. auto.
    + intros [?|(msg & Hf' & Ht)]%Hr; [by left|right; left]. exists msg. split; [|done]. exists data, addr. auto.
  - destruct Hch as (-> & now & r & ->). split; by left.
  - destruct Hch as (-> & t & ->). split; by left.
  - destruct Hch as (-> & ->). destruct (update_states now x) as [Hw Hr]. split; [intros Hy; left; auto|intros Hy; left; auto].
  - destruct Hch as (-> & ->). unfold pruned. destruct (pruned_ x); [by split; left|by split; [|left]].
  - by destruct Hch as (-> & ->).
  - destruct Hch as (-> & er & rt & ->). split; by left.
  - destruct Hch as (Hf & now & ->). split; [by left|]. intros _. right. right. exists request, addr. auto.
  - destruct Hch as (-> & r & s & ->). split; by left.
  - destruct Hch as (-> & r & s & ->). split; by left.
Qed.

(** A posted deletion takes exactly its connection: the object is gone
    with every deletion posted for it, its remote address is free, every other
    connection is untouched and still found under its address, and the port
    deletes itself if and only if no connection is left and its first timeout
    has passed. *)
Theorem conn_deletion p c x : reach p -> event_ok (Deletion c) p -> conn_heap p !! c = Some x ->
  exists p', run_event (Deletion c) p = Done tt p' /\
    conn_heap p' = base.delete c (conn_heap p) /\ (c ∉ deletes p') /\
    map_find (c_address (remote_candidate_ x)) (connections_ p') = None /\
    (forall d y, d <> c -> conn_heap p !! d = Some y ->
       map_find (c_address (remote_candidate_ y)) (connections_ p') = Some d) /\
    (destroyed p' = true <-> lifetime_ p = LT_POSTTIMEOUT /\ conn_heap p' = ∅).
Proof.
  intros Hp%port_reach_inv Hok E.
  destruct (wp_total _ _ _ (delete_follows clock random_id socket_SendTo socket_GetError c p Hp Hok))
    as ([] & p' & Er & [Hp' _] & Hh & Hl & Hd & _).
  exists p'. split_and!; [done|done|done| | |].
  - destruct (map_find _ (connections_ p')) as [d|] eqn:Hf; [|done]. exfalso.
    destruct (pi_key _ Hp' _ _ Hf) as (y & Ey & Ek). rewrite Hh, lookup_delete_Some in Ey. destruct Ey as [Hne Ey].
    destruct (pi_conn _ Hp _ _ Ey) as (Hm & _). destruct (pi_conn _ Hp _ _ E) as (Hm' & _).
    rewrite (map_find_same _ _ _ Ek), Hm in Hm'. by injection Hm' as ->.
  - intros d y Hne Ey. apply (pi_conn _ Hp'). by rewrite Hh, lookup_delete_ne.
  - rewrite (pi_destroyed _ Hp'), Hl. enough (connections_ p' = [] <-> conn_heap p' = ∅) as -> by done. split.
    + intros Hc. apply map_empty. intros d. destruct (conn_heap p' !! d) as [y|] eqn:Ey; [|done].
      destruct (pi_conn _ Hp' _ _ Ey) as (Hm & _). by rewrite Hc in Hm.
    + intros He. destruct (connections_ p') as [|[a d] l] eqn:Hc; [done|].
      assert (Hf : map_find a (connections_ p') = Some d) by (rewrite Hc; cbn; by rewrite key_same_refl).
      destruct (pi_key _ Hp' _ _ Hf) as (y & Ey & _). by rewrite He in Ey.
Qed.

(** When pings count as unanswered for too long at time [now]. *)
Definition oldest_before (x : Connection) (t : Z) : Prop :=
  exists first, pings_since_last_response_ x !! 0%nat = Some first /\ first < t.
Definition unreliable (x : Connection) (now : Z) : Prop :=
  (exists fifth, pings_since_last_response_ x !! 4%nat = Some fifth /\
     fifth + Z.max 100 (Z.min 3000 (2 * rtt_ x)) < now) /\ oldest_before x (now - 5000).

Lemma TooLong_spec x t now : Forall (fun p => 0 <= p < 4294967296 - 15000) (pings_since_last_response_ x) ->
  0 <= t <= 15000 ->
  TooLongWithoutResponse (pings_since_last_response_ x) t now = true <-> oldest_before x (now - t).
Proof using.
  intros Hf Ht. unfold TooLongWithoutResponse, oldest_before. destruct (pings_since_last_response_ x) as [|p l].
  - split; [done|by intros (? & ? & _)].
  - apply Forall_cons_1 in Hf as [Hp _]. rewrite u32_small, Z.ltb_lt by word_lia. split.
    + intros ?. exists p. split; [done|lia].
    + intros (q & [= ->] & ?). lia.
Qed.

Lemma TooMany_spec x now : Forall (fun p => 0 <= p < 4294967296 - 15000) (pings_since_last_response_ x) ->
  0 <= 2 * rtt_ x < 4294967296 ->
  default false (TooManyFailures (pings_since_last_response_ x) CONNECTION_WRITE_CONNECT_FAILURES (ConservativeRTTEstimate (rtt_ x)) now)
    = true <->
  exists fifth, pings_since_last_response_ x !! 4%nat = Some fifth /\ fifth + Z.max 100 (Z.min 3000 (2 * rtt_ x)) < now.
Proof using.
  intros Hf Hr. unfold TooManyFailures, ConservativeRTTEstimate, CONNECTION_WRITE_CONNECT_FAILURES, MINIMUM_RTT, MAXIMUM_RTT.
  rewrite (u32_small (2 * rtt_ x)) by word_lia. destruct (Nat.ltb_spec (length (pings_since_last_response_ x)) 5) as [Hl|Hl].
  - split; [done|]. intros (q & Hq & _). apply lookup_lt_Some in Hq. lia.
  - change (5 - 1)%nat with 4%nat. destruct (lookup_lt_is_Some_2 (pings_since_last_response_ x) 4) as [q Hq]; [lia|].
    rewrite Hq. cbn [mbind option_bind from_option id]. pose proof (Forall_lookup_1 _ _ _ _ Hf Hq) as Hqr. cbv beta in Hqr.
    rewrite u32_small, Z.ltb_lt by word_lia. split; [intros ?; by exists q|]. by intros (q' & [= ->] & ?).
Qed.

(** The new states, by the tests of the code. *)
Lemma update_state_eq now x (R U O : bool) :
  R = ((last_ping_received_ x +u CONNECTION_READ_TIMEOUT) <=? now) ->
  U = default false (TooManyFailures (pings_since_last_response_ x) CONNECTION_WRITE_CONNECT_FAILURES
        (ConservativeRTTEstimate (rtt_ x)) now) &&
      TooLongWithoutResponse (pings_since_last_response_ x) CONNECTION_WRITE_CONNECT_TIMEOUT now ->
  O = TooLongWithoutResponse (pings_since_last_response_ x) CONNECTION_WRITE_TIMEOUT now ->
  update_state now x = x
    <| read_state_ := if R then STATE_READ_TIMEOUT else read_state_ x |>
    <| write_state_ := next_write (write_state_ x) U O |>.
Proof using.
  intros HR HU HO. destruct x as [i rc rs ws cn pr rq rtt lps lpr ldr ps rr sr rp er].
  unfold update_state, update_read. cbn [read_state_ last_ping_received_ rtt_ write_state_ pings_since_last_response_] in *. rewrite <- HR.
  set (y := if bool_decide (rs = STATE_READABLE) && R then _ else _).
  assert (Ey : y = mkConnection i rc (if R then STATE_READ_TIMEOUT else rs) ws cn pr rq rtt lps lpr ldr ps rr sr rp er)
    by (subst y; clear -rs; destruct rs, R; reflexivity).
  rewrite Ey. unfold update_writable. cbn [write_state_ pings_since_last_response_]. rewrite <- HU.
  unfold update_connect. destruct ws, U;
    repeat first [rewrite bool_decide_true by done; cbn|rewrite bool_decide_false by done; cbn]; rewrite <- ?HO; by destruct O.
Qed.

(** What the tests decide, away from the wrap of the clock. *)
Lemma update_tests x now : 0 <= last_ping_received_ x < 4294967296 - 30000 -> 0 <= 2 * rtt_ x < 4294967296 ->
  Forall (fun p => 0 <= p < 4294967296 - 15000) (pings_since_last_response_ x) ->
  (((last_ping_received_ x +u CONNECTION_READ_TIMEOUT) <=? now) = true <-> last_ping_received_ x + 30000 <= now) /\
  (default false (TooManyFailures (pings_since_last_response_ x) CONNECTION_WRITE_CONNECT_FAILURES
        (ConservativeRTTEstimate (rtt_ x)) now) &&
      TooLongWithoutResponse (pings_since_last_response_ x) CONNECTION_WRITE_CONNECT_TIMEOUT now = true <-> unreliable x now) /\
  (TooLongWithoutResponse (pings_since_last_response_ x) CONNECTION_WRITE_TIMEOUT now = true <-> oldest_before x (now - 15000)).
Proof using.
  intros Hl Hr Hf. unfold CONNECTION_READ_TIMEOUT, CONNECTION_WRITE_TIMEOUT, CONNECTION_WRITE_CONNECT_TIMEOUT, unreliable.
  rewrite u32_small, Z.leb_le by word_lia. rewrite andb_true_iff, (TooMany_spec x now Hf Hr).
  by rewrite <- !(TooLong_spec x _ now Hf).
Qed.

(** [UpdateState] applies exactly the timeouts: a connection stops being
    readable when no ping came for 30 seconds; it stops being writable when its
    first five pings are unanswered, the fifth for longer than twice the round
    trip time clamped to 0.1 and 3 seconds and the first for longer than 5
    seconds; it is given up when its first unanswered ping is older than 15
    seconds; nothing else changes, and a connection that timed out both ways
    gets its deletion posted. *)
Theorem conn_update_state p c x now : conn_heap p !! c = Some x ->
  0 <= last_ping_received_ x < 4294967296 - 30000 -> 0 <= 2 * rtt_ x < 4294967296 ->
  Forall (fun p => 0 <= p < 4294967296 - 15000) (pings_since_last_response_ x) ->
  exists p' r w, run_event (CallUpdateState c now) p = Done tt p' /\
    conn_heap p' = <[c := x <| read_state_ := r |> <| write_state_ := w |>]> (conn_heap p) /\ sent p' = sent p /\
    (r = STATE_READABLE <-> read_state_ x = STATE_READABLE /\ now < last_ping_received_ x + 30000) /\
    (w = STATE_WRITABLE <-> write_state_ x = STATE_WRITABLE /\ ~ unreliable x now) /\
    (w = STATE_WRITE_TIMEOUT <-> write_state_ x = STATE_WRITE_TIMEOUT \/
       (write_state_ x = STATE_WRITE_CONNECT \/ unreliable x now) /\ oldest_before x (now - 15000)) /\
    (r = STATE_READ_TIMEOUT -> w = STATE_WRITE_TIMEOUT -> dead x \/ c ∈ deletes p').
Proof.
  intros E Hl Hr Hf.
  destruct (wp_total _ _ _ (UpdateState_wp c x now p (fun _ => acts c (update_state now) [] p) E ltac:(done)))
    as ([] & p' & Er & _ & S & y & n & Ey & Hh & Hd & Hdead).
  rewrite E in Ey. injection Ey as <-. rewrite (update_state_eq now x _ _ _ eq_refl eq_refl eq_refl) in Hh, Hdead.
  pose proof (update_tests x now Hl Hr Hf) as (HR & HU & HO).
  set (R := _ <=? now) in *. set (U := _ && _) in *. set (O := TooLongWithoutResponse _ _ now) in *. clearbody R U O.
  exists p'. do 2 eexists. split_and!; [done|exact Hh|by rewrite app_nil_r in S| | | |].
  - destruct R; [split; [done|]|split]; [intros [_ ?]; apply proj1 in HR; lia| |by intros [? _]].
    intros ?. split; [done|]. apply Z.nle_gt. by intros ?%HR.
  - rewrite <- HU. by apply next_write_spec.
  - rewrite <- HU, <- HO. by apply next_write_spec.
  - intros Hrd Hwr. destruct (Hdead (conj Hrd Hwr)) as [?|Hn]; [by left|right]. rewrite Hd, elem_of_app. right.
    by apply elem_of_replicate.
Qed.
End Properties.

(** ** Runs of two ports *)

Section Exec.
Context {B : Type} `{ByteQueue B}.
Variable clock : nat -> Z.
Variable random_id : nat -> bytes.
Variable socket_SendTo : nat -> Z.
Variable socket_GetError : nat -> Z.

(** A sound test of [event_ok], for runs of concrete events. *)
Definition live_b (p : Port) (c : ptr) (f : Connection -> bool) : bool :=
  match conn_heap p !! c with Some x => f x | None => false end.
Definition none_b {A} (o : option A) : bool := match o with None => true | Some _ => false end.
Definition event_okb (e : event) (p : Port) : bool :=
  negb (destroyed p) &&
  match e with
  | PingTimer c i => live_b p c (fun x => negb (none_b (StunReq.posts (requests_ x) !! i)))
  | CheckTimer => check_posted p
  | Deletion c => bool_decide (c ∈ deletes p)
  | CallPing c _ => live_b p c (fun x => connected_ x && none_b (StunReq.requests_ (requests_ x) !! random_id (random_strings p)))
  | CallUpdateState c _ | CallPrune c | CallDestroy c | CallRecvBytesSecond c | CallSentBytesSecond c => live_b p c (fun _ => true)
  | CallCreateConnection candidate => none_b (map_find (c_address candidate) (connections_ p))
  | CallSend _ _ | CallSendBindingResponse _ _ | CallSendBindingErrorResponse _ _ _ _ => false
  | _ => true
  end.
Lemma event_okb_ok e p : event_okb e p = true -> event_ok random_id socket_SendTo e p.
Proof.
  unfold event_okb, event_ok, live_b, none_b. rewrite andb_true_iff, negb_true_iff. intros [Hd Hb]. split; [done|].
  destruct e as [| c i| |c| |c now|c now|c|c|c data|candidate|request addr| | |c|c|]; try done; try (destruct (conn_heap p !! c) as [x|]; [|done]);
    try (by eexists).
  - exists x. split; [done|]. destruct (_ !! i); [by eexists|done].
  - by apply bool_decide_eq_true in Hb.
  - apply andb_true_iff in Hb as [Hc Hn]. exists x. split; [done|]. split; [done|]. by destruct (_ !! _).
  - by destruct (map_find _ _).
Qed.
Fixpoint exec (es : list event) (p : Port) : option Port :=
  match es with
  | [] => Some p
  | e :: es =>
      if event_okb e p then
        match run_event (B := B) clock random_id socket_SendTo socket_GetError e p with
        | Done _ p' => exec es p' | Failed _ => None
        end
      else None
  end.
#[local] Abbreviation reach := (reach (B := B) clock random_id socket_SendTo socket_GetError).
Lemma exec_port_reach es p p' : reach p -> exec es p = Some p' -> reach p'.
Proof.
  revert p. induction es as [|e es IH]; intros p Hr; cbn [exec]; [by intros [= <-]|].
  destruct (event_okb e p) eqn:Ho; [|done]. destruct (run_event _ _ _ _ _) as [[] p1|] eqn:Er; [|done].
  apply IH. eapply reach_step; [exact Hr|by apply event_okb_ok|exact Er].
Qed.
End Exec.

Section Witnesses.
#[local] Existing Instance little_host.
Definition ex_alice : SocketAddress := SockAddr.make 167772161 5000.
Definition ex_bob : SocketAddress := SockAddr.make 3232235777 6000.
Definition ex_candidate (addr : SocketAddress) (frag : bytes) : Candidate :=
  mkCandidate (str "rtp") (str "udp") addr (S754_finite false 8388608 (-23)) frag (str "secret") (str "local") (str "eth0") 0.
Definition ex_network : Network := mkNetwork 0 (str "eth0").
Definition ex_clock (n : nat) : Z := 1000 + 10 * Z.of_nat n.
Definition ex_id (n : nat) : bytes := str "0123456789a" ++ nth n (map (fun c => [c]) (str "bcdefghijk")) (str "z").
Definition ex_sent (_ : nat) : Z := 60.
Definition ex_error (_ : nat) : Z := 0.
#[local] Abbreviation exreach := (reach (B := Buf.ByteBuffer) ex_clock ex_id ex_sent ex_error).
#[local] Abbreviation exrun := (run_event (B := Buf.ByteBuffer) ex_clock ex_id ex_sent ex_error).
#[local] Abbreviation exok := (event_ok ex_id ex_sent).
Definition ex_port (frag : bytes) (es : list event) : Port :=
  default (make ex_network frag (str "secret"))
    (exec (B := Buf.ByteBuffer) ex_clock ex_id ex_sent ex_error es (make ex_network frag (str "secret"))).
Lemma ex_port_reach frag es : frag <> [] ->
  bool_decide (is_Some (exec (B := Buf.ByteBuffer) ex_clock ex_id ex_sent ex_error es (make ex_network frag (str "secret")))) = true ->
  exreach (ex_port frag es).
Proof.
  intros Hf Hb%bool_decide_eq_true. unfold ex_port. destruct Hb as [p E]. rewrite E. cbn [from_option id].
  eapply exec_port_reach; [|exact E]. by apply reach_make.
Qed.

(** Alice knows Bob's candidate, and Bob hers. *)
Definition ex_a (es : list event) : Port := ex_port (str "alice_01") (CallCreateConnection (ex_candidate ex_bob (str "bobby_01")) :: es).
Definition ex_b : Port := ex_port (str "bobby_01") [CallCreateConnection (ex_candidate ex_alice (str "alice_01"))].
Definition ex_username : bytes := str "bobby_01alice_01".
Definition ex_pong : bytes := stun_bytes (B := Buf.ByteBuffer) (pong_message (ex_id 0) ex_username ex_alice).
Definition ex_pinging : list event := [CallPing 0%nat 1000; PingTimer 0%nat 0%nat].
Definition ex_conn (p : Port) : Connection := default (new_Connection 0 (ex_candidate ex_bob [])) (conn_heap p !! 0%nat).
Lemma ex_a_reach : exreach (ex_a []).
Proof. apply ex_port_reach; [done|by vm_compute]. Qed.
Lemma ex_b_reach : exreach ex_b.
Proof. apply ex_port_reach; [done|by vm_compute]. Qed.
Lemma ex_pinging_reach : exreach (ex_a ex_pinging).
Proof. apply ex_port_reach; [done|by vm_compute]. Qed.
Lemma ex_pong_ok : exok (Packet ex_pong ex_bob) (ex_a ex_pinging).
Proof. apply event_okb_ok. by vm_compute. Qed.

Lemma ping_exchange_witness : exists pa1 pa2 pa3 pb1 xa xb ping pong,
  exrun (CallPing 0%nat 1000) (ex_a []) = Done tt pa1 /\ exrun (PingTimer 0%nat 0%nat) pa1 = Done tt pa2 /\
  exrun (Packet ping ex_alice) ex_b = Done tt pb1 /\ conn_heap pb1 !! 0%nat = Some xb /\ read_state_ xb = STATE_READABLE /\
  exrun (Packet pong ex_bob) pa2 = Done tt pa3 /\ conn_heap pa3 !! 0%nat = Some xa /\ write_state_ xa = STATE_WRITABLE.
Proof.
  destruct (ping_exchange (B := Buf.ByteBuffer) ex_clock ex_clock ex_id ex_id ex_sent ex_sent ex_error ex_error
    (ex_a []) ex_b 0%nat 0%nat (ex_conn (ex_a [])) (ex_conn ex_b) 1000)
    as (pa1 & pa2 & pa3 & pb1 & xa & xb & ping & pong & R1 & R2 & _ & R3 & E3 & W3 & _ & R4 & E4 & W4 & _);
    [apply ex_a_reach|apply ex_b_reach|by vm_compute|by vm_compute|by vm_compute|by vm_compute|by vm_compute|by vm_compute|
     by vm_compute|by vm_compute|by vm_compute|by vm_compute|].
  exists pa1, pa2, pa3, pb1, xa, xb, ping, pong.
  exact (conj R1 (conj R2 (conj R3 (conj E3 (conj W3 (conj R4 (conj E4 W4))))))).
Defined.

Lemma port_never_faults_witness : exists p', exrun (Packet ex_pong ex_bob) (ex_a ex_pinging) = Done tt p'.
Proof.
  apply (port_never_faults (B := Buf.ByteBuffer) ex_clock ex_id ex_sent ex_error); [apply ex_pinging_reach|apply ex_pong_ok].
Defined.

Lemma port_invariant_witness : length (StunReq.posts (requests_ (ex_conn (ex_a ex_pinging)))) = 1%nat /\ port_inv (ex_a ex_pinging).
Proof.
  split; [by vm_compute|]. apply (port_invariant (B := Buf.ByteBuffer) ex_clock ex_id ex_sent ex_error), ex_pinging_reach.
Defined.

(** Bob's answer makes Alice's connection writable; it is his. *)
Definition ex_answered : Port := ex_a (ex_pinging ++ [Packet ex_pong ex_bob]).
Lemma port_authentic_witness : write_state_ (ex_conn ex_answered) = STATE_WRITABLE /\
  exists msg, message_of (B := Buf.ByteBuffer) (Packet ex_pong ex_bob) (str "alice_01") (ex_candidate ex_bob (str "bobby_01")) msg /\
    m_type msg = STUN_BINDING_RESPONSE.
Proof.
  assert (Hw : write_state_ (ex_conn ex_answered) = STATE_WRITABLE) by by vm_compute.
  destruct (port_authentic (B := Buf.ByteBuffer) ex_clock ex_id ex_sent ex_error (ex_a ex_pinging) (Packet ex_pong ex_bob)
    ex_answered 0%nat (ex_conn (ex_a ex_pinging)) (ex_conn ex_answered)) as [[Hn|(msg & Hm & Ht & _)] _];
    [apply ex_pinging_reach|apply ex_pong_ok|by vm_compute|by vm_compute|by vm_compute|exact Hw| |].
  - exfalso. assert (E : write_state_ (ex_conn (ex_a ex_pinging)) = STATE_WRITE_CONNECT) by by vm_compute. congruence.
  - split; [exact Hw|]. exists msg. exact (conj Hm Ht).
Defined.

(** The owner gives up the connection after the first timeout of the port. *)
Definition ex_given_up : list event := [CallStart; CheckTimer; CallDestroy 0%nat].
Lemma conn_deletion_witness : exists p', exrun (Deletion 0%nat) (ex_a ex_given_up) = Done tt p' /\ destroyed p' = true.
Proof.
  destruct (conn_deletion (B := Buf.ByteBuffer) ex_clock ex_id ex_sent ex_error (ex_a ex_given_up) 0%nat (ex_conn (ex_a ex_given_up)))
    as (p' & E & Hh & _ & _ & _ & Hd);
    [apply ex_port_reach; [done|by vm_compute]|apply event_okb_ok; by vm_compute|by vm_compute|].
  exists p'. split; [exact E|]. apply Hd. split; [by vm_compute|]. rewrite Hh. by vm_compute.
Defined.

(** Five pings without an answer. *)
Definition ex_failing : Port := ex_a (ex_pinging ++ Packet ex_pong ex_bob ::
  [CallPing 0%nat 2000; CallPing 0%nat 3000; CallPing 0%nat 4000; CallPing 0%nat 5000; CallPing 0%nat 6000]).
Lemma conn_update_state_witness : write_state_ (ex_conn ex_failing) = STATE_WRITABLE /\ exists p' w,
  exrun (CallUpdateState 0%nat 10000) ex_failing = Done tt p' /\ write_state_ (ex_conn p') = w /\ w <> STATE_WRITABLE.
Proof.
  assert (Hu : unreliable (ex_conn ex_failing) 10000).
  { split; [exists 6000|exists 2000]; by vm_compute. }
  destruct (conn_update_state (B := Buf.ByteBuffer) ex_clock ex_id ex_sent ex_error ex_failing 0%nat (ex_conn ex_failing) 10000)
    as (p' & r & w & E & Hh & _ & _ & Hw & _); [by vm_compute|by vm_compute|by vm_compute| |].
  { assert (Ep : pings_since_last_response_ (ex_conn ex_failing) = [2000; 3000; 4000; 5000; 6000]) by by vm_compute.
    rewrite Ep. repeat constructor; by vm_compute. }
  split; [by vm_compute|]. exists p', w. split; [exact E|]. split.
  - unfold ex_conn at 1. rewrite Hh, lookup_insert_eq. reflexivity.
  - intros Hc. apply Hw in Hc as [_ Hn]. exact (Hn Hu).
Defined.
(** ** Limits of the code *)

(** A socket that takes an empty datagram answers 0 bytes sent, and [Send]
    fails its ASSERT. *)
Lemma empty_datagram_asserts : write_state_ (ex_conn ex_answered) = STATE_WRITABLE /\
  run_event (B := Buf.ByteBuffer) ex_clock ex_id (fun _ => 0) ex_error (CallSend 0%nat []) ex_answered = Failed AssertFailed.
Proof. split; by vm_compute. Qed.

(** A connection given up and then pinged by its peer is readable again and
    ready to connect, and its posted deletion still takes it. *)
Definition ex_revived : Port := ex_a [CallDestroy 0%nat; Packet (stun_bytes (B := Buf.ByteBuffer) (ping_message (ex_id 1) (str "alice_01bobby_01"))) ex_bob].
Lemma revived_connection_deleted : exreach ex_revived /\
  read_state_ (ex_conn ex_revived) = STATE_READABLE /\ write_state_ (ex_conn ex_revived) = STATE_WRITE_CONNECT /\
  exists p', exrun (Deletion 0%nat) ex_revived = Done tt p' /\ connections_ p' = [].
Proof.
  split; [apply ex_port_reach; [done|by vm_compute]|]. split; [by vm_compute|]. split; [by vm_compute|].
  eexists. split; by vm_compute.
Qed.

(** Just before the clock wraps, a connection pinged at this very moment stops
    being readable. *)
Lemma wrapping_clock_unreadable x : last_ping_received_ x = 4294967290 -> read_state_ x = STATE_READABLE ->
  read_state_ (update_state 4294967290 x) = STATE_READ_TIMEOUT.
Proof. intros Hl Hr. rewrite (update_state_eq _ _ _ _ _ eq_refl eq_refl eq_refl). cbn. by rewrite Hl. Qed.

(** Stale credentials, 430, in the class and number that the servers of this
    library write, are not recognised, and the connection is given up. *)
Lemma stale_credentials_refused x :
  let response := StunMsg.AddAttribute (StunSrv.error_attr STUN_ERROR_STALE_CREDENTIALS STUN_ERROR_REASON_STALE_CREDENTIALS)
    (StunMsg.SetType STUN_BINDING_ERROR_RESPONSE StunMsg.make) in
  write_state_ (refused (error_code_of response) x) = STATE_WRITE_TIMEOUT.
Proof. by vm_compute. Qed.
End Witnesses.
