(* ===== verification/PortSteps.v ===== *)
(** * What a port promises to the channel that owns it

    The operations a channel runs on a port keep its invariant and the
    identity of its connections, and emit only signals of known kinds.  Which
    signals a program may emit is a judgement [emits], proved by following the
    program. *)

From S2P Require Import Prelude TimeUtil ByteOrder ByteBuffer SocketAddress StdMap Stun StunFacts StunServer StunMessages StunRequest Effects Port PortRuns PortFacts.
#[local] Open Scope jingle_scope.
Import Port.
#[local] Set Default Proof Using "Type".

(** ** Emitted signals *)

Definition states (x : Connection) := (read_state_ x, write_state_ x).
(** No connection is lost or changes state. *)
Definition same_states (p p' : Port) : Prop :=
  forall c x, conn_heap p !! c = Some x -> exists x', conn_heap p' !! c = Some x' /\ states x' = states x.
(** The signals emitted on the way are of kind [ok], and tell of every change
    of state. *)
Definition emitted (ok : signal -> Prop) (p p' : Port) : Prop :=
  (exists l, signals p' = signals p ++ l /\ Forall ok l /\ ((exists c, SignalStateChange c ∈ l) \/ same_states p p')) /\
  (random_strings p <= random_strings p')%nat.
Definition emits {A} (ok : signal -> Prop) (m : Prog Port A) : Prop :=
  forall p a p', m p = Done a p' -> emitted ok p p'.

Lemma same_states_heap p p' : conn_heap p' = conn_heap p -> same_states p p'.
Proof. intros Hh c x E. exists x. by rewrite Hh. Qed.
Lemma same_states_trans p1 p2 p3 : same_states p1 p2 -> same_states p2 p3 -> same_states p1 p3.
Proof. intros H1 H2 c x E. destruct (H1 c x E) as (y & Ey & Sy). destruct (H2 c y Ey) as (z & Ez & Sz). exists z. by rewrite Sz. Qed.

Section Rules.
Context (ok : signal -> Prop).

Lemma emitted_none p p' : signals p' = signals p -> (random_strings p <= random_strings p')%nat -> same_states p p' -> emitted ok p p'.
Proof. intros E L Hs. split; [|done]. exists []. rewrite app_nil_r. split_and!; [done|done|by right]. Qed.
Lemma emitted_refl p : emitted ok p p.
Proof. apply emitted_none; [done|done|by apply same_states_heap]. Qed.
Lemma emitted_trans p1 p2 p3 : emitted ok p1 p2 -> emitted ok p2 p3 -> emitted ok p1 p3.
Proof.
  intros [(l1 & E1 & F1 & T1) L1] [(l2 & E2 & F2 & T2) L2]. split; [|lia]. exists (l1 ++ l2).
  rewrite E2, E1, app_assoc. split; [done|]. split; [by apply Forall_app|].
  destruct T1 as [[c Hc]|T1]; [left; exists c; apply elem_of_app; by left|].
  destruct T2 as [[c Hc]|T2]; [left; exists c; apply elem_of_app; by right|]. right. by eapply same_states_trans.
Qed.
Lemma emits_ret {A} (a : A) : emits ok (mret a).
Proof. intros p ? ? [= _ <-]. apply emitted_refl. Qed.
Lemma emits_get : emits ok get.
Proof. intros p ? ? [= _ <-]. apply emitted_refl. Qed.
Lemma emits_gets {A} (f : Port -> A) : emits ok (gets f).
Proof. intros p ? ? [= _ <-]. apply emitted_refl. Qed.
Lemma emits_modify f : (forall p, signals (f p) = signals p /\ (random_strings p <= random_strings (f p))%nat /\
  conn_heap (f p) = conn_heap p) -> emits ok (modify f).
Proof. intros Hf p ? ? [= _ <-]. destruct (Hf p) as (? & ? & ?). apply emitted_none; [done|done|by apply same_states_heap]. Qed.
Lemma emits_fail {A} e : emits ok (@fail _ A e).
Proof. by intros p a p'. Qed.
Lemma emits_assert b : emits ok (ASSERT b).
Proof. destruct b; [apply emits_ret|apply emits_fail]. Qed.
Lemma emits_the {A} e (o : option A) : emits ok (the e o).
Proof. destruct o; [apply emits_ret|apply emits_fail]. Qed.
Lemma emits_signal s : ok s -> emits ok (signal_ s).
Proof.
  intros Hs p a p' [= _ <-]. split; [|done]. exists [s]. split; [done|]. split; [by constructor|]. right. by apply same_states_heap.
Qed.
Lemma emits_bind {A C} (m : Prog Port A) (f : A -> Prog Port C) :
  emits ok m -> (forall a, emits ok (f a)) -> emits ok (m ≫= f).
Proof.
  intros Hm Hf p c p' E. unfold mbind, Prog_bind in E. destruct (m p) as [a p1|] eqn:Em; [|done].
  eapply emitted_trans; [by eapply Hm|by eapply Hf].
Qed.
Lemma emits_for_each {A} (f : A -> Prog Port unit) l : (forall a, emits ok (f a)) -> emits ok (for_each f l).
Proof.
  intros Hf. induction l as [|a l IH]; cbn [for_each]; [apply emits_ret|]. by apply emits_bind.
Qed.
Lemma emits_Time clock : emits ok (Time clock).
Proof. intros p ? ? [= _ <-]. by apply emitted_none, same_states_heap. Qed.
Lemma emits_Clock clock : emits ok (Clock clock).
Proof. intros p ? ? [= _ <-]. by apply emitted_none, same_states_heap. Qed.
Lemma emits_upd c f : (forall x, states (f x) = states x) -> emits ok (upd c f).
Proof.
  intros Hf p a p' E. unfold upd, conn_at, mbind, Prog_bind, gets in E. destruct (conn_heap p !! c) as [x|] eqn:Ex; [|done].
  injection E as _ <-. apply emitted_none; [done|done|]. intros d y Ey. cbn. destruct (decide (d = c)) as [->|Hd].
  - rewrite lookup_insert_eq. exists (f x). split; [done|]. rewrite Hf. congruence.
  - rewrite lookup_insert_ne by done. by exists y.
Qed.
End Rules.

(** Follows the program; the signals are left. *)
Ltac emits_step :=
  match goal with
  | |- emits _ (_ ≫= _) => apply emits_bind; [|intros ?]
  | |- emits _ (mret _) => apply emits_ret
  | |- emits _ get => apply emits_get
  | |- emits _ (gets _) => apply emits_gets
  | |- emits _ (modify _) => apply emits_modify; intros ?; (split; [reflexivity|split; [cbn; lia|reflexivity]])
  | |- emits _ (fail _) => apply emits_fail
  | |- emits _ (ASSERT _) => apply emits_assert
  | |- emits _ (the _ _) => apply emits_the
  | |- emits _ (signal_ _) => apply emits_signal
  | |- emits _ (for_each _ _) => apply emits_for_each; intros ?
  | |- emits _ (upd _ _) => apply emits_upd; intros ?; reflexivity
  | |- emits _ (Time _) => apply emits_Time
  | |- emits _ (Clock _) => apply emits_Clock
  | |- emits _ (if ?b then _ else _) => destruct b
  | |- emits _ (match ?o with _ => _ end) => destruct o
  | H : forall _, emits _ _ |- emits _ _ => apply H
  end.
Create HintDb emits.
Ltac emits_tac := repeat (first [solve [eauto 2 with emits nocore]|emits_step]).

(** ** The kinds of signals *)

(** What the channel handles without touching its lists. *)
Definition quiet (s : signal) : Prop :=
  match s with SignalUnknownAddress _ _ _ | SignalConnectionDestroyed _ | SignalDestroyed => False | _ => True end.

Section Code.
Context {B : Type} `{ByteQueue B}.
Variable clock : nat -> Z.
Variable random_id : nat -> bytes.
Variable socket_SendTo : nat -> Z.
Variable socket_GetError : nat -> Z.

Lemma conn_at_emits c : emits quiet (conn_at c).
Proof. unfold conn_at. emits_tac. Qed.
Hint Resolve conn_at_emits : emits.
(** A setter of a state signals when the state differs. *)
Lemma set_state_emits c f b : (forall x, b x = false -> states (f x) = states x) ->
  emits quiet (x ← conn_at c; upd c f;; if b x : bool then signal_ (SignalStateChange c);; conn_CheckTimeout c else mret tt).
Proof.
  intros Hb p a p' E. unfold mbind, Prog_bind in E. destruct (conn_at c p) as [x p0|] eqn:E0; [|done].
  assert (p0 = p /\ conn_heap p !! c = Some x) as [-> Ex].
  { unfold conn_at, mbind, Prog_bind, gets in E0. destruct (conn_heap p !! c); [|done]. by injection E0 as -> ->. }
  destruct (b x) eqn:Eb.
  - unfold upd in E. unfold conn_at in E at 1. unfold mbind, Prog_bind, gets in E. rewrite Ex in E. cbn [the mret Prog_ret modify signal_] in E.
    match type of E with conn_CheckTimeout c ?q = _ => set (p1 := q) in * end.
    assert (Hck : emits quiet (conn_CheckTimeout c)) by (unfold conn_CheckTimeout; emits_tac).
    destruct (Hck _ _ _ E) as [(l & El & Hl & _) L]. split; [|exact L]. exists (SignalStateChange c :: l). split.
    { rewrite El. unfold p1. cbn. by rewrite <- app_assoc. }
    split; [by constructor|]. left. exists c. by left.
  - revert E. unfold upd. unfold conn_at at 1. unfold mbind, Prog_bind, gets. rewrite Ex. cbn. intros [= _ <-].
    apply emitted_none; [done|done|]. intros d y Ey. cbn. destruct (decide (d = c)) as [->|Hd].
    + rewrite lookup_insert_eq. exists (f x). split; [done|]. rewrite Hb by done. congruence.
    + rewrite lookup_insert_ne by done. by exists y.
Qed.
Lemma set_read_state_emits c v : emits quiet (set_read_state c v).
Proof.
  apply (set_state_emits c _ (fun x => negb (bool_decide (v = read_state_ x)))).
  intros x ->%negb_false_iff%bool_decide_eq_true. done.
Qed.
Lemma set_write_state_emits c v : emits quiet (set_write_state c v).
Proof.
  apply (set_state_emits c _ (fun x => negb (bool_decide (v = write_state_ x)))).
  intros x ->%negb_false_iff%bool_decide_eq_true. done.
Qed.
Hint Resolve set_read_state_emits set_write_state_emits : emits.
Lemma UpdateState_emits c now : emits quiet (UpdateState c now).
Proof. unfold UpdateState. emits_tac. Qed.
Lemma Prune_emits c : emits quiet (Prune c).
Proof. unfold Prune. emits_tac. Qed.
Lemma ReceivedPing_emits c : emits quiet (ReceivedPing clock c).
Proof. unfold ReceivedPing. emits_tac. Qed.
Hint Resolve ReceivedPing_emits : emits.
Lemma Ping_emits c now : emits quiet (Ping clock random_id c now).
Proof. unfold Ping. emits_tac. Qed.
Lemma SendTo_emits ok data addr payload : emits ok (SendTo socket_SendTo socket_GetError data addr payload).
Proof. unfold SendTo. emits_tac. Qed.
Hint Resolve SendTo_emits : emits.
Lemma Send_emits c data : emits quiet (Send socket_SendTo socket_GetError c data).
Proof. unfold Send. emits_tac. Qed.
Lemma SendBindingResponse_emits request addr :
  emits quiet (SendBindingResponse (B := B) clock socket_SendTo socket_GetError request addr).
Proof. unfold SendBindingResponse, GetConnection. emits_tac. Qed.
Hint Resolve SendBindingResponse_emits : emits.
Lemma SendBindingErrorResponse_emits ok request addr code reason :
  emits ok (SendBindingErrorResponse (B := B) socket_SendTo socket_GetError request addr code reason).
Proof. unfold SendBindingErrorResponse. emits_tac. Qed.
Hint Resolve SendBindingErrorResponse_emits : emits.
Lemma GetStunMessage_emits ok data addr : emits ok (GetStunMessage (B := B) socket_SendTo socket_GetError data addr).
Proof.
  unfold GetStunMessage. apply emits_bind; [apply emits_get|]. intros p.
  destruct (StunMsg.Read _) as [flag [msg b]]. emits_tac.
Qed.
Hint Resolve GetStunMessage_emits : emits.
Lemma on_request_event_emits c r e : emits quiet (on_request_event clock socket_SendTo socket_GetError c r e).
Proof.
  unfold on_request_event, OnConnectionRequestResponse, OnConnectionRequestErrorResponse. destruct e; emits_tac.
Qed.
Hint Resolve on_request_event_emits : emits.
Lemma request_OnMessage_emits c i : emits quiet (request_OnMessage (B := B) clock socket_SendTo socket_GetError c i).
Proof.
  unfold request_OnMessage. repeat (apply emits_bind; [solve [emits_tac]|intros ?]).
  destruct (_ !! i) as [[? id]|]; [|emits_tac]. destruct (_ !! id) as [r|]; [|emits_tac].
  destruct (StunReq.OnMessage_by _ _ _ _) as [ev m]. emits_tac.
Qed.
Lemma conn_CheckResponse_emits c msg : emits quiet (conn_CheckResponse clock socket_SendTo socket_GetError c msg).
Proof.
  unfold conn_CheckResponse. apply emits_bind; [emits_tac|]. intros x. destruct (_ !! _) as [r|]; [|emits_tac].
  destruct (StunReq.CheckResponse_msg _ _) as [b [ev m]]. emits_tac.
Qed.
Hint Resolve conn_CheckResponse_emits : emits.
Lemma conn_OnReadPacket_emits c data : emits quiet (conn_OnReadPacket (B := B) clock socket_SendTo socket_GetError c data).
Proof.
  unfold conn_OnReadPacket. apply emits_bind; [emits_tac|]. intros x. apply emits_bind; [emits_tac|].
  intros [[|] [[msg user]|]]; emits_tac. all: done.
Qed.
End Code.

(** ** Steps of a port that keep its connections *)

(** The same connection in a later state. *)
Definition conn_same (x x' : Connection) : Prop :=
  remote_candidate_ x' = remote_candidate_ x /\ connected_ x' = connected_ x /\
  local_candidate_index_ x' = local_candidate_index_ x.
Definition option_same (o o' : option Connection) : Prop :=
  match o, o' with Some x, Some x' => conn_same x x' | None, None => True | _, _ => False end.
Record pstep (p p' : Port) : Prop := {
  ps_inv : port_inv p';
  ps_steady : steady p' = steady p;
  ps_destroyed : destroyed p' = destroyed p;
  ps_map : connections_ p' = connections_ p;
  ps_random : (random_strings p <= random_strings p')%nat;
  ps_conns : forall c, option_same (conn_heap p !! c) (conn_heap p' !! c);
}.
Lemma option_same_refl o : option_same o o.
Proof. by destruct o. Qed.
Lemma pstep_refl p : port_inv p -> pstep p p.
Proof. intros Hp. split; try done. intros c. apply option_same_refl. Qed.
Lemma pstep_trans p1 p2 p3 : pstep p1 p2 -> pstep p2 p3 -> pstep p1 p3.
Proof.
  intros [_ S1 D1 M1 L1 C1] [I2 S2 D2 M2 L2 C2]. split; [done|congruence|congruence|congruence|lia|].
  intros c. specialize (C1 c). specialize (C2 c).
  destruct (conn_heap p1 !! c), (conn_heap p2 !! c), (conn_heap p3 !! c); try done.
  destruct C1 as (? & ? & ?), C2 as (? & ? & ?). split_and!; congruence.
Qed.
Lemma pstep_same p p' : port_inv p -> fixed p' = fixed p -> conn_heap p' = conn_heap p -> deletes p' = deletes p ->
  (random_strings p <= random_strings p')%nat -> pstep p p'.
Proof.
  intros Hp F Hh D L. split; [by eapply same_inv|by apply fixed_steady|by injection F|by injection F|done|].
  intros c. rewrite Hh. apply option_same_refl.
Qed.
Lemma acts_pstep c f out p p' x : port_inv p -> conn_heap p !! c = Some x -> acts c f out p p' ->
  (random_strings p <= random_strings p')%nat ->
  conn_ok (f x) -> conn_same x (f x) -> pstep p p' /\ conn_heap p' = <[c := f x]> (conn_heap p).
Proof.
  intros Hp E A L Hok Hs. pose proof (acts_inv _ _ _ _ _ _ Hp E A (proj1 Hs) Hok) as Hp'.
  destruct A as (F & _ & y & n & Ey & Hh & _). rewrite E in Ey. injection Ey as <-. split; [|done].
  split; [done|by apply fixed_steady|by injection F|by injection F|done|].
  intros d. rewrite Hh. destruct (decide (d = c)) as [->|Hn].
  - by rewrite lookup_insert_eq, E.
  - rewrite lookup_insert_ne by done. apply option_same_refl.
Qed.

Lemma wp_emits {A} (m : Prog Port A) ok (Q : A -> Port -> Prop) p : emits ok m -> wp m Q p ->
  wp m (fun a p' => Q a p' /\ emitted ok p p') p.
Proof. unfold wp. intros Hm. destruct (m p) as [a p'|] eqn:E; [|done]. intros Hq. split; [done|]. by apply (Hm _ _ _ E). Qed.

(** An operation on one connection, as the channel sees it. *)
Definition touches (c : ptr) (y : Connection) (p p' : Port) : Prop :=
  pstep p p' /\ conn_heap p' = <[c := y]> (conn_heap p) /\ emitted quiet p p'.

Section Ops.
Context {B : Type} `{ByteQueue B}.
Variable clock : nat -> Z.
Variable random_id : nat -> bytes.
Variable socket_SendTo : nat -> Z.
Variable socket_GetError : nat -> Z.

Lemma touch_wp (m : P unit) c f out x p : port_inv p -> conn_heap p !! c = Some x -> emits quiet m ->
  (forall Q : unit -> Port -> Prop, (forall p', acts c f out p p' -> Q tt p') -> wp m Q p) ->
  conn_ok (f x) -> conn_same x (f x) -> wp m (fun _ => touches c (f x) p) p.
Proof.
  intros Hp E He Hw Hok Hs. eapply pwp_mono; [apply (wp_emits _ _ (fun _ => acts c f out p) _ He), Hw; by intros p'|].
  intros [] p' [A Hem]. destruct (acts_pstep _ _ _ _ _ _ Hp E A (proj2 Hem) Hok Hs). done.
Qed.

Lemma port_conn_ok p c x : port_inv p -> conn_heap p !! c = Some x -> conn_ok x.
Proof. intros Hp E. by destruct (pi_conn _ Hp _ _ E) as (_ & _ & ? & _). Qed.

Lemma update_same now x : conn_same x (update_state now x).
Proof. unfold update_state, update_connect, update_writable, update_read. by repeat case_match. Qed.

Lemma UpdateState_touches c x now p : port_inv p -> conn_heap p !! c = Some x ->
  wp (UpdateState c now) (fun _ => touches c (update_state now x) p) p.
Proof.
  intros Hp E. eapply touch_wp; [done|done|apply UpdateState_emits|intros Q HQ; by eapply UpdateState_wp| |apply update_same].
  by apply update_ok, (port_conn_ok p c).
Qed.
Lemma Prune_touches c x p : port_inv p -> conn_heap p !! c = Some x ->
  wp (Prune c) (fun _ => touches c (pruned x) p) p.
Proof.
  intros Hp E. eapply touch_wp; [done|done|apply Prune_emits|intros Q HQ; by eapply Prune_wp| |].
  - by apply pruned_ok, (port_conn_ok p c).
  - unfold pruned. by destruct (pruned_ x).
Qed.
Lemma ReceivedPing_touches c x p : port_inv p -> conn_heap p !! c = Some x ->
  wp (ReceivedPing clock c) (fun _ p' => exists y, touches c y p p' /\ write_state_ y = write_state_ x /\
    read_state_ y = STATE_READABLE) p.
Proof.
  intros Hp E.
  eapply pwp_mono; [apply (wp_emits _ _ (fun _ p' => exists now,
    acts c (fun x => with_read STATE_READABLE (x <| last_ping_received_ := now |>)) [] p p') _ (ReceivedPing_emits clock c))|].
  { eapply ReceivedPing_wp; [exact E|]. intros now p' A. by exists now. }
  intros [] p' [[now A] Hem]. eexists. split; [|split].
  - destruct (acts_pstep _ _ _ _ _ _ Hp E A (proj2 Hem) (port_conn_ok p c x Hp E)) as [? Hh]; [done|]. split; [done|]. split; [exact Hh|done].
  - done.
  - done.
Qed.
Lemma Ping_touches c x now p : port_inv p -> conn_heap p !! c = Some x -> connected_ x = true ->
  StunReq.requests_ (requests_ x) !! random_id (random_strings p) = None ->
  wp (Ping clock random_id c now) (fun _ p' => exists t,
    touches c (pinged now t (random_id (random_strings p)) (username_frag_ p) x) p p') p.
Proof.
  intros Hp E Hc Hid. set (f := fun t => pinged now t (random_id (random_strings p)) (username_frag_ p)).
  eapply pwp_mono; [apply (wp_emits _ _ (fun _ p' => exists t, acts c (f t) [] p p') _ (Ping_emits clock random_id c now))|].
  { eapply Ping_wp; [exact E|done|done|]. intros t p' A. by exists t. }
  intros [] p' [[t A] Hem]. exists t. destruct (acts_pstep _ _ _ _ _ _ Hp E A (proj2 Hem)) as [? Hh]; [|done|done].
  apply fresh_ping_ok; [by eapply port_conn_ok|done].
Qed.
Lemma Send_touches c x data p : port_inv p -> conn_heap p !! c = Some x -> socket_SendTo (length (sent p)) <> 0 ->
  wp (Send socket_SendTo socket_GetError c data) (fun v p' => v <> 0 /\ exists y, touches c y p p' /\
    write_state_ y = write_state_ x /\ sent p' = sent p ++
      (if bool_decide (write_state_ x = STATE_WRITABLE) then [(data, c_address (remote_candidate_ x))] else [])) p.
Proof.
  intros Hp E Hn.
  eapply pwp_mono; [apply (wp_emits _ _ (fun v p' => v <> 0 /\ exists f,
    acts c f (if bool_decide (write_state_ x = STATE_WRITABLE) then [(data, c_address (remote_candidate_ x))] else []) p p' /\
    exists e r, f x = x <| error_ := e |> <| send_rate_tracker_ := r |>) _ (Send_emits socket_SendTo socket_GetError c data))|].
  { eapply Send_wp; [exact E|done|]. intros f p' w A Hf. split; [unfold w; by destruct (bool_decide _)|]. by exists f. }
  intros v p' [[Hv (f & A & e & r & Ef)] Hem]. split; [done|]. pose proof (port_conn_ok p c x Hp E) as Hx.
  exists (f x). split; [|split; [by rewrite Ef|apply A]].
  destruct (acts_pstep _ _ _ _ _ _ Hp E A (proj2 Hem)) as [? Hh]; [by rewrite Ef|by rewrite Ef|done].
Qed.

Lemma SendBindingResponse_touches request addr c x p : port_inv p -> conn_heap p !! c = Some x ->
  map_find addr (connections_ p) = Some c -> m_type request = STUN_BINDING_REQUEST ->
  is_Some (StunMsg.GetByteString STUN_ATTR_USERNAME request) ->
  wp (SendBindingResponse (B := B) clock socket_SendTo socket_GetError request addr)
    (fun _ p' => exists y, touches c y p p' /\ write_state_ y = write_state_ x) p.
Proof.
  intros Hp E Hm Ht [a Ea]. eapply pwp_mono; [apply (wp_emits _ _ (fun _ p' => exists now out,
    acts c (fun x => with_read STATE_READABLE (x <| last_ping_received_ := now |>)) out p p') _ (SendBindingResponse_emits _ _ _ _ _))|].
  { unfold SendBindingResponse. apply pwp_bind, pwp_assert; [by apply Z.eqb_eq|]. rewrite Ea.
    apply pwp_bind. eapply SendTo_acts; [exact E|]. intros p1 A1. unfold GetConnection. apply pwp_bind, wp_gets.
    destruct (fixed_frag _ _ (proj1 A1)) as [_ ->]. rewrite Hm.
    eapply ReceivedPing_wp; [by eapply acts_heap|]. intros now p2 A2. exists now. eexists.
    exact (acts_trans _ _ _ _ _ _ _ _ A1 A2). }
  intros [] p' [(now & out & A) Hem]. exists (with_read STATE_READABLE (x <| last_ping_received_ := now |>)). split; [|done].
  destruct (acts_pstep _ _ _ _ _ _ Hp E A (proj2 Hem) (port_conn_ok p c x Hp E)) as [? Hh]; [done|]. split; [done|]. by split.
Qed.

(** Steps that touch no connection. *)
Definition leaves (p p' : Port) : Prop := pstep p p' /\ conn_heap p' = conn_heap p /\ emitted quiet p p'.
Lemma SendBindingErrorResponse_leaves request addr code reason p : port_inv p -> m_type request = STUN_BINDING_REQUEST ->
  is_Some (StunMsg.GetByteString STUN_ATTR_USERNAME request) ->
  wp (SendBindingErrorResponse (B := B) socket_SendTo socket_GetError request addr code reason) (fun _ => leaves p) p.
Proof.
  intros Hp Ht [a Ea]. eapply pwp_mono; [apply (wp_emits _ _ (fun _ p' => fixed p' = fixed p /\ conn_heap p' = conn_heap p /\ deletes p' = deletes p) _
    (SendBindingErrorResponse_emits _ _ quiet _ _ _ _))|].
  { unfold SendBindingErrorResponse. apply pwp_bind, pwp_assert; [by apply Z.eqb_eq|]. rewrite Ea.
    apply pwp_bind, SendTo_wp. intros p' F _ Hh D. by apply pwp_ret. }
  intros [] p' [(F & Hh & D) Hem]. split; [by apply pstep_same, Hem|]. by split.
Qed.
Lemma Start_leaves p : port_inv p -> destroyed p = false -> wp Start (fun _ => leaves p) p.
Proof.
  intros Hp Hd. unfold Start. apply pwp_bind, pwp_get.
  destruct (bool_decide (lifetime_ p = LT_PRESTART)) eqn:El;
    [|apply pwp_ret; split; [by apply pstep_refl|split; [done|apply emitted_refl]]].
  apply bool_decide_eq_true in El. apply pwp_modify. split; [|split; [done|by apply emitted_none, same_states_heap]].
  split; try done; [|intros c; apply option_same_refl]. split; cbn; try apply Hp; try done.
  split; [congruence|by intros [? _]].
Qed.

Lemma request_OnMessage_touches c x i p : port_inv p -> conn_heap p !! c = Some x -> is_Some (StunReq.posts (requests_ x) !! i) ->
  wp (request_OnMessage (B := B) clock socket_SendTo socket_GetError c i) (fun _ p' => exists now r, touches c (fired now i r x) p p') p.
Proof.
  intros Hp E [[due id] Ei]. pose proof (port_conn_ok p c x Hp E) as Hx.
  destruct (proj1 (proj2 (proj2 Hx) id)) as [r Er].
  { apply list_elem_of_fmap. exists (due, id). split; [done|by eapply list_elem_of_lookup_2]. }
  destruct (proj1 Hx _ _ Er) as [Hid _].
  eapply pwp_mono; [apply (touch_wp _ c (fired (clock (ticks p)) i r)
    (if StunReq.timeout_ r then [] else [(stun_bytes (B := B) (StunReq.msg_ r), c_address (remote_candidate_ x))]) x p Hp E
    (request_OnMessage_emits _ _ _ _ _))|].
  - intros Q HQ. eapply request_OnMessage_wp; [exact E|exact Ei|exact Er|exact Hid|exact HQ].
  - by eapply fired_ok.
  - done.
  - intros [] p' Ht. by do 2 eexists.
Qed.

(** A packet: what it does to the connection it is for, or the signal that it
    is a ping from an unknown address. *)
Definition unknown_ping (addr : SocketAddress) (frag data : bytes) (p p' : Port) : Prop :=
  map_find addr (connections_ p) = None /\ conn_heap p' = conn_heap p /\ exists msg user,
  signals p' = signals p ++ [SignalUnknownAddress addr msg user] /\ m_type msg = STUN_BINDING_REQUEST /\
  is_Some (StunMsg.GetByteString STUN_ATTR_USERNAME msg) /\ read_stun (B := B) frag data = FromPeer msg user.
Lemma packet_same now frag data x : conn_ok x -> conn_same x (packet_effect (B := B) now frag data x).
Proof.
  intros _. unfold packet_effect, got_data, got_ping, answered, refused, revived. by repeat case_match.
Qed.

Lemma OnReadPacket_steps data addr p : port_inv p ->
  wp (OnReadPacket (B := B) clock socket_SendTo socket_GetError data addr) (fun _ p' => pstep p p' /\
    (unknown_ping addr (username_frag_ p) data p p' \/
     leaves p p' /\ (enable_port_packets_ p = false -> forall msg user, read_stun (B := B) (username_frag_ p) data = FromPeer msg user ->
       m_type msg <> STUN_BINDING_REQUEST) \/ exists c y, map_find addr (connections_ p) = Some c /\ touches c y p p')) p.
Proof.
  intros Hp. unfold OnReadPacket, GetConnection. apply pwp_bind, wp_gets.
  destruct (map_find addr (connections_ p)) as [c|] eqn:Hf.
  - destruct (pi_key _ Hp _ _ Hf) as (x & E & _). destruct (pi_conn _ Hp _ _ E) as (Hm & _ & Hok & _).
    eapply pwp_mono; [apply (wp_emits _ _ (fun _ p' => exists now, acts c (packet_effect (B := B) now (username_frag_ p) data)
      (packet_answer (B := B) (username_frag_ p) data x) p p') _ (conn_OnReadPacket_emits _ _ _ _ _))|].
    { eapply conn_OnReadPacket_wp; [exact E|apply Hp|exact Hm|]. intros now p' A. by exists now. }
    intros [] p' [[now A] Hem]. destruct (packet_ok (B := B) now (username_frag_ p) data x Hok) as [Hok' _].
    destruct (acts_pstep _ _ _ _ _ _ Hp E A (proj2 Hem) Hok') as [? Hh]; [by apply packet_same|].
    split; [done|]. right. right. exists c. eexists. split; [done|]. split; [done|]. split; [exact Hh|done].
  - unfold port_OnReadPacket. apply pwp_bind, pwp_get. destruct (enable_port_packets_ p) eqn:Een.
    { unfold signal_. apply pwp_modify. match goal with |- pstep _ ?q /\ _ => assert (Hs : pstep p q) by by apply pstep_same end.
      split; [done|]. right. left. split; [|done]. split; [done|]. split; [done|]. split; [|done]. eexists. split; [done|].
      split; [by constructor|]. right. by apply same_states_heap. }
    apply pwp_bind. eapply pwp_mono; [apply (wp_emits _ _ (fun r p' => conn_heap p' = conn_heap p /\
      connections_ p' = connections_ p /\ deletes p' = deletes p /\ fixed p' = fixed p /\
      r = handed (read_stun (B := B) (username_frag_ p) data)) _ (GetStunMessage_emits _ _ (fun _ => False) _ _))|].
    { apply GetStunMessage_wp; [apply Hp|]. intros p' F Hh D _. split_and!; try done. by injection F. }
    intros r p1 [(Hh & Hc & D & F & ->) [([|s l] & Hem & Hl & _) HL]]; [|by apply Forall_cons_1 in Hl as [? _]].
    pose proof (pstep_same p p1 Hp F Hh D HL) as Hs.
    rewrite app_nil_r in Hem. assert (Hlv : leaves p p1).
    { split; [done|]. split; [done|]. by apply emitted_none, same_states_heap. }
    pose proof (read_stun_type (B := B) (username_frag_ p) data) as Hty.
    destruct (read_stun (username_frag_ p) data) as [| |msg a|msg user] eqn:Ers; cbn [handed];
      try (apply pwp_ret; split; [done|right; left; split; done]).
    destruct (Z.eqb_spec (m_type msg) STUN_BINDING_REQUEST) as [Ht|Hne];
      [|apply pwp_ret; split; [done|right; left; split; [done|]; intros _ m u; by intros [= <- _]]].
    destruct (Hty msg user eq_refl) as (_ & a & Ea).
    unfold signal_. apply pwp_modify.
    match goal with |- pstep _ ?q /\ _ => assert (Hs' : pstep p q) by by apply pstep_same end.
    split; [done|]. left. split; [done|]. split; [done|]. exists msg, user. cbn. rewrite Hem. by split_and!; [done|done|exists a|].
Qed.

(** A new connection. *)
Lemma create_emitted p p' c x : conn_heap p !! c = None -> conn_heap p' = <[c := x]> (conn_heap p) ->
  signals p' = signals p ++ [SignalConnectionCreated c] -> random_strings p' = random_strings p -> emitted quiet p p'.
Proof.
  intros Hn Hh E L. split; [|by rewrite L]. eexists. split; [exact E|]. split; [by constructor|]. right. intros d y Ey.
  exists y. rewrite Hh, lookup_insert_ne; [done|]. congruence.
Qed.

(** The whole port goes, without a signal. *)
Lemma delete_port_wp p : port_inv p -> wp delete_port (fun _ p' => signals p' = signals p) p.
Proof.
  intros Hp. unfold delete_port. apply pwp_bind, pwp_get, pwp_bind. destruct (pi_values _ Hp) as [Hn Hl].
  eapply pwp_mono; [eapply (wp_for_each _ (fun l q => NoDup l /\ signals q = signals p /\ forall c, c ∈ l -> is_Some (conn_heap q !! c))); [done|]|].
  - intros c l q ([Hc Hnd]%NoDup_cons & Hs & Hlive). destruct (Hlive c) as [x E]; [by left|]. apply pwp_bind. eapply wp_conn; [exact E|].
    apply pwp_modify. split; [exact Hnd|]. split; [done|]. intros d Hd. cbn. rewrite lookup_delete_ne; [apply Hlive; by right|]. by intros ->.
  - by intros [] q (_ & Hs & _); apply pwp_modify.
Qed.
End Ops.
