(* ===== verification/Channel.v ===== *)
(** * The transport channel (talk/p2p/base/p2ptransportchannel.h,
    p2ptransportchannel.cc, transportchannel.cc)

    A channel tries a connection from each of its ports to every candidate of
    the peer, keeps the connections sorted and sends on the best.  The ports
    are the objects of [Port], in a heap; a connection is named by its port and
    its name there.  An operation of a port runs on the port's own state, and
    the channel handles the signals it emitted right after it.  Allocation
    sessions are known by their interface: their flag, and the ports they hand
    over; clocks, random strings and socket results are parameters. *)

From S2P Require Import Prelude TimeUtil ByteOrder ByteBuffer SocketAddress StdMap Stun StunFacts StunServer StunMessages StunRequest Effects Port.
From Stdlib Require Import SpecFloat.
#[local] Open Scope jingle_scope.

Module Channel.
Import Port.

(** ** Constants *)

Definition MSG_SORT : Z := 1.
Definition MSG_PING : Z := 2.
Definition MSG_ALLOCATE : Z := 3.
Definition PING_PACKET_SIZE : Z := 60 * 8.
Definition WRITABLE_DELAY : Z := 1000 * PING_PACKET_SIZE / 1000.
Definition UNWRITABLE_DELAY : Z := 1000 * PING_PACKET_SIZE / 10000.
Definition MAX_CURRENT_WRITABLE_DELAY : Z := 900.
Definition kMinImprovement : Z := 10.
Definition kAllocatePeriod : Z := 20 * 1000.

(** ** State *)

(** A connection: its port, and its name there. *)
Definition cptr : Type := nat * ptr.

Inductive CandidateOrigin := ORIGIN_THIS_PORT | ORIGIN_OTHER_PORT | ORIGIN_MESSAGE.
#[export] Instance CandidateOrigin_eq_dec : EqDecision CandidateOrigin.
Proof. solve_decision. Defined.
Definition GetOrigin (port : nat) (origin_port : option nat) : CandidateOrigin :=
  match origin_port with
  | None => ORIGIN_MESSAGE
  | Some o => if (port =? o)%nat then ORIGIN_THIS_PORT else ORIGIN_OTHER_PORT
  end.

Record RemoteCandidate := mkRemote { remote_candidate : Candidate; origin_port : option nat }.

(** The interface of [PortAllocatorSession]. *)
Record Session := mkSession { session_generation : Z; getting_initial_ports : bool; getting_all_ports : bool }.
Definition GetInitialPorts (s : Session) : Session := mkSession (session_generation s) true (getting_all_ports s).
Definition StartGetAllPorts (s : Session) : Session := mkSession (session_generation s) (getting_initial_ports s) true.
Definition StopGetAllPorts (s : Session) : Session := mkSession (session_generation s) (getting_initial_ports s) false.

(** What the channel signals, and the options it sets on its ports. *)
Inductive chan_signal :=
  | SignalReadableState (readable : bool)
  | SignalWritableState (writable : bool)
  | SignalRequestSignaling
  | SignalCandidateReady (c : Candidate)
  | SignalRouteChange (c : Candidate)
  | SignalChannelPacket (data : bytes)
  | SignalConnectionMonitor
  | PortSetOption (port : nat) (opt value : Z).

(** [P2PTransportChannel] with its base [TransportChannel]; [sort_posts],
    [ping_posts] and [allocate_posts] are the messages posted to it, the pings
    with their delays. *)
Record P2PTransportChannel := mkChannel {
  incoming_only_ : bool;
  waiting_for_signaling_ : bool;
  chan_error_ : Z;
  allocator_sessions_ : list Session;
  ports_ : list nat;
  chan_connections_ : list cptr;
  best_connection_ : option cptr;
  remote_candidates_ : list RemoteCandidate;
  pinging_started_ : bool;
  sort_dirty_ : bool;
  was_writable_ : bool;
  was_timed_out_ : bool;
  options_ : gmap Z Z;
  readable_ : bool;
  writable_ : bool;
  port_heap : gmap nat Port;
  next_port : nat;
  chan_ticks : nat;
  sort_posts : nat;
  ping_posts : list Z;
  allocate_posts : list Z;
  chan_signals : list chan_signal;
}.
#[export] Instance P2PTransportChannel_eta : Eta P2PTransportChannel := fun s =>
  mkChannel (incoming_only_ s) (waiting_for_signaling_ s) (chan_error_ s) (allocator_sessions_ s) (ports_ s)
    (chan_connections_ s) (best_connection_ s) (remote_candidates_ s) (pinging_started_ s) (sort_dirty_ s)
    (was_writable_ s) (was_timed_out_ s) (options_ s) (readable_ s) (writable_ s) (port_heap s) (next_port s)
    (chan_ticks s) (sort_posts s) (ping_posts s) (allocate_posts s) (chan_signals s).
Definition make : P2PTransportChannel :=
  mkChannel false false 0 [] [] [] None [] false false false true ∅ false false ∅ 0 0 0 [] [] [].

Definition P (A : Type) : Type := Prog P2PTransportChannel A.
Definition emit (s : chan_signal) : P unit := modify (fun t => t <| chan_signals := chan_signals t ++ [s] |>).
Definition port_at (i : nat) : P Port := o ← gets (fun s => port_heap s !! i); the Dangling o.
Definition conn (k : cptr) : P (Port * Connection) :=
  p ← port_at (fst k);
  x ← the Dangling (conn_heap p !! snd k);
  mret (p, x).

(** [std::stable_sort] with a comparator that reads the state. *)
Fixpoint insert {A} (less : A -> A -> P bool) (x : A) (l : list A) : P (list A) :=
  match l with
  | [] => mret [x]
  | h :: t =>
      b ← less h x;
      if b : bool then t' ← insert less x t; mret (h :: t') else mret (x :: h :: t)
  end.
Fixpoint stable_sort {A} (less : A -> A -> P bool) (l : list A) : P (list A) :=
  match l with [] => mret [] | x :: t => t' ← stable_sort less t; insert less x t' end.
(** Insertion into a [std::set] of pointers. *)
Fixpoint set_insert (n : nat) (l : list nat) : list nat :=
  match l with
  | [] => [n]
  | h :: t => if (n <? h)%nat then n :: l else if (h <? n)%nat then h :: set_insert n t else l
  end.

(** ** Comparing connections *)

(** The product of two [float]s. *)
Definition float_mul : spec_float -> spec_float -> spec_float := SFmul 24 128.

(** The preferences and generations of a candidate pair. *)
Definition compare_candidates (a_pref b_pref : spec_float) (a_gen b_gen : Z) : Z :=
  if SFltb b_pref a_pref then 1
  else if SFltb a_pref b_pref then -1
  else s32 (a_gen -u b_gen).
Definition pair_preference (local : Candidate) (x : Connection) : spec_float :=
  float_mul (c_preference local) (c_preference (Port.remote_candidate_ x)).
Definition pair_generation (p : Port) (x : Connection) : Z :=
  c_generation (Port.remote_candidate_ x) +u generation_ p.
(** The local candidate of a connection, whose preference is the port's. *)
Definition local_of (p : Port) (x : Connection) : P Candidate :=
  l ← the AssertFailed (candidates_ p !! local_candidate_index_ x);
  ASSERT (SFeqb (c_preference l) (preference_ p));;
  mret l.

Definition CompareConnectionCandidates (a b : cptr) : P Z :=
  '(pa, xa) ← conn a;
  '(pb, xb) ← conn b;
  la ← local_of pa xa;
  lb ← local_of pb xb;
  mret (compare_candidates (pair_preference la xa) (pair_preference lb xb) (pair_generation pa xa) (pair_generation pb xb)).

Definition write_index (w : WriteState) : Z :=
  match w with STATE_WRITABLE => 0 | STATE_WRITE_CONNECT => 1 | STATE_WRITE_TIMEOUT => 2 end.
Definition CompareConnections (a b : cptr) : P Z :=
  '(_, xa) ← conn a;
  '(_, xb) ← conn b;
  if write_index (write_state_ xa) <? write_index (write_state_ xb) then mret 1
  else if write_index (write_state_ xb) <? write_index (write_state_ xa) then mret (-1)
  else CompareConnectionCandidates a b.

Definition ConnectionCompare (a b : cptr) : P bool :=
  cmp ← CompareConnections a b;
  if 0 <? cmp then mret true
  else if cmp <? 0 then mret false
  else
    '(_, xa) ← conn a;
    '(_, xb) ← conn b;
    mret (rtt_ xa <? rtt_ xb).

Definition ShouldSwitch (a_conn b_conn : option cptr) : P bool :=
  if bool_decide (a_conn = b_conn) then mret false
  else
    match a_conn, b_conn with
    | Some a, Some b =>
        prefs_cmp ← CompareConnections a b;
        if prefs_cmp <? 0 then mret true
        else if 0 <? prefs_cmp then mret false
        else
          '(_, xa) ← conn a;
          '(_, xb) ← conn b;
          mret (rtt_ xb <=? rtt_ xa + kMinImprovement)
    | _, _ => mret true
    end.

(** ** Running the operations of a port *)

Section Code.
Context {B : Type} `{ByteQueue B}.
(** The clock of the channel; of every port the clock, the random strings and
    the results of its socket. *)
Variable chan_clock : nat -> Z.
Variable clock : nat -> nat -> Z.
Variable random_id : nat -> nat -> bytes.
Variable socket_SendTo : nat -> nat -> Z.
Variable socket_GetError : nat -> nat -> Z.

Definition Time : P Z := fun s => Done (u32 (chan_clock (chan_ticks s))) (s <| chan_ticks := S (chan_ticks s) |>).

Definition RequestSort : P unit :=
  s ← get;
  if negb (sort_dirty_ s) then modify (fun s => s <| sort_posts := S (sort_posts s) |> <| sort_dirty_ := true |>)
  else mret tt.

Definition SwitchBestConnectionTo (c : option cptr) : P unit :=
  modify (fun s => s <| best_connection_ := c |>);;
  match c with
  | Some k => '(_, x) ← conn k; emit (SignalRouteChange (Port.remote_candidate_ x))
  | None => mret tt
  end.

Definition OnConnectionStateChange (k : cptr) : P unit := RequestSort.
Definition OnReadPacket (k : cptr) (data : bytes) : P unit := emit (SignalChannelPacket data).
Definition remove_first {A} `{EqDecision A} (x : A) : list A -> list A :=
  fix go l := match l with [] => [] | y :: l => if bool_decide (y = x) then l else y :: go l end.
Definition OnConnectionDestroyed (k : cptr) : P unit :=
  s ← get;
  ASSERT (bool_decide (k ∈ chan_connections_ s));;
  modify (fun s => s <| chan_connections_ := remove_first k (chan_connections_ s) |>);;
  if bool_decide (best_connection_ s = Some k) then SwitchBestConnectionTo None;; RequestSort else mret tt.
(** The port deletes itself after the signal. *)
Definition OnPortDestroyed (i : nat) : P unit :=
  modify (fun s => s <| ports_ := remove_first i (ports_ s) |>);;
  modify (fun s => s <| port_heap := base.delete i (port_heap s) |>).

(** The slots of the channel.  A port signals an unknown address only while it
    reads a packet from its socket, see [deliver]. *)
Definition handle (i : nat) (sg : signal) : P unit :=
  match sg with
  | SignalStateChange c => OnConnectionStateChange (i, c)
  | SignalReadPacket c data => OnReadPacket (i, c) data
  | SignalConnectionDestroyed c => OnConnectionDestroyed (i, c)
  | SignalDestroyed => OnPortDestroyed i
  | SignalUnknownAddress _ _ _ => fail AssertFailed
  | SignalAddressReady | SignalConnectionCreated _ | SignalPortPacket _ _ => mret tt
  end.
Definition run_port {A} (slots : nat -> signal -> P unit) (i : nat) (m : Prog Port A) : P A :=
  p ← port_at i;
  match m p with
  | Failed f => fail f
  | Done a p' =>
      modify (fun s => s <| port_heap := <[i := p']> (port_heap s) |>);;
      for_each (slots i) (drop (length (signals p)) (signals p'));;
      mret a
  end.
Definition on_port {A} : nat -> Prog Port A -> P A := run_port handle.

(** ** The state of the channel *)

Definition set_readable (readable : bool) : P unit :=
  s ← get;
  if negb (Bool.eqb (readable_ s) readable) then
    modify (fun s => s <| readable_ := readable |>);; emit (SignalReadableState readable)
  else mret tt.
Definition set_writable (writable : bool) : P unit :=
  s ← get;
  if negb (Bool.eqb (writable_ s) writable) then
    modify (fun s => s <| writable_ := writable |>);; emit (SignalWritableState writable)
  else mret tt.

Definition CancelPendingAllocate : P unit := modify (fun s => s <| allocate_posts := [] |>).
Definition Allocate : P unit :=
  CancelPendingAllocate;;
  modify (fun s => s <| waiting_for_signaling_ := true |>);;
  emit SignalRequestSignaling.

Definition HandleWritable : P unit :=
  s ← get;
  (if negb (writable_ s) then
     modify (fun s => s <| allocator_sessions_ :=
       map (fun a => if getting_all_ports a then StopGetAllPorts a else a) (allocator_sessions_ s) |>);;
     CancelPendingAllocate
   else mret tt);;
  modify (fun s => s <| was_writable_ := true |> <| was_timed_out_ := false |>);;
  set_writable true.
Definition HandleNotWritable : P unit :=
  s ← get;
  (if was_writable_ s then modify (fun s => s <| was_writable_ := false |>);; Allocate else mret tt);;
  modify (fun s => s <| was_timed_out_ := false |>);;
  set_writable false.
Definition HandleAllTimedOut : P unit :=
  s ← get;
  (if negb (was_timed_out_ s) then Allocate else mret tt);;
  modify (fun s => s <| was_timed_out_ := true |> <| was_writable_ := false |>);;
  set_writable false.

(** The connections, in the order of the list. *)
Fixpoint conns (l : list cptr) : P (list Connection) :=
  match l with [] => mret [] | k :: l => '(_, x) ← conn k; xs ← conns l; mret (x :: xs) end.
Definition has_write (w : WriteState) (xs : list Connection) : bool := existsb (fun x => bool_decide (write_state_ x = w)) xs.
Definition has_read (r : ReadState) (xs : list Connection) : bool := existsb (fun x => bool_decide (read_state_ x = r)) xs.

Definition UpdateChannelState : P unit :=
  s ← get;
  writable ← (match best_connection_ s with
    | Some k => '(_, x) ← conn k; mret (bool_decide (write_state_ x = STATE_WRITABLE))
    | None => mret false
    end);
  ASSERT (Bool.eqb writable (writable_ s));;
  xs ← conns (chan_connections_ s);
  set_readable (has_read STATE_READABLE xs).

(** ** Choosing the best connection *)

Definition UpdateConnectionStates : P unit :=
  now ← Time;
  s ← get;
  for_each (fun k => on_port (fst k) (UpdateState (snd k) now)) (chan_connections_ s).

Definition network_of (k : cptr) : P nat := '(p, _) ← conn k; mret (network_id (network_ p)).
Fixpoint networks_of (l : list cptr) : P (list nat) :=
  match l with [] => mret [] | k :: l => n ← network_of k; ns ← networks_of l; mret (set_insert n ns) end.
Fixpoint first_on_network (n : nat) (l : list cptr) : P (option cptr) :=
  match l with
  | [] => mret None
  | k :: l => m ← network_of k; if (m =? n)%nat then mret (Some k) else first_on_network n l
  end.
Definition GetBestConnectionOnNetwork (n : nat) : P (option cptr) :=
  s ← get;
  match best_connection_ s with
  | Some b => m ← network_of b; if (m =? n)%nat then mret (Some b) else first_on_network n (chan_connections_ s)
  | None => first_on_network n (chan_connections_ s)
  end.

(** The body of the loops that prune the connections on network [n]. *)
Definition prune_one (n : nat) (primier k : cptr) : P unit :=
  if bool_decide (k = primier) then mret tt
  else
    m ← network_of k;
    if (m =? n)%nat then
      c ← CompareConnectionCandidates primier k;
      if 0 <=? c then on_port (fst k) (Prune (snd k)) else mret tt
    else mret tt.
Definition prune_network (n : nat) : P unit :=
  primier ← GetBestConnectionOnNetwork n;
  match primier with
  | None => mret tt
  | Some k =>
      '(_, x) ← conn k;
      if bool_decide (write_state_ x = STATE_WRITABLE) then
        s ← get; for_each (prune_one n k) (chan_connections_ s)
      else mret tt
  end.

Definition SortConnections : P unit :=
  UpdateConnectionStates;;
  modify (fun s => s <| sort_dirty_ := false |>);;
  s ← get;
  networks ← networks_of (chan_connections_ s);
  sorted ← stable_sort ConnectionCompare (chan_connections_ s);
  modify (fun s => s <| chan_connections_ := sorted |>);;
  let top_connection := head sorted in
  switch ← ShouldSwitch (best_connection_ s) top_connection;
  (if switch : bool then SwitchBestConnectionTo top_connection else mret tt);;
  for_each prune_network networks;;
  xs ← conns sorted;
  (if has_write STATE_WRITABLE xs then HandleWritable
   else if has_write STATE_WRITE_CONNECT xs then HandleNotWritable
   else HandleAllTimedOut);;
  UpdateChannelState;;
  emit SignalConnectionMonitor.

(** ** Candidates and ports *)

Definition CreateConnection (port : nat) (candidate : Candidate) (origin : option nat) (readable : bool) : P bool :=
  p ← port_at port;
  match map_find (c_address candidate) (Port.connections_ p) with
  | Some c =>
      x ← the Dangling (conn_heap p !! c);
      if negb (IsEquivalent candidate (Port.remote_candidate_ x)) then mret false
      else (if readable then on_port port (ReceivedPing (clock port) c) else mret tt);; mret true
  | None =>
      s ← get;
      if bool_decide (GetOrigin port origin = ORIGIN_MESSAGE) && incoming_only_ s then mret false
      else
        o ← on_port port (Port.CreateConnection candidate);
        match o with
        | None => mret false
        | Some c =>
            modify (fun s => s <| chan_connections_ := chan_connections_ s ++ [(port, c)] |>);;
            (if readable then on_port port (ReceivedPing (clock port) c) else mret tt);; mret true
        end
  end.

Definition RememberRemoteCandidate (candidate : Candidate) (origin : option nat) : P unit :=
  modify (fun s => s <| remote_candidates_ :=
    List.filter (fun r => negb (c_generation (remote_candidate r) <? c_generation candidate)) (remote_candidates_ s) |>);;
  s ← get;
  if existsb (fun r => IsEquivalent (remote_candidate r) candidate) (remote_candidates_ s) then mret tt
  else
    modify (fun s => s <| remote_candidates_ := remote_candidates_ s ++ [mkRemote candidate origin] |>);;
    s ← get;
    if negb (pinging_started_ s) then
      modify (fun s => s <| pinging_started_ := true |> <| allocator_sessions_ :=
        map (fun a => if negb (getting_all_ports a) then StartGetAllPorts a else a) (allocator_sessions_ s) |>)
    else mret tt.

(** The loop over the ports, latest first; whether the origin port created. *)
Fixpoint create_on (candidate : Candidate) (origin : option nat) (readable created : bool) (ports : list nat) : P bool :=
  match ports with
  | [] => mret created
  | i :: ports =>
      b ← CreateConnection i candidate origin readable;
      create_on candidate origin readable (created || (b && bool_decide (origin = Some i))) ports
  end.
Definition CreateConnections (candidate : Candidate) (origin : option nat) (readable : bool) : P bool :=
  s ← get;
  created ← create_on candidate origin readable false (rev (ports_ s));
  s ← get;
  created ← (match origin with
    | Some i =>
        if bool_decide (i ∈ ports_ s) then mret created
        else b ← CreateConnection i candidate origin readable; mret (created || b)
    | None => mret created
    end);
  RememberRemoteCandidate candidate origin;;
  mret created.

Definition OnUnknownAddress (port : nat) (address : SocketAddress) (msg : StunMessage) (remote_username : bytes) : P unit :=
  s ← get;
  match find (fun r => bool_decide (c_username (remote_candidate r) = remote_username)) (remote_candidates_ s) with
  | None =>
      on_port port (SendBindingErrorResponse (B := B) (socket_SendTo port) (socket_GetError port) msg address
        STUN_ERROR_STALE_CREDENTIALS STUN_ERROR_REASON_STALE_CREDENTIALS)
  | Some r =>
      let c := remote_candidate r in
      let new_remote_candidate := mkCandidate (c_name c) (c_protocol c) address (c_preference c) (c_username c)
        (c_password c) (c_type c) (c_network_name c) (c_generation c) in
      created ← CreateConnections new_remote_candidate (Some port) true;
      if created : bool then
        on_port port (SendBindingResponse (B := B) (clock port) (socket_SendTo port) (socket_GetError port) msg address);;
        SortConnections
      else fail AssertFailed
  end.

(** A port reads a packet, the only operation that signals an unknown address. *)
Definition deliver (port : nat) (data : bytes) (addr : SocketAddress) : P unit :=
  run_port (fun i sg => match sg with SignalUnknownAddress a m u => OnUnknownAddress i a m u | _ => handle i sg end)
    port (Port.OnReadPacket (B := B) (clock port) (socket_SendTo port) (socket_GetError port) data addr).

Definition OnPortReady (port : nat) : P unit :=
  s ← get;
  for_each (fun o => emit (PortSetOption port (fst o) (snd o))) (map_to_list (options_ s));;
  modify (fun s => s <| ports_ := ports_ s ++ [port] |>);;
  s ← get;
  for_each (fun r => CreateConnection port (remote_candidate r) (origin_port r) false;; mret tt) (remote_candidates_ s);;
  SortConnections.
Definition OnCandidatesReady (candidates : list Candidate) : P unit :=
  for_each (fun c => emit (SignalCandidateReady c)) candidates.
Definition OnCandidate (candidate : Candidate) : P unit :=
  CreateConnections candidate None false;; SortConnections.

(** ** Sessions *)

Definition AddAllocatorSession : P unit :=
  modify (fun s =>
    let session := GetInitialPorts (mkSession (Z.of_nat (length (allocator_sessions_ s))) false false) in
    s <| allocator_sessions_ := allocator_sessions_ s ++ [if pinging_started_ s then StartGetAllPorts session else session] |>
      <| ports_ := [] |>).
Definition OnSignalingReady : P unit :=
  s ← get;
  if waiting_for_signaling_ s then
    modify (fun s => s <| waiting_for_signaling_ := false |>);;
    AddAllocatorSession;;
    modify (fun s => s <| allocate_posts := allocate_posts s ++ [kAllocatePeriod] |>)
  else mret tt.
Definition Connect : P unit :=
  Allocate;;
  modify (fun s => s <| ping_posts := ping_posts s ++ [0] |>).

(** The sessions delete the ports they made. *)
Definition delete_ports : P unit :=
  s ← get;
  for_each (fun i => on_port i delete_port;; modify (fun s => s <| port_heap := base.delete i (port_heap s) |>))
    (map fst (map_to_list (port_heap s))).
Definition Reset (connect_requested : bool) : P unit :=
  delete_ports;;
  modify (fun s => s <| allocator_sessions_ := [] |> <| ports_ := [] |> <| chan_connections_ := [] |>
    <| best_connection_ := None |> <| remote_candidates_ := [] |>);;
  set_readable false;;
  set_writable false;;
  modify (fun s => s <| waiting_for_signaling_ := false |> <| pinging_started_ := false |> <| sort_dirty_ := false |>
    <| was_writable_ := false |> <| was_timed_out_ := true |>);;
  (if connect_requested then Allocate else mret tt);;
  modify (fun s => s <| sort_posts := 0%nat |> <| allocate_posts := [] |> <| ping_posts := [0] |>).
Definition delete_channel : P unit := delete_ports.

Definition set_incoming_only (value : bool) : P unit := modify (fun s => s <| incoming_only_ := value |>).
Definition SetOption (opt value : Z) : P Z :=
  s ← get;
  if bool_decide (options_ s !! opt = Some value) then mret 0
  else
    modify (fun s => s <| options_ := <[opt := value]> (options_ s) |>);;
    for_each (fun i => emit (PortSetOption i opt value)) (ports_ s);;
    mret 0.

(** ** Sending and pinging *)

Definition SendPacket (data : bytes) : P Z :=
  s ← get;
  match best_connection_ s with
  | None => modify (fun s => s <| chan_error_ := EWOULDBLOCK |>);; mret SOCKET_ERROR
  | Some k =>
      sent ← on_port (fst k) (Port.Send (socket_SendTo (fst k)) (socket_GetError (fst k)) (snd k) data);
      (if sent <=? 0 then
         ASSERT (sent <? 0);;
         '(_, x) ← conn k; modify (fun s => s <| chan_error_ := Port.error_ x |>)
       else mret tt);;
      mret sent
  end.

Definition IsPingable (x : Connection) : P bool :=
  s ← get;
  if negb (connected_ x) then mret false
  else if writable_ s then mret (negb (bool_decide (write_state_ x = STATE_WRITE_TIMEOUT)))
  else mret (negb (bool_decide (write_state_ x = STATE_WRITE_TIMEOUT)) || negb (bool_decide (read_state_ x = STATE_READ_TIMEOUT))).

(** The loop over the connections, with the oldest time and connection so far. *)
Fixpoint oldest_pingable (oldest_time : Z) (oldest_conn : option cptr) (l : list cptr) : P (option cptr) :=
  match l with
  | [] => mret oldest_conn
  | k :: l =>
      '(_, x) ← conn k;
      pingable ← IsPingable x;
      if pingable && (last_ping_sent_ x <? oldest_time)
      then oldest_pingable (last_ping_sent_ x) (Some k) l else oldest_pingable oldest_time oldest_conn l
  end.
Definition FindNextPingableConnection : P (option cptr) :=
  now ← Time;
  s ← get;
  b ← (match best_connection_ s with
    | Some k =>
        '(_, x) ← conn k;
        mret (if bool_decide (write_state_ x = STATE_WRITABLE) && ((last_ping_sent_ x +u MAX_CURRENT_WRITABLE_DELAY) <=? now)
              then Some k else None)
    | None => mret None
    end);
  match b with Some k => mret (Some k) | None => oldest_pingable 4294967295 None (chan_connections_ s) end.
Definition NumPingableConnections : P Z :=
  s ← get;
  xs ← conns (chan_connections_ s);
  (fix go (n : Z) l := match l with [] => mret n | x :: l => b ← IsPingable x; go (if b : bool then n +u 1 else n) l end) 0 xs.

Definition OnPing : P unit :=
  UpdateConnectionStates;;
  o ← FindNextPingableConnection;
  (match o with
   | Some k => now ← Time; on_port (fst k) (Ping (clock (fst k)) (random_id (fst k)) (snd k) now)
   | None => mret tt
   end);;
  modify (fun s => s <| ping_posts := ping_posts s ++ [if writable_ s then WRITABLE_DELAY else UNWRITABLE_DELAY] |>).
Definition OnSort : P unit := SortConnections.
Definition OnMessage (message_id : Z) : P unit :=
  if message_id =? MSG_SORT then OnSort
  else if message_id =? MSG_PING then OnPing
  else if message_id =? MSG_ALLOCATE then Allocate
  else fail AssertFailed.
End Code.
End Channel.
