(* ===== verification/ChannelRuns.v ===== *)
(** * What the operations of a channel do

    The invariant that ties the lists of a channel to the heap of its ports;
    running an operation of a port; the comparison of connections as a pure
    function, and sorting by it; the update, pruning and choice of connections. *)

From S2P Require Import Prelude TimeUtil ByteOrder ByteBuffer SocketAddress StdMap Stun StunFacts StunServer StunMessages StunRequest Effects Port PortRuns PortFacts PortSteps Channel.
From Stdlib Require Import SpecFloat Sorted.
#[local] Open Scope jingle_scope.
Import Port Channel.
#[local] Set Default Proof Using "Type".

(** ** Sorting *)

Section Sort.
Context {A : Type} (lt : A -> A -> bool).
Fixpoint ins (x : A) (l : list A) : list A :=
  match l with [] => [x] | h :: t => if lt h x then h :: ins x t else x :: h :: t end.
Fixpoint sort_by (l : list A) : list A := match l with [] => [] | x :: t => ins x (sort_by t) end.

Lemma ins_perm x l : Permutation (ins x l) (x :: l).
Proof. induction l as [|h t IH]; cbn; [done|]. destruct (lt h x); [|done]. rewrite IH. apply Permutation_swap. Qed.
Lemma sort_perm l : Permutation (sort_by l) l.
Proof. induction l as [|x l IH]; cbn; [done|]. by rewrite ins_perm, IH. Qed.

(** The list is sorted by any transitive relation that the comparator decides. *)
Lemma sort_sorted (R : A -> A -> Prop) l :
  (forall a b c, a ∈ l -> b ∈ l -> c ∈ l -> R a b -> R b c -> R a c) ->
  (forall a b, a ∈ l -> b ∈ l -> if lt a b then R a b else R b a) -> StronglySorted R (sort_by l).
Proof.
  induction l as [|x l IH]; intros Ht Hd; cbn; [constructor|].
  assert (Hs : StronglySorted R (sort_by l)).
  { apply IH; [intros a b c ? ? ?; apply Ht; by right|intros a b ? ?; apply Hd; by right]. }
  assert (Hin : forall a, a ∈ sort_by l -> a ∈ l) by (intros a; by rewrite sort_perm).
  clear IH. induction Hs as [|h t Hs IHs Hh]; cbn; [repeat constructor|].
  assert (Hhl : h ∈ x :: l) by (right; apply Hin; by left).
  pose proof (Hd h x Hhl ltac:(by left)) as Hhx. destruct (lt h x).
  - constructor; [apply IHs; intros a ?; apply Hin; by right|]. apply List.Forall_forall. intros a Ha.
    apply list_elem_of_In in Ha. rewrite ins_perm in Ha. apply elem_of_cons in Ha as [->|Ha]; [done|].
    rewrite List.Forall_forall in Hh. by apply Hh, list_elem_of_In.
  - constructor; [by constructor|]. constructor; [done|]. rewrite List.Forall_forall in *. intros a Ha.
    apply (Ht x h a); [by left|done| |done|by apply Hh]. right. apply Hin. right. by apply list_elem_of_In.
Qed.
Lemma sort_head (R : A -> A -> Prop) l h t : (forall a, R a a) ->
  StronglySorted R (sort_by l) -> sort_by l = h :: t -> forall a, a ∈ l -> R h a.
Proof.
  intros Hr Hs E a Ha. rewrite E in Hs. apply StronglySorted_inv in Hs as [_ Hf].
  rewrite <- (sort_perm l), E in Ha. apply elem_of_cons in Ha as [->|Ha]; [done|].
  rewrite List.Forall_forall in Hf. by apply Hf, list_elem_of_In.
Qed.

Variable less : A -> A -> P bool.
Lemma stable_sort_wp l s (Q : list A -> P2PTransportChannel -> Prop) :
  (forall a b, a ∈ l -> b ∈ l -> wp (less a b) (fun r s' => r = lt a b /\ s' = s) s) ->
  Q (sort_by l) s -> wp (stable_sort less l) Q s.
Proof.
  intros Hl Hq. enough (Hw : wp (stable_sort less l) (fun r s' => r = sort_by l /\ s' = s) s).
  { eapply pwp_mono; [exact Hw|]. by intros r s' [-> ->]. }
  clear Hq. induction l as [|x l IH]; cbn; [by split|]. apply pwp_bind.
  eapply pwp_mono; [apply IH; intros a b ? ?; apply Hl; by right|]. intros r s' [-> ->].
  assert (Hin : forall a, a ∈ sort_by l -> a ∈ x :: l) by (intros a; rewrite sort_perm; by right).
  clear IH. induction (sort_by l) as [|h t IHt]; cbn; [by split|]. apply pwp_bind.
  eapply pwp_mono; [apply Hl; [apply Hin; by left|by left]|]. intros b s' [-> ->]. destruct (lt h x); [|by split].
  apply pwp_bind. eapply pwp_mono; [apply IHt; intros a ?; apply Hin; by right|]. by intros r s' [-> ->].
Qed.
End Sort.

(** ** The state of a channel *)

(** The port and the connection that a name means. *)
Definition conn_of (s : P2PTransportChannel) (k : cptr) : option (Port * Connection) :=
  p ← port_heap s !! fst k; x ← conn_heap p !! snd k; Some (p, x).
(** A sort that was asked for is posted. *)
Definition sort_ok (s : P2PTransportChannel) : Prop := sort_dirty_ s = true -> (0 < sort_posts s)%nat.
(** A sort may be asked for, once. *)
Definition sort_step (s s' : P2PTransportChannel) : Prop :=
  (sort_dirty_ s' = sort_dirty_ s /\ sort_posts s' = sort_posts s) \/
  (sort_dirty_ s = false /\ sort_dirty_ s' = true /\ sort_posts s' = S (sort_posts s)).
Lemma sort_step_refl s : sort_step s s.
Proof. by left. Qed.
Lemma sort_step_trans s1 s2 s3 : sort_step s1 s2 -> sort_step s2 s3 -> sort_step s1 s3.
Proof. intros [[D1 P1]|(D1 & D1' & P1)] [[D2 P2]|(D2 & D2' & P2)]; [left|right|right|]; (split_and! || idtac); congruence. Qed.
Lemma sort_step_ok s s' : sort_step s s' -> sort_ok s -> sort_ok s'.
Proof. unfold sort_ok. intros [[-> ->]|(_ & _ & ->)]; [done|lia]. Qed.

(** A port that has its address, and its connections. *)
Definition port_fit (p : Port) : Prop := exists l, candidates_ p !! 0%nat = Some l /\ SFeqb (c_preference l) (preference_ p) = true.
Definition conn_fit (x : Connection) : Prop := local_candidate_index_ x = 0%nat /\ connected_ x = true.

Record chan_inv (s : P2PTransportChannel) : Prop := {
  ci_port : forall i p, port_heap s !! i = Some p ->
    port_inv p /\ destroyed p = false /\ port_fit p /\ (i < next_port s)%nat /\
    forall c x, conn_heap p !! c = Some x -> conn_fit x;
  ci_nodup : NoDup (chan_connections_ s);
  ci_conns : forall k, k ∈ chan_connections_ s <-> is_Some (conn_of s k);
  ci_best : forall k, best_connection_ s = Some k -> k ∈ chan_connections_ s;
  ci_ports : NoDup (ports_ s) /\ forall i, i ∈ ports_ s -> is_Some (port_heap s !! i);
  ci_remote : Forall (fun r => c_protocol (remote_candidate r) = str "udp") (remote_candidates_ s);
}.

Lemma conn_of_spec s k p x : conn_of s k = Some (p, x) <-> port_heap s !! fst k = Some p /\ conn_heap p !! snd k = Some x.
Proof.
  unfold conn_of. destruct (port_heap s !! fst k) as [q|]; cbn; [|by split; [|intros [? _]]].
  destruct (conn_heap q !! snd k) as [y|] eqn:E; cbn.
  - split; [intros [= -> ->]; done|]. intros [[= ->] E']. congruence.
  - split; [done|]. intros [[= ->] E']. congruence.
Qed.
Lemma conn_wp s k p x (Q : Port * Connection -> P2PTransportChannel -> Prop) :
  conn_of s k = Some (p, x) -> Q (p, x) s -> wp (conn k) Q s.
Proof.
  intros (Ep & Ex)%conn_of_spec Hq. unfold conn, port_at. apply pwp_bind, pwp_bind, wp_gets.
  eapply wp_the; [exact Ep|]. apply pwp_bind. eapply wp_the; [exact Ex|]. by apply pwp_ret.
Qed.
Lemma port_at_wp s i p (Q : Port -> P2PTransportChannel -> Prop) : port_heap s !! i = Some p -> Q p s -> wp (port_at i) Q s.
Proof. intros E Hq. unfold port_at. apply pwp_bind, wp_gets. by eapply wp_the. Qed.

(** Everything but the heap of ports, the clock, the signals and the sort messages. *)
Definition kept (s : P2PTransportChannel) :=
  (incoming_only_ s, waiting_for_signaling_ s, chan_error_ s, allocator_sessions_ s, ports_ s, chan_connections_ s,
   best_connection_ s, remote_candidates_ s, pinging_started_ s, was_writable_ s, was_timed_out_ s, options_ s,
   readable_ s, writable_ s, next_port s, ping_posts s, allocate_posts s).
(** What the handlers of quiet signals do. *)
Definition noise (s s' : P2PTransportChannel) : Prop :=
  kept s' = kept s /\ port_heap s' = port_heap s /\ sort_step s s'.
Lemma noise_refl s : noise s s.
Proof. split; [done|]. split; [done|apply sort_step_refl]. Qed.
Lemma noise_trans s1 s2 s3 : noise s1 s2 -> noise s2 s3 -> noise s1 s3.
Proof. intros (K1 & H1 & S1) (K2 & H2 & S2). split; [congruence|]. split; [congruence|]. by eapply sort_step_trans. Qed.

Lemma handle_quiet i sg s : quiet sg -> wp (handle i sg) (fun _ s' => noise s s' /\
  (forall c, sg = SignalStateChange c -> sort_dirty_ s' = true)) s.
Proof.
  destruct sg; cbn [quiet handle]; try done; intros _; try (apply pwp_ret; split; [apply noise_refl|done]).
  - unfold OnConnectionStateChange, RequestSort. apply pwp_bind, pwp_get. destruct (sort_dirty_ s) eqn:Ed; cbn [negb].
    + apply pwp_ret. by split; [apply noise_refl|].
    + apply pwp_modify. split; [|done]. split; [done|]. split; [done|]. by right.
  - unfold OnReadPacket, emit. apply pwp_modify. split; [|done]. split; [done|]. split; [done|]. by left.
Qed.
Lemma noise_dirty s s' : noise s s' -> sort_dirty_ s = true -> sort_dirty_ s' = true.
Proof. intros (_ & _ & [[-> _]|(_ & -> & _)]); done. Qed.
Lemma handle_all_quiet (slots : nat -> signal -> P unit) i l s : (forall sg, quiet sg -> slots i sg = handle i sg) ->
  Forall quiet l -> wp (for_each (slots i) l) (fun _ s' => noise s s' /\
    ((exists c, SignalStateChange c ∈ l) -> sort_dirty_ s' = true)) s.
Proof.
  intros Hs. revert s. induction l as [|sg l IH]; intros s Hl; cbn [for_each].
  { apply pwp_ret. split; [apply noise_refl|]. by intros [c Hc%not_elem_of_nil]. }
  apply Forall_cons_1 in Hl as [Hq Hl]. apply pwp_bind. rewrite (Hs _ Hq). wp_apply (handle_quiet i sg s Hq).
  intros [] s1 [N1 D1]. wp_apply (IH s1 Hl). intros _ s2 [N2 D2]. split; [by eapply noise_trans|].
  intros [c [<-|Hc]%elem_of_cons]; [|apply D2; by exists c]. apply (noise_dirty s1); [done|]. by apply (D1 c).
Qed.

(** A port operation that only emits quiet signals; a change of state asks for
    a sort. *)
Lemma run_port_wp {A} slots i (m : Prog Port A) (R : A -> Port -> Prop) p s (Q : A -> P2PTransportChannel -> Prop) :
  (forall sg, quiet sg -> slots i sg = handle i sg) -> port_heap s !! i = Some p ->
  wp m (fun a p' => R a p' /\ emitted quiet p p') p ->
  (forall a p' s', R a p' -> noise (s <| port_heap := <[i := p']> (port_heap s) |>) s' ->
    sort_dirty_ s' = true \/ same_states p p' -> Q a s') ->
  wp (run_port slots i m) Q s.
Proof.
  intros Hs Ep Hm Hq. unfold run_port. apply pwp_bind. eapply port_at_wp; [exact Ep|].
  unfold wp in Hm. destruct (m p) as [a p'|] eqn:Em; [|done]. destruct Hm as [HR [(l & El & Hl & Ht) _]].
  apply pwp_bind, pwp_modify, pwp_bind. rewrite El, drop_app_length.
  eapply pwp_mono; [eapply (handle_all_quiet slots i l _ Hs Hl)|]. intros [] s' [N D]. apply pwp_ret, (Hq a p'); [done|done|].
  destruct Ht as [Ht|?]; [left; by apply D|by right].
Qed.

(** ** Steps that keep the connections *)

Definition port_option_step (o o' : option Port) : Prop :=
  match o, o' with Some p, Some p' => pstep p p' | None, None => True | _, _ => False end.
Definition heap_step (s s' : P2PTransportChannel) : Prop :=
  forall i, port_option_step (port_heap s !! i) (port_heap s' !! i).
(** The connection alone. *)
Definition conn_x (s : P2PTransportChannel) (k : cptr) : option Connection := snd <$> conn_of s k.
Lemma conn_x_of s k x : conn_x s k = Some x <-> exists p, conn_of s k = Some (p, x).
Proof.
  unfold conn_x. destruct (conn_of s k) as [[p y]|]; cbn; [|by split; [|intros [? ?]]].
  split; [intros [= ->]; by exists p|by intros [q [= _ ->]]].
Qed.
(** No connection changes state without a sort that was asked for. *)
Definition told (s s' : P2PTransportChannel) : Prop := sort_dirty_ s' = true \/
  forall k x, conn_x s k = Some x -> exists x', conn_x s' k = Some x' /\ states x' = states x.
Definition calm (s s' : P2PTransportChannel) : Prop :=
  kept s' = kept s /\ heap_step s s' /\ sort_step s s' /\ told s s'.
Lemma told_trans s1 s2 s3 : sort_step s2 s3 -> told s1 s2 -> told s2 s3 -> told s1 s3.
Proof.
  intros Hs [D1|T1] [D2|T2]; [by left| |by left|].
  - left. destruct Hs as [[-> _]|(_ & ? & _)]; done.
  - right. intros k x E. destruct (T1 k x E) as (y & Ey & Sy). destruct (T2 k y Ey) as (z & Ez & Sz). exists z. by rewrite Sz.
Qed.
Lemma told_heap s s' : (forall k, conn_x s' k = conn_x s k) -> told s s'.
Proof. intros Hx. right. intros k x E. exists x. by rewrite Hx. Qed.

Lemma kept_fields s s' : kept s' = kept s -> ports_ s' = ports_ s /\ chan_connections_ s' = chan_connections_ s /\
  best_connection_ s' = best_connection_ s /\ remote_candidates_ s' = remote_candidates_ s /\
  next_port s' = next_port s /\ writable_ s' = writable_ s /\ incoming_only_ s' = incoming_only_ s.
Proof. by intros [=]. Qed.

Lemma kept_readable s s' : kept s' = kept s -> readable_ s' = readable_ s.
Proof. by intros [=]. Qed.

Lemma calm_refl s : chan_inv s -> calm s s.
Proof.
  intros Hi. split; [done|]. split; [|split; [apply sort_step_refl|by apply told_heap]].
  intros i. destruct (port_heap s !! i) as [p|] eqn:E; [|done].
  apply pstep_refl. by destruct (ci_port _ Hi _ _ E).
Qed.
Lemma calm_trans s1 s2 s3 : calm s1 s2 -> calm s2 s3 -> calm s1 s3.
Proof.
  intros (K1 & H1 & S1 & T1) (K2 & H2 & S2 & T2). split; [congruence|].
  split; [|split; [by eapply sort_step_trans|by eapply told_trans]]. intros i. specialize (H1 i). specialize (H2 i).
  destruct (port_heap s1 !! i), (port_heap s2 !! i), (port_heap s3 !! i); try done. by eapply pstep_trans.
Qed.
Lemma calm_conn s s' k p x : calm s s' -> conn_of s k = Some (p, x) ->
  exists p' x', conn_of s' k = Some (p', x') /\ pstep p p' /\ conn_same x x'.
Proof.
  intros (_ & Hh & _) (Ep & Ex)%conn_of_spec. specialize (Hh (fst k)). rewrite Ep in Hh. unfold port_option_step in Hh.
  destruct (port_heap s' !! fst k) as [p'|] eqn:Ep'; [|done]. pose proof (ps_conns _ _ Hh (snd k)) as Hc.
  rewrite Ex in Hc. unfold option_same in Hc. destruct (conn_heap p' !! snd k) as [x'|] eqn:Ex'; [|done].
  exists p', x'. split; [by apply conn_of_spec|done].
Qed.
Lemma calm_live s s' k : calm s s' -> is_Some (conn_of s' k) <-> is_Some (conn_of s k).
Proof.
  intros Hc. split; intros [[p x] E].
  - destruct Hc as (_ & Hh & _). apply conn_of_spec in E as [Ep Ex]. specialize (Hh (fst k)). rewrite Ep in Hh.
    destruct (port_heap s !! fst k) as [q|] eqn:Eq; [|done]. pose proof (ps_conns _ _ Hh (snd k)) as Hc.
    rewrite Ex in Hc. destruct (conn_heap q !! snd k) as [y|] eqn:Ey; [|done]. exists (q, y). by apply conn_of_spec.
  - destruct (calm_conn _ _ _ _ _ Hc E) as (p' & x' & E' & _). by eexists.
Qed.
Lemma calm_inv s s' : chan_inv s -> calm s s' -> chan_inv s'.
Proof.
  intros Hi Hc. pose proof Hc as (K & Hh & Hs & _). destruct (kept_fields _ _ K) as (E1 & E2 & E3 & E4 & E5 & _).
  split; rewrite ?E1, ?E2, ?E3, ?E4, ?E5; try apply Hi; [| |].
  - intros i p' Ep'. specialize (Hh i). rewrite Ep' in Hh. destruct (port_heap s !! i) as [p|] eqn:Ep; [|done].
    destruct (ci_port _ Hi _ _ Ep) as (_ & Hd & Hf & Hl & Hx). destruct Hh as [I S D M _ C].
    split_and!; [done|congruence| |done|].
    + destruct Hf as (l & El & Ef). exists l. injection S as _ _ _ Epref Ecand. by rewrite Ecand, Epref.
    + intros c x' Ex'. specialize (C c). rewrite Ex' in C. destruct (conn_heap p !! c) as [x|] eqn:Ex; [|done].
      destruct (Hx _ _ Ex) as [? ?]. destruct C as (_ & ? & ?). split; congruence.
  - intros k. rewrite (calm_live _ _ _ Hc). apply Hi.
  - split; [apply Hi|]. intros i Hin. destruct (proj2 (ci_ports _ Hi) i Hin) as [p Ep]. specialize (Hh i). rewrite Ep in Hh.
    by destruct (port_heap s' !! i).
Qed.

(** Only connection [k] changes, to [y]. *)
Definition changes_to (k : cptr) (y : Connection) (s s' : P2PTransportChannel) : Prop :=
  conn_x s' k = Some y /\ forall j, j <> k -> conn_x s' j = conn_x s j.

Lemma put_port_step s i p p' s' : chan_inv s -> port_heap s !! i = Some p -> pstep p p' ->
  noise (s <| port_heap := <[i := p']> (port_heap s) |>) s' -> sort_dirty_ s' = true \/ same_states p p' ->
  calm s s' /\ forall j, conn_x s' j = if decide (fst j = i) then conn_heap p' !! snd j else conn_x s j.
Proof.
  intros Hi Ep Hst (K & Hh & Hs) Ht. cbn in Hh.
  assert (Hx : forall j, conn_x s' j = if decide (fst j = i) then conn_heap p' !! snd j else conn_x s j).
  { intros j. unfold conn_x, conn_of. rewrite Hh. destruct (decide (fst j = i)) as [->|Hn].
    + rewrite lookup_insert_eq. cbn. by destruct (conn_heap p' !! snd j).
    + by rewrite lookup_insert_ne. }
  split; [|done]. split; [done|]. split; [|split; [done|]].
  - intros j. rewrite Hh. destruct (decide (j = i)) as [->|Hn].
    + by rewrite lookup_insert_eq, Ep.
    + rewrite lookup_insert_ne by done. destruct (port_heap s !! j) as [q|] eqn:Eq; [|done].
      apply pstep_refl. by destruct (ci_port _ Hi _ _ Eq).
  - destruct Ht as [?|Ht]; [by left|right]. intros [j d] x (q & Eq%conn_of_spec)%conn_x_of. rewrite Hx. cbn in *.
    destruct (decide (j = i)) as [->|Hn].
    + apply Ht. destruct Eq. congruence.
    + exists x. split; [|done]. apply conn_x_of. exists q. by apply conn_of_spec.
Qed.

Lemma run_port_touch {A} slots i c (m : Prog Port A) (R : A -> Connection -> Prop) p x s (Q : A -> P2PTransportChannel -> Prop) :
  (forall sg, quiet sg -> slots i sg = handle i sg) -> chan_inv s -> conn_of s (i, c) = Some (p, x) ->
  wp m (fun a p' => exists y, R a y /\ touches c y p p') p ->
  (forall a y s', R a y -> calm s s' -> changes_to (i, c) y s s' -> Q a s') -> wp (run_port slots i m) Q s.
Proof.
  intros Hs Hi (Ep & Ex)%conn_of_spec Hm Hq. cbn in Ep, Ex.
  eapply (run_port_wp _ _ _ (fun a p' => exists y, R a y /\ touches c y p p')); [done|exact Ep| |].
  { eapply pwp_mono; [exact Hm|]. intros a p' (y & HR & Ht). split; [by exists y|apply Ht]. }
  intros a p' s' (y & HR & Hst & Hh & _) N T. destruct (put_port_step s i p p' s' Hi Ep Hst N T) as [Hc Hx].
  apply (Hq a y); [done|done|]. split.
  - rewrite Hx. cbn. by rewrite decide_True, Hh, lookup_insert_eq.
  - intros [j d] Hn. rewrite Hx. cbn. destruct (decide (j = i)) as [->|]; [|done].
    rewrite Hh, lookup_insert_ne by congruence. unfold conn_x, conn_of. cbn. rewrite Ep. cbn. by destruct (conn_heap p !! d).
Qed.
Lemma handle_handle i sg : quiet sg -> handle i sg = handle i sg.
Proof. done. Qed.
Lemma run_port_leaves {A} slots i (m : Prog Port A) (R : A -> Prop) p s (Q : A -> P2PTransportChannel -> Prop) :
  (forall sg, quiet sg -> slots i sg = handle i sg) -> chan_inv s -> port_heap s !! i = Some p ->
  wp m (fun a p' => R a /\ leaves p p') p ->
  (forall a s', R a -> calm s s' -> (forall k, conn_x s' k = conn_x s k) -> Q a s') -> wp (run_port slots i m) Q s.
Proof.
  intros Hs Hi Ep Hm Hq.
  eapply (run_port_wp _ _ _ (fun a p' => R a /\ leaves p p')); [done|exact Ep| |].
  { eapply pwp_mono; [exact Hm|]. intros a p' (HR & Ht). split; [done|apply Ht]. }
  intros a p' s' (HR & Hst & Hh & _) N T. destruct (put_port_step s i p p' s' Hi Ep Hst N T) as [Hc Hx].
  apply (Hq a); [done|done|]. intros [j d]. rewrite Hx. cbn. destruct (decide (j = i)) as [->|]; [|done].
  rewrite Hh. unfold conn_x, conn_of. cbn. rewrite Ep. cbn. by destruct (conn_heap p !! d).
Qed.

Lemma conn_inv s k p x : chan_inv s -> conn_of s k = Some (p, x) -> port_inv p /\ conn_heap p !! snd k = Some x /\
  port_fit p /\ conn_fit x.
Proof.
  intros Hi (Ep & Ex)%conn_of_spec. destruct (ci_port _ Hi _ _ Ep) as (Hp & _ & Hf & _ & Hx). split_and!; [done|done|done|by apply (Hx (snd k))].
Qed.

(** ** Comparing *)

(** The preference and generation of a candidate pair. *)
Definition local_pref (p : Port) : spec_float := from_option c_preference (preference_ p) (candidates_ p !! 0%nat).
Definition pair_pref (v : Port * Connection) : spec_float :=
  float_mul (local_pref (fst v)) (c_preference (remote_candidate_ (snd v))).
Definition cmp_candidates (v w : Port * Connection) : Z :=
  compare_candidates (pair_pref v) (pair_pref w) (pair_generation (fst v) (snd v)) (pair_generation (fst w) (snd w)).
Definition write_of (v : Port * Connection) : Z := write_index (write_state_ (snd v)).
Definition cmp_conns (v w : Port * Connection) : Z :=
  if write_of v <? write_of w then 1 else if write_of w <? write_of v then -1 else cmp_candidates v w.
Definition lt_conns (v w : Port * Connection) : bool :=
  if 0 <? cmp_conns v w then true else if cmp_conns v w <? 0 then false else rtt_ (snd v) <? rtt_ (snd w).

Section Compare.
Variable s : P2PTransportChannel.
Hypothesis Hi : chan_inv s.

Lemma local_of_wp k v (Q : Candidate -> P2PTransportChannel -> Prop) : conn_of s k = Some v ->
  (forall l, pair_preference l (snd v) = pair_pref v -> Q l s) -> wp (local_of (fst v) (snd v)) Q s.
Proof using Hi.
  destruct v as [p x]. intros E Hq. destruct (conn_inv _ _ _ _ Hi E) as (_ & _ & (l & El & Ef) & [Hx _]).
  unfold local_of. apply pwp_bind. cbn [fst snd]. rewrite Hx. eapply wp_the; [exact El|].
  apply pwp_bind, pwp_assert; [done|]. apply pwp_ret, Hq. unfold pair_preference, pair_pref, local_pref. cbn. by rewrite El.
Qed.
Lemma CompareConnectionCandidates_wp a b v w (Q : Z -> P2PTransportChannel -> Prop) :
  conn_of s a = Some v -> conn_of s b = Some w -> Q (cmp_candidates v w) s -> wp (CompareConnectionCandidates a b) Q s.
Proof using Hi.
  intros Ea Eb Hq. unfold CompareConnectionCandidates. destruct v as [pa xa], w as [pb xb].
  apply pwp_bind. eapply conn_wp; [exact Ea|]. apply pwp_bind. eapply conn_wp; [exact Eb|].
  apply pwp_bind. apply (local_of_wp a (pa, xa)); [done|]. intros la La.
  apply pwp_bind. apply (local_of_wp b (pb, xb)); [done|]. intros lb Lb. apply pwp_ret. cbn in La, Lb. by rewrite La, Lb.
Qed.
Lemma CompareConnections_wp a b v w (Q : Z -> P2PTransportChannel -> Prop) :
  conn_of s a = Some v -> conn_of s b = Some w -> Q (cmp_conns v w) s -> wp (CompareConnections a b) Q s.
Proof using Hi.
  intros Ea Eb Hq. unfold CompareConnections. destruct v as [pa xa], w as [pb xb].
  apply pwp_bind. eapply conn_wp; [exact Ea|]. apply pwp_bind. eapply conn_wp; [exact Eb|].
  unfold cmp_conns, write_of in Hq. cbn [snd] in Hq. destruct (_ <? _); [by apply pwp_ret|]. destruct (_ <? _); [by apply pwp_ret|].
  by eapply CompareConnectionCandidates_wp.
Qed.
Lemma ConnectionCompare_wp a b v w (Q : bool -> P2PTransportChannel -> Prop) :
  conn_of s a = Some v -> conn_of s b = Some w -> Q (lt_conns v w) s -> wp (ConnectionCompare a b) Q s.
Proof using Hi.
  intros Ea Eb Hq. unfold ConnectionCompare. apply pwp_bind. eapply CompareConnections_wp; [exact Ea|exact Eb|].
  unfold lt_conns in Hq. destruct (0 <? _); [by apply pwp_ret|]. destruct (_ <? 0); [by apply pwp_ret|].
  destruct v as [pa xa], w as [pb xb]. apply pwp_bind. eapply conn_wp; [exact Ea|]. apply pwp_bind. eapply conn_wp; [exact Eb|].
  by apply pwp_ret.
Qed.
(** Whether the best connection is given up for another. *)
Definition switches (v w : Port * Connection) : bool :=
  if cmp_conns v w <? 0 then true else if 0 <? cmp_conns v w then false else rtt_ (snd w) <=? rtt_ (snd v) + kMinImprovement.
Lemma ShouldSwitch_wp a b v w (Q : bool -> P2PTransportChannel -> Prop) :
  conn_of s a = Some v -> conn_of s b = Some w ->
  Q (if bool_decide (a = b) then false else switches v w) s -> wp (ShouldSwitch (Some a) (Some b)) Q s.
Proof using Hi.
  intros Ea Eb Hq. unfold ShouldSwitch. destruct (decide (a = b)) as [->|Hab].
  - rewrite bool_decide_true in Hq by done. rewrite bool_decide_true by done. by apply pwp_ret.
  - rewrite bool_decide_false in Hq by done. rewrite bool_decide_false by congruence. apply pwp_bind. eapply CompareConnections_wp; [exact Ea|exact Eb|].
    unfold switches in Hq. destruct (_ <? 0); [by apply pwp_ret|]. destruct (0 <? _); [by apply pwp_ret|].
    destruct v as [pa xa], w as [pb xb]. apply pwp_bind. eapply conn_wp; [exact Ea|]. apply pwp_bind. eapply conn_wp; [exact Eb|].
    by apply pwp_ret.
Qed.
End Compare.

(** ** Updating every connection *)

Lemma conn_x_live s k : chan_inv s -> k ∉ chan_connections_ s -> conn_x s k = None.
Proof. intros Hi Hk. unfold conn_x. destruct (conn_of s k) as [v|] eqn:E; [|done]. destruct Hk. apply Hi. by exists v. Qed.
Lemma live_conn s k : chan_inv s -> k ∈ chan_connections_ s -> exists p x, conn_of s k = Some (p, x) /\ conn_x s k = Some x.
Proof. intros Hi Hk. apply Hi in Hk as [[p x] E]. exists p, x. split; [done|]. unfold conn_x. by rewrite E. Qed.
Lemma conn_of_x s k x : conn_x s k = Some x -> exists p, conn_of s k = Some (p, x).
Proof. apply conn_x_of. Qed.
Lemma wp_chan_Time clock s (Q : Z -> P2PTransportChannel -> Prop) : chan_inv s ->
  (forall s', calm s s' -> conn_x s' = conn_x s -> Q (u32 (clock (chan_ticks s))) s') -> wp (Time clock) Q s.
Proof.
  intros Hi Hq. unfold Time, wp. apply Hq; [|done].
  pose proof (calm_refl s Hi) as (_ & Hh & _). split; [done|]. split; [exact Hh|]. split; [by left|by apply told_heap].
Qed.

Section Runs.
Context {B : Type} `{ByteQueue B}.
Variable chan_clock : nat -> Z.
Variable clock : nat -> nat -> Z.
Variable random_id : nat -> nat -> bytes.
Variable socket_SendTo : nat -> nat -> Z.
Variable socket_GetError : nat -> nat -> Z.

Lemma update_one_wp k now s (Q : unit -> P2PTransportChannel -> Prop) x : chan_inv s -> conn_x s k = Some x ->
  (forall s', calm s s' -> changes_to k (update_state now x) s s' -> Q tt s') ->
  wp (on_port (fst k) (UpdateState (snd k) now)) Q s.
Proof.
  intros Hi (p & E)%conn_of_x Hq. destruct k as [i c]. destruct (conn_inv _ _ _ _ Hi E) as (Hp & Ex & _).
  eapply (run_port_touch handle i c _ (fun _ y => y = update_state now x)); [done|exact Hi|exact E| |].
  - eapply pwp_mono; [by apply UpdateState_touches|]. intros [] p' Ht. by eexists.
  - intros [] y s' -> Hc Hx. by apply Hq.
Qed.

Definition updated (now : Z) (s s' : P2PTransportChannel) : Prop :=
  calm s s' /\ forall k, conn_x s' k = update_state now <$> conn_x s k.
Lemma UpdateConnectionStates_wp s (Q : unit -> P2PTransportChannel -> Prop) : chan_inv s ->
  (forall s', updated (u32 (chan_clock (chan_ticks s))) s s' -> Q tt s') -> wp (UpdateConnectionStates chan_clock) Q s.
Proof.
  intros Hi Hq. unfold UpdateConnectionStates. apply pwp_bind, (wp_chan_Time _ _ _ Hi). intros s1 C1 X1.
  set (now := u32 _) in *. pose proof (calm_inv _ _ Hi C1) as Hi1. apply pwp_bind, pwp_get.
  set (I := fun l s' => calm s s' /\ NoDup l /\ (forall k, k ∈ l -> k ∈ chan_connections_ s) /\
    forall k, conn_x s' k = if decide (k ∈ l) then conn_x s k else update_state now <$> conn_x s k).
  destruct (kept_fields _ _ (proj1 C1)) as (_ & Ec & _). rewrite Ec.
  eapply pwp_mono; [apply (wp_for_each _ I)|].
  - split_and!; [done|apply Hi|done|]. intros k. rewrite X1. destruct (decide _) as [|Hk]; [done|]. by rewrite (conn_x_live s k Hi Hk).
  - intros k l s2 (C2 & [Hk Hn]%NoDup_cons & Hl & X2). pose proof (calm_inv _ _ Hi C2) as Hi2.
    destruct (live_conn s k Hi (Hl k ltac:(by left))) as (p & x & _ & Ex).
    assert (Ex2 : conn_x s2 k = Some x) by (rewrite X2, decide_True by (by left); done).
    eapply (update_one_wp k now s2 _ x Hi2 Ex2). intros s3 C3 [Ek Ej]. split; [by eapply calm_trans|]. split; [done|].
    split; [intros j Hj; apply Hl; by right|]. intros j. destruct (decide (j = k)) as [->|Hjk].
    + rewrite decide_False by done. by rewrite Ek, Ex.
    + rewrite Ej, X2 by done. destruct (decide (j ∈ k :: l)) as [Hin|Hin], (decide (j ∈ l)) as [Hin'|Hin']; try done.
      * by apply elem_of_cons in Hin as [?|?].
      * destruct Hin. by right.
  - intros [] s2 (C2 & _ & _ & X2). apply Hq. split; [done|]. intros k. rewrite X2. destruct (decide (k ∈ [])) as [Hk|]; [|done].
    by apply not_elem_of_nil in Hk.
Qed.

(** ** Networks *)

Definition network_id_of (s : P2PTransportChannel) (k : cptr) : option nat :=
  (fun v => network_id (network_ (fst v))) <$> conn_of s k.
Lemma network_of_wp s k (Q : nat -> P2PTransportChannel -> Prop) n : network_id_of s k = Some n -> Q n s -> wp (network_of k) Q s.
Proof.
  unfold network_id_of. destruct (conn_of s k) as [[p x]|] eqn:E; [|done]. intros [= <-] Hq.
  unfold network_of. apply pwp_bind. eapply conn_wp; [exact E|]. by apply pwp_ret.
Qed.
Lemma live_network s k : chan_inv s -> k ∈ chan_connections_ s -> is_Some (network_id_of s k).
Proof. intros Hi Hk. destruct (live_conn s k Hi Hk) as (p & x & E & _). unfold network_id_of. rewrite E. by eexists. Qed.
Lemma calm_network s s' k : calm s s' -> network_id_of s' k = network_id_of s k.
Proof.
  intros Hc. unfold network_id_of. destruct (conn_of s k) as [[p x]|] eqn:E.
  - destruct (calm_conn _ _ _ _ _ Hc E) as (p' & x' & E' & Hs & _). rewrite E'. cbn. do 2 f_equal.
    pose proof (ps_steady _ _ Hs) as S. by injection S.
  - destruct (conn_of s' k) as [v|] eqn:E'; [|done]. assert (Hl : is_Some (conn_of s' k)) by by exists v.
    apply (calm_live _ _ _ Hc) in Hl as [w Ew]. congruence.
Qed.

Lemma networks_of_wp s l (Q : list nat -> P2PTransportChannel -> Prop) : chan_inv s ->
  (forall k, k ∈ l -> k ∈ chan_connections_ s) -> (forall ns, Q ns s) -> wp (networks_of l) Q s.
Proof.
  intros Hi Hl Hq. enough (Hw : wp (networks_of l) (fun _ s' => s' = s) s).
  { eapply pwp_mono; [exact Hw|]. by intros ns s' ->. }
  clear Hq. induction l as [|k l IH]; cbn [networks_of]; [by apply pwp_ret|].
  destruct (live_network s k Hi) as [n En]; [apply Hl; by left|].
  apply pwp_bind. eapply network_of_wp; [exact En|]. apply pwp_bind.
  eapply pwp_mono; [apply IH; intros j ?; apply Hl; by right|]. intros ns s' ->. by apply pwp_ret.
Qed.

(** The connection that prunes the others on network [n]. *)
Definition primier_of (s : P2PTransportChannel) (n : nat) (o : option cptr) : Prop :=
  match o with
  | Some k => k ∈ chan_connections_ s /\ network_id_of s k = Some n /\
      forall b, best_connection_ s = Some b -> network_id_of s b = Some n -> k = b
  | None => True
  end.
Lemma first_on_network_wp s n l (Q : option cptr -> P2PTransportChannel -> Prop) : chan_inv s ->
  (forall k, k ∈ l -> k ∈ chan_connections_ s) ->
  (forall o, match o with Some k => k ∈ l /\ network_id_of s k = Some n | None => True end -> Q o s) ->
  wp (first_on_network n l) Q s.
Proof.
  intros Hi Hl Hq. enough (Hw : wp (first_on_network n l) (fun o s' => s' = s /\
    match o with Some k => k ∈ l /\ network_id_of s k = Some n | None => True end) s).
  { eapply pwp_mono; [exact Hw|]. intros o s' [-> Ho]. by apply Hq. }
  clear Hq. induction l as [|k l IH]; cbn [first_on_network]; [by apply pwp_ret|].
  destruct (live_network s k Hi) as [m Em]; [apply Hl; by left|].
  apply pwp_bind. eapply network_of_wp; [exact Em|]. destruct (Nat.eqb_spec m n) as [->|].
  - apply pwp_ret. split; [done|]. split; [by left|done].
  - eapply pwp_mono; [apply IH; intros j ?; apply Hl; by right|]. intros [j|] s' [-> Ho]; [|done].
    split; [done|]. split; [right; apply Ho|apply Ho].
Qed.
Lemma GetBestConnectionOnNetwork_wp s n (Q : option cptr -> P2PTransportChannel -> Prop) : chan_inv s ->
  (forall o, primier_of s n o -> Q o s) -> wp (GetBestConnectionOnNetwork n) Q s.
Proof.
  intros Hi Hq. unfold GetBestConnectionOnNetwork. apply pwp_bind, pwp_get.
  destruct (best_connection_ s) as [b|] eqn:Eb.
  - destruct (live_network s b Hi (ci_best _ Hi _ Eb)) as [m Em]. apply pwp_bind. eapply network_of_wp; [exact Em|].
    destruct (Nat.eqb_spec m n) as [->|Hn].
    + apply pwp_ret, Hq. split; [by apply (ci_best _ Hi)|]. split; [done|]. intros b'. rewrite Eb. by intros [= ->].
    + apply first_on_network_wp; [done|done|]. intros [k|] Ho; apply Hq; [|done]. split; [apply Ho|]. split; [apply Ho|].
      intros b'. rewrite Eb. intros [= <-]. congruence.
  - apply first_on_network_wp; [done|done|]. intros [k|] Ho; apply Hq; [|done]. split; [apply Ho|]. split; [apply Ho|].
    intros b'. by rewrite Eb.
Qed.

(** ** Pruning *)

(** A writable connection on the same network whose preferences are no worse. *)
Definition dominated (s : P2PTransportChannel) (k : cptr) : Prop :=
  exists j v w, j <> k /\ conn_of s j = Some v /\ conn_of s k = Some w /\ network_id_of s j = network_id_of s k /\
    write_state_ (snd v) = STATE_WRITABLE /\ 0 <= cmp_candidates v w.
Definition prunes (s s' : P2PTransportChannel) : Prop :=
  calm s s' /\ forall k x, conn_x s k = Some x ->
    exists x', conn_x s' k = Some x' /\ (x' = x \/ x' = pruned x /\ best_connection_ s <> Some k /\ dominated s k).

Lemma pruned_writable x : write_state_ (pruned x) = STATE_WRITABLE -> pruned x = x.
Proof. unfold pruned. by destruct (pruned_ x). Qed.
Lemma pruned_pruned x : pruned (pruned x) = pruned x.
Proof. unfold pruned. destruct (pruned_ x) eqn:E; [by rewrite E|done]. Qed.

Lemma calm_pair s s' k u u' : calm s s' -> conn_of s k = Some u -> conn_of s' k = Some u' ->
  pair_pref u' = pair_pref u /\ pair_generation (fst u') (snd u') = pair_generation (fst u) (snd u).
Proof.
  intros Hc. destruct u as [p x]. intros E E'. destruct (calm_conn _ _ _ _ _ Hc E) as (p' & x' & E2 & Hs & (Hr & _)).
  rewrite E' in E2. injection E2 as ->. pose proof (ps_steady _ _ Hs) as S. injection S as _ _ Sg Sp Sc.
  unfold pair_pref, local_pref, pair_generation. cbn. by rewrite Hr, Sg, Sp, Sc.
Qed.
Lemma calm_cmp s s' a b v w v' w' : calm s s' -> conn_of s a = Some v -> conn_of s b = Some w ->
  conn_of s' a = Some v' -> conn_of s' b = Some w' -> cmp_candidates v' w' = cmp_candidates v w.
Proof.
  intros Hc Ea Eb Ea' Eb'. destruct (calm_pair _ _ _ _ _ Hc Ea Ea') as [P1 G1], (calm_pair _ _ _ _ _ Hc Eb Eb') as [P2 G2].
  unfold cmp_candidates. by rewrite P1, P2, G1, G2.
Qed.

Lemma prunes_refl s : chan_inv s -> prunes s s.
Proof. intros Hi. split; [by apply calm_refl|]. intros k x E. exists x. split; [done|by left]. Qed.
Lemma prunes_writable s s' j v' : prunes s s' -> conn_of s' j = Some v' -> write_state_ (snd v') = STATE_WRITABLE ->
  exists v, conn_of s j = Some v /\ snd v = snd v'.
Proof.
  intros [Hc Hx] E' Hw. assert (Hl : is_Some (conn_of s' j)) by by exists v'.
  apply (calm_live _ _ _ Hc) in Hl as [[p x] E]. destruct (Hx j x) as (x' & Ex' & Hx').
  { unfold conn_x. by rewrite E. }
  unfold conn_x in Ex'. rewrite E' in Ex'. injection Ex' as <-. exists (p, x). split; [done|].
  destruct Hx' as [->|[Hp _]]; [done|]. rewrite Hp in *. symmetry. by apply pruned_writable.
Qed.
Lemma dominated_before s s' k : prunes s s' -> dominated s' k -> dominated s k.
Proof.
  intros Hp (j & v' & w' & Hn & Ev & Ew & Hnet & Hw & Hcmp). destruct (prunes_writable _ _ _ _ Hp Ev Hw) as (v & E & Hv).
  pose proof (proj1 Hp) as Hc. assert (Hl : is_Some (conn_of s' k)) by by exists w'.
  apply (calm_live _ _ _ Hc) in Hl as [w Ew0]. exists j, v, w. split_and!; [done|done|done| | |].
  - by rewrite <- !(calm_network _ _ _ Hc).
  - by rewrite Hv.
  - by rewrite <- (calm_cmp _ _ _ _ _ _ _ _ Hc E Ew0 Ev Ew).
Qed.
Lemma prunes_trans s1 s2 s3 : prunes s1 s2 -> prunes s2 s3 -> prunes s1 s3.
Proof.
  intros P1 P2. split; [eapply calm_trans; [apply P1|apply P2]|]. intros k x E.
  destruct (proj2 P1 k x E) as (y & Ey & Hy). destruct (proj2 P2 k y Ey) as (z & Ez & Hz). exists z. split; [done|].
  destruct (kept_fields _ _ (proj1 (proj1 P1))) as (_ & _ & Eb & _). rewrite Eb in Hz.
  destruct Hz as [->|(-> & Hb & Hd)]; [done|]. right. apply (dominated_before _ _ _ P1) in Hd.
  destruct Hy as [->|(-> & _ & _)]; [done|]. rewrite pruned_pruned. done.
Qed.

Lemma prune_one_wp s n primier k : chan_inv s -> primier_of s n (Some primier) -> k ∈ chan_connections_ s ->
  (exists v, conn_of s primier = Some v /\ write_state_ (snd v) = STATE_WRITABLE) ->
  wp (prune_one n primier k) (fun _ s' => prunes s s' /\ conn_x s' primier = conn_x s primier) s.
Proof.
  intros Hi (Hpl & Hpn & Hpb) Hk (v & Ev & Hw). unfold prune_one.
  assert (Hrefl : prunes s s /\ conn_x s primier = conn_x s primier) by (split; [by apply prunes_refl|done]).
  case_bool_decide as Hkp; [by apply pwp_ret|]. destruct (live_network s k Hi Hk) as [m Em].
  apply pwp_bind. eapply network_of_wp; [exact Em|]. destruct (Nat.eqb_spec m n) as [->|]; [|by apply pwp_ret].
  destruct (live_conn s k Hi Hk) as (p & x & Ek & Ex). apply pwp_bind.
  eapply (CompareConnectionCandidates_wp s Hi); [exact Ev|exact Ek|]. destruct (Z.leb_spec 0 (cmp_candidates v (p, x))) as [Hc|]; [|by apply pwp_ret].
  destruct k as [i c]. destruct (conn_inv _ _ _ _ Hi Ek) as (Hp & Exp & _).
  eapply (run_port_touch handle i c _ (fun _ y => y = pruned x)); [done|exact Hi|exact Ek| |].
  { eapply pwp_mono; [by apply Prune_touches|]. intros [] p' Ht. by eexists. }
  intros [] y s' -> Hcalm [Ey Hother]. split; [|apply Hother; congruence]. split; [done|]. intros j z Ez.
  destruct (decide (j = (i, c))) as [->|Hj]; [|exists z; split; [by rewrite Hother|by left]].
  rewrite Ex in Ez. injection Ez as <-. exists (pruned x). split; [done|]. right. split; [done|]. split.
  - intros Hb. apply Hkp. symmetry. by apply Hpb.
  - exists primier, v, (p, x). split_and!; [congruence|done|done|congruence|done|done].
Qed.
Lemma calm_primier s s' n o : calm s s' -> primier_of s n o -> primier_of s' n o.
Proof.
  intros Hc. destruct o as [k|]; [|done]. intros (H1 & H2 & H3). destruct (kept_fields _ _ (proj1 Hc)) as (_ & Ec & Eb & _).
  unfold primier_of. rewrite Ec, Eb, (calm_network _ _ _ Hc). split_and!; [done|done|]. intros b. rewrite (calm_network _ _ _ Hc). apply H3.
Qed.
Lemma prune_network_wp s n : chan_inv s -> wp (prune_network n) (fun _ => prunes s) s.
Proof.
  intros Hi. unfold prune_network. apply pwp_bind, GetBestConnectionOnNetwork_wp; [done|].
  intros [j|] Hj; [|by apply pwp_ret, prunes_refl]. destruct (live_conn s j Hi (proj1 Hj)) as (p & x & Ej & Ex).
  apply pwp_bind. eapply conn_wp; [exact Ej|]. case_bool_decide as Hw; [|by apply pwp_ret, prunes_refl].
  apply pwp_bind, pwp_get.
  eapply pwp_mono; [apply (wp_for_each _ (fun l s' => prunes s s' /\ conn_x s' j = Some x /\ forall k, k ∈ l -> k ∈ chan_connections_ s))|].
  - split; [by apply prunes_refl|done].
  - intros k l s1 (P1 & E1 & Hl). pose proof (proj1 P1) as C1. pose proof (calm_inv _ _ Hi C1) as Hi1.
    destruct (kept_fields _ _ (proj1 C1)) as (_ & Ec & _). destruct (conn_of_x _ _ _ E1) as [p1 Ej1].
    eapply pwp_mono; [apply prune_one_wp; [done|by eapply calm_primier| |by exists (p1, x)]|].
    + rewrite Ec. apply Hl. by left.
    + intros [] s2 [P2 E2]. split; [by eapply prunes_trans|]. split; [congruence|]. intros k' Hk'. apply Hl. by right.
  - by intros [] s' [? _].
Qed.
Lemma prune_networks_wp s ns : chan_inv s -> wp (for_each prune_network ns) (fun _ => prunes s) s.
Proof.
  intros Hi. eapply pwp_mono; [apply (wp_for_each _ (fun _ => prunes s)); [by apply prunes_refl|]|by intros [] s'].
  intros n l s1 P1. pose proof (calm_inv _ _ Hi (proj1 P1)) as Hi1.
  eapply pwp_mono; [by apply prune_network_wp|]. intros [] s2 P2. by eapply prunes_trans.
Qed.

(** ** Sorting the connections *)

(** What the invariant reads. *)
Definition core (s : P2PTransportChannel) :=
  (port_heap s, chan_connections_ s, best_connection_ s, ports_ s, remote_candidates_ s, next_port s, sort_dirty_ s, sort_posts s).
Lemma chan_core_fields s s' : core s' = core s -> port_heap s' = port_heap s /\ chan_connections_ s' = chan_connections_ s /\
  best_connection_ s' = best_connection_ s /\ ports_ s' = ports_ s /\ remote_candidates_ s' = remote_candidates_ s /\
  next_port s' = next_port s /\ sort_dirty_ s' = sort_dirty_ s /\ sort_posts s' = sort_posts s.
Proof. by intros [=]. Qed.
Lemma heap_conn_of s s' k : port_heap s' = port_heap s -> conn_of s' k = conn_of s k.
Proof. unfold conn_of. by intros ->. Qed.
Lemma heap_conn_x s s' k : port_heap s' = port_heap s -> conn_x s' k = conn_x s k.
Proof. intros Eh. unfold conn_x. by rewrite (heap_conn_of s s'). Qed.
(** The heap and the rest of what the invariant reads. *)
Lemma heap_inv s s' : chan_inv s -> port_heap s' = port_heap s -> next_port s' = next_port s ->
  Permutation (chan_connections_ s') (chan_connections_ s) ->
  (forall k, best_connection_ s' = Some k -> k ∈ chan_connections_ s) ->
  ports_ s' = ports_ s -> remote_candidates_ s' = remote_candidates_ s -> chan_inv s'.
Proof.
  intros Hi Eh En Ep Hb E1 E2. split; rewrite ?Eh, ?En, ?E1, ?E2; try apply Hi.
  - rewrite Ep. apply Hi.
  - intros k. rewrite Ep, (heap_conn_of s s' k Eh). apply Hi.
  - intros k Ek. rewrite Ep. by apply Hb.
Qed.
Lemma core_inv s s' : chan_inv s -> core s' = core s -> chan_inv s'.
Proof.
  intros Hi (E1 & E2 & E3 & E4 & E5 & E6 & E7 & E8)%chan_core_fields. apply (heap_inv s); try done.
  - by rewrite E2.
  - intros k. rewrite E3. apply Hi.
Qed.

Lemma conns_wp s l (Q : list Connection -> P2PTransportChannel -> Prop) : chan_inv s ->
  (forall k, k ∈ l -> k ∈ chan_connections_ s) -> (forall xs, Forall2 (fun k x => conn_x s k = Some x) l xs -> Q xs s) -> wp (conns l) Q s.
Proof.
  intros Hi Hl Hq. enough (Hw : wp (conns l) (fun xs s' => s' = s /\ Forall2 (fun k x => conn_x s k = Some x) l xs) s).
  { eapply pwp_mono; [exact Hw|]. intros xs s' [-> ?]. by apply Hq. }
  clear Hq. induction l as [|k l IH]; cbn [conns]; [by apply pwp_ret|].
  destruct (live_conn s k Hi (Hl k ltac:(by left))) as (p & x & E & Ex). apply pwp_bind. eapply conn_wp; [exact E|].
  apply pwp_bind. eapply pwp_mono; [apply IH; intros j ?; apply Hl; by right|]. intros xs s' [-> Hxs]. apply pwp_ret.
  split; [done|]. by constructor.
Qed.
Lemma Forall2_exists s l xs (f : Connection -> bool) : Forall2 (fun k x => conn_x s k = Some x) l xs ->
  existsb f xs = true <-> exists k x, k ∈ l /\ conn_x s k = Some x /\ f x = true.
Proof.
  induction 1 as [|k x l xs Hk _ IH]; cbn [existsb].
  - split; [done|]. by intros (k & x & Hk%not_elem_of_nil & _).
  - rewrite orb_true_iff, IH. split.
    + intros [Hf|(j & y & Hj & Ey & Hy)]; [exists k, x|exists j, y]; split_and!; try done; [by left|by right].
    + intros (j & y & [->|Hj]%elem_of_cons & Ey & Hy); [left; congruence|right; by exists j, y].
Qed.

(** The result of the comparison with the head of the sorted list. *)
Definition lt_in (s : P2PTransportChannel) (a b : cptr) : bool :=
  match conn_of s a, conn_of s b with Some v, Some w => lt_conns v w | _, _ => false end.
Definition pick (s : P2PTransportChannel) (best top : option cptr) : option cptr :=
  match best, top with
  | Some a, Some b =>
      match conn_of s a, conn_of s b with
      | Some v, Some w => if bool_decide (a = b) then Some a else if switches v w then Some b else Some a
      | _, _ => None
      end
  | _, _ => top
  end.
Definition some_writable (s : P2PTransportChannel) : Prop := exists k x, conn_x s k = Some x /\ write_state_ x = STATE_WRITABLE.
Definition some_readable (s : P2PTransportChannel) : Prop := exists k x, conn_x s k = Some x /\ read_state_ x = STATE_READABLE.
Definition best_writable (s : P2PTransportChannel) : Prop :=
  exists k x, best_connection_ s = Some k /\ conn_x s k = Some x /\ write_state_ x = STATE_WRITABLE.

(** From [s] the connections were updated ([s1]), sorted and the best was
    chosen ([s2]), and others pruned; the flags of the channel follow. *)
Record sorts (now : Z) (s s' : P2PTransportChannel) : Prop := {
  so_inv : chan_inv s';
  so_steps : exists s1 s2 s3, updated now s s1 /\ port_heap s2 = port_heap s1 /\
    chan_connections_ s2 = sort_by (lt_in s1) (chan_connections_ s) /\
    best_connection_ s2 = pick s1 (best_connection_ s) (head (chan_connections_ s2)) /\
    chan_inv s2 /\ prunes s2 s3 /\ core s' = core s3;
  so_sort : sort_ok s';
  so_heap : heap_step s s';
  so_lists : ports_ s' = ports_ s /\ remote_candidates_ s' = remote_candidates_ s /\ next_port s' = next_port s;
  so_writable : (writable_ s' = true <-> some_writable s') /\ (writable_ s' = true <-> best_writable s');
  so_readable : readable_ s' = true <-> some_readable s';
}.

(** The head of the sorted list has the best write state. *)
Lemma sorted_head_write s l h t : (forall k, k ∈ l -> is_Some (conn_of s k)) -> sort_by (lt_in s) l = h :: t ->
  forall k v w, k ∈ l -> conn_of s h = Some v -> conn_of s k = Some w -> write_of v <= write_of w.
Proof.
  intros Hl E. set (R := fun a b => forall v w, conn_of s a = Some v -> conn_of s b = Some w -> write_of v <= write_of w).
  enough (Hr : forall k, k ∈ l -> R h k) by by intros k v w Hk; apply (Hr k Hk).
  apply (sort_head (lt_in s) R l h t); [intros a v w E1 E2; assert (v = w) as -> by congruence; lia| |done].
  apply sort_sorted.
  - intros a b c _ Hb _ Hab Hbc v w Ea Ec. destruct (Hl b Hb) as [u Eb]. specialize (Hab v u Ea Eb). specialize (Hbc u w Eb Ec). lia.
  - intros a b Ha Hb. destruct (Hl a Ha) as [v Ea], (Hl b Hb) as [w Eb]. unfold lt_in. rewrite Ea, Eb.
    destruct (lt_conns v w) eqn:El; intros v' w' E1 E2;
      [assert (v' = v) as -> by congruence; assert (w' = w) as -> by congruence
      |assert (v' = w) as -> by congruence; assert (w' = v) as -> by congruence];
      unfold lt_conns, cmp_conns in El; destruct (Z.ltb_spec (write_of v) (write_of w)); cbn in El; try done; try lia;
      destruct (Z.ltb_spec (write_of w) (write_of v)); cbn in El; try done; lia.
Qed.
Lemma pick_best s l h t old : (forall k, k ∈ l -> is_Some (conn_of s k)) -> sort_by (lt_in s) l = h :: t ->
  (forall k, old = Some k -> k ∈ l) ->
  exists b v, pick s old (Some h) = Some b /\ b ∈ l /\ conn_of s b = Some v /\
    forall k w, k ∈ l -> conn_of s k = Some w -> write_of v <= write_of w.
Proof.
  intros Hl E Ho. pose proof (sorted_head_write s l h t Hl E) as Hh.
  assert (Hin : h ∈ l) by (rewrite <- (sort_perm (lt_in s) l), E; by left). destruct (Hl h Hin) as [w Ew].
  unfold pick. destruct old as [a|]; [|exists h, w; split_and!; try done; intros k u Hk; by apply Hh].
  destruct (Hl a (Ho a eq_refl)) as [v Ev]. rewrite Ev, Ew. case_bool_decide as Hab.
  { subst a. exists h, w. split_and!; try done. intros k u Hk. by apply Hh. }
  destruct (switches v w) eqn:Es; [exists h, w; split_and!; try done; intros k u Hk; by apply Hh|].
  exists a, v. split_and!; try done; [by apply Ho|]. intros k u Hk Ek. pose proof (Hh k w u Hk Ew Ek) as Hle.
  unfold switches, cmp_conns in Es. destruct (Z.ltb_spec (write_of v) (write_of w)) as [|Hge]; [lia|].
  destruct (Z.ltb_spec (write_of w) (write_of v)); cbn in Es; [done|lia].
Qed.

Lemma set_writable_wp b s : wp (set_writable b) (fun _ s' => core s' = core s /\ writable_ s' = b) s.
Proof. unfold set_writable. apply pwp_bind, pwp_get. destruct (writable_ s) eqn:Ew, b; cbn; by split. Qed.
Lemma set_readable_wp b s : wp (set_readable b) (fun _ s' => core s' = core s /\ writable_ s' = writable_ s /\ readable_ s' = b) s.
Proof. unfold set_readable. apply pwp_bind, pwp_get. destruct (readable_ s) eqn:Ew, b; cbn; by split_and!. Qed.
Lemma Allocate_wp s (Q : unit -> P2PTransportChannel -> Prop) :
  (forall s', core s' = core s -> writable_ s' = writable_ s -> readable_ s' = readable_ s -> ping_posts s' = ping_posts s -> Q tt s') ->
  wp Allocate Q s.
Proof. intros Hq. by apply Hq. Qed.
Lemma HandleWritable_wp s : wp HandleWritable (fun _ s' => core s' = core s /\ writable_ s' = true) s.
Proof.
  unfold HandleWritable. apply pwp_bind, pwp_get, pwp_bind.
  eapply (pwp_mono _ (fun _ s' => core s' = core s)); [by destruct (negb _)|]. intros [] s1 E1.
  apply pwp_bind, pwp_modify. eapply pwp_mono; [apply set_writable_wp|]. intros [] s2 [E2 ?]. split; [|done]. by rewrite E2.
Qed.
Lemma HandleNotWritable_wp s : wp HandleNotWritable (fun _ s' => core s' = core s /\ writable_ s' = false) s.
Proof.
  unfold HandleNotWritable. apply pwp_bind, pwp_get, pwp_bind.
  eapply (pwp_mono _ (fun _ s' => core s' = core s)); [by destruct (was_writable_ s)|]. intros [] s1 E1.
  apply pwp_bind, pwp_modify. eapply pwp_mono; [apply set_writable_wp|]. intros [] s2 [E2 ?]. split; [|done]. by rewrite E2.
Qed.
Lemma HandleAllTimedOut_wp s : wp HandleAllTimedOut (fun _ s' => core s' = core s /\ writable_ s' = false) s.
Proof.
  unfold HandleAllTimedOut. apply pwp_bind, pwp_get, pwp_bind.
  eapply (pwp_mono _ (fun _ s' => core s' = core s)); [by destruct (negb _)|]. intros [] s1 E1.
  apply pwp_bind, pwp_modify. eapply pwp_mono; [apply set_writable_wp|]. intros [] s2 [E2 ?]. split; [|done]. by rewrite E2.
Qed.

Lemma core_conn_x s s' : core s' = core s -> forall k, conn_x s' k = conn_x s k.
Proof. intros (Eh & _)%chan_core_fields k. by apply heap_conn_x. Qed.
Lemma UpdateChannelState_wp s : chan_inv s -> (writable_ s = true <-> best_writable s) ->
  wp UpdateChannelState (fun _ s' => core s' = core s /\ writable_ s' = writable_ s /\ (readable_ s' = true <-> some_readable s)) s.
Proof.
  intros Hi Hw. unfold UpdateChannelState. apply pwp_bind, pwp_get, pwp_bind.
  eapply (pwp_mono _ (fun b s' => s' = s /\ b = writable_ s)).
  { destruct (best_connection_ s) as [k|] eqn:Ek.
    - destruct (live_conn s k Hi (ci_best _ Hi _ Ek)) as (p & x & E & Ex). apply pwp_bind. eapply conn_wp; [exact E|].
      apply pwp_ret. split; [done|]. apply eq_true_iff_eq. rewrite bool_decide_eq_true, Hw. split; [intros ?; by exists k, x|].
      intros (k' & x' & Ek' & Ex' & ?). congruence.
    - apply pwp_ret. split; [done|]. apply eq_true_iff_eq. rewrite Hw. split; [done|]. intros (k' & x' & Ek' & _). congruence. }
  intros b s' [-> ->]. apply pwp_bind, pwp_assert; [by destruct (writable_ s)|]. apply pwp_bind.
  apply conns_wp; [done|done|]. intros xs Hxs. eapply pwp_mono; [apply set_readable_wp|].
  intros [] s' (E1 & E2 & ->). split; [done|]. split; [done|]. unfold has_read. rewrite (Forall2_exists _ _ _ _ Hxs).
  split; intros (k & x & H1).
  - exists k, x. destruct H1 as (_ & ? & ?%bool_decide_eq_true). done.
  - exists k, x. destruct H1 as (Ex & ?). split; [|split; [done|by apply bool_decide_eq_true]].
    destruct (conn_of_x _ _ _ Ex) as [p E]. apply Hi. by exists (p, x).
Qed.

(** The flags of the states agree with the connections after the pruning. *)
Lemma prunes_flags s2 s3 : chan_inv s2 -> prunes s2 s3 ->
  (chan_connections_ s2 = [] -> best_connection_ s2 = None) ->
  (chan_connections_ s2 <> [] -> exists b v, best_connection_ s2 = Some b /\ conn_of s2 b = Some v /\
     forall k w, k ∈ chan_connections_ s2 -> conn_of s2 k = Some w -> write_of v <= write_of w) ->
  some_writable s3 <-> best_writable s3.
Proof.
  intros Hi [Hc Hx] He Hb. destruct (kept_fields _ _ (proj1 Hc)) as (_ & Ec & Eb & _). split.
  - intros (k & x' & Ex' & Hw). destruct (conn_of_x _ _ _ Ex') as [p' Ek'].
    destruct (prunes_writable s2 s3 k (p', x') (conj Hc Hx) Ek' Hw) as (w & Ew & Hwx).
    assert (Hk : k ∈ chan_connections_ s2) by (apply Hi; by exists w).
    destruct Hb as (b & v & Ebest & Ev & Hmin); [by intros E; rewrite E in Hk; apply not_elem_of_nil in Hk|].
    pose proof (Hmin k w Hk Ew) as Hle. unfold write_of in Hle. rewrite Hwx in Hle. cbn [snd] in Hle. rewrite Hw in Hle.
    assert (Hwv : write_state_ (snd v) = STATE_WRITABLE) by by destruct (write_state_ (snd v)).
    destruct (Hx b (snd v)) as (y & Ey & Hy); [unfold conn_x; by rewrite Ev|]. exists b, y. split; [by rewrite Eb|].
    split; [done|]. destruct Hy as [->|(_ & Hn & _)]; done.
  - intros (k & x & _ & Ex & Hw). by exists k, x.
Qed.

Lemma ShouldSwitch_head_wp s old (Q : bool -> P2PTransportChannel -> Prop) l : chan_inv s ->
  (forall k, k ∈ l <-> k ∈ chan_connections_ s) -> (forall k, old = Some k -> k ∈ chan_connections_ s) ->
  (forall b : bool, (if b then head l else old) = pick s old (head l) -> Q b s) ->
  wp (ShouldSwitch old (head l)) Q s.
Proof.
  intros Hi Hl Ho Hq. destruct old as [a|], l as [|h t]; cbn [head] in *.
  - pose proof (Ho a eq_refl) as Ha. apply Hl in Ha. by apply not_elem_of_nil in Ha.
  - destruct (live_conn s a Hi (Ho a eq_refl)) as (p & x & Ea & _).
    destruct (live_conn s h Hi) as (q & y & Eh & _); [apply Hl; by left|].
    eapply (ShouldSwitch_wp s Hi); [exact Ea|exact Eh|]. apply Hq. unfold pick. rewrite Ea, Eh.
    case_bool_decide; [done|]. by destruct (switches _ _).
  - unfold ShouldSwitch. rewrite bool_decide_true by done. by apply pwp_ret, Hq.
  - unfold ShouldSwitch. rewrite bool_decide_false by done. by apply pwp_ret, Hq.
Qed.

Lemma SwitchBest_wp s s0 o (Q : unit -> P2PTransportChannel -> Prop) : chan_inv s -> s0 = s <| best_connection_ := o |> ->
  (forall k, o = Some k -> k ∈ chan_connections_ s) ->
  (forall s', core s' = core s0 -> Q tt s') -> wp (SwitchBestConnectionTo o) Q s.
Proof.
  intros Hi -> Ho Hq. unfold SwitchBestConnectionTo. apply pwp_bind, pwp_modify. destruct o as [k|].
  - destruct (live_conn s k Hi (Ho k eq_refl)) as (p & x & E & _). apply pwp_bind. eapply conn_wp; [exact E|]. by apply pwp_modify, Hq.
  - by apply pwp_ret, Hq.
Qed.

Lemma calm_heap s s' : calm s s' -> heap_step s s'.
Proof. by intros (_ & ? & _). Qed.
Lemma heap_step_eq s s1 s' : heap_step s s1 -> port_heap s' = port_heap s1 -> heap_step s s'.
Proof. intros Hh E i. rewrite E. apply Hh. Qed.
Lemma heap_step_trans s1 s2 s3 : heap_step s1 s2 -> heap_step s2 s3 -> heap_step s1 s3.
Proof.
  intros H1 H2 i. specialize (H1 i). specialize (H2 i).
  destruct (port_heap s1 !! i), (port_heap s2 !! i), (port_heap s3 !! i); try done. by eapply pstep_trans.
Qed.

(** The first half: update, sort and choose. *)
Definition chosen (now : Z) (s s2 : P2PTransportChannel) : Prop :=
  chan_inv s2 /\ heap_step s s2 /\ (ports_ s2 = ports_ s /\ remote_candidates_ s2 = remote_candidates_ s /\ next_port s2 = next_port s) /\
  (exists s1, updated now s s1 /\ port_heap s2 = port_heap s1 /\
    chan_connections_ s2 = sort_by (lt_in s1) (chan_connections_ s) /\
    best_connection_ s2 = pick s1 (best_connection_ s) (head (chan_connections_ s2))).

Lemma choose_inv now s s1 s2 : chan_inv s -> updated now s s1 -> core s2 = core (s1
    <| sort_dirty_ := false |> <| chan_connections_ := sort_by (lt_in s1) (chan_connections_ s) |>
    <| best_connection_ := pick s1 (best_connection_ s) (head (sort_by (lt_in s1) (chan_connections_ s))) |>) ->
  chosen now s s2.
Proof.
  intros Hi [Hc Hx] (E1 & E2 & E3 & E4 & E5 & E6 & E7 & E8)%chan_core_fields. cbn in *.
  pose proof (calm_inv _ _ Hi Hc) as Hi1. destruct (kept_fields _ _ (proj1 Hc)) as (K1 & K2 & K3 & K4 & K5 & _).
  split; [|split; [eapply heap_step_eq; [by apply calm_heap|done]|split; [split_and!; congruence|]]].
  - apply (heap_inv s1); try done; [by rewrite E2, sort_perm, K2|].
    intros k. rewrite E3, K2. destruct (sort_by (lt_in s1) (chan_connections_ s)) as [|h t] eqn:Es; cbn [head].
    + by destruct (best_connection_ s).
    + destruct (pick_best s1 (chan_connections_ s) h t (best_connection_ s)) as (b & v & -> & Hb & _); try done.
      * intros j. rewrite <- K2. apply Hi1.
      * apply Hi.
      * by intros [= <-].
  - exists s1. split; [by split|]. by rewrite E2.
Qed.

Lemma flags_wp s2 s3 l (Q : unit -> P2PTransportChannel -> Prop) : chan_inv s2 -> prunes s2 s3 ->
  (forall k, k ∈ l <-> k ∈ chan_connections_ s2) ->
  (some_writable s3 <-> best_writable s3) ->
  (forall s', core s' = core s3 -> (writable_ s' = true <-> some_writable s3) ->
     (readable_ s' = true <-> some_readable s3) -> Q tt s') ->
  wp (xs ← conns l;
      (if has_write STATE_WRITABLE xs then HandleWritable
       else if has_write STATE_WRITE_CONNECT xs then HandleNotWritable else HandleAllTimedOut);;
      UpdateChannelState;; emit SignalConnectionMonitor) Q s3.
Proof.
  intros Hi Hp Hl Hf Hq. pose proof (proj1 Hp) as Hc. pose proof (calm_inv _ _ Hi Hc) as Hi3.
  destruct (kept_fields _ _ (proj1 Hc)) as (_ & Ec & _).
  apply pwp_bind, conns_wp; [done|intros k Hk; rewrite Ec; by apply Hl|]. intros xs Hxs.
  assert (Hhw : has_write STATE_WRITABLE xs = true <-> some_writable s3).
  { unfold has_write. rewrite (Forall2_exists _ _ _ _ Hxs). split; intros (k & x & H1).
    - exists k, x. destruct H1 as (_ & ? & ?%bool_decide_eq_true). done.
    - exists k, x. destruct H1 as (Ex & ?). split; [|split; [done|by apply bool_decide_eq_true]].
      apply Hl. rewrite <- Ec. destruct (conn_of_x _ _ _ Ex) as [p E]. apply Hi3. by exists (p, x). }
  apply pwp_bind. eapply (pwp_mono _ (fun _ s4 => core s4 = core s3 /\ (writable_ s4 = true <-> some_writable s3))).
  { destruct (has_write STATE_WRITABLE xs); [eapply pwp_mono; [apply HandleWritable_wp|]|
      destruct (has_write STATE_WRITE_CONNECT xs); [eapply pwp_mono; [apply HandleNotWritable_wp|]|
        eapply pwp_mono; [apply HandleAllTimedOut_wp|]]]; intros [] s4 [E4 ->]; (split; [done|done]). }
  intros [] s4 [E4 W4]. pose proof (core_inv _ _ Hi3 E4) as Hi4. pose proof (core_conn_x _ _ E4) as X4.
  apply pwp_bind. eapply pwp_mono; [apply UpdateChannelState_wp; [done|]|].
  { rewrite W4, Hf. destruct (chan_core_fields _ _ E4) as (_ & _ & Eb & _). unfold best_writable. rewrite Eb. by setoid_rewrite X4. }
  intros [] s5 (E5 & W5 & R5). unfold emit. apply pwp_modify, Hq.
  - by rewrite <- E4, <- E5.
  - cbn. by rewrite W5.
  - cbn. rewrite R5. unfold some_readable. by setoid_rewrite X4.
Qed.

Lemma SortConnections_wp s (Q : unit -> P2PTransportChannel -> Prop) : chan_inv s ->
  (forall s', sorts (u32 (chan_clock (chan_ticks s))) s s' -> Q tt s') -> wp (SortConnections chan_clock) Q s.
Proof.
  intros Hi Hq. set (now := u32 _) in *. unfold SortConnections.
  apply pwp_bind, UpdateConnectionStates_wp; [done|]. fold now. intros s1 U1. pose proof (calm_inv _ _ Hi (proj1 U1)) as Hi1.
  destruct (kept_fields _ _ (proj1 (proj1 U1))) as (_ & K2 & K3 & _).
  apply pwp_bind, pwp_modify, pwp_bind, pwp_get. set (d1 := s1 <| sort_dirty_ := false |>).
  assert (Hd1 : chan_inv d1) by (apply (heap_inv s1); try done; apply Hi1).
  apply pwp_bind, networks_of_wp; [done|done|]. intros ns.
  apply pwp_bind, (stable_sort_wp (lt_in s1)).
  { intros a b Ha Hb. destruct (live_conn d1 a Hd1 Ha) as (p & x & Ea & _), (live_conn d1 b Hd1 Hb) as (q & y & Eb & _).
    eapply (ConnectionCompare_wp d1 Hd1); [exact Ea|exact Eb|]. split; [|done]. unfold lt_in.
    change (conn_of s1 a) with (conn_of d1 a). change (conn_of s1 b) with (conn_of d1 b). by rewrite Ea, Eb. }
  change (chan_connections_ d1) with (chan_connections_ s1). rewrite K2. set (l := sort_by (lt_in s1) (chan_connections_ s)).
  apply pwp_bind, pwp_modify. set (d2 := d1 <| chan_connections_ := l |>).
  assert (Hl : forall k, k ∈ l <-> k ∈ chan_connections_ s) by (intros k; unfold l; by rewrite sort_perm).
  assert (Hd2 : chan_inv d2).
  { apply (heap_inv d1); try done; [|intros k; apply Hd1]. change (Permutation l (chan_connections_ s1)). unfold l. by rewrite sort_perm, K2. }
  change (best_connection_ d1) with (best_connection_ s1). rewrite K3.
  apply pwp_bind, ShouldSwitch_head_wp; [done|done|intros k; change (chan_connections_ d2) with l; rewrite Hl; apply Hi|].
  intros b Hpick. change (pick d2) with (pick s1) in Hpick. set (o := pick s1 _ _) in Hpick.
  apply pwp_bind. eapply (pwp_mono _ (fun _ s2 => core s2 = core (d2 <| best_connection_ := o |>))).
  { destruct b.
    - eapply (SwitchBest_wp d2 (d2 <| best_connection_ := o |>)); [done|by rewrite Hpick| |done].
      intros k Hk. change (chan_connections_ d2) with l. destruct l; [done|]. cbn in Hk. injection Hk as ->. by left.
    - apply pwp_ret. change (core d2 = core (d2 <| best_connection_ := o |>)). unfold core. cbn. by rewrite <- Hpick, K3. }
  intros [] s2 E2. assert (Hch : chosen now s s2) by by apply (choose_inv now s s1).
  destruct (chan_core_fields _ _ E2) as (_ & Ec2 & Eb2 & _). change (chan_connections_ s2 = l) in Ec2. change (best_connection_ s2 = o) in Eb2.
  assert (Hi2 : chan_inv s2) by apply Hch.
  apply pwp_bind. eapply pwp_mono; [apply prune_networks_wp; exact Hi2|]. intros [] s3 P3.
  assert (Hfl : some_writable s3 <-> best_writable s3).
  { apply (prunes_flags s2); [done|done| |].
    - rewrite Ec2, Eb2. intros El. unfold o. rewrite El. cbn [head].
      destruct (best_connection_ s) as [a|] eqn:Ea; [|done].
      pose proof (ci_best _ Hi _ Ea) as Ha. apply Hl in Ha. rewrite El in Ha. by apply not_elem_of_nil in Ha.
    - rewrite Ec2, Eb2. intros Hne. destruct l as [|h t] eqn:El; [done|].
      destruct (pick_best s1 (chan_connections_ s) h t (best_connection_ s)) as (a & v & Ea & _ & Ev & Hmin); [|done|apply Hi|].
      { intros k. rewrite <- K2. apply Hi1. }
      assert (Eh : forall k, conn_of s2 k = conn_of s1 k) by (intros k; by apply heap_conn_of; injection E2).
      exists a, v. unfold o. cbn [head]. split; [done|]. split; [by rewrite Eh|]. intros k w Hk. rewrite Eh. apply Hmin. by apply Hl. }
  apply (flags_wp s2 s3 l); [done|done|by rewrite Ec2|done|]. intros s' E' W' R'. apply Hq.
  pose proof (core_conn_x _ _ E') as X'. destruct (chan_core_fields _ _ E') as (Eh' & _ & Eb' & Ep' & Er' & En' & _).
  destruct Hch as (_ & Hh2 & (L1 & L2 & L3) & Hst). destruct (kept_fields _ _ (proj1 (proj1 P3))) as (M1 & _ & _ & M4 & M5 & _).
  split.
  - apply (core_inv s3); [by apply (calm_inv s2), P3|done].
  - destruct Hst as (t1 & ? & ? & ? & ?). by exists t1, s2, s3.
  - destruct (chan_core_fields _ _ E') as (_ & _ & _ & _ & _ & _ & Ed' & Eq'). unfold sort_ok. rewrite Ed', Eq'.
    apply (sort_step_ok s2); [apply P3|]. unfold sort_ok. by replace (sort_dirty_ s2) with false by by injection E2.
  - eapply heap_step_eq; [|exact Eh']. eapply heap_step_trans; [exact Hh2|apply calm_heap, P3].
  - split_and!; congruence.
  - unfold best_writable, some_writable in *. rewrite Eb'. setoid_rewrite X'. by rewrite <- Hfl.
  - rewrite R'. unfold some_readable. by setoid_rewrite X'.
Qed.
End Runs.
