(* ===== verification/ChannelFacts.v ===== *)
(** * Channels over their whole life

    Candidates, ports, pings and packets at the level of the channel; its
    events as a transition system, whose reachable states satisfy the invariant. *)

From S2P Require Import Prelude TimeUtil ByteOrder ByteBuffer SocketAddress StdMap Stun StunFacts StunServer StunMessages StunRequest Effects Port PortRuns PortFacts PortSteps Channel ChannelRuns.
From Stdlib Require Import SpecFloat.
#[local] Open Scope jingle_scope.
Import Port Channel.
#[local] Set Default Proof Using "Type".

(** ** The flags of the channel *)

(** The channel is writable exactly when its best connection is, exactly when
    any connection is, and readable when one is. *)
Definition flags_right (s : P2PTransportChannel) : Prop :=
  (writable_ s = true <-> best_writable s) /\ (writable_ s = true <-> some_writable s) /\
  (some_readable s -> readable_ s = true).
(** A sort is posted, or the flags are right. *)
Definition fresh (s : P2PTransportChannel) : Prop := sort_ok s /\ (sort_dirty_ s = false -> flags_right s).
Definition chan_ok (s : P2PTransportChannel) : Prop := chan_inv s /\ fresh s.

Lemma calm_same s s' k x : calm s s' -> sort_dirty_ s' = false ->
  (exists y, conn_x s k = Some y /\ states y = states x) <-> (exists y, conn_x s' k = Some y /\ states y = states x).
Proof.
  intros Hc Hd. pose proof Hc as (_ & _ & _ & [Ht|Ht]); [congruence|]. split.
  - intros (y & Ey & Sy). destruct (Ht k y Ey) as (z & Ez & Sz). exists z. by rewrite Sz.
  - intros (y & Ey & Sy). assert (Hl : is_Some (conn_of s k)).
    { apply (calm_live _ _ _ Hc). apply conn_x_of in Ey as [p ?]. by exists (p, y). }
    destruct Hl as [[p z] Ez]. assert (Ez' : conn_x s k = Some z) by (apply conn_x_of; by exists p).
    destruct (Ht k z Ez') as (w & Ew & Sw). exists z. split; [done|]. congruence.
Qed.
Lemma calm_ok s s' : chan_ok s -> calm s s' -> chan_ok s'.
Proof.
  intros [Hi [Hso Hf]] Hc. split; [by apply (calm_inv s)|]. split; [apply (sort_step_ok s); [apply Hc|done]|]. intros Hd.
  assert (Hd0 : sort_dirty_ s = false).
  { destruct Hc as (_ & _ & [[E _]|(? & ? & _)] & _); congruence. }
  pose proof (fun k x => calm_same s s' k x Hc Hd) as Hs. destruct (Hf Hd0) as (F1 & F2 & F3).
  destruct (kept_fields _ _ (proj1 Hc)) as (_ & _ & Eb & _ & _ & Ew & _). pose proof (kept_readable _ _ (proj1 Hc)) as Er.
  assert (Hw : forall k, (exists x, conn_x s' k = Some x /\ write_state_ x = STATE_WRITABLE) <->
    (exists x, conn_x s k = Some x /\ write_state_ x = STATE_WRITABLE)).
  { intros k. split; intros (x & Ex & Hx); destruct (Hs k x) as [H1 H2];
      [destruct H2 as (y & Ey & Sy); [by exists x|]|destruct H1 as (y & Ey & Sy); [by exists x|]];
      exists y; (split; [done|]); injection Sy; congruence. }
  unfold flags_right. rewrite Ew, Er. split; [|split].
  - rewrite F1. unfold best_writable. rewrite Eb. split; intros (k & x & Ek & Ex & Hx).
    + destruct (proj2 (Hw k)) as (y & ? & ?); [by exists x|by exists k, y].
    + destruct (proj1 (Hw k)) as (y & ? & ?); [by exists x|by exists k, y].
  - rewrite F2. unfold some_writable. split; intros (k & x & Ex & Hx).
    + destruct (proj2 (Hw k)) as (y & ? & ?); [by exists x|by exists k, y].
    + destruct (proj1 (Hw k)) as (y & ? & ?); [by exists x|by exists k, y].
  - intros (k & x & Ex & Hx). apply F3. destruct (proj2 (Hs k x)) as (y & Ey & Sy); [by exists x|]. exists k, y.
    split; [done|]. injection Sy. congruence.
Qed.
Lemma sorts_ok now s s' : sorts now s s' -> chan_ok s'.
Proof.
  intros S. split; [apply S|]. split; [apply S|]. intros _. destruct (so_writable _ _ _ S) as [H1 H2]. split_and!; [done|done|].
  apply (so_readable _ _ _ S).
Qed.
(** What else the events change. *)
Lemma same_ok s s' : chan_ok s -> core s' = core s -> writable_ s' = writable_ s -> readable_ s' = readable_ s -> chan_ok s'.
Proof.
  intros [Hi Hf] Hc Ew Er. split; [by apply (core_inv s)|]. unfold fresh, sort_ok, flags_right, best_writable, some_writable, some_readable.
  destruct (chan_core_fields _ _ Hc) as (_ & _ & -> & _ & _ & _ & -> & ->). rewrite Ew, Er. setoid_rewrite (core_conn_x _ _ Hc). exact Hf.
Qed.

(** ** Creating connections *)

(** Port [i] knows the address [a], or does not. *)
Definition found (s : P2PTransportChannel) (i : nat) (a : SocketAddress) : Prop :=
  exists p c, port_heap s !! i = Some p /\ map_find a (connections_ p) = Some c.
Definition unknown (s : P2PTransportChannel) (i : nat) (a : SocketAddress) : Prop :=
  exists p, port_heap s !! i = Some p /\ map_find a (connections_ p) = None.
(** The channel may have more connections, on the ports of [l] only. *)
Record grows_on (l : list nat) (s s' : P2PTransportChannel) : Prop := {
  gr_inv : chan_inv s';
  gr_ports : ports_ s' = ports_ s;
  gr_remote : remote_candidates_ s' = remote_candidates_ s;
  gr_live : forall j, is_Some (port_heap s !! j) -> is_Some (port_heap s' !! j);
  gr_heap : forall j, j ∉ l -> port_heap s' !! j = port_heap s !! j;
}.

Lemma grows_refl l s : chan_inv s -> grows_on l s s.
Proof. done. Qed.
Lemma grows_trans l1 l2 s1 s2 s3 : grows_on l1 s1 s2 -> grows_on l2 s2 s3 -> grows_on (l1 ++ l2) s1 s3.
Proof.
  intros [_ P1 R1 L1 H1] [I2 P2 R2 L2 H2]. split; [done|congruence|congruence|auto|].
  intros j [N1 N2]%not_elem_of_app. by rewrite H2, H1.
Qed.
Lemma grows_one i s s' : chan_inv s' -> ports_ s' = ports_ s -> remote_candidates_ s' = remote_candidates_ s ->
  is_Some (port_heap s' !! i) -> (forall j, j <> i -> port_heap s' !! j = port_heap s !! j) -> grows_on [i] s s'.
Proof.
  intros Hi E1 E2 Hl Hh. split; [done|done|done| |].
  - intros j Hj. destruct (decide (j = i)) as [->|]; [done|]. by rewrite Hh.
  - intros j Hj. apply Hh. intros ->. apply Hj. by left.
Qed.
Lemma calm_grows s s' i : chan_inv s -> calm s s' -> is_Some (port_heap s !! i) ->
  (forall j, j <> i -> port_heap s' !! j = port_heap s !! j) -> grows_on [i] s s'.
Proof.
  intros Hi Hc [p Ep] Hh. destruct (kept_fields _ _ (proj1 Hc)) as (E1 & _ & _ & E4 & _).
  apply grows_one; [by apply (calm_inv s)|done|done| |done]. pose proof (proj1 (proj2 Hc) i) as Hst.
  rewrite Ep in Hst. by destruct (port_heap s' !! i).
Qed.
Lemma grows_found l s s' i a : grows_on l s s' -> i ∉ l -> found s i a -> found s' i a.
Proof. intros G Hn. unfold found. by rewrite (gr_heap _ _ _ G). Qed.
Lemma grows_unknown l s s' i a : grows_on l s s' -> i ∉ l -> unknown s i a -> unknown s' i a.
Proof. intros G Hn. unfold unknown. by rewrite (gr_heap _ _ _ G). Qed.
Lemma noise_heap s i p' s' : noise (s <| port_heap := <[i := p']> (port_heap s) |>) s' ->
  port_heap s' !! i = Some p' /\ forall j, j <> i -> port_heap s' !! j = port_heap s !! j.
Proof.
  intros (_ & Hh & _). cbn in Hh. rewrite Hh. split; [apply lookup_insert_eq|]. intros j Hj. by rewrite lookup_insert_ne.
Qed.

Section Runs.
Context {B : Type} `{ByteQueue B}.
Variable chan_clock : nat -> Z.
Variable clock : nat -> nat -> Z.
Variable random_id : nat -> nat -> bytes.
Variable socket_SendTo : nat -> nat -> Z.
Variable socket_GetError : nat -> nat -> Z.

(** A touched connection of port [i]. *)
Lemma ping_received_wp i c s p (Q : unit -> P2PTransportChannel -> Prop) : chan_inv s -> port_heap s !! i = Some p ->
  is_Some (conn_heap p !! c) ->
  (forall s' p', calm s s' -> port_heap s' !! i = Some p' -> connections_ p' = connections_ p ->
    (forall j, j <> i -> port_heap s' !! j = port_heap s !! j) -> Q tt s') ->
  wp (on_port i (ReceivedPing (clock i) c)) Q s.
Proof.
  intros Hi Ep [x Ex] Hq. destruct (ci_port _ Hi _ _ Ep) as (Hp & _).
  eapply (run_port_wp handle i _ (fun _ p' => exists y, touches c y p p')); [done|exact Ep| |].
  - eapply pwp_mono; [by apply ReceivedPing_touches|]. intros [] p' (y & Ht & _). split; [by exists y|apply Ht].
  - intros [] p' s' (y & Hst & _ & _) N T. destruct (put_port_step _ _ _ _ _ Hi Ep Hst N T) as [Hc _].
    destruct (noise_heap _ _ _ _ N) as [E1 E2]. apply (Hq s' p'); [done|done|apply Hst|done].
Qed.

Lemma add_connection_inv s i p p' s' c candidate : chan_inv s -> port_heap s !! i = Some p -> port_inv p' ->
  steady p' = steady p -> destroyed p' = false -> conn_heap p !! c = None ->
  conn_heap p' = <[c := new_Connection 0 candidate]> (conn_heap p) ->
  noise (s <| port_heap := <[i := p']> (port_heap s) |>) s' ->
  chan_inv (s' <| chan_connections_ := chan_connections_ s' ++ [(i, c)] |>).
Proof.
  intros Hi Ep Hp' Hst Hd Hc Hh (K & Eh & Hs). cbn in Eh. destruct (kept_fields _ _ K) as (E1 & E2 & E3 & E4 & E5 & _).
  cbn in E1, E2, E3, E4, E5.
  set (t := s' <| chan_connections_ := chan_connections_ s' ++ [(i, c)] |>).
  assert (F : port_heap t = <[i := p']> (port_heap s) /\ next_port t = next_port s /\ chan_connections_ t = chan_connections_ s ++ [(i, c)] /\
    best_connection_ t = best_connection_ s /\ ports_ t = ports_ s /\ remote_candidates_ t = remote_candidates_ s).
  { split_and!; [done|done| |done|done|done]. cbn. by rewrite E2. }
  clearbody t. clear K Eh Hs E1 E2 E3 E4 E5. destruct F as (F1 & F2 & F3 & F4 & F5 & F6).
  assert (Hnew : (i, c) ∉ chan_connections_ s).
  { intros [[q x] E]%(ci_conns _ Hi). apply conn_of_spec in E as [Eq Ey]. cbn in *. congruence. }
  split; rewrite ?F1, ?F2, ?F3, ?F4, ?F5, ?F6; try apply Hi.
  - intros j q. destruct (decide (j = i)) as [->|Hn]; [|rewrite lookup_insert_ne by done; apply (ci_port _ Hi)].
    rewrite lookup_insert_eq. intros [= <-]. destruct (ci_port _ Hi _ _ Ep) as (_ & _ & Hf & Hl & Hx).
    split_and!; [done|done| |done|].
    + destruct Hf as (l & El & Ef). exists l. injection Hst as _ _ _ Epref Ecand. by rewrite Ecand, Epref.
    + intros d x. rewrite Hh. destruct (decide (d = c)) as [->|]; [rewrite lookup_insert_eq; by intros [= <-]|].
      rewrite lookup_insert_ne by done. apply Hx.
  - apply NoDup_app. split; [apply Hi|]. split; [|apply NoDup_singleton]. by intros k Hk ->%list_elem_of_singleton.
  - intros [j d]. rewrite elem_of_app, list_elem_of_singleton, (ci_conns _ Hi). unfold conn_of. cbn [fst snd]. rewrite F1.
    destruct (decide (j = i)) as [->|Hn]; [|rewrite lookup_insert_ne by done; split; [intros [?|?]; congruence|by left]].
    rewrite lookup_insert_eq, Ep. cbn. rewrite Hh. destruct (decide (d = c)) as [->|Hd'].
    + rewrite lookup_insert_eq. split; [intros _; by eexists|by right].
    + rewrite lookup_insert_ne by done. destruct (conn_heap p !! d); cbn.
      * split; intros _; [by eexists|left; by eexists].
      * split; [intros [[? ?]|?]; [done|congruence]|by intros [? ?]].
  - intros k Hk. apply elem_of_app. left. by apply (ci_best _ Hi).
  - split; [apply Hi|]. intros j Hj. destruct (decide (j = i)) as [->|]; [by rewrite lookup_insert_eq|].
    rewrite lookup_insert_ne by done. by apply (ci_ports _ Hi).
Qed.

(** A connection to [candidate] on port [i]: there afterwards if the result is
    true, which a new address always gets when a ping came from it. *)
Lemma create_wp i candidate origin readable s : chan_inv s -> is_Some (port_heap s !! i) ->
  wp (CreateConnection clock i candidate origin readable) (fun b s' => grows_on [i] s s' /\
    (b = true -> found s' i (c_address candidate)) /\
    (c_protocol candidate = str "udp" -> origin <> None -> unknown s i (c_address candidate) -> b = true)) s.
Proof.
  intros Hi [p Ep]. destruct (ci_port _ Hi _ _ Ep) as (Hp & Hd & _). unfold CreateConnection.
  apply pwp_bind. eapply port_at_wp; [exact Ep|].
  assert (Hsame : grows_on [i] s s) by by apply grows_refl.
  destruct (map_find (c_address candidate) (connections_ p)) as [c|] eqn:Ef.
  - destruct (pi_key _ Hp _ _ Ef) as (x & Ex & _). apply pwp_bind. eapply wp_the; [exact Ex|].
    assert (Hk : unknown s i (c_address candidate) -> False).
    { intros (q & Eq & Hq). congruence. }
    destruct (negb _); [by apply pwp_ret|]. apply pwp_bind. destruct readable.
    + eapply ping_received_wp; [done|exact Ep|by exists x|]. intros s' p' Hc Ep' Em Hh. apply pwp_ret.
      split; [apply calm_grows; [done|done|by exists p|done]|]. split; [|done]. intros _. exists p', c. by rewrite Em.
    + apply pwp_ret, pwp_ret. split; [done|]. split; [|done]. intros _. by exists p, c.
  - apply pwp_bind, pwp_get. destruct (_ && _) eqn:Eo.
    { apply pwp_ret. split; [done|]. split; [done|]. intros _ Ho _.
      apply andb_true_iff in Eo as [Eo%bool_decide_eq_true _]. unfold GetOrigin in Eo. destruct origin as [o|]; [|done].
      by destruct (i =? o)%nat. }
    apply pwp_bind. eapply (run_port_wp handle i _ (fun o p' => port_inv p' /\ steady p' = steady p /\ destroyed p' = false /\
      (c_protocol candidate = str "udp" -> o <> None) /\ match o with
      | None => p' = p
      | Some c => conn_heap p !! c = None /\ conn_heap p' = <[c := new_Connection 0 candidate]> (conn_heap p) /\
        map_find (c_address candidate) (connections_ p') = Some c end)); [done|exact Ep| |].
    { eapply pwp_mono; [by apply CreateConnection_wp|]. intros o p' (H1 & H2 & H3 & H4 & Ho). destruct o as [c|].
      - destruct Ho as (Hn & Hh & Hf & Hs & Hr). split; [done|]. by eapply create_emitted.
      - subst p'. split; [done|]. apply emitted_refl. }
    intros [c|] p' s1 (Hp' & Hst & Hd' & Hu & Ho) N T.
    + destruct Ho as (Hn & Hh & Hf). apply pwp_bind, pwp_modify.
      pose proof (add_connection_inv s i p p' s1 c candidate Hi Ep Hp' Hst Hd' Hn Hh N) as Hi1.
      destruct (noise_heap _ _ _ _ N) as [E1 E2]. destruct (kept_fields _ _ (proj1 N)) as (K1 & _ & _ & K4 & _).
      set (t := s1 <| chan_connections_ := _ |>) in *.
      assert (F : port_heap t = port_heap s1 /\ ports_ t = ports_ s1 /\ remote_candidates_ t = remote_candidates_ s1) by done.
      cbn in K1, K4. clearbody t. destruct F as (F1 & F2 & F3). rewrite <- F1 in E1, E2. rewrite <- F2 in K1. rewrite <- F3 in K4. clear F1 F2 F3 N.
      apply pwp_bind. destruct readable.
      * eapply ping_received_wp; [exact Hi1|exact E1|rewrite Hh, lookup_insert_eq; by eexists|].
        intros s' p2 Hc Ep2 Em Hh2. apply pwp_ret. destruct (kept_fields _ _ (proj1 Hc)) as (L1 & _ & _ & L4 & _).
        split; [apply grows_one; [by apply (calm_inv t)|congruence|congruence|by exists p2|]|].
        -- intros j Hj. by rewrite Hh2, E2.
        -- split; [|done]. intros _. exists p2, c. by rewrite Em.
      * apply pwp_ret, pwp_ret. split; [apply grows_one; [done|done|done|by exists p'|done]|]. split; [|done]. intros _. by exists p', c.
    + subst p'. apply pwp_ret. destruct (put_port_step _ _ _ _ _ Hi Ep (pstep_refl p Hp) N T) as [Hc _].
      destruct (noise_heap _ _ _ _ N) as [_ E2]. split; [apply calm_grows; [done|done|by exists p|done]|].
      split; [done|]. intros Hudp. by destruct Hu.
Qed.

Lemma create_on_wp candidate origin readable ports s created : chan_inv s -> NoDup ports ->
  c_protocol candidate = str "udp" -> (forall i, i ∈ ports -> is_Some (port_heap s !! i)) ->
  wp (create_on clock candidate origin readable created ports) (fun b s' => grows_on ports s s' /\
    (created = true -> b = true) /\ forall o, origin = Some o ->
      (b = true -> created = true \/ o ∈ ports /\ found s' o (c_address candidate)) /\
      (o ∈ ports -> unknown s o (c_address candidate) -> b = true)) s.
Proof.
  intros Hi Hn Hu. revert s created Hi. induction Hn as [|i ports Hin Hn IH]; intros s created Hi Hl; cbn [create_on].
  { apply pwp_ret. split; [by apply grows_refl|]. split; [done|]. intros o _. split; [by left|]. by intros ?%not_elem_of_nil. }
  apply pwp_bind. eapply pwp_mono; [apply create_wp; [done|apply Hl; by left]|]. intros b s1 (G1 & Hf & Hb).
  pose proof (gr_inv _ _ _ G1) as Hi1.
  eapply pwp_mono; [apply IH; [done|intros j Hj; apply (gr_live _ _ _ G1), Hl; by right]|]. intros b' s' (G2 & Hcr & Ho).
  split; [exact (grows_trans [i] ports _ _ _ G1 G2)|]. split; [intros ->; by apply Hcr|]. intros o Eo. destruct (Ho o Eo) as [H1 H2].
  split.
  - intros [Hc|[Hp Hfd]]%H1; [|right; split; [by right|done]].
    apply orb_true_iff in Hc as [Hc|[-> ->%bool_decide_eq_true]%andb_true_iff]; [by left|]. injection Eo as ->.
    right. split; [by left|]. apply (grows_found _ _ _ _ _ G2 Hin). by apply Hf.
  - intros [->|Hp]%elem_of_cons Hk.
    + apply Hcr. rewrite (Hb Hu), Eo, bool_decide_true by (by rewrite ?Eo). apply orb_true_r.
    + apply H2; [done|]. apply (grows_unknown _ _ _ _ _ G1); [|done]. intros ->%list_elem_of_singleton. done.
Qed.

Definition all_udp (l : list RemoteCandidate) : Prop := Forall (fun r => c_protocol (remote_candidate r) = str "udp") l.
Lemma remote_inv s s' l : chan_inv s -> core s' = core (s <| remote_candidates_ := l |>) -> all_udp l -> chan_inv s'.
Proof.
  intros Hi E Hl. apply (core_inv (s <| remote_candidates_ := l |>)); [|done]. split; try apply Hi. exact Hl.
Qed.
Lemma remember_inv candidate origin s : chan_inv s -> c_protocol candidate = str "udp" ->
  wp (RememberRemoteCandidate candidate origin) (fun _ s' => chan_inv s' /\ port_heap s' = port_heap s /\ ports_ s' = ports_ s) s.
Proof.
  intros Hi Hu. unfold RememberRemoteCandidate. apply pwp_bind, pwp_modify, pwp_bind, pwp_get.
  set (l := List.filter _ _).
  assert (F : all_udp l).
  { apply List.Forall_forall. intros r [Hr _]%List.filter_In. pose proof (ci_remote _ Hi) as Hf.
    rewrite List.Forall_forall in Hf. by apply Hf. }
  destruct (existsb _ _); [apply pwp_ret; split; [by apply (remote_inv s _ l)|done]|].
  assert (F2 : all_udp (l ++ [mkRemote candidate origin])) by (apply Forall_app; split; [done|by constructor]).
  apply pwp_bind, pwp_modify, pwp_bind, pwp_get.
  destruct (negb _); [apply pwp_modify|apply pwp_ret]; (split; [by eapply (remote_inv s)|done]).
Qed.

Lemma CreateConnections_wp candidate origin readable s : chan_inv s -> c_protocol candidate = str "udp" ->
  (forall o, origin = Some o -> is_Some (port_heap s !! o)) ->
  wp (CreateConnections clock candidate origin readable) (fun b s' => chan_inv s' /\
    forall o, origin = Some o -> (b = true -> found s' o (c_address candidate)) /\
      (unknown s o (c_address candidate) -> b = true)) s.
Proof.
  intros Hi Hu Ho. unfold CreateConnections. apply pwp_bind, pwp_get, pwp_bind.
  assert (Hrev : forall o, o ∈ rev (ports_ s) <-> o ∈ ports_ s).
  { intros o. rewrite rev_alt. apply elem_of_reverse. }
  eapply pwp_mono; [apply create_on_wp; [done| |done|]|].
  { apply NoDup_ListNoDup, NoDup_rev, NoDup_ListNoDup, Hi. }
  { intros o Hin%Hrev. by apply (ci_ports _ Hi). }
  intros b s1 (G1 & _ & H1). pose proof (gr_inv _ _ _ G1) as Hi1.
  apply pwp_bind, pwp_get, pwp_bind.
  eapply (pwp_mono _ (fun b s2 => chan_inv s2 /\ forall o, origin = Some o -> (b = true -> found s2 o (c_address candidate)) /\
    (unknown s o (c_address candidate) -> b = true))).
  - rewrite (gr_ports _ _ _ G1). destruct origin as [o|]; [|by apply pwp_ret]. destruct (H1 o eq_refl) as [Hf Hk].
    case_bool_decide as Hin.
    + apply pwp_ret. split; [done|]. intros ? [= <-]. split; [by intros [?|[_ ?]]%Hf|]. apply Hk. by apply Hrev.
    + assert (Hn : o ∉ rev (ports_ s)) by by rewrite Hrev.
      apply pwp_bind. eapply pwp_mono; [apply create_wp; [done|apply (gr_live _ _ _ G1), Ho; done]|].
      intros b' s2 (G2 & Hf2 & Hk2). apply pwp_ret. split; [apply G2|]. intros ? [= <-]. split.
      * intros [Hb|Hb]%orb_true_iff; [by destruct (Hf Hb) as [?|[? _]]|by apply Hf2].
      * intros Huk. rewrite Hk2; [apply orb_true_r|done|done|]. by apply (grows_unknown _ _ _ _ _ G1).
  - intros b2 s2 [Hi2 H2]. apply pwp_bind. eapply pwp_mono; [by apply remember_inv|]. intros [] s3 (Hi3 & Eh & _).
    apply pwp_ret. split; [done|]. intros o Eo. unfold found. rewrite Eh. by apply H2.
Qed.

(** ** Packets *)

Lemma heap_step_found s s' i a : heap_step s s' -> found s i a -> found s' i a.
Proof.
  intros Hh (p & c & Ep & Ef). specialize (Hh i). rewrite Ep in Hh. destruct (port_heap s' !! i) as [p'|] eqn:Ep'; [|done].
  exists p', c. split; [done|]. by rewrite (ps_map _ _ Hh).
Qed.
(** The peer whose candidate has the username [user]. *)
Definition known_user (s : P2PTransportChannel) (user : bytes) : Prop :=
  exists r, r ∈ remote_candidates_ s /\ c_username (remote_candidate r) = user.

Lemma OnUnknownAddress_wp i a msg user s : chan_ok s -> unknown s i a -> m_type msg = STUN_BINDING_REQUEST ->
  is_Some (StunMsg.GetByteString STUN_ATTR_USERNAME msg) ->
  wp (OnUnknownAddress (B := B) chan_clock clock socket_SendTo socket_GetError i a msg user)
    (fun _ s' => chan_ok s' /\ (known_user s user -> found s' i a)) s.
Proof.
  intros Hok Hu Ht Hn. pose proof (proj1 Hok) as Hi. pose proof Hu as (p & Ep & _). unfold OnUnknownAddress. apply pwp_bind, pwp_get.
  destruct (find _ _) as [r|] eqn:Ef.
  - apply find_some in Ef as [Hr _]. pose proof (ci_remote _ Hi) as Hf. rewrite List.Forall_forall in Hf. specialize (Hf r Hr).
    apply pwp_bind. eapply pwp_mono; [apply CreateConnections_wp; [done|exact Hf|intros o [= <-]; by exists p]|].
    intros b s1 (Hi1 & H1). destruct (H1 i eq_refl) as [Hfd Hb]. rewrite (Hb Hu) in *. specialize (Hfd eq_refl). cbn [c_address] in Hfd.
    pose proof Hfd as (p1 & c & Ep1 & Em). destruct (ci_port _ Hi1 _ _ Ep1) as (Hp1 & _). destruct (pi_key _ Hp1 _ _ Em) as (x & Ex & _).
    apply pwp_bind. eapply (run_port_touch handle i c _ (fun _ _ => True)); [done|exact Hi1|by apply conn_of_spec| |].
    { eapply pwp_mono; [by eapply SendBindingResponse_touches|]. intros [] p' (y & Hy & _). by exists y. }
    intros [] y s2 _ Hc _. apply SortConnections_wp; [by apply (calm_inv s1)|]. intros s3 S. split; [by eapply sorts_ok|]. intros _.
    apply (heap_step_found s2); [apply S|]. by apply (heap_step_found s1); [apply Hc|].
  - destruct (ci_port _ Hi _ _ Ep) as (Hp & _).
    eapply (run_port_leaves handle i _ (fun _ => True)); [done|done|exact Ep| |].
    { eapply pwp_mono; [by apply SendBindingErrorResponse_leaves|]. by intros [] p'. }
    intros [] s' _ Hc _. split; [by apply (calm_ok s)|]. intros (r & Hr & Hru). exfalso.
    apply list_elem_of_In in Hr. pose proof (find_none _ _ Ef r Hr) as Hnone. by apply bool_decide_eq_false in Hnone.
Qed.

Lemma deliver_wp i data addr s p : chan_ok s -> port_heap s !! i = Some p ->
  wp (deliver (B := B) chan_clock clock socket_SendTo socket_GetError i data addr) (fun _ s' => chan_ok s' /\
    forall msg user, unknown s i addr -> enable_port_packets_ p = false -> read_stun (B := B) (username_frag_ p) data = FromPeer msg user ->
      m_type msg = STUN_BINDING_REQUEST -> known_user s user -> found s' i addr) s.
Proof.
  intros Hok Ep. pose proof (proj1 Hok) as Hi. destruct (ci_port _ Hi _ _ Ep) as (Hp & _). unfold deliver.
  match goal with |- wp (run_port ?f _ _) _ _ => set (slots := f) end. unfold run_port. apply pwp_bind. eapply port_at_wp; [exact Ep|].
  pose proof (OnReadPacket_steps (B := B) (clock i) (socket_SendTo i) (socket_GetError i) data addr p Hp) as Hw.
  unfold wp in Hw. destruct (Port.OnReadPacket _ _ _ _ _ p) as [[] p'|] eqn:Em; [|done]. destruct Hw as [Hst Hw].
  apply pwp_bind, pwp_modify, pwp_bind. set (t := s <| port_heap := _ |>).
  assert (Hcalm : forall s', noise t s' -> sort_dirty_ s' = true \/ same_states p p' -> calm s s').
  { intros s' N T. by destruct (put_port_step s i p p' s' Hi Ep Hst N T). }
  assert (Hquiet : forall R : Prop, emitted quiet p p' -> R ->
    wp (for_each (slots i) (drop (length (signals p)) (signals p'))) (fun _ s' => wp (mret ()) (fun _ s' => chan_ok s' /\ R) s') t).
  { intros R [(l & El & Hl & Ht) _] HR. rewrite El, drop_app_length.
    eapply pwp_mono; [eapply (handle_all_quiet slots i l _); [|done]|]; [by intros []|].
    intros [] s' [N D]. apply pwp_ret. split; [|done]. apply (calm_ok s); [done|]. apply Hcalm; [done|].
    destruct Ht as [?|?]; [left; by apply D|by right]. }
  destruct Hw as [(Hm & Hh & msg & user & El & Ht & Hn & Ers)|[((_ & _ & He) & Hno)|(c & y & Hf & _ & _ & He)]].
  - rewrite El, drop_app_length. cbn [for_each]. apply pwp_bind. unfold slots.
    eapply pwp_mono; [apply OnUnknownAddress_wp; [|exists p'; split; [apply lookup_insert_eq|by rewrite (ps_map _ _ Hst)]|done|done]|].
    + apply (calm_ok s); [done|]. apply Hcalm; [apply noise_refl|right; by apply same_states_heap].
    + intros [] s' [Hok' Hk]. apply pwp_ret, pwp_ret. split; [done|]. intros m u _ _ E' _. rewrite Ers in E'. by injection E' as <- <-.
  - eapply pwp_mono; [apply (Hquiet (forall msg user, enable_port_packets_ p = false ->
      read_stun (B := B) (username_frag_ p) data = FromPeer msg user -> m_type msg = STUN_BINDING_REQUEST -> False) He)|].
    + intros m u Een Ers Ht. by apply (Hno Een m u).
    + intros [] s' [Hok' Hk]. apply pwp_ret. split; [done|]. intros m u _ Een Ers Ht _. by destruct (Hk m u).
  - eapply pwp_mono; [apply (Hquiet True He I)|]. intros [] s' [Hok' _]. apply pwp_ret. split; [done|].
    intros m u (q & Eq & Hq). congruence.
Qed.

(** ** Ports that lose a connection, or go *)

Lemma remove_first_spec {A} `{EqDecision A} (x : A) l : NoDup l ->
  NoDup (remove_first x l) /\ forall y, y ∈ remove_first x l <-> y ∈ l /\ y <> x.
Proof.
  induction 1 as [|h l Hh Hl [IHn IH]]; cbn.
  - split; [constructor|]. intros y. split; [by intros ?%not_elem_of_nil|]. by intros [?%not_elem_of_nil _].
  - case_bool_decide as Hx.
    + subst h. split; [done|]. intros y. rewrite elem_of_cons. split; [intros Hy; split; [by right|by intros ->]|by intros [[?|?] ?]].
    + split; [constructor; [by intros [? _]%IH|done]|]. intros y. rewrite !elem_of_cons, IH. split; [|intros [[?|?] ?]; auto].
      intros [->|[? ?]]; [split; [by left|done]|split; [by right|done]].
Qed.

(** Port [i] lost the connections [gone], and is gone itself if it was destroyed. *)
Lemma settled_inv s t i p p' (gone : ptr -> Prop) : chan_inv s -> port_heap s !! i = Some p -> port_inv p' ->
  steady p' = steady p ->
  (forall d x, conn_heap p' !! d = Some x <-> conn_heap p !! d = Some x /\ ~ gone d) ->
  port_heap t = (if destroyed p' then base.delete i (port_heap s) else <[i := p']> (port_heap s)) ->
  ports_ t = (if destroyed p' then remove_first i (ports_ s) else ports_ s) ->
  NoDup (chan_connections_ t) ->
  (forall k, k ∈ chan_connections_ t <-> k ∈ chan_connections_ s /\ ~ (fst k = i /\ gone (snd k))) ->
  (forall k, best_connection_ t = Some k -> best_connection_ s = Some k /\ ~ (fst k = i /\ gone (snd k))) ->
  remote_candidates_ t = remote_candidates_ s -> next_port t = next_port s -> chan_inv t.
Proof.
  intros Hi Ep Hp' Hst Hh E1 E2 Hn Hc Hb E3 E4.
  assert (Hof : forall j, j <> i -> port_heap t !! j = port_heap s !! j).
  { intros j Hj. rewrite E1. destruct (destroyed p'); [by rewrite lookup_delete_ne|by rewrite lookup_insert_ne]. }
  assert (Hat : port_heap t !! i = if destroyed p' then None else Some p').
  { rewrite E1. destruct (destroyed p'); [apply lookup_delete_eq|apply lookup_insert_eq]. }
  assert (Hnone : destroyed p' = true -> forall d, conn_heap p' !! d = None).
  { intros [_ He]%(pi_destroyed _ Hp') d. destruct (conn_heap p' !! d) as [x|] eqn:Ex; [|done].
    destruct (pi_conn _ Hp' _ _ Ex) as (Hm & _). by rewrite He in Hm. }
  destruct (ci_port _ Hi _ _ Ep) as (_ & _ & Hf & Hl & Hx). clear E1.
  split; rewrite ?E3, ?E4; try done; try apply Hi.
  - intros j q. destruct (decide (j = i)) as [->|Hj]; [|rewrite Hof by done; apply Hi].
    rewrite Hat. destruct (destroyed p') eqn:Ed; [done|]. intros [= <-]. split_and!; [done|done| |done|].
    + destruct Hf as (l & El & Ef). exists l. injection Hst as _ _ _ Epref Ecand. by rewrite Ecand, Epref.
    + intros c x [Ex _]%Hh. by apply (Hx c).
  - intros [j d]. rewrite Hc, (ci_conns _ Hi). unfold conn_of. cbn [fst snd]. destruct (decide (j = i)) as [->|Hj].
    + assert (Hd : is_Some (conn_heap p' !! d) <-> is_Some (conn_heap p !! d) /\ ~ gone d).
      { split; [intros [x [? ?]%Hh]; split; [by exists x|done]|]. intros [[x ?] ?]. exists x. by apply Hh. }
      rewrite Hat, Ep. cbn.
      assert (Hsome : forall q, is_Some (x ← conn_heap q !! d; Some (q, x)) <-> is_Some (conn_heap q !! d)).
      { intros q. destruct (conn_heap q !! d); cbn; split; intros [? ?]; try done; by eexists. }
      rewrite Hsome. destruct (destroyed p') eqn:Ed; cbn.
      * rewrite (Hnone eq_refl) in Hd. split; [|by intros [? ?]]. intros [H1 H2].
        assert (H0 : is_Some (@None Connection)) by (apply Hd; split; [done|]; intros ?; by apply H2). by destruct H0.
      * rewrite Hsome, Hd. split; intros [? Hg]; (split; [done|]); [by intros ?; apply Hg|by intros [_ ?]].
    + rewrite Hof by done. split; [by intros [? _]|]. intros ?. split; [done|]. by intros [? _].
  - intros k [Hk Hg]%Hb. apply Hc. split; [by apply (ci_best _ Hi)|done].
  - destruct (ci_ports _ Hi) as [Hpn Hpl]. destruct (remove_first_spec i _ Hpn) as [Hrn Hr]. rewrite E2.
    destruct (destroyed p') eqn:Ed; (split; [done|]); intros j Hj.
    + apply Hr in Hj as [Hj Hne]. rewrite Hof by done. by apply Hpl.
    + destruct (decide (j = i)) as [->|Hne]; [rewrite Hat; by eexists|]. rewrite Hof by done. by apply Hpl.
Qed.

Lemma settled_fresh s t i p p' (gone : ptr -> Prop) : fresh s -> chan_inv t -> port_heap s !! i = Some p ->
  (forall d x, conn_heap p' !! d = Some x <-> conn_heap p !! d = Some x /\ ~ gone d) ->
  port_heap t = (if destroyed p' then base.delete i (port_heap s) else <[i := p']> (port_heap s)) ->
  writable_ t = writable_ s -> readable_ t = readable_ s -> (sort_ok s -> sort_ok t) ->
  (sort_dirty_ t = false -> sort_dirty_ s = false /\ best_connection_ t = best_connection_ s) -> fresh t.
Proof.
  intros [Hso Hf] Hi Ep Hh Eh Ew Er Hs Hd. split; [by apply Hs|]. intros Hdt. destruct (Hd Hdt) as [Hds Eb]. destruct (Hf Hds) as (F1 & F2 & F3).
  assert (Hx : forall k x, conn_x t k = Some x -> conn_x s k = Some x).
  { intros [j d] x (q & [Eq Ex]%conn_of_spec)%conn_x_of. apply conn_x_of. cbn in *. rewrite Eh in Eq.
    destruct (decide (j = i)) as [->|Hj].
    - destruct (destroyed p'); [by rewrite lookup_delete_eq in Eq|]. rewrite lookup_insert_eq in Eq. injection Eq as <-.
      exists p. apply conn_of_spec. split; [done|]. by apply Hh in Ex as [? _].
    - exists q. apply conn_of_spec. split; [|done].
      destruct (destroyed p'); [by rewrite lookup_delete_ne in Eq|by rewrite lookup_insert_ne in Eq]. }
  assert (Hb : best_writable t <-> best_writable s).
  { unfold best_writable. rewrite Eb. split; intros (k & x & Ek & Ex & Hw); exists k; [exists x; split; [done|split; [by apply Hx|done]]|].
    destruct (live_conn t k Hi) as (q & y & _ & Ey); [apply (ci_best _ Hi); congruence|].
    exists y. split; [done|]. split; [done|]. apply Hx in Ey. congruence. }
  unfold flags_right. rewrite Ew, Er, Hb. split; [done|]. split.
  - split.
    + intros Hw. apply F1, Hb in Hw as (k & x & _ & Ex & Hw). by exists k, x.
    + intros (k & x & Ex & Hw). apply F2. exists k, x. split; [by apply Hx|done].
  - intros (k & x & Ex & Hr). apply F3. exists k, x. split; [by apply Hx|done].
Qed.

(** The slot of a port that deletes itself. *)
Lemma port_destroyed_wp i (b : bool) s (Q : unit -> P2PTransportChannel -> Prop) :
  Q tt (if b then s <| ports_ := remove_first i (ports_ s) |> <| port_heap := base.delete i (port_heap s) |> else s) ->
  wp (for_each (handle i) (if b then [SignalDestroyed] else [])) Q s.
Proof. destruct b; by intros. Qed.

Lemma check_timer_wp i s p (clk : nat -> Z) (rid : nat -> bytes) (so er : nat -> Z) : chan_ok s -> port_heap s !! i = Some p ->
  check_posted p = true ->
  wp (on_port i (run_event (B := B) clk rid so er CheckTimer)) (fun _ s' => chan_ok s') s.
Proof.
  intros [Hi Hf] Ep Hc. destruct (ci_port _ Hi _ _ Ep) as (Hp & Hd & _).
  pose proof (check_follows clk rid so er p Hp (conj Hd Hc)) as Hw. unfold on_port, run_port.
  apply pwp_bind. eapply port_at_wp; [exact Ep|]. unfold wp in Hw. destruct (run_event _ _ _ _ _ p) as [[] p'|]; [|done].
  destruct Hw as ([Hp' _] & Hh & Hst & Es). apply pwp_bind, pwp_modify, pwp_bind. rewrite Es, drop_app_length.
  apply port_destroyed_wp, pwp_ret. set (t := if destroyed p' then _ else _).
  assert (F : port_heap t = (if destroyed p' then base.delete i (port_heap s) else <[i := p']> (port_heap s)) /\
    ports_ t = (if destroyed p' then remove_first i (ports_ s) else ports_ s) /\ chan_connections_ t = chan_connections_ s /\
    best_connection_ t = best_connection_ s /\ remote_candidates_ t = remote_candidates_ s /\ next_port t = next_port s /\
    sort_dirty_ t = sort_dirty_ s /\ sort_posts t = sort_posts s /\ writable_ t = writable_ s /\ readable_ t = readable_ s).
  { unfold t. destruct (destroyed p'); split_and!; try done. cbn. by rewrite delete_insert_eq. }
  clearbody t. destruct F as (F1 & F2 & F3 & F4 & F5 & F6 & F7 & F8 & F9 & F10).
  assert (Hgone : forall d x, conn_heap p' !! d = Some x <-> conn_heap p !! d = Some x /\ ~ False) by (intros d x; rewrite Hh; split; [intros ?; split; [done|by intros []]|by intros [? _]]).
  assert (Hk : forall k : cptr, ~ (fst k = i /\ False)) by by intros k [_ []].
  assert (Ht : chan_inv t).
  { eapply (settled_inv s t i p p' (fun _ => False)); rewrite ?F3, ?F4; try done; try apply Hi.
    - intros k. split; [intros ?; by split|by intros [? _]].
 }
  split; [done|]. apply (settled_fresh s t i p p' (fun _ => False)); try done; [unfold sort_ok; by rewrite F7, F8|by rewrite F7, F4].
Qed.

(** The slot of a connection that deletes itself. *)
Definition forgot (k : cptr) (s t : P2PTransportChannel) : Prop :=
  port_heap t = port_heap s /\ ports_ t = ports_ s /\ chan_connections_ t = remove_first k (chan_connections_ s) /\
  (forall b, best_connection_ t = Some b -> best_connection_ s = Some b /\ b <> k) /\
  remote_candidates_ t = remote_candidates_ s /\ next_port t = next_port s /\
  (sort_ok s -> sort_ok t) /\ writable_ t = writable_ s /\ readable_ t = readable_ s /\
  (sort_dirty_ t = false -> sort_dirty_ s = false /\ best_connection_ t = best_connection_ s).
Lemma forgot_wp k s (Q : unit -> P2PTransportChannel -> Prop) : k ∈ chan_connections_ s ->
  (forall t, forgot k s t -> Q tt t) -> wp (OnConnectionDestroyed k) Q s.
Proof.
  intros Hk Hq. unfold OnConnectionDestroyed. apply pwp_bind, pwp_get, pwp_bind, pwp_assert; [by apply bool_decide_eq_true|].
  apply pwp_bind, pwp_modify. case_bool_decide as Hb; [|apply pwp_ret, Hq; split_and!; try done; intros b Eb; cbn in Eb; split; [done|congruence]].
  apply pwp_bind. unfold SwitchBestConnectionTo. apply pwp_bind, pwp_modify, pwp_ret. unfold RequestSort.
  apply pwp_bind, pwp_get. destruct (sort_dirty_ _) eqn:Ed; cbn [negb]; cbn in Ed.
  - apply pwp_ret, Hq. split_and!; try done. cbn. congruence.
  - apply pwp_modify, Hq. split_and!; try done. unfold sort_ok. cbn. lia.
Qed.

Lemma deletion_wp i c s p (clk : nat -> Z) (rid : nat -> bytes) (so er : nat -> Z) : chan_ok s -> port_heap s !! i = Some p ->
  c ∈ deletes p ->
  wp (on_port i (run_event (B := B) clk rid so er (Deletion c))) (fun _ s' => chan_ok s' /\ conn_of s' (i, c) = None) s.
Proof.
  intros [Hi Hf] Ep Hc. destruct (ci_port _ Hi _ _ Ep) as (Hp & Hd & _). destruct (pi_deletes _ Hp _ Hc) as [x Ex].
  pose proof (delete_follows clk rid so er c p Hp (conj Hd Hc)) as Hw. unfold on_port, run_port.
  apply pwp_bind. eapply port_at_wp; [exact Ep|]. unfold wp in Hw. destruct (run_event _ _ _ _ _ p) as [[] p'|]; [|done].
  destruct Hw as ([Hp' _] & Hh & _ & _ & Hst & Es). apply pwp_bind, pwp_modify, pwp_bind. rewrite Es, drop_app_length.
  cbn [for_each]. apply pwp_bind, forgot_wp.
  { cbn. apply Hi. exists (p, x). by apply conn_of_spec. }
  intros t1 (F1 & F2 & F3 & F4 & F5 & F6 & F7 & F8 & F9 & F10). cbn in F1, F2, F3, F4, F5, F6, F8, F9, F10.
  apply port_destroyed_wp, pwp_ret. set (t := if destroyed p' then _ else _).
  assert (G : port_heap t = (if destroyed p' then base.delete i (port_heap s) else <[i := p']> (port_heap s)) /\
    ports_ t = (if destroyed p' then remove_first i (ports_ s) else ports_ s) /\
    chan_connections_ t = remove_first (i, c) (chan_connections_ s) /\ best_connection_ t = best_connection_ t1 /\
    remote_candidates_ t = remote_candidates_ s /\ next_port t = next_port s /\ (sort_ok s -> sort_ok t) /\
    sort_dirty_ t = sort_dirty_ t1 /\ writable_ t = writable_ s /\ readable_ t = readable_ s).
  { unfold t. destruct (destroyed p'); split_and!; try done; cbn; try congruence.
    by rewrite F1, delete_insert_eq. }
  clearbody t. clear F1 F2 F3 F5 F6 F7 F8 F9. destruct G as (G1 & G2 & G3 & G4 & G5 & G6 & G7 & G8 & G9 & G10).
  rewrite <- G4 in F4. rewrite <- G4, <- G8 in F10.
  assert (Hgone : forall d y, conn_heap p' !! d = Some y <-> conn_heap p !! d = Some y /\ ~ d = c).
  { intros d y. rewrite Hh, lookup_delete_Some. split; intros [? ?]; split; congruence. }
  destruct (remove_first_spec (i, c) _ (ci_nodup _ Hi)) as [Hn Hr].
  assert (Hpair : forall k : cptr, k <> (i, c) <-> ~ (fst k = i /\ snd k = c)).
  { intros [j d]. cbn. split; [intros Hk [-> ->]; by apply Hk|]. intros Hk [= -> ->]. by apply Hk. }
  assert (Ht : chan_inv t).
  { eapply (settled_inv s t i p p' (fun d => d = c)); rewrite ?G3; try done.
    - intros k. by rewrite Hr, Hpair.
    - intros k [? ?]%F4. by rewrite <- Hpair. }
  split; [split; [done|]|].
  - by apply (settled_fresh s t i p p' (fun d => d = c)).
  - destruct (conn_of t (i, c)) as [v|] eqn:Ev; [|done]. exfalso.
    assert (Hl : (i, c) ∈ chan_connections_ t) by (apply Ht; by exists v). rewrite G3 in Hl. by apply Hr in Hl as [_ ?].
Qed.

(** ** Timers of a port, and its start *)

Lemma ping_timer_wp i c n s p x : chan_ok s -> conn_of s (i, c) = Some (p, x) -> is_Some (StunReq.posts (requests_ x) !! n) ->
  wp (on_port i (request_OnMessage (B := B) (clock i) (socket_SendTo i) (socket_GetError i) c n)) (fun _ s' => chan_ok s') s.
Proof.
  intros Hok Ek Hn. pose proof (proj1 Hok) as Hi. destruct (conn_inv _ _ _ _ Hi Ek) as (Hp & Ex & _).
  eapply (run_port_touch handle i c _ (fun _ _ => True)); [done|exact Hi|exact Ek| |].
  - eapply pwp_mono; [by apply request_OnMessage_touches|]. intros [] p' (now & r & Ht). by eexists.
  - intros [] y s' _ Hc _. by apply (calm_ok s).
Qed.
Lemma port_start_wp i s p : chan_ok s -> port_heap s !! i = Some p ->
  wp (on_port i Start) (fun _ s' => chan_ok s') s.
Proof.
  intros Hok Ep. pose proof (proj1 Hok) as Hi. destruct (ci_port _ Hi _ _ Ep) as (Hp & Hd & _).
  eapply (run_port_leaves handle i _ (fun _ => True)); [done|done|exact Ep| |].
  - eapply pwp_mono; [by apply Start_leaves|]. by intros [] p'.
  - intros [] s' _ Hc _. by apply (calm_ok s).
Qed.

(** ** Ports and candidates that come *)

Definition add_port (p : Port) (s : P2PTransportChannel) : P2PTransportChannel :=
  s <| port_heap := <[next_port s := p]> (port_heap s) |> <| next_port := S (next_port s) |>.
Lemma add_port_inv p s : chan_inv s -> port_inv p -> destroyed p = false -> port_fit p -> conn_heap p = ∅ -> chan_inv (add_port p s).
Proof.
  intros Hi Hp Hd Hf Hh. assert (Hn : port_heap s !! next_port s = None).
  { destruct (port_heap s !! next_port s) as [q|] eqn:Eq; [|done]. destruct (ci_port _ Hi _ _ Eq) as (_ & _ & _ & ? & _). lia. }
  split; try apply Hi.
  - intros j q. cbn. destruct (decide (j = next_port s)) as [->|Hj].
    + rewrite lookup_insert_eq. intros [= <-]. split_and!; [done|done|done|lia|]. intros c x. by rewrite Hh.
    + rewrite lookup_insert_ne by done. intros E. destruct (ci_port _ Hi _ _ E) as (? & ? & ? & ? & ?). split_and!; [done|done|done|lia|done].
  - intros [j d]. cbn. rewrite (ci_conns _ Hi). unfold conn_of. cbn. destruct (decide (j = next_port s)) as [->|Hj].
    + rewrite lookup_insert_eq, Hn. cbn. rewrite Hh, lookup_empty. done.
    + by rewrite lookup_insert_ne.
  - destruct (ci_ports _ Hi) as [? Hl]. split; [done|]. intros j Hj. cbn. destruct (decide (j = next_port s)) as [->|Hne].
    + rewrite lookup_insert_eq. by eexists.
    + rewrite lookup_insert_ne by done. by apply Hl.
Qed.

(** The lists of the channel, without the connections. *)
Lemma ports_inv s s' l : chan_inv s -> core s' = core (s <| ports_ := l |>) -> NoDup l ->
  (forall i, i ∈ l -> is_Some (port_heap s !! i)) -> chan_inv s'.
Proof.
  intros Hi E Hn Hl. apply (core_inv (s <| ports_ := l |>)); [|done]. by split; try apply Hi.
Qed.
Lemma emit_all {A} (f : A -> chan_signal) l s : wp (for_each (fun a => emit (f a)) l) (fun _ s' => core s' = core s /\
  kept s' = kept s) s.
Proof.
  revert s. induction l as [|a l IH]; intros s; cbn [for_each]; [by apply pwp_ret|]. unfold emit at 1.
  apply pwp_bind, pwp_modify. eapply pwp_mono; [apply IH|]. intros _ s' [E1 E2]. by rewrite E1, E2.
Qed.

Lemma OnPortReady_wp i s : chan_inv s -> is_Some (port_heap s !! i) -> i ∉ ports_ s ->
  wp (OnPortReady chan_clock clock i) (fun _ s' => chan_ok s' /\ ports_ s' = ports_ s ++ [i]) s.
Proof.
  intros Hi Hl Hn. unfold OnPortReady. apply pwp_bind, pwp_get, pwp_bind.
  eapply pwp_mono; [apply emit_all|]. intros [] s1 [E1 _]. apply pwp_bind, pwp_modify. set (s2 := s1 <| ports_ := _ |>).
  destruct (chan_core_fields _ _ E1) as (Eh & _ & _ & Eps & _).
  assert (F2 : port_heap s2 = port_heap s /\ ports_ s2 = ports_ s ++ [i]) by (split; [done|]; cbn; by rewrite Eps).
  assert (Hi2 : chan_inv s2).
  { eapply (ports_inv s1); [by apply (core_inv s)|done| |].
    - rewrite Eps. apply NoDup_app. split; [apply Hi|]. split; [|apply NoDup_singleton]. by intros k Hk ->%list_elem_of_singleton.
    - intros j. rewrite Eps, Eh, elem_of_app, list_elem_of_singleton. intros [Hj| ->]; [by apply (ci_ports _ Hi)|done]. }
  clearbody s2. destruct F2 as [F2 F3]. apply pwp_bind, pwp_get, pwp_bind.
  eapply pwp_mono; [apply (wp_for_each _ (fun _ t => chan_inv t /\ is_Some (port_heap t !! i) /\ ports_ t = ports_ s ++ [i]))|].
  - by rewrite F2.
  - intros r l t (Ht & Htl & Hp). apply pwp_bind. eapply pwp_mono; [by apply create_wp|]. intros b t' (G & _). apply pwp_ret.
    split; [apply G|]. split; [by apply (gr_live _ _ _ G)|]. by rewrite (gr_ports _ _ _ G).
  - intros [] t (Ht & _ & Hp). apply SortConnections_wp; [done|]. intros s' S. split; [by eapply sorts_ok|].
    destruct (so_lists _ _ _ S) as (-> & _). done.
Qed.
Lemma OnCandidate_wp candidate s : chan_inv s -> c_protocol candidate = str "udp" ->
  wp (OnCandidate chan_clock clock candidate) (fun _ s' => chan_ok s') s.
Proof.
  intros Hi Hu. unfold OnCandidate. apply pwp_bind. eapply pwp_mono; [by apply CreateConnections_wp|].
  intros b s1 [Hi1 _]. apply SortConnections_wp; [done|]. intros s'. apply sorts_ok.
Qed.

(** ** Sessions *)

Lemma OnSignalingReady_ok s : chan_ok s -> wp OnSignalingReady (fun _ s' => chan_ok s') s.
Proof.
  intros Hok. unfold OnSignalingReady. apply pwp_bind, pwp_get. destruct (waiting_for_signaling_ s); [|by apply pwp_ret].
  apply pwp_bind, pwp_modify, pwp_bind, pwp_modify, pwp_modify. destruct Hok as [Hi Hf]. split; [|exact Hf].
  eapply (ports_inv s _ []); [done|done|constructor|by intros i ?%not_elem_of_nil].
Qed.

Lemma delete_ports_wp s : chan_inv s -> wp delete_ports (fun _ s' => port_heap s' = ∅ /\ next_port s' = next_port s) s.
Proof.
  intros Hi. unfold delete_ports. apply pwp_bind, pwp_get. match goal with |- context [map fst ?l] => change (map fst l) with (fst <$> l) end.
  eapply pwp_mono; [apply (wp_for_each _ (fun l t => NoDup l /\ next_port t = next_port s /\
    (forall i p, port_heap t !! i = Some p -> port_inv p) /\ forall i, i ∈ l <-> is_Some (port_heap t !! i)))|].
  - split; [apply NoDup_fst_map_to_list|]. split; [done|]. split; [intros i p E; by apply (ci_port _ Hi _ _ E)|].
    intros i. rewrite list_elem_of_fmap. split.
    + intros [[j p] [-> E%elem_of_map_to_list]]. by exists p.
    + intros [p E]. exists (i, p). split; [done|]. by apply elem_of_map_to_list.
  - intros i l t ([Hin Hn]%NoDup_cons & En & Hp & Hl). destruct (proj1 (Hl i) ltac:(by left)) as [p Ep].
    apply pwp_bind. unfold on_port, run_port. apply pwp_bind. eapply port_at_wp; [exact Ep|].
    pose proof (delete_port_wp p (Hp _ _ Ep)) as Hw. unfold wp in Hw. destruct (delete_port p) as [[] p'|]; [|done].
    apply pwp_bind, pwp_modify, pwp_bind. rewrite Hw, drop_all. apply pwp_ret, pwp_ret, pwp_modify. cbn.
    rewrite delete_insert_eq. split; [done|]. split; [done|]. split.
    + intros j q [_ E]%lookup_delete_Some. by eapply Hp.
    + intros j. rewrite lookup_delete_is_Some, <- Hl, elem_of_cons. split; [intros ?; split; [by intros ->|by right]|by intros [? [?|?]]].
  - intros [] t (_ & En & _ & Hl). split; [|done]. apply map_empty. intros i. destruct (port_heap t !! i) eqn:E; [|done].
    assert (Hi0 : i ∈ @nil nat) by (apply Hl; by eexists). by apply not_elem_of_nil in Hi0.
Qed.

(** Nothing is left: every connection, port and candidate is gone. *)
Definition reset (s : P2PTransportChannel) : Prop :=
  port_heap s = ∅ /\ chan_connections_ s = [] /\ best_connection_ s = None /\ ports_ s = [] /\ remote_candidates_ s = [] /\
  readable_ s = false /\ writable_ s = false /\ sort_dirty_ s = false.
Lemma reset_ok s : reset s -> chan_ok s.
Proof.
  intros (E1 & E2 & E3 & E4 & E5 & E6 & E7 & E8).
  assert (Hx : forall k, conn_of s k = None) by (intros k; unfold conn_of; by rewrite E1, lookup_empty).
  split.
  - split; rewrite ?E2, ?E3, ?E4, ?E5; try done.
    + intros i p. by rewrite E1, lookup_empty.
    + constructor.
    + intros k. rewrite Hx. split; [by intros ?%not_elem_of_nil|by intros [? ?]].
    + split; [constructor|]. by intros i ?%not_elem_of_nil.
  - split; [unfold sort_ok; by rewrite E8|]. intros _. unfold flags_right. rewrite E6, E7. unfold best_writable, some_writable, some_readable, conn_x. rewrite E3. split_and!.
    + split; [done|]. by intros (k & x & ? & _).
    + split; [done|]. intros (k & x & E & _). by rewrite Hx in E.
    + intros (k & x & E & _). by rewrite Hx in E.
Qed.
Lemma Reset_wp b s : chan_inv s -> wp (Reset b) (fun _ s' => reset s' /\ ping_posts s' = [0]) s.
Proof.
  intros Hi. unfold Reset. apply pwp_bind. eapply pwp_mono; [by apply delete_ports_wp|]. intros [] s1 [Eh _].
  apply pwp_bind, pwp_modify, pwp_bind.
  eapply (pwp_mono _ (fun _ t => port_heap t = ∅ /\ chan_connections_ t = [] /\ best_connection_ t = None /\ ports_ t = [] /\
    remote_candidates_ t = [] /\ readable_ t = false)).
  { eapply pwp_mono; [apply set_readable_wp|]. intros [] t (C & _ & R).
    destruct (chan_core_fields _ _ C) as (-> & -> & -> & -> & -> & _). done. }
  intros [] s2 (F1 & F2 & F3 & F4 & F5 & F6). unfold set_writable, Allocate, CancelPendingAllocate, emit. wp_steps.
  destruct (negb _) eqn:Ew; wp_steps; destruct b; cbv iota; wp_steps; unfold reset; split_and!; try done.
  all: apply negb_false_iff, eqb_prop in Ew; exact Ew.
Qed.

(** ** Sending *)

Lemma SendPacket_wp data s : chan_ok s ->
  (forall k p x, best_connection_ s = Some k -> conn_of s k = Some (p, x) -> socket_SendTo (fst k) (length (sent p)) <> 0) ->
  wp (SendPacket socket_SendTo socket_GetError data) (fun v s' => chan_ok s' /\ v <> 0) s.
Proof.
  intros Hok Hn. pose proof (proj1 Hok) as Hi. unfold SendPacket. apply pwp_bind, pwp_get.
  destruct (best_connection_ s) as [k|] eqn:Ek; [|apply pwp_bind, pwp_modify, pwp_ret; split; [by apply (same_ok s)|done]].
  destruct (live_conn s k Hi (ci_best _ Hi _ Ek)) as (p & x & E & _). destruct (conn_inv _ _ _ _ Hi E) as (Hp & Ex & _).
  specialize (Hn k p x eq_refl E). destruct k as [i c]. cbn [fst snd] in *.
  apply pwp_bind. eapply (run_port_touch handle i c _ (fun v _ => v <> 0)); [done|exact Hi|exact E| |].
  { eapply pwp_mono; [by apply Send_touches|]. intros v p' (Hv & y & Ht & _). by exists y. }
  intros v y s1 Hv Hc _. pose proof (calm_ok _ _ Hok Hc) as Hok1. apply pwp_bind.
  eapply (pwp_mono _ (fun _ s' => chan_ok s')); [|intros [] s' ?; by apply pwp_ret].
  destruct (Z.leb_spec v 0); [|by apply pwp_ret]. apply pwp_bind, pwp_assert; [by apply Z.ltb_lt; lia|].
  destruct (calm_conn _ _ _ _ _ Hc E) as (p' & x' & E' & _). apply pwp_bind. eapply conn_wp; [exact E'|].
  apply pwp_modify. by apply (same_ok s1).
Qed.

(** ** Pinging *)

Definition pingable (w : bool) (x : Connection) : bool :=
  connected_ x && (if w then negb (bool_decide (write_state_ x = STATE_WRITE_TIMEOUT))
    else negb (bool_decide (write_state_ x = STATE_WRITE_TIMEOUT)) || negb (bool_decide (read_state_ x = STATE_READ_TIMEOUT))).
Lemma IsPingable_wp x s (Q : bool -> P2PTransportChannel -> Prop) : Q (pingable (writable_ s) x) s -> wp (IsPingable x) Q s.
Proof.
  unfold IsPingable, pingable. intros Hq. apply pwp_bind, pwp_get. destruct (connected_ x); cbn in *; [|by apply pwp_ret].
  destruct (writable_ s); by apply pwp_ret.
Qed.

(** The connection whose last ping is oldest. *)
Definition oldest_of (s : P2PTransportChannel) (l : list cptr) (bound : Z) (o : option cptr) : Prop :=
  match o with
  | Some k => k ∈ l /\ exists x, conn_x s k = Some x /\ pingable (writable_ s) x = true /\ last_ping_sent_ x < bound /\
      forall j y, j ∈ l -> conn_x s j = Some y -> pingable (writable_ s) y = true -> last_ping_sent_ x <= last_ping_sent_ y
  | None => forall j y, j ∈ l -> conn_x s j = Some y -> pingable (writable_ s) y = true -> bound <= last_ping_sent_ y
  end.
Lemma oldest_pingable_wp l s bound o0 (Q : option cptr -> P2PTransportChannel -> Prop) : chan_inv s ->
  (forall k, k ∈ l -> k ∈ chan_connections_ s) ->
  (forall o, oldest_of s l bound o -> Q (match o with Some k => Some k | None => o0 end) s) ->
  wp (oldest_pingable bound o0 l) Q s.
Proof.
  intros Hi. revert bound o0 Q. induction l as [|k l IH]; intros bound o0 Q Hl Hq; cbn [oldest_pingable].
  { apply pwp_ret, (Hq None). by intros j y Hj%not_elem_of_nil. }
  destruct (live_conn s k Hi (Hl k ltac:(by left))) as (p & x & E & Ex). apply pwp_bind. eapply conn_wp; [exact E|].
  apply pwp_bind, IsPingable_wp. assert (Hl' : forall j, j ∈ l -> j ∈ chan_connections_ s) by (intros j Hj; apply Hl; by right).
  destruct (pingable (writable_ s) x && (last_ping_sent_ x <? bound)) eqn:Eb.
  - apply andb_true_iff in Eb as [Hp Hlt%Z.ltb_lt]. apply IH; [done|]. intros [j|] Ho.
    + apply (Hq (Some j)). destruct Ho as (Hj & y & Ey & Hpy & Hly & Hmin). split; [by right|]. exists y. split_and!; [done|done|lia|].
      intros i z [->|Hin]%elem_of_cons Ez Hz; [|by eapply Hmin]. assert (z = x) as -> by congruence. lia.
    + apply (Hq (Some k)). split; [by left|]. exists x. split_and!; [done|done|done|].
      intros i z [->|Hin]%elem_of_cons Ez Hz; [|by eapply Ho]. assert (z = x) as -> by congruence. lia.
  - assert (Hx : pingable (writable_ s) x = true -> bound <= last_ping_sent_ x).
    { intros Hp. rewrite Hp in Eb. by apply Z.ltb_ge in Eb. }
    apply IH; [done|]. intros [j|] Ho; [apply (Hq (Some j))|apply (Hq None)].
    + destruct Ho as (Hj & y & Ey & Hpy & Hly & Hmin). split; [by right|]. exists y. split_and!; [done|done|done|].
      intros i z [->|Hin]%elem_of_cons Ez Hz; [|by eapply Hmin]. assert (z = x) as -> by congruence. specialize (Hx Hz). lia.
    + intros i z [->|Hin]%elem_of_cons Ez Hz; [|by eapply Ho]. assert (z = x) as -> by congruence. by apply Hx.
Qed.

(** The best connection is writable and was not pinged for 900 ms. *)
Definition best_due (now : Z) (s : P2PTransportChannel) (k : cptr) : Prop := best_connection_ s = Some k /\
  exists x, conn_x s k = Some x /\ write_state_ x = STATE_WRITABLE /\ last_ping_sent_ x +u MAX_CURRENT_WRITABLE_DELAY <= now.
Definition next_ping (now : Z) (s : P2PTransportChannel) (o : option cptr) : Prop :=
  (exists k, best_due now s k /\ o = Some k) \/
  (~ (exists k, best_due now s k) /\ oldest_of s (chan_connections_ s) 4294967295 o).
Lemma FindNextPingableConnection_wp s (Q : option cptr -> P2PTransportChannel -> Prop) : chan_inv s ->
  (forall s' o, calm s s' -> conn_x s' = conn_x s -> next_ping (u32 (chan_clock (chan_ticks s))) s' o -> Q o s') ->
  wp (FindNextPingableConnection chan_clock) Q s.
Proof.
  intros Hi Hq. unfold FindNextPingableConnection. apply pwp_bind, (wp_chan_Time _ _ _ Hi). intros s1 Hc Hx.
  set (now := u32 _) in *. pose proof (calm_inv _ _ Hi Hc) as Hi1. apply pwp_bind, pwp_get, pwp_bind.
  eapply (pwp_mono _ (fun b s' => s' = s1 /\ match b with Some k => best_due now s1 k | None => ~ exists k, best_due now s1 k end)).
  - destruct (best_connection_ s1) as [k|] eqn:Ek.
    + destruct (live_conn s1 k Hi1 (ci_best _ Hi1 _ Ek)) as (p & x & E & Ex). apply pwp_bind. eapply conn_wp; [exact E|].
      apply pwp_ret. split; [done|]. destruct (bool_decide _ && _) eqn:Eb.
      * apply andb_true_iff in Eb as [Hw%bool_decide_eq_true Hl%Z.leb_le]. split; [done|]. by exists x.
      * intros (j & Ej & y & Ey & Hw & Hl). assert (j = k) as -> by congruence. assert (y = x) as -> by congruence.
        rewrite bool_decide_true in Eb by done. cbn in Eb. by apply Z.leb_gt in Eb; lia.
    + apply pwp_ret. split; [done|]. intros (j & Ej & _). congruence.
  - intros [k|] s' [-> Hb].
    + apply pwp_ret, Hq; [done|done|]. left. by exists k.
    + apply oldest_pingable_wp; [done|done|]. intros o Ho.
      replace (match o with Some k => Some k | None => None end) with o by by destruct o.
      apply Hq; [done|done|]. by right.
Qed.
Lemma next_ping_live now s o k : chan_inv s -> next_ping now s o -> o = Some k -> exists p x, conn_of s k = Some (p, x) /\ conn_x s k = Some x.
Proof.
  intros Hi [(j & (Ej & _) & Eo)|[_ Ho]] Ek; subst o.
  - injection Ek as ->. by apply live_conn, (ci_best _ Hi).
  - apply live_conn; [done|apply Ho].
Qed.

(** The transaction ids that the ports will draw are not outstanding. *)
Definition ids_fresh (s : P2PTransportChannel) : Prop := forall k p x, conn_of s k = Some (p, x) ->
  forall n, (random_strings p <= n)%nat -> StunReq.requests_ (requests_ x) !! random_id (fst k) n = None.
Lemma update_requests now x : requests_ (update_state now x) = requests_ x.
Proof. unfold update_state, update_connect, update_writable, update_read. by repeat case_match. Qed.
Lemma ids_fresh_calm s s' : chan_inv s -> calm s s' -> ids_fresh s ->
  (forall k x', conn_x s' k = Some x' -> exists x, conn_x s k = Some x /\ requests_ x' = requests_ x) -> ids_fresh s'.
Proof.
  intros Hi Hc Hf Hr k p' x' E' n Hn. destruct (Hr k x') as (x & Ex & ->); [apply conn_x_of; by exists p'|].
  apply conn_x_of in Ex as [p Ep]. apply (Hf k p x Ep). destruct (calm_conn _ _ _ _ _ Hc Ep) as (q & y & Eq & Hs & _).
  assert (q = p') as -> by congruence. pose proof (ps_random _ _ Hs). lia.
Qed.

(** What a tick of the pinger does: every connection is updated, and the next
    one, if any, is pinged. *)
Definition pings (s s' : P2PTransportChannel) : Prop := exists s1 now now' o,
  updated (u32 (chan_clock (chan_ticks s))) s s1 /\ next_ping now s1 o /\
  (forall k, o <> Some k -> conn_x s' k = conn_x s1 k) /\
  (forall k, o = Some k -> exists x x', conn_x s1 k = Some x /\ conn_x s' k = Some x' /\
     last_ping_sent_ x' = now' /\ pings_since_last_response_ x' = pings_since_last_response_ x ++ [now'] /\ states x' = states x) /\
  ping_posts s' = ping_posts s ++ [if writable_ s' then WRITABLE_DELAY else UNWRITABLE_DELAY].

Lemma kept_pings s s' : kept s' = kept s -> ping_posts s' = ping_posts s.
Proof. by intros [=]. Qed.
Lemma calm_pings s s' : calm s s' -> ping_posts s' = ping_posts s.
Proof. by intros [E%kept_pings _]. Qed.
Lemma OnPing_wp s : chan_ok s -> ids_fresh s ->
  wp (OnPing chan_clock clock random_id) (fun _ s' => chan_ok s' /\ pings s s') s.
Proof.
  intros Hok Hid. pose proof (proj1 Hok) as Hi. unfold OnPing. apply pwp_bind, UpdateConnectionStates_wp; [done|].
  intros s1 U1. pose proof (proj1 U1) as C1. pose proof (calm_inv _ _ Hi C1) as Hi1. pose proof (calm_ok _ _ Hok C1) as Hok1.
  apply pwp_bind, FindNextPingableConnection_wp; [done|]. intros s2 o C2 X2 Hn. pose proof (calm_inv _ _ Hi1 C2) as Hi2.
  pose proof (calm_ok _ _ Hok1 C2) as Hok2.
  assert (U2 : updated (u32 (chan_clock (chan_ticks s))) s s2) by (split; [by eapply calm_trans|]; intros k; rewrite X2; apply U1).
  assert (P2 : ping_posts s2 = ping_posts s) by (by rewrite (calm_pings _ _ C2), (calm_pings _ _ C1)).
  apply pwp_bind. destruct o as [k|].
  - destruct (next_ping_live _ _ _ k Hi2 Hn eq_refl) as (p & x & E & Ex). apply pwp_bind, (wp_chan_Time _ _ _ Hi2).
    intros s3 C3 X3. pose proof (calm_inv _ _ Hi2 C3) as Hi3. pose proof (calm_ok _ _ Hok2 C3) as Hok3.
    assert (Ex3 : conn_x s3 k = Some x) by by rewrite X3. apply conn_of_x in Ex3 as [p3 E3].
    destruct (conn_inv _ _ _ _ Hi3 E3) as (Hp3 & Exp & _ & Hfit).
    assert (Hid3 : ids_fresh s3).
    { eapply (ids_fresh_calm s); [done|eapply calm_trans; [exact (proj1 U2)|exact C3]|done|]. intros j y'.
      rewrite X3, (proj2 U2 j). destruct (conn_x s j) as [y|]; [|done]. intros [= <-]. exists y. split; [done|apply update_requests]. }
    destruct k as [i c]. eapply (run_port_touch handle i c _ (fun _ y => exists t now' id frag, y = pinged now' t id frag x /\ now' = u32 (chan_clock (chan_ticks s2))));
      [done|exact Hi3|exact E3| |].
    { eapply pwp_mono; [apply Ping_touches; [done|exact Exp|apply Hfit|by apply (Hid3 (i, c) p3 x)]|].
      intros [] p' [t Ht]. eexists. split; [|exact Ht]. by repeat eexists. }
    intros [] y s4 (t & now' & id & frag & -> & _) C4 [Y4 O4]. pose proof (calm_ok _ _ Hok3 C4) as Hok4. apply pwp_modify.
    split; [by apply (same_ok s4)|]. exists s2. do 3 eexists. split; [exact U2|]. split; [exact Hn|]. split_and!.
    + intros j Hj. change (conn_x s4 j = conn_x s2 j). rewrite O4 by congruence. by rewrite X3.
    + intros j [= <-]. exists x. eexists. split; [done|]. split; [exact Y4|]. done.
    + cbn. rewrite (calm_pings _ _ C4), (calm_pings _ _ C3), P2. done.
  - apply pwp_ret, pwp_modify. split; [by apply (same_ok s2)|]. exists s2. eexists. exists 0, None. split; [exact U2|]. split; [exact Hn|].
    split_and!; [done|done|]. cbn. by rewrite P2.
Qed.
End Runs.
