(* ===== verification/ChannelProps.v ===== *)
(** * Properties of the transport channel

    The events of a channel as a transition system over the operations of its
    ports, the invariant of all reachable states, and what sorting and pinging
    promise. *)

From S2P Require Import Prelude TimeUtil ByteOrder ByteBuffer SocketAddress StdMap Stun StunFacts StunServer StunMessages StunRequest Effects Port PortRuns PortFacts PortProps PortSteps Channel ChannelRuns ChannelFacts.
From Stdlib Require Import SpecFloat Sorted.
#[local] Open Scope jingle_scope.
Import Port Channel.
#[local] Set Default Proof Using "Type".

(** ** The order of connections *)

Fixpoint lex (a b : list Z) : bool :=
  match a, b with
  | x :: a, y :: b => (x <? y) || ((x =? y) && lex a b)
  | _, _ => false
  end.
Lemma lex_irrefl a : lex a a = false.
Proof. induction a as [|x a IH]; cbn; [done|]. by rewrite Z.ltb_irrefl, Z.eqb_refl, IH. Qed.
Lemma lex_asym a b : lex a b = true -> lex b a = false.
Proof.
  revert b. induction a as [|x a IH]; intros [|y b]; cbn; try done. intros [Hl%Z.ltb_lt|[->%Z.eqb_eq Hl]%andb_true_iff]%orb_true_iff.
  - destruct (Z.ltb_spec y x); [lia|]. by destruct (Z.eqb_spec y x); [lia|].
  - by rewrite Z.ltb_irrefl, Z.eqb_refl, IH.
Qed.
(** Not being above is transitive, for lists of one length. *)
Lemma lex_le_trans a b c : length a = length b -> length b = length c ->
  lex b a = false -> lex c b = false -> lex c a = false.
Proof.
  revert b c. induction a as [|x a IH]; intros [|y b] [|z c]; cbn; try done. intros [= L1] [= L2].
  rewrite !orb_false_iff, !andb_false_iff, !Z.ltb_ge, !Z.eqb_neq. intros [H1 H2] [H3 H4]. split; [lia|].
  destruct (Z.eq_dec z x) as [->|]; [|by left]. assert (y = x) as -> by lia. right.
  destruct H2 as [|H2]; [lia|]. destruct H4 as [|H4]; [lia|]. by apply (IH b c).
Qed.
Lemma lex_app a b x y : length a = length b -> lex (a ++ x) (b ++ y) = lex a b || (negb (lex b a) && lex x y).
Proof.
  revert b. induction a as [|u a IH]; intros [|w b]; cbn; try done. intros [= L]. rewrite IH by done.
  destruct (Z.ltb_spec u w), (Z.eqb_spec u w), (Z.ltb_spec w u), (Z.eqb_spec w u); cbn; try lia; try done.
Qed.
Lemma lex_opp a b : lex (map Z.opp a) (map Z.opp b) = lex b a.
Proof.
  revert b. induction a as [|x a IH]; intros [|y b]; cbn; try done. rewrite IH.
  destruct (Z.ltb_spec (- x) (- y)), (Z.ltb_spec y x), (Z.eqb_spec (- x) (- y)), (Z.eqb_spec y x); cbn; try lia; done.
Qed.

(** A float that is a number, as three integers in lexicographic order. *)
Definition is_number (f : spec_float) : Prop := f <> S754_nan.
Definition float_key (f : spec_float) : list Z :=
  match f with
  | S754_infinity s => [if s then -2 else 2; 0; 0]
  | S754_finite true m e => [-1; - e; Z.neg m]
  | S754_finite false m e => [1; e; Z.pos m]
  | _ => [0; 0; 0]
  end.
Lemma float_key_length f : length (float_key f) = 3%nat.
Proof. by destruct f as [|?| |[|]]. Qed.
Lemma SFltb_key f g : is_number f -> is_number g -> SFltb f g = lex (float_key f) (float_key g).
Proof.
  unfold is_number. intros Hf Hg. destruct f as [sf|sf| |sf mf ef], g as [sg|sg| |sg mg eg]; try done; try (by destruct sf; try destruct sg).
  unfold SFltb, SFcompare. change (Pos.compare_cont Eq mf mg) with (mf ?= mg)%positive.
  destruct sf, sg; cbn -[Z.ltb Z.eqb]; try done.
  - destruct (Z.compare_spec ef eg) as [->| |].
    + rewrite Z.ltb_irrefl, Z.eqb_refl. cbn. destruct (Pos.compare_spec mf mg); cbn -[Z.ltb];
        destruct (Z.ltb_spec (Z.neg mf) (Z.neg mg)); cbn; try lia; by rewrite andb_false_r.
    + destruct (Z.ltb_spec (- ef) (- eg)); [lia|]. destruct (Z.eqb_spec (- ef) (- eg)); [lia|]. done.
    + destruct (Z.ltb_spec (- ef) (- eg)); [done|lia].
  - destruct (Z.compare_spec ef eg) as [->| |].
    + rewrite Z.ltb_irrefl, Z.eqb_refl. cbn. destruct (Pos.compare_spec mf mg); cbn -[Z.ltb];
        destruct (Z.ltb_spec (Z.pos mf) (Z.pos mg)); cbn; try lia; by rewrite andb_false_r.
    + destruct (Z.ltb_spec ef eg); [done|lia].
    + destruct (Z.ltb_spec ef eg); [lia|]. destruct (Z.eqb_spec ef eg); [lia|]. done.
Qed.

(** Write state, preferences (higher first), generation (younger first). *)
Definition conn_key (v : Port * Connection) : list Z :=
  [write_of v] ++ map Z.opp (float_key (pair_pref v)) ++ [- pair_generation (fst v) (snd v)].
Definition comparable_pair (v : Port * Connection) : Prop :=
  is_number (pair_pref v) /\ 0 <= pair_generation (fst v) (snd v) < 2147483648.
Lemma conn_key_length v : length (conn_key v) = 5%nat.
Proof. unfold conn_key. by rewrite !length_app, length_map, float_key_length. Qed.

Lemma generation_diff a b : 0 <= a < 2147483648 -> 0 <= b < 2147483648 -> s32 (a -u b) = a - b.
Proof. intros Ha Hb. unfold s32, u32. rewrite Zplus_mod_idemp_l, Z.mod_small; lia. Qed.
Lemma lex_one x y : lex [x] [y] = (x <? y).
Proof. cbn. by rewrite andb_false_r, orb_false_r. Qed.

Lemma cmp_candidates_key v w : comparable_pair v -> comparable_pair w ->
  let k u := map Z.opp (float_key (pair_pref u)) ++ [- pair_generation (fst u) (snd u)] in
  lex (k v) (k w) = (0 <? cmp_candidates v w) /\ lex (k w) (k v) = (cmp_candidates v w <? 0).
Proof.
  intros [Fv Gv] [Fw Gw] k. unfold k, cmp_candidates, compare_candidates.
  rewrite !lex_app, !lex_opp, !lex_one, !SFltb_key by (done || by rewrite !length_map, !float_key_length).
  destruct (lex (float_key (pair_pref w)) (float_key (pair_pref v))) eqn:E1.
  - by rewrite (lex_asym _ _ E1).
  - destruct (lex (float_key (pair_pref v)) (float_key (pair_pref w))) eqn:E2; [done|]. cbn [negb andb orb].
    rewrite generation_diff by done. set (a := pair_generation _ _). set (b := pair_generation _ _). clearbody a b.
    destruct (Z.ltb_spec (- a) (- b)), (Z.ltb_spec 0 (a - b)), (Z.ltb_spec (- b) (- a)), (Z.ltb_spec (a - b) 0); lia || done.
Qed.
Lemma cmp_conns_key v w : comparable_pair v -> comparable_pair w ->
  lex (conn_key v) (conn_key w) = (0 <? cmp_conns v w) /\ lex (conn_key w) (conn_key v) = (cmp_conns v w <? 0).
Proof.
  intros Hv Hw. destruct (cmp_candidates_key v w Hv Hw) as [E1 E2]. unfold conn_key, cmp_conns.
  rewrite (lex_app [write_of v] [write_of w]), (lex_app [write_of w] [write_of v]), !lex_one, E1, E2 by done.
  destruct (Z.ltb_spec (write_of v) (write_of w)), (Z.ltb_spec (write_of w) (write_of v)); lia || done.
Qed.
(** The whole key, with the latency last. *)
Definition rtt_key (v : Port * Connection) : list Z := conn_key v ++ [rtt_ (snd v)].
Lemma lt_conns_key v w : comparable_pair v -> comparable_pair w -> lt_conns v w = lex (rtt_key v) (rtt_key w).
Proof.
  intros Hv Hw. destruct (cmp_conns_key v w Hv Hw) as [E1 E2]. unfold rtt_key, lt_conns.
  rewrite lex_app, lex_one, E1, E2 by (by rewrite !conn_key_length). by destruct (0 <? _), (_ <? 0).
Qed.

Section Order.
Variable s : P2PTransportChannel.
Hypothesis Hcmp : forall k v, conn_of s k = Some v -> comparable_pair v.

(** [a] is not below [b]. *)
Definition at_least (a b : cptr) : Prop := forall v w, conn_of s a = Some v -> conn_of s b = Some w ->
  lex (rtt_key w) (rtt_key v) = false.
Lemma at_least_spec a b v w : at_least a b -> conn_of s a = Some v -> conn_of s b = Some w ->
  0 <= cmp_conns v w /\ (cmp_conns v w = 0 -> rtt_ (snd v) <= rtt_ (snd w)).
Proof using Hcmp.
  intros Hab Ea Eb. destruct (cmp_conns_key v w (Hcmp _ _ Ea) (Hcmp _ _ Eb)) as [E1 E2]. specialize (Hab v w Ea Eb).
  unfold rtt_key in Hab. rewrite lex_app, lex_one, E1, E2 in Hab by (by rewrite !conn_key_length).
  destruct (Z.ltb_spec (cmp_conns v w) 0); [done|]. destruct (Z.ltb_spec 0 (cmp_conns v w)); split; try lia.
Qed.
Lemma sorted_order l : (forall k, k ∈ l -> is_Some (conn_of s k)) -> StronglySorted at_least (sort_by (lt_in s) l).
Proof using Hcmp.
  intros Hl. apply sort_sorted.
  - intros a b c _ Hb _ Hab Hbc v w Ea Ec. destruct (Hl b Hb) as [u Eb].
    apply (lex_le_trans (rtt_key v) (rtt_key u) (rtt_key w));
      [unfold rtt_key; by rewrite !length_app, !conn_key_length..|by apply Hab|by apply Hbc].
  - intros a b Ha Hb. destruct (Hl a Ha) as [v Ea], (Hl b Hb) as [w Eb]. unfold lt_in. rewrite Ea, Eb.
    rewrite lt_conns_key by eauto. destruct (lex (rtt_key v) (rtt_key w)) eqn:El; intros v' w' E1 E2; simplify_eq; [by apply lex_asym|done].
Qed.
(** A sort makes the first connection the best one. *)
Lemma pick_top l h t old : (forall k, k ∈ l -> is_Some (conn_of s k)) -> (forall k, old = Some k -> k ∈ l) ->
  sort_by (lt_in s) l = h :: t -> pick s old (Some h) = Some h /\ forall k, k ∈ l -> at_least h k.
Proof using Hcmp.
  intros Hl Ho E. assert (Hh : forall k, k ∈ l -> at_least h k).
  { apply (sort_head (lt_in s) at_least l h t); [|by apply sorted_order|done]. intros a v w E1 E2. simplify_eq. apply lex_irrefl. }
  split; [|done]. assert (Hin : h ∈ l) by (rewrite <- (sort_perm (lt_in s) l), E; by left). destruct (Hl h Hin) as [w Ew].
  unfold pick. destruct old as [a|]; [|done]. destruct (Hl a (Ho a eq_refl)) as [v Ev]. rewrite Ev, Ew.
  case_bool_decide as Hah; [by rewrite Hah|]. destruct (at_least_spec h a w v (Hh a (Ho a eq_refl)) Ew Ev) as [Hc Hr].
  destruct (cmp_conns_key v w (Hcmp _ _ Ev) (Hcmp _ _ Ew)) as [E1 E2]. destruct (cmp_conns_key w v (Hcmp _ _ Ew) (Hcmp _ _ Ev)) as [E3 E4].
  rewrite E1 in E4. rewrite E2 in E3. unfold switches.
  destruct (Z.ltb_spec (cmp_conns v w) 0); [done|]. destruct (Z.ltb_spec 0 (cmp_conns v w)), (Z.ltb_spec (cmp_conns w v) 0); try done; [lia|].
  destruct (Z.ltb_spec 0 (cmp_conns w v)); [done|]. assert (rtt_ (snd w) <= rtt_ (snd v)) by (apply Hr; lia).
  destruct (Z.leb_spec (rtt_ (snd w)) (rtt_ (snd v) + kMinImprovement)); [done|]. unfold kMinImprovement in *. lia.
Qed.
End Order.

(** ** Events *)

(** Packets, timers and the start of the ports; what the allocation sessions
    and the peer hand over; the messages of the channel; and the calls of its
    owner.  A message is named by its place in the queue. *)
Inductive chan_event :=
  | PortPacket (i : nat) (data : bytes) (addr : SocketAddress)
  | PortPing (i : nat) (c : ptr) (n : nat)
  | PortCheck (i : nat)
  | PortDeletion (i : nat) (c : ptr)
  | PortStart (i : nat)
  | NewPort (p : Port)
  | NewCandidate (candidate : Candidate)
  | NewCandidates (candidates : list Candidate)
  | MessageSort
  | MessagePing (n : nat)
  | MessageAllocate (n : nat)
  | SignalingReady
  | CallConnect
  | CallReset (connect_requested : bool)
  | CallSendPacket (data : bytes)
  | CallSetOption (opt value : Z)
  | CallIncomingOnly (value : bool).

Section Events.
Context {B : Type} `{ByteQueue B}.
Variable chan_clock : nat -> Z.
Variable clock : nat -> nat -> Z.
Variable random_id : nat -> nat -> bytes.
Variable socket_SendTo : nat -> nat -> Z.
Variable socket_GetError : nat -> nat -> Z.

(** The event [e] of port [i]. *)
Definition port_event (i : nat) (e : event) : P unit :=
  on_port i (run_event (B := B) (clock i) (random_id i) (socket_SendTo i) (socket_GetError i) e).

Definition run_chan (e : chan_event) : P unit :=
  match e with
  | PortPacket i data addr => deliver (B := B) chan_clock clock socket_SendTo socket_GetError i data addr
  | PortPing i c n => port_event i (PingTimer c n)
  | PortCheck i => port_event i CheckTimer
  | PortDeletion i c => port_event i (Deletion c)
  | PortStart i => port_event i CallStart
  | NewPort p => s ← get; modify (add_port p);; OnPortReady chan_clock clock (next_port s)
  | NewCandidate candidate => OnCandidate chan_clock clock candidate
  | NewCandidates candidates => OnCandidatesReady candidates
  | MessageSort =>
      modify (fun s => s <| sort_posts := pred (sort_posts s) |>);; OnMessage chan_clock clock random_id MSG_SORT
  | MessagePing n =>
      modify (fun s => s <| ping_posts := base.delete n (ping_posts s) |>);; OnMessage chan_clock clock random_id MSG_PING
  | MessageAllocate n =>
      modify (fun s => s <| allocate_posts := base.delete n (allocate_posts s) |>);; OnMessage chan_clock clock random_id MSG_ALLOCATE
  | SignalingReady => OnSignalingReady
  | CallConnect => Connect
  | CallReset connect_requested => Reset connect_requested
  | CallSendPacket data => SendPacket socket_SendTo socket_GetError data;; mret tt
  | CallSetOption opt value => SetOption opt value;; mret tt
  | CallIncomingOnly value => set_incoming_only value
  end.

(** What the channel relies on: packets and timers are those of its ports; an
    allocation session hands over a port that has its address and no
    connection; remote candidates are of UDP; messages are posted; the sockets
    do not accept zero bytes of a datagram; and no outstanding transaction id
    is drawn again. *)
Definition chan_event_ok (e : chan_event) (s : P2PTransportChannel) : Prop :=
  match e with
  | PortPacket i _ _ | PortStart i => is_Some (port_heap s !! i)
  | PortPing i c n => exists p x, conn_of s (i, c) = Some (p, x) /\ is_Some (StunReq.posts (requests_ x) !! n)
  | PortCheck i => exists p, port_heap s !! i = Some p /\ check_posted p = true
  | PortDeletion i c => exists p, port_heap s !! i = Some p /\ c ∈ deletes p
  | NewPort p => let i := next_port s in
      reach (B := B) (clock i) (random_id i) (socket_SendTo i) (socket_GetError i) p /\ destroyed p = false /\ port_fit p /\ conn_heap p = ∅
  | NewCandidate candidate => c_protocol candidate = str "udp"
  | MessageSort => (0 < sort_posts s)%nat
  | MessagePing n => is_Some (ping_posts s !! n) /\ ids_fresh random_id s
  | MessageAllocate n => is_Some (allocate_posts s !! n)
  | CallSendPacket _ => forall k p x, best_connection_ s = Some k -> conn_of s k = Some (p, x) ->
      socket_SendTo (fst k) (length (sent p)) <> 0
  | _ => True
  end.

Inductive chan_reach : P2PTransportChannel -> Prop :=
  | chan_reach_make : chan_reach make
  | chan_reach_step s e s' : chan_reach s -> chan_event_ok e s -> run_chan e s = Done tt s' -> chan_reach s'.

Lemma make_reset : reset make.
Proof. done. Qed.

Lemma chan_event_wp e s : chan_ok s -> chan_event_ok e s -> wp (run_chan e) (fun _ s' => chan_ok s') s.
Proof.
  intros Hok He. pose proof (proj1 Hok) as Hi.
  destruct e as [i data addr|i c n|i|i c|i|p|candidate|candidates| |n|n| | |b|data|opt v|v]; cbn [run_chan chan_event_ok] in *.
  - destruct He as [p E]. eapply pwp_mono; [by apply (deliver_wp _ _ _ _ _ _ _ _ p)|]. by intros [] s' [? _].
  - destruct He as (p & x & E & Hn). by eapply ping_timer_wp.
  - destruct He as (p & E & Hc). by eapply check_timer_wp.
  - destruct He as (p & E & Hc). eapply pwp_mono; [by eapply deletion_wp|]. by intros [] s' [? _].
  - destruct He as [p E]. by eapply port_start_wp.
  - destruct He as (Hr & Hd & Hf & Hh). apply pwp_bind, pwp_get, pwp_bind, pwp_modify.
    eapply pwp_mono; [apply OnPortReady_wp|by intros [] s' [? _]].
    + apply add_port_inv; try done. by eapply port_reach_inv.
    + cbn. rewrite lookup_insert_eq. by eexists.
    + cbn. intros Hin. destruct (proj2 (ci_ports _ Hi) _ Hin) as [q Eq]. destruct (ci_port _ Hi _ _ Eq) as (_ & _ & _ & ? & _). lia.
  - by apply OnCandidate_wp.
  - eapply pwp_mono; [apply emit_all|]. intros [] s' [E1 E2]. apply (same_ok s); [done|done| |]; by injection E2.
  - apply pwp_bind, pwp_modify. change (wp (SortConnections chan_clock) (fun _ s' => chan_ok s') (s <| sort_posts := pred (sort_posts s) |>)).
    apply SortConnections_wp; [apply (heap_inv s); try done; intros k; apply Hi|]. intros s'. apply sorts_ok.
  - apply pwp_bind, pwp_modify. set (t := s <| ping_posts := _ |>). change (wp (OnPing chan_clock clock random_id) (fun _ s' => chan_ok s') t).
    eapply pwp_mono; [apply OnPing_wp; [by apply (same_ok s)|apply He]|by intros [] s' [? _]].
  - apply pwp_bind, pwp_modify. by apply (same_ok s).
  - by apply OnSignalingReady_ok.
  - by apply (same_ok s).
  - eapply pwp_mono; [by apply Reset_wp|]. intros [] s' [? _]. by apply reset_ok.
  - apply pwp_bind. eapply pwp_mono; [by apply SendPacket_wp|]. by intros v s' [? _].
  - unfold SetOption. apply pwp_bind, pwp_bind, pwp_get. case_bool_decide; [by apply pwp_ret|].
    apply pwp_bind, pwp_modify, pwp_bind. eapply pwp_mono; [apply emit_all|]. intros [] s' [E1 E2]. apply pwp_ret, pwp_ret.
    apply (same_ok s); [done|done|by injection E2|by injection E2].
  - by apply (same_ok s).
Qed.
Lemma chan_reach_ok s : chan_reach s -> chan_ok s.
Proof.
  induction 1 as [|s e s' _ IH He Hr]; [apply reset_ok, make_reset|].
  pose proof (chan_event_wp e s IH He) as Hw. unfold wp in Hw. by rewrite Hr in Hw.
Qed.

(** ** Properties *)

(** Pruning others leaves the best write state with the best connection. *)
Lemma prunes_min s s' b v : chan_inv s -> prunes s s' -> best_connection_ s = Some b -> conn_of s b = Some v ->
  (forall k w, k ∈ chan_connections_ s -> conn_of s k = Some w -> write_of v <= write_of w) ->
  forall x k y, conn_x s' b = Some x -> conn_x s' k = Some y -> write_index (write_state_ x) <= write_index (write_state_ y).
Proof.
  intros Hi P Eb Ev Hmin x k y Ex Ey. pose proof (proj1 P) as Hc.
  assert (Hl : is_Some (conn_of s k)) by (apply (calm_live _ _ _ Hc); apply conn_of_x in Ey as [p E]; by exists (p, y)).
  destruct Hl as [w Ew]. specialize (Hmin k w ltac:(apply Hi; by exists w) Ew).
  assert (Exb : conn_x s b = Some (snd v)) by (unfold conn_x; by rewrite Ev).
  assert (Exk : conn_x s k = Some (snd w)) by (unfold conn_x; by rewrite Ew).
  destruct (proj2 P b _ Exb) as (x1 & Ex1 & [->|(_ & Hn & _)]); [|done]. assert (x = snd v) as -> by congruence.
  destruct (proj2 P k _ Exk) as (y1 & Ey1 & Hy). assert (y1 = y) as -> by congruence.
  destruct Hy as [->|(-> & _)]; [done|]. unfold write_of in Hmin. unfold pruned. destruct (pruned_ (snd w)); [done|].
  by destruct (write_state_ (snd v)).
Qed.

(** C12. Within what the channel relies on ([chan_event_ok]), whatever packets
    arrive at its ports and whatever their timers, the messages of the channel,
    its owner, its allocation sessions and the peer do, in whatever order, no
    handler uses a deleted port or connection and no ASSERT fails.  What it
    relies on: remote candidates are of UDP (others fail an ASSERT), no socket
    accepts zero bytes of a datagram that is sent, a session hands over new
    ports without connections, only messages and timers that are posted fire,
    and no outstanding transaction id is drawn again. *)
Theorem channel_never_faults s e : chan_reach s -> chan_event_ok e s -> exists s', run_chan e s = Done tt s'.
Proof.
  intros Hr%chan_reach_ok He. destruct (wp_total _ _ _ (chan_event_wp e s Hr He)) as ([] & s' & E & _). by exists s'.
Qed.

(** C13. In every reachable state the channel's list names every connection of
    every port, once; the best connection is one of them; its ports are alive
    and well formed; and either a sort is posted, or the channel is writable
    exactly when its best connection is, exactly when any connection is, and
    readable when one is. *)
Theorem channel_invariant s : chan_reach s -> chan_inv s /\
  (if sort_dirty_ s then (0 < sort_posts s)%nat else flags_right s).
Proof. intros [Hi [Hs Hf]]%chan_reach_ok. split; [done|]. unfold sort_ok in Hs. destruct (sort_dirty_ s); auto. Qed.

(** C11. Sorting loses no connection and always chooses one; the one it chooses
    has the best write state there is; every other one is updated by the clock,
    and pruned only when another connection on the same network was writable
    with preferences as good; the best is never pruned; and the channel is then
    writable exactly when the best connection is, and readable exactly when one
    is. *)
Theorem channel_sort s : chan_reach s -> exists s', SortConnections chan_clock s = Done tt s' /\
  (forall k, k ∈ chan_connections_ s' <-> k ∈ chan_connections_ s) /\
  (chan_connections_ s <> [] -> is_Some (best_connection_ s')) /\
  (forall b k x y, best_connection_ s' = Some b -> conn_x s' b = Some x -> conn_x s' k = Some y ->
     write_index (write_state_ x) <= write_index (write_state_ y)) /\
  (exists now s1, updated now s s1 /\ forall k x, conn_x s k = Some x -> exists x', conn_x s' k = Some x' /\
     (x' = update_state now x \/
      x' = pruned (update_state now x) /\ best_connection_ s' <> Some k /\ dominated s1 k)) /\
  (writable_ s' = true <-> best_writable s') /\ (readable_ s' = true <-> some_readable s').
Proof.
  intros [Hi _]%chan_reach_ok.
  destruct (wp_total _ _ _ (SortConnections_wp chan_clock s (fun _ s' => sorts (u32 (chan_clock (chan_ticks s))) s s') Hi ltac:(by intros s')))
    as ([] & s' & E & S). exists s'. split; [done|]. destruct (so_steps _ _ _ S) as (s1 & s2 & s3 & U & Eh2 & Ec2 & Eb2 & Hi2 & P & Ec).
  destruct (chan_core_fields _ _ Ec) as (_ & Ec' & Eb' & _). destruct (kept_fields _ _ (proj1 (proj1 P))) as (_ & K2 & K3 & _).
  pose proof (calm_inv _ _ Hi (proj1 U)) as Hi1. destruct (kept_fields _ _ (proj1 (proj1 U))) as (_ & L2 & _).
  pose proof (fun k => core_conn_x _ _ Ec k) as X. rewrite K2 in Ec'. rewrite K3 in Eb'. rewrite Ec2 in Eb2.
  assert (Hch : forall h t, sort_by (lt_in s1) (chan_connections_ s) = h :: t -> exists b v, best_connection_ s2 = Some b /\
    conn_of s2 b = Some v /\ forall k w, k ∈ chan_connections_ s2 -> conn_of s2 k = Some w -> write_of v <= write_of w).
  { intros h t Es. rewrite Es in Eb2.
    destruct (pick_best s1 (chan_connections_ s) h t (best_connection_ s)) as (b & v & Ep & _ & Ev & Hm); [|done|apply Hi|].
    - intros k. rewrite <- L2. apply Hi1.
    - exists b, v. cbn [head] in Eb2. split; [congruence|]. split; [by rewrite (heap_conn_of s1)|].
      intros k w. rewrite (heap_conn_of s1), Ec2, sort_perm by done. apply Hm. }
  assert (Hin : forall k, k ∈ chan_connections_ s' <-> k ∈ chan_connections_ s) by (intros k; by rewrite Ec', Ec2, sort_perm).
  destruct (sort_by (lt_in s1) (chan_connections_ s)) as [|h t] eqn:Es.
  { assert (En : chan_connections_ s = []) by (apply Permutation_nil; rewrite <- Es; apply sort_perm).
    assert (Hnone : forall t k x, chan_inv t -> chan_connections_ t = [] -> conn_x t k <> Some x).
    { intros t k x Ht Et E'. destruct (conn_of_x _ _ _ E') as [p Ep]. assert (Hk : k ∈ chan_connections_ t) by (apply Ht; by exists (p, x)).
      rewrite Et in Hk. by apply not_elem_of_nil in Hk. }
    split; [done|]. split; [done|]. split; [|split; [|split; [apply (so_writable _ _ _ S)|apply (so_readable _ _ _ S)]]].
    - intros b k x y _ Ex _. destruct (Hnone s' b x); [apply S|by rewrite Ec', Ec2|done].
    - do 2 eexists. split; [exact U|]. intros k x Ex. by destruct (Hnone s k x). }
  destruct (Hch h t eq_refl) as (b & v & Eb & Ev & Hmin).
  split; [done|]. split; [intros _; rewrite Eb', Eb; by eexists|].
  split; [|split; [|split; [apply (so_writable _ _ _ S)|apply (so_readable _ _ _ S)]]].
  - intros b' k x y Eb1 Ex Ey. rewrite X in Ex, Ey. assert (b' = b) as -> by congruence. by eapply (prunes_min s2 s3 b v).
  - do 2 eexists. split; [exact U|]. intros k x Ex. assert (E1 : conn_x s2 k = Some (update_state (u32 (chan_clock (chan_ticks s))) x)).
    { rewrite (heap_conn_x s1) by done. by rewrite (proj2 U k), Ex. }
    destruct (proj2 P k _ E1) as (x' & Ex' & Hx'). exists x'. rewrite X. split; [done|].
    destruct Hx' as [->|(-> & Hb & Hd)]; [by left|]. right. split; [done|]. split; [by rewrite Eb'|].
    destruct Hd as (j & w & w' & Hd). exists j, w, w'. unfold network_id_of in *. by rewrite !(heap_conn_of s1 s2) in Hd by done.
Qed.

(** C14. When the preferences are numbers and the generations do not wrap,
    sorting makes the first connection of the list the best one: no other
    connection is in a better write state, or in the same one with higher
    preferences, or with the same ones and younger candidates, and none that
    ties in all of these has a lower latency.  The latency of the former best
    connection does not matter, however small the improvement. *)
Theorem channel_best_optimal s : chan_reach s -> (forall k v, conn_of s k = Some v -> comparable_pair v) ->
  exists s' s1, SortConnections chan_clock s = Done tt s' /\ updated (u32 (chan_clock (chan_ticks s))) s s1 /\
    best_connection_ s' = head (chan_connections_ s') /\
    forall b k v w, best_connection_ s' = Some b -> conn_of s1 b = Some v -> conn_of s1 k = Some w ->
      0 <= cmp_conns v w /\ (cmp_conns v w = 0 -> rtt_ (snd v) <= rtt_ (snd w)).
Proof.
  intros [Hi _]%chan_reach_ok Hcmp.
  destruct (wp_total _ _ _ (SortConnections_wp chan_clock s (fun _ s' => sorts (u32 (chan_clock (chan_ticks s))) s s') Hi ltac:(by intros s')))
    as ([] & s' & E & S). destruct (so_steps _ _ _ S) as (s1 & s2 & s3 & U & Eh2 & Ec2 & Eb2 & Hi2 & P & Ec).
  exists s', s1. split; [done|]. split; [done|]. pose proof (calm_inv _ _ Hi (proj1 U)) as Hi1.
  destruct (chan_core_fields _ _ Ec) as (_ & Ec' & Eb' & _). destruct (kept_fields _ _ (proj1 (proj1 P))) as (_ & K2 & K3 & _).
  destruct (kept_fields _ _ (proj1 (proj1 U))) as (_ & L2 & _).
  assert (Hl : forall k, k ∈ chan_connections_ s -> is_Some (conn_of s1 k)) by (intros k; rewrite <- L2; apply Hi1).
  assert (Hcmp1 : forall k v, conn_of s1 k = Some v -> comparable_pair v).
  { intros k v Ev. assert (Hlv : is_Some (conn_of s k)) by (apply (calm_live _ _ _ (proj1 U)); by exists v).
    destruct Hlv as [u Eu]. destruct (calm_pair _ _ _ _ _ (proj1 U) Eu Ev) as [E1 E2]. unfold comparable_pair. rewrite E1, E2. by apply (Hcmp k). }
  rewrite Eb', K3, Eb2, Ec', K2, Ec2. destruct (sort_by (lt_in s1) (chan_connections_ s)) as [|h t] eqn:Es; cbn [head].
  - assert (En : chan_connections_ s = []) by (apply Permutation_nil; rewrite <- Es; apply sort_perm).
    destruct (best_connection_ s) as [a|] eqn:Ea; [|done]. pose proof (ci_best _ Hi _ Ea) as Ha. rewrite En in Ha. by apply not_elem_of_nil in Ha.
  - destruct (pick_top s1 Hcmp1 (chan_connections_ s) h t (best_connection_ s) Hl (ci_best _ Hi) Es) as [-> Hh]. split; [done|].
    intros b k v w [= <-] Ev Ew. apply (at_least_spec s1 Hcmp1 h k); [|done|done]. apply Hh. rewrite <- L2. apply Hi1. by exists w.
Qed.

(** A tick of the pinger updates every connection and pings at most one:
    the best connection when it is writable and was not pinged for 900 ms, else
    the one, of those that can be pinged, whose last ping is oldest; and the
    next tick is posted, sooner while the channel is not writable. *)
Theorem channel_pings s : chan_reach s -> ids_fresh random_id s ->
  exists s', OnPing chan_clock clock random_id s = Done tt s' /\ pings chan_clock s s'.
Proof.
  intros Hok%chan_reach_ok Hid. destruct (wp_total _ _ _ (OnPing_wp chan_clock clock random_id s Hok Hid)) as ([] & s' & E & _ & P).
  by exists s'.
Qed.

(** A ping that arrives at a port from an address it has no connection to,
    with the username of a remembered remote candidate, makes the channel learn
    the address: the port has a connection to it afterwards, in a state of the
    channel that again satisfies the invariant. *)
Theorem channel_learns_address s i p addr data msg user : chan_reach s -> port_heap s !! i = Some p ->
  enable_port_packets_ p = false -> map_find addr (connections_ p) = None ->
  read_stun (B := B) (username_frag_ p) data = FromPeer msg user -> m_type msg = STUN_BINDING_REQUEST ->
  known_user s user ->
  exists s', run_chan (PortPacket i data addr) s = Done tt s' /\ found s' i addr /\ chan_inv s'.
Proof.
  intros Hok%chan_reach_ok Ep Een Hm Ers Ht Hk.
  destruct (wp_total _ _ _ (deliver_wp chan_clock clock socket_SendTo socket_GetError i data addr s p Hok Ep)) as ([] & s' & E & [Hi' _] & Hf).
  exists s'. split; [done|]. split; [|done]. eapply Hf; [by exists p|done|exact Ers|done|done].
Qed.

End Events.

(** ** Runs of concrete events *)

Section Exec.
Context {B : Type} `{ByteQueue B}.
Variable chan_clock : nat -> Z.
Variable clock : nat -> nat -> Z.
Variable random_id : nat -> nat -> bytes.
Variable socket_SendTo : nat -> nat -> Z.
Variable socket_GetError : nat -> nat -> Z.

(** No request is outstanding, a simple reason for fresh ids. *)
Definition quiet_ports (s : P2PTransportChannel) : bool :=
  forallb (fun ip => forallb (fun cx => bool_decide (StunReq.requests_ (requests_ (snd cx)) = ∅)) (map_to_list (conn_heap (snd ip))))
    (map_to_list (port_heap s)).
Lemma quiet_ports_fresh s : quiet_ports s = true -> ids_fresh random_id s.
Proof.
  unfold quiet_ports. rewrite forallb_forall. intros Hq [i c] p x [Ep Ex]%conn_of_spec n _. cbn in *.
  specialize (Hq (i, p) ltac:(by apply list_elem_of_In, elem_of_map_to_list)). rewrite forallb_forall in Hq.
  specialize (Hq (c, x) ltac:(by apply list_elem_of_In, elem_of_map_to_list)). apply bool_decide_eq_true in Hq. cbn in Hq.
  by rewrite Hq, lookup_empty.
Qed.
(** A sound test of [chan_event_ok]; the port of a session is not tested. *)
Definition chan_event_okb (e : chan_event) (s : P2PTransportChannel) : bool :=
  match e with
  | PortPacket i _ _ | PortStart i => negb (none_b (port_heap s !! i))
  | PortPing i c n => match conn_of s (i, c) with Some (_, x) => negb (none_b (StunReq.posts (requests_ x) !! n)) | None => false end
  | PortCheck i => match port_heap s !! i with Some p => check_posted p | None => false end
  | PortDeletion i c => match port_heap s !! i with Some p => bool_decide (c ∈ deletes p) | None => false end
  | NewPort _ | CallSendPacket _ => false
  | NewCandidate candidate => bool_decide (c_protocol candidate = str "udp")
  | MessageSort => (0 <? sort_posts s)%nat
  | MessagePing n => negb (none_b (ping_posts s !! n)) && quiet_ports s
  | MessageAllocate n => negb (none_b (allocate_posts s !! n))
  | _ => true
  end.
Lemma some_b {A} (o : option A) : negb (none_b o) = true -> is_Some o.
Proof. destruct o; [by eexists|done]. Qed.
Lemma chan_event_okb_ok e s : chan_event_okb e s = true ->
  chan_event_ok (B := B) clock random_id socket_SendTo socket_GetError e s.
Proof.
  destruct e as [i data addr|i c n|i|i c|i|p|candidate|candidates| |n|n| | |b|data|opt v|v]; cbn [chan_event_okb chan_event_ok]; try done.
  - apply some_b.
  - destruct (conn_of s (i, c)) as [[p x]|]; [|done]. intros Hn%some_b. by exists p, x.
  - destruct (port_heap s !! i) as [p|]; [|done]. by exists p.
  - destruct (port_heap s !! i) as [p|]; [|done]. intros Hc%bool_decide_eq_true. by exists p.
  - apply some_b.
  - apply bool_decide_eq_true.
  - apply Nat.ltb_lt.
  - intros [Hn%some_b Hq]%andb_true_iff. split; [done|]. by apply quiet_ports_fresh.
  - apply some_b.
Qed.
Fixpoint exec_chan (es : list chan_event) (s : P2PTransportChannel) : option P2PTransportChannel :=
  match es with
  | [] => Some s
  | e :: es =>
      if chan_event_okb e s then
        match run_chan (B := B) chan_clock clock random_id socket_SendTo socket_GetError e s with
        | Done _ s' => exec_chan es s' | Failed _ => None
        end
      else None
  end.
#[local] Abbreviation reached := (chan_reach (B := B) chan_clock clock random_id socket_SendTo socket_GetError).
Lemma exec_chan_reach es s s' : reached s -> exec_chan es s = Some s' -> reached s'.
Proof.
  revert s. induction es as [|e es IH]; intros s Hr; cbn [exec_chan]; [by intros [= <-]|].
  destruct (chan_event_okb e s) eqn:Ho; [|done]. destruct (run_chan _ _ _ _ _ _) as [[] s1|] eqn:Er; [|done].
  apply IH. eapply chan_reach_step; [exact Hr|by apply chan_event_okb_ok|exact Er].
Qed.
End Exec.

Section ChannelWitnesses.
#[local] Existing Instance little_host.
Definition ex_local : Port := ex_port (str "alice_01") [CallAddAddress ex_alice (str "udp") true].
#[local] Abbreviation exchan e := (run_chan (B := Buf.ByteBuffer) ex_clock (fun _ => ex_clock) (fun _ => ex_id) (fun _ => ex_sent) (fun _ => ex_error) e).
#[local] Abbreviation exchan_reach := (chan_reach (B := Buf.ByteBuffer) ex_clock (fun _ => ex_clock) (fun _ => ex_id) (fun _ => ex_sent) (fun _ => ex_error)).
#[local] Abbreviation exchan_ok := (chan_event_ok (B := Buf.ByteBuffer) (fun _ => ex_clock) (fun _ => ex_id) (fun _ => ex_sent) (fun _ => ex_error)).
#[local] Abbreviation exrun_chan es s := (exec_chan (B := Buf.ByteBuffer) ex_clock (fun _ => ex_clock) (fun _ => ex_id) (fun _ => ex_sent) (fun _ => ex_error) es s).
(** A channel that connects and is given the port of Alice. *)
Definition ex_connecting : P2PTransportChannel := default Channel.make (exrun_chan [CallConnect; SignalingReady] Channel.make).
Definition ex_channel (es : list chan_event) : P2PTransportChannel :=
  match exchan (NewPort ex_local) ex_connecting with
  | Done _ s => default s (exrun_chan es s)
  | Failed _ => Channel.make
  end.
Lemma ex_local_reach : PortFacts.reach (B := Buf.ByteBuffer) ex_clock ex_id ex_sent ex_error ex_local.
Proof. apply ex_port_reach; [done|by vm_compute]. Qed.
Lemma ex_local_fit : destroyed ex_local = false /\ port_fit ex_local /\ conn_heap ex_local = ∅.
Proof.
  split; [by vm_compute|]. split; [|by vm_compute].
  exists (mkCandidate [] (str "udp") ex_alice (S754_finite true 8388608 (-23)) (str "alice_01") (str "secret") (str "local") (str "eth0") 0).
  split; by vm_compute.
Qed.
Lemma ex_channel_reach es : exchan_reach (ex_channel es).
Proof.
  unfold ex_channel. destruct (exchan (NewPort ex_local) ex_connecting) as [[] s|] eqn:Er; [|constructor].
  assert (Hc : exchan_reach ex_connecting).
  { unfold ex_connecting. destruct (exec_chan _ _ _ _ _ _ Channel.make) as [s0|] eqn:E0; [|constructor].
    eapply exec_chan_reach; [constructor|exact E0]. }
  assert (Hr : exchan_reach s).
  { eapply chan_reach_step; [exact Hc| |exact Er]. exact (conj ex_local_reach ex_local_fit). }
  destruct (exec_chan _ _ _ _ _ _ s) as [s'|] eqn:Es; [|done]. by eapply exec_chan_reach.
Qed.

(** The channel connects to Bob's candidate, pings and is answered. *)
Definition ex_talk : list chan_event :=
  [NewCandidate (ex_candidate ex_bob (str "bobby_01")); MessagePing 0; PortPing 0 0%nat 0; PortPacket 0 ex_pong ex_bob].

Lemma channel_never_faults_witness : sort_posts (ex_channel ex_talk) = 1%nat /\ exists s, exchan MessageSort (ex_channel ex_talk) = Done tt s.
Proof.
  split; [by vm_compute|].
  apply (channel_never_faults (B := Buf.ByteBuffer) ex_clock (fun _ => ex_clock) (fun _ => ex_id) (fun _ => ex_sent) (fun _ => ex_error));
    [apply ex_channel_reach|apply chan_event_okb_ok; by vm_compute].
Defined.
Lemma channel_invariant_witness : chan_connections_ (ex_channel ex_talk) = [(0, 0)]%nat /\ chan_inv (ex_channel ex_talk).
Proof.
  split; [by vm_compute|].
  destruct (channel_invariant (B := Buf.ByteBuffer) ex_clock (fun _ => ex_clock) (fun _ => ex_id) (fun _ => ex_sent) (fun _ => ex_error)
    (ex_channel ex_talk)) as [Hi _]; [apply ex_channel_reach|exact Hi].
Defined.
Lemma channel_sort_witness : exists s, SortConnections ex_clock (ex_channel ex_talk) = Done tt s /\ is_Some (best_connection_ s).
Proof.
  destruct (channel_sort (B := Buf.ByteBuffer) ex_clock (fun _ => ex_clock) (fun _ => ex_id) (fun _ => ex_sent) (fun _ => ex_error)
    (ex_channel ex_talk)) as (s & E & _ & Hb & _); [apply ex_channel_reach|]. exists s. split; [exact E|]. apply Hb.
  assert (Ec : chan_connections_ (ex_channel ex_talk) = [(0, 0)]%nat) by by vm_compute. rewrite Ec. discriminate.
Defined.

Definition number_b (f : spec_float) : bool := match f with S754_nan => false | _ => true end.
Definition comparable_b (s : P2PTransportChannel) : bool :=
  forallb (fun ip => forallb (fun cx => let v := (snd ip, snd cx) in
      number_b (pair_pref v) && (0 <=? pair_generation (fst v) (snd v)) && (pair_generation (fst v) (snd v) <? 2147483648))
    (map_to_list (conn_heap (snd ip)))) (map_to_list (port_heap s)).
Lemma comparable_b_ok s : comparable_b s = true -> forall k v, conn_of s k = Some v -> comparable_pair v.
Proof.
  unfold comparable_b. rewrite forallb_forall. intros Hq [i c] [p x] [Ep Ex]%conn_of_spec. cbn in *.
  specialize (Hq (i, p) ltac:(by apply list_elem_of_In, elem_of_map_to_list)). rewrite forallb_forall in Hq.
  specialize (Hq (c, x) ltac:(by apply list_elem_of_In, elem_of_map_to_list)). cbn in Hq.
  apply andb_true_iff in Hq as [[Hn Hl%Z.leb_le]%andb_true_iff Hu%Z.ltb_lt]. split; [|done]. unfold is_number. by destruct (pair_pref (p, x)).
Qed.
Lemma channel_best_optimal_witness : exists s, SortConnections ex_clock (ex_channel ex_talk) = Done tt s /\
  best_connection_ s = head (chan_connections_ s).
Proof.
  destruct (channel_best_optimal (B := Buf.ByteBuffer) ex_clock (fun _ => ex_clock) (fun _ => ex_id) (fun _ => ex_sent) (fun _ => ex_error)
    (ex_channel ex_talk)) as (s & s1 & E & _ & Hb & _); [apply ex_channel_reach|apply comparable_b_ok; by vm_compute|].
  exists s. exact (conj E Hb).
Defined.
Definition ex_writable : P2PTransportChannel := ex_channel (ex_talk ++ [MessageSort]).
Lemma channel_pings_witness : writable_ ex_writable = true /\
  exists s, OnPing ex_clock (fun _ => ex_clock) (fun _ => ex_id) ex_writable = Done tt s.
Proof.
  split; [by vm_compute|].
  destruct (channel_pings (B := Buf.ByteBuffer) ex_clock (fun _ => ex_clock) (fun _ => ex_id) (fun _ => ex_sent) (fun _ => ex_error)
    ex_writable) as (s & E & _); [apply ex_channel_reach|apply quiet_ports_fresh; by vm_compute|]. exists s. exact E.
Defined.

(** Bob pings from an address that none of his candidates named. *)
Definition ex_roaming : SocketAddress := SockAddr.make 3232235778 7000.
Definition ex_ping : StunMessage := ping_message (ex_id 1) (str "alice_01bobby_01").
Definition ex_told : P2PTransportChannel := ex_channel [NewCandidate (ex_candidate ex_bob (str "bobby_01"))].
Definition ex_told_port : Port := default ex_local (port_heap ex_told !! 0%nat).
Lemma channel_learns_address_witness : exists s,
  exchan (PortPacket 0 (stun_bytes (B := Buf.ByteBuffer) ex_ping) ex_roaming) ex_told = Done tt s /\ found s 0 ex_roaming.
Proof.
  destruct (channel_learns_address (B := Buf.ByteBuffer) ex_clock (fun _ => ex_clock) (fun _ => ex_id) (fun _ => ex_sent) (fun _ => ex_error)
    ex_told 0 ex_told_port ex_roaming (stun_bytes (B := Buf.ByteBuffer) ex_ping) ex_ping (str "bobby_01")) as (s & E & Hf & _);
    [apply ex_channel_reach|by vm_compute|by vm_compute|by vm_compute|by vm_compute|by vm_compute| |].
  - exists (mkRemote (ex_candidate ex_bob (str "bobby_01")) None). split; [|reflexivity].
    assert (E : remote_candidates_ ex_told = [mkRemote (ex_candidate ex_bob (str "bobby_01")) None]) by by vm_compute.
    rewrite E. by left.
  - exists s. exact (conj E Hf).
Defined.

(** ** Limits of the code *)

(** A ping with the username of a candidate of TCP fails an ASSERT: no port
    makes a connection to it. *)
Definition ex_tcp : Candidate :=
  mkCandidate (str "rtp") (str "tcp") ex_bob (S754_finite false 8388608 (-23)) (str "bobby_01") (str "secret") (str "local") (str "eth0") 0.
Lemma tcp_candidate_asserts :
  match exchan (NewCandidate ex_tcp) (ex_channel []) with
  | Done _ s => exchan (PortPacket 0 (stun_bytes (B := Buf.ByteBuffer) ex_ping) ex_roaming) s = Failed AssertFailed
  | Failed _ => False
  end.
Proof. by vm_compute. Qed.
End ChannelWitnesses.

(** Of two connections that tie, one that is a millisecond faster is switched
    to: the least improvement of 10 ms is on the wrong side of the comparison. *)
Lemma any_improvement_switches v w : cmp_conns v w = 0 -> rtt_ (snd w) = rtt_ (snd v) - 1 -> switches v w = true.
Proof. intros Hc Hr. unfold switches. rewrite Hc, Hr. cbn. apply Z.leb_le. unfold kMinImprovement. lia. Qed.
(** A connection that was pruned is never pruned again, whatever became of it. *)
Lemma pruned_once x : pruned_ x = true -> pruned x = x.
Proof. unfold pruned. by intros ->. Qed.
