(* ===== verification/Base64.v ===== *)
(** * Base64 (talk/base/base64.h, base64.cc)

    The encoder, and the decoder with its flags: how strictly the text is
    parsed, whether padding is required and where it may end. *)

From S2P Require Import Prelude.
#[local] Open Scope jingle_scope.

Module B64.

(** ** Tables and flags *)

Definition kPad : byte := mkbyte 61.
Definition pd : Z := 253.
Definition sp : Z := 254.
Definition il : Z := 255.

Definition Base64Table : bytes := str "ABCDEFGHIJKLMNOPQRSTUVWXYZabcdefghijklmnopqrstuvwxyz0123456789+/".
Definition DecodeTable : list Z :=
 [il;il;il;il;il;il;il;il;il;sp;
  sp;sp;sp;sp;il;il;il;il;il;il;
  il;il;il;il;il;il;il;il;il;il;
  il;il;sp;il;il;il;il;il;il;il;
  il;il;il;62;il;il;il;63;52;53;
  54;55;56;57;58;59;60;61;il;il;
  il;pd;il;il;il; 0; 1; 2; 3; 4;
   5; 6; 7; 8; 9;10;11;12;13;14;
  15;16;17;18;19;20;21;22;23;24;
  25;il;il;il;il;il;il;26;27;28;
  29;30;31;32;33;34;35;36;37;38;
  39;40;41;42;43;44;45;46;47;48;
  49;50;51;il;il;il;il;il;il;il] ++ replicate 126 il.

Definition DO_PARSE_STRICT : Z := 1.
Definition DO_PARSE_WHITE : Z := 2.
Definition DO_PARSE_ANY : Z := 3.
Definition DO_PARSE_MASK : Z := 3.
Definition DO_PAD_YES : Z := 4.
Definition DO_PAD_ANY : Z := 8.
Definition DO_PAD_NO : Z := 12.
Definition DO_PAD_MASK : Z := 12.
Definition DO_TERM_BUFFER : Z := 16.
Definition DO_TERM_CHAR : Z := 32.
Definition DO_TERM_ANY : Z := 48.
Definition DO_TERM_MASK : Z := 48.
Definition DO_STRICT : Z := Z.lor (Z.lor DO_PARSE_STRICT DO_PAD_YES) DO_TERM_BUFFER.
Definition DO_LAX : Z := Z.lor (Z.lor DO_PARSE_ANY DO_PAD_ANY) DO_TERM_CHAR.

(** The entries at an index that fits the table. *)
Definition encode_char (c : Z) : byte := nth (Z.to_nat c) Base64Table kPad.
Definition decode_char (ch : byte) : Z := nth (Z.to_nat (byte.unsigned ch)) DecodeTable il.

Definition IsBase64Char (ch : byte) : bool :=
  let c := byte.unsigned ch in
  ((65 <=? c) && (c <=? 90)) || ((97 <=? c) && (c <=? 122)) || ((48 <=? c) && (c <=? 57)) || (c =? 43) || (c =? 47).
Definition IsBase64Encoded (s : bytes) : bool := forallb IsBase64Char s.

(** ** Encoding *)

(** One turn of the loop takes up to three bytes. *)
Fixpoint Encode (data : bytes) : bytes :=
  match data with
  | [] => []
  | b0 :: data =>
      let b0 := byte.unsigned b0 in
      let c := Z.land (Z.shiftr b0 2) 63 in
      let c1 := Z.land (Z.shiftl b0 4) 63 in
      encode_char c ::
      match data with
      | [] => [encode_char c1; kPad; kPad]
      | b1 :: data =>
          let b1 := byte.unsigned b1 in
          let c1 := Z.lor c1 (Z.land (Z.shiftr b1 4) 15) in
          let c2 := Z.land (Z.shiftl b1 2) 63 in
          encode_char c1 ::
          match data with
          | [] => [encode_char c2; kPad]
          | b2 :: data =>
              let b2 := byte.unsigned b2 in
              let c2 := Z.lor c2 (Z.land (Z.shiftr b2 6) 3) in
              encode_char c2 :: encode_char (Z.land b2 63) :: Encode data
          end
      end
  end.

(** ** Decoding *)

(** The variables of the loop of [GetNextQuantum]. *)
Record quantum := mkQuantum { byte_len : nat; pad_len : nat; pad_start : nat; q_dpos : nat; qbuf : list Z }.
#[export] Instance quantum_eta : Eta quantum := fun q =>
  mkQuantum (byte_len q) (pad_len q) (pad_start q) (q_dpos q) (qbuf q).

(** The loop over the rest of the text, from [dpos] on. *)
Fixpoint quantum_loop (parse_flags : Z) (illegal_pads : bool) (rest : bytes) (q : quantum) : quantum :=
  match rest with
  | [] => q
  | ch :: rest =>
      if (byte_len q <? 4)%nat then
        let v := decode_char ch in
        let q := q <| qbuf := <[byte_len q := v]> (qbuf q) |> in
        let next q := quantum_loop parse_flags illegal_pads rest (q <| q_dpos := S (q_dpos q) |>) in
        let ignore q := if negb (parse_flags =? DO_PARSE_ANY) then q else next q in
        if (il =? v) || (illegal_pads && (pd =? v)) then ignore q
        else if sp =? v then if parse_flags =? DO_PARSE_STRICT then q else next q
        else if pd =? v then
          if (byte_len q <? 2)%nat then ignore q
          else if (4 <=? byte_len q + pad_len q)%nat then ignore q
          else
            let q := q <| pad_len := S (pad_len q) |> in
            next (if (pad_len q =? 1)%nat then q <| pad_start := q_dpos q |> else q)
        else if (0 <? pad_len q)%nat then
          if negb (parse_flags =? DO_PARSE_ANY) then q
          else next (q <| pad_len := 0%nat |> <| byte_len := S (byte_len q) |>)
        else next (q <| byte_len := S (byte_len q) |>)
      else q
  end.
(** The number of characters, the new position and buffer, and [padded]. *)
Definition GetNextQuantum (parse_flags : Z) (illegal_pads : bool) (data : bytes) (dpos : nat) (qb : list Z)
    : nat * nat * list Z * bool :=
  let q := quantum_loop parse_flags illegal_pads (drop dpos data) (mkQuantum 0 0 0 dpos qb) in
  let n := byte_len q in
  let qb := take n (qbuf q) ++ replicate (4 - n) 0 in
  if (n + pad_len q =? 4)%nat then (n, q_dpos q, qb, true)
  else (n, (if (pad_len q =? 0)%nat then q_dpos q else pad_start q), qb, false).

(** The bytes of a quantum of [qlen] characters, and the bits left over. *)
Definition quantum_bytes (qlen : nat) (qb : list Z) : bytes * Z :=
  let q i := nth i qb 0 in
  let c0 := u8 (Z.lor (Z.shiftl (q 0%nat) 2) (Z.land (Z.shiftr (q 1%nat) 4) 3)) in
  if (2 <=? qlen)%nat then
    let c1 := u8 (Z.lor (Z.land (Z.shiftl (q 1%nat) 4) 240) (Z.land (Z.shiftr (q 2%nat) 2) 15)) in
    if (3 <=? qlen)%nat then
      let c2 := u8 (Z.lor (Z.land (Z.shiftl (q 2%nat) 6) 192) (q 3%nat)) in
      if (4 <=? qlen)%nat then ([mkbyte c0; mkbyte c1; mkbyte c2], 0) else ([mkbyte c0; mkbyte c1], c2)
    else ([mkbyte c0], c1)
  else ([], c0).

Fixpoint decode_loop (fuel : nat) (parse_flags pad_flags term_flags : Z) (data : bytes) (dpos : nat) (qb : list Z) (result : bytes)
    : option (bool * bytes * nat) :=
  if (dpos <? length data)%nat then
    match fuel with
    | 0%nat => None
    | S fuel =>
        let '(qlen, dpos, qb, padded) := GetNextQuantum parse_flags (pad_flags =? DO_PAD_NO) data dpos qb in
        let '(out, c) := quantum_bytes qlen qb in
        if (qlen <? 4)%nat then
          Some (negb (negb (term_flags =? DO_TERM_ANY) && negb (c =? 0)) && negb ((pad_flags =? DO_PAD_YES) && negb padded),
                result ++ out, dpos)
        else decode_loop fuel parse_flags pad_flags term_flags data dpos qb (result ++ out)
    end
  else Some (true, result, dpos).
(** The result, the bytes and [data_used]; [None] when an ASSERT fails. *)
Definition DecodeFromArray (data : bytes) (flags : Z) : option (bool * bytes * nat) :=
  let parse_flags := Z.land flags DO_PARSE_MASK in
  let pad_flags := Z.land flags DO_PAD_MASK in
  let term_flags := Z.land flags DO_TERM_MASK in
  if (flags <=? Z.lor (Z.lor DO_PARSE_MASK DO_PAD_MASK) DO_TERM_MASK) && negb (parse_flags =? 0) && negb (pad_flags =? 0) && negb (term_flags =? 0)
  then
    '(success, result, dpos) ← decode_loop (length data) parse_flags pad_flags term_flags data 0 [0; 0; 0; 0] [];
    Some (if (term_flags =? DO_TERM_BUFFER) && negb (dpos =? length data)%nat then false else success, result, dpos)
  else None.
(** [Decode], which ignores whether the text was accepted. *)
Definition Decode (data : bytes) (flags : Z) : option bytes := (fun r => snd (fst r)) <$> DecodeFromArray data flags.
(** ** The two tables invert each other *)

Definition sextets : list Z := Z.of_nat <$> seq 0 64.
Definition octets : list Z := Z.of_nat <$> seq 0 256.

Lemma in_sextets v : 0 <= v < 64 -> v ∈ sextets.
Proof. intros. apply list_elem_of_fmap. exists (Z.to_nat v). split; [lia|]. apply elem_of_seq. lia. Qed.
Lemma in_octets v : is_u8 v -> v ∈ octets.
Proof. intros []. apply list_elem_of_fmap. exists (Z.to_nat v). split; [lia|]. apply elem_of_seq. lia. Qed.
(** A boolean fact of sextets or octets, by trying them all. *)
Lemma tried (P : Z -> bool) l v : forallb P l = true -> v ∈ l -> P v = true.
Proof. rewrite forallb_forall. intros H Hv. apply H, list_elem_of_In, Hv. Qed.
Lemma tried2 (P : Z -> Z -> bool) l1 l2 v w :
  forallb (fun v => forallb (P v) l2) l1 = true -> v ∈ l1 -> w ∈ l2 -> P v w = true.
Proof. intros H Hv. apply tried. exact (tried (fun v => forallb (P v) l2) _ _ H Hv). Qed.

Lemma decode_encode v : 0 <= v < 64 -> decode_char (encode_char v) = v.
Proof.
  intros H. apply Z.eqb_eq. apply (tried (fun v => decode_char (encode_char v) =? v) sextets); [vm_compute; reflexivity | by apply in_sextets].
Qed.

(** What a character of the text is. *)
Inductive char_class (ch : byte) : Prop :=
| c_data v : 0 <= v < 64 -> ch = encode_char v -> decode_char ch = v -> char_class ch
| c_pad : ch = kPad -> decode_char ch = pd -> char_class ch
| c_space : decode_char ch = sp -> char_class ch
| c_illegal : decode_char ch = il -> char_class ch.

Definition classified (z : Z) : bool :=
  let ch := mkbyte z in
  let v := decode_char ch in
  ((0 <=? v) && (v <? 64) && (byte.unsigned (encode_char v) =? z)) || ((z =? 61) && (v =? pd)) || (v =? sp) || (v =? il).
Lemma mkbyte_unsigned b : mkbyte (byte.unsigned b) = b.
Proof. apply byte.unsigned_inj. rewrite unsigned_mkbyte, unsigned_u8. done. Qed.
Lemma classify ch : char_class ch.
Proof.
  assert (H : classified (byte.unsigned ch) = true).
  { apply (tried classified octets); [vm_compute; reflexivity | apply in_octets, unsigned_range]. }
  unfold classified in H. rewrite mkbyte_unsigned in H.
  rewrite !orb_true_iff, !andb_true_iff, ?Z.eqb_eq, Z.leb_le, Z.ltb_lt in H.
  destruct H as [[[[[Hlo Hhi] He] | [He Hd]] | Hd] | Hd].
  - apply (c_data _ (decode_char ch)); [lia | by apply byte.unsigned_inj | done].
  - apply c_pad; [|done]. rewrite <- (mkbyte_unsigned ch), He. done.
  - by apply c_space.
  - by apply c_illegal.
Qed.

(** ** The bits, as arithmetic *)

Ltac by_trying2 P l1 l2 :=
  apply Z.eqb_eq; apply (tried2 P l1 l2); [vm_compute; reflexivity | auto using in_sextets, in_octets ..].

Lemma enc_first b : is_u8 b -> Z.land (Z.shiftr b 2) 63 = b / 4.
Proof. intros. apply Z.eqb_eq. apply (tried (fun b => Z.land (Z.shiftr b 2) 63 =? b / 4) octets); [vm_compute; reflexivity | by apply in_octets]. Qed.
Lemma enc_second b0 b1 : is_u8 b0 -> is_u8 b1 ->
  Z.lor (Z.land (Z.shiftl b0 4) 63) (Z.land (Z.shiftr b1 4) 15) = (b0 mod 4) * 16 + b1 / 16.
Proof. intros. by_trying2 (fun b0 b1 => Z.lor (Z.land (Z.shiftl b0 4) 63) (Z.land (Z.shiftr b1 4) 15) =? (b0 mod 4) * 16 + b1 / 16) octets octets. Qed.
Lemma enc_third b1 b2 : is_u8 b1 -> is_u8 b2 ->
  Z.lor (Z.land (Z.shiftl b1 2) 63) (Z.land (Z.shiftr b2 6) 3) = (b1 mod 16) * 4 + b2 / 64.
Proof. intros. by_trying2 (fun b0 b1 => Z.lor (Z.land (Z.shiftl b0 2) 63) (Z.land (Z.shiftr b1 6) 3) =? (b0 mod 16) * 4 + b1 / 64) octets octets. Qed.
Lemma enc_fourth b : is_u8 b -> Z.land b 63 = b mod 64.
Proof. intros. apply (Z.land_ones b 6). lia. Qed.
Lemma enc_second_last b : is_u8 b -> Z.land (Z.shiftl b 4) 63 = (b mod 4) * 16.
Proof. intros. pose proof (enc_second b 0) as H0. rewrite Z.lor_0_r in H0. rewrite H0; [apply Z.add_0_r | done | word_lia]. Qed.
Lemma enc_third_last b : is_u8 b -> Z.land (Z.shiftl b 2) 63 = (b mod 16) * 4.
Proof. intros. pose proof (enc_third b 0) as H0. rewrite Z.lor_0_r in H0. rewrite H0; [apply Z.add_0_r | done | word_lia]. Qed.

Lemma dec_first v0 v1 : 0 <= v0 < 64 -> 0 <= v1 < 64 ->
  u8 (Z.lor (Z.shiftl v0 2) (Z.land (Z.shiftr v1 4) 3)) = v0 * 4 + v1 / 16.
Proof. intros. by_trying2 (fun v0 v1 => u8 (Z.lor (Z.shiftl v0 2) (Z.land (Z.shiftr v1 4) 3)) =? v0 * 4 + v1 / 16) sextets sextets. Qed.
Lemma dec_second v1 v2 : 0 <= v1 < 64 -> 0 <= v2 < 64 ->
  u8 (Z.lor (Z.land (Z.shiftl v1 4) 240) (Z.land (Z.shiftr v2 2) 15)) = (v1 mod 16) * 16 + v2 / 4.
Proof. intros. by_trying2 (fun v1 v2 => u8 (Z.lor (Z.land (Z.shiftl v1 4) 240) (Z.land (Z.shiftr v2 2) 15)) =? (v1 mod 16) * 16 + v2 / 4) sextets sextets. Qed.
Lemma dec_third v2 v3 : 0 <= v2 < 64 -> 0 <= v3 < 64 ->
  u8 (Z.lor (Z.land (Z.shiftl v2 6) 192) v3) = (v2 mod 4) * 64 + v3.
Proof. intros. by_trying2 (fun v2 v3 => u8 (Z.lor (Z.land (Z.shiftl v2 6) 192) v3) =? (v2 mod 4) * 64 + v3) sextets sextets. Qed.

(** What [Encode] writes, without the bit operations. *)
Definition group1 (b0 : Z) : bytes := [encode_char (b0 / 4); encode_char (b0 mod 4 * 16); kPad; kPad].
Definition group2 (b0 b1 : Z) : bytes :=
  [encode_char (b0 / 4); encode_char (b0 mod 4 * 16 + b1 / 16); encode_char (b1 mod 16 * 4); kPad].
Definition group3 (b0 b1 b2 : Z) : bytes :=
  [encode_char (b0 / 4); encode_char (b0 mod 4 * 16 + b1 / 16); encode_char (b1 mod 16 * 4 + b2 / 64); encode_char (b2 mod 64)].
Lemma Encode_1 b0 : Encode [b0] = group1 (byte.unsigned b0).
Proof. unfold Encode. rewrite enc_first, enc_second_last by apply unsigned_range. done. Qed.
Lemma Encode_2 b0 b1 : Encode [b0; b1] = group2 (byte.unsigned b0) (byte.unsigned b1).
Proof. unfold Encode. rewrite enc_first, enc_second, enc_third_last by apply unsigned_range. done. Qed.
Lemma Encode_3 b0 b1 b2 data :
  Encode (b0 :: b1 :: b2 :: data) = group3 (byte.unsigned b0) (byte.unsigned b1) (byte.unsigned b2) ++ Encode data.
Proof.
  cbn [Encode]. rewrite enc_first, enc_second, enc_third, enc_fourth by apply unsigned_range. done.
Qed.

(** The bytes of a quantum, without the bit operations. *)
Lemma quantum_bytes_4 v0 v1 v2 v3 : 0 <= v0 < 64 -> 0 <= v1 < 64 -> 0 <= v2 < 64 -> 0 <= v3 < 64 ->
  quantum_bytes 4 [v0; v1; v2; v3] =
  ([mkbyte (v0 * 4 + v1 / 16); mkbyte (v1 mod 16 * 16 + v2 / 4); mkbyte (v2 mod 4 * 64 + v3)], 0).
Proof. intros. unfold quantum_bytes. cbn. rewrite dec_first, dec_second, dec_third by done. done. Qed.
Lemma quantum_bytes_3 v0 v1 v2 : 0 <= v0 < 64 -> 0 <= v1 < 64 -> 0 <= v2 < 64 ->
  quantum_bytes 3 [v0; v1; v2; 0] = ([mkbyte (v0 * 4 + v1 / 16); mkbyte (v1 mod 16 * 16 + v2 / 4)], v2 mod 4 * 64).
Proof. intros. unfold quantum_bytes. cbn. rewrite dec_first, dec_second, dec_third by lia. rewrite Z.add_0_r. done. Qed.
Lemma quantum_bytes_2 v0 v1 : 0 <= v0 < 64 -> 0 <= v1 < 64 ->
  quantum_bytes 2 [v0; v1; 0; 0] = ([mkbyte (v0 * 4 + v1 / 16)], v1 mod 16 * 16).
Proof. intros. unfold quantum_bytes. cbn. rewrite dec_first, dec_second by lia. rewrite Z.add_0_r. done. Qed.
(** ** A quantum *)

Lemma data_not v : 0 <= v < 64 -> (il =? v) = false /\ (pd =? v) = false /\ (sp =? v) = false.
Proof. intros. rewrite !Z.eqb_neq. unfold il, pd, sp. lia. Qed.
(** A character of data, when no padding came before it. *)
Lemma quantum_data pf ip v rest b ps dp qb :
  (b < 4)%nat -> 0 <= v < 64 ->
  quantum_loop pf ip (encode_char v :: rest) (mkQuantum b 0 ps dp qb) =
  quantum_loop pf ip rest (mkQuantum (S b) 0 ps (S dp) (<[b := v]> qb)).
Proof.
  intros Hb Hv. cbn [quantum_loop byte_len]. rewrite (proj2 (Nat.ltb_lt _ _) Hb), decode_encode by done.
  destruct (data_not v Hv) as (-> & -> & ->). rewrite andb_false_r. done.
Qed.
Lemma quantum_full pf ip rest p ps dp qb : quantum_loop pf ip rest (mkQuantum 4 p ps dp qb) = mkQuantum 4 p ps dp qb.
Proof. destruct rest; done. Qed.

Definition four (qb : list Z) : Prop := length qb = 4%nat.
Ltac four_cases := match goal with H : four ?qb |- _ => destruct qb as [|? [|? [|? [|? [|]]]]]; try discriminate H end.

Section next_quantum.
Context (pf : Z) (ip : bool) (data : bytes) (dp : nat) (qb : list Z) (v0 v1 v2 v3 : Z) (Hqb : four qb).
Context (H0 : 0 <= v0 < 64) (H1 : 0 <= v1 < 64) (H2 : 0 <= v2 < 64) (H3 : 0 <= v3 < 64).

Lemma next_4 rest :
  drop dp data = encode_char v0 :: encode_char v1 :: encode_char v2 :: encode_char v3 :: rest ->
  GetNextQuantum pf ip data dp qb = (4%nat, (4 + dp)%nat, [v0; v1; v2; v3], true).
Proof.
  intros Hd. four_cases. unfold GetNextQuantum. rewrite Hd, !quantum_data, quantum_full by (done || lia). done.
Qed.
Lemma next_3 : drop dp data = [encode_char v0; encode_char v1; encode_char v2; kPad] ->
  GetNextQuantum pf false data dp qb = (3%nat, (4 + dp)%nat, [v0; v1; v2; 0], true).
Proof. intros Hd. four_cases. unfold GetNextQuantum. rewrite Hd, !quantum_data by (done || lia). done. Qed.
Lemma next_2 : drop dp data = [encode_char v0; encode_char v1; kPad; kPad] ->
  GetNextQuantum pf false data dp qb = (2%nat, (4 + dp)%nat, [v0; v1; 0; 0], true).
Proof. intros Hd. four_cases. unfold GetNextQuantum. rewrite Hd, !quantum_data by (done || lia). done. Qed.
End next_quantum.

(** Every character counted was read, and none is read past the end. *)
Definition q_ok (q : quantum) : Prop := (byte_len q + pad_len q <= 4)%nat.
Definition progress (n : nat) (q q' : quantum) : Prop :=
  q_ok q' /\ (byte_len q' + q_dpos q <= byte_len q + q_dpos q' /\ q_dpos q <= q_dpos q' <= q_dpos q + n /\
   length (qbuf q') = length (qbuf q))%nat.
Lemma quantum_progress pf ip rest q : q_ok q -> progress (length rest) q (quantum_loop pf ip rest q).
Proof.
  revert q. induction rest as [|ch rest IH]; intros q Hq; cbn [quantum_loop length]; [unfold progress; split; [done | lia]|].
  destruct (Nat.ltb_spec (byte_len q) 4) as [Hlt|]; [|unfold progress; split; [done | lia]].
  assert (Hstop : forall x, progress (S (length rest)) q (q <| qbuf := <[byte_len q := x]> (qbuf q) |>)).
  { intros. unfold progress, q_ok in *. cbn. rewrite length_insert. lia. }
  assert (Hnext : forall q1, q_ok q1 -> (byte_len q1 <= S (byte_len q) /\ q_dpos q1 = S (q_dpos q) /\ length (qbuf q1) = length (qbuf q))%nat ->
    progress (S (length rest)) q (quantum_loop pf ip rest q1)).
  { intros q1 Hq1 ?. specialize (IH q1 Hq1). unfold progress, q_ok in *. lia. }
  unfold q_ok in *. repeat case_match; try apply Hstop; apply Hnext; cbn; rewrite ?length_insert;
    repeat match goal with H : (_ <=? _)%nat = _ |- _ => apply Nat.leb_gt in H; cbn in H | H : (_ <? _)%nat = _ |- _ => apply Nat.ltb_ge in H; cbn in H end; lia.
Qed.
Lemma next_progress pf ip data dp qb n dp' qb' padded :
  (dp < length data)%nat -> four qb -> GetNextQuantum pf ip data dp qb = (n, dp', qb', padded) ->
  (n <= 4 /\ (n = 4 -> dp < dp' <= length data) /\ four qb')%nat.
Proof.
  unfold GetNextQuantum, four. set (q := quantum_loop _ _ _ _). intros Hdp Hqb E.
  destruct (quantum_progress pf ip (drop dp data) (mkQuantum 0 0 0 dp qb)) as (Hl & Hp & Hr & Hb); [unfold q_ok; cbn; lia|].
  fold q in Hl, Hp, Hr, Hb. cbn in Hp, Hr, Hb. rewrite length_drop in Hr. unfold q_ok in Hl.
  assert (four (take (byte_len q) (qbuf q) ++ replicate (4 - byte_len q) 0)).
  { unfold four. rewrite length_app, length_take, length_replicate. lia. }
  destruct (Nat.eqb_spec (byte_len q + pad_len q) 4); [|destruct (Nat.eqb_spec (pad_len q) 0)]; injection E as <- <- <- <-;
    (split; [lia | split; [intros; lia | done]]).
Qed.

(** ** The loop *)

Lemma drop_split {A} (l a b : list A) n : drop n l = a ++ b -> drop (length a + n) l = b.
Proof. intros H. rewrite Nat.add_comm, <- drop_drop, H. apply drop_app_length. Qed.
Lemma drop_nil_length {A} (l : list A) n : (n <= length l)%nat -> drop n l = [] -> n = length l.
Proof. intros H Hd. apply (f_equal length) in Hd. rewrite length_drop in Hd. cbn in Hd. lia. Qed.
Lemma drop_length_eq {A} (l t : list A) n : (n <= length l)%nat -> drop n l = t -> length l = (n + length t)%nat.
Proof. intros H <-. rewrite length_drop. lia. Qed.
Lemma drop_cons_lt {A} (l : list A) n x t : drop n l = x :: t -> (n < length l)%nat.
Proof. intros Hd. apply (f_equal length) in Hd. rewrite length_drop in Hd. cbn in Hd. lia. Qed.

(** The fuel is enough: a valid call returns. *)
Lemma decode_loop_returns fuel pf pads term data dp qb result :
  four qb -> (dp <= length data)%nat -> (length data - dp <= fuel)%nat ->
  is_Some (decode_loop fuel pf pads term data dp qb result).
Proof.
  revert dp qb result. induction fuel as [|fuel IH]; intros dp qb result Hqb Hdp Hf; cbn [decode_loop];
    destruct (Nat.ltb_spec dp (length data)); try (by eexists); [lia|].
  destruct (GetNextQuantum _ _ _ _ _) as [[[n dp'] qb'] padded] eqn:E.
  destruct (next_progress _ _ _ _ _ _ _ _ _ H Hqb E) as (Hn & Hd & Hqb').
  destruct (quantum_bytes n qb') as [out c]. destruct (Nat.ltb_spec n 4); [by eexists|].
  assert (n = 4%nat) as -> by lia. apply IH; [done | lia..].
Qed.

(** Arithmetic of the bits of bytes. *)
Ltac octets :=
  repeat match goal with |- context [byte.unsigned ?b] => lazymatch goal with _ : is_u8 (byte.unsigned b) |- _ => fail | _ => pose proof (unsigned_range b) end end;
  word_lia.
Lemma byte_is b z : z = byte.unsigned b -> mkbyte z = b.
Proof. intros ->. apply mkbyte_unsigned. Qed.

Section loop.
Context (pf pads term : Z) (text : bytes).

Lemma decode_last fuel dp qb n dp' qb' padded out c result :
  (dp < length text)%nat -> (length text - dp <= fuel)%nat ->
  GetNextQuantum pf (pads =? DO_PAD_NO) text dp qb = (n, dp', qb', padded) ->
  quantum_bytes n qb' = (out, c) -> (n < 4)%nat ->
  decode_loop fuel pf pads term text dp qb result =
  Some (negb (negb (term =? DO_TERM_ANY) && negb (c =? 0)) && negb ((pads =? DO_PAD_YES) && negb padded), result ++ out, dp').
Proof.
  intros Hdp Hf E Eb Hn. destruct fuel; [lia|]. cbn [decode_loop].
  rewrite (proj2 (Nat.ltb_lt _ _) Hdp), E, Eb, (proj2 (Nat.ltb_lt _ _) Hn). done.
Qed.
Lemma decode_next fuel dp qb dp' qb' padded out c result :
  (dp < length text)%nat ->
  GetNextQuantum pf (pads =? DO_PAD_NO) text dp qb = (4%nat, dp', qb', padded) ->
  quantum_bytes 4 qb' = (out, c) ->
  decode_loop (S fuel) pf pads term text dp qb result = decode_loop fuel pf pads term text dp' qb' (result ++ out).
Proof. intros Hdp E Eb. cbn [decode_loop]. rewrite (proj2 (Nat.ltb_lt _ _) Hdp), E, Eb. done. Qed.
Lemma decode_end fuel qb result : decode_loop fuel pf pads term text (length text) qb result = Some (true, result, length text).
Proof. destruct fuel; cbn [decode_loop]; rewrite Nat.ltb_irrefl; done. Qed.

Lemma decode_Encode data fuel dp qb result :
  four qb -> pads <> DO_PAD_NO -> (dp <= length text)%nat -> (length text - dp <= fuel)%nat ->
  drop dp text = Encode data ->
  decode_loop fuel pf pads term text dp qb result = Some (true, result ++ data, length text).
Proof.
  intros Hqb Hpads. revert fuel dp qb result Hqb.
  assert (Hp : (pads =? DO_PAD_NO) = false) by (by apply Z.eqb_neq).
  induction data as [data IH] using (induction_ltof1 _ (@length byte)). unfold ltof in IH.
  intros fuel dp qb result Hqb Hdp Hf Hd.
  destruct data as [|b0 [|b1 [|b2 data]]].
  - apply drop_nil_length in Hd; [|done]. subst dp. rewrite app_nil_r. apply decode_end.
  - rewrite Encode_1 in Hd. apply drop_length_eq in Hd as Hl; [|done]. cbn [length group1] in Hl.
    erewrite decode_last; [| | |rewrite Hp; eapply next_2; try exact Hd; try done; octets |eapply quantum_bytes_2; octets|]; [|lia..].
    cbn [app]. rewrite Hl, (byte_is b0) by octets. replace ((byte.unsigned b0 mod 4 * 16) mod 16 * 16) with 0 by octets.
    rewrite !andb_false_r, Nat.add_comm. done.
  - rewrite Encode_2 in Hd. apply drop_length_eq in Hd as Hl; [|done]. cbn [length group2] in Hl.
    erewrite decode_last; [| | |rewrite Hp; eapply next_3; try exact Hd; try done; octets |eapply quantum_bytes_3; octets|]; [|lia..].
    cbn [app]. rewrite Hl, (byte_is b0), (byte_is b1) by octets.
    replace ((byte.unsigned b1 mod 16 * 4) mod 4 * 64) with 0 by octets.
    rewrite !andb_false_r, Nat.add_comm. done.
  - rewrite Encode_3 in Hd. apply drop_length_eq in Hd as Hl; [|done]. rewrite length_app in Hl. cbn [length group3] in Hl.
    destruct fuel as [|fuel]; [lia|].
    erewrite decode_next; [|lia|eapply next_4; try exact Hd; try done; octets|eapply quantum_bytes_4; octets].
    rewrite (byte_is b0), (byte_is b1), (byte_is b2) by octets.
    rewrite (IH data); [rewrite <- app_assoc; done | cbn; lia | done | lia.. |].
    apply (drop_split _ (group3 _ _ _) _ _ Hd).
Qed.
End loop.

(** ** Strict parsing *)

Lemma strict_step ch rest b p ps dp qb :
  (b < 4)%nat ->
  let q := quantum_loop DO_PARSE_STRICT false (ch :: rest) (mkQuantum b p ps dp qb) in
  (p = 0%nat /\ exists v, 0 <= v < 64 /\ ch = encode_char v /\
     q = quantum_loop DO_PARSE_STRICT false rest (mkQuantum (S b) 0 ps (S dp) (<[b := v]> qb))) \/
  ((2 <= b)%nat /\ (b + p < 4)%nat /\ ch = kPad /\
     exists ps' x, q = quantum_loop DO_PARSE_STRICT false rest (mkQuantum b (S p) ps' (S dp) (<[b := x]> qb))) \/
  exists x, q = mkQuantum b p ps dp (<[b := x]> qb).
Proof.
  intros Hb. cbn zeta.
  destruct (classify ch) as [v Hv -> Hd | -> Hd | Hd | Hd].
  - destruct p as [|p]; [left; split; [done|]; exists v; by rewrite quantum_data|].
    right; right. exists v. cbn [quantum_loop byte_len]. rewrite (proj2 (Nat.ltb_lt _ _) Hb), Hd.
    destruct (data_not v Hv) as (-> & -> & ->). done.
  - right. cbn [quantum_loop byte_len pad_len]. rewrite (proj2 (Nat.ltb_lt _ _) Hb), Hd.
    cbn -[Nat.leb Nat.ltb]. destruct (Nat.ltb_spec b 2); [right; exists pd; done|]. destruct (Nat.leb_spec 4 (b + p)); [right; exists pd; done|].
    left. split; [done|]. split; [done|]. split; [done|]. destruct p; by do 2 eexists.
  - right; right. exists sp. cbn [quantum_loop byte_len]. rewrite (proj2 (Nat.ltb_lt _ _) Hb), Hd. done.
  - right; right. exists il. cbn [quantum_loop byte_len]. rewrite (proj2 (Nat.ltb_lt _ _) Hb), Hd. done.
Qed.

Inductive strict_quantum (text : bytes) (dp : nat) : nat * nat * list Z * bool -> Prop :=
| strict_4 v0 v1 v2 v3 : 0 <= v0 < 64 -> 0 <= v1 < 64 -> 0 <= v2 < 64 -> 0 <= v3 < 64 ->
    drop dp text = encode_char v0 :: encode_char v1 :: encode_char v2 :: encode_char v3 :: drop (4 + dp) text ->
    strict_quantum text dp (4%nat, (4 + dp)%nat, [v0; v1; v2; v3], true)
| strict_3 v0 v1 v2 : 0 <= v0 < 64 -> 0 <= v1 < 64 -> 0 <= v2 < 64 ->
    drop dp text = [encode_char v0; encode_char v1; encode_char v2; kPad] ->
    strict_quantum text dp (3%nat, (4 + dp)%nat, [v0; v1; v2; 0], true)
| strict_2 v0 v1 : 0 <= v0 < 64 -> 0 <= v1 < 64 ->
    drop dp text = [encode_char v0; encode_char v1; kPad; kPad] ->
    strict_quantum text dp (2%nat, (4 + dp)%nat, [v0; v1; 0; 0], true)
| strict_bad n dp' qb padded : (n < 4)%nat -> padded = false \/ dp' <> length text ->
    strict_quantum text dp (n, dp', qb, padded).

Ltac bad := cbn; apply strict_bad; [lia | first [by left | right; match goal with H : forall t, _ -> length _ = _ |- _ => erewrite H by reflexivity end; cbn; lia]].
(** The next character, which is data, padding, or the end. *)
Ltac char ch rest :=
  match goal with |- context [quantum_loop _ _ (ch :: rest) (mkQuantum ?b ?p ?ps ?d ?q)] =>
    destruct (strict_step ch rest b p ps d q) as [(? & ? & ? & -> & ->) | [(? & ? & -> & ? & ? & ->) | [? ->]]];
      [lia | try done | try lia | ] end; cbn [insert list_insert].
Lemma strict_next text dp qb :
  (dp < length text)%nat -> four qb -> strict_quantum text dp (GetNextQuantum DO_PARSE_STRICT false text dp qb).
Proof.
  intros Hdp Hqb. unfold GetNextQuantum.
  apply Nat.lt_le_incl in Hdp. pose proof (fun t => drop_length_eq text t dp Hdp) as Hlen.
  four_cases.
  destruct (drop dp text) as [|ch0 rest] eqn:E; [bad|].
  char ch0 rest; [|bad].
  destruct rest as [|ch1 rest]; [bad|]. char ch1 rest; [|bad].
  destruct rest as [|ch2 rest]; [bad|]. char ch2 rest; [| |bad].
  - destruct rest as [|ch3 rest]; [bad|]. char ch3 rest; [| |bad].
    + rewrite quantum_full. cbn. apply strict_4; [done..|]. rewrite E. do 4 f_equal. symmetry. exact (drop_split _ [_; _; _; _] rest dp E).
    + destruct rest as [|ch4 rest]; [cbn; by apply strict_3|]. char ch4 rest. bad.
  - destruct rest as [|ch3 rest]; [bad|]. char ch3 rest; [|bad].
    destruct rest as [|ch4 rest]; [cbn; by apply strict_2|]. char ch4 rest. bad.
Qed.

Ltac same_chars := repeat (apply (f_equal2 cons); [first [done | apply (f_equal encode_char); word_lia]|]); done.
Lemma decode_strict fuel text dp qb result r :
  four qb -> (dp <= length text)%nat ->
  decode_loop fuel DO_PARSE_STRICT DO_PAD_YES DO_TERM_BUFFER text dp qb result = Some (true, r, length text) ->
  exists out, r = result ++ out /\ drop dp text = Encode out.
Proof.
  revert dp qb result. induction fuel as [|fuel IH]; intros dp qb result Hqb Hdp; cbn [decode_loop];
    (destruct (Nat.ltb_spec dp (length text)) as [Hlt|];
      [|intros [= <- ]; exists []; rewrite app_nil_r, drop_ge by done; done]); [done|].
  change (DO_PAD_YES =? DO_PAD_NO) with false.
  destruct (strict_next text dp qb Hlt Hqb) as [v0 v1 v2 v3 Hv0 Hv1 Hv2 Hv3 Hd | v0 v1 v2 Hv0 Hv1 Hv2 Hd | v0 v1 Hv0 Hv1 Hd | n dp' qb' padded Hn Hbad].
  - rewrite quantum_bytes_4 by done. intros H. apply IH in H as (out & -> & Hout); [|done|].
    2:{ apply (f_equal length) in Hd. rewrite length_drop in Hd. cbn in Hd. lia. }
    eexists. split; [rewrite <- app_assoc; done|]. cbn [app]. rewrite Encode_3, !unsigned_mkbyte_small by word_lia.
    rewrite Hd, Hout. unfold group3. cbn [app]. same_chars.
  - rewrite quantum_bytes_3 by done. cbn. intros [= Hc <- _]. rewrite andb_true_r, negb_involutive in Hc.
    apply Z.eqb_eq in Hc. eexists. split; [done|]. rewrite Encode_2, !unsigned_mkbyte_small by word_lia.
    rewrite Hd. unfold group2. cbn [app]. same_chars.
  - rewrite quantum_bytes_2 by done. cbn. intros [= Hc <- _]. rewrite andb_true_r, negb_involutive in Hc.
    apply Z.eqb_eq in Hc. eexists. split; [done|]. rewrite Encode_1, !unsigned_mkbyte_small by word_lia.
    rewrite Hd. unfold group1. cbn [app]. same_chars.
  - destruct (quantum_bytes n qb') as [out c]. rewrite (proj2 (Nat.ltb_lt _ _) Hn). intros [= Hc _ Hl].
    destruct Hbad as [-> | ]; [|done]. rewrite andb_false_r in Hc. done.
Qed.

(** ** What the codec promises *)

(** Flags that pass the ASSERTs of [DecodeFromArray]. *)
Definition valid_flags (flags : Z) : bool :=
  (flags <=? Z.lor (Z.lor DO_PARSE_MASK DO_PAD_MASK) DO_TERM_MASK) && negb (Z.land flags DO_PARSE_MASK =? 0) &&
  negb (Z.land flags DO_PAD_MASK =? 0) && negb (Z.land flags DO_TERM_MASK =? 0).
Lemma DecodeFromArray_valid data flags : valid_flags flags = true ->
  DecodeFromArray data flags =
  '(success, result, dpos) ← decode_loop (length data) (Z.land flags DO_PARSE_MASK) (Z.land flags DO_PAD_MASK)
     (Z.land flags DO_TERM_MASK) data 0 [0; 0; 0; 0] [];
  Some (if (Z.land flags DO_TERM_MASK =? DO_TERM_BUFFER) && negb (dpos =? length data)%nat then false else success, result, dpos).
Proof. unfold DecodeFromArray, valid_flags. intros ->. done. Qed.

(** Decoding returns, whatever the text. *)
Lemma decode_returns data flags : valid_flags flags = true -> is_Some (DecodeFromArray data flags).
Proof.
  intros H. rewrite DecodeFromArray_valid by done.
  destruct (decode_loop_returns (length data) (Z.land flags DO_PARSE_MASK) (Z.land flags DO_PAD_MASK) (Z.land flags DO_TERM_MASK)
    data 0 [0; 0; 0; 0] []) as ([[success r] n] & ->); [done | lia.. | by eexists].
Qed.

(** What was encoded is decoded, under any flags that allow padding. *)
Theorem base64_roundtrip data flags :
  valid_flags flags = true -> Z.land flags DO_PAD_MASK <> DO_PAD_NO ->
  DecodeFromArray (Encode data) flags = Some (true, data, length (Encode data)).
Proof.
  intros Hv Hp. rewrite DecodeFromArray_valid by done.
  rewrite (decode_Encode _ _ _ _ data) by (done || lia). cbn. rewrite Nat.eqb_refl, andb_false_r. done.
Qed.

Lemma strict_sound text r n : DecodeFromArray text DO_STRICT = Some (true, r, n) -> text = Encode r /\ n = length text.
Proof.
  rewrite DecodeFromArray_valid by done.
  destruct (decode_loop _ _ _ _ _ _ _ _) as [[[success r'] n']|] eqn:E; [|done].
  cbn. destruct (Nat.eqb_spec n' (length text)) as [->|]; [|done]. intros [= -> <- <-]. split; [|done].
  apply decode_strict in E as (out & -> & Hd); [|done|lia]. rewrite drop_0 in Hd. done.
Qed.

(** C33. Strict decoding accepts exactly what [Encode] writes: no other text decodes
    to the bytes, whatever its padding, its unused bits or its length. *)
Theorem base64_strict text r n :
  DecodeFromArray text DO_STRICT = Some (true, r, n) <-> text = Encode r /\ n = length text.
Proof. split; [apply strict_sound | intros [-> ->]; by apply base64_roundtrip]. Qed.

Lemma base64_roundtrip_witness :
  valid_flags DO_LAX = true /\
  Encode (str "sun") = str "c3Vu" /\ Encode (str "su") = str "c3U=" /\
  DecodeFromArray (str "c3U=") DO_LAX = Some (true, str "su", 4%nat).
Proof.
  split; [reflexivity|]. split; [reflexivity|]. split; [reflexivity|].
  refine (base64_roundtrip (str "su") DO_LAX _ _); [reflexivity | discriminate].
Defined.
End B64.
