(* ===== verification/StringCodes.v ===== *)
(** * Text encodings (talk/base/stringencode.cc, urlencode.cc)

    Escaping, hexadecimal, URL, UTF-8, XML and HTML encoders and decoders over
    buffers of a given size, and the tokenizers.  The contents of a buffer is
    the list of the bytes written, without the terminating zero; its length is
    what the functions return. *)

From S2P Require Import Prelude.
#[local] Open Scope jingle_scope.

Module Text.

Definition ch (s : String.string) : byte := nth 0 (str s) (mkbyte 0).
#[global] Arguments ch _%_string.
Definition same (c d : byte) : bool := bool_decide (c = d).
Abbreviation NUL := (mkbyte 0).

(** [strchr(set, c)] is not NULL: the terminator of the set counts. *)
Definition strchr (set : bytes) (c : byte) : bool := same c NUL || bool_decide (c ∈ set).
(** There is room for [n] more bytes and the terminator. *)
Definition room (buflen : Z) (buffer : bytes) (n : Z) : bool := Z.of_nat (length buffer) + n <? buflen.

(** ** Hexadecimal *)

Definition HEX : bytes := str "0123456789abcdef".
Definition hex_encode_char (val : Z) : byte := if val <? 16 then nth (Z.to_nat val) HEX (ch "!") else ch "!".
Definition hex_decode_char (c : byte) : option Z :=
  let c := byte.unsigned c in
  if (48 <=? c) && (c <=? 57) then Some (c - 48)
  else if (65 <=? c) && (c <=? 90) then Some (c - 65 + 10)
  else if (97 <=? c) && (c <=? 122) then Some (c - 97 + 10)
  else None.
(** [(h1 << 4) | h2], as a [char]. *)
Definition hex_pair (h1 h2 : Z) : byte := mkbyte (Z.lor (Z.shiftl h1 4) h2).
Definition hex_high (c : byte) : byte := hex_encode_char (Z.land (Z.shiftr (byte.unsigned c) 4) 15).
Definition hex_low (c : byte) : byte := hex_encode_char (Z.land (byte.unsigned c) 15).

Fixpoint hex_encode_loop (source : bytes) : bytes :=
  match source with [] => [] | c :: source => hex_high c :: hex_low c :: hex_encode_loop source end.
Definition hex_encode (buflen : Z) (source : bytes) : bytes :=
  if buflen <=? 0 then []
  else hex_encode_loop (take (Z.to_nat (Z.min (Z.of_nat (length source)) ((buflen - 1) / 2))) source).
Definition hex_encode_string (source : bytes) : bytes := hex_encode (Z.of_nat (length source) * 2 + 1) source.

Fixpoint hex_decode_loop (buflen : Z) (source : bytes) (buffer : bytes) : bytes :=
  match source with
  | c1 :: c2 :: source =>
      if room buflen buffer 1 then
        match hex_decode_char c1, hex_decode_char c2 with
        | Some h1, Some h2 => hex_decode_loop buflen source (buffer ++ [hex_pair h1 h2])
        | _, _ => buffer
        end
      else buffer
  | _ => buffer
  end.
Definition hex_decode (buflen : Z) (source : bytes) : bytes := if buflen <=? 0 then [] else hex_decode_loop buflen source [].

(** ** Escapes *)

Fixpoint escape_loop (buflen : Z) (illegal : bytes) (esc : byte) (source buffer : bytes) : bytes :=
  match source with
  | [] => buffer
  | c :: source =>
      if room buflen buffer 1 then
        if same c esc || strchr illegal c then
          if negb (room buflen buffer 2) then buffer
          else escape_loop buflen illegal esc source ((buffer ++ [esc]) ++ [c])
        else escape_loop buflen illegal esc source (buffer ++ [c])
      else buffer
  end.
Definition escape (buflen : Z) (source illegal : bytes) (esc : byte) : bytes :=
  if buflen <=? 0 then [] else escape_loop buflen illegal esc source [].

Fixpoint unescape_loop (buflen : Z) (esc : byte) (source buffer : bytes) : bytes :=
  match source with
  | [] => buffer
  | c :: source =>
      if room buflen buffer 1 then
        match source with
        | c' :: source' =>
            if same c esc then unescape_loop buflen esc source' (buffer ++ [c'])
            else unescape_loop buflen esc source (buffer ++ [c])
        | [] => buffer ++ [c]
        end
      else buffer
  end.
Definition unescape (buflen : Z) (source : bytes) (esc : byte) : bytes :=
  if buflen <=? 0 then [] else unescape_loop buflen esc source [].

Fixpoint encode_loop (buflen : Z) (illegal : bytes) (esc : byte) (source buffer : bytes) : bytes :=
  match source with
  | [] => buffer
  | c :: source =>
      if room buflen buffer 1 then
        if negb (same c esc) && negb (strchr illegal c) then encode_loop buflen illegal esc source (buffer ++ [c])
        else if negb (room buflen buffer 3) then buffer
        else encode_loop buflen illegal esc source (buffer ++ [esc; hex_high c; hex_low c])
      else buffer
  end.
Definition encode (buflen : Z) (source illegal : bytes) (esc : byte) : bytes :=
  if buflen <=? 0 then [] else encode_loop buflen illegal esc source [].

(** The character at the head of [source], when it is an escape with two digits. *)
Definition hex_escape (esc c : byte) (source : bytes) : option byte :=
  match source with
  | c1 :: c2 :: _ =>
      if same c esc then
        match hex_decode_char c1, hex_decode_char c2 with Some h1, Some h2 => Some (hex_pair h1 h2) | _, _ => None end
      else None
  | _ => None
  end.
Fixpoint decode_loop (fuel : nat) (buflen : Z) (esc : byte) (source buffer : bytes) : bytes :=
  match fuel, source with
  | S fuel, c :: source =>
      if room buflen buffer 1 then
        match hex_escape esc c source with
        | Some c => decode_loop fuel buflen esc (drop 2 source) (buffer ++ [c])
        | None => decode_loop fuel buflen esc source (buffer ++ [c])
        end
      else buffer
  | _, _ => buffer
  end.
Definition decode (buflen : Z) (source : bytes) (esc : byte) : bytes :=
  if buflen <=? 0 then [] else decode_loop (length source) buflen esc source [].

(** ** URLs *)

Definition URL_UNSAFE : Z := 1.
Definition XML_UNSAFE : Z := 2.
Definition HTML_UNSAFE : Z := 2.
Definition ASCII_CLASS : list Z := [
  1;1;1;1;1;1;1;1;1;1;1;1;1;1;1;1;1;1;1;1;1;1;1;1;1;1;1;1;1;1;1;1;
  1;0;3;1;1;1;3;2;0;0;0;1;1;0;0;1;0;0;0;0;0;0;0;0;0;0;1;1;3;1;3;1;
  1;0;0;0;0;0;0;0;0;0;0;0;0;0;0;0;0;0;0;0;0;0;0;0;0;0;0;1;1;1;1;0;
  1;0;0;0;0;0;0;0;0;0;0;0;0;0;0;0;0;0;0;0;0;0;0;0;0;0;0;1;1;1;0;1].
(** [(ch < 128) && (ASCII_CLASS[ch] & class)] *)
Definition of_class (class : Z) (c : byte) : bool :=
  (byte.unsigned c <? 128) && negb (Z.land (nth (Z.to_nat (byte.unsigned c)) ASCII_CLASS 0) class =? 0).

Fixpoint url_encode_loop (buflen : Z) (source buffer : bytes) : bytes :=
  match source with
  | [] => buffer
  | c :: source =>
      if room buflen buffer 1 then
        if of_class URL_UNSAFE c then
          if negb (room buflen buffer 3) then buffer
          else url_encode_loop buflen source (buffer ++ [ch "%"; hex_high c; hex_low c])
        else url_encode_loop buflen source (buffer ++ [c])
      else buffer
  end.
Definition url_encode (buflen : Z) (source : bytes) : bytes := if buflen <=? 0 then [] else url_encode_loop buflen source [].
(** The size estimated when there is no buffer. *)
Definition url_encode_size (source : bytes) : Z := Z.of_nat (length source) * 3 + 1.

Fixpoint url_decode_loop (fuel : nat) (buflen : Z) (source buffer : bytes) : bytes :=
  match fuel, source with
  | S fuel, c :: source =>
      if room buflen buffer 1 then
        if same c (ch "+") then url_decode_loop fuel buflen source (buffer ++ [ch " "])
        else
          match hex_escape (ch "%") c source with
          | Some c => url_decode_loop fuel buflen (drop 2 source) (buffer ++ [c])
          | None => url_decode_loop fuel buflen source (buffer ++ [c])
          end
      else buffer
  | _, _ => buffer
  end.
Definition url_decode (buflen : Z) (source : bytes) : bytes :=
  if buflen <=? 0 then [] else url_decode_loop (length source) buflen source [].
Definition url_decode_size (source : bytes) : Z := Z.of_nat (length source) + 1.

(** [s_transform] with these functions: the first call estimates the size. *)
Definition s_url_encode (source : bytes) : bytes := url_encode (url_encode_size source) source.
Definition s_url_decode (source : bytes) : bytes := url_decode (url_decode_size source) source.
(** ** UTF-8 *)

Definition trailer (c : byte) : bool := Z.land (byte.unsigned c) 192 =? 128.
(** The length and the value of the sequence that starts with [s0]; [None] for 0. *)
Definition utf8_decode (s0 : byte) (source : bytes) : option (nat * Z) :=
  let u0 := byte.unsigned s0 in
  if Z.land u0 128 =? 0 then Some (1%nat, u0)
  else
    match source with
    | s1 :: source =>
        if negb (trailer s1) then None
        else
          let value16 := Z.land (byte.unsigned s1) 63 in
          if Z.land u0 224 =? 192 then Some (2%nat, Z.lor (Z.shiftl (Z.land u0 31) 6) value16)
          else
            match source with
            | s2 :: source =>
                if negb (trailer s2) then None
                else
                  let value16 := Z.lor (Z.shiftl value16 6) (Z.land (byte.unsigned s2) 63) in
                  if Z.land u0 240 =? 224 then Some (3%nat, Z.lor (Z.shiftl (Z.land u0 15) 12) value16)
                  else
                    match source with
                    | s3 :: _ =>
                        if negb (trailer s3) then None
                        else
                          let value16 := Z.lor (Z.shiftl value16 6) (Z.land (byte.unsigned s3) 63) in
                          if Z.land u0 248 =? 240 then Some (4%nat, Z.lor (Z.shiftl (Z.land u0 7) 18) value16) else None
                    | [] => None
                    end
            | [] => None
            end
    | [] => None
    end.

(** [tag | static_cast<unsigned char>(v)] *)
Definition tagged (tag v : Z) : byte := mkbyte (Z.lor tag (u8 v)).
Definition utf8_encode (buflen value : Z) : option bytes :=
  if (value <=? 127) && (1 <=? buflen) then Some [mkbyte value]
  else if (value <=? 2047) && (2 <=? buflen) then Some [tagged 192 (Z.shiftr value 6); tagged 128 (Z.land value 63)]
  else if (value <=? 65535) && (3 <=? buflen) then
    Some [tagged 224 (Z.shiftr value 12); tagged 128 (Z.land (Z.shiftr value 6) 63); tagged 128 (Z.land value 63)]
  else if (value <=? 2097151) && (4 <=? buflen) then
    Some [tagged 240 (Z.shiftr value 18); tagged 128 (Z.land (Z.shiftr value 12) 63);
          tagged 128 (Z.land (Z.shiftr value 6) 63); tagged 128 (Z.land value 63)]
  else None.

(** ** XML and HTML *)

(** The escape sequence of a character of the class; the other characters fail
    the ASSERT of the switch. *)
Definition html_escape (c : byte) : bytes :=
  if same c (ch "<") then str "&lt;" else if same c (ch ">") then str "&gt;"
  else if same c (ch "'") then str "&#39;" else if same c (mkbyte 34) then str "&quot;"
  else if same c (ch "&") then str "&amp;" else [].
Definition xml_escape (c : byte) : bytes :=
  if same c (ch "<") then str "&lt;" else if same c (ch ">") then str "&gt;"
  else if same c (ch "'") then str "&apos;" else if same c (mkbyte 34) then str "&quot;"
  else if same c (ch "&") then str "&amp;" else [].

(** [sprintf("%lu")]: twenty digits hold every [unsigned long]. *)
Fixpoint print_digits (fuel : nat) (n : Z) : bytes :=
  match fuel with
  | 0%nat => []
  | S fuel => (if n <? 10 then [] else print_digits fuel (n / 10)) ++ [mkbyte (48 + n mod 10)]
  end.
Definition print_lu (n : Z) : bytes := print_digits 20 n.

Fixpoint html_encode_loop (fuel : nat) (buflen : Z) (source buffer : bytes) : bytes :=
  match fuel, source with
  | S fuel, c :: source =>
      if room buflen buffer 1 then
        if byte.unsigned c <? 128 then
          if of_class HTML_UNSAFE c then
            let escseq := html_escape c in
            if negb (room buflen buffer (Z.of_nat (length escseq))) then buffer
            else html_encode_loop fuel buflen source (buffer ++ escseq)
          else html_encode_loop fuel buflen source (buffer ++ [c])
        else
          let '(vallen, val) := match utf8_decode c source with Some r => r | None => (1%nat, byte.unsigned c) end in
          let escseq := str "&#" ++ print_lu val ++ str ";" in
          if negb (room buflen buffer (Z.of_nat (length escseq))) then buffer
          else html_encode_loop fuel buflen (drop (vallen - 1) source) (buffer ++ escseq)
      else buffer
  | _, _ => buffer
  end.
Definition html_encode (buflen : Z) (source : bytes) : bytes :=
  if buflen <=? 0 then [] else html_encode_loop (length source) buflen source [].

Fixpoint xml_encode_loop (buflen : Z) (source buffer : bytes) : bytes :=
  match source with
  | [] => buffer
  | c :: source =>
      if room buflen buffer 1 then
        if of_class XML_UNSAFE c then
          let escseq := xml_escape c in
          if negb (room buflen buffer (Z.of_nat (length escseq))) then buffer
          else xml_encode_loop buflen source (buffer ++ escseq)
        else xml_encode_loop buflen source (buffer ++ [c])
      else buffer
  end.
Definition xml_encode (buflen : Z) (source : bytes) : bytes := if buflen <=? 0 then [] else xml_encode_loop buflen source [].

(** [strtoul] of the C library: white space, a sign, [0x] in base 16, digits.
    The value and the number of characters read, which is 0 without digits. *)
Definition ULONG_MAX : Z := 2 ^ 64 - 1.
Definition isspace (c : byte) : bool := let c := byte.unsigned c in ((9 <=? c) && (c <=? 13)) || (c =? 32).
Definition digit_value (base : Z) (c : byte) : option Z :=
  v ← hex_decode_char c; if v <? base then Some v else None.
Fixpoint digits_value (base : Z) (text : bytes) (acc : Z) : Z * nat :=
  match text with
  | c :: text =>
      match digit_value base c with
      | Some v => let '(r, n) := digits_value base text (acc * base + v) in (r, S n)
      | None => (acc, 0%nat)
      end
  | [] => (acc, 0%nat)
  end.
Fixpoint skip_spaces (text : bytes) : bytes :=
  match text with c :: text' => if isspace c then skip_spaces text' else text | [] => [] end.
Definition strtoul_sign (t : bytes) : bool * bytes :=
  match t with
  | c :: t' => if same c (ch "-") then (true, t') else if same c (ch "+") then (false, t') else (false, t)
  | [] => (false, t)
  end.
Definition strtoul_0x (base : Z) (t : bytes) : bytes :=
  match t with
  | c0 :: c1 :: c2 :: _ =>
      if (base =? 16) && same c0 (ch "0") && (same c1 (ch "x") || same c1 (ch "X")) && bool_decide (is_Some (digit_value 16 c2))
      then drop 2 t else t
  | _ => t
  end.
Definition strtoul (text : bytes) (base : Z) : Z * nat :=
  let '(negative, t) := strtoul_sign (skip_spaces text) in
  let t := strtoul_0x base t in
  let '(v, n) := digits_value base t 0 in
  if (n =? 0)%nat then (0, 0%nat)
  else
    (if ULONG_MAX <? v then ULONG_MAX else if negative then (- v) mod 2 ^ 64 else v,
     (length text - length t + n)%nat).

Definition begins (prefix l : bytes) : bool := bool_decide (take (length prefix) l = prefix).
(** The reference after "&", at the head of [source]: its character and the rest
    of the text.  [beyond] is what lies in memory after the text. *)
Definition xml_number (beyond source : bytes) : option (Z * bytes) :=
  let '(int_base, digits) := if begins (str "x") source then (16, drop 1 source) else (10, source) in
  let '(val, n) := strtoul (digits ++ beyond) int_base in
  match drop n digits with
  | c :: rest => if same c (ch ";") then Some (val, rest) else None
  | [] => None
  end.
Fixpoint xml_decode_loop (fuel : nat) (buflen : Z) (beyond source buffer : bytes) : bytes :=
  match fuel, source with
  | S fuel, c :: source =>
      let next n c := xml_decode_loop fuel buflen beyond (drop n source) (buffer ++ [c]) in
      if room buflen buffer 1 then
        if negb (same c (ch "&")) then next 0%nat c
        else if begins (str "lt;") source then next 3%nat (ch "<")
        else if begins (str "gt;") source then next 3%nat (ch ">")
        else if begins (str "apos;") source then next 5%nat (ch "'")
        else if begins (str "quot;") source then next 5%nat (mkbyte 34)
        else if begins (str "amp;") source then next 4%nat (ch "&")
        else if begins (str "#") source then
          match xml_number beyond (drop 1 source) with
          | Some (val, rest) =>
              match utf8_encode (buflen - Z.of_nat (length buffer)) val with
              | Some esc => xml_decode_loop fuel buflen beyond rest (buffer ++ esc)
              | None => buffer
              end
          | None => buffer
          end
        else buffer
      else buffer
  | _, _ => buffer
  end.
Definition xml_decode (buflen : Z) (beyond source : bytes) : bytes :=
  if buflen <=? 0 then [] else xml_decode_loop (length source) buflen beyond source [].
Definition html_decode (buflen : Z) (beyond source : bytes) : bytes := xml_decode buflen beyond source.

(** [transform] with one of the functions of a buffer. *)
Definition transform (maxlen : Z) (source : bytes) (t : Z -> bytes -> bytes) : bytes := t (maxlen + 1) source.

(** ** Tokens *)

(** [field] is the text since [last]. *)
Fixpoint tokenize_loop (delimiter : byte) (source field : bytes) : list bytes :=
  match source with
  | [] => match field with [] => [] | _ => [field] end
  | c :: source =>
      if same c delimiter then (match field with [] => [] | _ => [field] end) ++ tokenize_loop delimiter source []
      else tokenize_loop delimiter source (field ++ [c])
  end.
Definition tokenize (source : bytes) (delimiter : byte) : list bytes := tokenize_loop delimiter source [].
Definition tokenize_append (source : bytes) (delimiter : byte) (fields : list bytes) : list bytes :=
  fields ++ tokenize source delimiter.
(** [std::string::find] of a character. *)
Fixpoint find_char (c : byte) (l : bytes) : option nat :=
  match l with [] => None | x :: l => if same x c then Some 0%nat else S <$> find_char c l end.
Fixpoint tokenize_marks_loop (fuel : nat) (remain_source : bytes) (delimiter start_mark end_mark : byte) (fields : list bytes) : list bytes :=
  match fuel, find_char start_mark remain_source with
  | S fuel, Some start_pos =>
      let pre_mark := if (0 <? start_pos)%nat then take (start_pos - 1) remain_source else [] in
      match find_char end_mark (drop (S start_pos) remain_source) with
      | None => tokenize_append remain_source delimiter fields
      | Some len =>
          tokenize_marks_loop fuel (drop (S start_pos + len + 1) remain_source) delimiter start_mark end_mark
            (tokenize_append pre_mark delimiter fields ++ [sub (S start_pos) len remain_source])
      end
  | _, _ => tokenize_append remain_source delimiter fields
  end.
Definition tokenize_marks (source : bytes) (delimiter start_mark end_mark : byte) : list bytes :=
  tokenize_marks_loop (length source) source delimiter start_mark end_mark [].
Fixpoint split_loop (delimiter : byte) (source field : bytes) : list bytes :=
  match source with
  | [] => [field]
  | c :: source =>
      if same c delimiter then field :: split_loop delimiter source [] else split_loop delimiter source (field ++ [c])
  end.
Definition split (source : bytes) (delimiter : byte) : list bytes := split_loop delimiter source [].

(** A [char], which is signed. *)
Definition schar (c : byte) : Z := let c := byte.unsigned c in if c <? 128 then c else c - 256.
Definition make_char_safe_for_filename (c : byte) : byte :=
  if schar c <? 32 then ch "_"
  else if bool_decide (c ∈ str "<>:/\|*?" ++ [mkbyte 34]) then ch "_" else c.

(** ** The other URL encoder (urlencode.cc)

    Its texts are C strings, which end at the first zero. *)

Definition pair_digit (c : byte) : option Z :=
  let c := byte.unsigned c in
  if (48 <=? c) && (c <=? 57) then Some (c - 48)
  else if (65 <=? c) && (c <=? 70) then Some (c - 65 + 10)
  else if (97 <=? c) && (c <=? 102) then Some (c - 97 + 10)
  else None.
Definition HexPairValue (c1 c2 : byte) : Z :=
  match pair_digit c1 with
  | Some d1 => match pair_digit c2 with Some d2 => Z.shiftl d1 4 + d2 | None => -1 end
  | None => -1
  end.
Fixpoint InternalUrlDecode_loop (fuel : nat) (source : bytes) (encode_space_as_plus : bool) : bytes :=
  match fuel, source with
  | S fuel, c :: source =>
      let next n d := d :: InternalUrlDecode_loop fuel (drop n source) encode_space_as_plus in
      if same c NUL then []
      else if same c (ch "+") then if encode_space_as_plus then next 0%nat (ch " ") else next 0%nat c
      else if same c (ch "%") then
        match source with
        | c1 :: c2 :: _ =>
            if negb (same c1 NUL) && negb (same c2 NUL) then
              let value := HexPairValue c1 c2 in
              if 0 <=? value then next 2%nat (mkbyte value) else next 0%nat (ch "?")
            else next 0%nat (ch "?")
        | _ => next 0%nat (ch "?")
        end
      else next 0%nat c
  | _, _ => []
  end.
Definition InternalUrlDecode (source : bytes) (encode_space_as_plus : bool) : bytes :=
  InternalUrlDecode_loop (length source) source encode_space_as_plus.
Definition UrlDecode (source : bytes) : bytes := InternalUrlDecode source true.
Definition UrlDecodeWithoutEncodingSpaceAsPlus (source : bytes) : bytes := InternalUrlDecode source false.

(** [isalnum] of the C locale. *)
Definition isalnum (c : byte) : bool :=
  let c := byte.unsigned c in ((48 <=? c) && (c <=? 57)) || ((65 <=? c) && (c <=? 90)) || ((97 <=? c) && (c <=? 122)).
Definition IsValidUrlChar (c : byte) (unsafe_only : bool) : bool :=
  if unsafe_only then negb ((schar c <=? 32) || strchr (str "\^&`<>[]{}" ++ [mkbyte 34]) c)
  else isalnum c || strchr (str "-_.!~*'()") c.
Definition upper_digits : bytes := str "0123456789ABCDEF".
Definition upper_digit (v : Z) : byte := nth (Z.to_nat v) upper_digits NUL.
Fixpoint InternalUrlEncode_loop (source dest : bytes) (max : Z) (encode_space_as_plus unsafe_only : bool) : bytes :=
  match source with
  | [] => dest
  | c :: source =>
      let next d := InternalUrlEncode_loop source (dest ++ d) max encode_space_as_plus unsafe_only in
      if (Z.of_nat (length dest) <? max) && negb (same c NUL) then
        if same c (ch " ") && encode_space_as_plus && negb unsafe_only then next [ch "+"]
        else if IsValidUrlChar c unsafe_only then next [c]
        else if max <? Z.of_nat (length dest) + 4 then dest
        else next [ch "%"; upper_digit (Z.land (Z.shiftr (byte.unsigned c) 4) 15); upper_digit (Z.land (byte.unsigned c) 15)]
      else dest
  end.
(** [None] when the ASSERT before the final zero fails. *)
Definition InternalUrlEncode (source : bytes) (max : Z) (encode_space_as_plus unsafe_only : bool) : option bytes :=
  if max =? 0 then Some []
  else
    let dest := InternalUrlEncode_loop source [] max encode_space_as_plus unsafe_only in
    if Z.of_nat (length dest) <? max then Some dest else None.
Definition UrlEncode (source : bytes) (max : Z) : option bytes := InternalUrlEncode source max true false.
Definition UrlEncodeWithoutEncodingSpaceAsPlus (source : bytes) (max : Z) : option bytes := InternalUrlEncode source max false false.
Definition UrlEncodeOnlyUnsafeChars (source : bytes) (max : Z) : option bytes := InternalUrlEncode source max false true.

(** The C string of a [std::string]. *)
Fixpoint c_str (s : bytes) : bytes := match s with [] => [] | c :: s => if same c NUL then [] else c :: c_str s end.
Definition InternalUrlDecodeString (encoded : bytes) (encode_space_as_plus : bool) : bytes :=
  c_str (InternalUrlDecode encoded encode_space_as_plus).
Definition UrlDecodeString (encoded : bytes) : bytes := InternalUrlDecodeString encoded true.
Definition UrlDecodeStringWithoutEncodingSpaceAsPlus (encoded : bytes) : bytes := InternalUrlDecodeString encoded false.
Definition InternalUrlEncodeString (decoded : bytes) (encode_space_as_plus unsafe_only : bool) : option bytes :=
  c_str <$> InternalUrlEncode decoded (Z.of_nat (length decoded) * 3 + 1) encode_space_as_plus unsafe_only.
Definition UrlEncodeString (decoded : bytes) : option bytes := InternalUrlEncodeString decoded true false.
Definition UrlEncodeStringWithoutEncodingSpaceAsPlus (decoded : bytes) : option bytes := InternalUrlEncodeString decoded false false.
Definition UrlEncodeStringForOnlyUnsafeChars (decoded : bytes) : option bytes := InternalUrlEncodeString decoded false true.
(** ** Transducers

    Every codec reads its text in pieces and writes one piece for each. *)

Section transduce.
Context {A : Type} (P : A -> Prop) (buflen : Z) (loop : nat -> bytes -> bytes -> bytes) (inp outp : A -> bytes).
Context (loop_end : forall fuel buffer, loop fuel [] buffer = buffer).
Context (loop_step : forall fuel a source buffer,
  P a -> room buflen buffer (Z.of_nat (length (outp a))) = true -> (length (inp a ++ source) <= fuel)%nat ->
  exists fuel', (length source <= fuel')%nat /\ loop fuel (inp a ++ source) buffer = loop fuel' source (buffer ++ outp a)).

Lemma transduce l fuel buffer :
  Forall P l -> (length (flat_map inp l) <= fuel)%nat -> Z.of_nat (length buffer + length (flat_map outp l)) < buflen ->
  loop fuel (flat_map inp l) buffer = buffer ++ flat_map outp l.
Proof using loop_end loop_step.
  intros HP. revert fuel buffer. induction HP as [|a l Ha HP IH]; intros fuel buffer Hf Hb; cbn [flat_map] in *.
  - rewrite app_nil_r. apply loop_end.
  - rewrite length_app in Hb.
    destruct (loop_step fuel a (flat_map inp l) buffer) as (fuel' & Hf' & ->);
      [done | unfold room; apply Z.ltb_lt; lia | done |].
    rewrite IH, app_assoc; [done | done |]. rewrite length_app. lia.
Qed.
End transduce.

Lemma flat_map_single (l : bytes) : flat_map (fun c => [c]) l = l.
Proof. induction l; cbn; congruence. Qed.
Lemma room_weaken b l n m : room b l n = true -> m <= n -> room b l m = true.
Proof. unfold room. rewrite !Z.ltb_lt. lia. Qed.
Lemma room_app b l k n : room b (l ++ k) n = room b l (Z.of_nat (length k) + n).
Proof. unfold room. rewrite length_app. f_equal. lia. Qed.
Lemma same_refl c : same c c = true.
Proof. by apply bool_decide_eq_true. Qed.
Lemma same_true c d : same c d = true <-> c = d.
Proof. apply bool_decide_eq_true. Qed.
Lemma same_false c d : same c d = false <-> c <> d.
Proof. apply bool_decide_eq_false. Qed.

(** A boolean fact of all characters, by trying them. *)
Definition all_chars : bytes := (fun n => mkbyte (Z.of_nat n)) <$> seq 0 256.
Lemma in_all_chars c : c ∈ all_chars.
Proof.
  apply list_elem_of_fmap. exists (Z.to_nat (byte.unsigned c)). pose proof (unsigned_range c) as Hc. split.
  - apply byte.unsigned_inj. rewrite unsigned_mkbyte. word_unfold. rewrite Z.mod_small; lia.
  - apply elem_of_seq. word_unfold. lia.
Qed.
Lemma every_char (P : byte -> bool) : forallb P all_chars = true -> forall c, P c = true.
Proof. rewrite forallb_forall. intros H c. apply H, list_elem_of_In, in_all_chars. Qed.
Ltac each_char P := apply (every_char P); vm_compute; reflexivity.

(** Two hexadecimal digits give the byte back. *)
Definition hex_ok (c : byte) : bool :=
  match hex_decode_char (hex_high c), hex_decode_char (hex_low c) with
  | Some h1, Some h2 => same (hex_pair h1 h2) c
  | _, _ => false
  end.
Lemma hex_inverse c : exists h1 h2,
  hex_decode_char (hex_high c) = Some h1 /\ hex_decode_char (hex_low c) = Some h2 /\ hex_pair h1 h2 = c.
Proof.
  assert (H : hex_ok c = true) by each_char hex_ok. unfold hex_ok in H.
  destruct (hex_decode_char (hex_high c)) as [h1|], (hex_decode_char (hex_low c)) as [h2|]; try done.
  apply same_true in H. eauto.
Qed.
Lemma hex_escape_inverse esc c source : hex_escape esc esc (hex_high c :: hex_low c :: source) = Some c.
Proof. cbn. rewrite same_refl. destruct (hex_inverse c) as (h1 & h2 & -> & -> & <-). done. Qed.
Lemma hex_escape_other esc c source : c <> esc -> hex_escape esc c source = None.
Proof. intros H%same_false. unfold hex_escape. rewrite H. destruct source as [|? [|]]; done. Qed.

(** ** The pieces *)

Definition escape_piece (illegal : bytes) (esc c : byte) : bytes := if same c esc || strchr illegal c then [esc; c] else [c].
Definition encode_piece (illegal : bytes) (esc c : byte) : bytes :=
  if negb (same c esc) && negb (strchr illegal c) then [c] else [esc; hex_high c; hex_low c].
Definition url_piece (c : byte) : bytes := if of_class URL_UNSAFE c then [ch "%"; hex_high c; hex_low c] else [c].
Definition xml_piece (c : byte) : bytes := if of_class XML_UNSAFE c then xml_escape c else [c].

(** The encoders write the piece of every character. *)
Lemma transduce_chars buflen (loop : bytes -> bytes -> bytes) (outp : byte -> bytes) :
  (forall buffer, loop [] buffer = buffer) ->
  (forall c source buffer, room buflen buffer (Z.of_nat (length (outp c))) = true ->
     loop (c :: source) buffer = loop source (buffer ++ outp c)) ->
  forall source buffer, Z.of_nat (length buffer + length (flat_map outp source)) < buflen ->
  loop source buffer = buffer ++ flat_map outp source.
Proof.
  intros He Hs source buffer H. rewrite <- (flat_map_single source) at 1.
  apply (transduce (fun _ => True) buflen (fun _ => loop) (fun c => [c]) outp) with (length source);
    [done | | by apply Forall_true | rewrite flat_map_single; lia | done].
  intros fuel c rest b _ Hroom Hf. exists fuel. split; [cbn in Hf; lia | by apply Hs].
Qed.
Ltac roomy :=
  match goal with H : room _ _ _ = true |- _ => cbn [length] in H; rewrite ?(room_weaken _ _ _ _ H) by lia end.
Lemma escape_loop_all buflen illegal esc source buffer :
  Z.of_nat (length buffer + length (flat_map (escape_piece illegal esc) source)) < buflen ->
  escape_loop buflen illegal esc source buffer = buffer ++ flat_map (escape_piece illegal esc) source.
Proof.
  apply transduce_chars; [done|]. intros c rest b. cbn [escape_loop]. unfold escape_piece.
  destruct (same c esc || strchr illegal c); intros; roomy; [rewrite <- app_assoc|]; done.
Qed.
Lemma encode_loop_all buflen illegal esc source buffer :
  Z.of_nat (length buffer + length (flat_map (encode_piece illegal esc) source)) < buflen ->
  encode_loop buflen illegal esc source buffer = buffer ++ flat_map (encode_piece illegal esc) source.
Proof.
  apply transduce_chars; [done|]. intros c rest b. cbn [encode_loop]. unfold encode_piece.
  destruct (negb (same c esc) && negb (strchr illegal c)); intros; roomy; done.
Qed.
Lemma url_encode_loop_all buflen source buffer :
  Z.of_nat (length buffer + length (flat_map url_piece source)) < buflen ->
  url_encode_loop buflen source buffer = buffer ++ flat_map url_piece source.
Proof.
  apply transduce_chars; [done|]. intros c rest b. cbn [url_encode_loop]. unfold url_piece.
  destruct (of_class URL_UNSAFE c); intros; roomy; done.
Qed.

(** The characters that XML and HTML escape. *)
Definition xml_special : bytes := [ch "<"; ch ">"; ch "'"; mkbyte 34; ch "&"].
Lemma xml_class c : of_class XML_UNSAFE c = bool_decide (c ∈ xml_special).
Proof. apply eqb_prop. each_char (fun c => eqb (of_class XML_UNSAFE c) (bool_decide (c ∈ xml_special))). Qed.
Ltac special H :=
  rewrite bool_decide_eq_true in H; unfold xml_special in H;
  repeat (apply elem_of_cons in H as [-> | H]); [.. | by apply elem_of_nil in H].
Lemma xml_encode_loop_all buflen source buffer :
  Z.of_nat (length buffer + length (flat_map xml_piece source)) < buflen ->
  xml_encode_loop buflen source buffer = buffer ++ flat_map xml_piece source.
Proof.
  apply transduce_chars; [done|]. intros c rest b. cbn [xml_encode_loop]. unfold xml_piece. rewrite xml_class.
  destruct (bool_decide _) eqn:Hc; intros H.
  - rewrite H. rewrite (room_weaken _ _ _ 1 H); [done|]. special Hc; by vm_compute.
  - roomy. done.
Qed.

(** ** The decoders *)

Lemma transduce_back buflen (loop : nat -> bytes -> bytes -> bytes) (inp : byte -> bytes) :
  (forall fuel buffer, loop fuel [] buffer = buffer) ->
  (forall fuel c source buffer, room buflen buffer 1 = true -> (length (inp c ++ source) <= S fuel)%nat ->
     exists fuel', (length source <= fuel')%nat /\ loop (S fuel) (inp c ++ source) buffer = loop fuel' source (buffer ++ [c])) ->
  (forall c, inp c <> []) ->
  forall source fuel buffer, (length (flat_map inp source) <= fuel)%nat -> Z.of_nat (length buffer + length source) < buflen ->
  loop fuel (flat_map inp source) buffer = buffer ++ source.
Proof.
  intros He Hs Hi source fuel buffer Hf Hb. rewrite <- (flat_map_single source) at 2.
  apply (transduce (fun _ => True) buflen loop inp (fun c => [c])); [done | | by apply Forall_true | done | by rewrite flat_map_single].
  intros [|fu] c rest b _ Hroom Hl; [|by apply Hs].
  specialize (Hi c). destruct (inp c); [done | cbn in Hl; lia].
Qed.

Lemma unescape_loop_all buflen illegal esc source buffer :
  Z.of_nat (length buffer + length source) < buflen ->
  unescape_loop buflen esc (flat_map (escape_piece illegal esc) source) buffer = buffer ++ source.
Proof.
  revert buffer. induction source as [|c source IH]; intros buffer H; cbn [flat_map length] in *; [by rewrite app_nil_r|].
  assert (Hroom : room buflen buffer 1 = true) by (apply Z.ltb_lt; lia).
  assert (Hnext : forall x, unescape_loop buflen esc (flat_map (escape_piece illegal esc) source) (buffer ++ [x]) = buffer ++ x :: source).
  { intros x. rewrite IH, <- app_assoc; [done|]. rewrite length_app. cbn. lia. }
  unfold escape_piece at 1. destruct (same c esc || strchr illegal c) eqn:E; cbn [app unescape_loop].
  - rewrite Hroom, same_refl. apply Hnext.
  - rewrite Hroom. apply orb_false_iff in E as [E _]. rewrite E.
    specialize (Hnext c). destruct (flat_map _ source); apply Hnext.
Qed.
Lemma decode_loop_all buflen illegal esc source fuel buffer :
  (length (flat_map (encode_piece illegal esc) source) <= fuel)%nat -> Z.of_nat (length buffer + length source) < buflen ->
  decode_loop fuel buflen esc (flat_map (encode_piece illegal esc) source) buffer = buffer ++ source.
Proof.
  apply (transduce_back buflen (fun f => decode_loop f buflen esc)); [by intros [] | | intros c; unfold encode_piece; by case_match].
  intros fu c rest b Hroom Hf; unfold encode_piece in *.
  destruct (negb (same c esc) && negb (strchr illegal c)) eqn:E; cbn [app decode_loop length] in *; exists fu; (split; [lia|]); roomy.
  - apply andb_true_iff in E as [E%negb_true_iff%same_false _]. rewrite hex_escape_other by done. done.
  - rewrite hex_escape_inverse. done.
Qed.
Lemma url_piece_nonempty c : url_piece c <> [].
Proof. unfold url_piece. by case_match. Qed.
Lemma url_decode_loop_all buflen source fuel buffer :
  (length (flat_map url_piece source) <= fuel)%nat -> Z.of_nat (length buffer + length source) < buflen ->
  url_decode_loop fuel buflen (flat_map url_piece source) buffer = buffer ++ source.
Proof.
  apply (transduce_back buflen (fun f => url_decode_loop f buflen)); [by intros [] | | apply url_piece_nonempty].
  intros fu c rest b Hroom Hf; unfold url_piece in *.
  destruct (of_class URL_UNSAFE c) eqn:E; cbn [app url_decode_loop length] in *; exists fu; (split; [lia|]); roomy.
  - change (same (ch "%") (ch "+")) with false. cbv iota. rewrite hex_escape_inverse. done.
  - assert (same c (ch "+") = false) as -> by (apply same_false; by intros ->).
    rewrite hex_escape_other by (by intros ->). done.
Qed.
Lemma begins_cons x y p l : begins (x :: p) (y :: l) = same y x && begins p l.
Proof.
  unfold begins, same. cbn. apply eq_true_iff_eq. rewrite andb_true_iff, !bool_decide_eq_true. split; [by intros [= -> ->] | by intros [-> ->]].
Qed.
Lemma begins_nil l : begins [] l = true.
Proof. done. Qed.
(** Comparisons of two literal characters. *)
Ltac literal :=
  repeat match goal with |- context [same ?a ?b] => let v := eval vm_compute in (same a b) in
    lazymatch v with true => idtac | false => idtac end; change (same a b) with v end; cbn [andb negb].
Lemma xml_piece_nonempty c : xml_piece c <> [].
Proof. unfold xml_piece. rewrite xml_class. destruct (bool_decide _) eqn:Hc; [|done]. special Hc; done. Qed.
Lemma xml_decode_piece buflen beyond fu c rest b : room buflen b 1 = true ->
  xml_decode_loop (S fu) buflen beyond (xml_piece c ++ rest) b = xml_decode_loop fu buflen beyond rest (b ++ [c]).
Proof.
  intros Hroom. unfold xml_piece. rewrite xml_class. destruct (bool_decide _) eqn:Hc.
  - special Hc; unfold xml_escape; literal; cbn -[same begins room]; rewrite Hroom; literal; rewrite ?begins_cons, ?begins_nil; literal; done.
  - cbn [xml_decode_loop app]. rewrite Hroom.
    assert (same c (ch "&") = false) as ->; [|done]. apply same_false. intros ->. done.
Qed.
Lemma xml_decode_loop_all buflen beyond source fuel buffer :
  (length (flat_map xml_piece source) <= fuel)%nat -> Z.of_nat (length buffer + length source) < buflen ->
  xml_decode_loop fuel buflen beyond (flat_map xml_piece source) buffer = buffer ++ source.
Proof.
  apply (transduce_back buflen (fun f => xml_decode_loop f buflen beyond)); [by intros [] | | apply xml_piece_nonempty].
  intros fu c rest b Hroom Hf. exists fu. rewrite length_app in Hf. split; [|by apply xml_decode_piece].
  pose proof (xml_piece_nonempty c). destruct (xml_piece c); [done | cbn in Hf; lia].
Qed.

Lemma hex_decode_loop_all buflen source buffer :
  Z.of_nat (length buffer + length source) < buflen ->
  hex_decode_loop buflen (hex_encode_loop source) buffer = buffer ++ source.
Proof.
  revert buffer. induction source as [|c source IH]; intros buffer H; cbn [hex_encode_loop hex_decode_loop length] in *; [by rewrite app_nil_r|].
  assert (room buflen buffer 1 = true) as -> by (apply Z.ltb_lt; lia).
  destruct (hex_inverse c) as (h1 & h2 & -> & -> & ->). rewrite IH, <- app_assoc; [done|]. rewrite length_app. cbn. lia.
Qed.
Lemma pieces_length {A} (piece : A -> bytes) k l : (forall a, length (piece a) <= k)%nat -> (length (flat_map piece l) <= k * length l)%nat.
Proof. intros H. induction l as [|a l IH]; cbn; [lia|]. rewrite length_app. specialize (H a). lia. Qed.
Lemma pieces_length_ge {A} (piece : A -> bytes) l : (forall a, piece a <> []) -> (length l <= length (flat_map piece l))%nat.
Proof. intros H. induction l as [|a l IH]; cbn; [lia|]. rewrite length_app. specialize (H a). destruct (piece a); [done | cbn; lia]. Qed.
Lemma escape_piece_length illegal esc c : (length (escape_piece illegal esc c) <= 2)%nat.
Proof. unfold escape_piece. case_match; cbn; lia. Qed.
Lemma encode_piece_length illegal esc c : (length (encode_piece illegal esc c) <= 3)%nat.
Proof. unfold encode_piece. case_match; cbn; lia. Qed.
Lemma url_piece_length c : (length (url_piece c) <= 3)%nat.
Proof. unfold url_piece. case_match; cbn; lia. Qed.
Lemma xml_piece_length c : (length (xml_piece c) <= 6)%nat.
Proof. apply Nat.leb_le. each_char (fun c => (length (xml_piece c) <=? 6)%nat). Qed.

Lemma big_buffer buflen : 0 < buflen -> (buflen <=? 0) = false.
Proof. rewrite Z.leb_gt. lia. Qed.
Lemma hex_encode_string_all source : hex_encode_string source = hex_encode_loop source.
Proof.
  unfold hex_encode_string, hex_encode. rewrite big_buffer by lia. rewrite take_ge; [done|].
  replace (Z.of_nat (length source) * 2 + 1 - 1) with (Z.of_nat (length source) * 2) by lia. rewrite Z.div_mul by lia. lia.
Qed.

(** C31. What the five encoders write is decoded to the text they read, when the
    buffers hold the longest encoding and the text. *)
Theorem text_codec_roundtrip (source illegal : bytes) (esc : byte) (beyond : bytes) (b1 b2 : Z) :
  6 * Z.of_nat (length source) < b1 -> Z.of_nat (length source) < b2 ->
  unescape b2 (escape b1 source illegal esc) esc = source /\
  decode b2 (encode b1 source illegal esc) esc = source /\
  hex_decode b2 (hex_encode_string source) = source /\
  url_decode b2 (url_encode b1 source) = source /\ s_url_decode (s_url_encode source) = source /\
  xml_decode b2 beyond (xml_encode b1 source) = source.
Proof.
  intros H1 H2.
  pose proof (pieces_length _ 2 source (escape_piece_length illegal esc)).
  pose proof (pieces_length _ 3 source (encode_piece_length illegal esc)).
  pose proof (pieces_length _ 3 source url_piece_length). pose proof (pieces_length _ 6 source xml_piece_length).
  assert (Hurl : forall b, Z.of_nat (length (flat_map url_piece source)) < b -> url_encode b source = flat_map url_piece source).
  { intros. unfold url_encode. rewrite big_buffer, url_encode_loop_all by (cbn; lia). done. }
  assert (Hdec : forall b, Z.of_nat (length source) < b -> url_decode b (flat_map url_piece source) = source).
  { intros. unfold url_decode. rewrite big_buffer, url_decode_loop_all by (cbn; lia). done. }
  unfold unescape, escape, decode, encode, hex_decode, xml_decode, xml_encode. rewrite !(big_buffer b1), !(big_buffer b2) by lia.
  rewrite escape_loop_all by (cbn; lia). cbn [app]. rewrite unescape_loop_all by (cbn; lia).
  rewrite encode_loop_all by (cbn; lia). cbn [app]. rewrite decode_loop_all by (cbn; lia).
  rewrite hex_encode_string_all, hex_decode_loop_all by (cbn; lia).
  rewrite xml_encode_loop_all by (cbn; lia). cbn [app]. rewrite xml_decode_loop_all by (cbn; lia).
  rewrite Hurl, Hdec by lia. repeat (split; [done|]). split; [|done]. unfold s_url_encode, s_url_decode, url_encode_size, url_decode_size. rewrite Hurl by lia.
  apply Hdec. pose proof (pieces_length_ge _ source url_piece_nonempty). lia.
Qed.


(** ** UTF-8 *)

Definition sextets : list Z := Z.of_nat <$> seq 0 64.
Lemma every_sextet (P : Z -> bool) k v : forallb (fun v => implb (v <? k) (P v)) sextets = true -> k <= 64 -> 0 <= v < k -> P v = true.
Proof.
  rewrite forallb_forall. intros H Hk Hv. specialize (H v). rewrite (proj2 (Z.ltb_lt _ _)) in H by lia.
  apply H, list_elem_of_In, list_elem_of_fmap. exists (Z.to_nat v). split; [lia|]. apply elem_of_seq. lia.
Qed.
Definition masked (tag mask v : Z) : Z := Z.land (byte.unsigned (tagged tag v)) mask.
Ltac by_sextets P k := apply (every_sextet P k); [vm_compute; reflexivity | lia | lia].
(** The bits of the bytes of a sequence. *)
Lemma trailer_bits v : 0 <= v < 64 -> trailer (tagged 128 v) = true /\ masked 128 63 v = v.
Proof.
  intros H. split; [unfold trailer; fold (masked 128 192 v); by_sextets (fun v => masked 128 192 v =? 128) 64 | apply Z.eqb_eq; by_sextets (fun v => masked 128 63 v =? v) 64].
Qed.
Definition lead_ok (tag k v : Z) : bool :=
  (masked tag 128 v =? 128) && (masked tag (k - 1) v =? v) && (masked tag (255 - (k - 1)) v =? tag) && (128 <=? byte.unsigned (tagged tag v)).
Lemma lead_bits tag k v : (tag, k) ∈ [(192, 32); (224, 16); (240, 8)] -> 0 <= v < k ->
  masked tag 128 v = 128 /\ masked tag (k - 1) v = v /\ masked tag (255 - (k - 1)) v = tag /\ 128 <= byte.unsigned (tagged tag v).
Proof.
  intros Hin Hv. assert (H : lead_ok tag k v = true).
  { repeat (apply elem_of_cons in Hin as [[= -> ->] | Hin]); [.. | by apply elem_of_nil in Hin].
    - by_sextets (lead_ok 192 32) 32.
    - by_sextets (lead_ok 224 16) 16.
    - by_sextets (lead_ok 240 8) 8. }
  unfold lead_ok in H. rewrite !andb_true_iff, !Z.eqb_eq, Z.leb_le in H. tauto.
Qed.
Definition utf8 (v : Z) : bytes := default [] (utf8_encode 4 v).
Lemma mod_pow2 v k : 0 <= k -> Z.land v (2 ^ k - 1) = v mod 2 ^ k.
Proof. intros. rewrite <- Z.land_ones by done. rewrite Z.ones_equiv. done. Qed.
Lemma tagged_u8 tag v : tagged tag (u8 v) = tagged tag v.
Proof. unfold tagged. f_equal. f_equal. apply u8_small, u8_range. Qed.

(** The value, in groups of six bits. *)
Lemma utf8_decode_1 v rest : 0 <= v < 128 -> utf8_decode (mkbyte v) rest = Some (1%nat, v).
Proof.
  intros H. unfold utf8_decode. rewrite unsigned_mkbyte_small by word_lia.
  replace (Z.land v 128) with 0; [done|]. symmetry. apply Z.bits_inj'. intros n Hn. rewrite Z.land_spec, Z.bits_0.
  apply andb_false_iff. destruct (Z.eq_dec n 7) as [->|].
  - left. apply (Z.testbit_false v 7); [lia|]. rewrite Z.div_small by lia. done.
  - right. apply (Z.pow2_bits_false 7). lia.
Qed.
Lemma masked_fold tag mask v : Z.land (byte.unsigned (tagged tag v)) mask = masked tag mask v.
Proof. done. Qed.
Lemma utf8_decode_2 d a rest : 0 <= d < 32 -> 0 <= a < 64 ->
  utf8_decode (tagged 192 d) (tagged 128 a :: rest) = Some (2%nat, d * 64 + a).
Proof.
  intros Hd Ha. unfold utf8_decode. destruct (trailer_bits a Ha) as [-> Ma].
  destruct (lead_bits 192 32 d) as (M0 & M1 & M2 & _); [by left | done |].
  rewrite !masked_fold. change (255 - (32 - 1)) with 224 in M2. change (32 - 1) with 31 in M1. rewrite M0, M1, M2, Ma.
  cbn [Z.eqb Pos.eqb negb]. rewrite lor_shiftl by lia. done.
Qed.
Lemma utf8_decode_3 d b a rest : 0 <= d < 16 -> 0 <= b < 64 -> 0 <= a < 64 ->
  utf8_decode (tagged 224 d) (tagged 128 b :: tagged 128 a :: rest) = Some (3%nat, (d * 64 + b) * 64 + a).
Proof.
  intros Hd Hb Ha. unfold utf8_decode. destruct (trailer_bits a Ha) as [-> Ma]. destruct (trailer_bits b Hb) as [-> Mb].
  destruct (lead_bits 224 16 d) as (M0 & M1 & M2 & _); [by right; left | done |].
  assert (M3 : masked 224 224 d = 224) by (apply Z.eqb_eq; by_sextets (fun d => masked 224 224 d =? 224) 16).
  rewrite !masked_fold. change (255 - (16 - 1)) with 240 in M2. change (16 - 1) with 15 in M1. rewrite M0, M1, M2, M3, Ma, Mb.
  cbn [Z.eqb Pos.eqb negb]. rewrite (lor_shiftl b a), lor_shiftl by lia. do 2 f_equal. lia.
Qed.
Lemma utf8_decode_4 d c b a rest : 0 <= d < 8 -> 0 <= c < 64 -> 0 <= b < 64 -> 0 <= a < 64 ->
  utf8_decode (tagged 240 d) (tagged 128 c :: tagged 128 b :: tagged 128 a :: rest) = Some (4%nat, ((d * 64 + c) * 64 + b) * 64 + a).
Proof.
  intros Hd Hc Hb Ha. unfold utf8_decode. destruct (trailer_bits a Ha) as [-> Ma].
  destruct (trailer_bits b Hb) as [-> Mb]. destruct (trailer_bits c Hc) as [-> Mc].
  destruct (lead_bits 240 8 d) as (M0 & M1 & M2 & _); [by right; right; left | done |].
  assert (M3 : masked 240 224 d = 224) by (apply Z.eqb_eq; by_sextets (fun d => masked 240 224 d =? 224) 8).
  assert (M4 : masked 240 240 d = 240) by (apply Z.eqb_eq; by_sextets (fun d => masked 240 240 d =? 240) 8).
  rewrite !masked_fold. change (255 - (8 - 1)) with 248 in M2. change (8 - 1) with 7 in M1. rewrite M0, M1, M2, M3, M4, Ma, Mb, Mc.
  cbn [Z.eqb Pos.eqb negb]. rewrite (lor_shiftl c b), (lor_shiftl (_ + b) a), lor_shiftl by lia. do 2 f_equal. lia.
Qed.

(** The groups of a value. *)
Lemma group6 v k : 0 <= k -> Z.land (Z.shiftr v k) 63 = (v / 2 ^ k) mod 64.
Proof. intros. rewrite Z.shiftr_div_pow2 by done. apply (mod_pow2 _ 6). lia. Qed.
Lemma utf8_split v buflen : 0 <= v < 2097152 -> 4 <= buflen ->
  utf8_encode buflen v = Some (
    if v <? 128 then [mkbyte v]
    else if v <? 2048 then [tagged 192 (v / 64); tagged 128 (v mod 64)]
    else if v <? 65536 then [tagged 224 (v / 4096); tagged 128 (v / 64 mod 64); tagged 128 (v mod 64)]
    else [tagged 240 (v / 262144); tagged 128 (v / 4096 mod 64); tagged 128 (v / 64 mod 64); tagged 128 (v mod 64)]).
Proof.
  intros Hv Hb. unfold utf8_encode. rewrite !group6 by lia. rewrite !Z.shiftr_div_pow2 by lia.
  replace (Z.land v 63) with (v mod 64) by (symmetry; apply (mod_pow2 v 6); lia).
  repeat match goal with |- context [?a && ?b] => let E := fresh in destruct (a && b) eqn:E end; rewrite ?andb_true_iff, ?andb_false_iff, ?Z.leb_le, ?Z.leb_gt in *.
  all: repeat match goal with |- context [?a <? ?b] => destruct (Z.ltb_spec a b) end; try lia; done.
Qed.
(** Every value below 2^21 is decoded from its sequence, in front of any text. *)
Lemma utf8_cons v : 0 <= v < 2097152 ->
  exists c cs, utf8 v = c :: cs /\ (forall rest, utf8_decode c (cs ++ rest) = Some (length (utf8 v), v)) /\
    (byte.unsigned c <? 128) = (v <? 128) /\ (v < 128 -> c = mkbyte v /\ cs = []).
Proof.
  intros Hv. unfold utf8. rewrite utf8_split by lia. cbn [default from_option].
  destruct (Z.ltb_spec v 128) as [H1|H1]; [|destruct (Z.ltb_spec v 2048) as [H2|H2]; [|destruct (Z.ltb_spec v 65536) as [H3|H3]]];
    eexists _, _; (split; [reflexivity|]).
  - split; [intros; apply utf8_decode_1; lia|]. rewrite unsigned_mkbyte_small by word_lia. split; [by apply Z.ltb_lt | done].
  - split; [intros; cbn [app]; rewrite utf8_decode_2 by (Z.div_mod_to_equations; lia); do 2 f_equal; Z.div_mod_to_equations; lia|].
    split; [|lia]. apply Z.ltb_ge, (lead_bits 192 32); [by left | Z.div_mod_to_equations; lia].
  - split; [intros; cbn [app]; rewrite utf8_decode_3 by (Z.div_mod_to_equations; lia); do 2 f_equal; Z.div_mod_to_equations; lia|].
    split; [|lia]. apply Z.ltb_ge, (lead_bits 224 16); [by right; left | Z.div_mod_to_equations; lia].
  - split; [intros; cbn [app]; rewrite utf8_decode_4 by (Z.div_mod_to_equations; lia); do 2 f_equal; Z.div_mod_to_equations; lia|].
    split; [|lia]. apply Z.ltb_ge, (lead_bits 240 8); [by right; right; left | Z.div_mod_to_equations; lia].
Qed.
Lemma utf8_fits v buflen : 0 <= v < 2097152 -> Z.of_nat (length (utf8 v)) <= buflen -> utf8_encode buflen v = Some (utf8 v).
Proof.
  intros Hv. unfold utf8. unfold utf8_encode. cbn [Z.leb]. rewrite !andb_true_r.
  repeat match goal with |- context [?a <=? ?b] => destruct (Z.leb_spec a b) end; cbn; intros; try lia; done.
Qed.

(** ** Decimal numbers *)

Definition digit_ok (d : Z) : bool :=
  let c := mkbyte (48 + d) in
  bool_decide (digit_value 10 c = Some d) && negb (isspace c) && negb (same c (ch "-")) && negb (same c (ch "+")) && negb (same c (ch "x")).
Lemma digit_char d : 0 <= d < 10 ->
  digit_value 10 (mkbyte (48 + d)) = Some d /\ isspace (mkbyte (48 + d)) = false /\
  same (mkbyte (48 + d)) (ch "-") = false /\ same (mkbyte (48 + d)) (ch "+") = false /\ same (mkbyte (48 + d)) (ch "x") = false.
Proof.
  intros Hd. assert (H : digit_ok d = true) by by_sextets digit_ok 10.
  unfold digit_ok in H. rewrite !andb_true_iff, !negb_true_iff, bool_decide_eq_true in H. tauto.
Qed.
Lemma print_digits_value fuel n t : 0 <= n < 10 ^ Z.of_nat fuel -> (0 < fuel)%nat ->
  digits_value 10 (print_digits fuel n ++ t) 0 =
  let '(r, k) := digits_value 10 t n in (r, (length (print_digits fuel n) + k)%nat).
Proof.
  revert n t. induction fuel as [|fuel IH]; intros n t Hn Hf; [lia|]. cbn [print_digits].
  assert (Hd : 0 <= n mod 10 < 10) by (apply Z.mod_pos_bound; lia).
  assert (Hlast : forall a, digits_value 10 (mkbyte (48 + n mod 10) :: t) a =
    let '(r, k) := digits_value 10 t (a * 10 + n mod 10) in (r, S k)).
  { intros a. cbn [digits_value]. destruct (digit_char _ Hd) as [-> _]. done. }
  destruct (Z.ltb_spec n 10).
  - cbn [app]. rewrite Hlast. rewrite Z.mod_small by lia. destruct (digits_value 10 t _); done.
  - assert (Hq : 0 <= n / 10 < 10 ^ Z.of_nat fuel).
    { rewrite Nat2Z.inj_succ, Z.pow_succ_r in Hn by lia. Z.div_mod_to_equations; lia. }
    rewrite <- app_assoc. cbn [app]. rewrite IH; [|done|destruct fuel; [cbn in Hq; lia | lia]].
    rewrite Hlast. replace (n / 10 * 10 + n mod 10) with n by (Z.div_mod_to_equations; lia).
    destruct (digits_value 10 t n) as [r k]. rewrite length_app. cbn [length]. f_equal. lia.
Qed.
Lemma print_digits_head fuel n : 0 <= n -> exists d t, 0 <= d < 10 /\ print_digits (S fuel) n = mkbyte (48 + d) :: t.
Proof.
  revert n. induction fuel as [|fuel IH]; intros n Hn; pose proof (Z.mod_pos_bound n 10 ltac:(lia)).
  - cbn. exists (n mod 10), []. split; [lia|]. by case_match.
  - change (print_digits (S (S fuel)) n) with ((if n <? 10 then [] else print_digits (S fuel) (n / 10)) ++ [mkbyte (48 + n mod 10)]).
    destruct (Z.ltb_spec n 10); [by exists (n mod 10), []|].
    destruct (IH (n / 10)) as (d & t & Hd & ->); [Z.div_mod_to_equations; lia|]. eexists d, _. split; [done|]. reflexivity.
Qed.
Lemma strtoul_print n rest : 0 <= n < 2097152 ->
  strtoul (print_lu n ++ ch ";" :: rest) 10 = (n, length (print_lu n)).
Proof.
  intros Hn. unfold strtoul, print_lu. destruct (print_digits_head 19 n ltac:(lia)) as (d & t & Hd & E).
  destruct (digit_char d Hd) as (_ & Hs & Hm & Hp & _).
  assert (skip_spaces (print_digits 20 n ++ ch ";" :: rest) = print_digits 20 n ++ ch ";" :: rest) as ->.
  { rewrite E. cbn [app skip_spaces]. rewrite Hs. done. }
  assert (strtoul_sign (print_digits 20 n ++ ch ";" :: rest) = (false, print_digits 20 n ++ ch ";" :: rest)) as ->.
  { rewrite E. cbn [app strtoul_sign]. rewrite Hm, Hp. done. }
  assert (strtoul_0x 10 (print_digits 20 n ++ ch ";" :: rest) = print_digits 20 n ++ ch ";" :: rest) as ->.
  { unfold strtoul_0x. by destruct (_ ++ _) as [|? [|? [|? ?]]]. }
  rewrite print_digits_value by (cbn; lia). change (digits_value 10 (ch ";" :: rest) n) with (n, 0%nat).
  rewrite Nat.sub_diag, Nat.add_0_r. rewrite E at 1. cbn [length Nat.eqb].
  destruct (Z.ltb_spec ULONG_MAX n); [unfold ULONG_MAX in *; lia | done].
Qed.
Lemma xml_number_print beyond n rest : 0 <= n < 2097152 ->
  xml_number beyond (print_lu n ++ ch ";" :: rest) = Some (n, rest).
Proof.
  intros Hn. unfold xml_number.
  assert (begins (str "x") (print_lu n ++ ch ";" :: rest) = false) as ->.
  { unfold print_lu. destruct (print_digits_head 19 n ltac:(lia)) as (d & t & Hd & ->). destruct (digit_char d Hd) as (_ & _ & _ & _ & Hx).
    change (str "x") with [ch "x"]. cbn [app]. rewrite begins_cons, Hx. done. }
  rewrite <- app_assoc. cbn [app]. rewrite strtoul_print by done. rewrite drop_app_length, same_refl. done.
Qed.

(** ** HTML *)

(** What [html_encode] writes for a character. *)
Definition numeric (v : Z) : bytes := str "&#" ++ print_lu v ++ str ";".
Definition html_piece (v : Z) : bytes :=
  if v <? 128 then if of_class HTML_UNSAFE (mkbyte v) then html_escape (mkbyte v) else [mkbyte v] else numeric v.
Lemma print_digits_length fuel n k : n < 10 ^ Z.of_nat (S k) -> (length (print_digits fuel n) <= S k)%nat.
Proof.
  revert n k. induction fuel as [|fuel IH]; intros n k Hn; cbn [print_digits]; [cbn; lia|]. rewrite length_app. cbn [length].
  destruct (Z.ltb_spec n 10); [cbn; lia|]. destruct k as [|k]; [cbn in Hn; lia|].
  specialize (IH (n / 10) k). rewrite Nat2Z.inj_succ, Z.pow_succ_r in Hn by lia.
  assert (n / 10 < 10 ^ Z.of_nat (S k)) by (Z.div_mod_to_equations; lia). lia.
Qed.
(** The characters below 128 that HTML escapes. *)
Lemma html_class v : 0 <= v < 128 -> of_class HTML_UNSAFE (mkbyte v) = true -> v ∈ [60; 62; 39; 34; 38].
Proof.
  intros Hv H. change HTML_UNSAFE with XML_UNSAFE in H. rewrite xml_class in H. apply bool_decide_eq_true in H.
  assert (byte.unsigned (mkbyte v) ∈ byte.unsigned <$> xml_special) as Hin by (by apply list_elem_of_fmap_2).
  rewrite unsigned_mkbyte_small in Hin by word_lia. exact Hin.
Qed.
Ltac specials H := repeat (apply elem_of_cons in H as [-> | H]); [.. | by apply elem_of_nil in H].
Lemma html_piece_length v : 0 <= v < 2097152 -> (1 <= length (html_piece v) <= 10)%nat.
Proof.
  intros Hv. unfold html_piece, numeric. destruct (Z.ltb_spec v 128).
  - destruct (of_class _ _) eqn:E; [|cbn; lia]. apply html_class in E; [|lia]. specials E; vm_compute; lia.
  - rewrite !length_app. assert (length (print_lu v) <= 7)%nat by (apply print_digits_length; cbn; lia).
    change (length (str "&#")) with 2%nat. change (length (str ";")) with 1%nat. lia.
Qed.
Lemma html_encode_loop_all buflen l fuel buffer :
  Forall (fun v => 0 <= v < 2097152) l ->
  (length (flat_map utf8 l) <= fuel)%nat -> Z.of_nat (length buffer + length (flat_map html_piece l)) < buflen ->
  html_encode_loop fuel buflen (flat_map utf8 l) buffer = buffer ++ flat_map html_piece l.
Proof.
  apply (transduce _ buflen (fun f => html_encode_loop f buflen)); [by intros [] |].
  intros fu v rest b Hv Hroom Hf. destruct (utf8_cons v Hv) as (c & cs & E & Hdec & Hsmall & Hc).
  rewrite E in *. destruct fu as [|fu]; [cbn in Hf; lia|]. exists fu. cbn in Hf. rewrite length_app in Hf.
  split; [lia|]. cbn [app html_encode_loop]. rewrite Hsmall.
  assert (room buflen b 1 = true) as ->.
  { apply (room_weaken _ _ _ _ Hroom). pose proof (html_piece_length v Hv). lia. }
  unfold html_piece in *. destruct (Z.ltb_spec v 128).
  - destruct Hc as [-> ->]; [done|]. destruct (of_class HTML_UNSAFE (mkbyte v)); [|done]. rewrite Hroom. done.
  - rewrite Hdec. fold (numeric v). rewrite Hroom. cbn [length]. rewrite Nat.sub_succ, Nat.sub_0_r, drop_app_length. done.
Qed.
Lemma html_number buflen fu beyond v rest b : 0 <= v < 2097152 -> room buflen b (Z.of_nat (length (utf8 v))) = true ->
  xml_decode_loop (S fu) buflen beyond (numeric v ++ rest) b = xml_decode_loop fu buflen beyond rest (b ++ utf8 v).
Proof.
  intros Hv Hroom. unfold numeric. rewrite <- !app_assoc.
  change (str "&#" ++ print_lu v ++ str ";" ++ rest) with (ch "&" :: ch "#" :: print_lu v ++ ch ";" :: rest).
  destruct (utf8_cons v Hv) as (c & cs & E & _).
  cbn [xml_decode_loop]. assert (room buflen b 1 = true) as ->.
  { apply (room_weaken _ _ _ _ Hroom). rewrite E. cbn. lia. }
  literal. change (str "lt;") with [ch "l"; ch "t"; ch ";"]. change (str "gt;") with [ch "g"; ch "t"; ch ";"].
  change (str "apos;") with [ch "a"; ch "p"; ch "o"; ch "s"; ch ";"]. change (str "quot;") with [ch "q"; ch "u"; ch "o"; ch "t"; ch ";"].
  change (str "amp;") with [ch "a"; ch "m"; ch "p"; ch ";"]. change (str "#") with [ch "#"].
  rewrite !begins_cons, begins_nil. literal. change (drop 1 (ch "#" :: ?l)) with l. rewrite xml_number_print by done.
  rewrite utf8_fits; [done | done |]. unfold room in Hroom. apply Z.ltb_lt in Hroom. lia.
Qed.
Lemma html_decode_loop_all buflen beyond l fuel buffer :
  Forall (fun v => 0 <= v < 2097152) l ->
  (length (flat_map html_piece l) <= fuel)%nat -> Z.of_nat (length buffer + length (flat_map utf8 l)) < buflen ->
  xml_decode_loop fuel buflen beyond (flat_map html_piece l) buffer = buffer ++ flat_map utf8 l.
Proof.
  apply (transduce _ buflen (fun f => xml_decode_loop f buflen beyond)); [by intros [] |].
  intros fu v rest b Hv Hroom Hf. pose proof (html_piece_length v Hv) as Hl. rewrite length_app in Hf.
  destruct fu as [|fu]; [lia|]. exists fu. split; [lia|].
  unfold html_piece. destruct (Z.ltb_spec v 128) as [Hs|]; [|by apply html_number].
  assert (E : utf8 v = [mkbyte v]).
  { unfold utf8. rewrite utf8_split by lia. rewrite (proj2 (Z.ltb_lt _ _)) by lia. done. }
  rewrite E in *. cbn [length] in Hroom.
  destruct (of_class HTML_UNSAFE (mkbyte v)) eqn:Hc.
  - destruct (Z.eq_dec v 39) as [->|].
    + change (html_escape (mkbyte 39)) with (numeric 39). rewrite html_number by (rewrite ?E; done || lia). rewrite E. done.
    + assert (html_escape (mkbyte v) = xml_piece (mkbyte v)) as ->.
      { apply html_class in Hc; [|lia]. specials Hc; done. }
      by apply xml_decode_piece.
  - pose proof (xml_decode_piece buflen beyond fu (mkbyte v) rest b Hroom) as H. unfold xml_piece in H.
    change XML_UNSAFE with HTML_UNSAFE in H. rewrite Hc in H. exact H.
Qed.

(** HTML writes and reads back every UTF-8 text in shortest form. *)
Theorem html_roundtrip (l : list Z) (beyond : bytes) (b1 b2 : Z) :
  Forall (fun v => 0 <= v < 2097152) l ->
  10 * Z.of_nat (length (flat_map utf8 l)) < b1 -> Z.of_nat (length (flat_map utf8 l)) < b2 ->
  html_decode b2 beyond (html_encode b1 (flat_map utf8 l)) = flat_map utf8 l.
Proof.
  intros Hl H1 H2.
  assert (length (flat_map html_piece l) <= 10 * length (flat_map utf8 l))%nat.
  { clear H1 H2. induction Hl as [|v l Hv Hl IH]; cbn [flat_map]; [lia|]. rewrite !length_app.
    destruct (utf8_cons v Hv) as (c & cs & -> & _). pose proof (html_piece_length v Hv). cbn [length]. lia. }
  unfold html_decode, xml_decode, html_encode. rewrite !big_buffer by lia.
  rewrite html_encode_loop_all by (done || cbn; lia). cbn [app]. rewrite html_decode_loop_all by (done || cbn; lia). done.
Qed.

(** ** Bounds *)

Definition bounded_loop (b : Z) (loop : bytes -> bytes) : Prop :=
  forall buffer, Z.of_nat (length buffer) < b -> Z.of_nat (length (loop buffer)) < b.
Ltac fits IH := repeat case_match; try done; apply IH; unfold room in *; rewrite ?length_app in *; cbn [length] in *;
  repeat match goal with H : negb _ = false |- _ => apply negb_false_iff in H | H : (_ <? _) = true |- _ => apply Z.ltb_lt in H end; lia.
Lemma escape_bound b illegal esc source : bounded_loop b (escape_loop b illegal esc source).
Proof. induction source as [|c source IH]; intros buffer Hb; [done|]. cbn [escape_loop]. fits IH. Qed.
Lemma encode_bound b illegal esc source : bounded_loop b (encode_loop b illegal esc source).
Proof. induction source as [|c source IH]; intros buffer Hb; [done|]. cbn [encode_loop]. fits IH. Qed.
Lemma url_encode_bound b source : bounded_loop b (url_encode_loop b source).
Proof. induction source as [|c source IH]; intros buffer Hb; [done|]. cbn [url_encode_loop]. fits IH. Qed.
Lemma xml_encode_bound b source : bounded_loop b (xml_encode_loop b source).
Proof. induction source as [|c source IH]; intros buffer Hb; [done|]. cbn [xml_encode_loop]. fits IH. Qed.
Lemma html_encode_bound b fuel source : bounded_loop b (html_encode_loop fuel b source).
Proof. revert source. induction fuel as [|fuel IH]; intros source buffer Hb; [done|]. cbn [html_encode_loop]. fits IH. Qed.
Lemma decode_bound b esc fuel source : bounded_loop b (decode_loop fuel b esc source).
Proof. revert source. induction fuel as [|fuel IH]; intros source buffer Hb; [done|]. cbn [decode_loop]. fits IH. Qed.
Lemma url_decode_bound b fuel source : bounded_loop b (url_decode_loop fuel b source).
Proof. revert source. induction fuel as [|fuel IH]; intros source buffer Hb; [done|]. cbn [url_decode_loop]. fits IH. Qed.
Lemma unescape_bound b esc n source : (length source <= n)%nat -> bounded_loop b (unescape_loop b esc source).
Proof.
  revert source. induction n as [|n IH]; intros [|c source] Hn buffer Hb; try done; cbn in Hn; [lia|]. cbn [unescape_loop].
  destruct (room b buffer 1) eqn:Hr; [|done]. apply Z.ltb_lt in Hr.
  destruct source as [|c' source']; [rewrite length_app; cbn; lia|].
  destruct (same c esc); apply IH; rewrite ?length_app; cbn in *; lia.
Qed.
Lemma hex_decode_bound b n source : (length source <= n)%nat -> bounded_loop b (hex_decode_loop b source).
Proof.
  revert source. induction n as [|n IH]; intros [|c [|c' source]] Hn buffer Hb; try done; cbn in Hn; [lia|]. cbn [hex_decode_loop].
  fits IH.
Qed.
Lemma xml_decode_bound b beyond fuel source buffer :
  Z.of_nat (length buffer) <= b -> Z.of_nat (length (xml_decode_loop fuel b beyond source buffer)) <= b.
Proof.
  assert (Hu : forall n v e, utf8_encode n v = Some e -> Z.of_nat (length e) <= n).
  { intros n v e. unfold utf8_encode. repeat case_match; intros [= <-]; rewrite andb_true_iff, ?Z.leb_le in *; cbn [length]; lia. }
  revert source buffer. induction fuel as [|fuel IH]; intros source buffer Hb; [done|]. cbn [xml_decode_loop].
  repeat case_match; try done; apply IH; unfold room in *; rewrite length_app; cbn [length];
    repeat match goal with H : (_ <? _) = true |- _ => apply Z.ltb_lt in H | H : utf8_encode _ _ = Some _ |- _ => apply Hu in H end; lia.
Qed.
Lemma hex_encode_loop_length source : length (hex_encode_loop source) = (2 * length source)%nat.
Proof. induction source; cbn; lia. Qed.

(** These functions leave room for the terminating zero, at the index they
    return, however long the text is; [xml_decode], and [html_decode] with it, may
    return the size of the buffer itself. *)
Theorem text_codec_bounds (b : Z) (source illegal beyond : bytes) (esc : byte) :
  0 < b ->
  let fits n := 0 <= Z.of_nat (length n) < b in
  fits (escape b source illegal esc) /\ fits (unescape b source esc) /\
  fits (encode b source illegal esc) /\ fits (decode b source esc) /\
  fits (url_encode b source) /\ fits (url_decode b source) /\
  fits (html_encode b source) /\ fits (xml_encode b source) /\
  fits (hex_encode b source) /\ fits (hex_decode b source) /\
  Z.of_nat (length (xml_decode b beyond source)) <= b.
Proof.
  intros Hb fits. assert (H : forall l, bounded_loop b l -> fits (l [])) by (intros l Hl; split; [lia | apply Hl; cbn; lia]).
  unfold escape, unescape, encode, decode, url_encode, url_decode, html_encode, xml_encode, hex_encode, hex_decode, xml_decode.
  rewrite !big_buffer by done. refine (conj _ (conj _ (conj _ (conj _ (conj _ (conj _ (conj _ (conj _ (conj _ (conj _ _)))))))))).
  - apply H, escape_bound.
  - by eapply H, unescape_bound.
  - apply H, encode_bound.
  - apply (H (decode_loop _ b esc source)), decode_bound.
  - apply H, url_encode_bound.
  - apply (H (url_decode_loop _ b source)), url_decode_bound.
  - apply (H (html_encode_loop _ b source)), html_encode_bound.
  - apply H, xml_encode_bound.
  - unfold fits. rewrite hex_encode_loop_length, length_take. Z.div_mod_to_equations; lia.
  - by eapply H, hex_decode_bound.
  - apply xml_decode_bound. cbn. lia.
Qed.

(** A character reference may fill the buffer: the terminating zero is then
    written behind it. *)
Example xml_decode_fills : Z.of_nat (length (xml_decode 2 [] (str "&#200;"))) = 2.
Proof. reflexivity. Qed.

(** ** The other URL encoder *)

Definition url_high (c : byte) : byte := upper_digit (Z.land (Z.shiftr (byte.unsigned c) 4) 15).
Definition url_low (c : byte) : byte := upper_digit (Z.land (byte.unsigned c) 15).
Definition upper_ok (c : byte) : bool :=
  (0 <=? HexPairValue (url_high c) (url_low c)) && same (mkbyte (HexPairValue (url_high c) (url_low c))) c &&
  negb (same (url_high c) NUL) && negb (same (url_low c) NUL).
Lemma upper_inverse c : 0 <= HexPairValue (url_high c) (url_low c) /\ mkbyte (HexPairValue (url_high c) (url_low c)) = c /\
  same (url_high c) NUL = false /\ same (url_low c) NUL = false.
Proof.
  assert (H : upper_ok c = true) by each_char upper_ok. unfold upper_ok in H.
  rewrite !andb_true_iff, !negb_true_iff, Z.leb_le, same_true in H. tauto.
Qed.
(** Valid characters other than the two special ones stay. *)
Lemma valid_char c : IsValidUrlChar c false = true -> same c (ch "+") = false /\ same c (ch "%") = false.
Proof.
  intros H. split; apply same_false; intros ->; vm_compute in H; done.
Qed.

Definition url2_piece (plus : bool) (c : byte) : bytes :=
  if same c (ch " ") && plus && negb false then [ch "+"]
  else if IsValidUrlChar c false then [c] else [ch "%"; url_high c; url_low c].
Lemma url2_piece_length plus c : (1 <= length (url2_piece plus c) <= 3)%nat.
Proof. unfold url2_piece. repeat case_match; cbn; lia. Qed.
Lemma url2_encode max plus source dest :
  Forall (fun c => same c NUL = false) source ->
  Z.of_nat (length dest + length (flat_map (url2_piece plus) source)) < max ->
  InternalUrlEncode_loop source dest max plus false = dest ++ flat_map (url2_piece plus) source.
Proof.
  intros Hs H. rewrite <- (flat_map_single source) at 1.
  apply (transduce (fun c => same c NUL = false) max (fun _ s d => InternalUrlEncode_loop s d max plus false) (fun c => [c])) with (length source);
    [done | | done | rewrite flat_map_single; lia | done].
  intros fuel c rest d Hc Hroom Hf. exists fuel. split; [cbn in Hf; lia|]. cbn [app InternalUrlEncode_loop].
  unfold room in Hroom. apply Z.ltb_lt in Hroom. rewrite Hc. unfold url2_piece in *. cbn [negb]. rewrite !andb_true_r in *.
  assert ((Z.of_nat (length d) <? max) = true) as -> by (apply Z.ltb_lt; lia). cbn [andb].
  destruct (same c (ch " ") && plus); [done|]. destruct (IsValidUrlChar c false); [done|].
  cbn [length] in Hroom. assert ((max <? Z.of_nat (length d) + 4) = false) as -> by (apply Z.ltb_ge; lia). done.
Qed.
Lemma url2_decode plus source fuel :
  Forall (fun c => same c NUL = false) source -> (length (flat_map (url2_piece plus) source) <= fuel)%nat ->
  InternalUrlDecode_loop fuel (flat_map (url2_piece plus) source) plus = source.
Proof.
  intros Hs. revert fuel. induction Hs as [|c source Hc Hs IH]; intros fuel Hf; cbn [flat_map] in *; [by destruct fuel|].
  rewrite length_app in Hf. pose proof (url2_piece_length plus c). destruct fuel as [|fuel]; [lia|].
  specialize (IH fuel ltac:(lia)). unfold url2_piece at 1. destruct (same c (ch " ") && plus && negb false) eqn:E.
  - rewrite !andb_true_iff in E. destruct E as [[E%same_true ->] _]. subst c. cbn [app InternalUrlDecode_loop]. literal.
    rewrite drop_0, IH. done.
  - destruct (IsValidUrlChar c false) eqn:Hv.
    + destruct (valid_char c Hv) as [E1 E2]. cbn [app InternalUrlDecode_loop]. rewrite Hc, E1, E2, drop_0, IH. done.
    + cbn [app InternalUrlDecode_loop]. literal. destruct (upper_inverse c) as (H1 & H2 & H3 & H4). rewrite H3, H4. cbn [negb andb].
      rewrite (proj2 (Z.leb_le _ _) H1), H2. change (drop 2 (?a :: ?b :: ?l)) with l. rewrite IH. done.
Qed.
Lemma c_str_loop s dest max plus unsafe : InternalUrlEncode_loop (c_str s) dest max plus unsafe = InternalUrlEncode_loop s dest max plus unsafe.
Proof.
  revert dest. induction s as [|c s IH]; intros dest; [done|]. cbn [c_str InternalUrlEncode_loop].
  destruct (same c NUL) eqn:E; [by rewrite andb_false_r|]. cbn [InternalUrlEncode_loop]. rewrite E, !IH. done.
Qed.
Lemma c_str_nonzero s : Forall (fun c => same c NUL = false) (c_str s).
Proof. induction s as [|c s IH]; cbn; [done|]. destruct (same c NUL) eqn:E; [done|]. by constructor. Qed.
Lemma c_str_id s : Forall (fun c => same c NUL = false) s -> c_str s = s.
Proof. induction 1 as [|c s Hc Hs IH]; cbn; [done|]. by rewrite Hc, IH. Qed.
Lemma c_str_length s : (length (c_str s) <= length s)%nat.
Proof. induction s as [|c s IH]; cbn; [done|]. case_match; cbn; lia. Qed.
Lemma url2_nonzero plus source : Forall (fun c => same c NUL = false) source -> Forall (fun c => same c NUL = false) (flat_map (url2_piece plus) source).
Proof.
  induction 1 as [|c s Hc Hs IH]; cbn [flat_map]; [done|]. apply Forall_app_2; [|done].
  unfold url2_piece. destruct (upper_inverse c) as (_ & _ & H3 & H4). repeat case_match; repeat constructor; done.
Qed.

(** The string functions encode every C string without a failed ASSERT, and
    decode what they encoded, with and without "+" for a space. *)
Theorem url_string_roundtrip (s : bytes) (plus : bool) :
  exists e, InternalUrlEncodeString s plus false = Some e /\ InternalUrlDecodeString e plus = c_str s.
Proof.
  pose proof (c_str_length s). pose proof (c_str_nonzero s) as Hz.
  assert (length (flat_map (url2_piece plus) (c_str s)) <= 3 * length (c_str s))%nat by (apply pieces_length; intros; apply url2_piece_length).
  exists (flat_map (url2_piece plus) (c_str s)). unfold InternalUrlEncodeString, InternalUrlEncode.
  rewrite (proj2 (Z.eqb_neq _ _)) by lia. rewrite <- c_str_loop, url2_encode by (done || cbn; lia). cbn [app].
  rewrite (proj2 (Z.ltb_lt _ _)) by lia. cbn [fmap option_fmap option_map]. rewrite c_str_id by (by apply url2_nonzero).
  split; [done|]. unfold InternalUrlDecodeString, InternalUrlDecode. rewrite url2_decode by done. by apply c_str_id.
Qed.

(** A text of unescaped characters that fills [max] fails the ASSERT. *)
Example url_encode_asserts : UrlEncode (str "abc") 3 = None.
Proof. reflexivity. Qed.
(** The character in front of a marked field is lost. *)
Example tokenize_marks_drops : tokenize_marks (str "ab<c>") (ch " ") (ch "<") (ch ">") = [str "a"; str "c"].
Proof. reflexivity. Qed.
(** Letters behind F count as digits. *)
Example hex_decode_letters : hex_decode 8 (str "ZZ") = [mkbyte 51].
Proof. reflexivity. Qed.

(** ** Tokens *)

Fixpoint join (delimiter : byte) (fields : list bytes) : bytes :=
  match fields with [] => [] | [f] => f | f :: fields => f ++ delimiter :: join delimiter fields end.
Lemma split_loop_nonempty d source field : split_loop d source field <> [].
Proof. revert field. induction source as [|c source IH]; intros field; cbn; [done|]. case_match; [done | apply IH]. Qed.
Lemma split_loop_join d source field : join d (split_loop d source field) = field ++ source.
Proof.
  revert field. induction source as [|c source IH]; intros field; cbn [split_loop]; [by rewrite app_nil_r|].
  destruct (same c d) eqn:E; [|rewrite IH, <- app_assoc; done].
  apply same_true in E as ->. specialize (IH []). cbn [join]. pose proof (split_loop_nonempty d source []).
  destruct (split_loop d source []); [done|]. rewrite IH. done.
Qed.
Lemma split_loop_clean d source field : d ∉ field -> Forall (fun f => d ∉ f) (split_loop d source field).
Proof.
  revert field. induction source as [|c source IH]; intros field H; cbn [split_loop]; [by repeat constructor|].
  destruct (same c d) eqn:E; [constructor; [done | apply IH; apply not_elem_of_nil]|].
  apply IH. apply same_false in E. rewrite elem_of_app, list_elem_of_singleton. intros [?|?]; congruence.
Qed.
Lemma tokenize_loop_split d source field :
  tokenize_loop d source field = List.filter (fun f => negb (bool_decide (f = []))) (split_loop d source field).
Proof.
  revert field. induction source as [|c source IH]; intros field; cbn [tokenize_loop split_loop List.filter].
  - destruct field; done.
  - destruct (same c d); [|apply IH]. cbn [List.filter]. rewrite IH. destruct field; done.
Qed.
(** [split] cuts at every delimiter and nowhere else; [tokenize] leaves out the
    empty fields. *)
Theorem split_fields (source : bytes) (d : byte) :
  join d (split source d) = source /\ Forall (fun f => d ∉ f) (split source d) /\
  tokenize source d = List.filter (fun f => negb (bool_decide (f = []))) (split source d).
Proof.
  split; [apply split_loop_join|]. split; [apply split_loop_clean, not_elem_of_nil | apply tokenize_loop_split].
Qed.

(** ** The theorems at work *)

Lemma text_codec_roundtrip_witness :
  6 * Z.of_nat (length (str "a<b")) < 19 /\ xml_encode 19 (str "a<b") = str "a&lt;b" /\ xml_decode 4 [] (str "a&lt;b") = str "a<b".
Proof.
  split; [reflexivity|]. split; [reflexivity|].
  refine (proj2 (proj2 (proj2 (proj2 (proj2 (text_codec_roundtrip (str "a<b") (str "b") (ch "%") [] 19 4 _ _)))))); reflexivity.
Defined.
Lemma html_roundtrip_witness :
  html_encode 100 (flat_map utf8 [97; 39; 8364]) = str "a&#39;&#8364;" /\
  html_decode 6 [] (str "a&#39;&#8364;") = flat_map utf8 [97; 39; 8364].
Proof.
  split; [reflexivity|].
  refine (html_roundtrip [97; 39; 8364] [] 100 6 _ _ _); [|reflexivity..].
  repeat constructor; discriminate.
Defined.
Lemma text_codec_bounds_witness : 0 < 5 /\ Z.of_nat (length (url_encode 5 (str "a b"))) < 5.
Proof.
  split; [reflexivity|].
  exact (proj2 (proj1 (proj2 (proj2 (proj2 (proj2 (text_codec_bounds 5 (str "a b") [] [] (ch "%") eq_refl))))))).
Defined.
End Text.
