(* ===== verification/RelayServer.v ===== *)
(** * The relay server (talk/p2p/base/relayserver.h, relayserver.cc)

    Connections and bindings are objects of a heap, named by the pointers to
    them; the server's two maps, the lists of the bindings and the connections'
    back pointers hold such names.  A dereference of a deleted object is a
    fault ([Dangling]).  The sockets' local addresses, the clock and [rand] are
    parameters; what is sent, posted or disposed of is recorded in order.  The
    result of [SendTo] is only logged by the code and not looked at. *)

From S2P Require Import Prelude ByteOrder ByteBuffer SocketAddress StdMap Stun StunFacts StunServer StunMessages Effects.
#[local] Open Scope jingle_scope.

Module Relay.
Import StunAttributeBase.

Definition MAX_LIFETIME : Z := 15 * 60 * 1000.
Definition USERNAME_LENGTH : Z := 16.

Inductive ProtocolType := PROTO_UDP | PROTO_TCP | PROTO_SSLTCP.
#[export] Instance ProtocolType_eq_dec : EqDecision ProtocolType.
Proof. solve_decision. Defined.

(** Pointers and sockets. *)
Definition ptr : Type := nat.
Definition sock : Type := nat.

Record RelayServerConnection := mkConn {
  binding_ : ptr;
  addr_pair_ : SocketAddressPair;
  socket_ : sock;
  locked_ : bool;
  default_dest_ : SocketAddress;
}.
#[export] Instance RelayServerConnection_eta : Eta RelayServerConnection := fun c =>
  mkConn (binding_ c) (addr_pair_ c) (socket_ c) (locked_ c) (default_dest_ c).

Record RelayServerBinding := mkBinding {
  username_ : bytes;
  password_ : bytes;
  magic_cookie_ : bytes;
  internal_connections_ : list ptr;
  external_connections_ : list ptr;
  lifetime_ : Z;
  last_used_ : Z;
}.
#[export] Instance RelayServerBinding_eta : Eta RelayServerBinding := fun b =>
  mkBinding (username_ b) (password_ b) (magic_cookie_ b) (internal_connections_ b)
    (external_connections_ b) (lifetime_ b) (last_used_ b).

(** The server, the heap of its objects, and the record of its effects: the
    datagrams sent, the lifetime timers posted and pending, the bindings handed
    to [Thread::Dispose]. *)
Record RelayServer := mkRelay {
  internal_sockets_ : list sock;
  external_sockets_ : list sock;
  server_sockets_ : gmap sock ProtocolType;
  bindings_ : smap bytes ptr;
  connections_ : smap SocketAddressPair ptr;
  conn_heap : gmap ptr RelayServerConnection;
  binding_heap : gmap ptr RelayServerBinding;
  next_ptr : ptr;
  ticks : nat;
  rolls : nat;
  sent : list (sock * bytes * SocketAddress);
  posted : list (ptr * Z);
  disposed : list ptr;
}.
#[export] Instance RelayServer_eta : Eta RelayServer := fun r =>
  mkRelay (internal_sockets_ r) (external_sockets_ r) (server_sockets_ r) (bindings_ r)
    (connections_ r) (conn_heap r) (binding_heap r) (next_ptr r) (ticks r) (rolls r) (sent r)
    (posted r) (disposed r).

(** [RelayServer(thread)]. *)
Definition make : RelayServer := mkRelay [] [] ∅ [] [] ∅ ∅ 0%nat 0%nat 0%nat [] [] [].

Section Code.
Context {B : Type} `{ByteQueue B}.
(** [GetLocalAddress] of a socket, the readings of [Time], the values of
    [rand]. *)
Variable GetLocalAddress : sock -> SocketAddress.
Variable clock : nat -> Z.
Variable rand : nat -> Z.

Definition P (A : Type) : Type := Prog RelayServer A.

Definition Time : P Z := fun r => Done (u32 (clock (ticks r))) (r <| ticks := S (ticks r) |>).
Definition roll : P Z := fun r => Done (rand (rolls r)) (r <| rolls := S (rolls r) |>).

(** Dereferences. *)
Definition conn_at (c : ptr) : P RelayServerConnection :=
  o ← gets (fun r => conn_heap r !! c); the Dangling o.
Definition binding_at (b : ptr) : P RelayServerBinding :=
  o ← gets (fun r => binding_heap r !! b); the Dangling o.
Definition set_conn (c : ptr) (x : RelayServerConnection) : P unit :=
  modify (fun r => r <| conn_heap := <[c := x]> (conn_heap r) |>).
Definition set_binding (b : ptr) (x : RelayServerBinding) : P unit :=
  modify (fun r => r <| binding_heap := <[b := x]> (binding_heap r) |>).

(** ** Sending *)

Definition Send (socket : sock) (bytes : bytes) (addr : SocketAddress) : P unit :=
  modify (fun r => r <| sent := sent r ++ [(socket, bytes, addr)] |>).

Definition SendStun (msg : StunMessage) (socket : sock) (addr : SocketAddress) : P unit :=
  Send socket (q_contents (StunMsg.Write (B := B) msg q_new)) addr.

Definition cookie_attr (magic_cookie : bytes) : StunAttribute :=
  bytes_attr STUN_ATTR_MAGIC_COOKIE magic_cookie (Z.of_nat (length magic_cookie)).
Definition error_message (msg : StunMessage) (error_code : Z) (error_desc magic_cookie : bytes)
    : StunMessage :=
  let err_msg := StunMsg.SetType (StunMsg.GetStunErrorResponseType (m_type msg)) StunMsg.make in
  let err_msg := StunMsg.SetTransactionID (transaction_id_ msg) err_msg in
  let err_msg := StunMsg.AddAttribute
    (cookie_attr (match magic_cookie with [] => TURN_MAGIC_COOKIE_VALUE | _ => magic_cookie end)) err_msg in
  StunMsg.AddAttribute (StunSrv.error_attr error_code error_desc) err_msg.

Definition SendStunError (msg : StunMessage) (socket : sock) (remote_addr : SocketAddress)
    (error_code : Z) (error_desc magic_cookie : bytes) : P unit :=
  SendStun (error_message msg error_code error_desc magic_cookie) socket remote_addr.

(** ** Sockets of the server *)

Definition AddInternalSocket (socket : sock) : P unit :=
  r ← get;
  ASSERT (bool_decide (socket ∉ internal_sockets_ r));;
  modify (fun r => r <| internal_sockets_ := internal_sockets_ r ++ [socket] |>).
(** [erase] of the first occurrence. *)
Fixpoint erase_sock (s : sock) (l : list sock) : list sock :=
  match l with [] => [] | x :: l => if decide (x = s) then l else x :: erase_sock s l end.
Definition RemoveInternalSocket (socket : sock) : P unit :=
  r ← get;
  ASSERT (bool_decide (socket ∈ internal_sockets_ r));;
  modify (fun r => r <| internal_sockets_ := erase_sock socket (internal_sockets_ r) |>).
Definition AddExternalSocket (socket : sock) : P unit :=
  r ← get;
  ASSERT (bool_decide (socket ∉ external_sockets_ r));;
  modify (fun r => r <| external_sockets_ := external_sockets_ r ++ [socket] |>).
Definition RemoveExternalSocket (socket : sock) : P unit :=
  r ← get;
  ASSERT (bool_decide (socket ∈ external_sockets_ r));;
  modify (fun r => r <| external_sockets_ := erase_sock socket (external_sockets_ r) |>).
Definition AddInternalServerSocket (socket : sock) (proto : ProtocolType) : P unit :=
  r ← get;
  ASSERT (bool_decide (server_sockets_ r !! socket = None));;
  modify (fun r => r <| server_sockets_ := <[socket := proto]> (server_sockets_ r) |>).
Definition RemoveInternalServerSocket (socket : sock) : P unit :=
  r ← get;
  ASSERT (negb (bool_decide (server_sockets_ r !! socket = None)));;
  modify (fun r => r <| server_sockets_ := base.delete socket (server_sockets_ r) |>).

(** The accepted socket, wrapped for TCP or SSL; [None] is no connection. *)
Definition AcceptConnection (server_socket : sock) (accepted : option sock) : P unit :=
  match accepted with
  | None => mret tt
  | Some tcp_socket =>
      r ← get;
      ASSERT (bool_decide (server_sockets_ r !! server_socket = Some PROTO_TCP) ||
              bool_decide (server_sockets_ r !! server_socket = Some PROTO_SSLTCP));;
      AddInternalSocket tcp_socket
  end.
Definition OnReadEvent (socket : sock) (accepted : option sock) : P unit :=
  r ← get;
  ASSERT (negb (bool_decide (server_sockets_ r !! socket = None)));;
  AcceptConnection socket accepted.

(** ** Bindings and connections *)

(** [RelayServerBinding::NoteUsed]. *)
Definition NoteUsed (b : ptr) : P unit :=
  now ← Time;
  x ← binding_at b;
  set_binding b (x <| last_used_ := now |>).

Definition alloc : P ptr := fun r => Done (next_ptr r) (r <| next_ptr := S (next_ptr r) |>).

(** [new RelayServerConnection(binding, addrs, socket)]. *)
Definition new_connection (binding : ptr) (addrs : SocketAddressPair) (socket : sock) : P ptr :=
  c ← alloc;
  set_conn c (mkConn binding addrs socket false SockAddr.Clear);;
  NoteUsed binding;;
  mret c.

(** [new RelayServerBinding(server, username, password, lifetime)]; the posted
    delay is an [int]. *)
Definition new_binding (username password : bytes) (lifetime : Z) : P ptr :=
  b ← alloc;
  set_binding b (mkBinding username password TURN_MAGIC_COOKIE_VALUE [] [] lifetime 0);;
  NoteUsed b;;
  modify (fun r => r <| posted := posted r ++ [(b, s32 lifetime)] |>);;
  mret b.

Definition AddInternalConnection (b conn : ptr) : P unit :=
  x ← binding_at b;
  set_binding b (x <| internal_connections_ := internal_connections_ x ++ [conn] |>).
Definition AddExternalConnection (b conn : ptr) : P unit :=
  x ← binding_at b;
  set_binding b (x <| external_connections_ := external_connections_ x ++ [conn] |>).

Definition AddConnection (conn : ptr) : P unit :=
  c ← conn_at conn;
  r ← get;
  ASSERT (bool_decide (map_find (addr_pair_ c) (connections_ r) = None));;
  modify (fun r => r <| connections_ := map_set (addr_pair_ c) conn (connections_ r) |>).
Definition RemoveConnection (conn : ptr) : P unit :=
  c ← conn_at conn;
  r ← get;
  ASSERT (negb (bool_decide (map_find (addr_pair_ c) (connections_ r) = None)));;
  modify (fun r => r <| connections_ := map_erase (addr_pair_ c) (connections_ r) |>).
Definition RemoveBinding (b : ptr) : P unit :=
  x ← binding_at b;
  r ← get;
  ASSERT (negb (bool_decide (map_find (username_ x) (bindings_ r) = None)));;
  modify (fun r => r <| bindings_ := map_erase (username_ x) (bindings_ r) |>).

(** [delete conn]. *)
Definition delete_connection (conn : ptr) : P unit :=
  c ← conn_at conn;
  binding_at (binding_ c);;
  RemoveConnection conn;;
  modify (fun r => r <| conn_heap := base.delete conn (conn_heap r) |>).

(** [delete binding]. *)
Definition delete_binding (b : ptr) : P unit :=
  x ← binding_at b;
  modify (fun r => r <| posted := List.filter (fun e => negb (fst e =? b)%nat) (posted r) |>);;
  for_each delete_connection (internal_connections_ x);;
  for_each delete_connection (external_connections_ x);;
  RemoveBinding b;;
  modify (fun r => r <| binding_heap := base.delete b (binding_heap r) |>).

(** [~RelayServer]: every binding, then the sockets. *)
Fixpoint delete_bindings (fuel : nat) : P unit :=
  match fuel with
  | O => mret tt
  | S fuel =>
      r ← get;
      match bindings_ r with
      | [] => mret tt
      | (_, b) :: _ => delete_binding b;; delete_bindings fuel
      end
  end.
Definition delete_server : P unit :=
  r ← get;
  delete_bindings (length (bindings_ r));;
  modify (fun r => r <| internal_sockets_ := [] |> <| external_sockets_ := [] |> <| server_sockets_ := ∅ |>).

Definition HasMagicCookie (x : RelayServerBinding) (bytes : bytes) : bool :=
  if Z.of_nat (length bytes) <? 24 + Z.of_nat (length (magic_cookie_ x)) then false
  else bool_decide (take (length (magic_cookie_ x)) (drop 24 bytes) = magic_cookie_ x).

(** The first connection of a list that satisfies a test of its object. *)
Fixpoint find_conn (test : RelayServerConnection -> bool) (l : list ptr) : P (option ptr) :=
  match l with
  | [] => mret None
  | c :: l => x ← conn_at c; if test x then mret (Some c) else find_conn test l
  end.
Definition GetInternalConnection (b : ptr) (ext_addr : SocketAddress) : P ptr :=
  x ← binding_at b;
  o ← find_conn (fun c => locked_ c && SockAddr.eqb ext_addr (default_dest_ c)) (internal_connections_ x);
  match o with
  | Some c => mret c
  | None => match internal_connections_ x with [] => fail AssertFailed | c :: _ => mret c end
  end.
Definition GetExternalConnection (b : ptr) (ext_addr : SocketAddress) : P (option ptr) :=
  x ← binding_at b;
  find_conn (fun c => SockAddr.eqb ext_addr (src_ (addr_pair_ c))) (external_connections_ x).

(** ** What a connection sends *)

Definition conn_Send (conn : ptr) (data : bytes) : P unit :=
  c ← conn_at conn;
  NoteUsed (binding_ c);;
  Send (socket_ c) data (src_ (addr_pair_ c)).

Definition conn_SendStun (conn : ptr) (msg : StunMessage) : P unit :=
  c ← conn_at conn;
  NoteUsed (binding_ c);;
  SendStun msg (socket_ c) (src_ (addr_pair_ c)).

Definition conn_SendStunError (conn : ptr) (request : StunMessage) (error_code : Z) (error_desc : bytes)
    : P unit :=
  c ← conn_at conn;
  b ← binding_at (binding_ c);
  SendStunError request (socket_ c) (src_ (addr_pair_ c)) error_code error_desc (magic_cookie_ b).

(** The data indication that carries [data] from [from_addr]. *)
Definition data_indication (magic_cookie data : bytes) (from_addr : SocketAddress) : StunMessage :=
  let msg := StunMsg.SetType STUN_DATA_INDICATION StunMsg.make in
  let msg := StunMsg.AddAttribute (cookie_attr magic_cookie) msg in
  let msg := StunMsg.AddAttribute
    (StunSrv.address_attr STUN_ATTR_SOURCE_ADDRESS2 (sa_port from_addr) (sa_ip from_addr)) msg in
  StunMsg.AddAttribute (bytes_attr STUN_ATTR_DATA data (u16 (Z.of_nat (length data)))) msg.

Definition conn_Send_from (conn : ptr) (data : bytes) (from_addr : SocketAddress) : P unit :=
  c ← conn_at conn;
  if locked_ c && SockAddr.eqb from_addr (default_dest_ c) then conn_Send conn data
  else
    b ← binding_at (binding_ c);
    ASSERT (Z.of_nat (length data) <=? 65536);;
    conn_SendStun conn (data_indication (magic_cookie_ b) data from_addr).

Definition Lock (conn : ptr) : P unit := c ← conn_at conn; set_conn conn (c <| locked_ := true |>).
Definition Unlock (conn : ptr) : P unit := c ← conn_at conn; set_conn conn (c <| locked_ := false |>).
Definition set_default_destination (conn : ptr) (addr : SocketAddress) : P unit :=
  c ← conn_at conn; set_conn conn (c <| default_dest_ := addr |>).

(** ** Requests to the server *)

(** [HandleStun] of a packet: the message and its username, or an error reply. *)
Definition HandleStun_parse (bytes : bytes) (remote_addr : SocketAddress) (socket : sock)
    : P (option (Prelude.bytes * StunMessage)) :=
  let '(ok, (msg, _)) := StunMsg.Read (B := B) (StunMsg.make, q_of bytes) in
  if negb ok then SendStunError msg socket remote_addr 400 (str "Bad Request") [];; mret None
  else
    match StunMsg.GetByteString STUN_ATTR_USERNAME msg with
    | None => SendStunError msg socket remote_addr 432 (str "Missing Username") [];; mret None
    | Some username_attr => mret (Some (attr_bytes username_attr, msg))
    end.

(** The answer to an allocate request. *)
Definition allocate_response (request : StunMessage) (b : RelayServerBinding) (ext_addr : SocketAddress)
    : StunMessage :=
  let response := StunMsg.SetType STUN_ALLOCATE_RESPONSE StunMsg.make in
  let response := StunMsg.SetTransactionID (transaction_id_ request) response in
  let response := StunMsg.AddAttribute (cookie_attr (magic_cookie_ b)) response in
  let response := StunMsg.AddAttribute
    (StunSrv.address_attr STUN_ATTR_MAPPED_ADDRESS (sa_port ext_addr) (sa_ip ext_addr)) response in
  StunMsg.AddAttribute (uint32_attr STUN_ATTR_LIFETIME (lifetime_ b / 1000)) response.

Definition HandleStunAllocate (int_conn : ptr) (request : StunMessage) : P unit :=
  c ← conn_at int_conn;
  b ← binding_at (binding_ c);
  r ← get;
  match external_sockets_ r with
  | [] => fail DivideByZero
  | _ :: _ =>
      n ← roll;
      let index := n mod Z.of_nat (length (external_sockets_ r)) in
      ext ← the OutOfBounds (external_sockets_ r !! Z.to_nat index);
      conn_SendStun int_conn (allocate_response request b (GetLocalAddress ext))
  end.

Definition send_response (request : StunMessage) (b : RelayServerBinding) : StunMessage :=
  let response := StunMsg.SetType STUN_SEND_RESPONSE StunMsg.make in
  let response := StunMsg.SetTransactionID (transaction_id_ request) response in
  let response := StunMsg.AddAttribute (cookie_attr (magic_cookie_ b)) response in
  StunMsg.AddAttribute (uint32_attr STUN_ATTR_OPTIONS 0x01) response.

(** The connection of the binding to [ext_addr], created if there is none. *)
Definition get_or_add_external (binding : ptr) (ext_addr : SocketAddress) : P ptr :=
  o ← GetExternalConnection binding ext_addr;
  match o with
  | Some ext_conn => mret ext_conn
  | None =>
      r ← get;
      ASSERT (length (external_sockets_ r) =? 1)%nat;;
      socket ← the OutOfBounds (external_sockets_ r !! 0%nat);
      ext_conn ← new_connection binding (mkPair ext_addr (GetLocalAddress socket)) socket;
      AddExternalConnection binding ext_conn;;
      AddConnection ext_conn;;
      mret ext_conn
  end.

Definition HandleStunSend (int_conn : ptr) (request : StunMessage) : P unit :=
  match StunMsg.GetAddress STUN_ATTR_DESTINATION_ADDRESS request with
  | None => conn_SendStunError int_conn request 400 (str "Bad Request")
  | Some addr_attr =>
      match StunMsg.GetByteString STUN_ATTR_DATA request with
      | None => conn_SendStunError int_conn request 400 (str "Bad Request")
      | Some data_attr =>
          let ext_addr := attr_address addr_attr in
          c ← conn_at int_conn;
          ext_conn ← get_or_add_external (binding_ c) ext_addr;
          e ← conn_at ext_conn;
          (if locked_ e then conn_Send ext_conn (attr_bytes data_attr) else mret tt);;
          match StunMsg.GetUInt32 STUN_ATTR_OPTIONS request with
          | Some options_attr =>
              if negb (Z.land (attr_value options_attr) 0x01 =? 0) then
                set_default_destination int_conn ext_addr;;
                Lock int_conn;;
                b ← binding_at (binding_ c);
                conn_SendStun int_conn (send_response request b)
              else mret tt
          | None => mret tt
          end
      end
  end.

Definition HandleStun (int_conn : ptr) (bytes : bytes) : P unit :=
  c ← conn_at int_conn;
  o ← HandleStun_parse bytes (src_ (addr_pair_ c)) (socket_ c);
  match o with
  | None => mret tt
  | Some (username, request) =>
      b ← binding_at (binding_ c);
      if negb (bool_decide (username = username_ b)) then
        conn_SendStunError int_conn request 430 (str "Stale Credentials")
      else if m_type request =? STUN_SEND_REQUEST then HandleStunSend int_conn request
      else if m_type request =? STUN_ALLOCATE_REQUEST then HandleStunAllocate int_conn request
      else conn_SendStunError int_conn request 600 (str "Operation Not Supported")
  end.

(** The lifetime a new binding gets. *)
Definition binding_lifetime (request : StunMessage) : Z :=
  match StunMsg.GetUInt32 STUN_ATTR_LIFETIME request with
  | Some lifetime_attr => Z.min MAX_LIFETIME (attr_value lifetime_attr *u 1000)
  | None => MAX_LIFETIME
  end.

Definition find_or_create_binding (username : bytes) (request : StunMessage) : P ptr :=
  r ← get;
  match map_find username (bindings_ r) with
  | Some b => mret b
  | None =>
      b ← new_binding username (str "0") (binding_lifetime request);
      modify (fun r => r <| bindings_ := map_set username b (bindings_ r) |>);;
      mret b
  end.

(** [HandleStunAllocate] of a packet from an unknown address. *)
Definition HandleStunAllocate_new (bytes : bytes) (ap : SocketAddressPair) (socket : sock) : P unit :=
  o ← HandleStun_parse bytes (src_ ap) socket;
  match o with
  | None => mret tt
  | Some (username, request) =>
      if negb (m_type request =? STUN_ALLOCATE_REQUEST) then
        SendStunError request socket (src_ ap) 600 (str "Operation Not Supported") []
      else
        b ← find_or_create_binding username request;
        int_conn ← new_connection b ap socket;
        AddInternalConnection b int_conn;;
        AddConnection int_conn;;
        HandleStunAllocate int_conn request
  end.

Definition OnInternalPacket (socket : sock) (bytes : bytes) (remote_addr : SocketAddress) : P unit :=
  let ap := mkPair remote_addr (GetLocalAddress socket) in
  ASSERT (negb (SockAddr.IsAnyIP (dest_ ap)));;
  r ← get;
  match map_find ap (connections_ r) with
  | None => HandleStunAllocate_new bytes ap socket
  | Some int_conn =>
      c ← conn_at int_conn;
      b ← binding_at (binding_ c);
      if HasMagicCookie b bytes then HandleStun int_conn bytes
      else if negb (locked_ c) then mret tt
      else
        o ← GetExternalConnection (binding_ c) (default_dest_ c);
        match o with
        | Some ext_conn =>
            e ← conn_at ext_conn;
            if locked_ e then conn_Send ext_conn bytes else mret tt
        | None => mret tt
        end
  end.

Definition OnExternalPacket (socket : sock) (bytes : bytes) (remote_addr : SocketAddress) : P unit :=
  let ap := mkPair remote_addr (GetLocalAddress socket) in
  ASSERT (negb (SockAddr.IsAnyIP (dest_ ap)));;
  r ← get;
  match map_find ap (connections_ r) with
  | Some ext_conn =>
      e ← conn_at ext_conn;
      int_conn ← GetInternalConnection (binding_ e) (src_ (addr_pair_ e));
      conn_Send_from int_conn bytes (src_ (addr_pair_ e));;
      Lock ext_conn
  | None =>
      let '(ok, (msg, _)) := StunMsg.Read (B := B) (StunMsg.make, q_of bytes) in
      if negb ok then mret tt
      else
        match StunMsg.GetByteString STUN_ATTR_USERNAME msg with
        | None => mret tt
        | Some username_attr =>
            let username := take (Z.to_nat (Z.min (length_ username_attr) USERNAME_LENGTH))
                              (attr_bytes username_attr) in
            match map_find username (bindings_ r) with
            | None => mret tt
            | Some b =>
                ext_conn ← new_connection b ap socket;
                AddExternalConnection b ext_conn;;
                AddConnection ext_conn;;
                Lock ext_conn;;
                int_conn ← GetInternalConnection b (src_ ap);
                conn_Send_from int_conn bytes (src_ ap)
            end
        end
  end.

(** [OnMessage] of the server: only connection attempts are posted to it. *)
Definition kMessageAcceptConnection : Z := 1.
Definition OnMessage (message_id : Z) (server_socket : sock) (accepted : option sock) : P unit :=
  ASSERT (message_id =? kMessageAcceptConnection);;
  AcceptConnection server_socket accepted.

(** ** Timers *)

(** [Thread::Dispose] of a binding that timed out. *)
Definition OnTimeout (b : ptr) : P unit := modify (fun r => r <| disposed := disposed r ++ [b] |>).

(** A posted lifetime timer of binding [b] fires. *)
Definition binding_OnMessage (b : ptr) : P unit :=
  x ← binding_at b;
  now ← Time;
  if (last_used_ x +u lifetime_ x) <=? now
  then OnTimeout b
  else modify (fun r => r <| posted := posted r ++ [(b, s32 (lifetime_ x))] |>).

(** ** Inspection *)

Definition GetConnectionCount (r : RelayServer) : nat := length (connections_ r).
Definition GetConnection (connection : nat) (r : RelayServer) : option SocketAddressPair :=
  match connections_ r !! connection with
  | Some (_, c) => addr_pair_ <$> conn_heap r !! c
  | None => Some (mkPair SockAddr.Clear SockAddr.Clear)
  end.
Fixpoint HasConnection_in (address : SocketAddress) (l : list (SocketAddressPair * ptr)) (r : RelayServer)
    : option bool :=
  match l with
  | [] => Some false
  | (_, c) :: l =>
      x ← conn_heap r !! c;
      if SockAddr.eqb (dest_ (addr_pair_ x)) address then Some true else HasConnection_in address l r
  end.
Definition HasConnection (address : SocketAddress) (r : RelayServer) : option bool :=
  HasConnection_in address (connections_ r) r.
End Code.
End Relay.
