(* ===== verification/RelayInv.v ===== *)
(** * The objects of the relay server

    [core] is what the server's structure consists of: the two maps, which
    binding and addresses each connection has, which connections each binding
    has, and the pending timers.  [core_inv] says that the maps, back pointers
    and lists agree and that every binding has exactly one pending timer or
    disposal.  The pure steps on cores and their preservation are here. *)

From S2P Require Import Prelude ByteOrder ByteBuffer SocketAddress StdMap Stun StunFacts StunServer StunMessages Effects RelayServer.
#[local] Open Scope jingle_scope.
Import Relay.

Definition cview (c : RelayServerConnection) : ptr * SocketAddressPair * sock :=
  (binding_ c, addr_pair_ c, socket_ c).
Definition bview (b : RelayServerBinding) : bytes * bytes * list ptr * list ptr :=
  (username_ b, magic_cookie_ b, internal_connections_ b, external_connections_ b).

Record Core := mkCore {
  k_bindings : smap bytes ptr;
  k_connections : smap SocketAddressPair ptr;
  k_conns : gmap ptr (ptr * SocketAddressPair * sock);
  k_binds : gmap ptr (bytes * bytes * list ptr * list ptr);
  k_next : ptr;
  k_posted : list ptr;
  k_disposed : list ptr;
  k_ext : list sock;
}.
Definition core (r : RelayServer) : Core :=
  mkCore (bindings_ r) (connections_ r) (cview <$> conn_heap r) (bview <$> binding_heap r) (next_ptr r)
    (map fst (posted r)) (disposed r) (external_sockets_ r).

(** [e] is a binding under construction or deletion: it may lack an internal
    connection and a timer. *)
Record core_inv (e : option ptr) (k : Core) : Prop := {
  ci_key : forall ap c, map_find ap (k_connections k) = Some c ->
    exists b ap' s, k_conns k !! c = Some (b, ap', s) /\ key_same ap ap' = true;
  ci_conn : forall c b ap s, k_conns k !! c = Some (b, ap, s) ->
    map_find ap (k_connections k) = Some c /\ (c < k_next k)%nat /\
    exists u ck i x, k_binds k !! b = Some (u, ck, i, x) /\ c ∈ i ++ x;
  ci_binding : forall b u ck i x, k_binds k !! b = Some (u, ck, i, x) ->
    map_find u (k_bindings k) = Some b /\ (b < k_next k)%nat /\ ck = TURN_MAGIC_COOKIE_VALUE /\
    NoDup (i ++ x) /\ (e <> Some b -> i <> [] /\ b ∈ k_posted k ++ k_disposed k) /\
    (forall c, c ∈ i ++ x -> exists ap s, k_conns k !! c = Some (b, ap, s));
  ci_user : forall u b, map_find u (k_bindings k) = Some b ->
    exists ck i x, k_binds k !! b = Some (u, ck, i, x);
  ci_timers : NoDup (k_posted k ++ k_disposed k);
  ci_timers_live : forall b, b ∈ k_posted k ++ k_disposed k -> is_Some (k_binds k !! b);
}.

Definition empty_core : Core := core make.
Lemma empty_core_inv : core_inv None empty_core.
Proof. split; try done; [constructor|]. intros b Hb. by apply not_elem_of_nil in Hb. Qed.

(** ** A new connection *)

(** Connection [k_next k] to binding [b], on its internal or external list. *)
Definition add_conn (internal : bool) (b : ptr) (ap : SocketAddressPair) (s : sock) (k : Core) : Core :=
  let c := k_next k in
  mkCore (k_bindings k) (map_set ap c (k_connections k)) (<[c := (b, ap, s)]> (k_conns k))
    (alter (fun '(u, ck, i, x) => if internal then (u, ck, i ++ [c], x) else (u, ck, i, x ++ [c])) b (k_binds k))
    (S c) (k_posted k) (k_disposed k) (k_ext k).

Lemma NoDup_insert_last {A} (a : A) l1 l2 (internal : bool) : NoDup (l1 ++ l2) -> a ∉ l1 ++ l2 ->
  NoDup (if internal then (l1 ++ [a]) ++ l2 else l1 ++ l2 ++ [a]).
Proof.
  intros Hn Ha. assert (Hp : a :: l1 ++ l2 ≡ₚ (if internal then (l1 ++ [a]) ++ l2 else l1 ++ l2 ++ [a])).
  { destruct internal; [by rewrite <- app_assoc, Permutation_middle|].
    by rewrite app_assoc, <- Permutation_cons_append. }
  rewrite <- Hp. by constructor.
Qed.

Section Steps.
Variables (e : option ptr) (k : Core).
Hypothesis Hk : core_inv e k.

Lemma conns_fresh : k_conns k !! k_next k = None.
Proof.
  destruct (k_conns k !! k_next k) as [[[b ap] s]|] eqn:E; [|done].
  destruct (ci_conn _ _ Hk _ _ _ _ E) as (_ & Hlt & _). lia.
Qed.
Lemma binds_fresh : k_binds k !! k_next k = None.
Proof.
  destruct (k_binds k !! k_next k) as [[[[u ck] i] x]|] eqn:E; [|done].
  destruct (ci_binding _ _ Hk _ _ _ _ _ E) as (_ & Hlt & _). lia.
Qed.
Lemma conn_ptr_lt c b ap s : k_conns k !! c = Some (b, ap, s) -> c <> k_next k.
Proof. intros E ->. by rewrite conns_fresh in E. Qed.

(** Binding [b] has a timer or a disposal, or is the exempt one. *)
Lemma add_conn_inv internal b ap s u ck i x (e' : option ptr) :
  k_binds k !! b = Some (u, ck, i, x) -> map_find ap (k_connections k) = None ->
  e' = None \/ e' = e -> (e' = None -> e = None \/ e = Some b /\ internal = true /\ b ∈ k_posted k ++ k_disposed k) ->
  core_inv e' (add_conn internal b ap s k).
Proof.
  intros Hb Hap He' He. set (c := k_next k).
  assert (Hnew : forall ap0 c0, map_find ap0 (k_connections k) = Some c0 -> key_same ap0 ap = false).
  { intros ap0 c0 Hf. destruct (key_same ap0 ap) eqn:E; [|done]. by rewrite (map_find_same _ _ _ E) in Hf; rewrite Hf in Hap. }
  destruct (ci_binding _ _ Hk _ _ _ _ _ Hb) as (Hu & Hlt & Hck & Hnd & Hne & Hcs).
  assert (Hc : c ∉ i ++ x).
  { intros Hin. destruct (Hcs _ Hin) as (ap0 & s0 & E). by apply conn_ptr_lt in E. }
  split; cbn [add_conn k_bindings k_connections k_conns k_binds k_next k_posted k_disposed].
  - intros ap0 c0. rewrite map_find_set. destruct (key_same ap0 ap) eqn:Es.
    + intros [= <-]. exists b, ap, s. by rewrite lookup_insert_eq.
    + intros Hf. destruct (ci_key _ _ Hk _ _ Hf) as (b0 & ap' & s0 & E & ?).
      exists b0, ap', s0. rewrite lookup_insert_ne; [done|]. intros <-. by apply conn_ptr_lt in E.
  - intros c0 b0 ap0 s0. destruct (decide (c0 = c)) as [->|Hne0].
    + rewrite lookup_insert_eq. intros [= <- <- <-]. rewrite map_find_set, key_same_refl. split_and!; [done|lia|].
      rewrite lookup_alter_eq, Hb. cbn. destruct internal; do 4 eexists; (split; [done|by rewrite !elem_of_app, list_elem_of_singleton; tauto]).
    + rewrite lookup_insert_ne by done. intros E.
      destruct (ci_conn _ _ Hk _ _ _ _ E) as (Hf & ? & u0 & ck0 & i0 & x0 & E0 & Hin).
      rewrite map_find_set, (Hnew _ _ Hf). split_and!; [done|lia|].
      destruct (decide (b0 = b)) as [->|Hbne].
      * rewrite lookup_alter_eq, Hb. rewrite Hb in E0. injection E0 as -> -> -> ->.
        cbn. rewrite elem_of_app in Hin. destruct internal; do 4 eexists; (split; [done|by rewrite !elem_of_app; tauto]).
      * rewrite lookup_alter_ne by done. by exists u0, ck0, i0, x0.
  - intros b0 u0 ck0 i0 x0. destruct (decide (b0 = b)) as [->|Hbne].
    + rewrite lookup_alter_eq, Hb. cbn. intros E.
      assert (E' : (u0, ck0) = (u, ck) /\ i0 ++ x0 = (if internal then (i ++ [c]) ++ x else i ++ x ++ [c])
        /\ (i <> [] \/ internal = true -> i0 <> [])).
      { destruct internal; injection E as <- <- <- <-; (split_and!; [done|done|]).
        - intros _. by destruct i.
        - by intros [?|?]. }
      destruct E' as (Eu & Happ & Hi). injection Eu as -> ->. rewrite Happ. split_and!; [done|lia|done|by apply NoDup_insert_last| |].
      * intros Hx. destruct He' as [-> | ->].
        -- destruct (He eq_refl) as [->|(-> & -> & ?)]; [destruct Hne; [done|by auto]|by auto].
        -- destruct (Hne Hx). by auto.
      * intros c0 Hin. destruct (decide (c0 = c)) as [->|Hcn]; [rewrite lookup_insert_eq; by eauto|].
        rewrite lookup_insert_ne by done. apply Hcs. rewrite elem_of_app. destruct internal; rewrite !elem_of_app, list_elem_of_singleton in Hin; tauto.
    + rewrite lookup_alter_ne by done. intros E0.
      destruct (ci_binding _ _ Hk _ _ _ _ _ E0) as (? & ? & ? & ? & Hne0 & Hcs0). split_and!; [done|lia|done|done| |].
      * intros Hx. apply Hne0. destruct He' as [-> | ->]; [|done]. destruct (He eq_refl) as [->|(-> & _)]; congruence.
      * intros c0 Hin. destruct (Hcs0 _ Hin) as (ap0 & s0 & E). exists ap0, s0.
        rewrite lookup_insert_ne; [done|]. intros <-. by apply conn_ptr_lt in E.
  - intros u0 b0 Hf. destruct (ci_user _ _ Hk _ _ Hf) as (ck0 & i0 & x0 & E0).
    destruct (decide (b0 = b)) as [->|?]; [|rewrite lookup_alter_ne by done; by eauto].
    rewrite lookup_alter_eq, E0. cbn. destruct internal; by eauto.
  - apply (ci_timers _ _ Hk).
  - intros b0 Hin. apply (ci_timers_live _ _ Hk) in Hin.
    destruct (decide (b0 = b)) as [->|?]; [rewrite lookup_alter_eq, Hb; by eauto|by rewrite lookup_alter_ne].
Qed.

(** ** A new binding *)

Definition add_binding (u : bytes) : Core :=
  let b := k_next k in
  mkCore (map_set u b (k_bindings k)) (k_connections k) (k_conns k)
    (<[b := (u, TURN_MAGIC_COOKIE_VALUE, [], [])]> (k_binds k)) (S b) (k_posted k ++ [b]) (k_disposed k) (k_ext k).

Lemma timers_fresh : k_next k ∉ k_posted k ++ k_disposed k.
Proof. intros Hin. apply (ci_timers_live _ _ Hk) in Hin as [y Hy]. by rewrite binds_fresh in Hy. Qed.

Lemma add_binding_inv u : e = None -> map_find u (k_bindings k) = None ->
  core_inv (Some (k_next k)) (add_binding u).
Proof.
  intros He Hu. set (b := k_next k).
  assert (Hbn : forall b0 y, k_binds k !! b0 = Some y -> b0 <> b).
  { intros b0 y E ->. unfold b in E. by rewrite binds_fresh in E. }
  split; cbn [add_binding k_bindings k_connections k_conns k_binds k_next k_posted k_disposed].
  - apply (ci_key _ _ Hk).
  - intros c0 b0 ap0 s0 E. destruct (ci_conn _ _ Hk _ _ _ _ E) as (? & ? & u0 & ck0 & i0 & x0 & E0 & ?).
    split_and!; [done|lia|]. exists u0, ck0, i0, x0. rewrite lookup_insert_ne; [done|]. intros <-. by apply Hbn in E0.
  - intros b0 u0 ck0 i0 x0. rewrite map_find_set. destruct (decide (b0 = b)) as [->|Hne].
    + rewrite lookup_insert_eq. intros [= <- <- <- <-]. rewrite key_same_refl.
      split_and!; [done|lia|done|constructor|done|]. intros c Hc. by apply not_elem_of_nil in Hc.
    + rewrite lookup_insert_ne by done. intros E0.
      destruct (ci_binding _ _ Hk _ _ _ _ _ E0) as (Hf & ? & ? & ? & Hn & ?).
      destruct (key_same u0 u) eqn:Es; [by rewrite (map_find_same _ _ _ Es), Hu in Hf|].
      split_and!; [done|lia|done|done| |done]. intros _. destruct Hn as [? Hin]; [by rewrite He|].
      split; [done|]. rewrite !elem_of_app in *. tauto.
  - intros u0 b0. rewrite map_find_set. destruct (key_same u0 u) eqn:Es.
    + intros [= <-]. apply string_same in Es as ->. do 3 eexists. by rewrite lookup_insert_eq.
    + intros Hf. destruct (ci_user _ _ Hk _ _ Hf) as (ck0 & i0 & x0 & E0).
      exists ck0, i0, x0. rewrite lookup_insert_ne; [done|]. intros <-. by apply Hbn in E0.
  - assert (Hp : b :: k_posted k ++ k_disposed k ≡ₚ (k_posted k ++ [b]) ++ k_disposed k).
    { by rewrite <- app_assoc, Permutation_middle. }
    enough (Hn : NoDup (b :: k_posted k ++ k_disposed k)) by by rewrite Hp in Hn.
    constructor; [apply timers_fresh|apply (ci_timers _ _ Hk)].
  - intros b0. rewrite !elem_of_app, list_elem_of_singleton. intros Hin. destruct (decide (b0 = b)) as [->|Hne]; [by rewrite lookup_insert_eq; eauto|].
    rewrite lookup_insert_ne by done. apply (ci_timers_live _ _ Hk). rewrite elem_of_app. tauto.
Qed.

(** ** Deleting a binding *)

(** Binding [b] with the connections [l] left. *)
Definition left_conns (b : ptr) (u : bytes) (l : list ptr) : Core :=
  mkCore (k_bindings k) (k_connections k) (k_conns k) (<[b := (u, TURN_MAGIC_COOKIE_VALUE, [], l)]> (k_binds k))
    (k_next k) (k_posted k) (k_disposed k) (k_ext k).
Definition del_conn (c : ptr) (ap : SocketAddressPair) : Core :=
  mkCore (k_bindings k) (map_erase ap (k_connections k)) (base.delete c (k_conns k)) (k_binds k)
    (k_next k) (k_posted k) (k_disposed k) (k_ext k).
Definition del_binding (b : ptr) (u : bytes) : Core :=
  mkCore (map_erase u (k_bindings k)) (k_connections k) (k_conns k) (base.delete b (k_binds k))
    (k_next k) (k_posted k) (k_disposed k) (k_ext k).
End Steps.

Section Delete.
Variables (b : ptr) (k : Core) (u : bytes).

Lemma left_conns_start i x ck : core_inv (Some b) k -> k_binds k !! b = Some (u, ck, i, x) ->
  core_inv (Some b) (left_conns k b u (i ++ x)).
Proof.
  intros Hk Hb. destruct (ci_binding _ _ Hk _ _ _ _ _ Hb) as (Hu & Hlt & -> & Hnd & _ & Hcs).
  split; cbn [left_conns k_bindings k_connections k_conns k_binds k_next k_posted k_disposed];
    [apply (ci_key _ _ Hk)| | | |apply (ci_timers _ _ Hk)|].
  - intros c0 b0 ap0 s0 E. destruct (ci_conn _ _ Hk _ _ _ _ E) as (? & ? & u0 & ck0 & i0 & x0 & E0 & ?).
    split_and!; [done|done|]. destruct (decide (b0 = b)) as [->|?].
    + rewrite Hb in E0. injection E0 as <- <- <- <-. do 4 eexists. by rewrite lookup_insert_eq.
    + do 4 eexists. by rewrite lookup_insert_ne.
  - intros b0 u0 ck0 i0 x0. destruct (decide (b0 = b)) as [->|?].
    + rewrite lookup_insert_eq. intros [= <- <- <- <-]. by split_and!.
    + rewrite lookup_insert_ne by done. apply (ci_binding _ _ Hk).
  - intros u0 b0 Hf. destruct (ci_user _ _ Hk _ _ Hf) as (ck0 & i0 & x0 & E0).
    destruct (decide (b0 = b)) as [->|?]; [|rewrite lookup_insert_ne by done; by eauto].
    rewrite Hb in E0. injection E0 as <- <- <- <-. rewrite lookup_insert_eq. by eauto.
  - intros b0 Hin. apply (ci_timers_live _ _ Hk) in Hin.
    destruct (decide (b0 = b)) as [->|?]; [rewrite lookup_insert_eq; by eauto|by rewrite lookup_insert_ne].
Qed.

Lemma left_conns_step c l : core_inv (Some b) (left_conns k b u (c :: l)) ->
  exists ap s, k_conns k !! c = Some (b, ap, s) /\ map_find ap (k_connections k) = Some c /\
    core_inv (Some b) (left_conns (del_conn k c ap) b u l).
Proof.
  intros Hk. destruct (ci_binding _ _ Hk b u TURN_MAGIC_COOKIE_VALUE [] (c :: l)) as (Hu & Hlt & _ & Hnd & _ & Hcs).
  { cbn [left_conns k_binds]. by rewrite lookup_insert_eq. }
  destruct (Hcs c) as (ap & s & Hc); [by left|]. destruct (ci_conn _ _ Hk _ _ _ _ Hc) as (Hf & _).
  cbn [left_conns k_bindings k_connections k_conns k_binds k_next app] in *. apply NoDup_cons in Hnd as [Hcl Hnd].
  assert (Huniq : forall ap0 c0 b0 s0, k_conns k !! c0 = Some (b0, ap0, s0) -> c0 <> c -> key_same ap0 ap = false).
  { intros ap0 c0 b0 s0 E Hne. destruct (ci_conn _ _ Hk _ _ _ _ E) as (Hf0 & _).
    destruct (key_same ap0 ap) eqn:Es; [|done]. rewrite (map_find_same _ _ _ Es) in Hf0.
    cbn [left_conns k_connections] in Hf0. congruence. }
  exists ap, s. split_and!; [done|done|].
  split; cbn [left_conns del_conn k_bindings k_connections k_conns k_binds k_next k_posted k_disposed];
    [| | | |apply (ci_timers _ _ Hk)|].
  - intros ap0 c0. rewrite map_find_erase. destruct (key_same ap0 ap) eqn:Es; [done|]. intros Hf0.
    destruct (ci_key _ _ Hk _ _ Hf0) as (b0 & ap' & s0 & E & Es').
    exists b0, ap', s0. rewrite lookup_delete_ne; [done|]. intros ->. cbn [left_conns k_conns] in E.
    rewrite Hc in E. injection E as <- <- <-. congruence.
  - intros c0 b0 ap0 s0. destruct (decide (c0 = c)) as [->|Hne]; [by rewrite lookup_delete_eq|].
    rewrite lookup_delete_ne by done. intros E. destruct (ci_conn _ _ Hk _ _ _ _ E) as (Hf0 & ? & u0 & ck0 & i0 & x0 & E0 & Hin).
    cbn [left_conns k_bindings k_connections k_conns k_binds k_next] in *.
    rewrite map_find_erase, (Huniq _ _ _ _ E Hne). split_and!; [done|done|].
    destruct (decide (b0 = b)) as [->|?].
    + rewrite lookup_insert_eq in E0. injection E0 as <- <- <- <-. do 4 eexists. rewrite lookup_insert_eq.
      split; [done|]. by apply elem_of_cons in Hin as [?|?].
    + rewrite lookup_insert_ne in E0 by done. do 4 eexists. by rewrite lookup_insert_ne.
  - intros b0 u0 ck0 i0 x0. destruct (decide (b0 = b)) as [->|?].
    + rewrite lookup_insert_eq. intros [= <- <- <- <-]. split_and!; [done|done|done|done|done|].
      intros c0 Hin. destruct (Hcs c0) as (ap0 & s0 & E); [by right|]. exists ap0, s0.
      rewrite lookup_delete_ne; [done|]. by intros ->.
    + rewrite lookup_insert_ne by done. intros E0.
      destruct (ci_binding _ _ Hk b0 u0 ck0 i0 x0) as (? & ? & ? & ? & ? & Hcs0); [by cbn; rewrite lookup_insert_ne|].
      split_and!; [done..|]. intros c0 Hin. destruct (Hcs0 _ Hin) as (ap0 & s0 & E). exists ap0, s0.
      cbn [left_conns k_conns] in E. rewrite lookup_delete_ne; [done|]. intros ->. congruence.
  - intros u0 b0 Hf0. destruct (ci_user _ _ Hk _ _ Hf0) as (ck0 & i0 & x0 & E0). cbn [left_conns k_binds] in E0.
    destruct (decide (b0 = b)) as [->|?]; [|by rewrite lookup_insert_ne in * by done; eauto].
    rewrite lookup_insert_eq in *. injection E0 as <- <- <- <-. by eauto.
  - intros b0 Hin. apply (ci_timers_live _ _ Hk) in Hin. cbn [left_conns k_binds] in Hin.
    destruct (decide (b0 = b)) as [->|?]; [rewrite lookup_insert_eq; by eauto|by rewrite lookup_insert_ne in * by done].
Qed.

Lemma left_conns_end : core_inv (Some b) (left_conns k b u []) -> b ∉ k_posted k ++ k_disposed k ->
  core_inv None (del_binding k b u).
Proof.
  intros Hk Ht. destruct (ci_binding _ _ Hk b u TURN_MAGIC_COOKIE_VALUE [] []) as (Hu & _).
  { cbn [left_conns k_binds]. by rewrite lookup_insert_eq. }
  assert (Hother : forall c0 ap0 s0, k_conns k !! c0 <> Some (b, ap0, s0)).
  { intros c0 ap0 s0 E. destruct (ci_conn _ _ Hk _ _ _ _ E) as (_ & _ & ? & ? & ? & ? & E0 & Hin).
    cbn [left_conns k_binds] in E0. rewrite lookup_insert_eq in E0. injection E0 as <- <- <- <-.
    by apply not_elem_of_nil in Hin. }
  split; cbn [left_conns del_binding k_bindings k_connections k_conns k_binds k_next k_posted k_disposed];
    [apply (ci_key _ _ Hk)| | | |apply (ci_timers _ _ Hk)|].
  - intros c0 b0 ap0 s0 E. destruct (ci_conn _ _ Hk _ _ _ _ E) as (? & ? & u0 & ck0 & i0 & x0 & E0 & ?).
    split_and!; [done|done|]. destruct (decide (b0 = b)) as [->|?]; [by apply Hother in E|].
    cbn [left_conns k_binds] in E0. rewrite lookup_insert_ne in E0 by done. do 4 eexists. by rewrite lookup_delete_ne.
  - intros b0 u0 ck0 i0 x0. destruct (decide (b0 = b)) as [->|Hne]; [by rewrite lookup_delete_eq|].
    rewrite lookup_delete_ne by done. intros E0.
    destruct (ci_binding _ _ Hk b0 u0 ck0 i0 x0) as (Hf & ? & ? & ? & Hn & ?); [by cbn; rewrite lookup_insert_ne|].
    cbn [left_conns k_bindings k_posted k_disposed] in *. rewrite map_find_erase.
    destruct (key_same u0 u) eqn:Es; [rewrite (map_find_same _ _ _ Es) in Hf; congruence|].
    split_and!; [done..| |done]. intros _. apply Hn. congruence.
  - intros u0 b0. rewrite map_find_erase. destruct (key_same u0 u) eqn:Es; [done|]. intros Hf.
    destruct (ci_user _ _ Hk _ _ Hf) as (ck0 & i0 & x0 & E0). cbn [left_conns k_binds] in E0.
    destruct (decide (b0 = b)) as [->|?].
    + rewrite lookup_insert_eq in E0. injection E0 as -> _ _ _. by rewrite key_same_refl in Es.
    + rewrite lookup_insert_ne in E0 by done. do 3 eexists. by rewrite lookup_delete_ne.
  - intros b0 Hin. destruct (decide (b0 = b)) as [->|?]; [done|].
    apply (ci_timers_live _ _ Hk) in Hin. cbn [left_conns k_binds] in Hin.
    rewrite lookup_insert_ne in Hin by done. by rewrite lookup_delete_ne.
Qed.
End Delete.

(** ** Timers *)

Definition with_timers (ps ds : list ptr) (k : Core) : Core :=
  mkCore (k_bindings k) (k_connections k) (k_conns k) (k_binds k) (k_next k) ps ds (k_ext k).

Lemma timers_inv e e' k ps ds : core_inv e k -> e = None \/ e = e' -> NoDup (ps ++ ds) ->
  (forall b, b ∈ ps ++ ds -> b ∈ k_posted k ++ k_disposed k) ->
  (forall b, e' <> Some b -> b ∈ k_posted k ++ k_disposed k -> b ∈ ps ++ ds) ->
  core_inv e' (with_timers ps ds k).
Proof.
  intros Hk He Hnd Hsub Hsup.
  split; cbn [with_timers k_bindings k_connections k_conns k_binds k_next k_posted k_disposed];
    [apply (ci_key _ _ Hk)|apply (ci_conn _ _ Hk)| |apply (ci_user _ _ Hk)|done|].
  - intros b u ck i x E. destruct (ci_binding _ _ Hk _ _ _ _ _ E) as (? & ? & ? & ? & Hn & ?).
    split_and!; [done..| |done]. intros Hb. destruct Hn as [? Hin]; [|by auto]. destruct He as [-> | ->]; done.
  - intros b Hb. by apply (ci_timers_live _ _ Hk), Hsub.
Qed.

(** A timer of [b] is taken off and replaced. *)
Lemma timers_perm_inv e k ps ds : core_inv e k -> ps ++ ds ≡ₚ k_posted k ++ k_disposed k ->
  core_inv e (with_timers ps ds k).
Proof.
  intros Hk Hp. apply (timers_inv e e); [done|by right|rewrite Hp; apply (ci_timers _ _ Hk)|..];
    intros b; by rewrite Hp.
Qed.

(** ** Reading a core off the state *)

Lemma core_conn r c x : conn_heap r !! c = Some x -> k_conns (core r) !! c = Some (cview x).
Proof. intros E. cbn [core k_conns]. by rewrite lookup_fmap, E. Qed.
Lemma core_bind r b x : binding_heap r !! b = Some x -> k_binds (core r) !! b = Some (bview x).
Proof. intros E. cbn [core k_binds]. by rewrite lookup_fmap, E. Qed.
Lemma conn_core r c v : k_conns (core r) !! c = Some v -> exists x, conn_heap r !! c = Some x /\ cview x = v.
Proof. cbn [core k_conns]. rewrite lookup_fmap. intros (x & ? & ?)%fmap_Some. by exists x. Qed.
Lemma bind_core r b v : k_binds (core r) !! b = Some v -> exists x, binding_heap r !! b = Some x /\ bview x = v.
Proof. cbn [core k_binds]. rewrite lookup_fmap. intros (x & ? & ?)%fmap_Some. by exists x. Qed.

Lemma core_set_conn r c x y : conn_heap r !! c = Some x -> cview y = cview x ->
  cview <$> <[c := y]> (conn_heap r) = cview <$> conn_heap r.
Proof. intros E Ev. rewrite fmap_insert, Ev. apply insert_id. by rewrite lookup_fmap, E. Qed.
Lemma core_set_binding r b x y : binding_heap r !! b = Some x -> bview y = bview x ->
  bview <$> <[b := y]> (binding_heap r) = bview <$> binding_heap r.
Proof. intros E Ev. rewrite fmap_insert, Ev. apply insert_id. by rewrite lookup_fmap, E. Qed.
