(* ===== verification/RelayRuns.v ===== *)
(** * Runs of the relay server

    What each operation does to the core of the server and whom it sends to:
    no operation faults on a server that satisfies the invariant, the
    invariant is kept, and a datagram only goes to a connection of the binding
    it belongs to or back where the request came from. *)

From S2P Require Import Prelude ByteOrder ByteBuffer SocketAddress StdMap Stun StunFacts StunServer StunMessages Effects RelayServer RelayInv.
#[local] Open Scope jingle_scope.
Import Relay.
Import StunAttributeBase.

#[local] Set Default Proof Using "Type".

(** The propositional tactics must not pick the parameters of the model up. *)
Ltac clear_params :=
  repeat match goal with f : nat -> Z |- _ => clear f | f : sock -> SocketAddress |- _ => clear f end.

Section Runs.
Context {B : Type} `{ByteQueue B}.
Variable GetLocalAddress : sock -> SocketAddress.
Variable clock : nat -> Z.
Variable rand : nat -> Z.

Implicit Types (s r : RelayServer) (k : Core) (c b : ptr).

(** ** Dereferences *)

Lemma wp_conn_at c v s (Q : RelayServerConnection -> RelayServer -> Prop) :
  k_conns (core s) !! c = Some v -> (forall x, conn_heap s !! c = Some x -> cview x = v -> Q x s) ->
  wp (conn_at c) Q s.
Proof. intros (x & E & Ev)%conn_core Hq. unfold conn_at. wp_steps. rewrite E. apply pwp_ret. by apply Hq. Qed.
Lemma wp_binding_at b v s (Q : RelayServerBinding -> RelayServer -> Prop) :
  k_binds (core s) !! b = Some v -> (forall x, binding_heap s !! b = Some x -> bview x = v -> Q x s) ->
  wp (binding_at b) Q s.
Proof. intros (x & E & Ev)%bind_core Hq. unfold binding_at. wp_steps. rewrite E. apply pwp_ret. by apply Hq. Qed.

(** ** Sending to the connections of a binding *)

Definition to_binding (b : ptr) (k : Core) (d : sock * bytes * SocketAddress) : Prop :=
  exists c ap, k_conns k !! c = Some (b, ap, fst (fst d)) /\ snd d = src_ ap.

(** From [s] to [s'] the server only sent, to connections of [b]. *)
Definition talks (b : ptr) (s s' : RelayServer) : Prop :=
  core s' = core s /\ exists out, sent s' = sent s ++ out /\ Forall (to_binding b (core s)) out.

Lemma talks_refl b s : talks b s s.
Proof. split; [done|]. exists []. by rewrite app_nil_r. Qed.
Lemma talks_quiet b s s' : core s' = core s -> sent s' = sent s -> talks b s s'.
Proof. intros Hc Hs. split; [done|]. exists []. by rewrite app_nil_r. Qed.
Lemma talks_trans b s1 s2 s3 : talks b s1 s2 -> talks b s2 s3 -> talks b s1 s3.
Proof.
  intros (C1 & o1 & E1 & F1) (C2 & o2 & E2 & F2). split; [congruence|]. exists (o1 ++ o2).
  rewrite E2, E1, app_assoc. split; [done|]. apply Forall_app. rewrite C1 in F2. done.
Qed.

Lemma NoteUsed_wp b s v : k_binds (core s) !! b = Some v ->
  wp (NoteUsed clock b) (fun _ s' => core s' = core s /\ sent s' = sent s /\ conn_heap s' = conn_heap s /\
    disposed s' = disposed s /\ posted s' = posted s /\ internal_sockets_ s' = internal_sockets_ s /\
    server_sockets_ s' = server_sockets_ s /\ rolls s' = rolls s /\
    binding_heap s' = alter (fun x => x <| last_used_ := u32 (clock (ticks s)) |>) b (binding_heap s)) s.
Proof.
  intros Hb. unfold NoteUsed, Time. apply pwp_bind. cbn [wp]. apply pwp_bind.
  apply (wp_binding_at _ v); [done|]. intros x E Ev. cbn in E. unfold set_binding. wp_steps.
  split_and!; try done.
  - unfold core. cbn. by rewrite (core_set_binding _ _ _ _ E).
  - cbn. apply map_eq. intros b'. destruct (decide (b' = b)) as [->|?].
    + by rewrite lookup_insert_eq, lookup_alter_eq, E.
    + by rewrite lookup_insert_ne, lookup_alter_ne by done.
Qed.

Definition sends (b c : ptr) (data : bytes) (s s' : RelayServer) : Prop :=
  core s' = core s /\ conn_heap s' = conn_heap s /\ exists so ap, k_conns (core s) !! c = Some (b, ap, so) /\
    sent s' = sent s ++ [(so, data, src_ ap)].
Lemma sends_talks b c data s s' : sends b c data s s' -> talks b s s'.
Proof.
  intros (C & _ & so & ap & E & S). split; [done|]. eexists. split; [done|]. constructor; [|done].
  by exists c, ap.
Qed.

Lemma conn_Send_wp b c ap so v data s :
  k_conns (core s) !! c = Some (b, ap, so) -> k_binds (core s) !! b = Some v ->
  wp (conn_Send clock c data) (fun _ => sends b c data s) s.
Proof.
  intros Hc Hb. unfold conn_Send. apply pwp_bind. apply (wp_conn_at _ _ _ _ Hc). intros x E [= -> -> ->].
  apply pwp_bind. wp_apply (NoteUsed_wp b s v Hb). intros _ s' (C & S & Hh & _).
  unfold Send. wp_steps. split_and!; [done|done|]. exists so, ap. split; [done|]. cbn. by rewrite S.
Qed.

Lemma conn_SendStun_wp b c ap so v msg s :
  k_conns (core s) !! c = Some (b, ap, so) -> k_binds (core s) !! b = Some v ->
  wp (conn_SendStun (B := B) clock c msg) (fun _ => sends b c (stun_bytes msg) s) s.
Proof.
  intros Hc Hb. unfold conn_SendStun. apply pwp_bind. apply (wp_conn_at _ _ _ _ Hc). intros x E [= -> -> ->].
  apply pwp_bind. wp_apply (NoteUsed_wp b s v Hb). intros _ s' (C & S & Hh & _).
  unfold SendStun, Send. wp_steps. split_and!; [done|done|]. exists so, ap. split; [done|]. cbn. by rewrite S.
Qed.

Lemma conn_SendStunError_wp b c ap so u ck i x0 request code desc s :
  k_conns (core s) !! c = Some (b, ap, so) -> k_binds (core s) !! b = Some (u, ck, i, x0) ->
  wp (conn_SendStunError (B := B) c request code desc)
     (fun _ => sends b c (stun_bytes (error_message request code desc ck)) s) s.
Proof.
  intros Hc Hb. unfold conn_SendStunError. apply pwp_bind. apply (wp_conn_at _ _ _ _ Hc). intros x E [= -> -> ->].
  apply pwp_bind. apply (wp_binding_at _ _ _ _ Hb). intros y _ [= _ -> _ _].
  unfold SendStunError, SendStun, Send. wp_steps. split_and!; [done|done|]. by exists so, ap.
Qed.

(** ** Looking for connections *)

Definition first_conn (s : RelayServer) (test : RelayServerConnection -> bool) (l : list ptr) : option ptr :=
  List.find (fun c => match conn_heap s !! c with Some x => test x | None => false end) l.

Lemma find_conn_wp test l s (Q : option ptr -> RelayServer -> Prop) :
  (forall c, c ∈ l -> is_Some (conn_heap s !! c)) -> Q (first_conn s test l) s -> wp (find_conn test l) Q s.
Proof.
  revert Q. induction l as [|c l IH]; intros Q Hl Hq; cbn [find_conn]; [by apply pwp_ret|].
  apply pwp_bind. destruct (Hl c) as [x E]; [by left|]. unfold conn_at. wp_steps. rewrite E. apply pwp_ret.
  unfold first_conn in Hq. cbn [List.find] in Hq. rewrite E in Hq. destruct (test x); [by apply pwp_ret|].
  apply IH; [intros c' Hc'; apply Hl; by right|done].
Qed.

Lemma first_conn_spec s test l : match first_conn s test l with
    | Some c => c ∈ l /\ exists x, conn_heap s !! c = Some x /\ test x = true
    | None => forall c x, c ∈ l -> conn_heap s !! c = Some x -> test x = false end.
Proof.
  destruct (first_conn s test l) as [c|] eqn:E; unfold first_conn in E.
  - apply List.find_some in E as [Hin Ht]. apply list_elem_of_In in Hin. split; [done|].
    destruct (conn_heap s !! c) as [x|]; [by exists x|done].
  - intros c x Hin Ex. apply list_elem_of_In in Hin. 
    pose proof (List.find_none _ _ E _ Hin) as Hf. cbn in Hf. by rewrite Ex in Hf.
Qed.

(** What the invariant says of a binding's lists. *)
Lemma inv_listed e s b u ck i x c : core_inv e (core s) -> k_binds (core s) !! b = Some (u, ck, i, x) ->
  c ∈ i ++ x -> exists ap so, k_conns (core s) !! c = Some (b, ap, so).
Proof. intros Hk Hb. destruct (ci_binding _ _ Hk _ _ _ _ _ Hb) as (_ & _ & _ & _ & _ & Hcs). apply Hcs. Qed.
Lemma inv_alive e s b u ck i x (l : list ptr) : core_inv e (core s) -> k_binds (core s) !! b = Some (u, ck, i, x) ->
  (forall c, c ∈ l -> c ∈ i ++ x) -> forall c, c ∈ l -> is_Some (conn_heap s !! c).
Proof.
  intros Hk Hb Hl c Hc. destruct (inv_listed _ _ _ _ _ _ _ c Hk Hb) as (ap & so & E); [by auto|].
  apply conn_core in E as (? & ? & _). by eauto.
Qed.

(** The external connection of [y] to [a], the internal one that prefers [a]. *)
Definition ext_of (s : RelayServer) (y : RelayServerBinding) (a : SocketAddress) : option ptr :=
  first_conn s (fun x => SockAddr.eqb a (src_ (addr_pair_ x))) (external_connections_ y).
Definition int_of (s : RelayServer) (y : RelayServerBinding) (a : SocketAddress) : option ptr :=
  match first_conn s (fun x => locked_ x && SockAddr.eqb a (default_dest_ x)) (internal_connections_ y) with
  | Some c => Some c
  | None => head (internal_connections_ y)
  end.

Lemma GetExternalConnection_wp e b y a s (Q : option ptr -> RelayServer -> Prop) :
  core_inv e (core s) -> binding_heap s !! b = Some y -> Q (ext_of s y a) s ->
  wp (GetExternalConnection b a) Q s.
Proof.
  intros Hk Hy Hq. pose proof (core_bind _ _ _ Hy) as Hb. unfold GetExternalConnection. apply pwp_bind.
  apply (wp_binding_at _ _ _ _ Hb). intros y' E _. rewrite Hy in E. injection E as <-.
  apply find_conn_wp; [|done]. eapply inv_alive; [done|done|]. intros c. rewrite elem_of_app. clear_params; tauto.
Qed.

Lemma ext_of_spec e b y a s : core_inv e (core s) -> binding_heap s !! b = Some y ->
  match ext_of s y a with
  | Some c => c ∈ external_connections_ y /\ exists z, conn_heap s !! c = Some z /\ binding_ z = b /\
      SockAddr.eqb a (src_ (addr_pair_ z)) = true
  | None => forall c ap so, c ∈ external_connections_ y -> k_conns (core s) !! c = Some (b, ap, so) ->
      SockAddr.eqb a (src_ ap) = false
  end.
Proof.
  intros Hk Hy. pose proof (core_bind _ _ _ Hy) as Hb.
  pose proof (first_conn_spec s (fun x => SockAddr.eqb a (src_ (addr_pair_ x))) (external_connections_ y)) as Hs.
  change (first_conn _ _ _) with (ext_of s y a) in Hs. destruct (ext_of s y a) as [c|].
  - destruct Hs as (Hin & z & Ez & Ht). split; [done|]. exists z. split_and!; [done| |done].
    destruct (inv_listed _ _ _ _ _ _ _ c Hk Hb) as (ap & so & Ec); [rewrite elem_of_app; clear_params; tauto|].
    apply core_conn in Ez. rewrite Ec in Ez. by injection Ez.
  - intros c ap so Hin Ec. apply conn_core in Ec as (z & Ez & Ev). injection Ev as _ <- _. by eapply Hs.
Qed.

Lemma GetInternalConnection_wp e b y a s (Q : ptr -> RelayServer -> Prop) :
  core_inv e (core s) -> binding_heap s !! b = Some y ->
  (forall c, int_of s y a = Some c -> Q c s) -> internal_connections_ y <> [] ->
  wp (GetInternalConnection b a) Q s.
Proof.
  intros Hk Hy Hq Hi. pose proof (core_bind _ _ _ Hy) as Hb. unfold GetInternalConnection. apply pwp_bind.
  apply (wp_binding_at _ _ _ _ Hb). intros y' E _. rewrite Hy in E. injection E as <-. apply pwp_bind.
  apply find_conn_wp.
  { eapply inv_alive; [done|done|]. intros c. rewrite elem_of_app. clear_params; tauto. }
  unfold int_of in Hq. destruct (first_conn _ _ _) as [c|]; [by apply pwp_ret, Hq|].
  destruct (internal_connections_ y) as [|c i]; [done|]. by apply pwp_ret, Hq.
Qed.

Lemma int_of_spec e b y a s c : core_inv e (core s) -> binding_heap s !! b = Some y -> int_of s y a = Some c ->
  c ∈ internal_connections_ y /\ exists z, conn_heap s !! c = Some z /\ binding_ z = b.
Proof.
  intros Hk Hy Ho. pose proof (core_bind _ _ _ Hy) as Hb.
  assert (Hin : c ∈ internal_connections_ y).
  { unfold int_of in Ho.
    pose proof (first_conn_spec s (fun x => locked_ x && SockAddr.eqb a (default_dest_ x)) (internal_connections_ y)) as Hs.
    destruct (first_conn _ _ _) as [c'|]; [injection Ho as ->; by destruct Hs|].
    destruct (internal_connections_ y) as [|c0 i]; [done|]. injection Ho as ->. by left. }
  split; [done|]. destruct (inv_listed _ _ _ _ _ _ _ c Hk Hb) as (ap & so & Ec); [rewrite elem_of_app; clear_params; tauto|].
  apply conn_core in Ec as (z & Ez & Ev). injection Ev as ? _ _. by exists z.
Qed.

(** ** Locks and destinations *)

(** Changes a connection in what [cview] does not show. *)
Lemma change_conn_wp c v (f : RelayServerConnection -> RelayServerConnection) s :
  (forall x, cview (f x) = cview x) -> k_conns (core s) !! c = Some v ->
  wp (x ← conn_at c; set_conn c (f x))
    (fun _ s' => core s' = core s /\ sent s' = sent s /\ conn_heap s' = alter f c (conn_heap s)) s.
Proof.
  intros Hf Hc. apply pwp_bind. apply (wp_conn_at _ _ _ _ Hc). intros x E _. unfold set_conn. wp_steps.
  split_and!; [|done|].
  - unfold core. cbn. by rewrite (core_set_conn _ _ _ (f x) E).
  - cbn. apply map_eq. intros c'. destruct (decide (c' = c)) as [->|?].
    + by rewrite lookup_insert_eq, lookup_alter_eq, E.
    + by rewrite lookup_insert_ne, lookup_alter_ne by done.
Qed.
Lemma Lock_wp c v s : k_conns (core s) !! c = Some v ->
  wp (Lock c) (fun _ s' => core s' = core s /\ sent s' = sent s /\
    conn_heap s' = alter (fun x => x <| locked_ := true |>) c (conn_heap s)) s.
Proof. by apply (change_conn_wp c v (fun x => x <| locked_ := true |>)). Qed.
Lemma set_default_destination_wp c v a s : k_conns (core s) !! c = Some v ->
  wp (set_default_destination c a) (fun _ s' => core s' = core s /\ sent s' = sent s /\
    conn_heap s' = alter (fun x => x <| default_dest_ := a |>) c (conn_heap s)) s.
Proof. by apply (change_conn_wp c v (fun x => x <| default_dest_ := a |>)). Qed.

(** The bytes a connection sends for data from [a]: raw if it is locked to
    [a], else wrapped. *)
Definition forwarded (x : RelayServerConnection) (ck data : bytes) (a : SocketAddress) : bytes :=
  if locked_ x && SockAddr.eqb a (default_dest_ x) then data else stun_bytes (data_indication ck data a).

Lemma conn_Send_from_wp b c ap so u ck i x0 x data a s :
  k_conns (core s) !! c = Some (b, ap, so) -> k_binds (core s) !! b = Some (u, ck, i, x0) ->
  conn_heap s !! c = Some x -> Z.of_nat (length data) <= 65536 ->
  wp (conn_Send_from (B := B) clock c data a) (fun _ => sends b c (forwarded x ck data a) s) s.
Proof.
  intros Hc Hb Hx Hl. unfold conn_Send_from, forwarded. apply pwp_bind. apply (wp_conn_at _ _ _ _ Hc).
  intros x' E Ev. rewrite Hx in E. injection E as <-.
  destruct (locked_ x && SockAddr.eqb a (default_dest_ x)); [by eapply conn_Send_wp|].
  injection Ev as Eb _ _. rewrite Eb. apply pwp_bind. apply (wp_binding_at _ _ _ _ Hb). intros y _ [= _ -> _ _].
  apply pwp_bind, pwp_assert; [by apply Z.leb_le|]. by eapply conn_SendStun_wp.
Qed.

(** ** Growing *)

(** From [s] to [s'] the server sent to connections of [b], and may have
    gained connections. *)
Definition does (b : ptr) (s s' : RelayServer) : Prop :=
  (exists out, sent s' = sent s ++ out /\ Forall (to_binding b (core s')) out) /\
  k_conns (core s) ⊆ k_conns (core s') /\
  (forall ap c, map_find ap (connections_ s) = Some c -> map_find ap (connections_ s') = Some c) /\
  external_sockets_ s' = external_sockets_ s.

Lemma to_binding_mono b k k' d : k_conns k ⊆ k_conns k' -> to_binding b k d -> to_binding b k' d.
Proof. intros Hs (c & ap & E & ?). exists c, ap. split; [|done]. by eapply lookup_weaken. Qed.

Lemma core_fields s s' : core s' = core s -> bindings_ s' = bindings_ s /\ connections_ s' = connections_ s /\
  external_sockets_ s' = external_sockets_ s /\ disposed s' = disposed s.
Proof. by intros [=]. Qed.

Lemma talks_does b s s' : talks b s s' -> does b s s'.
Proof.
  intros (C & out & S & F). destruct (core_fields _ _ C) as (_ & Cc & Ce & _).
  split_and!; [|by rewrite C|by rewrite Cc|done]. exists out. by rewrite C.
Qed.
Lemma does_trans b s1 s2 s3 : does b s1 s2 -> does b s2 s3 -> does b s1 s3.
Proof.
  intros ((o1 & S1 & F1) & M1 & N1 & X1) ((o2 & S2 & F2) & M2 & N2 & X2).
  split_and!; [|by etrans|by auto|congruence].
  exists (o1 ++ o2). rewrite S2, S1, app_assoc. split; [done|]. apply Forall_app. split; [|done].
  eapply Forall_impl; [exact F1|]. intros d. by apply to_binding_mono.
Qed.

Definition blank (b : ptr) (ap : SocketAddressPair) (so : sock) : RelayServerConnection :=
  mkConn b ap so false SockAddr.Clear.

Lemma wp_alloc s (Q : ptr -> RelayServer -> Prop) :
  Q (next_ptr s) (s <| next_ptr := S (next_ptr s) |>) -> wp alloc Q s.
Proof. done. Qed.
Lemma wp_Time s (Q : Z -> RelayServer -> Prop) :
  Q (u32 (clock (ticks s))) (s <| ticks := S (ticks s) |>) -> wp (Time clock) Q s.
Proof. done. Qed.

Lemma new_connection_wp b ap so v s : k_binds (core s) !! b = Some v ->
  wp (new_connection clock b ap so) (fun c s' => c = next_ptr s /\ next_ptr s' = S (next_ptr s) /\
    conn_heap s' = <[next_ptr s := blank b ap so]> (conn_heap s) /\
    binding_heap s' = alter (fun x => x <| last_used_ := u32 (clock (ticks s)) |>) b (binding_heap s) /\
    bindings_ s' = bindings_ s /\ connections_ s' = connections_ s /\ posted s' = posted s /\
    disposed s' = disposed s /\ external_sockets_ s' = external_sockets_ s /\ sent s' = sent s) s.
Proof.
  intros (y & Ey & _)%bind_core. unfold new_connection, set_conn, NoteUsed, binding_at, set_binding.
  apply pwp_bind, wp_alloc, pwp_bind, pwp_modify, pwp_bind, pwp_bind, wp_Time, pwp_bind, pwp_bind, wp_gets.
  eapply wp_the; [exact Ey|]. apply pwp_modify, pwp_ret. cbn.
  split_and!; try done. apply map_eq. intros b'. destruct (decide (b' = b)) as [->|?].
  - by rewrite lookup_insert_eq, lookup_alter_eq, Ey.
  - by rewrite lookup_insert_ne, lookup_alter_ne by done.
Qed.

Definition listed (internal : bool) (c : ptr) (y : RelayServerBinding) : RelayServerBinding :=
  if internal then y <| internal_connections_ := internal_connections_ y ++ [c] |>
  else y <| external_connections_ := external_connections_ y ++ [c] |>.

Lemma Add_wp (internal : bool) b c v s (Q : unit -> RelayServer -> Prop) : k_binds (core s) !! b = Some v ->
  Q tt (s <| binding_heap := alter (listed internal c) b (binding_heap s) |>) ->
  wp (if internal then AddInternalConnection b c else AddExternalConnection b c) Q s.
Proof.
  intros (y & Ey & _)%bind_core Hq.
  assert (E : alter (listed internal c) b (binding_heap s) = <[b := listed internal c y]> (binding_heap s)).
  { apply map_eq. intros b'. destruct (decide (b' = b)) as [->|?].
    - by rewrite lookup_insert_eq, lookup_alter_eq, Ey.
    - by rewrite lookup_insert_ne, lookup_alter_ne by done. }
  rewrite E in Hq. destruct internal; unfold AddInternalConnection, AddExternalConnection, binding_at, set_binding;
    apply pwp_bind, pwp_bind, wp_gets; (eapply wp_the; [exact Ey|]); by apply pwp_modify.
Qed.

(** A new connection, entered in the list of its binding and in the map. *)
Lemma grow_wp {A} (internal : bool) b ap so v s (f : ptr -> P A) Q :
  k_binds (core s) !! b = Some v -> map_find ap (connections_ s) = None ->
  (forall s', core s' = add_conn internal b ap so (core s) -> sent s' = sent s ->
    conn_heap s' = <[next_ptr s := blank b ap so]> (conn_heap s) ->
    lifetime_ <$> binding_heap s' = lifetime_ <$> binding_heap s -> wp (f (next_ptr s)) Q s') ->
  wp (c ← new_connection clock b ap so;
      (if internal then AddInternalConnection b c else AddExternalConnection b c);;
      AddConnection c;; f c) Q s.
Proof.
  intros Hb Hap Hq. apply pwp_bind. wp_apply (new_connection_wp b ap so v s Hb).
  intros c s1 (-> & N1 & C1 & B1 & U1 & M1 & P1 & D1 & X1 & S1). apply pwp_bind.
  assert (exists w, k_binds (core s1) !! b = Some w) as [w Hw].
  { apply bind_core in Hb as (y & Ey & _). cbn [core k_binds]. rewrite B1, lookup_fmap, lookup_alter_eq, Ey. by eexists. }
  apply (Add_wp _ _ _ _ _ _ Hw). unfold AddConnection, conn_at. apply pwp_bind, pwp_bind, pwp_bind, wp_gets.
  cbn [conn_heap]. eapply wp_the; [cbn; by rewrite C1, lookup_insert_eq|]. apply pwp_bind, pwp_get, pwp_bind.
  apply pwp_assert; [cbn; by rewrite M1, Hap|]. apply pwp_modify. apply Hq; cbn; [|done|done|].
  2: { rewrite B1. apply map_eq. intros b'. rewrite !lookup_fmap. destruct (decide (b' = b)) as [->|?].
       - rewrite !lookup_alter_eq. by destruct (binding_heap s !! b), internal.
       - by rewrite !lookup_alter_ne by done. }
  unfold core, add_conn. cbn. rewrite N1, C1, B1, U1, M1, P1, D1, X1, fmap_insert. f_equal.
  apply map_eq. intros b'. rewrite lookup_fmap. destruct (decide (b' = b)) as [->|?].
  - rewrite !lookup_alter_eq, lookup_fmap. by destruct (binding_heap s !! b), internal.
  - by rewrite !lookup_alter_ne, lookup_fmap by done.
Qed.

Lemma add_conn_does e internal b ap so s s' : core_inv e (core s) -> map_find ap (connections_ s) = None ->
  core s' = add_conn internal b ap so (core s) -> sent s' = sent s -> does b s s'.
Proof.
  intros Hk Hap C S. split_and!.
  - exists []. by rewrite app_nil_r.
  - rewrite C. cbn [add_conn k_conns]. apply insert_subseteq. by apply (conns_fresh e).
  - intros ap0 c0 Hf. assert (E : connections_ s' = k_connections (core s')) by done. rewrite E, C.
    cbn [add_conn k_connections core]. rewrite map_find_set.
    destruct (key_same ap0 ap) eqn:Es; [|done]. rewrite (map_find_same _ _ _ Es) in Hf. congruence.
  - by injection C.
Qed.

(** ** Requests *)

(** The user and the message of a request that [HandleStun] accepts. *)
Definition request_of (data : bytes) : option (bytes * StunMessage) :=
  let '(ok, (msg, _)) := StunMsg.Read (B := B) (StunMsg.make, q_of data) in
  if ok then (fun a => (attr_bytes a, msg)) <$> StunMsg.GetByteString STUN_ATTR_USERNAME msg else None.

Lemma HandleStun_parse_wp data remote so s :
  wp (HandleStun_parse (B := B) data remote so) (fun o s' => o = request_of data /\ core s' = core s /\
    conn_heap s' = conn_heap s /\
    match o with Some _ => s' = s | None => exists d, sent s' = sent s ++ [(so, d, remote)] end) s.
Proof.
  unfold HandleStun_parse, request_of. destruct (StunMsg.Read _) as [ok [msg q]].
  destruct ok; cbn [negb]; [destruct (StunMsg.GetByteString _ _)|];
    unfold SendStunError, SendStun, Send; wp_steps; split_and!; try done; by eexists.
Qed.

(** The destination of a SEND request. *)
Definition send_destination (request : StunMessage) : option SocketAddress :=
  if bool_decide (m_type request = STUN_SEND_REQUEST) then
    attr_address <$> StunMsg.GetAddress STUN_ATTR_DESTINATION_ADDRESS request
  else None.

(** [a] is not the remote address of a connection of the external socket
    outside the external list of [b]. *)
Definition clear_for (b : ptr) (a : SocketAddress) (s : RelayServer) : Prop :=
  forall so, external_sockets_ s = [so] -> map_find (mkPair a (GetLocalAddress so)) (connections_ s) = None \/
    exists c ap so' u ck i x, k_conns (core s) !! c = Some (b, ap, so') /\
      k_binds (core s) !! b = Some (u, ck, i, x) /\ c ∈ x /\ SockAddr.eqb a (src_ ap) = true.

Lemma get_or_add_external_wp b a v s :
  core_inv None (core s) -> k_binds (core s) !! b = Some v ->
  (exists so, external_sockets_ s = [so]) -> clear_for b a s ->
  wp (get_or_add_external GetLocalAddress clock b a) (fun c s' => core_inv None (core s') /\ does b s s' /\
    exists ap so, k_conns (core s') !! c = Some (b, ap, so) /\ SockAddr.eqb a (src_ ap) = true) s.
Proof.
  intros Hk Hb [so Hso] Hclear. pose proof Hb as (y & Hy & <-)%bind_core. unfold get_or_add_external. apply pwp_bind.
  apply (GetExternalConnection_wp _ _ _ _ _ _ Hk Hy). pose proof (ext_of_spec _ _ _ a _ Hk Hy) as Ho.
  destruct (ext_of s y a) as [c|].
  - apply pwp_ret. destruct Ho as (_ & z & Ez & Hbz & Ha). split_and!; [done|by apply talks_does, talks_refl|].
    apply core_conn in Ez. unfold cview in Ez. rewrite Hbz in Ez. by exists (addr_pair_ z), (socket_ z).
  - assert (Hap : map_find (mkPair a (GetLocalAddress so)) (connections_ s) = None).
    { destruct (Hclear so Hso) as [?|(c & ap & so' & u' & ck' & i' & x' & Hc & Hb' & Hin & Ha)]; [done|].
      rewrite Hb in Hb'. injection Hb' as <- <- <- <-. by rewrite (Ho c ap so') in Ha. }
    apply pwp_bind, pwp_get, pwp_bind. apply pwp_assert; [by rewrite Hso|]. rewrite Hso. apply pwp_bind.
    eapply wp_the; [done|]. eapply (grow_wp false); [exact Hb|done|]. intros s' C S Hh _. apply pwp_ret.
    split_and!; [|by eapply (add_conn_does None false)|].
    + rewrite C. eapply add_conn_inv; [exact Hk|exact Hb|done|by left|by left].
    + do 2 eexists. rewrite C. cbn [add_conn k_conns k_next core]. rewrite lookup_insert_eq. split; [done|].
      cbn. by apply SockAddr.eqb_key.
Qed.

Lemma does_conn b s s' c v : does b s s' -> k_conns (core s) !! c = Some v -> k_conns (core s') !! c = Some v.
Proof. intros (_ & Hm & _) E. by eapply lookup_weaken. Qed.
Lemma inv_bind e s c b ap so : core_inv e (core s) -> k_conns (core s) !! c = Some (b, ap, so) ->
  exists u i x, k_binds (core s) !! b = Some (u, TURN_MAGIC_COOKIE_VALUE, i, x).
Proof.
  intros Hk Hc. destruct (ci_conn _ _ Hk _ _ _ _ Hc) as (_ & _ & u & ck & i & x & E & _).
  destruct (ci_binding _ _ Hk _ _ _ _ _ E) as (_ & _ & -> & _). by eauto.
Qed.

(** A step of [b] that leaves the invariant. *)
Definition good (b : ptr) (s s' : RelayServer) : Prop := core_inv None (core s') /\ does b s s'.
Lemma good_talks b s s' : core_inv None (core s) -> talks b s s' -> good b s s'.
Proof. intros Hk Ht. split; [|by apply talks_does]. by destruct Ht as [-> _]. Qed.
Lemma good_sends b c d s s' : core_inv None (core s) -> sends b c d s s' -> good b s s'.
Proof. intros Hk Hs. eapply good_talks, sends_talks; done. Qed.
Lemma good_quiet b s s' : core_inv None (core s) -> core s' = core s -> sent s' = sent s -> good b s s'.
Proof. intros Hk C S. by apply good_talks, talks_quiet. Qed.
Lemma good_trans b s1 s2 s3 : good b s1 s2 -> good b s2 s3 -> good b s1 s3.
Proof. intros [_ D1] [I2 D2]. split; [done|]. by eapply does_trans. Qed.
Lemma good_refl b s : core_inv None (core s) -> good b s s.
Proof. intros. by apply good_quiet. Qed.

Lemma HandleStunSend_wp b c ap so request s :
  core_inv None (core s) -> k_conns (core s) !! c = Some (b, ap, so) ->
  (exists e, external_sockets_ s = [e]) ->
  (forall a, send_destination request = Some a -> clear_for b a s) ->
  m_type request = STUN_SEND_REQUEST ->
  wp (HandleStunSend (B := B) GetLocalAddress clock c request) (fun _ => good b s) s.
Proof.
  intros Hk Hc Hx Hcl Ht. destruct (inv_bind _ _ _ _ _ _ Hk Hc) as (u & i & x & Hb).
  unfold send_destination in Hcl. rewrite bool_decide_true in Hcl by done. unfold HandleStunSend.
  destruct (StunMsg.GetAddress _ _) as [addr_attr|];
    [|wp_apply (conn_SendStunError_wp _ _ _ _ _ _ _ _ request 400 (str "Bad Request") _ Hc Hb); intros ? ?; by eapply good_sends].
  destruct (StunMsg.GetByteString _ _) as [data_attr|];
    [|wp_apply (conn_SendStunError_wp _ _ _ _ _ _ _ _ request 400 (str "Bad Request") _ Hc Hb); intros ? ?; by eapply good_sends].
  apply pwp_bind. apply (wp_conn_at _ _ _ _ Hc). intros y _ Ey. injection Ey as Eb _ _. rewrite Eb.
  apply pwp_bind. wp_apply (get_or_add_external_wp b (attr_address addr_attr) _ s Hk Hb Hx); [by apply Hcl|].
  intros ext s1 (Hk1 & D1 & apx & sox & Hext & _).
  assert (G1 : good b s s1) by done.
  assert (Hc1 : k_conns (core s1) !! c = Some (b, ap, so)) by by eapply does_conn.
  destruct (inv_bind _ _ _ _ _ _ Hk1 Hc1) as (u1 & i1 & x1 & Hb1).
  apply pwp_bind. apply (wp_conn_at _ _ _ _ Hext). intros z _ _. apply pwp_bind.
  eapply (pwp_mono _ (fun _ => good b s1)).
  { destruct (locked_ z); [|by apply pwp_ret, good_refl].
    wp_apply (conn_Send_wp _ _ _ _ _ (attr_bytes data_attr) _ Hext Hb1). intros _ s'. by apply good_sends. }
  intros _ s2 G2. destruct (StunMsg.GetUInt32 _ _) as [opt|]; [|by apply pwp_ret; eapply good_trans].
  destruct (negb _); [|by apply pwp_ret; eapply good_trans].
  pose proof G2 as [Hk2 D2]. assert (Hc2 : k_conns (core s2) !! c = Some (b, ap, so)) by by eapply does_conn.
  apply pwp_bind. wp_apply (set_default_destination_wp _ _ (attr_address addr_attr) _ Hc2). intros _ s3 (C3 & S3 & _).
  rewrite <- C3 in Hc2. apply pwp_bind. wp_apply (Lock_wp _ _ _ Hc2). intros _ s4 (C4 & S4 & _).
  assert (G4 : good b s2 s4) by (apply good_quiet; congruence). pose proof G4 as [Hk4 D4].
  rewrite <- C4 in Hc2. destruct (inv_bind _ _ _ _ _ _ Hk4 Hc2) as (u4 & i4 & x4 & Hb4).
  apply pwp_bind. apply (wp_binding_at _ _ _ _ Hb4). intros w _ _.
  wp_apply (conn_SendStun_wp _ _ _ _ _ (send_response request w) _ Hc2 Hb4). intros _ s5 G5.
  apply (good_sends b) in G5; [|done]. exact (good_trans _ _ _ _ G1 (good_trans _ _ _ _ G2 (good_trans _ _ _ _ G4 G5))).
Qed.

Lemma HandleStunAllocate_wp b c ap so request s :
  core_inv None (core s) -> k_conns (core s) !! c = Some (b, ap, so) -> external_sockets_ s <> [] ->
  wp (HandleStunAllocate (B := B) GetLocalAddress clock rand c request) (fun _ s' => exists y n ext,
    binding_heap s !! b = Some y /\ external_sockets_ s !! n = Some ext /\
    sends b c (stun_bytes (allocate_response request y (GetLocalAddress ext))) s s') s.
Proof.
  intros Hk Hc Hx. destruct (inv_bind _ _ _ _ _ _ Hk Hc) as (u & i & x & Hb). unfold HandleStunAllocate.
  apply pwp_bind. apply (wp_conn_at _ _ _ _ Hc). intros y _ Ey. injection Ey as Eb _ _. rewrite Eb.
  apply pwp_bind. apply (wp_binding_at _ _ _ _ Hb). intros w Hw _. apply pwp_bind, pwp_get.
  destruct (external_sockets_ s) as [|e0 es] eqn:Ex; [done|]. apply pwp_bind. unfold roll. cbn [wp].
  set (index := rand (rolls s) mod _). assert (Hi : (Z.to_nat index < length (e0 :: es))%nat).
  { unfold index. assert (0 < Z.of_nat (length (e0 :: es))) by (cbn; lia).
    pose proof (Z.mod_pos_bound (rand (rolls s)) (Z.of_nat (length (e0 :: es)))). lia. }
  apply lookup_lt_is_Some_2 in Hi as [ext He].
  apply pwp_bind. eapply wp_the; [exact He|].
  set (s1 := s <| rolls := S (rolls s) |>). assert (F : core s1 = core s /\ sent s1 = sent s /\ conn_heap s1 = conn_heap s) by done.
  clearbody s1. destruct F as (C1 & S1 & H1).
  rewrite <- C1 in Hb, Hc. wp_apply (conn_SendStun_wp b c ap so _ (allocate_response request w (GetLocalAddress ext)) s1 Hc Hb).
  intros _ s' Hs. exists w, (Z.to_nat index), ext. split_and!; [done|done|].
  unfold sends in *. by rewrite <- C1, <- S1, <- H1.
Qed.

Definition may_send (b : ptr) (data : bytes) (s : RelayServer) : Prop :=
  forall u request a, request_of data = Some (u, request) -> send_destination request = Some a -> clear_for b a s.

Lemma HandleStun_wp b c ap so data s :
  core_inv None (core s) -> k_conns (core s) !! c = Some (b, ap, so) ->
  (exists e, external_sockets_ s = [e]) -> may_send b data s ->
  wp (HandleStun (B := B) GetLocalAddress clock rand c data) (fun _ => good b s) s.
Proof.
  intros Hk Hc Hx Hsend. destruct (inv_bind _ _ _ _ _ _ Hk Hc) as (u & i & x & Hb). unfold HandleStun.
  apply pwp_bind. apply (wp_conn_at _ _ _ _ Hc). intros y _ Ey. injection Ey as Eb Eap Es. rewrite Eb, Eap, Es.
  apply pwp_bind. wp_apply (HandleStun_parse_wp data (src_ ap) so s). intros o s1 (Ho & C1 & _ & H1).
  destruct o as [[user request]|].
  - subst s1. apply pwp_bind. apply (wp_binding_at _ _ _ _ Hb). intros w _ _.
    destruct (negb _).
    { wp_apply (conn_SendStunError_wp _ _ _ _ _ _ _ _ request 430 (str "Stale Credentials") _ Hc Hb). intros ? ?. by eapply good_sends. }
    destruct (m_type request =? STUN_SEND_REQUEST) eqn:Et.
    { apply Z.eqb_eq in Et. eapply HandleStunSend_wp; [done|done|done| |done]. intros a. by apply (Hsend user). }
    destruct (m_type request =? STUN_ALLOCATE_REQUEST).
    { assert (Hne : external_sockets_ s <> []) by (destruct Hx as [? ->]; done).
      wp_apply (HandleStunAllocate_wp _ _ _ _ request _ Hk Hc Hne).
      intros _ s' (? & ? & ? & _ & _ & Hs). by eapply good_sends. }
    wp_apply (conn_SendStunError_wp _ _ _ _ _ _ _ _ request 600 (str "Operation Not Supported") _ Hc Hb). intros ? ?. by eapply good_sends.
  - apply pwp_ret. destruct H1 as [d Hd]. apply good_talks; [done|]. split; [done|]. eexists. split; [done|].
    constructor; [|done]. by exists c, ap.
Qed.

(** ** Packets *)

(** A datagram from [remote] on [so] was only answered to its sender, or was
    served for the binding of its connection. *)
Definition served (so : sock) (remote : SocketAddress) (s s' : RelayServer) : Prop :=
  core s' = core s /\ (exists out, sent s' = sent s ++ out /\ Forall (fun d => fst (fst d) = so /\ snd d = remote) out) \/
  exists b c ap so', map_find (mkPair remote (GetLocalAddress so)) (connections_ s') = Some c /\
    k_conns (core s') !! c = Some (b, ap, so') /\ does b s s'.

Lemma find_or_create_binding_wp u request s : core_inv None (core s) ->
  wp (find_or_create_binding clock u request) (fun b s' => sent s' = sent s /\ connections_ s' = connections_ s /\
    external_sockets_ s' = external_sockets_ s /\ conn_heap s' = conn_heap s /\
    exists y, binding_heap s' !! b = Some y /\ username_ y = u /\ magic_cookie_ y = TURN_MAGIC_COOKIE_VALUE /\
      (core s' = core s /\ binding_heap s' = binding_heap s \/
       core_inv (Some b) (core s') /\ b ∈ k_posted (core s') /\ map_find u (bindings_ s) = None /\
       lifetime_ y = binding_lifetime request /\ password_ y = str "0")) s.
Proof.
  intros Hk. unfold find_or_create_binding. apply pwp_bind, pwp_get.
  destruct (map_find u (bindings_ s)) as [b|] eqn:Hu.
  - apply pwp_ret. split_and!; try done. destruct (ci_user _ _ Hk _ _ Hu) as (ck & i & x & E).
    destruct (ci_binding _ _ Hk _ _ _ _ _ E) as (_ & _ & -> & _). apply bind_core in E as (y & Ey & Ev).
    injection Ev as E1 E2 _ _. exists y. split_and!; try done. by left.
  - unfold new_binding, set_binding, NoteUsed, binding_at.
    apply pwp_bind, pwp_bind, wp_alloc, pwp_bind, pwp_modify, pwp_bind, pwp_bind, wp_Time, pwp_bind, pwp_bind, wp_gets.
    eapply wp_the; [by apply lookup_insert_eq|].
    apply pwp_modify, pwp_bind, pwp_modify, pwp_ret, pwp_bind, pwp_modify, pwp_ret. cbn -[TURN_MAGIC_COOKIE_VALUE str].
    split_and!; try done. eexists. rewrite lookup_insert_eq. split_and!; [done..|]. right. split_and!; try done.
    + refine (eq_ind_r (core_inv _) (add_binding_inv None (core s) Hk u eq_refl Hu) _).
      unfold core, add_binding. cbn. by rewrite !fmap_insert, insert_insert_eq, map_app.
    + rewrite map_app, elem_of_app. right. by left.
Qed.

Lemma does_quiet b s s' : sent s' = sent s -> connections_ s' = connections_ s ->
  external_sockets_ s' = external_sockets_ s -> conn_heap s' = conn_heap s -> does b s s'.
Proof.
  intros S M X Hh. split_and!; [|by unfold core; cbn; rewrite Hh|by rewrite M|done].
  exists []. by rewrite app_nil_r.
Qed.

(** What an allocate request of a new address achieves: the user's binding,
    old or new, has the connection, and the answer is the only datagram. *)
Definition allocated (ap : SocketAddressPair) (so : sock) (u : bytes) (request : StunMessage) (s s' : RelayServer)
    : Prop :=
  exists b c y n ext, map_find u (bindings_ s') = Some b /\ map_find ap (connections_ s') = Some c /\
    conn_heap s' !! c = Some (blank b ap so) /\ username_ y = u /\ magic_cookie_ y = TURN_MAGIC_COOKIE_VALUE /\
    (map_find u (bindings_ s) = None /\ lifetime_ y = binding_lifetime request /\ b ∈ k_posted (core s') \/
     map_find u (bindings_ s) = Some b /\ binding_heap s !! b = Some y) /\
    external_sockets_ s !! n = Some ext /\
    sent s' = sent s ++ [(so, stun_bytes (allocate_response request y (GetLocalAddress ext)), src_ ap)].

Lemma HandleStunAllocate_new_wp data remote so s :
  let ap := mkPair remote (GetLocalAddress so) in
  core_inv None (core s) -> external_sockets_ s <> [] -> map_find ap (connections_ s) = None ->
  wp (HandleStunAllocate_new (B := B) GetLocalAddress clock rand data ap so)
    (fun _ s' => core_inv None (core s') /\ served so remote s s' /\
      (forall u request, request_of data = Some (u, request) -> m_type request = STUN_ALLOCATE_REQUEST ->
         allocated ap so u request s s')) s.
Proof.
  intros ap Hk Hx Hap. unfold HandleStunAllocate_new.
  apply pwp_bind. wp_apply (HandleStun_parse_wp data (src_ ap) so s). intros o s1 (Ho & C1 & H1 & S1).
  destruct o as [[u request]|].
  2: { apply pwp_ret. rewrite C1. split_and!; [done| |by rewrite <- Ho]. left. split; [done|].
       destruct S1 as [d ->]. eexists. split; [done|]. by constructor. }
  subst s1. rewrite <- Ho. destruct (m_type request =? STUN_ALLOCATE_REQUEST) eqn:Et; cbn [negb].
  2: { unfold SendStunError, SendStun, Send. apply pwp_modify. split_and!; [done| |].
       - left. split; [done|]. eexists. split; [done|]. by constructor.
       - intros u' r' [= <- <-] Hr. by apply Z.eqb_neq in Et. }
  apply pwp_bind. wp_apply (find_or_create_binding_wp u request s Hk).
  intros b s1 (S1 & M1 & X1 & Hh1 & y & Ey & Hy & Hck & Hcase).
  pose proof (core_bind _ _ _ Ey) as Hb. eapply (grow_wp true); [exact Hb|by rewrite M1|].
  intros s2 C2 S2 Hh2 L2.
  assert (Hk1 : exists e, core_inv e (core s1) /\ (e = None \/ e = Some b /\ b ∈ k_posted (core s1) ++ k_disposed (core s1))).
  { destruct Hcase as [[-> _]|(? & Hin & _)]; [by eauto|]. exists (Some b). rewrite elem_of_app. auto. }
  destruct Hk1 as (e & Hk1 & He). assert (Hk2 : core_inv None (core s2)).
  { rewrite C2. eapply add_conn_inv; [exact Hk1|exact Hb|by cbn; rewrite M1|by left|].
    intros _. destruct He as [->|[-> ?]]; auto. }
  set (c := next_ptr s1) in *.
  assert (Hc2 : k_conns (core s2) !! c = Some (b, ap, so)).
  { rewrite C2. cbn [add_conn k_conns k_next core]. by rewrite lookup_insert_eq. }
  assert (Hx2 : external_sockets_ s2 = external_sockets_ s) by (injection C2 as _ _ _ _ _ _ _ ->; done).
  assert (Hne : external_sockets_ s2 <> []) by by rewrite Hx2.
  assert (D2 : does b s s2).
  { apply (does_trans b s s1 s2); [by apply does_quiet|].
    eapply (add_conn_does e true); [done| |done|done]. by rewrite M1. }
  wp_apply (HandleStunAllocate_wp _ _ _ _ request _ Hk2 Hc2 Hne).
  intros _ s3 (y2 & n & ext & Ey2 & En & Hs).
  pose proof (good_sends _ _ _ _ _ Hk2 Hs) as [Hk3 D3]. destruct Hs as (C3 & Hh3 & so' & ap' & Hc' & S3).
  rewrite Hc2 in Hc'. injection Hc' as <- <-.
  assert (Hm : map_find ap (connections_ s3) = Some c).
  { destruct (ci_conn _ _ Hk3 c b ap so) as (Hm & _); [by rewrite C3|done]. }
  assert (D : does b s s3) by by eapply does_trans.
  split_and!; [done| |].
  - right. exists b, c, ap, so. by rewrite C3.
  - intros u' r' [= <- <-] _. exists b, c, y, n, ext.
    assert (Ly : lifetime_ y2 = lifetime_ y).
    { assert (E : lifetime_ <$> binding_heap s2 !! b = lifetime_ <$> binding_heap s1 !! b) by by rewrite <- !lookup_fmap, L2.
      rewrite Ey2, Ey in E. by injection E. }
    assert (Cy : magic_cookie_ y2 = magic_cookie_ y).
    { pose proof (core_bind _ _ _ Ey2) as E. rewrite C2 in E. cbn [add_conn k_binds] in E.
      rewrite lookup_alter_eq, Hb in E. by injection E. }
    assert (Hu : map_find u (bindings_ s3) = Some b).
    { destruct (inv_bind _ _ c b ap so Hk3) as (u3 & i3 & x3 & E3); [by rewrite C3|].
      destruct (ci_binding _ _ Hk3 _ _ _ _ _ E3) as (Hu & _). rewrite C3, C2 in E3. cbn [add_conn k_binds] in E3.
      rewrite lookup_alter_eq, Hb in E3. injection E3 as E3 _ _ _. cbn in Hu. congruence. }
    split_and!; try done.
    + by rewrite Hh3, Hh2, lookup_insert_eq.
    + destruct Hcase as [[_ HB1]|(_ & Hin & Hu1 & Hl & _)]; [right|left].
      * rewrite HB1 in Ey. split; [|done]. pose proof (core_bind _ _ _ Ey) as E.
        destruct (ci_binding _ _ Hk _ _ _ _ _ E) as (Hu' & _). by rewrite Hy in Hu'.
      * split_and!; [done|done|]. by rewrite C3, C2.
    + by rewrite <- Hx2.
    + rewrite S3, S2, S1. unfold allocate_response. by rewrite Ly, Cy.
Qed.

(** The external connection that takes a raw packet of internal connection [x]. *)
Definition raw_target (s : RelayServer) (x : RelayServerConnection) (y : RelayServerBinding)
    : option RelayServerConnection :=
  if locked_ x then
    e ← ext_of s y (default_dest_ x);
    z ← conn_heap s !! e;
    if locked_ z then Some z else None
  else None.

Definition datagram (data : bytes) (x : RelayServerConnection) : sock * bytes * SocketAddress :=
  (socket_ x, data, src_ (addr_pair_ x)).

Lemma good_served b c ap so' so remote s s' :
  map_find (mkPair remote (GetLocalAddress so)) (connections_ s) = Some c ->
  k_conns (core s) !! c = Some (b, ap, so') -> good b s s' -> served so remote s s'.
Proof.
  intros Hf Hc [_ D]. right. exists b, c, ap, so'. split_and!; [|by eapply does_conn|done].
  destruct D as (_ & _ & Hm & _). by apply Hm.
Qed.

(** What the maps say of the connection a packet belongs to. *)
Lemma find_connection s ap c : core_inv None (core s) -> map_find ap (connections_ s) = Some c ->
  exists x y, conn_heap s !! c = Some x /\ binding_heap s !! binding_ x = Some y /\
    magic_cookie_ y = TURN_MAGIC_COOKIE_VALUE /\ internal_connections_ y <> [] /\
    key_same ap (addr_pair_ x) = true.
Proof.
  intros Hk Hf. destruct (ci_key _ _ Hk _ _ Hf) as (b & ap' & so & Hc & Es).
  destruct (ci_conn _ _ Hk _ _ _ _ Hc) as (_ & _ & u & ck & i & x & Hb & _).
  destruct (ci_binding _ _ Hk _ _ _ _ _ Hb) as (_ & _ & -> & _ & Hn & _).
  apply conn_core in Hc as (z & Ez & Ev). injection Ev as <- <- _. apply bind_core in Hb as (y & Ey & Ev).
  injection Ev as _ E2 <- _. exists z, y. split_and!; try done. by apply Hn.
Qed.

Lemma OnInternalPacket_wp data remote so s :
  let ap := mkPair remote (GetLocalAddress so) in
  core_inv None (core s) -> SockAddr.IsAnyIP (GetLocalAddress so) = false ->
  (exists e, external_sockets_ s = [e]) ->
  (forall c x, map_find ap (connections_ s) = Some c -> conn_heap s !! c = Some x -> may_send (binding_ x) data s) ->
  wp (OnInternalPacket (B := B) GetLocalAddress clock rand so data remote)
    (fun _ s' => core_inv None (core s') /\ served so remote s s' /\
      match map_find ap (connections_ s) with
      | None => forall u request, request_of data = Some (u, request) -> m_type request = STUN_ALLOCATE_REQUEST ->
          allocated ap so u request s s'
      | Some c => forall x y, conn_heap s !! c = Some x -> binding_heap s !! binding_ x = Some y ->
          HasMagicCookie y data = false ->
          sent s' = sent s ++ from_option (fun z => [datagram data z]) [] (raw_target s x y)
      end) s.
Proof.
  intros ap Hk Hany Hx Hsend. unfold OnInternalPacket. apply pwp_bind, pwp_assert; [by cbn; rewrite Hany|].
  apply pwp_bind, pwp_get. destruct (map_find ap (connections_ s)) as [c|] eqn:Hf.
  - destruct (find_connection _ _ _ Hk Hf) as (x & y & Ex & Ey & Hck & Hi & _).
    pose proof (core_conn _ _ _ Ex) as Hc. pose proof (core_bind _ _ _ Ey) as Hb.
    change (map_find (mkPair remote (GetLocalAddress so)) (connections_ s)) with (map_find ap (connections_ s)). rewrite Hf.
    apply pwp_bind. apply (wp_conn_at _ _ _ _ Hc). intros x' E _. rewrite Ex in E. injection E as <-.
    apply pwp_bind. apply (wp_binding_at _ _ _ _ Hb). intros y' E _. rewrite Ey in E. injection E as <-.
    destruct (HasMagicCookie y data) eqn:Hm.
    { wp_apply (HandleStun_wp (binding_ x) c _ _ data s Hk Hc Hx); [by eapply Hsend|]. intros _ s' G.
      split_and!; [by destruct G|by eapply good_served|]. intros x' y' E1 E2. congruence. }
    eapply (pwp_mono _ (fun _ s' => good (binding_ x) s s' /\
      sent s' = sent s ++ from_option (fun z => [datagram data z]) [] (raw_target s x y))).
    2: { intros _ s' [G S]. split_and!; [by destruct G|by eapply good_served|]. intros x' y' E1 E2 _. congruence. }
    unfold raw_target. destruct (locked_ x); cbn [negb].
    2: { apply pwp_ret. split; [by apply good_refl|]. by rewrite app_nil_r. }
    apply pwp_bind. apply (GetExternalConnection_wp _ _ _ _ _ _ Hk Ey).
    pose proof (ext_of_spec _ _ _ (default_dest_ x) _ Hk Ey) as Ho.
    destruct (ext_of s y (default_dest_ x)) as [e|].
    2: { apply pwp_ret. split; [by apply good_refl|]. by rewrite app_nil_r. }
    destruct Ho as (_ & z & Ez & Hbz & _). pose proof (core_conn _ _ _ Ez) as He. unfold cview in He. rewrite Hbz in He.
    cbn [mbind option_bind]. rewrite Ez. cbn [mbind option_bind].
    apply pwp_bind. apply (wp_conn_at _ _ _ _ He). intros z' E _. rewrite Ez in E. injection E as <-.
    destruct (locked_ z).
    + wp_apply (conn_Send_wp _ _ _ _ _ data _ He Hb). intros _ s' Hs. split; [by eapply good_sends|].
      destruct Hs as (_ & _ & so' & ap' & E & S). rewrite He in E. injection E as <- <-. done.
    + apply pwp_ret. split; [by apply good_refl|]. by rewrite app_nil_r.
  - change (map_find (mkPair remote (GetLocalAddress so)) (connections_ s)) with (map_find ap (connections_ s)). rewrite Hf.
    apply HandleStunAllocate_new_wp; [done| |done]. by destruct Hx as [? ->].
Qed.

(** The user a first packet from outside names. *)
Definition named_user (data : bytes) : option bytes :=
  let '(ok, (msg, _)) := StunMsg.Read (B := B) (StunMsg.make, q_of data) in
  if ok then
    (fun a => take (Z.to_nat (Z.min (length_ a) USERNAME_LENGTH)) (attr_bytes a)) <$>
      StunMsg.GetByteString STUN_ATTR_USERNAME msg
  else None.

Lemma int_of_same s s' y y' a : internal_connections_ y' = internal_connections_ y ->
  (forall c, c ∈ internal_connections_ y -> conn_heap s' !! c = conn_heap s !! c) -> int_of s' y' a = int_of s y a.
Proof.
  intros El Hl. unfold int_of. rewrite El. enough (E : forall t, first_conn s' t (internal_connections_ y) = first_conn s t (internal_connections_ y)).
  { by rewrite E. }
  intros t. clear El. unfold first_conn. induction (internal_connections_ y) as [|c l IH]; [done|]. cbn [List.find].
  rewrite (Hl c) by by left. destruct (match conn_heap s !! c with Some _ => _ | None => _ end); [done|].
  apply IH. intros c' Hc'. apply Hl. by right.
Qed.

(** [data] from [a] reached the internal client of [y]. *)
Definition delivered_in (s s' : RelayServer) (y : RelayServerBinding) (data : bytes) (a : SocketAddress) : Prop :=
  exists ci xi, int_of s y a = Some ci /\ conn_heap s !! ci = Some xi /\
    sent s' = sent s ++ [datagram (forwarded xi (magic_cookie_ y) data a) xi].

Lemma forward_in_wp b y a data s (Q : unit -> RelayServer -> Prop) :
  core_inv None (core s) -> binding_heap s !! b = Some y -> Z.of_nat (length data) <= 65536 ->
  (forall s', core s' = core s -> conn_heap s' = conn_heap s -> delivered_in s s' y data a -> good b s s' -> Q tt s') ->
  wp (c ← GetInternalConnection b a; conn_Send_from (B := B) clock c data a) Q s.
Proof.
  intros Hk Hy Hl Hq. pose proof (core_bind _ _ _ Hy) as Hb.
  destruct (ci_binding _ _ Hk _ _ _ _ _ Hb) as (_ & _ & _ & _ & Hn & _).
  apply pwp_bind. apply (GetInternalConnection_wp _ _ _ _ _ _ Hk Hy); [|by apply Hn].
  intros c Ec. destruct (int_of_spec _ _ _ _ _ _ Hk Hy Ec) as (_ & z & Ez & Hz).
  pose proof (core_conn _ _ _ Ez) as Hc. unfold cview in Hc. rewrite Hz in Hc.
  wp_apply (conn_Send_from_wp _ _ _ _ _ _ _ _ _ data a _ Hc Hb Ez Hl). intros [] s' Hs.
  pose proof Hs as (C & Hh & so' & ap' & E & S). rewrite Hc in E. injection E as <- <-.
  apply Hq; [done|done| |by eapply good_sends]. by exists c, z.
Qed.

Lemma wp_assoc {A1 A2 A3} (m : P A1) (f : A1 -> P A2) (g : A2 -> P A3) Q s :
  wp ((m ≫= f) ≫= g) Q s -> wp (m ≫= (fun a => f a ≫= g)) Q s.
Proof. unfold wp, mbind, Prog_bind. by destruct (m s). Qed.

Lemma OnExternalPacket_wp data remote so s :
  let ap := mkPair remote (GetLocalAddress so) in
  core_inv None (core s) -> SockAddr.IsAnyIP (GetLocalAddress so) = false -> Z.of_nat (length data) <= 65536 ->
  wp (OnExternalPacket (B := B) GetLocalAddress clock so data remote)
    (fun _ s' => core_inv None (core s') /\ (s' = s \/ served so remote s s') /\
      match map_find ap (connections_ s) with
      | Some c => forall x y, conn_heap s !! c = Some x -> binding_heap s !! binding_ x = Some y ->
          delivered_in s s' y data (src_ (addr_pair_ x)) /\ (locked_ <$> conn_heap s' !! c) = Some true
      | None => match named_user data ≫= fun u => map_find u (bindings_ s) with
          | None => s' = s
          | Some b => exists c y, binding_heap s !! b = Some y /\ map_find ap (connections_ s') = Some c /\
              conn_heap s' !! c = Some ((blank b ap so) <| locked_ := true |>) /\ delivered_in s s' y data remote
          end
      end) s.
Proof.
  intros ap Hk Hany Hl. unfold OnExternalPacket. apply pwp_bind, pwp_assert; [by cbn; rewrite Hany|].
  apply pwp_bind, pwp_get.
  change (map_find (mkPair remote (GetLocalAddress so)) (connections_ s)) with (map_find ap (connections_ s)).
  destruct (map_find ap (connections_ s)) as [c|] eqn:Hf.
  - destruct (find_connection _ _ _ Hk Hf) as (x & y & Ex & Ey & Hck & Hi & _).
    pose proof (core_conn _ _ _ Ex) as Hc.
    apply pwp_bind. apply (wp_conn_at _ _ _ _ Hc). intros x' E _. rewrite Ex in E. injection E as <-.
    apply wp_assoc, pwp_bind. apply (forward_in_wp _ y); [done|done|done|]. intros s1 C1 Hh1 Hd G1.
    rewrite <- C1 in Hc. wp_apply (Lock_wp _ _ _ Hc). intros _ s2 (C2 & S2 & Hh2).
    assert (G : good (binding_ x) s s2).
    { eapply good_trans; [exact G1|]. destruct G1. by apply good_quiet. }
    rewrite C1 in Hc. split_and!; [by destruct G|right; by eapply good_served|].
    intros x' y' E1 E2. rewrite Ex in E1. injection E1 as <-. rewrite Ey in E2. injection E2 as <-. split.
    + destruct Hd as (ci & xi & ? & ? & ?). exists ci, xi. by rewrite S2.
    + by rewrite Hh2, Hh1, lookup_alter_eq, Ex.
  - unfold named_user. destruct (StunMsg.Read _) as [ok [msg q]].
    destruct ok; cbn [negb]; [|by apply pwp_ret; split_and!; [done|left|]].
    destruct (StunMsg.GetByteString _ _) as [ua|]; cbn [fmap option_fmap option_map mbind option_bind]; [|by apply pwp_ret; split_and!; [done|left|]].
    set (u := take _ (attr_bytes ua)). destruct (map_find u (bindings_ s)) as [b|] eqn:Hu; [|by apply pwp_ret; split_and!; [done|left|]].
    destruct (ci_user _ _ Hk _ _ Hu) as (ck & i & x & Hb). pose proof Hb as (y & Ey & Ev)%bind_core.
    injection Ev as _ _ Ei _.
    eapply (grow_wp false); [exact Hb|done|]. intros s1 C1 S1 Hh1 _. set (c := next_ptr s) in *.
    assert (Hk1 : core_inv None (core s1)).
    { rewrite C1. eapply add_conn_inv; [exact Hk|exact Hb|done|by left|by left]. }
    assert (G1 : good b s s1) by (split; [done|]; by eapply (add_conn_does None false)).
    assert (Hc1 : k_conns (core s1) !! c = Some (b, ap, so)).
    { rewrite C1. cbn [add_conn k_conns k_next core]. by rewrite lookup_insert_eq. }
    apply pwp_bind. wp_apply (Lock_wp _ _ _ Hc1). intros _ s2 (C2 & S2 & Hh2).
    assert (G2 : good b s s2).
    { eapply good_trans; [exact G1|]. by apply good_quiet. }
    assert (Hb2 : exists y2, binding_heap s2 !! b = Some y2 /\ internal_connections_ y2 = internal_connections_ y /\
      magic_cookie_ y2 = magic_cookie_ y).
    { assert (E : k_binds (core s2) !! b = Some (u, ck, i, x ++ [c])).
      { rewrite C2, C1. cbn [add_conn k_binds]. rewrite lookup_alter_eq, Hb. done. }
      apply bind_core in E as (y2 & E2 & Ev2). exists y2. injection Ev2 as _ -> -> _.
      apply core_bind in Ey. rewrite Hb in Ey. injection Ey as _ -> _ _. by rewrite Ei. }
    destruct Hb2 as (y2 & Ey2 & Ei2 & Ec2).
    apply (forward_in_wp _ y2); [by destruct G2|done|done|]. intros s3 C3 Hh3 (ci & xi & Eci & Exi & S3) G3.
    pose proof (good_trans _ _ _ _ G2 G3) as G.
    assert (Hfind : map_find ap (connections_ s3) = Some c).
    { destruct G as [Hk3 _]. destruct (ci_conn _ _ Hk3 c b ap so) as (Hm & _); [by rewrite C3, C2|done]. }
    split_and!; [by destruct G| |].
    + right. right. exists b, c, ap, so. split_and!; [done|by rewrite C3, C2|by destruct G].
    + exists c, y. split_and!; [done|done|by rewrite Hh3, Hh2, lookup_alter_eq, Hh1, lookup_insert_eq|].
      assert (Hold : forall c', c' ∈ internal_connections_ y -> conn_heap s2 !! c' = conn_heap s !! c').
      { intros c' Hin. destruct (inv_listed _ _ _ _ _ _ _ c' Hk Hb) as (ap' & so' & E).
        { rewrite Ei in Hin. rewrite elem_of_app. by left. }
        apply (conn_ptr_lt _ _ Hk) in E. by rewrite Hh2, lookup_alter_ne, Hh1, lookup_insert_ne by done. }
      rewrite (int_of_same s s2 y y2) in Eci by done. exists ci, xi.
      destruct (int_of_spec _ _ _ _ _ _ Hk Ey Eci) as (Hin & _). rewrite (Hold _ Hin) in Exi.
      split_and!; [done|done|]. by rewrite S3, S2, S1, Ec2.
Qed.

(** ** Deletion *)

(** The state in which binding [b] has only the connections [l] left. *)
Definition leaves (b : ptr) (u : bytes) (x : RelayServerBinding) (l : list ptr) s : Prop :=
  core_inv (Some b) (left_conns (core s) b u l) /\ b ∉ k_posted (core s) ++ k_disposed (core s) /\
  binding_heap s !! b = Some x.

(** Nothing but connections changed. *)
Definition keeps (s s' : RelayServer) : Prop :=
  bindings_ s' = bindings_ s /\ posted s' = posted s /\ disposed s' = disposed s /\ sent s' = sent s /\
  external_sockets_ s' = external_sockets_ s /\ binding_heap s' = binding_heap s.

Lemma delete_connection_wp b u x c l s (Q : RelayServer -> Prop) : leaves b u x (c :: l) s ->
  (forall s', leaves b u x l s' -> keeps s s' -> Q s') ->
  wp (delete_connection c) (fun _ => Q) s.
Proof.
  intros (Hk & Ht & Hx) Hq. destruct (left_conns_step _ _ _ _ _ Hk) as (ap & so & Hc & Hf & Hk').
  unfold delete_connection, RemoveConnection. apply pwp_bind. apply (wp_conn_at _ _ _ _ Hc). intros y Ey Ev.
  injection Ev as Eb Eap _. rewrite Eb. apply pwp_bind. apply (wp_binding_at _ _ _ _ (core_bind _ _ _ Hx)). intros _ _ _.
  apply pwp_bind, pwp_bind. apply (wp_conn_at _ _ _ _ Hc). intros y' Ey' _. rewrite Ey in Ey'. injection Ey' as <-.
  apply pwp_bind, pwp_get, pwp_bind, pwp_assert; [rewrite Eap; cbn in Hf; by rewrite Hf|].
  apply pwp_modify, pwp_modify. rewrite Eap. apply Hq; [|done]. split_and!; [|done|done].
  unfold core. cbn. rewrite fmap_delete. exact Hk'.
Qed.

Lemma delete_connections_wp b u x l l2 s (Q : RelayServer -> Prop) : leaves b u x (l ++ l2) s ->
  (forall s', leaves b u x l2 s' -> keeps s s' -> Q s') ->
  wp (for_each delete_connection l) (fun _ => Q) s.
Proof.
  intros Hl Hq. wp_apply (wp_for_each delete_connection (fun l' s' => leaves b u x (l' ++ l2) s' /\ keeps s s') l s).
  - done.
  - intros c l' s' (Hl' & Hs'). eapply delete_connection_wp; [exact Hl'|].
    intros s2 ? Hs2. split; [done|]. unfold keeps in *. destruct_and?. split_and!; congruence.
  - intros _ s' (? & ?). by apply Hq.
Qed.

(** The timers that are left when those of [b] are cleared. *)
Definition cleared (b : ptr) (l : list (ptr * Z)) : list (ptr * Z) :=
  List.filter (fun e => negb (fst e =? b)%nat) l.

Lemma cleared_spec b l b' : b' ∈ map fst (cleared b l) <-> b' ∈ map fst l /\ b' <> b.
Proof.
  unfold cleared. induction l as [|[b0 d] l IH]; cbn.
  - split; [by intros ?%not_elem_of_nil|by intros [?%not_elem_of_nil _]].
  - destruct (Nat.eqb_spec b0 b) as [->|Hne]; cbn; rewrite !elem_of_cons, IH; clear_params; intuition congruence.
Qed.
Lemma cleared_nodup b l l2 : NoDup (map fst l ++ l2) -> NoDup (map fst (cleared b l) ++ l2).
Proof.
  induction l as [|[b0 d] l IH]; cbn; [done|]. rewrite NoDup_cons. intros [Hn Hd].
  destruct (b0 =? b)%nat; cbn; [by apply IH|]. constructor; [|by apply IH].
  rewrite elem_of_app in *. intros [Hin|Hin]; [|clear_params; tauto]. apply cleared_spec in Hin. clear_params; tauto.
Qed.

Lemma delete_binding_wp e b s : core_inv e (core s) -> e = None \/ e = Some b -> is_Some (binding_heap s !! b) ->
  b ∉ disposed s ->
  wp (delete_binding b) (fun _ s' => core_inv None (core s') /\ binding_heap s' = base.delete b (binding_heap s) /\
    (exists u, username_ <$> (binding_heap s !! b) = Some u /\ bindings_ s' = map_erase u (bindings_ s)) /\
    posted s' = cleared b (posted s) /\ disposed s' = disposed s /\ sent s' = sent s /\
    external_sockets_ s' = external_sockets_ s) s.
Proof.
  intros Hk He [x Hx] Hd. pose proof (core_bind _ _ _ Hx) as Hb.
  destruct (ci_binding _ _ Hk _ _ _ _ _ Hb) as (Hu & _).
  unfold delete_binding. apply pwp_bind. apply (wp_binding_at _ _ _ _ Hb). intros x' E _. rewrite Hx in E. injection E as <-.
  apply pwp_bind, pwp_modify. change (List.filter _ (posted s)) with (cleared b (posted s)).
  set (s1 := s <| posted := cleared b (posted s) |>).
  assert (F : core s1 = with_timers (map fst (cleared b (posted s))) (disposed s) (core s) /\ posted s1 = cleared b (posted s) /\
    bindings_ s1 = bindings_ s /\ disposed s1 = disposed s /\ sent s1 = sent s /\ external_sockets_ s1 = external_sockets_ s /\
    binding_heap s1 = binding_heap s) by done.
  clearbody s1. destruct F as (C1 & P1 & U1 & D1 & S1 & X1 & B1).
  assert (Hk1 : core_inv (Some b) (core s1)).
  { rewrite C1. eapply (timers_inv e); [done|done| | |].
    - apply cleared_nodup. apply (ci_timers _ _ Hk).
    - intros b'. rewrite !elem_of_app, cleared_spec. cbn. clear_params; tauto.
    - intros b' Hne. rewrite !elem_of_app, cleared_spec. cbn. intros [?|?]; [left; split; [done|congruence]|by right]. }
  assert (Ht1 : b ∉ k_posted (core s1) ++ k_disposed (core s1)).
  { rewrite C1. cbn. rewrite elem_of_app, cleared_spec. clear_params; tauto. }
  assert (Hb1 : k_binds (core s1) !! b = Some (bview x)) by by rewrite C1.
  apply pwp_bind. eapply (delete_connections_wp b (username_ x) x _ (external_connections_ x)).
  { split_and!; [by eapply left_conns_start|done|by rewrite B1]. }
  intros s2 L2 (U2 & P2 & D2 & S2 & X2 & B2). apply pwp_bind. eapply (delete_connections_wp b (username_ x) x _ []).
  { by rewrite app_nil_r. }
  intros s3 (Hk3 & Ht3 & Hx3) (U3 & P3 & D3 & S3 & X3 & B3). unfold RemoveBinding. apply pwp_bind, pwp_bind.
  apply (wp_binding_at _ _ _ _ (core_bind _ _ _ Hx3)). intros x' E _. rewrite Hx3 in E. injection E as <-.
  apply pwp_bind, pwp_get, pwp_bind, pwp_assert; [by rewrite U3, U2, U1; cbn in Hu; rewrite Hu|].
  apply pwp_modify, pwp_modify. split_and!.
  - pose proof (left_conns_end _ _ _ Hk3 Ht3) as Hend. unfold core, del_binding in *. cbn in *. by rewrite fmap_delete.
  - cbn. by rewrite B3, B2, B1.
  - exists (username_ x). rewrite Hx. cbn. by rewrite U3, U2, U1.
  - cbn. by rewrite P3, P2, P1.
  - cbn. by rewrite D3, D2, D1.
  - cbn. by rewrite S3, S2, S1.
  - cbn. by rewrite X3, X2, X1.
Qed.
End Runs.
