(* ===== verification/RelayFacts.v ===== *)
(** * The relay server over its whole life

    The events of a relay server (packets, timers, disposals, socket changes)
    as a transition system, the reachable states, and the properties that hold
    of all of them. *)

From S2P Require Import Prelude ByteOrder ByteBuffer SocketAddress StdMap Stun StunFacts StunServer StunMessages Effects RelayServer RelayInv RelayRuns.
#[local] Open Scope jingle_scope.
Import Relay.
Import StunAttributeBase.
#[local] Set Default Proof Using "Type*".

(** ** The messages of the server on the wire *)

Section Wire.
Context {B : Type} `{ByteQueueLaws B}.

Lemma cookie_wf : attr_wf (cookie_attr TURN_MAGIC_COOKIE_VALUE).
Proof. by apply (bytes_attr_wf STUN_ATTR_MAGIC_COOKIE TURN_MAGIC_COOKIE_VALUE). Qed.

(** What a data indication carries. *)
Lemma data_indication_spec data a : StunSrv.sa_wf a -> Z.of_nat (length data) <= 65507 ->
  let m := data_indication TURN_MAGIC_COOKIE_VALUE data a in
  message_wf m /\ m_type m = STUN_DATA_INDICATION /\
  (attr_address <$> StunMsg.GetAddress STUN_ATTR_SOURCE_ADDRESS2 m) = Some (SockAddr.make (sa_ip a) (sa_port a)) /\
  (attr_bytes <$> StunMsg.GetByteString STUN_ATTR_DATA m) = Some data.
Proof.
  intros [Hip Hport] Hl m.
  destruct (bytes_attr_wf STUN_ATTR_DATA data) as [Ed Hd]; [done|done|done|lia|].
  assert (E : m = StunMsg.AddAttribute (bytes_attr STUN_ATTR_DATA data (Z.of_nat (length data)))
    (StunMsg.AddAttribute (StunSrv.address_attr STUN_ATTR_SOURCE_ADDRESS2 (sa_port a) (sa_ip a))
      (StunMsg.AddAttribute (cookie_attr TURN_MAGIC_COOKIE_VALUE) (StunMsg.SetType STUN_DATA_INDICATION StunMsg.make)))).
  { unfold m, data_indication. rewrite u16_small by (unfold is_u16; lia). done. }
  split_and!.
  - rewrite E. apply AddAttribute_wf; [|done|].
    + apply AddAttribute_wf; [|by apply StunSrv.address_attr_wf|done].
      apply AddAttribute_wf; [|apply cookie_wf|done].
      split; [done|]. split; [by left|]. split; [done|]. split; [done|]. constructor.
    + rewrite Ed. cbn [length_]. match goal with |- ?a + _ < _ => change a with 20 end. lia.
  - done.
  - done.
  - rewrite E, Ed. cbn. by rewrite Nat2Z.id, take_ge.
Qed.

Lemma allocate_response_spec request y a : valid_id (transaction_id_ request) -> StunSrv.sa_wf a ->
  magic_cookie_ y = TURN_MAGIC_COOKIE_VALUE -> is_u32 (lifetime_ y) ->
  let m := allocate_response request y a in
  message_wf m /\ m_type m = STUN_ALLOCATE_RESPONSE /\ transaction_id_ m = transaction_id_ request /\
  (attr_address <$> StunMsg.GetAddress STUN_ATTR_MAPPED_ADDRESS m) = Some (SockAddr.make (sa_ip a) (sa_port a)) /\
  (attr_value <$> StunMsg.GetUInt32 STUN_ATTR_LIFETIME m) = Some (lifetime_ y / 1000).
Proof.
  intros Hid [Hip Hport] Hck Hlt m. unfold m, allocate_response. rewrite Hck. split_and!; [|done..].
  assert (Hlt' : is_u32 (lifetime_ y / 1000)) by (unfold is_u32 in *; Z.div_mod_to_equations; lia).
  apply AddAttribute_wf; [| |done].
  - apply AddAttribute_wf; [|by apply StunSrv.address_attr_wf|done].
    apply AddAttribute_wf; [|apply cookie_wf|done]. by apply StunSrv.make_wf.
  - split; [done|]. split; [done|]. cbn. by split_and!.
Qed.

Lemma binding_lifetime_range request : 0 <= binding_lifetime request <= 15 * 60 * 1000.
Proof.
  unfold binding_lifetime, MAX_LIFETIME. destruct (StunMsg.GetUInt32 _ _); [|lia].
  match goal with |- _ <= _ `min` u32 ?z <= _ => pose proof (u32_range z) as [? ?] end. lia.
Qed.

(** A request that was read has a valid id. *)
Lemma request_of_valid data u request : request_of (B := B) data = Some (u, request) -> valid_id (transaction_id_ request).
Proof.
  unfold request_of. destruct (q_of_spec data) as [Hok _].
  pose proof (StunSrv.Read_valid_id StunMsg.make (q_of data) Hok ltac:(by left)) as Hid.
  destruct (StunMsg.Read _) as [ok [msg b]]. destruct ok; [|done].
  destruct (StunMsg.GetByteString _ _); [|done]. by intros [= <- <-].
Qed.
End Wire.

(** ** Events *)

(** What happens to a server: packets on its sockets, the delivery of a posted
    timer or of a disposal, a connection attempt at a server socket ([None]:
    there was none), and the calls of its owner. *)
Inductive event :=
  | InternalPacket (socket : sock) (data : bytes) (remote : SocketAddress)
  | ExternalPacket (socket : sock) (data : bytes) (remote : SocketAddress)
  | TimerFires (b : ptr)
  | Disposes (b : ptr)
  | Accepts (server_socket : sock) (accepted : option sock)
  | AddInternal (socket : sock)
  | RemoveInternal (socket : sock)
  | AddExternal (socket : sock)
  | RemoveExternal (socket : sock)
  | AddServer (socket : sock) (proto : ProtocolType)
  | RemoveServer (socket : sock).

(** The message queue hands over the first timer, or disposal, of [b]. *)
Fixpoint take_timer (b : ptr) (l : list (ptr * Z)) : list (ptr * Z) :=
  match l with [] => [] | e :: l => if decide (fst e = b) then l else e :: take_timer b l end.
Fixpoint take_disposal (b : ptr) (l : list ptr) : list ptr :=
  match l with [] => [] | e :: l => if decide (e = b) then l else e :: take_disposal b l end.

Lemma take_timer_perm b l : b ∈ map fst l -> map fst l ≡ₚ b :: map fst (take_timer b l).
Proof.
  induction l as [|[b0 d] l IH]; cbn; [by intros ?%not_elem_of_nil|]. intros Hin.
  destruct (decide (b0 = b)) as [->|Hne]; [done|]. apply elem_of_cons in Hin as [->|Hin]; [done|].
  cbn. rewrite (IH Hin) at 1. apply Permutation_swap.
Qed.
Lemma take_disposal_perm b l : b ∈ l -> l ≡ₚ b :: take_disposal b l.
Proof.
  induction l as [|b0 l IH]; cbn; [by intros ?%not_elem_of_nil|]. intros Hin.
  destruct (decide (b0 = b)) as [->|Hne]; [done|]. apply elem_of_cons in Hin as [->|Hin]; [done|].
  rewrite (IH Hin) at 1. apply Permutation_swap.
Qed.

Section Life.
Context {B : Type} `{ByteQueue B}.
Variable GetLocalAddress : sock -> SocketAddress.
Variable clock : nat -> Z.
Variable rand : nat -> Z.

Definition run_event (e : event) : P unit :=
  match e with
  | InternalPacket so data remote => OnInternalPacket (B := B) GetLocalAddress clock rand so data remote
  | ExternalPacket so data remote => OnExternalPacket (B := B) GetLocalAddress clock so data remote
  | TimerFires b =>
      modify (fun r => r <| posted := take_timer b (posted r) |>);; binding_OnMessage clock b
  | Disposes b => modify (fun r => r <| disposed := take_disposal b (disposed r) |>);; delete_binding b
  | Accepts so accepted => OnReadEvent so accepted
  | AddInternal so => AddInternalSocket so
  | RemoveInternal so => RemoveInternalSocket so
  | AddExternal so => AddExternalSocket so
  | RemoveExternal so => RemoveExternalSocket so
  | AddServer so proto => AddInternalServerSocket so proto
  | RemoveServer so => RemoveInternalServerSocket so
  end.

(** What the server relies on: bound sockets, one external socket when clients
    are served, no two bindings that talk to one outside address, and owners
    that add and remove each socket once. *)
Definition event_ok (e : event) (r : RelayServer) : Prop :=
  match e with
  | InternalPacket so data remote =>
      SockAddr.IsAnyIP (GetLocalAddress so) = false /\ (exists x, external_sockets_ r = [x]) /\
      forall c x, map_find (mkPair remote (GetLocalAddress so)) (connections_ r) = Some c ->
        conn_heap r !! c = Some x -> may_send (B := B) GetLocalAddress (binding_ x) data r
  | ExternalPacket so data remote =>
      SockAddr.IsAnyIP (GetLocalAddress so) = false /\ Z.of_nat (length data) <= 65507
  | TimerFires b => b ∈ map fst (posted r)
  | Disposes b => b ∈ disposed r
  | Accepts so accepted => (exists p, p <> PROTO_UDP /\ server_sockets_ r !! so = Some p) /\
      forall x, accepted = Some x -> x ∉ internal_sockets_ r
  | AddInternal so => so ∉ internal_sockets_ r
  | RemoveInternal so => so ∈ internal_sockets_ r
  | AddExternal so => so ∉ external_sockets_ r
  | RemoveExternal so => so ∈ external_sockets_ r
  | AddServer so proto => server_sockets_ r !! so = None
  | RemoveServer so => is_Some (server_sockets_ r !! so)
  end.

Inductive reach : RelayServer -> Prop :=
  | reach_make : reach make
  | reach_step r e r' : reach r -> event_ok e r -> run_event e r = Done tt r' -> reach r'.

(** [core_inv] does not see the sockets. *)
Lemma inv_sockets e k ext : core_inv e k ->
  core_inv e (mkCore (k_bindings k) (k_connections k) (k_conns k) (k_binds k) (k_next k) (k_posted k) (k_disposed k) ext).
Proof. intros []. by split. Qed.

(** A timer of [b]: used up, or posted anew. *)
Lemma timer_wp b r : core_inv None (core r) -> b ∈ map fst (posted r) ->
  wp (run_event (TimerFires b)) (fun _ r' => core_inv None (core r') /\ exists x, binding_heap r !! b = Some x /\
    binding_heap r' = binding_heap r /\ sent r' = sent r /\
    if (last_used_ x +u lifetime_ x) <=? u32 (clock (ticks r))
    then disposed r' = disposed r ++ [b] /\ posted r' = take_timer b (posted r)
    else disposed r' = disposed r /\ posted r' = take_timer b (posted r) ++ [(b, s32 (lifetime_ x))]) r.
Proof.
  intros Hk Hb. destruct (ci_timers_live _ _ Hk b) as [v Hv]; [rewrite elem_of_app; by left|].
  apply bind_core in Hv as (x & Ex & _). pose proof (take_timer_perm _ _ Hb) as Hp.
  cbn [run_event]. unfold binding_OnMessage, binding_at. apply pwp_bind, pwp_modify, pwp_bind, pwp_bind, wp_gets.
  eapply wp_the; [exact Ex|]. apply pwp_bind, wp_Time.
  assert (Ht : forall ps ds, ps ++ ds ≡ₚ map fst (posted r) ++ disposed r -> core_inv None (with_timers ps ds (core r)))
    by (intros; by apply timers_perm_inv).
  destruct (_ <=? _) eqn:El; apply pwp_modify; cbn in El.
  - split.
    + refine (Ht (map fst (take_timer b (posted r))) (disposed r ++ [b]) _).
      rewrite Hp, (Permutation_app_comm (disposed r) [b]). cbn. by rewrite <- Permutation_middle.
    + exists x. cbn. by rewrite El.
  - split.
    + change (core_inv None (with_timers (map fst (take_timer b (posted r) ++ [(b, s32 (lifetime_ x))])) (disposed r) (core r))).
      apply Ht. rewrite map_app, Hp, <- app_assoc. cbn. by rewrite <- Permutation_middle.
    + exists x. cbn. by rewrite El.
Qed.

Lemma dispose_wp b r : core_inv None (core r) -> b ∈ disposed r ->
  wp (run_event (Disposes b)) (fun _ r' => core_inv None (core r') /\ binding_heap r' = base.delete b (binding_heap r) /\ sent r' = sent r) r.
Proof.
  intros Hk Hb. destruct (ci_timers_live _ _ Hk b) as [v Hv]; [rewrite elem_of_app; by right|].
  apply bind_core in Hv as (x & Ex & _). pose proof (take_disposal_perm _ _ Hb) as Hp.
  pose proof (ci_timers _ _ Hk) as Hn. cbn [core k_posted k_disposed] in Hn.
  rewrite Hp, <- Permutation_middle, NoDup_cons, elem_of_app in Hn. destruct Hn as [Hnb Hn].
  cbn [run_event]. apply pwp_bind, pwp_modify.
  wp_apply (delete_binding_wp (Some b) b).
  - change (core_inv (Some b) (with_timers (map fst (posted r)) (take_disposal b (disposed r)) (core r))).
    eapply (timers_inv None); [done|by left|done| |].
    + intros b'. cbn. rewrite !elem_of_app. setoid_rewrite Hp at 2. rewrite elem_of_cons. tauto.
    + intros b' Hne. cbn. rewrite !elem_of_app. setoid_rewrite Hp at 1. rewrite elem_of_cons.
      intros [?|[?|?]]; [by left|congruence|by right].
  - by right.
  - cbn. by eauto.
  - cbn. tauto.
  - intros _ r' (? & Eh & _ & _ & _ & S & _). by split_and!.
Qed.

Lemma sockets_wp e r : core_inv None (core r) -> event_ok e r ->
  match e with InternalPacket _ _ _ | ExternalPacket _ _ _ | TimerFires _ | Disposes _ => True
  | _ => wp (run_event e) (fun _ r' => core_inv None (core r') /\ sent r' = sent r) r end.
Proof.
  intros Hk Hok.
  destruct e as [so data remote|so data remote|b|b|so acc|so|so|so|so|so proto|so]; try done; cbn [run_event event_ok] in *.
  - destruct Hok as ((p & Hp & Es) & Hacc). unfold OnReadEvent, AcceptConnection, AddInternalSocket.
    apply pwp_bind, pwp_get, pwp_bind, pwp_assert; [by rewrite Es|]. destruct acc as [x|]; [|by apply pwp_ret].
    apply pwp_bind, pwp_get, pwp_bind, pwp_assert; [rewrite Es; by destruct p|].
    apply pwp_bind, pwp_get, pwp_bind, pwp_assert; [by rewrite bool_decide_eq_true_2 by auto|]. by apply pwp_modify.
  - apply pwp_bind, pwp_get, pwp_bind, pwp_assert; [by apply bool_decide_eq_true_2|]. by apply pwp_modify.
  - apply pwp_bind, pwp_get, pwp_bind, pwp_assert; [by apply bool_decide_eq_true_2|]. by apply pwp_modify.
  - apply pwp_bind, pwp_get, pwp_bind, pwp_assert; [by apply bool_decide_eq_true_2|]. apply pwp_modify.
    split; [by apply (inv_sockets None (core r))|done].
  - apply pwp_bind, pwp_get, pwp_bind, pwp_assert; [by apply bool_decide_eq_true_2|]. apply pwp_modify.
    split; [by apply (inv_sockets None (core r))|done].
  - apply pwp_bind, pwp_get, pwp_bind, pwp_assert; [by rewrite Hok|]. by apply pwp_modify.
  - destruct Hok as [p Hp]. apply pwp_bind, pwp_get, pwp_bind, pwp_assert; [by rewrite Hp|]. by apply pwp_modify.
Qed.

Lemma event_wp e r : core_inv None (core r) -> event_ok e r ->
  wp (run_event e) (fun _ r' => core_inv None (core r')) r.
Proof.
  intros Hk Hok. pose proof (sockets_wp e r Hk Hok) as Hs.
  destruct e; try (wp_apply Hs; by intros _ ? [? _]); cbn [run_event event_ok] in *.
  - destruct Hok as (? & ? & ?). wp_apply OnInternalPacket_wp; [done..|]. by intros _ ? [? _].
  - destruct Hok as (? & ?). wp_apply OnExternalPacket_wp; [done..|lia|]. by intros _ ? [? _].
  - wp_apply timer_wp; [done..|]. by intros _ ? [? _].
  - wp_apply dispose_wp; [done..|]. by intros _ ? [? _].
Qed.

Lemma relay_reach_inv r : reach r -> core_inv None (core r).
Proof.
  induction 1 as [|r e r' _ IH Hok Hrun]; [apply empty_core_inv|].
  by apply (wp_done _ _ _ _ _ (event_wp e r IH Hok) Hrun).
Qed.
End Life.

(** ** Shutting down *)

Lemma map_erase_length {K V} `{MapKeyLaws K} (k : K) (v : V) m :
  (length (map_erase k ((k, v) :: m)) <= length m)%nat.
Proof. cbn. rewrite key_same_refl. cbn. unfold map_erase. apply List.filter_length_le. Qed.

Lemma delete_bindings_wp n r : core_inv None (core r) -> disposed r = [] -> (length (bindings_ r) <= n)%nat ->
  wp (delete_bindings n) (fun _ r' => core_inv None (core r') /\ bindings_ r' = [] /\ disposed r' = [] /\
    sent r' = sent r) r.
Proof.
  revert r. induction n as [|n IH]; intros r Hk Hd Hn; cbn [delete_bindings].
  - apply pwp_ret. split_and!; try done. destruct (bindings_ r); [done|cbn in Hn; lia].
  - apply pwp_bind, pwp_get. destruct (bindings_ r) as [|[u b] m] eqn:Eb; [by apply pwp_ret|].
    destruct (ci_user _ _ Hk u b) as (ck & i & x & E); [cbn; rewrite Eb; cbn; by rewrite key_same_refl|].
    apply bind_core in E as (y & Ey & Ev). injection Ev as Eu _ _ _. apply pwp_bind.
    wp_apply (delete_binding_wp None b r Hk); [by left|by eauto|rewrite Hd; by apply not_elem_of_nil|].
    intros _ r1 (Hk1 & _ & (u' & Eu' & Em) & _ & Hd1 & S1 & _). rewrite <- S1.
    apply IH; [done|congruence|]. rewrite Ey in Eu'. cbn in Eu'. injection Eu' as <-. rewrite Em, Eb, Eu.
    pose proof (map_erase_length u b m). cbn in Hn. lia.
Qed.

Lemma delete_server_wp r : core_inv None (core r) -> disposed r = [] ->
  wp delete_server (fun _ r' => conn_heap r' = ∅ /\ binding_heap r' = ∅ /\ posted r' = [] /\ disposed r' = [] /\
    (forall ap, map_find ap (connections_ r') = None) /\ bindings_ r' = [] /\
    internal_sockets_ r' = [] /\ external_sockets_ r' = [] /\ server_sockets_ r' = ∅) r.
Proof.
  intros Hk Hd. unfold delete_server. apply pwp_bind, pwp_get, pwp_bind.
  wp_apply (delete_bindings_wp (length (bindings_ r)) r Hk Hd); [done|].
  intros _ r1 (Hk1 & Hb1 & Hd1 & _). apply pwp_modify. cbn.
  assert (Hbs : forall b v, k_binds (core r1) !! b <> Some v).
  { intros b [[[u ck] i] x] E. destruct (ci_binding _ _ Hk1 _ _ _ _ _ E) as (Hf & _). cbn in Hf. by rewrite Hb1 in Hf. }
  assert (Hcs : forall c v, k_conns (core r1) !! c <> Some v).
  { intros c [[b ap] so] E. destruct (ci_conn _ _ Hk1 _ _ _ _ E) as (_ & _ & ? & ? & ? & ? & E' & _). by apply Hbs in E'. }
  split_and!; try done.
  - apply map_empty. intros c. destruct (conn_heap r1 !! c) eqn:E; [|done]. by apply core_conn, Hcs in E.
  - apply map_empty. intros c. destruct (binding_heap r1 !! c) eqn:E; [|done]. by apply core_bind, Hbs in E.
  - destruct (posted r1) as [|[b d] l] eqn:E; [done|].
    destruct (ci_timers_live _ _ Hk1 b) as [v Hv]; [|by apply Hbs in Hv]. cbn. rewrite E. by left.
  - intros ap. destruct (map_find ap (connections_ r1)) as [c|] eqn:E; [|done].
    destruct (ci_key _ _ Hk1 _ _ E) as (? & ? & ? & Hc & _). by apply Hcs in Hc.
Qed.
(** ** Properties *)

Section Properties.
Context {B : Type} `{ByteQueueLaws B}.
Variable GetLocalAddress : sock -> SocketAddress.
Variable clock : nat -> Z.
Variable rand : nat -> Z.

#[local] Abbreviation reach := (reach (B := B) GetLocalAddress clock rand).
#[local] Abbreviation run_event := (run_event (B := B) GetLocalAddress clock rand).
#[local] Abbreviation event_ok := (event_ok (B := B) GetLocalAddress).

(** [d] brings [data] from [a] to the client of [x]: raw if the client locked
    its connection to [a], else in a data indication that every receiver
    decodes to the data and its source. *)
Definition carries (x : RelayServerConnection) (data : bytes) (a : SocketAddress) (d : bytes) : Prop :=
  if locked_ x && SockAddr.eqb a (default_dest_ x) then d = data
  else exists m, decodes (B := B) d m /\ m_type m = STUN_DATA_INDICATION /\
    (attr_address <$> StunMsg.GetAddress STUN_ATTR_SOURCE_ADDRESS2 m) = Some (SockAddr.make (sa_ip a) (sa_port a)) /\
    (attr_bytes <$> StunMsg.GetByteString STUN_ATTR_DATA m) = Some data.

Lemma forwarded_carries x data a : StunSrv.sa_wf a -> Z.of_nat (length data) <= 65507 ->
  carries x data a (forwarded (B := B) x TURN_MAGIC_COOKIE_VALUE data a).
Proof.
  intros Ha Hl. unfold carries, forwarded. destruct (locked_ x && _); [done|].
  destruct (data_indication_spec data a Ha Hl) as (Hwf & ? & ? & ?).
  eexists. split; [by apply stun_bytes_decodes|done].
Qed.

(** The client of binding [y] was sent [data] from [a], and nobody else
    anything. *)
Definition reaches_client (r r' : RelayServer) (y : RelayServerBinding) (data : bytes) (a : SocketAddress) : Prop :=
  exists c x d, c ∈ internal_connections_ y /\ conn_heap r !! c = Some x /\ carries x data a d /\
    sent r' = sent r ++ [(socket_ x, d, src_ (addr_pair_ x))].

Lemma delivered_reaches r r' b y data a : core_inv None (core r) -> binding_heap r !! b = Some y ->
  StunSrv.sa_wf a -> Z.of_nat (length data) <= 65507 ->
  delivered_in (B := B) r r' y data a -> reaches_client r r' y data a.
Proof.
  intros Hk Hy Ha Hl (ci & xi & Eci & Exi & S). destruct (int_of_spec _ _ _ _ _ _ Hk Hy Eci) as (Hin & _).
  destruct (ci_binding _ _ Hk _ _ _ _ _ (core_bind _ _ _ Hy)) as (_ & _ & Eck & _). rewrite Eck in S.
  exists ci, xi. eexists. split_and!; [done|done|by apply forwarded_carries|exact S].
Qed.

(** C8. Whatever happens to a relay server within what it relies on, no
    handler dereferences a deleted connection or binding, divides by zero,
    indexes out of bounds or fails an ASSERT. *)
Theorem relay_never_faults r e : reach r -> event_ok e r -> exists r', run_event e r = Done tt r'.
Proof.
  intros Hr Hok. pose proof (relay_reach_inv _ _ _ _ Hr) as Hk.
  destruct (wp_total _ _ _ (event_wp GetLocalAddress clock rand e r Hk Hok)) as ([] & r' & E & _). by exists r'.
Qed.

(** C24. In every reachable state the server's maps, the connections' back
    pointers and the bindings' lists describe the same objects: every
    connection is found under its addresses and is listed once by its binding,
    every binding is found under its user, has a client and has exactly one
    pending timer or disposal, and no timer or map names a deleted object. *)
Theorem relay_invariant r : reach r -> core_inv None (core r).
Proof. apply relay_reach_inv. Qed.

(** C5. A packet makes the server send to its sender alone, or to connections
    of the one binding that the packet's connection belongs to: no datagram
    crosses from one binding to another.  Timers, disposals and socket changes
    send nothing. *)
Theorem relay_isolation r e r' : reach r -> event_ok e r -> run_event e r = Done tt r' ->
  match e with
  | InternalPacket so _ remote | ExternalPacket so _ remote => r' = r \/ served GetLocalAddress so remote r r'
  | _ => sent r' = sent r
  end.
Proof.
  intros Hr Hok E. pose proof (relay_reach_inv _ _ _ _ Hr) as Hk.
  pose proof (sockets_wp (B := B) GetLocalAddress clock rand e r Hk Hok) as Hs.
  destruct e as [so data remote|so data remote|b|b| | | | | | |]; try (by destruct (wp_done _ _ _ _ _ Hs E)).
  - destruct Hok as (Ha & Hx & Hm). right.
    by destruct (wp_done _ _ _ _ _ (OnInternalPacket_wp _ _ _ data remote so r Hk Ha Hx Hm) E) as (_ & ? & _).
  - destruct Hok as (Ha & Hl).
    by destruct (wp_done _ _ _ _ _ (OnExternalPacket_wp _ clock data remote so r Hk Ha ltac:(lia)) E) as (_ & ? & _).
  - by destruct (wp_done _ _ _ _ _ (timer_wp GetLocalAddress clock rand b r Hk Hok) E) as (_ & ? & _ & _ & ? & _).
  - by destruct (wp_done _ _ _ _ _ (dispose_wp GetLocalAddress clock rand b r Hk Hok) E) as (_ & _ & ?).
Qed.

(** A packet from outside on a known external connection reaches one
    client of the same binding and nobody else: raw when that client has locked
    its connection to the sender, and otherwise in a data indication that any
    STUN reader decodes to the packet and the sender's address; from then on
    the external connection accepts outgoing packets. *)
Theorem relay_forwards_in r so data remote c x :
  reach r -> event_ok (ExternalPacket so data remote) r -> StunSrv.sa_wf (src_ (addr_pair_ x)) ->
  map_find (mkPair remote (GetLocalAddress so)) (connections_ r) = Some c -> conn_heap r !! c = Some x ->
  exists r' y, run_event (ExternalPacket so data remote) r = Done tt r' /\
    binding_heap r !! binding_ x = Some y /\ reaches_client r r' y data (src_ (addr_pair_ x)) /\
    (locked_ <$> conn_heap r' !! c) = Some true.
Proof.
  intros Hr (Hany & Hl) Hwf Hf Hx. pose proof (relay_reach_inv _ _ _ _ Hr) as Hk.
  destruct (wp_total _ _ _ (OnExternalPacket_wp GetLocalAddress clock data remote so r Hk Hany ltac:(lia)))
    as ([] & r' & E & _ & _ & Hpost). rewrite Hf in Hpost.
  destruct (find_connection _ _ _ Hk Hf) as (x' & y & Hx' & Hy & _). rewrite Hx in Hx'. injection Hx' as <-.
  destruct (Hpost x y Hx Hy) as [Hd Hlock]. exists r', y. split_and!; [done|done| |done].
  by eapply delivered_reaches.
Qed.

(** A first packet from outside is dropped without any effect unless it is
    a STUN message whose user name names a binding; if it does, its address
    becomes a locked external connection of that binding and the packet
    reaches the binding's client. *)
Theorem relay_admits r so data remote :
  reach r -> event_ok (ExternalPacket so data remote) r -> StunSrv.sa_wf remote ->
  map_find (mkPair remote (GetLocalAddress so)) (connections_ r) = None ->
  exists r', run_event (ExternalPacket so data remote) r = Done tt r' /\
    match named_user (B := B) data ≫= fun u => map_find u (bindings_ r) with
    | None => r' = r
    | Some b => exists c y, binding_heap r !! b = Some y /\
        map_find (mkPair remote (GetLocalAddress so)) (connections_ r') = Some c /\
        conn_heap r' !! c = Some ((blank b (mkPair remote (GetLocalAddress so)) so) <| locked_ := true |>) /\
        reaches_client r r' y data remote
    end.
Proof.
  intros Hr (Hany & Hl) Hwf Hf. pose proof (relay_reach_inv _ _ _ _ Hr) as Hk.
  destruct (wp_total _ _ _ (OnExternalPacket_wp GetLocalAddress clock data remote so r Hk Hany ltac:(lia)))
    as ([] & r' & E & _ & _ & Hpost). rewrite Hf in Hpost. exists r'. split; [done|].
  destruct (_ ≫= _) as [b|]; [|done]. destruct Hpost as (c & y & Hy & Hc & Hx & Hd). exists c, y.
  split_and!; [done|done|done|]. by eapply delivered_reaches.
Qed.

(** A packet of a client that is not a request to the server goes out
    unchanged, from the relay's own socket, to the destination the client
    locked, provided that destination has already sent to the binding;
    otherwise it is dropped. *)
Theorem relay_forwards_out r so data remote c x y :
  reach r -> event_ok (InternalPacket so data remote) r ->
  map_find (mkPair remote (GetLocalAddress so)) (connections_ r) = Some c -> conn_heap r !! c = Some x ->
  binding_heap r !! binding_ x = Some y -> HasMagicCookie y data = false ->
  exists r', run_event (InternalPacket so data remote) r = Done tt r' /\
    match raw_target r x y with
    | Some z => locked_ x = true /\ locked_ z = true /\ binding_ z = binding_ x /\
        SockAddr.eqb (default_dest_ x) (src_ (addr_pair_ z)) = true /\
        sent r' = sent r ++ [(socket_ z, data, src_ (addr_pair_ z))]
    | None => sent r' = sent r
    end.
Proof.
  intros Hr (Hany & Hx1 & Hm) Hf Hx Hy Hck. pose proof (relay_reach_inv _ _ _ _ Hr) as Hk.
  destruct (wp_total _ _ _ (OnInternalPacket_wp GetLocalAddress clock rand data remote so r Hk Hany Hx1 Hm))
    as ([] & r' & E & _ & _ & Hpost). rewrite Hf in Hpost. exists r'. split; [done|].
  specialize (Hpost x y Hx Hy Hck). destruct (raw_target r x y) as [z|] eqn:Ez; cbn in Hpost;
    [|by rewrite app_nil_r in Hpost].
  unfold raw_target in Ez. destruct (locked_ x) eqn:Elx; [|done].
  pose proof (ext_of_spec _ _ _ (default_dest_ x) _ Hk Hy) as Hs. destruct (ext_of _ _ _) as [e|]; [|done].
  destruct Hs as (_ & z' & Hz & Hb & Ha). cbn [mbind option_bind] in Ez. rewrite Hz in Ez. cbn [mbind option_bind] in Ez.
  destruct (locked_ z') eqn:Elz; [|done]. injection Ez as <-. done.
Qed.

(** An allocate request from a new address for a new user creates the
    user's binding with the lifetime asked for, 15 minutes at most, gives it
    the sender's connection and a lifetime timer, and is answered with one
    datagram to the sender; any STUN reader decodes it to an allocate response
    with the request's transaction id, the lifetime in seconds and the address
    of an external socket. *)
Theorem relay_allocates r so data remote u request :
  reach r -> event_ok (InternalPacket so data remote) r ->
  (forall ext, ext ∈ external_sockets_ r -> StunSrv.sa_wf (GetLocalAddress ext)) ->
  map_find (mkPair remote (GetLocalAddress so)) (connections_ r) = None ->
  request_of (B := B) data = Some (u, request) -> m_type request = STUN_ALLOCATE_REQUEST ->
  map_find u (bindings_ r) = None ->
  exists r' b c ext d m, run_event (InternalPacket so data remote) r = Done tt r' /\
    map_find u (bindings_ r') = Some b /\ b ∈ map fst (posted r') /\
    map_find (mkPair remote (GetLocalAddress so)) (connections_ r') = Some c /\
    conn_heap r' !! c = Some (blank b (mkPair remote (GetLocalAddress so)) so) /\
    ext ∈ external_sockets_ r /\ sent r' = sent r ++ [(so, d, remote)] /\ decodes (B := B) d m /\
    m_type m = STUN_ALLOCATE_RESPONSE /\ transaction_id_ m = transaction_id_ request /\
    (attr_address <$> StunMsg.GetAddress STUN_ATTR_MAPPED_ADDRESS m) =
      Some (SockAddr.make (sa_ip (GetLocalAddress ext)) (sa_port (GetLocalAddress ext))) /\
    (attr_value <$> StunMsg.GetUInt32 STUN_ATTR_LIFETIME m) = Some (binding_lifetime request / 1000) /\
    0 <= binding_lifetime request <= 15 * 60 * 1000.
Proof.
  intros Hr (Hany & Hx1 & Hm) Hwf Hf Hreq Ht Hu. pose proof (relay_reach_inv _ _ _ _ Hr) as Hk.
  destruct (wp_total _ _ _ (OnInternalPacket_wp GetLocalAddress clock rand data remote so r Hk Hany Hx1 Hm))
    as ([] & r' & E & _ & _ & Hpost). rewrite Hf in Hpost.
  destruct (Hpost u request Hreq Ht) as (b & c & y & n & ext & Hb & Hc & Hx & _ & Hck & Hcase & Hext & S).
  destruct Hcase as [(_ & Hlt & Hp)|[Hu' _]]; [|congruence].
  assert (Hin : ext ∈ external_sockets_ r) by by eapply list_elem_of_lookup_2.
  destruct (allocate_response_spec request y (GetLocalAddress ext)) as (Hw & H1 & H2 & H3 & H4);
    [by eapply request_of_valid|by apply Hwf|done| |].
  { rewrite Hlt. pose proof (binding_lifetime_range request). unfold is_u32. lia. }
  rewrite <- Hlt. exists r', b, c, ext. do 2 eexists.
  split_and!; [done|done|done|done|done|done|exact S|by apply stun_bytes_decodes|done|done|done|done|..]; rewrite ?Hlt; apply binding_lifetime_range.
Qed.

(** When a lifetime timer fires the binding is handed to its disposal
    exactly if it has not been used for its lifetime, and otherwise gets a new
    timer; nothing is sent and no binding changes. *)
Theorem relay_expiry r b : reach r -> b ∈ map fst (posted r) ->
  exists r' x, run_event (TimerFires b) r = Done tt r' /\ binding_heap r !! b = Some x /\
    binding_heap r' = binding_heap r /\ sent r' = sent r /\
    (0 <= last_used_ x + lifetime_ x < 2 ^ 32 ->
     (b ∈ disposed r' <-> lifetime_ x <= u32 (clock (ticks r)) - last_used_ x)) /\
    (b ∉ disposed r' -> (b, s32 (lifetime_ x)) ∈ posted r').
Proof.
  intros Hr Hb. pose proof (relay_reach_inv _ _ _ _ Hr) as Hk.
  destruct (wp_total _ _ _ (timer_wp (B := B) GetLocalAddress clock rand b r Hk Hb))
    as ([] & r' & E & Hk' & x & Hx & HB & S & Hcase).
  exists r', x. split_and!; [done..| |].
  - intros Hw. rewrite (u32_small (last_used_ x + lifetime_ x)) in Hcase by (unfold is_u32; lia).
    destruct (_ <=? _) eqn:El.
    + destruct Hcase as [-> _]. apply Z.leb_le in El. split; [lia|]. intros _. apply elem_of_app. right. by left.
    + destruct Hcase as [Hd _]. apply Z.leb_gt in El. split; [|lia]. intros Hin. exfalso. rewrite Hd in Hin.
      pose proof (ci_timers _ _ Hk) as Hn. apply NoDup_app in Hn as (_ & Hn & _). by apply (Hn b).
  - intros Hd. destruct (_ <=? _); destruct Hcase as [Hd' Hp].
    + destruct Hd. rewrite Hd'. apply elem_of_app. right. by left.
    + rewrite Hp. apply elem_of_app. right. by left.
Qed.

(** The disposal of a binding deletes it with every connection it has and
    frees its user name, and touches no other binding. *)
Theorem relay_disposal r b : reach r -> b ∈ disposed r ->
  exists r', run_event (Disposes b) r = Done tt r' /\ binding_heap r' = base.delete b (binding_heap r) /\
    (forall c x, conn_heap r' !! c = Some x -> binding_ x <> b) /\
    (forall u, map_find u (bindings_ r') <> Some b) /\
    (forall ap c x, map_find ap (connections_ r') = Some c -> conn_heap r' !! c = Some x -> binding_ x <> b) /\
    sent r' = sent r.
Proof.
  intros Hr Hb. pose proof (relay_reach_inv _ _ _ _ Hr) as Hk.
  destruct (wp_total _ _ _ (dispose_wp (B := B) GetLocalAddress clock rand b r Hk Hb)) as ([] & r' & E & Hk' & HB & S).
  assert (Hc : forall c x, conn_heap r' !! c = Some x -> binding_ x <> b).
  { intros c x Hx Eb. apply core_conn in Hx. unfold cview in Hx. rewrite Eb in Hx.
    destruct (inv_bind _ _ _ _ _ _ Hk' Hx) as (u & i & l & Hb'). apply bind_core in Hb' as (y & Hy & _).
    by rewrite HB, lookup_delete_eq in Hy. }
  exists r'. split_and!; [done|done|done| |by eauto|done].
  intros u Hu. destruct (ci_user _ _ Hk' _ _ Hu) as (ck & i & l & Hb'). apply bind_core in Hb' as (y & Hy & _).
  by rewrite HB, lookup_delete_eq in Hy.
Qed.

(** Deleting a server that has no disposal pending terminates, faults
    nowhere and leaves nothing behind: no connection, no binding, no timer,
    and no socket. *)
Theorem relay_shutdown r : reach r -> disposed r = [] ->
  exists r', delete_server r = Done tt r' /\
    conn_heap r' = ∅ /\ binding_heap r' = ∅ /\ posted r' = [] /\ disposed r' = [] /\
    (forall ap, map_find ap (connections_ r') = None) /\ bindings_ r' = [] /\
    internal_sockets_ r' = [] /\ external_sockets_ r' = [] /\ server_sockets_ r' = ∅.
Proof.
  intros Hr Hd. pose proof (relay_reach_inv _ _ _ _ Hr) as Hk.
  destruct (wp_total _ _ _ (delete_server_wp r Hk Hd)) as ([] & r' & E & Hp). by exists r'.
Qed.
End Properties.

(** ** Concrete runs *)

Section Runs.
Context {B : Type} `{ByteQueue B}.
Variable GetLocalAddress : sock -> SocketAddress.
Variable clock : nat -> Z.
Variable rand : nat -> Z.

Definition clear_forb (b : ptr) (a : SocketAddress) (r : RelayServer) : bool :=
  match external_sockets_ r with
  | [so] => bool_decide (map_find (mkPair a (GetLocalAddress so)) (connections_ r) = None) ||
      match binding_heap r !! b with
      | Some y => match ext_of r y a with
          | Some c => match conn_heap r !! c with Some x => bool_decide (binding_ x = b) | None => false end
          | None => false
          end
      | None => false
      end
  | _ => true
  end.
Definition may_sendb (b : ptr) (data : bytes) (r : RelayServer) : bool :=
  match request_of (B := B) data with
  | Some (_, request) => match send_destination request with Some a => clear_forb b a r | None => true end
  | None => true
  end.

Lemma clear_forb_sound b a r : clear_forb b a r = true -> clear_for GetLocalAddress b a r.
Proof.
  unfold clear_forb, clear_for. intros Hc so Hs. rewrite Hs in Hc. apply orb_true_iff in Hc as [Hc|Hc].
  - left. by apply bool_decide_eq_true in Hc.
  - right. destruct (binding_heap r !! b) as [y|] eqn:Hy; [|done]. unfold ext_of in Hc.
    pose proof (first_conn_spec r (fun x => SockAddr.eqb a (src_ (addr_pair_ x))) (external_connections_ y)) as Hf.
    destruct (first_conn _ _ _) as [c|]; [|done]. destruct Hf as (Hin & x & Hx & Ha). rewrite Hx in Hc.
    apply bool_decide_eq_true in Hc. apply core_conn in Hx. apply core_bind in Hy. unfold cview in Hx. rewrite Hc in Hx.
    do 7 eexists. split_and!; [exact Hx|exact Hy|done|done].
Qed.
Lemma may_sendb_sound b data r : may_sendb b data r = true -> may_send (B := B) GetLocalAddress b data r.
Proof.
  unfold may_sendb, may_send. intros Hc u request a E Ea. rewrite E, Ea in Hc. by apply clear_forb_sound.
Qed.

Definition event_okb (e : event) (r : RelayServer) : bool :=
  match e with
  | InternalPacket so data remote =>
      negb (SockAddr.IsAnyIP (GetLocalAddress so)) && (length (external_sockets_ r) =? 1)%nat &&
      match map_find (mkPair remote (GetLocalAddress so)) (connections_ r) with
      | Some c => match conn_heap r !! c with Some x => may_sendb (binding_ x) data r | None => true end
      | None => true
      end
  | ExternalPacket so data remote => negb (SockAddr.IsAnyIP (GetLocalAddress so)) && (Z.of_nat (length data) <=? 65507)
  | TimerFires b => bool_decide (b ∈ map fst (posted r))
  | Disposes b => bool_decide (b ∈ disposed r)
  | AddInternal so => bool_decide (so ∉ internal_sockets_ r)
  | AddExternal so => bool_decide (so ∉ external_sockets_ r)
  | _ => false
  end.
Lemma event_okb_sound e r : event_okb e r = true -> event_ok (B := B) GetLocalAddress e r.
Proof.
  destruct e as [so data remote|so data remote|b|b| | | | | | |]; cbn [event_okb event_ok]; try done;
    try (intros Hb; by apply bool_decide_eq_true in Hb).
  - rewrite !andb_true_iff, negb_true_iff, Nat.eqb_eq. intros [[? Hl] Hm]. split_and!; [done| |].
    + destruct (external_sockets_ r) as [|x [|]]; [done|by exists x|done].
    + intros c x Hf Hx. rewrite Hf, Hx in Hm. by apply may_sendb_sound.
  - by rewrite andb_true_iff, negb_true_iff, Z.leb_le.
Qed.

Fixpoint exec (es : list event) (r : RelayServer) : option RelayServer :=
  match es with
  | [] => Some r
  | e :: es =>
      if event_okb e r then
        match run_event (B := B) GetLocalAddress clock rand e r with Done _ r' => exec es r' | Failed _ => None end
      else None
  end.
Lemma exec_reach es r r' : reach (B := B) GetLocalAddress clock rand r -> exec es r = Some r' ->
  reach (B := B) GetLocalAddress clock rand r'.
Proof.
  revert r. induction es as [|e es IH]; intros r Hr; cbn [exec]; [by intros [= <-]|].
  destruct (event_okb e r) eqn:Ho; [|done]. destruct (run_event _ _ _ _ _) as [[] r1|] eqn:Er; [|done].
  apply IH. eapply reach_step; [exact Hr|by apply event_okb_sound|exact Er].
Qed.
End Runs.

Section Witnesses.
#[local] Existing Instance little_host.

(** Socket 1 faces the clients, socket 2 the outside. *)
Definition ex_local (s : sock) : SocketAddress :=
  if (s =? 1)%nat then SockAddr.make 167772161 5000 else SockAddr.make 134744072 6000.
Definition ex_clock (n : nat) : Z := 1000 + Z.of_nat n.
Definition ex_rand (_ : nat) : Z := 7.
Definition ex_client : SocketAddress := SockAddr.make 167772200 4001.
Definition ex_peer : SocketAddress := SockAddr.make 3232235777 4002.
Definition ex_user : bytes := str "sixteen byte usr".

Definition ex_request (type : Z) (l : list StunAttribute) : bytes :=
  stun_bytes (B := Buf.ByteBuffer) (fold_left (fun m a => StunMsg.AddAttribute a m)
    (cookie_attr TURN_MAGIC_COOKIE_VALUE :: bytes_attr STUN_ATTR_USERNAME ex_user 16 :: l)
    (StunMsg.SetTransactionID (str "abcdefghijkl") (StunMsg.SetType type StunMsg.make))).
Definition ex_allocate : bytes := ex_request STUN_ALLOCATE_REQUEST [uint32_attr STUN_ATTR_LIFETIME 60].
Definition ex_ping : bytes := ex_request STUN_BINDING_REQUEST [].
Definition ex_send : bytes := ex_request STUN_SEND_REQUEST
  [StunSrv.address_attr STUN_ATTR_DESTINATION_ADDRESS 4002 3232235777; bytes_attr STUN_ATTR_DATA (str "hello") 5;
   uint32_attr STUN_ATTR_OPTIONS 1].

Definition ex_open : list event := [AddInternal 1; AddExternal 2]%nat.
Definition ex_allocated : list event := ex_open ++ [InternalPacket 1 ex_allocate ex_client]%nat.
Definition ex_talking : list event := ex_allocated ++
  [ExternalPacket 2 ex_ping ex_peer; InternalPacket 1 ex_send ex_client]%nat.
Definition ex_expired : list event := ex_allocated ++ [TimerFires 0]%nat.

Definition ex_run (clock : nat -> Z) (es : list event) : RelayServer :=
  default make (exec (B := Buf.ByteBuffer) ex_local clock ex_rand es make).
Lemma ex_reach clock es : is_Some (exec (B := Buf.ByteBuffer) ex_local clock ex_rand es make) ->
  reach (B := Buf.ByteBuffer) ex_local clock ex_rand (ex_run clock es).
Proof.
  intros [r Hr]. unfold ex_run. rewrite Hr. eapply exec_reach; [apply reach_make|exact Hr].
Qed.

(** The clock of a client that fell silent: 90 seconds pass after the third
    reading. *)
Definition ex_late (n : nat) : Z := if (n <? 3)%nat then 1000 else 91000.
Definition ex_gone : list event := ex_expired ++ [Disposes 0]%nat.

#[local] Abbreviation ex_reachable := (reach (B := Buf.ByteBuffer) ex_local ex_clock ex_rand).
#[local] Abbreviation ex_event := (run_event (B := Buf.ByteBuffer) ex_local ex_clock ex_rand).
Definition ex_r (es : list event) : RelayServer := ex_run ex_clock es.
Definition ex_pong : event := ExternalPacket 2%nat (str "pong") ex_peer.
Definition ex_raw : event := InternalPacket 1%nat (str "raw") ex_client.

Lemma ex_runs es clock : bool_decide (is_Some (exec (B := Buf.ByteBuffer) ex_local clock ex_rand es make)) = true ->
  reach (B := Buf.ByteBuffer) ex_local clock ex_rand (ex_run clock es).
Proof. intros Hb. apply ex_reach. by apply bool_decide_eq_true in Hb. Qed.
Lemma ex_open_reach : ex_reachable (ex_r ex_open).
Proof. apply ex_runs. by vm_compute. Qed.
Lemma ex_allocated_reach : ex_reachable (ex_r ex_allocated).
Proof. apply ex_runs. by vm_compute. Qed.
Lemma ex_talking_reach : ex_reachable (ex_r ex_talking).
Proof. apply ex_runs. by vm_compute. Qed.
Lemma ex_okb e es : event_okb (B := Buf.ByteBuffer) ex_local e (ex_r es) = true ->
  event_ok (B := Buf.ByteBuffer) ex_local e (ex_r es).
Proof. apply event_okb_sound. Qed.

Lemma relay_never_faults_witness : exists r', ex_event ex_pong (ex_r ex_talking) = Done tt r'.
Proof. apply (relay_never_faults (B := Buf.ByteBuffer)); [apply ex_talking_reach|apply ex_okb; by vm_compute]. Defined.

Lemma relay_invariant_witness : length (connections_ (ex_r ex_talking)) = 2%nat /\ core_inv None (core (ex_r ex_talking)).
Proof. split; [by vm_compute|]. apply (relay_invariant (B := Buf.ByteBuffer) ex_local ex_clock ex_rand), ex_talking_reach. Defined.

Lemma relay_isolation_witness : length (sent (ex_r (ex_talking ++ [ex_raw]))) = 5%nat /\
  (ex_r (ex_talking ++ [ex_raw]) = ex_r ex_talking \/
   served ex_local 1%nat ex_client (ex_r ex_talking) (ex_r (ex_talking ++ [ex_raw]))).
Proof.
  split; [by vm_compute|].
  apply (relay_isolation (B := Buf.ByteBuffer) ex_local ex_clock ex_rand (ex_r ex_talking) ex_raw);
    [apply ex_talking_reach|apply ex_okb; by vm_compute|by vm_compute].
Defined.

Lemma relay_forwards_in_witness : exists x r' y, conn_heap (ex_r ex_talking) !! 2%nat = Some x /\
  ex_event ex_pong (ex_r ex_talking) = Done tt r' /\
  reaches_client (B := Buf.ByteBuffer) (ex_r ex_talking) r' y (str "pong") (src_ (addr_pair_ x)).
Proof.
  exists (mkConn 0%nat (mkPair ex_peer (ex_local 2%nat)) 2%nat true SockAddr.Clear).
  destruct (relay_forwards_in (B := Buf.ByteBuffer) ex_local ex_clock ex_rand (ex_r ex_talking) 2%nat (str "pong") ex_peer 2%nat
    (mkConn 0%nat (mkPair ex_peer (ex_local 2%nat)) 2%nat true SockAddr.Clear)) as (r' & y & E & _ & Hc & _);
    [apply ex_talking_reach|apply ex_okb; by vm_compute|by vm_compute|by vm_compute|by vm_compute|].
  exists r', y. split; [by vm_compute|]. exact (conj E Hc).
Defined.

Lemma relay_admits_witness : exists r' c y,
  named_user (B := Buf.ByteBuffer) ex_ping = Some ex_user /\
  ex_event (ExternalPacket 2%nat ex_ping ex_peer) (ex_r ex_allocated) = Done tt r' /\
  map_find (mkPair ex_peer (ex_local 2%nat)) (connections_ r') = Some c /\
  reaches_client (B := Buf.ByteBuffer) (ex_r ex_allocated) r' y ex_ping ex_peer.
Proof.
  destruct (relay_admits (B := Buf.ByteBuffer) ex_local ex_clock ex_rand (ex_r ex_allocated) 2%nat ex_ping ex_peer)
    as (r' & E & Hp); [apply ex_allocated_reach|apply ex_okb; by vm_compute|by vm_compute|by vm_compute|].
  assert (En : named_user (B := Buf.ByteBuffer) ex_ping = Some ex_user) by by vm_compute.
  assert (Eb : named_user (B := Buf.ByteBuffer) ex_ping ≫= (fun u => map_find u (bindings_ (ex_r ex_allocated))) = Some 0%nat)
    by by vm_compute.
  rewrite Eb in Hp.
  destruct Hp as (c & y & _ & Hc & _ & Hr). exists r', c, y. exact (conj En (conj E (conj Hc Hr))).
Defined.

Lemma relay_forwards_out_witness : exists r', ex_event ex_raw (ex_r ex_talking) = Done tt r' /\
  sent r' = sent (ex_r ex_talking) ++ [(2%nat, str "raw", ex_peer)].
Proof.
  assert (Hx : exists x y z, conn_heap (ex_r ex_talking) !! 1%nat = Some x /\
    binding_heap (ex_r ex_talking) !! binding_ x = Some y /\ HasMagicCookie y (str "raw") = false /\
    raw_target (ex_r ex_talking) x y = Some z /\ socket_ z = 2%nat /\ src_ (addr_pair_ z) = ex_peer).
  { do 3 eexists. split; [by vm_compute|]. split; [by vm_compute|]. split; [by vm_compute|]. split; [by vm_compute|]. by split. }
  destruct Hx as (x & y & z & Hx & Hy & Hm & Hz & Hs & Ha).
  destruct (relay_forwards_out (B := Buf.ByteBuffer) ex_local ex_clock ex_rand (ex_r ex_talking) 1%nat (str "raw") ex_client 1%nat x y)
    as (r' & E & Hp); [apply ex_talking_reach|apply ex_okb; by vm_compute|by vm_compute|done|done|done|].
  rewrite Hz in Hp. destruct Hp as (_ & _ & _ & _ & S). exists r'. split; [exact E|]. rewrite S, Hs, Ha. reflexivity.
Defined.

Lemma relay_allocates_witness : exists r' d m,
  ex_event (InternalPacket 1%nat ex_allocate ex_client) (ex_r ex_open) = Done tt r' /\
  sent r' = sent (ex_r ex_open) ++ [(1%nat, d, ex_client)] /\ decodes (B := Buf.ByteBuffer) d m /\
  (attr_value <$> StunMsg.GetUInt32 STUN_ATTR_LIFETIME m) = Some 60.
Proof.
  assert (Hq : exists request, request_of (B := Buf.ByteBuffer) ex_allocate = Some (ex_user, request) /\
    m_type request = STUN_ALLOCATE_REQUEST /\ binding_lifetime request = 60000).
  { eexists. split; [by vm_compute|]. by vm_compute. }
  destruct Hq as (request & Hq & Ht & Hl).
  destruct (relay_allocates (B := Buf.ByteBuffer) ex_local ex_clock ex_rand (ex_r ex_open) 1%nat ex_allocate ex_client ex_user request)
    as (r' & b & c & ext & d & m & E & _ & _ & _ & _ & _ & S & Hd & _ & _ & _ & Hv & _);
    [apply ex_open_reach|apply ex_okb; by vm_compute| |by vm_compute|done|done|by vm_compute|].
  { intros ext _. unfold ex_local. destruct (ext =? 1)%nat; vm_compute; split; split; congruence. }
  exists r', d, m. rewrite Hl in Hv. exact (conj E (conj S (conj Hd Hv))).
Defined.

Lemma relay_expiry_witness : exists r', run_event (B := Buf.ByteBuffer) ex_local ex_late ex_rand (TimerFires 0%nat)
    (ex_run ex_late ex_allocated) = Done tt r' /\ 0%nat ∈ disposed r'.
Proof.
  assert (Hx : forall x, binding_heap (ex_run ex_late ex_allocated) !! 0%nat = Some x -> last_used_ x = 1000 /\ lifetime_ x = 60000).
  { assert (E : match binding_heap (ex_run ex_late ex_allocated) !! 0%nat with
      Some x => (last_used_ x =? 1000) && (lifetime_ x =? 60000) | None => false end = true) by by vm_compute.
    intros x Ex. rewrite Ex in E. apply andb_true_iff in E as [E1 E2]. split; apply Z.eqb_eq; [exact E1|exact E2]. }
  destruct (relay_expiry (B := Buf.ByteBuffer) ex_local ex_late ex_rand (ex_run ex_late ex_allocated) 0%nat)
    as (r' & x & E & Ex & _ & _ & Hd & _); [apply ex_runs; by vm_compute|apply (bool_decide_eq_true_1 _); by vm_compute|].
  exists r'. split; [exact E|]. destruct (Hx x Ex) as [E1 E2]. rewrite E1, E2 in Hd. apply Hd; [lia|].
  assert (Ec : u32 (ex_late (ticks (ex_run ex_late ex_allocated))) = 91000) by by vm_compute. rewrite Ec. lia.
Defined.

Lemma relay_disposal_witness : exists r', run_event (B := Buf.ByteBuffer) ex_local ex_late ex_rand (Disposes 0%nat)
    (ex_run ex_late ex_expired) = Done tt r' /\ forall u, map_find u (bindings_ r') <> Some 0%nat.
Proof.
  destruct (relay_disposal (B := Buf.ByteBuffer) ex_local ex_late ex_rand (ex_run ex_late ex_expired) 0%nat)
    as (r' & E & _ & _ & Hu & _); [apply ex_runs; by vm_compute|apply (bool_decide_eq_true_1 _); by vm_compute|].
  exists r'. exact (conj E Hu).
Defined.

Lemma relay_shutdown_witness : length (connections_ (ex_r ex_talking)) = 2%nat /\
  exists r', delete_server (ex_r ex_talking) = Done tt r' /\ conn_heap r' = ∅.
Proof.
  split; [by vm_compute|].
  destruct (relay_shutdown (B := Buf.ByteBuffer) ex_local ex_clock ex_rand (ex_r ex_talking)) as (r' & E & Hc & _);
    [apply ex_talking_reach|by vm_compute|]. exists r'. exact (conj E Hc).
Defined.

(** ** Limits of the code *)

(** With the clock about to wrap, the sum of the last use and the lifetime
    wraps, and the first timer takes away a binding used at that very moment. *)
Lemma wrapping_clock_expires : let clock := fun _ => 4294967290 in
  reach (B := Buf.ByteBuffer) ex_local clock ex_rand (ex_run clock ex_allocated) /\
  exists r', run_event (B := Buf.ByteBuffer) ex_local clock ex_rand (TimerFires 0%nat) (ex_run clock ex_allocated) = Done tt r' /\
    disposed r' = [0%nat] /\ (last_used_ <$> (binding_heap r' !! 0%nat)) = Some 4294967290.
Proof.
  intros clock. split; [apply ex_runs; by vm_compute|]. eexists. split; [by vm_compute|]. by vm_compute.
Qed.

(** A lifetime of 4294968 seconds is multiplied into 704 milliseconds. *)
Lemma long_lifetime_wraps : binding_lifetime
    (StunMsg.AddAttribute (uint32_attr STUN_ATTR_LIFETIME 4294968) StunMsg.make) = 704.
Proof. by vm_compute. Qed.

(** Deleting the server while a disposal is pending leaves the disposal of a
    deleted binding in the queue. *)
Lemma shutdown_leaves_disposal : exists r', delete_server (ex_run ex_late ex_expired) = Done tt r' /\
  disposed r' = [0%nat] /\ binding_heap r' !! 0%nat = None.
Proof. eexists. split; [by vm_compute|]. by vm_compute. Qed.

(** A second user that sends to an address another binding talks to fails the
    ASSERT of [AddConnection]. *)
Definition ex_second : SocketAddress := SockAddr.make 167772201 4003.
Definition ex_request2 (type : Z) (l : list StunAttribute) : bytes :=
  stun_bytes (B := Buf.ByteBuffer) (fold_left (fun m a => StunMsg.AddAttribute a m)
    (cookie_attr TURN_MAGIC_COOKIE_VALUE :: bytes_attr STUN_ATTR_USERNAME (str "another user 16b") 16 :: l)
    (StunMsg.SetTransactionID (str "abcdefghijkl") (StunMsg.SetType type StunMsg.make))).
Lemma shared_destination_asserts :
  let r := ex_r (ex_talking ++ [InternalPacket 1%nat (ex_request2 STUN_ALLOCATE_REQUEST []) ex_second]) in
  ex_reachable r /\
  ex_event (InternalPacket 1%nat (ex_request2 STUN_SEND_REQUEST
    [StunSrv.address_attr STUN_ATTR_DESTINATION_ADDRESS 4002 3232235777; bytes_attr STUN_ATTR_DATA (str "hi") 2]) ex_second) r
    = Failed AssertFailed.
Proof. intros r. split; [apply ex_runs; by vm_compute|by vm_compute]. Qed.
End Witnesses.
