(* ===== verification/PseudoTcp.v ===== *)
(** * PseudoTcp: TCP over a datagram channel (talk/p2p/base/pseudotcp.h, .cc)

    The control block with every field of the class, each member function in
    the monad of its effects: it reads the clock, hands packets to the notify
    object (whose answer it looks at), raises events, and can fail an [ASSERT],
    access a buffer outside its bounds or divide by zero ([fault]).  The clock
    and the answers of [TcpWritePacket] are parameters, indexed by how many
    readings and writes have been made.  The notify object does not call back
    into the connection from inside a notification. *)

From S2P Require Import Prelude TimeUtil ByteOrder.
#[local] Open Scope jingle_scope.

Module Tcp.

(** ** Constants *)

Definition PACKET_MAXIMUMS : list Z :=
  [65535; 32000; 17914; 8166; 4352; 2002; 1492; 1006; 508; 296; 0].
Definition MAX_PACKET : Z := 65535.
Definition MIN_PACKET : Z := 296.
Definition IP_HEADER_SIZE : Z := 20.
Definition UDP_HEADER_SIZE : Z := 8.
Definition JINGLE_HEADER_SIZE : Z := 64.
Definition HEADER_SIZE : Z := 24.
Definition PACKET_OVERHEAD : Z :=
  HEADER_SIZE + UDP_HEADER_SIZE + IP_HEADER_SIZE + JINGLE_HEADER_SIZE.
Definition MIN_RTO : Z := 250.
Definition DEF_RTO : Z := 3000.
Definition MAX_RTO : Z := 60000.
Definition DEF_ACK_DELAY : Z := 100.
Definition FLAG_CTL : Z := 0x02.
Definition FLAG_RST : Z := 0x04.
Definition CTL_CONNECT : Z := 0.
Definition DEFAULT_TIMEOUT : Z := 4000.
Definition CLOSED_TIMEOUT : Z := 60 * 1000.
Definition kRcvBufSize : Z := 1024 * 60.
Definition kSndBufSize : Z := 1024 * 90.

(** The [errno] values the class reports. *)
Inductive errno := ENONE | EINVAL | ENOTCONN | EWOULDBLOCK | ECONNABORTED | ECONNRESET.

Definition bound (lower middle upper : Z) : Z := Z.min (Z.max lower middle) upper.

(** ** Data *)

Inductive TcpState := TCP_LISTEN | TCP_SYN_SENT | TCP_SYN_RECEIVED | TCP_ESTABLISHED | TCP_CLOSED.
#[export] Instance TcpState_eq_dec : EqDecision TcpState.
Proof. solve_decision. Defined.

(** [m_state < TCP_ESTABLISHED]. *)
Definition before_established (s : TcpState) : bool :=
  match s with TCP_LISTEN | TCP_SYN_SENT | TCP_SYN_RECEIVED => true | _ => false end.

Inductive Shutdown := SD_NONE | SD_GRACEFUL | SD_FORCEFUL.
#[export] Instance Shutdown_eq_dec : EqDecision Shutdown.
Proof. solve_decision. Defined.

Inductive SendFlags := sfNone | sfDelayedAck | sfImmediateAck.
#[export] Instance SendFlags_eq_dec : EqDecision SendFlags.
Proof. solve_decision. Defined.

Inductive Option := OPT_NODELAY | OPT_ACKDELAY.
Inductive WriteResult := WR_SUCCESS | WR_TOO_LARGE | WR_FAIL.

Record Segment := mkSegment {
  g_conv : Z; g_seq : Z; g_ack : Z;
  g_flags : Z; g_wnd : Z;
  g_data : bytes; g_len : Z;
  g_tsval : Z; g_tsecr : Z;
}.
Record SSegment := mkSSegment { s_seq : Z; s_len : Z; s_xmit : Z; s_ctrl : bool }.
Record RSegment := mkRSegment { r_seq : Z; r_len : Z }.

#[export] Instance Segment_eta : Eta Segment := fun r =>
  mkSegment (g_conv r) (g_seq r) (g_ack r) (g_flags r) (g_wnd r) (g_data r) (g_len r)
    (g_tsval r) (g_tsecr r).
#[export] Instance SSegment_eta : Eta SSegment := fun r =>
  mkSSegment (s_seq r) (s_len r) (s_xmit r) (s_ctrl r).

Record TCB := mkTCB {
  m_shutdown : Shutdown; m_error : errno;
  (* TCB data *)
  m_state : TcpState; m_conv : Z;
  m_bReadEnable : bool; m_bWriteEnable : bool; m_bOutgoing : bool;
  m_lasttraffic : Z;
  (* incoming data *)
  m_rlist : list RSegment; m_rbuf : bytes;
  m_rcv_nxt : Z; m_rcv_wnd : Z; m_rpos : Z; m_rlen : Z; m_lastrecv : Z;
  (* outgoing data *)
  m_slist : list SSegment; m_sbuf : bytes;
  m_snd_nxt : Z; m_snd_wnd : Z; m_slen : Z; m_lastsend : Z; m_snd_una : Z;
  m_mss : Z; m_msslevel : Z; m_largest : Z; m_mtu_advise : Z;
  (* timers and round trip *)
  m_rto_base : Z; m_ts_recent : Z; m_ts_lastack : Z;
  m_rx_rttvar : Z; m_rx_srtt : Z; m_rx_rto : Z;
  (* congestion avoidance, fast retransmit, delayed acks *)
  m_ssthresh : Z; m_cwnd : Z; m_dup_acks : Z; m_recover : Z; m_t_ack : Z;
  (* options *)
  m_use_nagling : bool; m_ack_delay : Z;
}.

#[export] Instance TCB_eta : Eta TCB := fun t =>
  mkTCB (m_shutdown t) (m_error t) (m_state t) (m_conv t) (m_bReadEnable t) (m_bWriteEnable t)
    (m_bOutgoing t) (m_lasttraffic t) (m_rlist t) (m_rbuf t) (m_rcv_nxt t) (m_rcv_wnd t) (m_rpos t)
    (m_rlen t) (m_lastrecv t) (m_slist t) (m_sbuf t) (m_snd_nxt t) (m_snd_wnd t) (m_slen t)
    (m_lastsend t) (m_snd_una t) (m_mss t) (m_msslevel t) (m_largest t) (m_mtu_advise t)
    (m_rto_base t) (m_ts_recent t) (m_ts_lastack t) (m_rx_rttvar t) (m_rx_srtt t) (m_rx_rto t)
    (m_ssthresh t) (m_cwnd t) (m_dup_acks t) (m_recover t) (m_t_ack t) (m_use_nagling t)
    (m_ack_delay t).

(** ** Effects *)

Inductive event :=
  | TcpWritePacket (packet : bytes)
  | OnTcpOpen
  | OnTcpReadable
  | OnTcpWriteable
  | OnTcpClosed (err : errno).

(** How often the clock was read and a packet written, and the events. *)
Record World := mkWorld { w_ticks : nat; w_writes : nat; w_events : list event }.

Inductive fault := AssertFailed | OutOfBounds | DivideByZero | OutOfFuel.

Inductive result (A : Type) :=
  | Ok (a : A) (t : TCB) (w : World)
  | Fault (f : fault).
#[global] Arguments Ok {A} a t w.
#[global] Arguments Fault {A} f.

Definition M (A : Type) : Type := TCB -> World -> result A.

#[export] Instance M_ret : MRet M := fun A a t w => Ok a t w.
#[export] Instance M_bind : MBind M := fun A B f m t w =>
  match m t w with Ok a t w => f a t w | Fault e => Fault e end.

Definition get : M TCB := fun t w => Ok t t w.
Definition modify (f : TCB -> TCB) : M unit := fun t w => Ok tt (f t) w.
Definition emit (e : event) : M unit := fun t w =>
  Ok tt t (mkWorld (w_ticks w) (w_writes w) (w_events w ++ [e])).
Definition fail {A} (f : fault) : M A := fun _ _ => Fault f.
Definition ASSERT (b : bool) : M unit := if b then mret tt else fail AssertFailed.
Definition in_bounds (b : bool) : M unit := if b then mret tt else fail OutOfBounds.

(** Array segments with [uint32] offsets. *)
Definition zsub (off len : Z) (l : bytes) : bytes := sub (Z.to_nat off) (Z.to_nat len) l.
Definition zblit (off : Z) (src dst : bytes) : bytes := blit (Z.to_nat off) src dst.

Section Code.
Context `{Platform}.
Variable clock : nat -> Z.
Variable network : nat -> WriteResult.

Definition long_to_bytes (val : Z) : bytes := host_store 4 (HostToNetwork32 val).
Definition short_to_bytes (val : Z) : bytes := host_store 2 (HostToNetwork16 val).
Definition bytes_to_long (buf : bytes) : Z := NetworkToHost32 (host_load (take 4 buf)).
Definition bytes_to_short (buf : bytes) : Z := NetworkToHost16 (host_load (take 2 buf)).

Definition Now : M Z := fun t w =>
  Ok (u32 (clock (w_ticks w))) t (mkWorld (S (w_ticks w)) (w_writes w) (w_events w)).
(** [m_notify->TcpWritePacket]. *)
Definition write_packet (p : bytes) : M WriteResult := fun t w =>
  Ok (network (w_writes w)) t
    (mkWorld (w_ticks w) (S (w_writes w)) (w_events w ++ [TcpWritePacket p])).

(** The constructor at clock reading [now]; the two arrays hold whatever the
    memory held. *)
Definition make (conv now : Z) : TCB :=
  let mss := MIN_PACKET -u PACKET_OVERHEAD in
  {| m_shutdown := SD_NONE; m_error := ENONE;
     m_state := TCP_LISTEN; m_conv := conv;
     m_bReadEnable := true; m_bWriteEnable := false; m_bOutgoing := false; m_lasttraffic := now;
     m_rlist := []; m_rbuf := map uninit (seq 0 (Z.to_nat kRcvBufSize));
     m_rcv_nxt := 0; m_rcv_wnd := kRcvBufSize; m_rpos := 0; m_rlen := 0; m_lastrecv := now;
     m_slist := []; m_sbuf := map uninit (seq 0 (Z.to_nat kSndBufSize));
     m_snd_nxt := 0; m_snd_wnd := 1; m_slen := 0; m_lastsend := now; m_snd_una := 0;
     m_mss := mss; m_msslevel := 0; m_largest := 0; m_mtu_advise := MAX_PACKET;
     m_rto_base := 0; m_ts_recent := 0; m_ts_lastack := 0;
     m_rx_rttvar := 0; m_rx_srtt := 0; m_rx_rto := DEF_RTO;
     m_ssthresh := kRcvBufSize; m_cwnd := 2 *u mss; m_dup_acks := 0; m_recover := 0; m_t_ack := 0;
     m_use_nagling := true; m_ack_delay := DEF_ACK_DELAY |}.

(** ** Buffers *)

Definition getReceiveBufferSpace (t : TCB) : Z := u32 (kRcvBufSize - m_rlen t + m_rpos t).
Definition isReceiveBufferFull (t : TCB) : bool := getReceiveBufferSpace t =? 0.
Definition getReceiveBufferConsecutiveSpace (t : TCB) : Z := kRcvBufSize -u m_rlen t.

Definition consolidateReceiveBufferSpace : M unit :=
  t ← get;
  in_bounds (m_rpos t <=? kRcvBufSize);;
  modify (fun t => t
    <| m_rbuf := zblit 0 (zsub (m_rpos t) (kRcvBufSize - m_rpos t) (m_rbuf t)) (m_rbuf t) |>
    <| m_rlen := m_rlen t -u m_rpos t |>
    <| m_rpos := 0 |>).

(** Appends to the last segment if it is of the same type and not yet sent. *)
Definition slist_queue (snd_end len : Z) (bCtrl : bool) (l : list SSegment) : list SSegment :=
  match last l with
  | Some b =>
      if Bool.eqb (s_ctrl b) bCtrl && (s_xmit b =? 0)
      then removelast l ++ [b <| s_len := s_len b +u len |>]
      else l ++ [mkSSegment snd_end len 0 bCtrl]
  | None => [mkSSegment snd_end len 0 bCtrl]
  end.

Definition queue (data : bytes) (len : Z) (bCtrl : bool) : M Z :=
  t ← get;
  len ← (if kSndBufSize -u m_slen t <? len
         then ASSERT (negb bCtrl);; mret (kSndBufSize -u m_slen t)
         else mret len);
  modify (fun t => t <| m_slist := slist_queue (m_snd_una t +u m_slen t) len bCtrl (m_slist t) |>);;
  in_bounds ((m_slen t + len <=? kSndBufSize) && (len <=? Z.of_nat (length data)));;
  modify (fun t => t
    <| m_sbuf := zblit (m_slen t) (take (Z.to_nat len) data) (m_sbuf t) |>
    <| m_slen := m_slen t +u len |>);;
  mret len.

(** ** Sending *)

(** The datagram: the header of 24 bytes, then the data. *)
Definition build_packet (t : TCB) (seq flags now : Z) (data : bytes) : bytes :=
  long_to_bytes (m_conv t) ++ long_to_bytes seq ++ long_to_bytes (m_rcv_nxt t) ++
  [mkbyte 0; mkbyte flags] ++ short_to_bytes (u16 (m_rcv_wnd t)) ++
  long_to_bytes now ++ long_to_bytes (m_ts_recent t) ++ data.

(** [data] is the memory from the pointer on; [None] is NULL. *)
Definition packet (seq flags : Z) (data : option bytes) (len : Z) : M WriteResult :=
  ASSERT (HEADER_SIZE +u len <=? MAX_PACKET);;
  now ← Now;
  t ← get;
  modify (fun t => t <| m_ts_lastack := m_rcv_nxt t |>);;
  in_bounds (len <=? Z.of_nat (length (default [] data)));;
  wres ← write_packet (build_packet t seq flags now (take (Z.to_nat len) (default [] data)));
  match wres, data with
  | WR_SUCCESS, _ | _, None =>
      modify (fun t => t
        <| m_t_ack := 0 |>
        <| m_lastsend := if 0 <? len then now else m_lastsend t |>
        <| m_lasttraffic := now |>
        <| m_bOutgoing := true |>);;
      mret WR_SUCCESS
  | wres, Some _ => mret wres
  end.

(** The inner loop of [transmit]: step down the table of packet sizes until one
    is smaller than what was tried.  [None] is [return false]. *)
Fixpoint shrink_mss (fuel : nat) (nTransmit : Z) : M (option Z) :=
  match fuel with
  | O => fail OutOfFuel
  | S fuel =>
      t ← get;
      match PACKET_MAXIMUMS !! Z.to_nat (m_msslevel t + 1) with
      | None => fail OutOfBounds
      | Some size =>
          if size =? 0 then mret None
          else
            let mss := size -u PACKET_OVERHEAD in
            modify (fun t => t
              <| m_msslevel := m_msslevel t + 1 |> <| m_mss := mss |> <| m_cwnd := 2 *u mss |>);;
            if mss <? nTransmit then mret (Some mss) else shrink_mss fuel nTransmit
      end
  end.

Definition mss_fuel : nat := 11.

(** The outer loop of [transmit]; the result is how much was sent. *)
Fixpoint transmit_loop (fuel : nat) (seg : SSegment) (nTransmit : Z) : M (option Z) :=
  match fuel with
  | O => fail OutOfFuel
  | S fuel =>
      t ← get;
      let flags := if s_ctrl seg then FLAG_CTL else 0 in
      let buffer := drop (Z.to_nat (s_seq seg -u m_snd_una t)) (m_sbuf t) in
      wres ← packet (s_seq seg) flags (Some buffer) nTransmit;
      match wres with
      | WR_SUCCESS => mret (Some nTransmit)
      | WR_FAIL => mret None
      | WR_TOO_LARGE =>
          r ← shrink_mss mss_fuel nTransmit;
          match r with
          | None => mret None
          | Some nTransmit => transmit_loop fuel seg nTransmit
          end
      end
  end.

(** After a successful write of [nTransmit] bytes of segment [i]. *)
Definition transmit_done (i : nat) (seg : SSegment) (nTransmit now : Z) (t : TCB) : TCB :=
  let sent := seg <| s_len := if nTransmit <? s_len seg then nTransmit else s_len seg |> in
  let rest := if nTransmit <? s_len seg
              then [mkSSegment (s_seq seg +u nTransmit) (s_len seg -u nTransmit) (s_xmit seg) (s_ctrl seg)]
              else [] in
  t <| m_slist := take i (m_slist t) ++ [sent <| s_xmit := u8 (s_xmit seg + 1) |>] ++ rest ++
                  drop (S i) (m_slist t) |>
    <| m_snd_nxt := if s_xmit seg =? 0 then m_snd_nxt t +u s_len sent else m_snd_nxt t |>
    <| m_rto_base := if m_rto_base t =? 0 then now else m_rto_base t |>.

(** [transmit] of the segment at position [i]. *)
Definition transmit (i : nat) (now : Z) : M bool :=
  t ← get;
  match m_slist t !! i with
  | None => fail OutOfBounds
  | Some seg =>
      if (if decide (m_state t = TCP_ESTABLISHED) then 15 else 30) <=? s_xmit seg then mret false
      else
        r ← transmit_loop mss_fuel seg (Z.min (s_len seg) (m_mss t));
        match r with
        | None => mret false
        | Some nTransmit => modify (transmit_done i seg nTransmit now);; mret true
        end
  end.

(** The position of the first segment not yet sent. *)
Fixpoint first_unsent (l : list SSegment) : option nat :=
  match l with
  | [] => None
  | s :: l => if 0 <? s_xmit s then S <$> first_unsent l else Some O
  end.

(** Breaks segment [i] after [n] bytes if it is longer. *)
Definition break_segment (i : nat) (n : Z) (l : list SSegment) : list SSegment :=
  match l !! i with
  | Some seg =>
      if n <? s_len seg
      then take i l ++ [seg <| s_len := n |>; mkSSegment (s_seq seg +u n) (s_len seg -u n) 0 (s_ctrl seg)]
             ++ drop (S i) l
      else l
  | None => l
  end.

(** What the windows and the buffer allow to send now. *)
Definition nAvailable (t : TCB) : Z :=
  let cwnd := if (m_dup_acks t =? 1) || (m_dup_acks t =? 2)
              then m_cwnd t +u (m_dup_acks t *u m_mss t) else m_cwnd t in
  let nWindow := Z.min (m_snd_wnd t) cwnd in
  let nInFlight := m_snd_nxt t -u m_snd_una t in
  let nUseable := if nInFlight <? nWindow then nWindow -u nInFlight else 0 in
  let nAvailable := Z.min (m_slen t -u nInFlight) (m_mss t) in
  if nUseable <? nAvailable then (if nUseable *u 4 <? nWindow then 0 else nUseable)
  else nAvailable.

Fixpoint attemptSend_loop (fuel : nat) (sflags : SendFlags) (now : Z) : M unit :=
  match fuel with
  | O => fail OutOfFuel
  | S fuel =>
      t ← get;
      let nAvailable := nAvailable t in
      if nAvailable =? 0 then
        match sflags with
        | sfNone => mret tt
        | _ =>
            if bool_decide (sflags = sfImmediateAck) || negb (m_t_ack t =? 0)
            then packet (m_snd_nxt t) 0 None 0;; mret tt
            else t_ack ← Now; modify (fun t => t <| m_t_ack := t_ack |>)
        end
      else if m_use_nagling t && (m_snd_una t <? m_snd_nxt t) && (nAvailable <? m_mss t) then mret tt
      else
        match first_unsent (m_slist t) with
        | None => fail AssertFailed
        | Some i =>
            modify (fun t => t <| m_slist := break_segment i nAvailable (m_slist t) |>);;
            ok ← transmit i now;
            if ok : bool then attemptSend_loop fuel sfNone now else mret tt
        end
  end.

(** Every iteration but the last sends at least one byte. *)
Definition attemptSend_fuel (t : TCB) : nat :=
  S (S (Z.to_nat (m_slen t - (m_snd_nxt t -u m_snd_una t)))).

Definition attemptSend (sflags : SendFlags) : M unit :=
  now ← Now;
  modify (fun t => if m_rx_rto t <? TimeDiff now (m_lastsend t) then t <| m_cwnd := m_mss t |> else t);;
  t ← get;
  attemptSend_loop (attemptSend_fuel t) sflags now.

Definition closedown (err : errno) : M unit :=
  modify (fun t => t <| m_slen := 0 |> <| m_state := TCP_CLOSED |>);;
  emit (OnTcpClosed err).

(** The level of the largest standard size the advised one admits. *)
Fixpoint mss_level (l : list Z) (mtu_advise level : Z) : Z :=
  match l with
  | size :: ((next :: _) as l') =>
      if 0 <? next then (if size <=? mtu_advise then level else mss_level l' mtu_advise (level + 1))
      else level
  | _ => level
  end.

Definition adjustMTU (t : TCB) : TCB :=
  let mss := m_mtu_advise t -u PACKET_OVERHEAD in
  t <| m_msslevel := mss_level PACKET_MAXIMUMS (m_mtu_advise t) 0 |>
    <| m_mss := mss |>
    <| m_ssthresh := Z.max (m_ssthresh t) (2 *u mss) |>
    <| m_cwnd := Z.max (m_cwnd t) mss |>.

(** ** Receiving *)

(** Check for control data: [None] is [return false]. *)
Definition process_control (seg : Segment) : M (option bool) :=
  if Z.land (g_flags seg) FLAG_CTL =? 0 then mret (Some false)
  else if g_len seg =? 0 then mret None
  else
    match g_data seg with
    | [] => fail OutOfBounds
    | c :: _ =>
        if byte.unsigned c =? CTL_CONNECT then
          t ← get;
          match m_state t with
          | TCP_LISTEN =>
              modify (fun t => t <| m_state := TCP_SYN_RECEIVED |>);;
              queue [mkbyte CTL_CONNECT] 1 true;; mret (Some true)
          | TCP_SYN_SENT =>
              modify (fun t => adjustMTU (t <| m_state := TCP_ESTABLISHED |>));;
              emit OnTcpOpen;; mret (Some true)
          | _ => mret (Some true)
          end
        else mret None
    end.

(** The round-trip estimate; a time stamp from the future fails an assertion. *)
Definition update_rtt (now tsecr : Z) : M unit :=
  if tsecr =? 0 then mret tt
  else
    let rtt := TimeDiff now tsecr in
    ASSERT (0 <=? rtt);;
    modify (fun t =>
      let t :=
        if m_rx_srtt t =? 0 then t <| m_rx_srtt := u32 rtt |> <| m_rx_rttvar := u32 (rtt / 2) |>
        else t <| m_rx_rttvar := u32 ((3 *u m_rx_rttvar t + Z.abs (rtt - m_rx_srtt t)) / 4) |>
               <| m_rx_srtt := u32 ((7 *u m_rx_srtt t + rtt) / 8) |> in
      t <| m_rx_rto := bound MIN_RTO (m_rx_srtt t +u Z.max 1 (4 *u m_rx_rttvar t)) MAX_RTO |>).

(** Removes [nFree] acknowledged bytes from the segments; [None] is the failed
    assertion of an empty list. *)
Fixpoint free_segments (nFree largest : Z) (l : list SSegment) : option (list SSegment * Z) :=
  if nFree =? 0 then Some (l, largest)
  else
    match l with
    | [] => None
    | s :: l =>
        if nFree <? s_len s then Some (s <| s_len := s_len s -u nFree |> :: l, largest)
        else free_segments (nFree -u s_len s) (if largest <? s_len s then s_len s else largest) l
    end.

(** The part of the valuable ack that frees the send buffer. *)
Definition free_acked (nAcked : Z) : M unit :=
  modify (fun t => t <| m_slen := m_slen t -u nAcked |>);;
  t ← get;
  in_bounds (nAcked + m_slen t <=? kSndBufSize);;
  modify (fun t => t <| m_sbuf := zblit 0 (zsub nAcked (m_slen t) (m_sbuf t)) (m_sbuf t) |>);;
  match free_segments nAcked (m_largest t) (m_slist t) with
  | None => fail AssertFailed
  | Some (l, largest) => modify (fun t => t <| m_slist := l |> <| m_largest := largest |>)
  end.

(** Congestion control on a valuable ack; false is [return false]. *)
Definition ack_congestion (nAcked now : Z) : M bool :=
  t ← get;
  if 3 <=? m_dup_acks t then
    if m_recover t <=? m_snd_una t then
      let nInFlight := m_snd_nxt t -u m_snd_una t in
      modify (fun t => t <| m_cwnd := Z.min (m_ssthresh t) (nInFlight +u m_mss t) |>
                         <| m_dup_acks := 0 |>);;
      mret true
    else
      ok ← transmit 0 now;
      if ok : bool then
        modify (fun t => t <| m_cwnd := u32 (m_cwnd t + (m_mss t - Z.min nAcked (m_cwnd t))) |>);;
        mret true
      else closedown ECONNABORTED;; mret false
  else
    modify (fun t => t <| m_dup_acks := 0 |>);;
    if m_cwnd t <? m_ssthresh t then
      modify (fun t => t <| m_cwnd := m_cwnd t +u m_mss t |>);; mret true
    else if m_cwnd t =? 0 then fail DivideByZero
    else
      modify (fun t => t <| m_cwnd := m_cwnd t +u Z.max 1 ((m_mss t *u m_mss t) / m_cwnd t) |>);;
      mret true.

Definition kIdealRefillSize : Z := (kSndBufSize + kRcvBufSize) / 2.

(** After the ack: the connection may be established and room be made. *)
Definition ack_notify (bConnect : bool) : M unit :=
  t ← get;
  (if bool_decide (m_state t = TCP_SYN_RECEIVED) && negb bConnect then
     modify (fun t => adjustMTU (t <| m_state := TCP_ESTABLISHED |>));; emit OnTcpOpen
   else mret tt);;
  t ← get;
  if m_bWriteEnable t && (m_slen t <? kIdealRefillSize) then
    modify (fun t => t <| m_bWriteEnable := false |>);; emit OnTcpWriteable
  else mret tt.

Definition valuable_ack (seg : Segment) (now : Z) (bConnect : bool) : M bool :=
  update_rtt now (g_tsecr seg);;
  t ← get;
  let nAcked := g_ack seg -u m_snd_una t in
  modify (fun t => t <| m_snd_wnd := g_wnd seg |> <| m_snd_una := g_ack seg |>
                     <| m_rto_base := if g_ack seg =? m_snd_nxt t then 0 else now |>);;
  free_acked nAcked;;
  ok ← ack_congestion nAcked now;
  if ok : bool then ack_notify bConnect;; mret true else mret false.

Definition duplicate_ack (seg : Segment) (now : Z) : M bool :=
  modify (fun t => t <| m_snd_wnd := g_wnd seg |>);;
  t ← get;
  if 0 <? g_len seg then mret true
  else if negb (m_snd_una t =? m_snd_nxt t) then
    modify (fun t => t <| m_dup_acks := u8 (m_dup_acks t + 1) |>);;
    t ← get;
    if m_dup_acks t =? 3 then
      ok ← transmit 0 now;
      if ok : bool then
        modify (fun t =>
          let nInFlight := m_snd_nxt t -u m_snd_una t in
          let ssthresh := Z.max (nInFlight / 2) (2 *u m_mss t) in
          t <| m_recover := m_snd_nxt t |> <| m_ssthresh := ssthresh |>
            <| m_cwnd := ssthresh +u (3 *u m_mss t) |>);;
        mret true
      else closedown ECONNABORTED;; mret false
    else
      modify (fun t => if 3 <? m_dup_acks t then t <| m_cwnd := m_cwnd t +u m_mss t |> else t);;
      mret true
  else modify (fun t => t <| m_dup_acks := 0 |>);; mret true.

Definition process_ack (seg : Segment) (now : Z) (bConnect : bool) : M bool :=
  t ← get;
  if (m_snd_una t <? g_ack seg) && (g_ack seg <=? m_snd_nxt t) then valuable_ack seg now bConnect
  else if g_ack seg =? m_snd_una t then duplicate_ack seg now
  else mret true.

(** Which acknowledgement the segment calls for. *)
Definition ack_flags (t : TCB) (seg : Segment) : SendFlags :=
  if negb (g_seq seg =? m_rcv_nxt t) then sfImmediateAck
  else if negb (g_len seg =? 0) then (if m_ack_delay t =? 0 then sfImmediateAck else sfDelayedAck)
  else sfNone.

(** Adjusts the incoming segment to what is new and fits the receive buffer. *)
Definition trim_old (t : TCB) (seg : Segment) : Segment :=
  if g_seq seg <? m_rcv_nxt t then
    let nAdjust := m_rcv_nxt t -u g_seq seg in
    if nAdjust <? g_len seg then
      seg <| g_seq := g_seq seg +u nAdjust |> <| g_data := drop (Z.to_nat nAdjust) (g_data seg) |>
          <| g_len := g_len seg -u nAdjust |>
    else seg <| g_len := 0 |>
  else seg.
Definition trim_new (t : TCB) (seg : Segment) : Segment :=
  let over := u32 (g_seq seg + g_len seg - m_rcv_nxt t) in
  if getReceiveBufferSpace t <? over then
    let nAdjust := over -u getReceiveBufferSpace t in
    if nAdjust <? g_len seg then seg <| g_len := g_len seg -u nAdjust |> else seg <| g_len := 0 |>
  else seg.

(** Takes the saved segments that the stream has reached off the list; the
    flag says whether one extended it. *)
Fixpoint recover_saved (l : list RSegment) (rlen rcv_nxt rcv_wnd : Z) (some : bool)
    : list RSegment * Z * Z * Z * bool :=
  match l with
  | [] => ([], rlen, rcv_nxt, rcv_wnd, some)
  | r :: l' =>
      if r_seq r <=? rcv_nxt then
        if rcv_nxt <? r_seq r +u r_len r then
          let nAdjust := (r_seq r +u r_len r) -u rcv_nxt in
          recover_saved l' (rlen +u nAdjust) (rcv_nxt +u nAdjust) (rcv_wnd -u nAdjust) true
        else recover_saved l' rlen rcv_nxt rcv_wnd some
      else (l, rlen, rcv_nxt, rcv_wnd, some)
  end.

(** Inserts a saved segment in the order of sequence numbers. *)
Fixpoint insert_saved (r : RSegment) (l : list RSegment) : list RSegment :=
  match l with
  | [] => [r]
  | r' :: l' => if r_seq r' <? r_seq r then r' :: insert_saved r l' else r :: l
  end.

(** The data of a segment in sequence is readable at once, with the saved
    segments it connects to. *)
Definition accept_data (seg : Segment) (t : TCB) : TCB * bool :=
  let '(rlist, rlen, rcv_nxt, rcv_wnd, some) :=
    recover_saved (m_rlist t) (m_rlen t +u g_len seg) (m_rcv_nxt t +u g_len seg)
      (m_rcv_wnd t -u g_len seg) false in
  (t <| m_rlist := rlist |> <| m_rlen := rlen |> <| m_rcv_nxt := rcv_nxt |> <| m_rcv_wnd := rcv_wnd |>,
   some).

(** The data part; returns the flags and whether there is new data. *)
Definition process_data (seg : Segment) (sflags : SendFlags) : M (SendFlags * bool) :=
  t ← get;
  let bIgnoreData := negb (Z.land (g_flags seg) FLAG_CTL =? 0) ||
                     negb (bool_decide (m_shutdown t = SD_NONE)) in
  if g_len seg <=? 0 then mret (sflags, false)
  else if bIgnoreData then
    modify (fun t => if g_seq seg =? m_rcv_nxt t
                     then t <| m_rcv_nxt := m_rcv_nxt t +u g_len seg |> else t);;
    mret (sflags, false)
  else
    let nOffset := g_seq seg -u m_rcv_nxt t in
    (if getReceiveBufferConsecutiveSpace t <? g_len seg +u nOffset then
       consolidateReceiveBufferSpace;;
       t ← get; ASSERT (g_len seg +u nOffset <=? getReceiveBufferConsecutiveSpace t)
     else mret tt);;
    t ← get;
    in_bounds ((m_rlen t + nOffset + g_len seg <=? kRcvBufSize) &&
               (g_len seg <=? Z.of_nat (length (g_data seg))));;
    modify (fun t => t <| m_rbuf := zblit (m_rlen t + nOffset)
                            (take (Z.to_nat (g_len seg)) (g_data seg)) (m_rbuf t) |>);;
    t ← get;
    if g_seq seg =? m_rcv_nxt t then
      let '(t', some) := accept_data seg t in
      modify (fun _ => t');;
      mret (if some : bool then sfImmediateAck else sflags, true)
    else
      modify (fun t => t <| m_rlist := insert_saved (mkRSegment (g_seq seg) (g_len seg)) (m_rlist t) |>);;
      mret (sflags, false).

(** After the control and acknowledgement parts. *)
Definition process_rest (seg : Segment) : M bool :=
  t ← get;
  let sflags := ack_flags t seg in
  let seg := trim_new t (trim_old t seg) in
  '(sflags, bNewData) ← process_data seg sflags;
  attemptSend sflags;;
  t ← get;
  (if (bNewData : bool) && m_bReadEnable t then
     modify (fun t => t <| m_bReadEnable := false |>);; emit OnTcpReadable
   else mret tt);;
  mret true.

Definition update_timestamp (seg : Segment) (t : TCB) : TCB :=
  if (g_seq seg <=? m_ts_lastack t) && (m_ts_lastack t <? g_seq seg +u g_len seg)
  then t <| m_ts_recent := g_tsval seg |> else t.

Definition process (seg : Segment) : M bool :=
  t ← get;
  if negb (g_conv seg =? m_conv t) then mret false
  else
    now ← Now;
    modify (fun t => t <| m_lasttraffic := now |> <| m_lastrecv := now |> <| m_bOutgoing := false |>);;
    if decide (m_state t = TCP_CLOSED) then mret false
    else if negb (Z.land (g_flags seg) FLAG_RST =? 0) then closedown ECONNRESET;; mret false
    else
      c ← process_control seg;
      match c with
      | None => mret false
      | Some bConnect =>
          modify (update_timestamp seg);;
          ok ← process_ack seg now bConnect;
          if ok : bool then process_rest seg else mret false
      end.

(** The header is read without a check that the packet holds all of it. *)
Definition parse_segment (buffer : bytes) : Segment :=
  {| g_conv := bytes_to_long buffer;
     g_seq := bytes_to_long (drop 4 buffer);
     g_ack := bytes_to_long (drop 8 buffer);
     g_flags := byte.unsigned (nth 13 buffer Byte.x00);
     g_wnd := bytes_to_short (drop 14 buffer);
     g_data := drop 24 buffer;
     g_len := u32 (Z.of_nat (length buffer) - HEADER_SIZE);
     g_tsval := bytes_to_long (drop 16 buffer);
     g_tsecr := bytes_to_long (drop 20 buffer) |}.

Definition parse (buffer : bytes) : M bool :=
  if Z.of_nat (length buffer) <? 12 then mret false
  else
    in_bounds (HEADER_SIZE <=? Z.of_nat (length buffer));;
    process (parse_segment buffer).

(** ** The interface *)

Definition NotifyPacket (buffer : bytes) : M bool :=
  if MAX_PACKET <? Z.of_nat (length buffer) then mret false else parse buffer.

(** The retransmission part of [NotifyClock]; false is [return]. *)
Definition clock_retransmit (now : Z) : M bool :=
  t ← get;
  if negb (m_rto_base t =? 0) && (TimeDiff (m_rto_base t +u m_rx_rto t) now <=? 0) then
    ASSERT (negb (bool_decide (length (m_slist t) = 0%nat)));;
    ok ← transmit 0 now;
    if ok : bool then
      modify (fun t =>
        let nInFlight := m_snd_nxt t -u m_snd_una t in
        t <| m_ssthresh := Z.max (nInFlight / 2) (2 *u m_mss t) |>
          <| m_cwnd := m_mss t |>
          <| m_rx_rto := Z.min (if before_established (m_state t) then DEF_RTO else MAX_RTO)
                           (m_rx_rto t *u 2) |>
          <| m_rto_base := now |>);;
      mret true
    else closedown ECONNABORTED;; mret false
  else mret true.

(** The probe of a closed window; false is [return]. *)
Definition clock_probe (now : Z) : M bool :=
  t ← get;
  if (m_snd_wnd t =? 0) && (TimeDiff (m_lastsend t +u m_rx_rto t) now <=? 0) then
    if 15000 <=? TimeDiff now (m_lastrecv t) then closedown ECONNABORTED;; mret false
    else
      packet (m_snd_nxt t -u 1) 0 None 0;;
      modify (fun t => t <| m_lastsend := now |> <| m_rx_rto := Z.min MAX_RTO (m_rx_rto t *u 2) |>);;
      mret true
  else mret true.

Definition NotifyClock (now : Z) : M unit :=
  t ← get;
  if decide (m_state t = TCP_CLOSED) then mret tt
  else
    ok ← clock_retransmit now;
    if negb (ok : bool) then mret tt
    else
      ok ← clock_probe now;
      if negb (ok : bool) then mret tt
      else
        t ← get;
        if negb (m_t_ack t =? 0) && (TimeDiff (m_t_ack t +u m_ack_delay t) now <=? 0)
        then packet (m_snd_nxt t) 0 None 0;; mret tt
        else mret tt.

Definition Connect : M Z :=
  t ← get;
  if negb (bool_decide (m_state t = TCP_LISTEN)) then
    modify (fun t => t <| m_error := EINVAL |>);; mret (-1)
  else
    modify (fun t => t <| m_state := TCP_SYN_SENT |>);;
    queue [mkbyte CTL_CONNECT] 1 true;;
    attemptSend sfNone;;
    mret 0.

Definition NotifyMTU (mtu : Z) : M unit :=
  modify (fun t =>
    let t := t <| m_mtu_advise := mtu |> in
    if decide (m_state t = TCP_ESTABLISHED) then adjustMTU t else t).

(** The result and the bytes copied to the caller's buffer of [len] bytes. *)
Definition Recv (len : Z) : M (Z * bytes) :=
  t ← get;
  if negb (bool_decide (m_state t = TCP_ESTABLISHED)) then
    modify (fun t => t <| m_error := ENOTCONN |>);; mret (-1, [])
  else
    ASSERT (m_rpos t <=? m_rlen t);;
    if m_rlen t =? m_rpos t then
      modify (fun t => t <| m_bReadEnable := true |> <| m_error := EWOULDBLOCK |>);; mret (-1, [])
    else
      let read := Z.min (u32 len) (m_rlen t -u m_rpos t) in
      let data := zsub (m_rpos t) read (m_rbuf t) in
      modify (fun t => t <| m_rpos := m_rpos t +u read |>);;
      t ← get;
      (if Z.min (kRcvBufSize / 2) (m_mss t) <=? getReceiveBufferSpace t -u m_rcv_wnd t then
         let bWasClosed := m_rcv_wnd t =? 0 in
         modify (fun t => t <| m_rcv_wnd := getReceiveBufferSpace t |>);;
         if bWasClosed then attemptSend sfImmediateAck else mret tt
       else mret tt);;
      mret (read, data).

Definition Send (buffer : bytes) : M Z :=
  t ← get;
  if negb (bool_decide (m_state t = TCP_ESTABLISHED)) then
    modify (fun t => t <| m_error := ENOTCONN |>);; mret (-1)
  else if m_slen t =? kSndBufSize then
    modify (fun t => t <| m_bWriteEnable := true |> <| m_error := EWOULDBLOCK |>);; mret (-1)
  else
    written ← queue buffer (u32 (Z.of_nat (length buffer))) false;
    attemptSend sfNone;;
    mret written.

Definition Close (force : bool) : M unit :=
  modify (fun t => t <| m_shutdown := if force then SD_FORCEFUL else SD_GRACEFUL |>).

Definition GetError (t : TCB) : errno := m_error t.

Definition GetOption (opt : Option) (t : TCB) : Z :=
  match opt with
  | OPT_NODELAY => if m_use_nagling t then 0 else 1
  | OPT_ACKDELAY => s32 (m_ack_delay t)
  end.
Definition SetOption (opt : Option) (value : Z) (t : TCB) : TCB :=
  match opt with
  | OPT_NODELAY => t <| m_use_nagling := value =? 0 |>
  | OPT_ACKDELAY => t <| m_ack_delay := u32 value |>
  end.

(** [None] is [return false]: the connection is ready to be destroyed. *)
Definition clock_check (now : Z) (t : TCB) : option Z :=
  if decide (m_shutdown t = SD_FORCEFUL) then None
  else if bool_decide (m_shutdown t = SD_GRACEFUL) &&
          (negb (bool_decide (m_state t = TCP_ESTABLISHED)) || ((m_slen t =? 0) && (m_t_ack t =? 0)))
  then None
  else if decide (m_state t = TCP_CLOSED) then Some CLOSED_TIMEOUT
  else
    let nTimeout := DEFAULT_TIMEOUT in
    let nTimeout := if m_t_ack t =? 0 then nTimeout
                    else Z.min nTimeout (TimeDiff (m_t_ack t +u m_ack_delay t) now) in
    let nTimeout := if m_rto_base t =? 0 then nTimeout
                    else Z.min nTimeout (TimeDiff (m_rto_base t +u m_rx_rto t) now) in
    let nTimeout := if m_snd_wnd t =? 0
                    then Z.min nTimeout (TimeDiff (m_lastsend t +u m_rx_rto t) now) else nTimeout in
    Some nTimeout.
Definition GetNextClock (now : Z) (t : TCB) : option Z := clock_check now t.

End Code.
End Tcp.
