(* ===== verification/TcpLogic.v ===== *)
(** * Reasoning about PseudoTcp code

    Weakest preconditions for the effect monad of [PseudoTcp.v]: [wp m Q t w]
    says that [m], run from control block [t] in world [w], raises no fault and
    ends in a result, block and world that satisfy [Q].  Then the wire format:
    what [build_packet] writes, [parse_segment] reads. *)

From S2P Require Import Prelude TimeUtil ByteOrder PseudoTcp.
#[local] Open Scope jingle_scope.
Import Tcp.

Definition wp {A} (m : M A) (Q : A -> TCB -> World -> Prop) (t : TCB) (w : World) : Prop :=
  match m t w with Ok a t' w' => Q a t' w' | Fault _ => False end.

Lemma wp_mono {A} (m : M A) (Q R : A -> TCB -> World -> Prop) t w :
  wp m Q t w -> (forall a t' w', Q a t' w' -> R a t' w') -> wp m R t w.
Proof. unfold wp. destruct (m t w); auto. Qed.

Lemma wp_bind {A B} (m : M A) (f : A -> M B) Q t w :
  wp m (fun a t w => wp (f a) Q t w) t w -> wp (m ≫= f) Q t w.
Proof. unfold wp, mbind, M_bind. by destruct (m t w). Qed.

Lemma wp_ret {A} (a : A) (Q : A -> TCB -> World -> Prop) t w : Q a t w -> wp (mret a) Q t w.
Proof. done. Qed.
Lemma wp_get (Q : TCB -> TCB -> World -> Prop) t w : Q t t w -> wp get Q t w.
Proof. done. Qed.
Lemma wp_modify f (Q : unit -> TCB -> World -> Prop) t w : Q tt (f t) w -> wp (modify f) Q t w.
Proof. done. Qed.
Lemma wp_emit e (Q : unit -> TCB -> World -> Prop) t w :
  Q tt t (mkWorld (w_ticks w) (w_writes w) (w_events w ++ [e])) -> wp (emit e) Q t w.
Proof. done. Qed.
Lemma wp_assert b (Q : unit -> TCB -> World -> Prop) t w :
  b = true -> Q tt t w -> wp (ASSERT b) Q t w.
Proof. by intros ->. Qed.
Lemma wp_in_bounds b (Q : unit -> TCB -> World -> Prop) t w :
  b = true -> Q tt t w -> wp (in_bounds b) Q t w.
Proof. by intros ->. Qed.

Lemma wp_now clock (Q : Z -> TCB -> World -> Prop) t w :
  Q (u32 (clock (w_ticks w))) t (mkWorld (S (w_ticks w)) (w_writes w) (w_events w)) ->
  wp (Now clock) Q t w.
Proof. done. Qed.
Lemma wp_write network p (Q : WriteResult -> TCB -> World -> Prop) t w :
  (forall r, Q r t (mkWorld (w_ticks w) (S (w_writes w)) (w_events w ++ [TcpWritePacket p]))) ->
  wp (write_packet network p) Q t w.
Proof. intros HQ. apply HQ. Qed.

(** Runs through the primitive operations at the head of the goal. *)
Ltac wp_step :=
  lazymatch goal with
  | |- wp (mbind _ _) _ _ _ => apply wp_bind
  | |- wp (mret _) _ _ _ => apply wp_ret
  | |- wp get _ _ _ => apply wp_get
  | |- wp (modify _) _ _ _ => apply wp_modify
  | |- wp (emit _) _ _ _ => apply wp_emit
  | |- wp (Now _) _ _ _ => apply wp_now
  end.
Ltac wp_steps := repeat (wp_step; cbv beta).

(** A nested use of an already proved triple. *)
Ltac wp_apply H := eapply wp_mono; [apply H|cbv beta].

Section Wire.
Context `{Platform}.

Lemma long_to_bytes_be v : long_to_bytes v = be_bytes 4 v.
Proof. apply store_HostToNetwork32. Qed.
Lemma short_to_bytes_be v : short_to_bytes v = be_bytes 2 v.
Proof. apply store_HostToNetwork16. Qed.
Lemma bytes_to_long_be m : (4 <= length m)%nat -> bytes_to_long m = be_value (take 4 m).
Proof. intros. apply NetworkToHost32_load. rewrite length_take. lia. Qed.
Lemma bytes_to_short_be m : (2 <= length m)%nat -> bytes_to_short m = be_value (take 2 m).
Proof. intros. apply NetworkToHost16_load. rewrite length_take. lia. Qed.

Lemma bytes_to_long_range m : (4 <= length m)%nat -> is_u32 (bytes_to_long m).
Proof.
  intros Hm. rewrite bytes_to_long_be by done. pose proof (be_value_range (take 4 m)) as HR.
  rewrite length_take, Nat.min_l in HR by lia. done.
Qed.
Lemma bytes_to_short_range m : (2 <= length m)%nat -> is_u16 (bytes_to_short m).
Proof.
  intros Hm. rewrite bytes_to_short_be by done. pose proof (be_value_range (take 2 m)) as HR.
  rewrite length_take, Nat.min_l in HR by lia. done.
Qed.

Lemma bytes_to_long_app v rest : bytes_to_long (be_bytes 4 v ++ rest) = u32 v.
Proof.
  rewrite bytes_to_long_be by (rewrite length_app, length_be_bytes; lia).
  rewrite take_app_length' by (by rewrite length_be_bytes). apply be_value_bytes_4.
Qed.
Lemma bytes_to_short_app v rest : bytes_to_short (be_bytes 2 v ++ rest) = u16 v.
Proof.
  rewrite bytes_to_short_be by (rewrite length_app, length_be_bytes; lia).
  rewrite take_app_length' by (by rewrite length_be_bytes). apply be_value_bytes_2.
Qed.

Lemma length_build_packet t seq flags now data :
  length (build_packet t seq flags now data) = (24 + length data)%nat.
Proof.
  unfold build_packet. rewrite !long_to_bytes_be, !short_to_bytes_be.
  rewrite !length_app, !length_be_bytes. simpl. lia.
Qed.

(** The fields of a packet as the receiver parses them. *)
Lemma parse_build_packet t seq flags now data :
  is_u32 (m_conv t) -> is_u32 seq -> is_u32 (m_rcv_nxt t) -> is_u8 flags -> is_u32 now ->
  is_u32 (m_ts_recent t) -> Z.of_nat (length data) < 65536 ->
  parse_segment (build_packet t seq flags now data) =
    mkSegment (m_conv t) seq (m_rcv_nxt t) flags (u16 (m_rcv_wnd t)) data
      (Z.of_nat (length data)) now (m_ts_recent t).
Proof.
  intros. unfold parse_segment. rewrite length_build_packet.
  assert (HL : u32 (Z.of_nat (24 + length data) - HEADER_SIZE) = Z.of_nat (length data))
    by (unfold HEADER_SIZE; rewrite u32_small; unfold is_u32; lia).
  rewrite HL. unfold build_packet. rewrite !long_to_bytes_be, !short_to_bytes_be.
  set (p := be_bytes 4 (m_conv t) ++ _).
  assert (D : forall n (a b : bytes), length a = n -> drop n (a ++ b) = b)
    by (intros n a b <-; apply drop_app_length).
  assert (D4 : drop 4 p = be_bytes 4 seq ++ be_bytes 4 (m_rcv_nxt t) ++ [mkbyte 0; mkbyte flags] ++
    be_bytes 2 (u16 (m_rcv_wnd t)) ++ be_bytes 4 now ++ be_bytes 4 (m_ts_recent t) ++ data)
    by (apply D; apply length_be_bytes).
  assert (D8 : drop 8 p = be_bytes 4 (m_rcv_nxt t) ++ [mkbyte 0; mkbyte flags] ++
    be_bytes 2 (u16 (m_rcv_wnd t)) ++ be_bytes 4 now ++ be_bytes 4 (m_ts_recent t) ++ data)
    by (change 8%nat with (4 + 4)%nat; rewrite <- drop_drop, D4; apply D, length_be_bytes).
  assert (D12 : drop 12 p = [mkbyte 0; mkbyte flags] ++
    be_bytes 2 (u16 (m_rcv_wnd t)) ++ be_bytes 4 now ++ be_bytes 4 (m_ts_recent t) ++ data)
    by (change 12%nat with (8 + 4)%nat; rewrite <- drop_drop, D8; apply D, length_be_bytes).
  assert (D14 : drop 14 p =
    be_bytes 2 (u16 (m_rcv_wnd t)) ++ be_bytes 4 now ++ be_bytes 4 (m_ts_recent t) ++ data)
    by (change 14%nat with (12 + 2)%nat; rewrite <- drop_drop, D12; done).
  assert (D16 : drop 16 p = be_bytes 4 now ++ be_bytes 4 (m_ts_recent t) ++ data)
    by (change 16%nat with (14 + 2)%nat; rewrite <- drop_drop, D14; apply D, length_be_bytes).
  assert (D20 : drop 20 p = be_bytes 4 (m_ts_recent t) ++ data)
    by (change 20%nat with (16 + 4)%nat; rewrite <- drop_drop, D16; apply D, length_be_bytes).
  assert (D24 : drop 24 p = data)
    by (change 24%nat with (20 + 4)%nat; rewrite <- drop_drop, D20; apply D, length_be_bytes).
  assert (N13 : nth 13 p Byte.x00 = mkbyte flags).
  { rewrite <- (take_drop 12 p), D12. rewrite app_nth2 by (rewrite length_take; lia).
    rewrite length_take, Nat.min_l; [done|]. unfold p. rewrite !length_app, !length_be_bytes. lia. }
  rewrite D4, D8, D14, D16, D20, D24, N13. unfold p.
  rewrite !bytes_to_long_app, bytes_to_short_app, unsigned_mkbyte, u16_idemp.
  rewrite !u32_small, u8_small by done. done.
Qed.
End Wire.
