(* ===== verification/TcpSend.v ===== *)
(** * The sending side of PseudoTcp

    The send queue against the stream of bytes the application handed over:
    [send_inv s P sent unsent t] says that the queue of [t] is the stream [s]
    from its absolute position [P] on, cut into the consecutive segments
    [sent ++ unsent].  Every operation of the sending side keeps it, raises no
    fault, and writes only packets whose data are the bytes of the stream at
    the sequence number they carry ([ev_ok]). *)

From S2P Require Import Prelude TimeUtil ByteOrder PseudoTcp TcpLogic.
#[local] Open Scope jingle_scope.
Import Tcp.

(** ** Invariants *)

Fixpoint seg_sum (l : list SSegment) : Z :=
  match l with [] => 0 | s :: l => s_len s + seg_sum l end.

(** Consecutive segments from stream position [pos] on; the segment at position
    0 is the one-byte control segment and the only one. *)
Fixpoint chain (pos : Z) (l : list SSegment) : Prop :=
  match l with
  | [] => True
  | s :: l =>
      s_seq s = u32 pos /\ 0 <= s_len s /\ 0 <= s_xmit s <= 30 /\
      s_ctrl s = (pos =? 0) /\ (s_ctrl s = true -> s_len s = 1) /\
      chain (pos + s_len s) l
  end.

Record send_inv (s : bytes) (P : Z) (sent unsent : list SSegment) (t : TCB) : Prop := {
  si_slist : m_slist t = sent ++ unsent;
  si_sent : Forall (fun x => 1 <= s_len x /\ 0 < s_xmit x) sent;
  si_unsent : Forall (fun x => s_xmit x = 0) unsent;
  si_nonempty : Forall (fun x => 1 <= s_len x) (removelast unsent);
  si_chain : chain P (m_slist t);
  si_sum : seg_sum (m_slist t) = m_slen t;
  si_pos : 0 <= P;
  si_end : P + m_slen t = Z.of_nat (length s);
  si_fits : m_slen t <= kSndBufSize;
  si_sbuf : length (m_sbuf t) = Z.to_nat kSndBufSize;
  si_bytes : take (Z.to_nat (m_slen t)) (m_sbuf t) = drop (Z.to_nat P) s;
  si_una : m_snd_una t = u32 P;
  si_nxt : m_snd_nxt t = u32 (P + seg_sum sent);
}.

(** The segment size and its level in the table. *)
Definition mss_inv (t : TCB) : Prop :=
  1 <= m_mss t <= 65419 /\ 0 <= m_msslevel t <= 9 /\ (m_msslevel t < 9 -> 180 <= m_mss t).

(** Only down: a transmission may lower the segment size, and then restarts the
    congestion window from it. *)
Definition mss_down (t t' : TCB) : Prop :=
  m_mss t' = m_mss t /\ m_cwnd t' = m_cwnd t \/
  m_mss t' <= m_mss t /\ m_cwnd t' = 2 * m_mss t'.

(** What the header of a packet takes from the block. *)
Definition head_inv (t : TCB) : Prop :=
  is_u32 (m_conv t) /\ is_u32 (m_rcv_nxt t) /\ is_u32 (m_ts_recent t).

(** A packet carries nothing, or bytes of the stream at their position. *)
Definition data_ok (s : bytes) (g : Segment) : Prop :=
  g_len g = 0 \/
  exists pos, 0 <= pos /\ g_seq g = u32 pos /\ 1 <= g_len g /\
    pos + g_len g <= Z.of_nat (length s) /\
    g_data g = sub (Z.to_nat pos) (Z.to_nat (g_len g)) s /\
    (pos = 0 /\ g_len g = 1 /\ g_flags g = FLAG_CTL \/ 1 <= pos /\ g_flags g = 0).

Section Ev.
Context `{Platform}.
Definition ev_ok (conv : Z) (s : bytes) (e : event) : Prop :=
  match e with
  | TcpWritePacket p =>
      HEADER_SIZE <= Z.of_nat (length p) <= MAX_PACKET /\
      g_conv (parse_segment p) = conv /\ data_ok s (parse_segment p)
  | _ => True
  end.
Definition evs_ok (conv : Z) (s : bytes) (w : World) : Prop := Forall (ev_ok conv s) (w_events w).

Lemma data_ok_app s s' g : data_ok s g -> data_ok (s ++ s') g.
Proof.
  intros [?|(pos & ? & ? & ? & Hl & Hd & ?)]; [by left|]. right. exists pos.
  rewrite length_app, Nat2Z.inj_add. split_and!; try done; try lia.
  rewrite Hd. unfold sub. rewrite drop_app_le by lia. rewrite take_app_le; [done|].
  rewrite length_drop. lia.
Qed.

Lemma evs_ok_app conv s s' w : evs_ok conv s w -> evs_ok conv (s ++ s') w.
Proof.
  unfold evs_ok. intros Hw. eapply Forall_impl; [exact Hw|].
  intros []; simpl; try done. intros (?&?&?). auto using data_ok_app.
Qed.

Lemma evs_ok_emit conv s w e : evs_ok conv s w -> ev_ok conv s e ->
  evs_ok conv s (mkWorld (w_ticks w) (w_writes w) (w_events w ++ [e])).
Proof. intros. apply Forall_app. split; [done|]. by apply Forall_singleton. Qed.
End Ev.

(** ** Sums and chains *)

Lemma seg_sum_app l1 l2 : seg_sum (l1 ++ l2) = seg_sum l1 + seg_sum l2.
Proof. induction l1 as [|x l1 IH]; simpl; [done|]. lia. Qed.

Lemma chain_app pos l1 l2 :
  chain pos (l1 ++ l2) <-> chain pos l1 /\ chain (pos + seg_sum l1) l2.
Proof.
  revert pos. induction l1 as [|x l1 IH]; intros pos; simpl.
  - rewrite Z.add_0_r. tauto.
  - rewrite IH, Z.add_assoc. tauto.
Qed.

Lemma chain_sum_nonneg pos l : chain pos l -> 0 <= seg_sum l.
Proof.
  revert pos. induction l as [|x l IH]; intros pos; simpl; [lia|].
  intros (?&?&?&?&?&Hc). apply IH in Hc. lia.
Qed.

Lemma seg_sum_take_nonneg pos l k : chain pos l -> 0 <= seg_sum (take k l) <= seg_sum l.
Proof.
  intros Hc. rewrite <- (take_drop k l) in Hc at 1. apply chain_app in Hc as [H1 H2].
  apply chain_sum_nonneg in H1, H2. rewrite <- (take_drop k l) at 3. rewrite seg_sum_app. lia.
Qed.

(** ** Frames: the fields an operation may change *)

Definition tx_upd (t : TCB) (lastack tack lastsend lasttraffic : Z) (outgoing : bool)
    (level mss cwnd : Z) : TCB :=
  t <| m_ts_lastack := lastack |> <| m_t_ack := tack |> <| m_lastsend := lastsend |>
    <| m_lasttraffic := lasttraffic |> <| m_bOutgoing := outgoing |>
    <| m_msslevel := level |> <| m_mss := mss |> <| m_cwnd := cwnd |>.
Definition tx_frame (t t' : TCB) : Prop :=
  exists a b c d e l m cw, t' = tx_upd t a b c d e l m cw.

Lemma tx_frame_refl t : tx_frame t t.
Proof.
  exists (m_ts_lastack t), (m_t_ack t), (m_lastsend t), (m_lasttraffic t), (m_bOutgoing t),
    (m_msslevel t), (m_mss t), (m_cwnd t). by destruct t.
Qed.
Lemma tx_frame_trans t1 t2 t3 : tx_frame t1 t2 -> tx_frame t2 t3 -> tx_frame t1 t3.
Proof.
  intros (a&b&c&d&e&l&m&cw&->) (a'&b'&c'&d'&e'&l'&m'&cw'&->).
  exists a', b', c', d', e', l', m', cw'. reflexivity.
Qed.

(** Sending also moves segments and [m_snd_nxt] and starts the timer. *)
Definition snd_frame (t t' : TCB) : Prop :=
  exists t1 sl nx rto, tx_frame t t1 /\
    t' = t1 <| m_slist := sl |> <| m_snd_nxt := nx |> <| m_rto_base := rto |>.

Lemma tx_snd_frame t t' : tx_frame t t' -> snd_frame t t'.
Proof.
  intros Hf. exists t', (m_slist t'), (m_snd_nxt t'), (m_rto_base t'). split; [done|]. by destruct t'.
Qed.
Lemma snd_frame_refl t : snd_frame t t.
Proof. apply tx_snd_frame, tx_frame_refl. Qed.
Lemma snd_frame_trans t1 t2 t3 : snd_frame t1 t2 -> snd_frame t2 t3 -> snd_frame t1 t3.
Proof.
  intros (x & s1 & n1 & r1 & (a&b&c&d&e&l&m&cw&->) & ->)
    (y & s2 & n2 & r2 & (a'&b'&c'&d'&e'&l'&m'&cw'&->) & ->).
  exists (tx_upd t1 a' b' c' d' e' l' m' cw'), s2, n2, r2. split; [|reflexivity].
  by exists a', b', c', d', e', l', m', cw'.
Qed.

Lemma send_inv_tx s P sent unsent t t' :
  send_inv s P sent unsent t -> tx_frame t t' -> send_inv s P sent unsent t'.
Proof. intros [] (a&b&c&d&e&l&m&cw&->). split; done. Qed.
Lemma head_inv_tx t t' : head_inv t -> tx_frame t t' -> head_inv t'.
Proof. intros Hh (a&b&c&d&e&l&m&cw&->). done. Qed.

(** Writing a packet leaves the sizes alone. *)
Definition pk_frame (t t' : TCB) : Prop :=
  exists a b c d e, t' = tx_upd t a b c d e (m_msslevel t) (m_mss t) (m_cwnd t).
Lemma pk_tx_frame t t' : pk_frame t t' -> tx_frame t t'.
Proof. intros (a&b&c&d&e&->). by repeat eexists. Qed.
Lemma pk_frame_sizes t t' : pk_frame t t' ->
  m_mss t' = m_mss t /\ m_msslevel t' = m_msslevel t /\ m_cwnd t' = m_cwnd t /\ tx_frame t t'.
Proof. intros Hf. split_and!; [..|by apply pk_tx_frame]; destruct Hf as (a&b&c&d&e&->); done. Qed.

Section Ops.
Context `{Platform}.
Variable clock : nat -> Z.
Variable network : nat -> WriteResult.

(** ** Writing packets *)

Lemma packet_spec s t w seq flags data len :
  head_inv t -> is_u32 seq -> is_u8 flags -> 0 <= len <= 65511 ->
  len <= Z.of_nat (length (default [] data)) ->
  (forall g, g_seq g = seq -> g_flags g = flags -> g_len g = len ->
     g_data g = take (Z.to_nat len) (default [] data) -> data_ok s g) ->
  evs_ok (m_conv t) s w ->
  wp (packet clock network seq flags data len)
    (fun r t' w' => pk_frame t t' /\ evs_ok (m_conv t) s w' /\ (data = None -> r = WR_SUCCESS)) t w.
Proof.
  intros (Hconv & Hrcv & Hts) Hseq Hfl Hlen Hbuf Hdata Hev. unfold packet.
  wp_step. apply wp_assert.
  { apply Z.leb_le. unfold HEADER_SIZE, MAX_PACKET. rewrite u32_small; unfold is_u32; lia. }
  wp_steps. apply wp_in_bounds; [by apply Z.leb_le|].
  set (now := u32 (clock (w_ticks w))). set (p := build_packet _ _ _ _ _).
  assert (Hp : parse_segment p = mkSegment (m_conv t) seq (m_rcv_nxt t) flags (u16 (m_rcv_wnd t))
    (take (Z.to_nat len) (default [] data)) len now (m_ts_recent t)).
  { unfold p. rewrite parse_build_packet; try done; try apply u32_range.
    - f_equal. rewrite length_take. lia.
    - rewrite length_take. lia. }
  assert (Hlp : length p = (24 + Z.to_nat len)%nat).
  { unfold p. rewrite length_build_packet, length_take. lia. }
  wp_step. apply wp_write. intros wres. cbn [w_ticks w_writes w_events].
  assert (Hev' : forall k, evs_ok (m_conv t) s (mkWorld k (S (w_writes w)) (w_events w ++ [TcpWritePacket p]))).
  { intros k. apply Forall_app. split; [done|]. apply Forall_singleton. split; [|split].
    - unfold HEADER_SIZE, MAX_PACKET. rewrite Hlp. lia.
    - by rewrite Hp.
    - rewrite Hp. apply Hdata; done. }
  assert (Hsucc : pk_frame t
    (t <| m_ts_lastack := m_rcv_nxt t |> <| m_t_ack := 0 |>
       <| m_lastsend := if 0 <? len then now else m_lastsend (t <| m_ts_lastack := m_rcv_nxt t |>) |>
       <| m_lasttraffic := now |> <| m_bOutgoing := true |>)).
  { unfold pk_frame. exists (m_rcv_nxt t), 0, (if 0 <? len then now else m_lastsend t), now, true.
    by destruct t. }
  assert (Hfail : pk_frame t (t <| m_ts_lastack := m_rcv_nxt t |>)).
  { unfold pk_frame. exists (m_rcv_nxt t), (m_t_ack t), (m_lastsend t), (m_lasttraffic t), (m_bOutgoing t).
    by destruct t. }
  destruct data as [buf|]; [destruct wres|]; wp_steps.
  - split; [exact Hsucc|]. split; [apply Hev'|done].
  - split; [exact Hfail|]. split; [apply Hev'|done].
  - split; [exact Hfail|]. split; [apply Hev'|done].
  - destruct wres; wp_steps; (split; [exact Hsucc|]); (split; [apply Hev'|done]).
Qed.

(** A pure acknowledgement. *)
Lemma packet_ack_spec s t w seq :
  head_inv t -> is_u32 seq -> evs_ok (m_conv t) s w ->
  wp (packet clock network seq 0 None 0)
    (fun _ t' w' => pk_frame t t' /\ evs_ok (m_conv t) s w') t w.
Proof.
  intros Hh Hs Hev. eapply wp_mono.
  - apply (packet_spec s); try done. intros g _ _ Hl _. by left.
  - simpl. tauto.
Qed.

(** ** The segment size table *)

Lemma packet_maximum_lookup k : 0 <= k <= 9 ->
  exists size, PACKET_MAXIMUMS !! Z.to_nat (k + 1) = Some size /\
    (size = 0 /\ k = 9 \/ k <= 8 /\ 296 <= size <= 32000 /\ (k = 8 -> size = 296)).
Proof.
  intros Hk.
  assert (k = 0 \/ k = 1 \/ k = 2 \/ k = 3 \/ k = 4 \/ k = 5 \/ k = 6 \/ k = 7 \/ k = 8 \/ k = 9) as Hc by lia.
  repeat destruct Hc as [->|Hc]; [..|subst k];
    (eexists; split; [reflexivity|]);
    first [right; split_and!; lia | left; split; reflexivity].
Qed.

Lemma shrink_mss_spec fuel n : forall t w,
  0 <= m_msslevel t <= 9 -> 9 - m_msslevel t < Z.of_nat fuel ->
  wp (shrink_mss fuel n)
    (fun r t' w' => w' = w /\ tx_frame t t' /\ m_msslevel t <= m_msslevel t' <= 9 /\
       match r with
       | Some n' => n' = m_mss t' /\ n' < n /\ 180 <= m_mss t' <= 31884 /\
           m_msslevel t < m_msslevel t' /\ m_cwnd t' = 2 * m_mss t'
       | None => m_msslevel t = 9 /\ m_mss t' = m_mss t /\ m_cwnd t' = m_cwnd t \/
           m_msslevel t < 9 /\ m_mss t' = 180 /\ m_cwnd t' = 360
       end) t w.
Proof.
  induction fuel as [|fuel IH]; intros t w Hl Hf; [lia|].
  cbn [shrink_mss]. wp_steps.
  destruct (packet_maximum_lookup (m_msslevel t) Hl) as (size & -> & Hsize).
  destruct (Z.eqb_spec size 0) as [|Hnz].
  - wp_steps. split; [done|]. split; [apply tx_frame_refl|]. split; [lia|]. left. lia.
  - destruct Hsize as [[? _]|(Hl8 & Hs & H8)]; [done|]. cbv zeta.
    assert (Hmss : size -u PACKET_OVERHEAD = size - 116)
      by (apply u32_small; unfold is_u32; change PACKET_OVERHEAD with 116; lia).
    assert (Hcw : 2 *u (size - 116) = 2 * (size - 116)) by (apply u32_small; unfold is_u32; lia).
    rewrite Hmss, Hcw. wp_steps. set (t1 := update_field m_cwnd _ _).
    assert (Hf1 : tx_frame t t1).
    { exists (m_ts_lastack t), (m_t_ack t), (m_lastsend t), (m_lasttraffic t), (m_bOutgoing t),
        (m_msslevel t + 1), (size - 116), (2 * (size - 116)). by destruct t. }
    assert (Ht1 : m_msslevel t1 = m_msslevel t + 1 /\ m_mss t1 = size - 116 /\
                  m_cwnd t1 = 2 * (size - 116)) by done.
    clearbody t1. destruct Ht1 as (L1 & M1 & C1).
    destruct (Z.ltb_spec (size - 116) n).
    + wp_steps. split; [done|]. split; [done|]. split; [lia|]. rewrite M1, C1. split; [done|]. lia.
    + eapply wp_mono; [apply (IH t1 w); lia|]. cbv beta.
      intros r t' w' (-> & Hf2 & Hl2 & Hr).
      split; [done|]. split; [exact (tx_frame_trans _ _ _ Hf1 Hf2)|]. split; [lia|].
      destruct r as [n'|]; [|lia]. destruct Hr as (?&?&?&?&?). split_and!; try done; lia.
Qed.

(** ** Transmitting a segment *)

(** The bytes of a queued segment are those of the stream. *)
Lemma sbuf_bytes s P sent unsent t pos n :
  send_inv s P sent unsent t -> P <= pos -> 0 <= n -> pos + n <= P + m_slen t ->
  take (Z.to_nat n) (drop (Z.to_nat (u32 pos -u m_snd_una t)) (m_sbuf t)) =
    sub (Z.to_nat pos) (Z.to_nat n) s.
Proof.
  intros HI Hp Hn Hend. pose proof (si_fits _ _ _ _ _ HI) as Hfit. unfold kSndBufSize in Hfit.
  pose proof (si_pos _ _ _ _ _ HI).
  assert (E : u32 pos -u m_snd_una t = pos - P).
  { rewrite (si_una _ _ _ _ _ HI). word_lia. }
  rewrite E. change (sub (Z.to_nat (pos - P)) (Z.to_nat n) (m_sbuf t) = sub (Z.to_nat pos) (Z.to_nat n) s).
  rewrite <- (sub_take _ _ _ (Z.to_nat (m_slen t))) by lia.
  rewrite (si_bytes _ _ _ _ _ HI). unfold sub. rewrite drop_drop. do 2 f_equal. lia.
Qed.

Lemma transmit_loop_spec s P sent unsent fuel seg pos : forall n t w,
  send_inv s P sent unsent t -> head_inv t -> mss_inv t -> evs_ok (m_conv t) s w ->
  s_seq seg = u32 pos -> s_ctrl seg = (pos =? 0) -> (s_ctrl seg = true -> s_len seg = 1) ->
  P <= pos -> 1 <= n <= s_len seg -> n <= m_mss t -> pos + s_len seg <= P + m_slen t ->
  9 - m_msslevel t < Z.of_nat fuel ->
  wp (transmit_loop clock network fuel seg n)
    (fun r t' w' => tx_frame t t' /\ mss_inv t' /\ mss_down t t' /\ evs_ok (m_conv t) s w' /\
       match r with Some n' => 1 <= n' <= n | None => True end) t w.
Proof.
  induction fuel as [|fuel IH]; intros n t w HI Hh Hm Hev Hseq Hctl Hlen1 HP Hn Hnm Hend Hf.
  { destruct Hm as (_ & ? & _). lia. }
  pose proof Hm as ((Hm1 & Hm2) & Hl & Hl9).
  pose proof (si_fits _ _ _ _ _ HI) as Hfit. unfold kSndBufSize in Hfit.
  pose proof (si_pos _ _ _ _ _ HI) as HP0.
  cbn [transmit_loop]. wp_steps. rewrite Hseq.
  set (buffer := drop _ (m_sbuf t)).
  assert (Hbytes : take (Z.to_nat n) buffer = sub (Z.to_nat pos) (Z.to_nat n) s)
    by (apply (sbuf_bytes s P sent unsent); [done|lia..]).
  assert (Hblen : n <= Z.of_nat (length buffer)).
  { apply (f_equal length) in Hbytes. rewrite length_take in Hbytes.
    pose proof (si_end _ _ _ _ _ HI). unfold sub in Hbytes.
    rewrite length_take, length_drop in Hbytes. lia. }
  eapply wp_mono; [apply (packet_spec s)|].
  - done.
  - apply u32_range.
  - destruct (s_ctrl seg); done.
  - lia.
  - done.
  - intros g Gs Gf Gl Gd. right. exists pos. rewrite Gs, Gf, Gl, Gd. simpl. rewrite Hbytes.
    pose proof (si_end _ _ _ _ _ HI). split_and!; try done; try lia.
    rewrite Hctl in *. destruct (Z.eqb_spec pos 0); [left|right]; split_and!; try done; try lia.
  - done.
  - cbv beta. intros wres t1 w1 (Hf1 & Hev1 & _).
    destruct (pk_frame_sizes _ _ Hf1) as (M1 & L1 & C1 & Htx).
    assert (Hm' : mss_inv t1) by (unfold mss_inv; by rewrite M1, L1).
    assert (Hd1 : mss_down t t1) by (by left).
    destruct wres.
    + wp_steps. split_and!; try done; lia.
    + wp_step. eapply wp_mono; [apply shrink_mss_spec; [lia|unfold mss_fuel; lia]|].
      cbv beta. intros r t2 w2 (-> & Hf2 & Hl2 & Hr).
      pose proof (tx_frame_trans _ _ _ Htx Hf2) as Hf02.
      destruct r as [n'|].
      * destruct Hr as (-> & Hlt & Hm3 & Hl3 & Hc3).
        assert (Hconv : m_conv t2 = m_conv t) by (destruct Hf02 as (?&?&?&?&?&?&?&?&->); done).
        assert (Hslen : m_slen t2 = m_slen t) by (destruct Hf02 as (?&?&?&?&?&?&?&?&->); done).
        eapply wp_mono.
        -- apply (IH (m_mss t2)); try done.
           ++ by eapply send_inv_tx.
           ++ by eapply head_inv_tx.
           ++ split_and!; lia.
           ++ by rewrite Hconv.
           ++ lia.
           ++ lia.
           ++ lia.
        -- cbv beta. rewrite Hconv. intros r t3 w3 (Hf3 & Hm4 & Hd3 & Hev3 & Hr).
           split; [by eapply tx_frame_trans|]. split; [done|]. split; [|split; [done|]].
           ++ right. destruct Hd3 as [[? ?]|[? ?]]; lia.
           ++ destruct r; lia.
      * wp_steps. split; [done|]. split; [|split; [|done]].
        -- destruct Hr as [(?&E&_)|(?&E&_)]; unfold mss_inv; rewrite E; lia.
        -- unfold mss_down. destruct Hr as [(?&E&->)|(?&E&->)]; rewrite E; lia.
    + wp_steps. split_and!; done.
Qed.

Lemma transmit_spec s P sent unsent pre seg post t w now :
  send_inv s P sent unsent t -> head_inv t -> mss_inv t -> evs_ok (m_conv t) s w ->
  m_slist t = pre ++ seg :: post -> 1 <= s_len seg ->
  wp (transmit clock network (length pre) now)
    (fun ok t' w' => exists t1 n, tx_frame t t1 /\ mss_inv t1 /\ mss_down t t1 /\
       evs_ok (m_conv t) s w' /\
       if ok then 1 <= n <= s_len seg /\ s_xmit seg < 30 /\ t' = transmit_done (length pre) seg n now t1
       else t' = t1) t w.
Proof.
  intros HI Hh Hm Hev Hl Hlen. unfold transmit. wp_steps.
  rewrite Hl, list_lookup_middle by done.
  destruct (Z.leb_spec (if decide (m_state t = TCP_ESTABLISHED) then 15 else 30) (s_xmit seg)).
  { wp_steps. exists t, 0. split_and!; try done; [apply tx_frame_refl|by left]. }
  pose proof (si_chain _ _ _ _ _ HI) as Hc. rewrite Hl in Hc.
  pose proof (si_sum _ _ _ _ _ HI) as Hs. rewrite Hl, seg_sum_app in Hs. simpl in Hs.
  apply chain_app in Hc as (Hc1 & Hseq & _ & Hx & Hctl & Hc1l & Hc2).
  apply chain_sum_nonneg in Hc1 as Hp. apply chain_sum_nonneg in Hc2 as Hp2.
  pose proof Hm as ((Hm1 & Hm2) & Hml & _).
  wp_step. eapply wp_mono.
  - apply (transmit_loop_spec s P sent unsent _ seg (P + seg_sum pre)); try done; try lia.
    unfold mss_fuel. lia.
  - cbv beta. intros r t1 w1 (Hf1 & Hm' & Hd1 & Hev1 & Hr). destruct r as [n|].
    + wp_steps. exists t1, n. split_and!; try done; try lia. destruct (decide _); lia.
    + wp_steps. exists t1, 0. done.
Qed.

(** Cutting a segment after [n] bytes keeps the chain. *)
Definition cut (seg : SSegment) (n x : Z) : list SSegment :=
  seg <| s_len := if n <? s_len seg then n else s_len seg |> <| s_xmit := x |> ::
  (if n <? s_len seg
   then [mkSSegment (s_seq seg +u n) (s_len seg -u n) (s_xmit seg) (s_ctrl seg)] else []).

Lemma cut_chain pos pre seg post n x :
  0 <= pos -> s_len seg < 4294967296 -> chain pos (pre ++ seg :: post) -> 1 <= n <= s_len seg ->
  0 <= x <= 30 ->
  chain pos (pre ++ cut seg n x ++ post) /\ seg_sum (cut seg n x) = s_len seg.
Proof.
  intros Hpos Hbig Hc Hn Hx. rewrite chain_app in Hc. destruct Hc as (H1 & Hs & Hl & Hxm & Hct & Hc1 & Hc).
  apply chain_sum_nonneg in H1 as Hp. set (q := pos + seg_sum pre) in *.
  rewrite chain_app. fold q. unfold cut. destruct (Z.ltb_spec n (s_len seg)); simpl.
  - assert (s_ctrl seg = false) as Hf by (destruct (s_ctrl seg); [specialize (Hc1 eq_refl); lia|done]).
    rewrite Hf in *.
    assert (E1 : s_seq seg +u n = u32 (q + n)) by (rewrite Hs; word_lia).
    assert (E2 : s_len seg -u n = s_len seg - n) by (apply u32_small; unfold is_u32; lia).
    rewrite E1, E2. symmetry in Hct. apply Z.eqb_neq in Hct.
    assert ((q + n =? 0) = false) as -> by (apply Z.eqb_neq; unfold q in *; lia).
    assert ((q =? 0) = false) as -> by (by apply Z.eqb_neq).
    replace (q + n + (s_len seg - n)) with (q + s_len seg) by lia.
    split_and!; try done; lia.
  - split_and!; try done; lia.
Qed.

Lemma transmit_done_slist pre seg post n now t :
  m_slist t = pre ++ seg :: post ->
  m_slist (transmit_done (length pre) seg n now t) = pre ++ cut seg n (u8 (s_xmit seg + 1)) ++ post.
Proof.
  intros Hl. unfold transmit_done, cut. cbn [m_slist update_field]. rewrite Hl.
  rewrite take_app_length. simpl.
  replace (drop (S (length pre)) (pre ++ seg :: post)) with post.
  2: { rewrite <- Nat.add_1_r, <- drop_drop, drop_app_length. done. }
  destruct (n <? s_len seg); done.
Qed.

Lemma send_inv_seg_small s P sent unsent t pre seg post :
  send_inv s P sent unsent t -> m_slist t = pre ++ seg :: post -> s_len seg <= 92160.
Proof.
  intros HI Hl. pose proof (si_chain _ _ _ _ _ HI) as Hc. pose proof (si_sum _ _ _ _ _ HI) as Hs.
  pose proof (si_fits _ _ _ _ _ HI) as Hf. unfold kSndBufSize in Hf.
  rewrite Hl in *. rewrite seg_sum_app in Hs. simpl in Hs. apply chain_app in Hc as (H1 & _ & _ & _ & _ & _ & H2).
  apply chain_sum_nonneg in H1, H2. lia.
Qed.

Lemma transmit_done_fields i seg n now t :
  let t' := transmit_done i seg n now t in
  m_slen t' = m_slen t /\ m_sbuf t' = m_sbuf t /\ m_snd_una t' = m_snd_una t /\
  m_snd_nxt t' = (if s_xmit seg =? 0 then m_snd_nxt t +u (if n <? s_len seg then n else s_len seg)
                  else m_snd_nxt t).
Proof. done. Qed.

(** A segment sent for the first time moves to the sent part. *)
Lemma transmit_done_first s P sent seg post t n now :
  send_inv s P sent (seg :: post) t -> 1 <= n <= s_len seg -> s_xmit seg < 30 ->
  exists sent' unsent', send_inv s P sent' unsent' (transmit_done (length sent) seg n now t) /\
    seg_sum sent' = seg_sum sent + n /\ sent' <> [].
Proof.
  intros HI Hn Hx. pose proof (si_slist _ _ _ _ _ HI) as Hl.
  pose proof (si_unsent _ _ _ _ _ HI) as Hu. apply Forall_cons in Hu as [Hx0 Hu].
  pose proof (send_inv_seg_small _ _ _ _ _ _ _ _ HI Hl) as Hbig.
  pose proof (si_chain _ _ _ _ _ HI) as Hc. rewrite Hl in Hc.
  assert (Hxm : u8 (s_xmit seg + 1) = 1) by (rewrite Hx0; done).
  destruct (cut_chain P sent seg post n 1 (si_pos _ _ _ _ _ HI) ltac:(lia) Hc Hn ltac:(lia)) as [Hc' Hsum].
  pose proof (transmit_done_slist sent seg post n now t Hl) as Hl'. rewrite Hxm in Hl'.
  assert (exists seg1 rest, cut seg n 1 = seg1 :: rest /\ s_len seg1 = n /\ s_xmit seg1 = 1 /\
    Forall (fun x => s_xmit x = 0) rest /\ Forall (fun x => 1 <= s_len x) rest /\ (length rest <= 1)%nat)
    as (seg1 & rest & Hcut & L1 & X1 & Hr0 & Hr1 & Hrl).
  { unfold cut. do 2 eexists. split; [reflexivity|]. cbn [s_len s_xmit update_field].
    destruct (Z.ltb_spec n (s_len seg)); split_and!; try done; try lia; try constructor; try done.
    cbn [s_len]. rewrite u32_small by (unfold is_u32; lia). lia. }
  rewrite Hcut in *. cbn [app] in Hl'. destruct (transmit_done_fields (length sent) seg n now t)
    as (F1 & F2 & F3 & F4).
  exists (sent ++ [seg1]), (rest ++ post). split; [|split].
  - split.
    + rewrite Hl'. by rewrite <- app_assoc.
    + apply Forall_app. split; [apply HI|]. apply Forall_singleton. lia.
    + apply Forall_app. done.
    + pose proof (si_nonempty _ _ _ _ _ HI) as Hne. destruct post as [|y post].
      * rewrite app_nil_r. destruct rest as [|r [|? ?]]; simpl in *; try constructor; lia.
      * assert (removelast (rest ++ y :: post) = rest ++ removelast (y :: post)) as ->
          by (by apply removelast_app).
        apply Forall_app. split; [done|]. change (removelast (seg :: y :: post)) with
          (seg :: removelast (y :: post)) in Hne. by apply Forall_cons in Hne as [_ ?].
    + by rewrite Hl'.
    + rewrite Hl', F1, <- (si_sum _ _ _ _ _ HI), Hl, !seg_sum_app. simpl. simpl in Hsum.
      rewrite seg_sum_app. lia.
    + apply HI.
    + rewrite F1. apply HI.
    + rewrite F1. apply HI.
    + rewrite F2. apply HI.
    + rewrite F1, F2. apply HI.
    + rewrite F3. apply HI.
    + rewrite F4, Hx0, seg_sum_app, (si_nxt _ _ _ _ _ HI). simpl.
      replace (if n <? s_len seg then n else s_len seg) with n by (destruct (Z.ltb_spec n (s_len seg)); lia).
      rewrite L1. word_lia.
  - rewrite seg_sum_app. simpl. lia.
  - by destruct sent.
Qed.

(** A segment sent again stays in the sent part. *)
Lemma transmit_done_again s P seg sent unsent t n now :
  send_inv s P (seg :: sent) unsent t -> 1 <= n <= s_len seg -> s_xmit seg < 30 ->
  exists sent', send_inv s P sent' unsent (transmit_done 0 seg n now t) /\
    seg_sum sent' = seg_sum (seg :: sent) /\ sent' <> [].
Proof.
  intros HI Hn Hx. pose proof (si_slist _ _ _ _ _ HI) as Hl.
  pose proof (si_sent _ _ _ _ _ HI) as Hs. apply Forall_cons in Hs as [[_ Hx0] Hs].
  pose proof (send_inv_seg_small _ _ _ _ _ [] _ _ HI Hl) as Hbig.
  pose proof (si_chain _ _ _ _ _ HI) as Hc. rewrite Hl in Hc.
  assert (Hxm : u8 (s_xmit seg + 1) = s_xmit seg + 1) by (apply u8_small; unfold is_u8; lia).
  destruct (cut_chain P [] seg (sent ++ unsent) n (s_xmit seg + 1) (si_pos _ _ _ _ _ HI)
    ltac:(lia) Hc Hn ltac:(lia)) as [Hc' Hsum].
  pose proof (transmit_done_slist [] seg (sent ++ unsent) n now t Hl) as Hl'. rewrite Hxm in Hl'.
  cbn [app] in Hl', Hc'. cbn [length] in Hl'.
  destruct (transmit_done_fields 0 seg n now t) as (F1 & F2 & F3 & F4).
  assert (Hall : Forall (fun x => 1 <= s_len x /\ 0 < s_xmit x) (cut seg n (s_xmit seg + 1))).
  { unfold cut. destruct (Z.ltb_spec n (s_len seg)); repeat constructor; simpl; try lia.
    rewrite u32_small by (unfold is_u32; lia). lia. }
  exists (cut seg n (s_xmit seg + 1) ++ sent). split; [|split].
  - split.
    + rewrite Hl'. by rewrite app_assoc.
    + apply Forall_app. done.
    + apply HI.
    + apply HI.
    + by rewrite Hl'.
    + rewrite Hl', F1, <- (si_sum _ _ _ _ _ HI), Hl, seg_sum_app, Hsum. simpl. done.
    + apply HI.
    + rewrite F1. apply HI.
    + rewrite F1. apply HI.
    + rewrite F2. apply HI.
    + rewrite F1, F2. apply HI.
    + rewrite F3. apply HI.
    + rewrite F4. destruct (Z.eqb_spec (s_xmit seg) 0); [lia|].
      rewrite (si_nxt _ _ _ _ _ HI), seg_sum_app, Hsum. simpl. done.
  - rewrite seg_sum_app, Hsum. done.
  - done.
Qed.

(** The retransmission timer runs only while something is in flight. *)
Definition rto_ok (t : TCB) (sent : list SSegment) : Prop := m_rto_base t <> 0 -> sent <> [].
Definition cwnd_ok (t : TCB) : Prop := is_u32 (m_cwnd t).

Lemma mss_down_cwnd t t' : mss_down t t' -> mss_inv t' -> cwnd_ok t -> cwnd_ok t'.
Proof. unfold cwnd_ok. intros [[_ ->]|[_ ->]] ((?&?)&_) ?; unfold is_u32 in *; lia. Qed.

(** What a step of the sending side leaves: the queue still is the stream, only
    the sending fields changed, nothing unsent was lost. *)
Record snd_post (s : bytes) (P : Z) (sent : list SSegment) (t t' : TCB)
    (sent' unsent' : list SSegment) : Prop := {
  sp_inv : send_inv s P sent' unsent' t';
  sp_frame : snd_frame t t';
  sp_mss : mss_inv t';
  sp_down : m_mss t' <= m_mss t;
  sp_cwnd : cwnd_ok t -> cwnd_ok t';
  sp_sum : seg_sum sent <= seg_sum sent';
  sp_rto : rto_ok t sent -> rto_ok t' sent';
}.

Lemma snd_post_refl s P sent unsent t :
  send_inv s P sent unsent t -> mss_inv t -> snd_post s P sent t t sent unsent.
Proof. intros. split; try done; try lia. apply snd_frame_refl. Qed.

Lemma snd_post_trans s P sent t1 t2 sent2 unsent2 t3 sent3 unsent3 :
  snd_post s P sent t1 t2 sent2 unsent2 -> snd_post s P sent2 t2 t3 sent3 unsent3 ->
  snd_post s P sent t1 t3 sent3 unsent3.
Proof.
  intros [] []. split; try done; try lia; auto. by eapply snd_frame_trans.
Qed.

Lemma mss_down_le t t' : mss_down t t' -> m_mss t' <= m_mss t.
Proof. intros [[-> _]|[? _]]; lia. Qed.

Lemma snd_post_tx s P sent unsent t t' :
  send_inv s P sent unsent t -> tx_frame t t' -> mss_inv t' -> mss_down t t' ->
  snd_post s P sent t t' sent unsent.
Proof.
  intros HI Hf Hm Hd. split; try done; try lia.
  - by eapply send_inv_tx.
  - by apply tx_snd_frame.
  - by apply mss_down_le.
  - intros. by eapply mss_down_cwnd.
  - unfold rto_ok. destruct Hf as (a&b&c&d&e&l&m&cw&->). done.
Qed.

Lemma transmit_done_frame i seg n now t t1 :
  tx_frame t t1 -> snd_frame t (transmit_done i seg n now t1).
Proof. intros Hf. eexists t1, _, _, _. split; [exact Hf|reflexivity]. Qed.

(** Sending the front segment again. *)
Lemma retransmit_spec s P sent unsent t w now :
  send_inv s P sent unsent t -> head_inv t -> mss_inv t -> evs_ok (m_conv t) s w -> sent <> [] ->
  wp (transmit clock network 0 now)
    (fun ok t' w' => exists sent', snd_post s P sent t t' sent' unsent /\
       evs_ok (m_conv t) s w' /\ seg_sum sent' = seg_sum sent /\ sent' <> [] /\ mss_down t t') t w.
Proof.
  intros HI Hh Hm Hev Hne. destruct sent as [|seg sent]; [done|].
  pose proof (si_sent _ _ _ _ _ HI) as Hs. apply Forall_cons in Hs as [[Hl1 _] _].
  eapply wp_mono.
  - apply (transmit_spec s P (seg :: sent) unsent [] seg (sent ++ unsent)); try done.
    apply (si_slist _ _ _ _ _ HI).
  - cbv beta. intros ok t' w' (t1 & n & Hf & Hm1 & Hd & Hev' & Hok).
    pose proof (send_inv_tx _ _ _ _ _ _ HI Hf) as HI1. destruct ok.
    + destruct Hok as (Hn & Hx & ->). cbn [length].
      destruct (transmit_done_again s P seg sent unsent t1 n now HI1 Hn Hx) as (sent' & HI' & Hsum & Hne').
      exists sent'. split; [|done]. split.
      * exact HI'.
      * by apply (transmit_done_frame 0 seg n now).
      * exact Hm1.
      * exact (mss_down_le t t1 Hd).
      * exact (mss_down_cwnd t t1 Hd Hm1).
      * rewrite Hsum. lia.
      * intros _ _. exact Hne'.
    + subst t'. exists (seg :: sent). split; [by apply (snd_post_tx _ _ _ _ t t1)|]. done.
Qed.

(** ** Sending new data *)

Lemma inflight s P sent unsent t : send_inv s P sent unsent t ->
  m_snd_nxt t -u m_snd_una t = seg_sum sent /\ 0 <= seg_sum sent <= m_slen t /\ m_slen t <= 92160.
Proof.
  intros HI. pose proof (si_fits _ _ _ _ _ HI) as Hf. unfold kSndBufSize in Hf.
  pose proof (si_chain _ _ _ _ _ HI) as Hc. pose proof (si_sum _ _ _ _ _ HI) as Hs.
  rewrite (si_slist _ _ _ _ _ HI) in *. rewrite seg_sum_app in Hs.
  apply chain_app in Hc as [H1 H2]. apply chain_sum_nonneg in H1, H2.
  rewrite (si_nxt _ _ _ _ _ HI), (si_una _ _ _ _ _ HI). split; [word_lia|lia].
Qed.

(** What may be sent fits the data, the segment size and both windows. *)
Lemma nAvailable_bounds t inflight :
  m_snd_nxt t -u m_snd_una t = inflight -> 0 <= inflight <= m_slen t -> m_slen t <= 92160 ->
  1 <= m_mss t <= 65419 -> 0 <= m_snd_wnd t <= 65535 -> 0 <= m_cwnd t ->
  0 <= nAvailable t <= m_slen t - inflight /\ nAvailable t <= m_mss t /\
  (nAvailable t = 0 \/ inflight + nAvailable t <= m_snd_wnd t).
Proof.
  intros E Hi Hs Hm Hw Hc. unfold nAvailable. rewrite E.
  set (cwnd := if (m_dup_acks t =? 1) || (m_dup_acks t =? 2) then _ else _).
  assert (0 <= cwnd) by (unfold cwnd; destruct (_ || _); [apply u32_range|done]).
  set (nWindow := Z.min (m_snd_wnd t) cwnd).
  assert (0 <= nWindow <= m_snd_wnd t) by (unfold nWindow; lia).
  clearbody nWindow.
  set (nUseable := if inflight <? nWindow then nWindow -u inflight else 0).
  assert (HU : 0 <= nUseable /\ (nUseable = 0 \/ inflight + nUseable <= nWindow)).
  { unfold nUseable. destruct (Z.ltb_spec inflight nWindow); [|lia].
    rewrite u32_small by (unfold is_u32; lia). lia. }
  clearbody nUseable.
  rewrite (u32_small (m_slen t - inflight)) by (unfold is_u32; lia).
  destruct (Z.ltb_spec nUseable (Z.min (m_slen t - inflight) (m_mss t)));
    [destruct (_ <? nWindow)|]; lia.
Qed.

Lemma first_unsent_app sent unsent :
  Forall (fun x => 1 <= s_len x /\ 0 < s_xmit x) sent -> Forall (fun x => s_xmit x = 0) unsent ->
  unsent <> [] -> first_unsent (sent ++ unsent) = Some (length sent).
Proof.
  intros Hs Hu Hne. induction Hs as [|x l [_ Hx] _ IH]; simpl.
  - destruct unsent as [|y u]; [done|]. apply Forall_cons in Hu as [Hy _]. simpl. by rewrite Hy.
  - destruct (Z.ltb_spec 0 (s_xmit x)); [|lia]. by rewrite IH.
Qed.

(** Breaking the first unsent segment. *)
Lemma break_segment_inv s P sent seg post t n :
  send_inv s P sent (seg :: post) t -> 1 <= n -> 1 <= s_len seg ->
  exists seg' post', send_inv s P sent (seg' :: post')
    (t <| m_slist := break_segment (length sent) n (m_slist t) |>) /\
    1 <= s_len seg' <= n.
Proof.
  intros HI Hn Hl1. pose proof (si_slist _ _ _ _ _ HI) as Hl.
  pose proof (si_unsent _ _ _ _ _ HI) as Hu. apply Forall_cons in Hu as [Hx0 Hu].
  pose proof (send_inv_seg_small _ _ _ _ _ _ _ _ HI Hl) as Hbig.
  pose proof (si_chain _ _ _ _ _ HI) as Hc. rewrite Hl in Hc.
  unfold break_segment. rewrite Hl, list_lookup_middle by done.
  destruct (Z.ltb_spec n (s_len seg)) as [Hlt|].
  2: { exists seg, post. split; [|lia]. rewrite <- Hl. destruct HI; split; done. }
  destruct (cut_chain P sent seg post n 0 (si_pos _ _ _ _ _ HI) ltac:(lia) Hc ltac:(lia) ltac:(lia))
    as [Hc' Hsum].
  set (a := seg <| s_len := n |>).
  set (b := mkSSegment (s_seq seg +u n) (s_len seg -u n) 0 (s_ctrl seg)).
  assert (Hcut : cut seg n 0 = [a; b]).
  { unfold cut, a, b. destruct (Z.ltb_spec n (s_len seg)); [|lia]. rewrite <- Hx0. by destruct seg. }
  assert (Ha : s_len a = n /\ s_xmit a = 0) by done.
  assert (Hb : 1 <= s_len b /\ s_xmit b = 0)
    by (unfold b; simpl; rewrite u32_small by (unfold is_u32; lia); lia).
  clearbody a b. destruct Ha as [La Xa], Hb as [Lb Xb].
  rewrite take_app_length, <- Nat.add_1_r, <- drop_drop, drop_app_length.
  rewrite Hcut in Hc', Hsum. change (drop 1 (seg :: post)) with post. cbn [app] in *.
  exists a, (b :: post). split; [|lia].
  destruct HI. split; cbn [m_slist m_slen m_sbuf m_snd_una m_snd_nxt update_field]; try done.
  - repeat constructor; done.
  - change (Forall (fun x => 1 <= s_len x) (a :: removelast (b :: post))).
    apply Forall_cons. split; [lia|]. destruct post as [|y post]; [constructor|].
    change (Forall (fun x => 1 <= s_len x) (b :: removelast (y :: post))).
    apply Forall_cons. split; [lia|].
    change (removelast (seg :: y :: post)) with (seg :: removelast (y :: post)) in si_nonempty0.
    by apply Forall_cons in si_nonempty0 as [_ ?].
  - rewrite Hl in si_sum0. rewrite <- si_sum0, !seg_sum_app. simpl. simpl in Hsum. lia.
Qed.

Lemma snd_frame_keep t t' : snd_frame t t' ->
  m_conv t' = m_conv t /\ m_snd_wnd t' = m_snd_wnd t /\ m_slen t' = m_slen t /\
  (head_inv t -> head_inv t').
Proof. intros (t1 & sl & nx & rto & (a&b&c&d&e&l&m&cw&->) & ->). done. Qed.

Definition wnd_ok (t : TCB) : Prop := 0 <= m_snd_wnd t <= 65535.

Lemma attemptSend_loop_spec s P fuel : forall sent unsent sflags now t w,
  send_inv s P sent unsent t -> head_inv t -> mss_inv t -> evs_ok (m_conv t) s w ->
  wnd_ok t -> cwnd_ok t -> m_slen t - seg_sum sent < Z.of_nat fuel ->
  wp (attemptSend_loop clock network fuel sflags now)
    (fun _ t' w' => exists sent' unsent', snd_post s P sent t t' sent' unsent' /\
       evs_ok (m_conv t) s w') t w.
Proof.
  induction fuel as [|fuel IH]; intros sent unsent sflags now t w HI Hh Hm Hev Hw Hc Hf.
  { destruct (inflight _ _ _ _ _ HI). lia. }
  destruct (inflight _ _ _ _ _ HI) as (Ei & Hi & Hs).
  pose proof Hm as (Hm1 & _).
  destruct (nAvailable_bounds t _ Ei Hi Hs Hm1 Hw ltac:(unfold cwnd_ok, is_u32 in Hc; lia)) as (Ha & Ham & _).
  assert (Hstop : forall w', evs_ok (m_conv t) s w' ->
    exists sent' unsent', snd_post s P sent t t sent' unsent' /\ evs_ok (m_conv t) s w').
  { intros w' Hw'. exists sent, unsent. split; [by apply snd_post_refl|done]. }
  cbn [attemptSend_loop]. wp_steps.
  destruct (Z.eqb_spec (nAvailable t) 0) as [E0|E0].
  { assert (Hack : wp (packet clock network (m_snd_nxt t) 0 None 0;; mret tt)
      (fun _ t' w' => exists sent' unsent', snd_post s P sent t t' sent' unsent' /\
         evs_ok (m_conv t) s w') t w).
    { wp_step. eapply wp_mono.
      - apply (packet_ack_spec s); try done. rewrite (si_nxt _ _ _ _ _ HI). apply u32_range.
      - cbv beta. intros _ t1 w1 [Hf1 Hev1]. wp_steps. exists sent, unsent. split; [|done].
        destruct (pk_frame_sizes _ _ Hf1) as (M1 & L1 & C1 & Htx).
        apply snd_post_tx; try done; [unfold mss_inv; by rewrite M1, L1|by left]. }
    assert (Hset : forall v, snd_post s P sent t (t <| m_t_ack := v |>) sent unsent).
    { intros v. apply snd_post_tx; try done; [|by left].
      exists (m_ts_lastack t), v, (m_lastsend t), (m_lasttraffic t), (m_bOutgoing t),
        (m_msslevel t), (m_mss t), (m_cwnd t). by destruct t. }
    destruct sflags; [wp_steps; by apply Hstop| |]; destruct (_ || _); try exact Hack;
      wp_steps; (eexists _, _; split; [apply Hset|done]). }
  destruct (m_use_nagling t && (m_snd_una t <? m_snd_nxt t) && (nAvailable t <? m_mss t)).
  { wp_steps. by apply Hstop. }
  assert (Hun : seg_sum unsent = m_slen t - seg_sum sent).
  { rewrite <- (si_sum _ _ _ _ _ HI), (si_slist _ _ _ _ _ HI), seg_sum_app. lia. }
  destruct unsent as [|seg post]; [simpl in Hun; lia|].
  assert (Hl1 : 1 <= s_len seg).
  { destruct post as [|y post]; [simpl in Hun; lia|].
    pose proof (si_nonempty _ _ _ _ _ HI) as Hne.
    change (removelast (seg :: y :: post)) with (seg :: removelast (y :: post)) in Hne.
    by apply Forall_cons in Hne as [? _]. }
  rewrite (si_slist _ _ _ _ _ HI), first_unsent_app by (try apply HI; done).
  wp_steps.
  destruct (break_segment_inv s P sent seg post t (nAvailable t) HI ltac:(lia) Hl1)
    as (seg' & post' & HI1 & Hl1').
  set (t1 := t <| m_slist := break_segment (length sent) (nAvailable t) (m_slist t) |>) in *.
  assert (Hf1 : snd_frame t t1).
  { exists t, (break_segment (length sent) (nAvailable t) (m_slist t)), (m_snd_nxt t), (m_rto_base t).
    split; [apply tx_frame_refl|]. unfold t1. by destruct t. }
  assert (Hp1 : snd_post s P sent t t1 sent (seg' :: post')).
  { by split. }
  eapply wp_mono.
  - apply (transmit_spec s P sent (seg' :: post') sent seg' post'); try done; [|lia].
    apply (si_slist _ _ _ _ _ HI1).
  - cbv beta. intros ok t2 w2 (t1' & n & Htx & Hm1' & Hd & Hev' & Hok).
    pose proof (send_inv_tx _ _ _ _ _ _ HI1 Htx) as HI2. destruct ok.
    + destruct Hok as (Hn & Hx & ->).
      destruct (transmit_done_first s P sent seg' post' t1' n now HI2 Hn Hx)
        as (sent2 & unsent2 & HI3 & Hsum & Hne).
      set (t2 := transmit_done (length sent) seg' n now t1') in *.
      assert (Hp2 : snd_post s P sent t1 t2 sent2 unsent2).
      { split.
        - exact HI3.
        - by apply transmit_done_frame.
        - exact Hm1'.
        - exact (mss_down_le t1 t1' Hd).
        - exact (mss_down_cwnd t1 t1' Hd Hm1').
        - lia.
        - intros _ _. exact Hne. }
      pose proof (snd_post_trans _ _ _ _ _ _ _ _ _ _ Hp1 Hp2) as Hp.
      destruct (snd_frame_keep _ _ (sp_frame _ _ _ _ _ _ _ Hp)) as (Ec & Ew & Es & Eh).
      eapply wp_mono.
      * apply (IH sent2 unsent2); try done.
        -- by apply Eh.
        -- by rewrite Ec.
        -- unfold wnd_ok. by rewrite Ew.
        -- by apply (sp_cwnd _ _ _ _ _ _ _ Hp).
        -- rewrite Es. lia.
      * cbv beta. rewrite Ec. intros _ t3 w3 (sent3 & unsent3 & Hp3 & Hev3).
        exists sent3, unsent3. split; [|done]. by eapply snd_post_trans.
    + subst t2. wp_steps. exists sent, (seg' :: post'). split; [|done].
      eapply snd_post_trans; [exact Hp1|]. by apply (snd_post_tx _ _ _ _ t1 t1').
Qed.

Lemma attemptSend_spec s P sent unsent sflags t w :
  send_inv s P sent unsent t -> head_inv t -> mss_inv t -> evs_ok (m_conv t) s w ->
  wnd_ok t -> cwnd_ok t ->
  wp (attemptSend clock network sflags)
    (fun _ t' w' => exists sent' unsent', snd_post s P sent t t' sent' unsent' /\
       evs_ok (m_conv t) s w') t w.
Proof.
  intros HI Hh Hm Hev Hw Hc. unfold attemptSend. wp_steps.
  set (now := u32 _). set (t1 := if _ <? _ then _ else t).
  pose proof Hm as (Hm1 & _).
  assert (Hp : snd_post s P sent t t1 sent unsent /\ m_conv t1 = m_conv t /\ wnd_ok t1 /\ head_inv t1 /\
    m_slen t1 = m_slen t).
  { unfold t1. destruct (_ <? _); [|split_and!; try done; by apply snd_post_refl].
    split_and!; try done. split; try done; try (simpl; lia).
    - destruct HI; split; done.
    - apply tx_snd_frame. exists (m_ts_lastack t), (m_t_ack t), (m_lastsend t), (m_lasttraffic t),
        (m_bOutgoing t), (m_msslevel t), (m_mss t), (m_mss t). by destruct t.
    - intros _. unfold cwnd_ok, is_u32; simpl. lia. }
  destruct Hp as (Hp & Ec & Hw1 & Hh1 & Es). clearbody t1.
  pose proof (sp_inv _ _ _ _ _ _ _ Hp) as HI1.
  destruct (inflight _ _ _ _ _ HI1) as (Ei & Hi & Hs).
  eapply wp_mono.
  - apply (attemptSend_loop_spec s P _ sent unsent); try done.
    + apply (sp_mss _ _ _ _ _ _ _ Hp).
    + by rewrite Ec.
    + by apply (sp_cwnd _ _ _ _ _ _ _ Hp).
    + unfold attemptSend_fuel. rewrite Ei. lia.
  - cbv beta. rewrite Ec. intros _ t2 w2 (sent2 & unsent2 & Hp2 & Hev2).
    exists sent2, unsent2. split; [|done]. by eapply snd_post_trans.
Qed.

(** ** Queueing *)

Lemma Forall_removelast {A} (Q : A -> Prop) l : Forall Q l -> Forall Q (removelast l).
Proof.
  induction 1 as [|x l Hx Hl IH]; [constructor|]. destruct l; [constructor|].
  by apply Forall_cons.
Qed.

(** How [slist_queue] extends the chain. *)
Lemma slist_queue_spec pos sent unsent len bCtrl :
  let l := sent ++ unsent in
  chain pos l -> 0 <= pos -> seg_sum l + len < 4294967296 -> 0 <= len ->
  Forall (fun x => 1 <= s_len x /\ 0 < s_xmit x) sent -> Forall (fun x => s_xmit x = 0) unsent ->
  Forall (fun x => 1 <= s_len x) (removelast unsent) ->
  bCtrl = (pos + seg_sum l =? 0) -> (bCtrl = true -> len = 1 /\ l = []) ->
  exists unsent', slist_queue (u32 (pos + seg_sum l)) len bCtrl l = sent ++ unsent' /\
    chain pos (sent ++ unsent') /\ seg_sum (sent ++ unsent') = seg_sum l + len /\
    Forall (fun x => s_xmit x = 0) unsent' /\ Forall (fun x => 1 <= s_len x) (removelast unsent').
Proof.
  cbv zeta. intros Hc Hpos Hbig Hlen Hs Hu Hne Hb Hctl.
  pose proof (chain_sum_nonneg _ _ Hc) as Hsum.
  set (new := mkSSegment (u32 (pos + seg_sum (sent ++ unsent))) len 0 bCtrl).
  assert (Hpush : Forall (fun x => 1 <= s_len x) unsent ->
    chain pos (sent ++ (unsent ++ [new])) /\ seg_sum (sent ++ (unsent ++ [new])) = seg_sum (sent ++ unsent) + len /\
    Forall (fun x => s_xmit x = 0) (unsent ++ [new]) /\
    Forall (fun x => 1 <= s_len x) (removelast (unsent ++ [new]))).
  { intros Hall. rewrite app_assoc, chain_app, !seg_sum_app. simpl. split_and!; try done; try lia.
    - by rewrite seg_sum_app.
    - by rewrite <- seg_sum_app.
    - intros ?. by apply Hctl.
    - apply Forall_app. split; [done|]. by apply Forall_singleton.
    - by rewrite removelast_last. }
  destruct unsent as [|b unsent _] using rev_ind.
  - exists [new]. split; [|apply Hpush; constructor]. unfold slist_queue, new.
    rewrite app_nil_r. clear Hpush Hc Hbig Hb Hctl Hsum new. destruct sent as [|x sent _] using rev_ind; [done|].
    rewrite last_snoc. apply Forall_app in Hs as [_ Hx]. apply Forall_inv in Hx as [_ Hx].
    destruct (Z.eqb_spec (s_xmit x) 0); [lia|]. by rewrite andb_false_r.
  - assert (Hlast : last (sent ++ unsent ++ [b]) = Some b) by (rewrite app_assoc; apply last_snoc).
    assert (Hrl : removelast (sent ++ unsent ++ [b]) = sent ++ unsent)
      by (rewrite app_assoc; apply removelast_last).
    unfold slist_queue. rewrite Hlast, Hrl. rewrite removelast_last in Hne.
    apply Forall_app in Hu as [Hu Hb0]. apply Forall_inv in Hb0.
    rewrite Hb0, Z.eqb_refl, andb_true_r.
    destruct (Bool.eqb (s_ctrl b) bCtrl) eqn:Eb.
    + apply Bool.eqb_prop in Eb. exists (unsent ++ [b <| s_len := s_len b +u len |>]).
      split; [by rewrite app_assoc|].
      rewrite app_assoc in Hc. apply chain_app in Hc as [Hc1 Hc2]. simpl in Hc2.
      apply chain_sum_nonneg in Hc1 as Hs1.
      rewrite app_assoc, seg_sum_app in Hbig. simpl in Hbig.
      assert (Hlb : s_len b +u len = s_len b + len) by (apply u32_small; unfold is_u32; lia).
      assert (bCtrl = false) as Hbf.
      { destruct bCtrl; [|done]. destruct (Hctl eq_refl) as [_ ?]. by destruct sent, unsent. }
      rewrite !app_assoc, chain_app, !seg_sum_app. simpl. rewrite Hlb.
      rewrite seg_sum_app in Hc2.
      rewrite Hbf in *. split_and!; try done; try tauto; try lia.
      * rewrite Eb. congruence.
      * apply Forall_app. split; [done|]. by apply Forall_singleton.
      * by rewrite removelast_last.
    + exists ((unsent ++ [b]) ++ [new]). split; [unfold new; by rewrite <- !app_assoc|]. apply Hpush.
      apply Forall_app. split; [done|]. apply Forall_singleton.
      rewrite app_assoc in Hc. apply chain_app in Hc as [_ Hc2]. simpl in Hc2.
      destruct Hc2 as (_&_&_&_&Hc1&_).
      destruct (s_ctrl b) eqn:Ecb; [by rewrite Hc1|].
      destruct bCtrl; [|done]. destruct (Hctl eq_refl) as [_ ?]. by destruct sent, unsent.
Qed.

Lemma queue_spec s P sent unsent t w data len bCtrl :
  send_inv s P sent unsent t -> 0 <= len <= Z.of_nat (length data) ->
  bCtrl = (P + m_slen t =? 0) -> (bCtrl = true -> len = 1 /\ m_slist t = []) ->
  wp (queue data len bCtrl)
    (fun r t' w' => exists unsent' sl sb,
       let n := Z.min len (kSndBufSize - m_slen t) in
       r = n /\ w' = w /\ send_inv (s ++ take (Z.to_nat n) data) P sent unsent' t' /\
       t' = t <| m_slist := sl |> <| m_sbuf := sb |> <| m_slen := m_slen t + n |>) t w.
Proof.
  intros HI Hlen Hb Hctl. destruct (inflight _ _ _ _ _ HI) as (_ & Hs0 & Hs1).
  pose proof (si_pos _ _ _ _ _ HI) as HP. pose proof (si_end _ _ _ _ _ HI) as Hend.
  pose proof (si_sbuf _ _ _ _ _ HI) as Hsb. pose proof (si_slist _ _ _ _ _ HI) as Hl.
  pose proof (si_sum _ _ _ _ _ HI) as Hsum.
  unfold queue. wp_steps.
  assert (Hspace : kSndBufSize -u m_slen t = kSndBufSize - m_slen t)
    by (apply u32_small; unfold is_u32, kSndBufSize; lia).
  rewrite Hspace. set (n := Z.min len (kSndBufSize - m_slen t)).
  assert (Hn : 0 <= n <= len /\ m_slen t + n <= kSndBufSize)
    by (unfold n, kSndBufSize in *; lia).
  apply wp_mono with (Q := fun r t' w' => r = n /\ t' = t /\ w' = w).
  { destruct (Z.ltb_spec (kSndBufSize - m_slen t) len).
    - wp_step. apply wp_assert.
      + destruct bCtrl; [|done]. destruct (Hctl eq_refl) as [? E]. rewrite E in Hsum. simpl in Hsum.
        unfold kSndBufSize in *. lia.
      + wp_steps. split; [unfold n; lia|done].
    - wp_steps. split; [unfold n; lia|done]. }
  intros r t' w' (-> & -> & ->).
  assert (Hn1 : m_slen t = 0 -> len = 1 -> n = 1) by (unfold n, kSndBufSize; lia).

  clearbody n. wp_steps. apply wp_in_bounds.
  { apply andb_true_iff. rewrite !Z.leb_le. lia. }
  rewrite (si_una _ _ _ _ _ HI).
  assert (E : u32 P +u m_slen t = u32 (P + seg_sum (sent ++ unsent)))
    by (rewrite <- Hl, Hsum; word_lia).
  rewrite E, Hl. unfold kSndBufSize in Hn.
  destruct (slist_queue_spec P sent unsent n bCtrl) as (unsent' & Hq & Hc' & Hsum' & Hu' & Hne').
  - rewrite <- Hl. apply HI.
  - done.
  - rewrite <- Hl, Hsum. lia.
  - lia.
  - apply HI.
  - apply HI.
  - apply HI.
  - by rewrite <- Hl, Hsum.
  - intros Hb1. destruct (Hctl Hb1) as [? E1]. rewrite <- Hl, E1. split; [|done].
    rewrite E1 in Hsum. simpl in Hsum. apply Hn1; lia.
  - rewrite Hq. set (sl := sent ++ unsent') in *.
    set (sb := zblit (m_slen t) (take (Z.to_nat n) data) (m_sbuf t)).
    exists unsent', sl, sb. cbv zeta.
    assert (Hadd : m_slen t +u n = m_slen t + n) by (apply u32_small; unfold is_u32; lia).
    split; [done|]. split; [done|].
    assert (Et : forall k, t <| m_slist := sl |> <| m_sbuf := zblit (m_slen (t <| m_slist := sl |>))
        (take (Z.to_nat n) data) (m_sbuf (t <| m_slist := sl |>)) |>
        <| m_slen := m_slen (t <| m_slist := sl |>) +u k |> =
      t <| m_slist := sl |> <| m_sbuf := sb |> <| m_slen := m_slen t +u k |>) by done.
    rewrite Et, Hadd. split; [|done].
    assert (Htk : length (take (Z.to_nat n) data) = Z.to_nat n) by (rewrite length_take; lia).
    destruct HI. split; cbn [m_slist m_slen m_sbuf m_snd_una m_snd_nxt update_field]; try done.
    + rewrite Hsum', <- Hl, Hsum. done.
    + rewrite length_app, Htk. lia.
    + unfold kSndBufSize. lia.
    + unfold sb, zblit. rewrite length_blit; [done|]. rewrite Htk, Hsb. unfold kSndBufSize. lia.
    + rewrite drop_app_le by lia. rewrite <- si_bytes0.
      unfold sb, zblit, blit.
      rewrite app_assoc, take_app_length'; [done|].
      rewrite length_app, Htk, length_take, Hsb. unfold kSndBufSize. lia.
Qed.

(** ** Acknowledgements *)

(** The acknowledgement [ack] ends a segment of the queue. *)
Definition ack_boundary (t : TCB) (ack : Z) : Prop :=
  exists k, ack -u m_snd_una t = seg_sum (take k (m_slist t)).

Lemma ack_boundary_sent s P sent unsent t ack :
  send_inv s P sent unsent t -> ack_boundary t ack -> ack -u m_snd_una t <= seg_sum sent ->
  exists k, ack -u m_snd_una t = seg_sum (take k sent).
Proof.
  intros HI [k Hk] Hle. rewrite Hk in *. pose proof (si_chain _ _ _ _ _ HI) as Hc.
  rewrite (si_slist _ _ _ _ _ HI) in *. rewrite take_app, seg_sum_app in *.
  apply chain_app in Hc as [Hc1 Hc2].
  destruct (seg_sum_take_nonneg _ _ k Hc1), (seg_sum_take_nonneg _ _ (k - length sent) Hc2).
  destruct (decide (k <= length sent)%nat).
  - exists k. replace (k - length sent)%nat with 0%nat by lia. simpl. lia.
  - exists (length sent). rewrite take_ge in Hle |- * by lia. rewrite firstn_all. lia.
Qed.

Lemma free_segments_spec k : forall l largest,
  Forall (fun x => 1 <= s_len x) (take k l) -> seg_sum (take k l) < 4294967296 ->
  (k <= length l)%nat ->
  exists largest', free_segments (seg_sum (take k l)) largest l = Some (drop k l, largest').
Proof.
  induction k as [|k IH]; intros l largest Hpos Hbig Hk.
  - simpl. destruct l; simpl; eauto.
  - destruct l as [|x l]; [simpl in Hk; lia|]. simpl in Hpos, Hbig, Hk |- *.
    apply Forall_cons in Hpos as [Hx Hpos].
    assert (Hnn : 0 <= seg_sum (take k l)).
    { clear -Hpos. induction Hpos; simpl; lia. }
    destruct (Z.eqb_spec (s_len x + seg_sum (take k l)) 0); [lia|].
    destruct (Z.ltb_spec (s_len x + seg_sum (take k l)) (s_len x)); [lia|].
    replace (u32 (s_len x + seg_sum (take k l) - s_len x)) with (seg_sum (take k l))
      by (rewrite u32_small; unfold is_u32; lia).
    apply IH; [done|lia|lia].
Qed.

Lemma free_acked_spec s P sent unsent t t1 w k :
  send_inv s P sent unsent t -> (k <= length sent)%nat ->
  let n := seg_sum (take k sent) in
  m_slist t1 = m_slist t -> m_slen t1 = m_slen t -> m_sbuf t1 = m_sbuf t ->
  m_snd_nxt t1 = m_snd_nxt t -> m_snd_una t1 = u32 (P + n) ->
  wp (free_acked n)
    (fun _ t' w' => exists sl sb lg, w' = w /\ send_inv s (P + n) (drop k sent) unsent t' /\
       t' = t1 <| m_slen := m_slen t - n |> <| m_sbuf := sb |> <| m_slist := sl |> <| m_largest := lg |>)
    t1 w.
Proof.
  intros HI Hk n El Es Eb En Eu. destruct (inflight _ _ _ _ _ HI) as (_ & Hs0 & Hs1).
  pose proof (si_slist _ _ _ _ _ HI) as Hl. pose proof (si_chain _ _ _ _ _ HI) as Hc.
  pose proof (si_sbuf _ _ _ _ _ HI) as Hsb.
  assert (Hn : 0 <= n <= seg_sum sent).
  { rewrite Hl in Hc. apply chain_app in Hc as [Hc1 _]. by apply (seg_sum_take_nonneg P). }
  assert (Htk : take k (m_slist t) = take k sent) by (rewrite Hl; apply take_app_le; lia).
  assert (Hdk : drop k (m_slist t) = drop k sent ++ unsent) by (rewrite Hl; by apply drop_app_le).
  assert (Hslen : m_slen t -u n = m_slen t - n) by (apply u32_small; unfold is_u32; lia).
  assert (Hfree : exists lg, free_segments n (m_largest t1) (m_slist t) = Some (drop k (m_slist t), lg)).
  { unfold n. rewrite <- Htk. apply free_segments_spec.
    - rewrite Htk. eapply Forall_impl; [apply Forall_take, HI|]. simpl. tauto.
    - rewrite Htk. fold n. lia.
    - rewrite Hl, length_app. lia. }
  destruct Hfree as [lg Hfree]. assert (Hnk : n = seg_sum (take k sent)) by done. clearbody n.
  unfold free_acked. wp_step. wp_step. wp_step. wp_step. rewrite Es, Hslen.
  wp_step. apply wp_in_bounds.
  { apply Z.leb_le. cbn [m_slen update_field]. unfold kSndBufSize. lia. }
  wp_step. wp_step.
  set (t2 := t1 <| m_slen := m_slen t - n |>).
  assert (F : m_slen t2 = m_slen t - n /\ m_sbuf t2 = m_sbuf t /\ m_largest t2 = m_largest t1 /\
    m_slist t2 = m_slist t /\ m_snd_una t2 = P +u n /\ m_snd_nxt t2 = m_snd_nxt t) by done.
  destruct F as (F1 & F2 & F3 & F4 & F5 & F6). rewrite F3, F4, Hfree. apply wp_modify.
  cbv beta. rewrite F1, F2. clearbody t2. set (sb := zblit 0 (zsub n (m_slen t - n) (m_sbuf t)) (m_sbuf t)).
  exists (drop k (m_slist t)), sb, lg. split; [done|]. split; [|done].
  assert (Hzl : length (zsub n (m_slen t - n) (m_sbuf t)) = Z.to_nat (m_slen t - n)).
  { unfold zsub. apply length_sub. rewrite Hsb. unfold kSndBufSize. lia. }
  assert (Hsbl : length sb = Z.to_nat kSndBufSize).
  { rewrite <- Hsb. unfold sb, zblit. apply length_blit. rewrite Hzl, Hsb. unfold kSndBufSize. lia. }
  pose proof (si_pos _ _ _ _ _ HI) as HP. pose proof (si_end _ _ _ _ _ HI) as Hend.
  assert (Hsbb : take (Z.to_nat (m_slen t - n)) sb = drop (Z.to_nat (P + n)) s).
  { unfold sb, zblit, blit. change (Z.to_nat 0) with 0%nat. rewrite take_0. cbn [app].
    rewrite take_app_length' by done.
    unfold zsub. rewrite <- (sub_take _ _ _ (Z.to_nat (m_slen t))) by lia.
    rewrite (si_bytes _ _ _ _ _ HI). unfold sub. rewrite drop_drop.
    replace (Z.to_nat P + Z.to_nat n)%nat with (Z.to_nat (P + n)) by lia.
    apply take_ge. rewrite length_drop. lia. }
  clearbody sb.
  rewrite <- (take_drop k (m_slist t)), Htk in Hc. apply chain_app in Hc as [_ Hc].
  pose proof (si_sum _ _ _ _ _ HI) as Hsum.
  rewrite <- (take_drop k (m_slist t)), seg_sum_app, Htk in Hsum.
  assert (Hse : seg_sum sent = n + seg_sum (drop k sent)).
  { rewrite Hnk, <- seg_sum_app, take_drop. done. }
  set (t3 := update_field m_largest _ _).
  assert (G : m_slist t3 = drop k (m_slist t) /\ m_slen t3 = m_slen t - n /\ m_sbuf t3 = sb /\
    m_snd_una t3 = P +u n /\ m_snd_nxt t3 = m_snd_nxt t) by (by rewrite <- F1, <- F5, <- F6).
  destruct G as (G1 & G2 & G3 & G4 & G5). clearbody t3.
  split; rewrite ?G1, ?G2, ?G3, ?G4, ?G5.
  - done.
  - apply Forall_drop, HI.
  - apply HI.
  - apply HI.
  - by rewrite Hnk.
  - lia.
  - lia.
  - lia.
  - unfold kSndBufSize. lia.
  - done.
  - done.
  - done.
  - rewrite (si_nxt _ _ _ _ _ HI), Hse. f_equal. lia.
Qed.
End Ops.
