(* ===== verification/TcpRecv.v ===== *)
(** * The receiving side of PseudoTcp

    [rcv_inv] bounds the receive buffer and the list of saved segments; the
    receiving operations keep it and stay inside the buffer.  [rcv_stream o D t]
    says that what the buffer holds are the bytes of the peer's stream [o]: the
    readable bytes are those from position [D] up to [m_rcv_nxt], and a saved
    segment lies where it will be read. *)

From S2P Require Import Prelude TimeUtil ByteOrder PseudoTcp TcpLogic TcpSend.
#[local] Open Scope jingle_scope.
Import Tcp.

(** ** Invariants *)

(** A saved segment of [rlist] fits the buffer. *)
Definition saved_fits (t : TCB) (r : RSegment) : Prop :=
  0 <= r_seq r /\ 1 <= r_len r /\ r_seq r + r_len r < 4294967296 /\
  m_rlen t + (r_seq r + r_len r - m_rcv_nxt t) <= 61440.

Record rcv_inv (t : TCB) : Prop := {
  ri_rbuf : length (m_rbuf t) = Z.to_nat kRcvBufSize;
  ri_pos : 0 <= m_rpos t <= m_rlen t;
  ri_len : m_rlen t <= 61440;
  ri_nxt : is_u32 (m_rcv_nxt t);
  ri_saved : Forall (saved_fits t) (m_rlist t);
}.

(** Stream position [p] is in the buffer, at its place. *)
Definition at_pos (o : bytes) (t : TCB) (p : Z) : Prop :=
  exists b, m_rbuf t !! Z.to_nat (m_rlen t + p - m_rcv_nxt t) = Some b /\ o !! Z.to_nat p = Some b.

Definition saved_ok (o : bytes) (t : TCB) (r : RSegment) : Prop :=
  forall p, r_seq r <= p < r_seq r + r_len r -> m_rcv_nxt t <= p -> at_pos o t p.

Record rcv_stream (o : bytes) (D : Z) (t : TCB) : Prop := {
  rs_pos : 1 <= D;
  rs_start : m_rcv_nxt t = 0 /\ m_rlen t = m_rpos t /\ m_rlist t = [] /\ D = 1 \/
             1 <= m_rcv_nxt t /\ D = m_rcv_nxt t - (m_rlen t - m_rpos t);
  rs_read : forall p, D <= p < m_rcv_nxt t -> at_pos o t p;
  rs_saved : Forall (saved_ok o t) (m_rlist t);
}.

(** The fields the receiving side keeps. *)
Definition recv_view (t : TCB) :=
  (m_rlist t, m_rbuf t, m_rcv_nxt t, m_rpos t, m_rlen t, m_shutdown t).

Lemma rcv_inv_view t t' : recv_view t' = recv_view t -> rcv_inv t -> rcv_inv t'.
Proof.
  unfold recv_view. intros E []. simplify_eq. split; try congruence.
  assert (m_rlist t' = m_rlist t) as -> by congruence.
  eapply Forall_impl; [done|]. unfold saved_fits. intros r. congruence.
Qed.

Lemma rcv_stream_view o D t t' : recv_view t' = recv_view t -> rcv_stream o D t -> rcv_stream o D t'.
Proof.
  unfold recv_view. intros E [H1 H2 H3 H4].
  assert (forall p, at_pos o t p -> at_pos o t' p) as Hat.
  { unfold at_pos. intros p (b & Hb & Ho). exists b. split; [|done]. rewrite <- Hb. congruence. }
  assert (m_rcv_nxt t' = m_rcv_nxt t /\ m_rlen t' = m_rlen t /\ m_rpos t' = m_rpos t /\
    m_rlist t' = m_rlist t) as (E1 & E2 & E3 & E4) by (repeat split; congruence).
  split; rewrite ?E1, ?E2, ?E3, ?E4; auto.
  eapply Forall_impl; [done|]. unfold saved_ok. intros r. rewrite E1. auto.
Qed.

(** Which receiving fields a step on data changes. *)
Definition rcv_upd (t : TCB) (l : list RSegment) (buf : bytes) (nxt wnd pos len : Z) : TCB :=
  t <| m_rlist := l |> <| m_rbuf := buf |> <| m_rcv_nxt := nxt |> <| m_rcv_wnd := wnd |>
    <| m_rpos := pos |> <| m_rlen := len |>.
Definition rcv_frame (t t' : TCB) : Prop :=
  exists l buf nxt wnd pos len, t' = rcv_upd t l buf nxt wnd pos len.

Lemma rcv_frame_refl t : rcv_frame t t.
Proof.
  exists (m_rlist t), (m_rbuf t), (m_rcv_nxt t), (m_rcv_wnd t), (m_rpos t), (m_rlen t). by destruct t.
Qed.
Lemma rcv_frame_trans t1 t2 t3 : rcv_frame t1 t2 -> rcv_frame t2 t3 -> rcv_frame t1 t3.
Proof.
  intros (a&b&c&d&e&f&->) (a'&b'&c'&d'&e'&f'&->). exists a', b', c', d', e', f'. reflexivity.
Qed.

(** ** Arriving segments *)

(** What the sender guarantees of a segment, for the receiver to be safe: it
    does not run past the end of the sequence space, and holds its bytes. *)
Definition seg_safe (g : Segment) : Prop :=
  0 <= g_seq g /\ 0 <= g_len g <= Z.of_nat (length (g_data g)) /\
  g_seq g + g_len g < 4294967296.

(** A segment that was cut to its new part. *)
Lemma trim_old_spec t g : rcv_inv t -> seg_safe g ->
  let g' := trim_old t g in
  seg_safe g' /\ g_flags g' = g_flags g /\ (g_len g' = 0 \/ m_rcv_nxt t <= g_seq g') /\
  exists k, 0 <= k /\ g_len g' = 0 \/
    0 <= k /\ g_seq g' = g_seq g + k /\ g_len g' = g_len g - k /\ g_data g' = drop (Z.to_nat k) (g_data g).
Proof.
  intros HI (Hs & Hl & He) g'. unfold g', trim_old. destruct HI as [_ _ _ Hn _]. unfold is_u32 in Hn.
  destruct (Z.ltb_spec (g_seq g) (m_rcv_nxt t)).
  - assert (E : m_rcv_nxt t -u g_seq g = m_rcv_nxt t - g_seq g) by word_lia. rewrite E.
    destruct (Z.ltb_spec (m_rcv_nxt t - g_seq g) (g_len g)).
    + assert (E1 : g_seq g +u (m_rcv_nxt t - g_seq g) = m_rcv_nxt t) by word_lia.
      assert (E2 : g_len g -u (m_rcv_nxt t - g_seq g) = g_len g - (m_rcv_nxt t - g_seq g)) by word_lia.
      rewrite E1, E2. unfold seg_safe. cbn [g_seq g_len g_data g_flags update_field]. rewrite length_drop.
      split; [lia|]. split; [done|]. split; [lia|]. exists (m_rcv_nxt t - g_seq g). right.
      split_and!; first [lia|done].
    + unfold seg_safe. cbn [g_seq g_len g_data g_flags update_field].
      split; [lia|]. split; [done|]. split; [by left|]. exists 0. by left.
  - split; [by split; [|split]|]. split; [done|]. split; [by right|]. exists 0. right.
    split_and!; first [lia|done].
Qed.

Lemma space_spec t : rcv_inv t -> getReceiveBufferSpace t = 61440 - m_rlen t + m_rpos t.
Proof. intros []. unfold getReceiveBufferSpace, kRcvBufSize. apply u32_small. unfold is_u32. lia. Qed.

Lemma trim_new_spec t g : rcv_inv t -> seg_safe g -> g_len g = 0 \/ m_rcv_nxt t <= g_seq g ->
  let g' := trim_new t g in
  g_seq g' = g_seq g /\ g_flags g' = g_flags g /\ g_data g' = g_data g /\ 0 <= g_len g' <= g_len g /\
  (g_len g' = 0 \/ g_seq g + g_len g' - m_rcv_nxt t <= 61440 - m_rlen t + m_rpos t).
Proof.
  intros HI (Hs & Hl & He) Hn g'. unfold g', trim_new. rewrite (space_spec t HI).
  destruct HI as [_ Hp Hlen Hu _]. unfold is_u32 in Hu.
  set (over := u32 (g_seq g + g_len g - m_rcv_nxt t)).
  assert (Hover : 0 <= over < 4294967296) by apply u32_range.
  assert (Hover1 : 1 <= g_len g -> over = g_seq g + g_len g - m_rcv_nxt t).
  { intros. unfold over. apply u32_small. unfold is_u32. lia. }
  destruct (Z.ltb_spec (61440 - m_rlen t + m_rpos t) over).
  - assert (E : over -u (61440 - m_rlen t + m_rpos t) = over - (61440 - m_rlen t + m_rpos t)).
    { apply u32_small. unfold is_u32. lia. }
    rewrite E. set (adj := over - _).
    destruct (Z.ltb_spec adj (g_len g)).
    + assert (E1 : g_len g -u adj = g_len g - adj) by (apply u32_small; unfold is_u32; lia).
      rewrite E1. cbn [g_seq g_len g_data g_flags update_field]. split_and!; try done; lia.
    + cbn [g_seq g_len g_data g_flags update_field]. split_and!; try done; lia.
  - split_and!; try done; lia.
Qed.

(** What is left of an arrived segment: it starts no earlier than expected and
    ends inside the buffer. *)
Record trimmed (t : TCB) (g : Segment) : Prop := {
  tr_safe : seg_safe g;
  tr_fits : g_len g = 0 \/
    m_rcv_nxt t <= g_seq g /\ g_seq g + g_len g - m_rcv_nxt t <= 61440 - m_rlen t + m_rpos t;
}.

(** The data of the segment are the bytes of the stream [o] at its number. *)
Definition seg_bytes (o : bytes) (g : Segment) : Prop :=
  forall p, g_seq g <= p < g_seq g + g_len g ->
    exists b, g_data g !! Z.to_nat (p - g_seq g) = Some b /\ o !! Z.to_nat p = Some b.

Lemma trim_spec t g : rcv_inv t -> seg_safe g ->
  let g' := trim_new t (trim_old t g) in
  trimmed t g' /\ g_flags g' = g_flags g /\ (g_len g' = 0 \/ m_rcv_nxt t <= g_seq g') /\
  0 <= g_len g' <= g_len g /\ (g_len g' = 0 \/ g_seq g <= g_seq g') /\
  (g_len g' = 0 \/ g_seq g' + g_len g' <= g_seq g + g_len g) /\
  (forall o, seg_bytes o g -> seg_bytes o g').
Proof.
  intros HI Hg g'. destruct (trim_old_spec t g HI Hg) as (Hg1 & Hf1 & Hn1 & k & Hk).
  destruct (trim_new_spec t (trim_old t g) HI Hg1 Hn1) as (Hs & Hf2 & Hd & Hl & Hfit).
  fold g' in Hs, Hf2, Hd, Hl, Hfit. set (g1 := trim_old t g) in *.
  destruct Hg as (Hg0 & Hgl & Hge). destruct Hg1 as (Hg1s & Hg1l & Hg1e).
  split; [split; [split_and!; rewrite ?Hs, ?Hd; lia|lia]|].
  split; [congruence|]. split_and!; [lia..|].
  intros o Ho p Hp. destruct Hk as [[_ Hk]|(Hk0 & Hks & Hkl & Hkd)]; [lia|].
  rewrite Hd, Hs, Hkd, Hks, lookup_drop in *. destruct (Ho p) as (b & Hb & Hob); [lia|].
  exists b. split; [|done]. rewrite <- Hb. f_equal. lia.
Qed.

(** ** The buffer *)

Lemma at_pos_ext o t t' p :
  m_rbuf t' = m_rbuf t -> m_rlen t' - m_rcv_nxt t' = m_rlen t - m_rcv_nxt t ->
  at_pos o t p -> at_pos o t' p.
Proof.
  intros Eb El (b & Hb & Ho). exists b. split; [|done]. rewrite Eb, <- Hb. do 2 f_equal. lia.
Qed.

Lemma consolidate_spec t w : rcv_inv t ->
  wp consolidateReceiveBufferSpace (fun _ t' w' => w' = w /\ rcv_inv t' /\ m_rpos t' = 0 /\
    m_rlen t' = m_rlen t - m_rpos t /\ m_rcv_nxt t' = m_rcv_nxt t /\ m_rlist t' = m_rlist t /\
    rcv_frame t t' /\
    forall o p, m_rcv_nxt t - (m_rlen t - m_rpos t) <= p -> at_pos o t p -> at_pos o t' p) t w.
Proof.
  intros HI. pose proof HI as [Hb Hp Hl Hn Hs]. unfold consolidateReceiveBufferSpace. wp_steps.
  apply wp_in_bounds; [apply Z.leb_le; unfold kRcvBufSize; lia|]. wp_steps.
  assert (E : m_rlen t -u m_rpos t = m_rlen t - m_rpos t) by (apply u32_small; unfold is_u32; lia).
  rewrite E. set (buf := zblit _ _ _).
  assert (Hsub : length (zsub (m_rpos t) (kRcvBufSize - m_rpos t) (m_rbuf t)) =
    Z.to_nat (61440 - m_rpos t)).
  { unfold zsub. apply length_sub. rewrite Hb. unfold kRcvBufSize. lia. }
  assert (Hbl : length buf = Z.to_nat kRcvBufSize).
  { rewrite <- Hb. apply length_blit. rewrite Hsub, Hb. unfold kRcvBufSize. lia. }
  assert (Hbuf : forall i, (i < Z.to_nat (61440 - m_rpos t))%nat ->
    buf !! i = m_rbuf t !! (Z.to_nat (m_rpos t) + i)%nat).
  { intros i Hi. unfold buf, zblit. rewrite blit_lookup by (rewrite Hsub, Hb; unfold kRcvBufSize; lia).
    rewrite Hsub, decide_True by lia. unfold zsub. rewrite sub_lookup.
    rewrite decide_True by (unfold kRcvBufSize; lia). f_equal. lia. }
  clearbody buf. split_and!; try done.
  - split; cbn [m_rbuf m_rpos m_rlen m_rcv_nxt m_rlist update_field]; try done; try lia.
    eapply Forall_impl; [exact Hs|]. intros r. unfold saved_fits.
    cbn [m_rlen m_rcv_nxt update_field]. lia.
  - exists (m_rlist t), buf, (m_rcv_nxt t), (m_rcv_wnd t), 0, (m_rlen t - m_rpos t). by destruct t.
  - intros o p Hpos (b & Hlk & Ho). exists b. split; [|done].
    cbn [m_rbuf m_rlen m_rcv_nxt update_field]. pose proof (lookup_lt_Some _ _ _ Hlk) as Hlt.
    rewrite Hb in Hlt. unfold kRcvBufSize in Hlt. rewrite Hbuf by lia. rewrite <- Hlk. f_equal. lia.
Qed.

(** Copying the data of a segment into the buffer. *)
Definition put_data (t : TCB) (g : Segment) : TCB :=
  t <| m_rbuf := zblit (m_rlen t + (g_seq g - m_rcv_nxt t)) (take (Z.to_nat (g_len g)) (g_data g)) (m_rbuf t) |>.

Lemma put_data_spec t g : rcv_inv t -> seg_safe g -> m_rcv_nxt t <= g_seq g ->
  g_len g + (g_seq g - m_rcv_nxt t) <= 61440 - m_rlen t ->
  rcv_inv (put_data t g) /\ rcv_frame t (put_data t g) /\
  forall o, seg_bytes o g ->
    (forall p, g_seq g <= p < g_seq g + g_len g -> at_pos o (put_data t g) p) /\
    (forall p, m_rcv_nxt t - m_rlen t <= p -> at_pos o t p -> at_pos o (put_data t g) p).
Proof.
  intros [Hb Hp Hl Hn Hs] (Hs0 & Hgl & Hge) Hseq Hfit. unfold put_data.
  set (off := m_rlen t + (g_seq g - m_rcv_nxt t)). set (src := take _ (g_data g)).
  assert (Hsrc : length src = Z.to_nat (g_len g)) by (unfold src; rewrite length_take; lia).
  assert (Hin : (Z.to_nat off + length src <= length (m_rbuf t))%nat).
  { rewrite Hsrc, Hb. unfold off, kRcvBufSize. lia. }
  assert (Hbl : length (zblit off src (m_rbuf t)) = Z.to_nat kRcvBufSize)
    by (rewrite <- Hb; by apply length_blit).
  assert (Hlk : forall i, zblit off src (m_rbuf t) !! i =
    if decide (Z.to_nat off <= i < Z.to_nat off + length src)%nat then src !! (i - Z.to_nat off)%nat
    else m_rbuf t !! i) by (intros; by apply blit_lookup).
  set (buf := zblit off src (m_rbuf t)) in *. clearbody buf.
  split; [by split|]. split.
  { exists (m_rlist t), buf, (m_rcv_nxt t), (m_rcv_wnd t), (m_rpos t), (m_rlen t). by destruct t. }
  intros o Ho.
  assert (Hnew : forall p, g_seq g <= p < g_seq g + g_len g ->
    at_pos o (t <| m_rbuf := buf |>) p).
  { intros p Hpp. destruct (Ho p Hpp) as (b & Hd & Hob). exists b. split; [|done].
    cbn [m_rbuf m_rlen m_rcv_nxt update_field]. rewrite Hlk, decide_True by (rewrite Hsrc; lia).
    unfold src. rewrite lookup_take_lt by lia. rewrite <- Hd. f_equal. lia. }
  split; [done|]. intros p Hpp Hat.
  destruct (decide (g_seq g <= p < g_seq g + g_len g)); [by apply Hnew|].
  destruct Hat as (b & Hbb & Hob). exists b. split; [|done].
  cbn [m_rbuf m_rlen m_rcv_nxt update_field]. rewrite Hlk, decide_False; [done|]. rewrite Hsrc. lia.
Qed.

(** ** Accepting data in sequence *)

Lemma recover_saved_spec base l : forall rlen nxt wnd some,
  is_u32 nxt -> rlen = base + nxt -> 0 <= rlen <= 61440 ->
  Forall (fun r => 0 <= r_seq r /\ 1 <= r_len r /\ r_seq r + r_len r < 4294967296 /\
    base + (r_seq r + r_len r) <= 61440) l ->
  exists k rlen' nxt' wnd' some',
    recover_saved l rlen nxt wnd some = (drop k l, rlen', nxt', wnd', some') /\
    rlen' = base + nxt' /\ nxt <= nxt' < 4294967296 /\ rlen' <= 61440 /\
    forall p, nxt <= p < nxt' -> Exists (fun r => r_seq r <= p < r_seq r + r_len r) l.
Proof.
  induction l as [|r l IH]; intros rlen nxt wnd some Hn Hb Hr Hl; cbn [recover_saved].
  - exists 0%nat, rlen, nxt, wnd, some. unfold is_u32 in Hn. split_and!; try done; lia.
  - apply Forall_cons in Hl as [(H1 & H2 & H3 & H4) Hl]. unfold is_u32 in Hn.
    assert (E : r_seq r +u r_len r = r_seq r + r_len r) by (apply u32_small; unfold is_u32; lia).
    rewrite E. destruct (Z.leb_spec (r_seq r) nxt).
    2: { exists 0%nat, rlen, nxt, wnd, some. split_and!; try done; lia. }
    destruct (Z.ltb_spec nxt (r_seq r + r_len r)).
    + set (n := r_seq r + r_len r) in *.
      assert (E1 : n -u nxt = n - nxt) by (apply u32_small; unfold is_u32; lia).
      assert (E2 : rlen +u (n - nxt) = base + n) by (rewrite Hb; rewrite u32_small; unfold is_u32; lia).
      assert (E3 : nxt +u (n - nxt) = n) by (rewrite u32_small; unfold is_u32; lia).
      rewrite E1, E2, E3.
      destruct (IH (base + n) n (wnd -u (n - nxt)) true) as (k & a & b & c & d & Ek & Ha & Hbn & Hal & Hcov);
        [unfold is_u32; lia|done|lia|done|].
      exists (S k), a, b, c, d. split; [exact Ek|]. split_and!; try done; try lia.
      intros p Hp. destruct (decide (p < n)).
      * apply Exists_cons_hd. lia.
      * apply Exists_cons_tl, Hcov. lia.
    + destruct (IH rlen nxt wnd some) as (k & a & b & c & d & Ek & Ha & Hbn & Hal & Hcov);
        [unfold is_u32; lia|done|lia|done|].
      exists (S k), a, b, c, d. split; [exact Ek|]. split_and!; try done; try lia.
      intros p Hp. apply Exists_cons_tl, Hcov. lia.
Qed.

Lemma accept_data_spec t g : rcv_inv t -> seg_safe g -> g_seq g = m_rcv_nxt t ->
  g_len g <= 61440 - m_rlen t ->
  rcv_inv (accept_data g t).1 /\ rcv_frame t (accept_data g t).1 /\
  m_rcv_nxt t + g_len g <= m_rcv_nxt (accept_data g t).1 /\
  forall o D, rcv_stream o D t -> 1 <= m_rcv_nxt t ->
    (forall p, g_seq g <= p < g_seq g + g_len g -> at_pos o t p) ->
    rcv_stream o D (accept_data g t).1.
Proof.
  intros [Hb Hp Hl Hn Hs] (Hs0 & Hgl & Hge) Hseq Hfit. unfold accept_data. unfold is_u32 in Hn.
  assert (E1 : m_rlen t +u g_len g = m_rlen t + g_len g) by (apply u32_small; unfold is_u32; lia).
  assert (E2 : m_rcv_nxt t +u g_len g = m_rcv_nxt t + g_len g) by (apply u32_small; unfold is_u32; lia).
  rewrite E1, E2.
  destruct (recover_saved_spec (m_rlen t - m_rcv_nxt t) (m_rlist t) (m_rlen t + g_len g)
    (m_rcv_nxt t + g_len g) (m_rcv_wnd t -u g_len g) false) as (k & a & b & c & d & -> & Ha & Hbn & Hal & Hcov).
  { unfold is_u32. lia. } { lia. } { lia. }
  { eapply Forall_impl; [exact Hs|]. unfold saved_fits. intros r. simpl. lia. }
  cbn [fst].
  assert (Hf : rcv_frame t (t <| m_rlist := drop k (m_rlist t) |> <| m_rlen := a |>
    <| m_rcv_nxt := b |> <| m_rcv_wnd := c |>)).
  { exists (drop k (m_rlist t)), (m_rbuf t), b, c, (m_rpos t), a. by destruct t. }
  set (t' := update_field m_rcv_wnd _ _) in *.
  assert (F : m_rcv_nxt t' = b /\ m_rlen t' = a /\ m_rpos t' = m_rpos t /\
    m_rlist t' = drop k (m_rlist t) /\ m_rbuf t' = m_rbuf t) by done.
  destruct F as (F1 & F2 & F3 & F4 & F5). clearbody t'. split; [|split; [done|split]].
  - split; rewrite ?F1, ?F2, ?F3, ?F4, ?F5; try done; try lia.
    + unfold is_u32. lia.
    + eapply Forall_impl; [apply Forall_drop, Hs|]. unfold saved_fits. intros r.
      rewrite F1, F2. lia.
  - lia.
  - intros o D [H1 H2 H3 H4] Hn1 Hnew.
    assert (Hat : forall p, at_pos o t p -> at_pos o t' p).
    { intros p. apply at_pos_ext; [done|]. lia. }
    split; rewrite ?F1, ?F2, ?F3, ?F4.
    + done.
    + right. lia.
    + intros p Hpp. apply Hat. destruct (decide (p < m_rcv_nxt t)); [apply H3; lia|].
      destruct (decide (p < m_rcv_nxt t + g_len g)); [apply Hnew; lia|].
      assert (Hex : Exists (fun r => r_seq r <= p < r_seq r + r_len r) (m_rlist t)) by (apply Hcov; lia).
      apply Exists_exists in Hex as (r & Hr & Hrp).
      rewrite Forall_forall in H4. apply (H4 r Hr); lia.
    + apply Forall_drop. eapply Forall_impl; [exact H4|]. unfold saved_ok. intros r Hr p Hpp Hb'.
      rewrite F1 in Hb'. apply Hat, Hr; lia.
Qed.

Lemma insert_saved_Forall (Q : RSegment -> Prop) r l : Q r -> Forall Q l -> Forall Q (insert_saved r l).
Proof.
  intros Hr. induction 1 as [|x l Hx Hl IH]; simpl.
  - by apply Forall_singleton.
  - destruct (_ <? _); by repeat apply Forall_cons_2.
Qed.

(** What the honest sender's segments look like to the receiving side. *)
Definition seg_honest (o : bytes) (t : TCB) (g : Segment) : Prop :=
  g_len g = 0 \/
  Z.land (g_flags g) FLAG_CTL = 0 /\ 1 <= m_rcv_nxt t /\ seg_bytes o g \/
  Z.land (g_flags g) FLAG_CTL <> 0 /\ g_seq g = 0 /\ g_len g = 1.

Definition process_data_post (t : TCB) (g : Segment) (t' : TCB) : Prop :=
  rcv_inv t' /\ rcv_frame t t' /\ m_rcv_nxt t <= m_rcv_nxt t' /\
  forall o D, m_shutdown t = SD_NONE -> seg_honest o t g -> rcv_stream o D t -> rcv_stream o D t'.

Lemma consecutive_spec t : rcv_inv t -> getReceiveBufferConsecutiveSpace t = 61440 - m_rlen t.
Proof. intros []. unfold getReceiveBufferConsecutiveSpace, kRcvBufSize. apply u32_small. unfold is_u32. lia. Qed.

(** Room is made for the data. *)
Lemma make_room_spec t w g : rcv_inv t -> trimmed t g -> 1 <= g_len g ->
  wp (if getReceiveBufferConsecutiveSpace t <? g_len g +u (g_seq g -u m_rcv_nxt t) then
        consolidateReceiveBufferSpace;;
        t' ← get; ASSERT (g_len g +u (g_seq g -u m_rcv_nxt t) <=? getReceiveBufferConsecutiveSpace t')
      else mret tt)
    (fun _ t' w' => w' = w /\ rcv_inv t' /\ rcv_frame t t' /\ m_rcv_nxt t' = m_rcv_nxt t /\
      m_rlist t' = m_rlist t /\ g_len g + (g_seq g - m_rcv_nxt t) <= 61440 - m_rlen t' /\
      forall o D, rcv_stream o D t -> rcv_stream o D t') t w.
Proof.
  intros HI [(Hg0 & Hgl & Hge) [|[Hseq Hfit]]] Hl1; [lia|]. pose proof HI as [_ Hp Hrl Hn _].
  unfold is_u32 in Hn. rewrite (consecutive_spec t HI).
  assert (E1 : g_seq g -u m_rcv_nxt t = g_seq g - m_rcv_nxt t) by (apply u32_small; unfold is_u32; lia).
  assert (E2 : g_len g +u (g_seq g - m_rcv_nxt t) = g_len g + (g_seq g - m_rcv_nxt t))
    by (apply u32_small; unfold is_u32; lia).
  rewrite E1, E2. destruct (Z.ltb_spec (61440 - m_rlen t) (g_len g + (g_seq g - m_rcv_nxt t))).
  - wp_step. wp_apply (consolidate_spec t w HI).
    intros _ t' w' (-> & HI' & P0 & L & N & R & Hf & Hat). wp_steps. apply wp_assert.
    { rewrite (consecutive_spec t' HI'). apply Z.leb_le. lia. }
    split_and!; try done; [lia|]. intros o D [H1 H2 H3 H4]. split; rewrite ?N, ?L, ?P0, ?R.
    + done.
    + destruct H2 as [(?&?&?&?)|[? ?]]; [left; split_and!; try done; lia|right; lia].
    + intros p Hpp. apply Hat; [|by apply H3]. lia.
    + eapply Forall_impl; [exact H4|]. unfold saved_ok. rewrite N. intros r Hr p Hpp Hnp.
      apply Hat; [lia|]. by apply Hr.
  - wp_steps. split_and!; try done; apply rcv_frame_refl.
Qed.

Lemma rcv_stream_saved o D t : rcv_stream o D t -> m_rcv_nxt t - m_rlen t <= D - m_rpos t.
Proof. intros [? [(?&?&?&?)|[? ?]] _ _]; lia. Qed.

(** The data of a segment out of sequence are kept for later. *)
Lemma save_data_spec t g : rcv_inv t -> seg_safe g -> 1 <= g_len g -> m_rcv_nxt t <= g_seq g ->
  g_len g + (g_seq g - m_rcv_nxt t) <= 61440 - m_rlen t ->
  let t' := t <| m_rlist := insert_saved (mkRSegment (g_seq g) (g_len g)) (m_rlist t) |> in
  rcv_inv t' /\ rcv_frame t t' /\
  forall o D, rcv_stream o D t -> 1 <= m_rcv_nxt t ->
    (forall p, g_seq g <= p < g_seq g + g_len g -> at_pos o t p) -> rcv_stream o D t'.
Proof.
  intros HI (? & ? & ?) Hl1 Hn Hfit t'. split; [|split].
  - destruct HI. split; try done. apply insert_saved_Forall; [|done].
    unfold saved_fits. change (m_rlen t') with (m_rlen t). change (m_rcv_nxt t') with (m_rcv_nxt t).
    cbn [r_seq r_len]. lia.
  - exists (m_rlist t'), (m_rbuf t), (m_rcv_nxt t), (m_rcv_wnd t), (m_rpos t), (m_rlen t). by destruct t.
  - intros o D [K1 K2 K3 K4] Hn1 Hnew. split; try done.
    + right. change (m_rlen t') with (m_rlen t). change (m_rcv_nxt t') with (m_rcv_nxt t).
      change (m_rpos t') with (m_rpos t). lia.
    + apply insert_saved_Forall; [|done]. intros p Hp _. by apply Hnew.
Qed.

(** Control data, and data after a shutdown, only advance the window. *)
Lemma skip_data_spec t g : rcv_inv t -> seg_safe g -> g_seq g = m_rcv_nxt t ->
  let t' := t <| m_rcv_nxt := m_rcv_nxt t +u g_len g |> in
  rcv_inv t' /\ rcv_frame t t' /\ m_rcv_nxt t <= m_rcv_nxt t' /\
  forall o D, g_seq g = 0 -> g_len g = 1 -> rcv_stream o D t -> rcv_stream o D t'.
Proof.
  intros [H1 H2 H3 H4 H5] (G1 & G2 & G3) Hs t'. unfold is_u32 in H4.
  assert (E : m_rcv_nxt t' = m_rcv_nxt t + g_len g) by (apply u32_small; unfold is_u32; lia).
  split_and!.
  - split; try done; [unfold is_u32; lia|].
    eapply Forall_impl; [exact H5|]. intros r. unfold saved_fits. rewrite E.
    change (m_rlen t') with (m_rlen t). lia.
  - exists (m_rlist t), (m_rbuf t), (m_rcv_nxt t +u g_len g), (m_rcv_wnd t), (m_rpos t), (m_rlen t).
    by destruct t.
  - lia.
  - intros o D Hs0 Hl1 [K1 K2 K3 K4]. destruct K2 as [(N & L & R & HD)|[? _]]; [|lia].
    split; rewrite ?E; try done.
    + right. change (m_rlen t') with (m_rlen t). change (m_rpos t') with (m_rpos t). lia.
    + intros p Hp. lia.
    + change (m_rlist t') with (m_rlist t). rewrite R. constructor.
Qed.

Lemma process_data_spec t w g fl : rcv_inv t -> trimmed t g ->
  wp (process_data g fl) (fun _ t' w' => w' = w /\ process_data_post t g t') t w.
Proof.
  intros HI Htr. unfold process_data. wp_steps.
  assert (Hstay : process_data_post t g t).
  { split; [done|]. split; [apply rcv_frame_refl|]. split; [lia|done]. }
  destruct (Z.leb_spec (g_len g) 0) as [|Hl1]; [wp_steps; by split|].
  pose proof (tr_safe _ _ Htr) as Hsafe.
  destruct (tr_fits _ _ Htr) as [|[Hseq Hfit]]; [lia|].
  destruct (_ || _) eqn:Hign.
  { wp_steps. split; [done|]. destruct (Z.eqb_spec (g_seq g) (m_rcv_nxt t)) as [Es|]; [|done].
    destruct (skip_data_spec t g HI Hsafe Es) as (? & ? & ? & Hst). split_and!; try done.
    intros o D Hsd [?|[(Hc & _)|(_ & ? & ?)]] Hr; [lia| |by apply Hst].
    rewrite Hsd, Hc, bool_decide_true in Hign by done. done. }
  apply orb_false_iff in Hign as [Hnc Hsd]. apply negb_false_iff, Z.eqb_eq in Hnc.
  wp_step. wp_apply (make_room_spec t w g HI Htr); [lia|].
  intros _ t1 w1 (-> & HI1 & Hf1 & N1 & R1 & Hfit1 & Hst1). wp_steps.
  assert (E1 : g_seq g -u m_rcv_nxt t = g_seq g - m_rcv_nxt t).
  { destruct HI, Hsafe. unfold is_u32 in *. apply u32_small. unfold is_u32. lia. }
  rewrite E1. apply wp_in_bounds.
  { destruct Hsafe as (?&?&?). unfold kRcvBufSize. apply andb_true_iff. split; apply Z.leb_le; lia. }
  wp_steps. rewrite <- N1.
  change (update_field m_rbuf _ t1) with (put_data t1 g).
  destruct (put_data_spec t1 g HI1 Hsafe) as (HI2 & Hf2 & Hst2); [lia..|].
  assert (F : m_rcv_nxt (put_data t1 g) = m_rcv_nxt t1 /\ m_rlist (put_data t1 g) = m_rlist t1 /\
    m_rlen (put_data t1 g) = m_rlen t1 /\ m_rpos (put_data t1 g) = m_rpos t1) by done.
  destruct F as (F1 & F2 & F3 & F4). set (t2 := put_data t1 g) in *. clearbody t2.
  assert (Hstep : forall o D, seg_bytes o g -> rcv_stream o D t -> rcv_stream o D t2).
  { intros o D Hb Hr. apply Hst1 in Hr. destruct (Hst2 o Hb) as [_ Hkeep].
    pose proof (rcv_stream_saved _ _ _ Hr) as Hsv. destruct HI1 as [_ Hp1 _ _ _].
    destruct Hr as [K1 K2 K3 K4]. split; rewrite ?F1, ?F2, ?F3, ?F4; try done.
    - intros p Hp. apply Hkeep; [lia|]. by apply K3.
    - eapply Forall_impl; [exact K4|]. unfold saved_ok. rewrite F1. intros r Hr p Hp Hnp.
      apply Hkeep; [|by apply Hr]. destruct HI2. lia. }
  assert (Hf : rcv_frame t t2) by (by eapply rcv_frame_trans).
  assert (Hhon : forall o, seg_honest o t g -> seg_bytes o g /\ 1 <= m_rcv_nxt t).
  { intros o [?|[(_ & ? & ?)|(? & _)]]; [lia|done|done]. }
  rewrite F1. destruct (Z.eqb_spec (g_seq g) (m_rcv_nxt t1)) as [Es|Hne].
  - destruct (accept_data_spec t2 g HI2 Hsafe) as (HI3 & Hf3 & Hn3 & Hst3); [lia..|].
    destruct (accept_data g t2) as [t3 some]. cbn [fst] in *. wp_steps. split; [done|].
    split; [done|]. split; [by eapply rcv_frame_trans|]. split; [lia|].
    intros o D _ Hh Hr. destruct (Hhon o Hh) as [Hb H1].
    apply Hst3; [by apply Hstep|lia|]. by apply Hst2.
  - destruct (save_data_spec t2 g HI2 Hsafe) as (HI3 & Hf3 & Hst3); [lia..|].
    wp_steps. split; [done|]. split; [done|]. split; [by eapply rcv_frame_trans|].
    split; [change (m_rcv_nxt t <= m_rcv_nxt t2); lia|].
    intros o D _ Hh Hr. destruct (Hhon o Hh) as [Hb H1].
    apply Hst3; [by apply Hstep|lia|]. by apply Hst2.
Qed.

(** ** Reading *)

(** Reading [n] of the readable bytes gives the next [n] bytes of the stream. *)
Lemma read_spec o D t n : rcv_inv t -> rcv_stream o D t -> 0 <= n <= m_rlen t - m_rpos t ->
  zsub (m_rpos t) n (m_rbuf t) = sub (Z.to_nat D) (Z.to_nat n) o.
Proof.
  intros [Hb Hp Hl Hn Hs] [H1 H2 H3 _] Hnn. unfold zsub. apply list_eq. intros i. rewrite !sub_lookup.
  case_decide as Hi; [|done]. destruct H2 as [(?&?&?&?)|[? HD]]; [lia|].
  destruct (H3 (D + Z.of_nat i)) as (b & Hbb & Ho); [lia|].
  replace (Z.to_nat D + i)%nat with (Z.to_nat (D + Z.of_nat i)) by lia.
  rewrite Ho, <- Hbb. f_equal. lia.
Qed.

(** Advancing the read position. *)
Lemma advance_spec t n : rcv_inv t -> 0 <= n <= m_rlen t - m_rpos t ->
  let t' := t <| m_rpos := m_rpos t +u n |> in
  rcv_inv t' /\ m_rpos t' = m_rpos t + n /\ rcv_frame t t' /\
  forall o D, rcv_stream o D t -> 1 <= n -> rcv_stream o (D + n) t'.
Proof.
  intros [H1 H2 H3 H4 H5] Hn t'.
  assert (E : m_rpos t' = m_rpos t + n) by (apply u32_small; unfold is_u32; lia).
  split_and!; [split; try done| |exists (m_rlist t), (m_rbuf t), (m_rcv_nxt t), (m_rcv_wnd t), (m_rpos t'), (m_rlen t)|].
  - rewrite E. change (m_rlen t') with (m_rlen t). lia.
  - done.
  - by destruct t.
  - intros o D [K1 K2 K3 K4] Hn1. split; rewrite ?E; try done.
    + lia.
    + right. change (m_rlen t') with (m_rlen t). change (m_rcv_nxt t') with (m_rcv_nxt t). lia.
    + intros p Hp. apply K3. change (m_rcv_nxt t') with (m_rcv_nxt t) in Hp. lia.
Qed.
