(* ===== verification/TcpConn.v ===== *)
(** * PseudoTcp connections

    The invariant of a connection and the triples of the whole operations:
    every call of the interface keeps it, raises no fault, and writes only
    packets of the stream.  [base_inv] bounds the fields, [live s t] ties the
    send queue to the stream [s] handed over so far; a closed connection has no
    queue left. *)

From S2P Require Import Prelude TimeUtil ByteOrder PseudoTcp TcpLogic TcpSend TcpRecv.
#[local] Open Scope jingle_scope.
Import Tcp.

(** ** The invariant *)

Record base_inv (conv : Z) (t : TCB) : Prop := {
  b_conv : m_conv t = conv;
  b_head : head_inv t;
  b_mss : mss_inv t;
  b_wnd : wnd_ok t;
  b_cwnd : cwnd_ok t;
  b_ssthresh : 1 <= m_ssthresh t;
  b_rto : MIN_RTO <= m_rx_rto t <= MAX_RTO;
  b_mtu : 117 <= m_mtu_advise t <= MAX_PACKET;
  b_rcv : rcv_inv t;
}.

(** [R] is the position up to which the last fast retransmit recovers. *)
Record snd_ok (s : bytes) (P R : Z) (sent unsent : list SSegment) (t : TCB) : Prop := {
  so_inv : send_inv s P sent unsent t;
  so_pos : P < 4294967296;
  so_rto : rto_ok t sent;
  so_recover : m_recover t = u32 R /\ 0 <= R <= P + seg_sum sent;
  so_listen : m_state t = TCP_LISTEN <-> s = [];
}.
Definition live (s : bytes) (t : TCB) : Prop := exists P R sent unsent, snd_ok s P R sent unsent t.

Record tcp_inv (conv : Z) (s : bytes) (t : TCB) : Prop := {
  ti_base : base_inv conv t;
  ti_live : m_state t = TCP_CLOSED \/ live s t;
}.

(** The fields [live] looks at. *)
Definition live_view (t : TCB) :=
  (m_slist t, m_slen t, m_sbuf t, m_snd_una t, m_snd_nxt t, m_rto_base t, m_recover t).

Lemma send_inv_view s P sent unsent t t' :
  live_view t' = live_view t -> send_inv s P sent unsent t -> send_inv s P sent unsent t'.
Proof. unfold live_view. intros E []. split; congruence. Qed.

Lemma snd_ok_view s P R sent unsent t t' : live_view t' = live_view t ->
  (m_state t' = TCP_LISTEN <-> m_state t = TCP_LISTEN) ->
  snd_ok s P R sent unsent t -> snd_ok s P R sent unsent t'.
Proof.
  intros E Es []. assert (m_recover t' = m_recover t /\ m_rto_base t' = m_rto_base t) as [E1 E2]
    by (unfold live_view in E; split; congruence).
  split; try done.
  - by eapply send_inv_view.
  - unfold rto_ok in *. by rewrite E2.
  - by rewrite E1.
  - by rewrite Es.
Qed.

Lemma live_view_eq s t t' : live_view t' = live_view t ->
  (m_state t' = TCP_LISTEN <-> m_state t = TCP_LISTEN) -> live s t -> live s t'.
Proof. intros E Es (P & R & a & b & Hs). exists P, R, a, b. by eapply snd_ok_view. Qed.

(** What a step of the sending side does not touch. *)
Lemma snd_frame_other t t' : snd_frame t t' ->
  m_state t' = m_state t /\ recv_view t' = recv_view t /\ m_conv t' = m_conv t /\
  m_snd_wnd t' = m_snd_wnd t /\ m_ssthresh t' = m_ssthresh t /\ m_rx_rto t' = m_rx_rto t /\
  m_mtu_advise t' = m_mtu_advise t /\ m_recover t' = m_recover t /\ m_snd_una t' = m_snd_una t /\
  m_bReadEnable t' = m_bReadEnable t.
Proof. intros (t1 & sl & nx & rto & (a&b&c&d&e&l&m&cw&->) & ->). split_and!; reflexivity. Qed.

Section Post.
Variable conv : Z.

Lemma base_snd_post s P sent t t' sent' unsent' :
  base_inv conv t -> snd_post s P sent t t' sent' unsent' -> base_inv conv t'.
Proof.
  intros [] Hp. pose proof (snd_frame_other _ _ (sp_frame _ _ _ _ _ _ _ Hp))
    as (E1 & E2 & E3 & E4 & E5 & E6 & E7 & E8 & E9 & _).
  split; unfold wnd_ok; rewrite ?E3, ?E4, ?E5, ?E6, ?E7; try done.
  - apply (snd_frame_keep t t'); [apply Hp|done].
  - apply Hp.
  - by apply Hp.
  - by apply (rcv_inv_view t).
Qed.

Lemma snd_ok_post s P R sent unsent t t' sent' unsent' :
  snd_ok s P R sent unsent t -> snd_post s P sent t t' sent' unsent' ->
  snd_ok s P R sent' unsent' t'.
Proof.
  intros [] Hp. pose proof (snd_frame_other _ _ (sp_frame _ _ _ _ _ _ _ Hp))
    as (E1 & E2 & E3 & E4 & E5 & E6 & E7 & E8 & E9 & _).
  pose proof (sp_sum _ _ _ _ _ _ _ Hp). split; rewrite ?E1, ?E8; try done.
  - apply Hp.
  - by apply Hp.
  - split; [tauto|]. lia.
Qed.

(** Receiving leaves the sending side alone. *)
Lemma base_rcv_frame t t' : base_inv conv t -> rcv_frame t t' -> rcv_inv t' -> base_inv conv t'.
Proof.
  intros [] (l&buf&nxt&wnd&pos&len&->) Hr. split; try done.
  destruct b_head0 as (?&?&?). split_and!; try done. apply Hr.
Qed.
Lemma live_rcv_frame s t t' : live s t -> rcv_frame t t' -> live s t'.
Proof. intros Hl (l&buf&nxt&wnd&pos&len&->). by apply (live_view_eq s t). Qed.
Lemma rcv_frame_state t t' : rcv_frame t t' -> m_state t' = m_state t.
Proof. by intros (l&buf&nxt&wnd&pos&len&->). Qed.
End Post.

(** ** Pure steps *)

Lemma mss_level_spec mtu :
  let r := mss_level PACKET_MAXIMUMS mtu 0 in 0 <= r <= 9 /\ (r < 9 -> 296 <= mtu).
Proof.
  cbn. repeat match goal with |- context [?a <=? mtu] => destruct (Z.leb_spec a mtu) end; lia.
Qed.

Lemma adjustMTU_spec conv s t : base_inv conv t ->
  base_inv conv (adjustMTU t) /\ (live s t -> live s (adjustMTU t)) /\
  recv_view (adjustMTU t) = recv_view t /\ m_mss (adjustMTU t) = m_mtu_advise t - PACKET_OVERHEAD.
Proof.
  intros []. unfold MAX_PACKET in *. change PACKET_OVERHEAD with 116.
  assert (Hmss : m_mtu_advise t -u PACKET_OVERHEAD = m_mtu_advise t - 116)
    by (apply u32_small; unfold is_u32; change PACKET_OVERHEAD with 116; lia).
  unfold adjustMTU. rewrite Hmss.
  destruct (mss_level_spec (m_mtu_advise t)) as [Hl1 Hl2].
  set (level := mss_level _ _ _) in *. clearbody level.
  set (mss := m_mtu_advise t - 116) in *.
  set (t' := update_field m_cwnd _ _).
  assert (E2 : 2 *u mss = 2 * mss) by (apply u32_small; unfold is_u32; lia).
  assert (F : m_mss t' = mss /\ m_msslevel t' = level /\ m_cwnd t' = Z.max (m_cwnd t) mss /\
    m_ssthresh t' = Z.max (m_ssthresh t) (2 *u mss) /\ live_view t' = live_view t /\
    recv_view t' = recv_view t /\ m_state t' = m_state t /\ m_conv t' = m_conv t /\
    (head_inv t -> head_inv t') /\ m_snd_wnd t' = m_snd_wnd t /\ m_rx_rto t' = m_rx_rto t /\
    m_mtu_advise t' = m_mtu_advise t) by done.
  destruct F as (F1 & F2 & F3 & F4 & F5 & F6 & F7 & F8 & F9 & F10 & F11 & F12). clearbody t'.
  split; [|split; [|done]].
  - split; unfold mss_inv, wnd_ok, cwnd_ok; rewrite ?F1, ?F2, ?F3, ?F4, ?F8, ?F10, ?F11, ?F12; auto.
    + subst mss. repeat split; lia.
    + unfold cwnd_ok, is_u32 in *. subst mss. lia.
    + lia.
    + by apply (rcv_inv_view t).
  - apply live_view_eq; [done|]. by rewrite F7.
Qed.

(** ** The triples *)

(** [base_inv] after an update of fields it does not bound. *)
Ltac base_keep HB :=
  destruct HB; split; try done; try (eapply rcv_inv_view; [|eassumption]; done).

Section Triples.
Context `{Platform}.
Variable clock : nat -> Z.
Variable network : nat -> WriteResult.
Variable conv : Z.

(** Postcondition shared by the steps: still a connection with the same
    receiving side, and only packets of the stream were written. *)
Definition kept (s : bytes) (t t' : TCB) (w' : World) : Prop :=
  tcp_inv conv s t' /\ evs_ok conv s w' /\ recv_view t' = recv_view t.
Definition kept_live (s : bytes) (t t' : TCB) (w' : World) : Prop :=
  base_inv conv t' /\ live s t' /\ evs_ok conv s w' /\ recv_view t' = recv_view t.

Lemma kept_live_kept s t t' w' : kept_live s t t' w' -> kept s t t' w'.
Proof. intros (? & ? & ? & ?). split; [|done]. split; [done|by right]. Qed.

Lemma closedown_spec s t w err : base_inv conv t -> evs_ok conv s w ->
  wp (closedown err) (fun _ t' w' => kept s t t' w' /\ m_state t' = TCP_CLOSED) t w.
Proof.
  intros HB Hev. unfold closedown. wp_steps. split; [|done]. split; [|split; [by apply evs_ok_emit|done]].
  split; [|by left]. base_keep HB.
Qed.

Lemma update_rtt_spec t w now tsecr : base_inv conv t ->
  tsecr = 0 \/ 0 <= TimeDiff now tsecr ->
  wp (update_rtt now tsecr) (fun _ t' w' => w' = w /\ base_inv conv t' /\
    live_view t' = live_view t /\ recv_view t' = recv_view t /\ m_state t' = m_state t) t w.
Proof.
  intros HB Hr. unfold update_rtt. destruct (Z.eqb_spec tsecr 0); [by wp_steps|].
  wp_steps. apply wp_assert; [apply Z.leb_le; lia|]. wp_steps.
  set (t1 := if m_rx_srtt t =? 0 then _ else _). cbv zeta.
  assert (F : base_inv conv t1 /\ live_view t1 = live_view t /\ recv_view t1 = recv_view t /\
    m_state t1 = m_state t).
  { unfold t1. destruct (m_rx_srtt t =? 0); (split; [base_keep HB|done]). }
  destruct F as (F1 & F2 & F3 & F4). clearbody t1.
  split; [done|]. split; [|done]. base_keep F1.
  cbn [m_rx_rto update_field]. unfold bound, MIN_RTO, MAX_RTO. lia.
Qed.

Lemma nil_length_0 (s : bytes) : Z.of_nat (length s) = 0 <-> s = [].
Proof. destruct s; simpl; split; (done || lia). Qed.

Lemma snd_ok_empty s P R sent unsent t : snd_ok s P R sent unsent t ->
  P + m_slen t = 0 <-> m_state t = TCP_LISTEN.
Proof.
  intros HS. rewrite (so_listen _ _ _ _ _ _ HS), <- nil_length_0.
  by rewrite (si_end _ _ _ _ _ (so_inv _ _ _ _ _ _ HS)).
Qed.

(** Queueing while the connection is open: data once it has left LISTEN, the
    connect message when it leaves it. *)
Lemma queue_kept s t w data (bCtrl : bool) st : base_inv conv t -> live s t -> evs_ok conv s w ->
  (if bCtrl then m_state t = TCP_LISTEN /\ data = [mkbyte CTL_CONNECT] /\ st <> TCP_LISTEN
   else m_state t <> TCP_LISTEN /\ st = m_state t) ->
  Z.of_nat (length data) < 4294967296 ->
  wp (queue data (u32 (Z.of_nat (length data))) bCtrl)
    (fun r t' w' => w' = w /\ r = Z.min (Z.of_nat (length data)) (kSndBufSize - m_slen t) /\
      base_inv conv t' /\ live (s ++ take (Z.to_nat r) data) t' /\
      recv_view t' = recv_view t /\ m_state t' = st /\
      m_snd_una t' = m_snd_una t /\ m_snd_nxt t' = m_snd_nxt t) (t <| m_state := st |>) w.
Proof.
  intros HB (P & R & sent & unsent & HS) Hev Hst Hbig.
  pose proof (so_inv _ _ _ _ _ _ HS) as HI. pose proof (snd_ok_empty _ _ _ _ _ _ HS) as Hemp.
  pose proof (si_pos _ _ _ _ _ HI) as HP. pose proof (inflight _ _ _ _ _ HI) as (_ & Hs0 & Hs1).
  assert (HI1 : send_inv s P sent unsent (t <| m_state := st |>)) by (by apply (send_inv_view s P sent unsent t)).
  rewrite u32_small by (unfold is_u32; lia).
  eapply wp_mono.
  { apply (queue_spec s P sent unsent _ w data _ bCtrl HI1); [lia| |].
    - change (m_slen (t <| m_state := st |>)) with (m_slen t). destruct bCtrl; symmetry.
      + apply Z.eqb_eq. tauto.
      + apply Z.eqb_neq. tauto.
    - intros ->. destruct Hst as (Hl & -> & _). split; [done|].
      change (m_slist t = []). apply Hemp in Hl. rewrite (si_slist _ _ _ _ _ HI).
      pose proof (si_sum _ _ _ _ _ HI) as Hsum. pose proof (si_chain _ _ _ _ _ HI) as Hc.
      destruct (sent ++ unsent) as [|x l] eqn:El; [done|exfalso].
      rewrite (si_slist _ _ _ _ _ HI), El in Hc, Hsum. destruct Hc as (_ & _ & _ & Hct & Hl1 & Hc).
      apply chain_sum_nonneg in Hc. cbn [seg_sum] in Hsum.
      rewrite Hct in Hl1. destruct (Z.eqb_spec P 0); [|lia]. specialize (Hl1 eq_refl). lia. }
  cbv beta zeta. change (m_slen (t <| m_state := st |>)) with (m_slen t).
  set (n := Z.min _ _). intros r t' w' (unsent' & sl & sb & -> & -> & HI' & Ht').
  assert (F : base_inv conv t' /\ recv_view t' = recv_view t /\ m_state t' = st /\
    m_rto_base t' = m_rto_base t /\ m_recover t' = m_recover t /\
    m_snd_una t' = m_snd_una t /\ m_snd_nxt t' = m_snd_nxt t).
  { rewrite Ht'. split; [base_keep HB|done]. }
  destruct F as (F1 & F2 & F3 & F4 & F5 & F6 & F7). clear Ht'.
  split_and!; try done. exists P, R, sent, unsent'. destruct HS. split; try done.
  - unfold rto_ok. by rewrite F4.
  - by rewrite F5.
  - rewrite F3, <- nil_length_0, length_app, length_take. destruct bCtrl.
    + destruct Hst as (Hl & -> & Hne). split; [done|]. apply Hemp in Hl. subst n.
      unfold kSndBufSize in *. cbn [length]. lia.
    + destruct Hst as [Hl ->]. split; [done|]. rewrite <- Hemp in Hl.
      pose proof (si_end _ _ _ _ _ HI). lia.
Qed.

(** Going to ESTABLISHED. *)
Lemma establish_spec s t w : base_inv conv t -> live s t -> m_state t <> TCP_LISTEN -> evs_ok conv s w ->
  let t' := adjustMTU (t <| m_state := TCP_ESTABLISHED |>) in
  kept_live s t t' (mkWorld (w_ticks w) (w_writes w) (w_events w ++ [OnTcpOpen])) /\
  m_state t' = TCP_ESTABLISHED /\ m_snd_una t' = m_snd_una t /\ m_snd_nxt t' = m_snd_nxt t /\
  m_slist t' = m_slist t.
Proof.
  intros HB HL Hst Hev. cbv zeta. set (t1 := t <| m_state := TCP_ESTABLISHED |>).
  assert (HB1 : base_inv conv t1) by (base_keep HB).
  assert (HL1 : live s t1) by (apply (live_view_eq s t); [done|by split|done]).
  destruct (adjustMTU_spec conv s t1 HB1) as (HB2 & HL2 & Hv & _).
  split; [|done]. split_and!; [done|by apply HL2|by apply evs_ok_emit|done].
Qed.

Lemma listen_idle s t : live s t -> m_state t = TCP_LISTEN -> m_snd_nxt t = m_snd_una t /\ s = [].
Proof.
  intros (P & R & sent & unsent & HS) Hl. split; [|by apply (so_listen _ _ _ _ _ _ HS)].
  apply (snd_ok_empty _ _ _ _ _ _ HS) in Hl. pose proof (so_inv _ _ _ _ _ _ HS) as HI.
  pose proof (si_pos _ _ _ _ _ HI). destruct (inflight _ _ _ _ _ HI) as (_ & ? & _).
  rewrite (si_una _ _ _ _ _ HI), (si_nxt _ _ _ _ _ HI). f_equal. lia.
Qed.

Lemma process_control_spec s t w g : base_inv conv t -> live s t -> evs_ok conv s w ->
  (g_len g <> 0 -> g_data g <> []) ->
  wp (process_control g) (fun r t' w' => exists s', kept_live s' t t' w' /\
     (s' = s \/ s = [] /\ s' = [mkbyte CTL_CONNECT]) /\
     m_snd_una t' = m_snd_una t /\ m_snd_nxt t' = m_snd_nxt t /\
     (m_snd_una t <> m_snd_nxt t -> m_slist t' = m_slist t)) t w.
Proof.
  intros HB HL Hev Hd. unfold process_control.
  assert (Hid : exists s', kept_live s' t t w /\ (s' = s \/ s = [] /\ s' = [mkbyte CTL_CONNECT]) /\
    m_snd_una t = m_snd_una t /\ m_snd_nxt t = m_snd_nxt t /\
    (m_snd_una t <> m_snd_nxt t -> m_slist t = m_slist t)).
  { exists s. split; [by split_and!|]. split; [by left|done]. }
  destruct (_ =? 0); [by wp_steps|]. destruct (Z.eqb_spec (g_len g) 0); [by wp_steps|].
  destruct (g_data g) as [|c data]; [by destruct Hd|].
  destruct (_ =? _); [|by wp_steps]. wp_steps.
  destruct (m_state t) eqn:Hst; try by wp_steps.
  - destruct (listen_idle s t HL Hst) as [Hidle ->]. wp_steps.
    eapply wp_mono; [exact (queue_kept [] t w [mkbyte CTL_CONNECT] true TCP_SYN_RECEIVED HB HL Hev
      ltac:(done) ltac:(done))|].
    cbv beta. intros r t' w' (-> & Hr & HB' & HL' & Hv & _ & Hu & Hn). wp_steps.
    assert (Hr1 : r = 1).
    { destruct HL as (P & R & sent & unsent & HS). apply (snd_ok_empty _ _ _ _ _ _ HS) in Hst.
      pose proof (si_pos _ _ _ _ _ (so_inv _ _ _ _ _ _ HS)).
      destruct (inflight _ _ _ _ _ (so_inv _ _ _ _ _ _ HS)) as (_ & ? & _).
      rewrite Hr. unfold kSndBufSize. simpl. lia. }
    rewrite Hr1 in HL'. exists [mkbyte CTL_CONNECT]. split; [|split; [by right|]].
    + split_and!; try done. apply (evs_ok_app _ [] _ w Hev).
    + by split_and!.
  - destruct (establish_spec s t w) as (Hk & _ & Hu & Hn & Hl); try done; [by rewrite Hst|].
    wp_steps. exists s. split; [done|]. split; [by left|done].
Qed.

(** *** Acknowledgements *)

Definition went_on (s : bytes) (t : TCB) (ok : bool) (t' : TCB) (w' : World) : Prop :=
  if ok then kept_live s t t' w' else kept s t t' w' /\ m_state t' = TCP_CLOSED.

Lemma in_flight_sent s P sent unsent t : send_inv s P sent unsent t ->
  m_snd_una t <> m_snd_nxt t <-> sent <> [].
Proof.
  intros HI. rewrite (si_una _ _ _ _ _ HI), (si_nxt _ _ _ _ _ HI).
  destruct (inflight _ _ _ _ _ HI) as (_ & ? & ?). pose proof (si_sent _ _ _ _ _ HI) as Hs.
  destruct sent as [|x sent]; [simpl; rewrite Z.add_0_r; tauto|]. split; [done|]. intros _.
  apply Forall_cons in Hs as [[Hx _] Hs].
  assert (0 <= seg_sum sent) by (clear -Hs; induction Hs; simpl; lia).
  cbn [seg_sum] in *. pose proof (si_pos _ _ _ _ _ HI). word_lia.
Qed.

Lemma recover_in_flight s t : live s t -> m_snd_una t < m_recover t -> m_snd_una t <> m_snd_nxt t.
Proof.
  intros (P & R & sent & unsent & HS) Hlt. pose proof (so_inv _ _ _ _ _ _ HS) as HI.
  apply (in_flight_sent _ _ _ _ _ HI). intros ->.
  pose proof (so_pos _ _ _ _ _ _ HS). pose proof (si_pos _ _ _ _ _ HI).
  destruct (so_recover _ _ _ _ _ _ HS) as [Hr HR]. rewrite Hr, (si_una _ _ _ _ _ HI) in Hlt.
  cbn [seg_sum] in HR. rewrite !u32_small in Hlt by (unfold is_u32; lia). lia.
Qed.

Lemma retransmit_kept s t w now : base_inv conv t -> live s t -> evs_ok conv s w ->
  m_snd_una t <> m_snd_nxt t ->
  wp (transmit clock network 0 now) (fun _ t' w' => kept_live s t t' w' /\
    m_snd_una t' <> m_snd_nxt t' /\ m_state t' = m_state t) t w.
Proof.
  intros HB (P & R & sent & unsent & HS) Hev Hne. pose proof (so_inv _ _ _ _ _ _ HS) as HI.
  pose proof (b_conv _ _ HB) as Hconv. apply (in_flight_sent _ _ _ _ _ HI) in Hne as Hs.
  eapply wp_mono; [apply (retransmit_spec clock network s P sent unsent t w now); try done|].
  - apply HB.
  - apply HB.
  - by rewrite Hconv.
  - cbv beta. rewrite Hconv. intros _ t' w' (sent' & Hp & Hev' & Hsum & Hne' & _).
    pose proof (snd_frame_other _ _ (sp_frame _ _ _ _ _ _ _ Hp)) as (E1 & E2 & _).
    split; [split_and!; try done|split; [|done]].
    + by apply (base_snd_post conv s P sent t t' sent' unsent).
    + exists P, R, sent', unsent. by apply (snd_ok_post s P R sent unsent t).
    + apply (in_flight_sent _ _ _ _ _ (sp_inv _ _ _ _ _ _ _ Hp)). done.
Qed.

(** Updates of the congestion fields. *)
Lemma kept_live_cong s t t' w' cw dup : kept_live s t t' w' -> is_u32 cw ->
  kept_live s t (t' <| m_cwnd := cw |> <| m_dup_acks := dup |>) w'.
Proof.
  intros (HB & HL & Hev & Hv) Hcw. split_and!; try done.
  - base_keep HB.
  - by apply (live_view_eq s t').
Qed.
Lemma kept_live_cwnd s t t' w' cw : kept_live s t t' w' -> is_u32 cw ->
  kept_live s t (t' <| m_cwnd := cw |>) w'.
Proof.
  intros (HB & HL & Hev & Hv) Hcw. split_and!; try done.
  - base_keep HB.
  - by apply (live_view_eq s t').
Qed.

Lemma ack_congestion_spec s t w nAcked now : base_inv conv t -> live s t -> evs_ok conv s w ->
  wp (ack_congestion clock network nAcked now) (fun ok t' w' => went_on s t ok t' w') t w.
Proof.
  intros HB HL Hev. unfold ack_congestion. wp_step.
  assert (Hself : kept_live s t t w) by (by split_and!).
  pose proof (b_ssthresh _ _ HB). pose proof (b_cwnd _ _ HB) as Hcw. unfold cwnd_ok, is_u32 in Hcw.
  wp_step. destruct (Z.leb_spec 3 (m_dup_acks t)).
  - destruct (Z.leb_spec (m_recover t) (m_snd_una t)).
    + wp_steps. apply kept_live_cong; [done|].
      pose proof (u32_range (u32 (m_snd_nxt t - m_snd_una t) + m_mss t)). unfold is_u32 in *. lia.
    + wp_step. eapply wp_mono; [apply (retransmit_kept s); try done; by apply (recover_in_flight s)|].
      cbv beta. intros ok t' w' (Hk & _ & Hst). destruct ok.
      * wp_steps. apply kept_live_cwnd; [done|]. apply u32_range.
      * wp_step. destruct Hk as (HB' & HL' & Hev' & Hv').
        eapply wp_mono; [by apply (closedown_spec s)|]. cbv beta.
        intros _ t2 w2 (Hk & Hc). wp_steps. split; [|done]. destruct Hk as (? & ? & ?).
        split_and!; try done. congruence.
  - wp_steps. change (m_cwnd (t <| m_dup_acks := 0 |>)) with (m_cwnd t).
    change (m_ssthresh (t <| m_dup_acks := 0 |>)) with (m_ssthresh t).
    assert (Hup : forall cw, is_u32 cw ->
      kept_live s t (t <| m_dup_acks := 0 |> <| m_cwnd := cw |>) w).
    { intros cw Hc. split_and!; try done; [base_keep HB|by apply (live_view_eq s t)]. }
    destruct (Z.ltb_spec (m_cwnd t) (m_ssthresh t)).
    + wp_steps. apply Hup, u32_range.
    + destruct (Z.eqb_spec (m_cwnd t) 0); [lia|]. wp_steps. apply Hup, u32_range.
Qed.

Lemma ack_notify_spec s t w bConnect : base_inv conv t -> live s t -> evs_ok conv s w ->
  wp (ack_notify bConnect) (fun _ t' w' => kept_live s t t' w') t w.
Proof.
  intros HB HL Hev. unfold ack_notify. wp_steps.
  set (Q := fun t' w' => kept_live s t t' w').
  assert (Hlast : forall t1 w1, kept_live s t t1 w1 ->
    wp (t ← get; if m_bWriteEnable t && (m_slen t <? kIdealRefillSize) then
         modify (fun t => t <| m_bWriteEnable := false |>);; emit OnTcpWriteable
       else mret tt) (fun _ => Q) t1 w1).
  { intros t1 w1 (HB1 & HL1 & Hev1 & Hv1). wp_steps. destruct (_ && _); wp_steps; [|by split_and!].
    split_and!; try done; [base_keep HB1|by apply (live_view_eq s t1)|by apply evs_ok_emit]. }
  destruct (bool_decide (m_state t = TCP_SYN_RECEIVED) && negb bConnect) eqn:Hc.
  - apply andb_true_iff in Hc as [Hst%bool_decide_eq_true _].
    destruct (establish_spec s t w) as (Hk & _); try done; [by rewrite Hst|].
    wp_step. wp_step. wp_step. apply Hlast. exact Hk.
  - wp_step. apply Hlast. by split_and!.
Qed.

(** A valuable acknowledgement releases the segments before it. *)
Lemma free_acked_kept s t w ack now wnd : base_inv conv t -> live s t ->
  m_snd_una t < ack <= m_snd_nxt t -> ack_boundary t ack -> 0 <= wnd <= 65535 ->
  wp (free_acked (ack -u m_snd_una t))
    (fun _ t' w' => w' = w /\ base_inv conv t' /\ live s t' /\ recv_view t' = recv_view t)
    (t <| m_snd_wnd := wnd |> <| m_snd_una := ack |>
       <| m_rto_base := if ack =? m_snd_nxt t then 0 else now |>) w.
Proof.
  intros HB (P & R & sent & unsent & HS) Hack Hbd Hwnd. pose proof (so_inv _ _ _ _ _ _ HS) as HI.
  destruct (inflight _ _ _ _ _ HI) as (Hin & Hsum & Hbig).
  pose proof (si_pos _ _ _ _ _ HI) as HP. pose proof (so_pos _ _ _ _ _ _ HS) as HP32.
  assert (Huna : m_snd_una t = P) by (rewrite (si_una _ _ _ _ _ HI); apply u32_small; unfold is_u32; lia).
  assert (Hnxt : is_u32 (m_snd_nxt t)) by (rewrite (si_nxt _ _ _ _ _ HI); apply u32_range).
  unfold is_u32 in Hnxt. rewrite Huna in *.
  assert (Hn : ack -u P = ack - P) by (apply u32_small; unfold is_u32; lia).
  assert (Hle : ack -u m_snd_una t <= seg_sum sent).
  { rewrite Huna, Hn, <- Hin, u32_small by (unfold is_u32; lia). lia. }
  destruct (ack_boundary_sent _ _ _ _ _ _ HI Hbd Hle) as [k0 Hk0]. rewrite Huna in Hk0.
  assert (Hk : exists k, (k <= length sent)%nat /\ ack -u P = seg_sum (take k sent)).
  { exists (Nat.min k0 (length sent)). split; [lia|]. rewrite Hk0. f_equal.
    destruct (decide (k0 <= length sent)%nat); [by rewrite Nat.min_l by lia|].
    rewrite Nat.min_r by lia. rewrite firstn_all. apply take_ge. lia. }
  destruct Hk as (k & Hkl & Hk). set (t1 := update_field m_rto_base _ _).
  assert (F : m_slist t1 = m_slist t /\ m_slen t1 = m_slen t /\ m_sbuf t1 = m_sbuf t /\
    m_snd_nxt t1 = m_snd_nxt t /\ m_snd_una t1 = ack /\
    m_rto_base t1 = (if ack =? m_snd_nxt t then 0 else now) /\ m_recover t1 = m_recover t /\
    m_state t1 = m_state t /\ recv_view t1 = recv_view t) by done.
  assert (HB1 : base_inv conv t1) by (base_keep HB).
  destruct F as (F1 & F2 & F3 & F4 & F5 & F6 & F7 & F8 & F9). clearbody t1.
  rewrite Hk. eapply wp_mono.
  { apply (free_acked_spec clock network s P sent unsent t t1 w k); try done.
    rewrite F5, <- Hk, Hn, u32_small by (unfold is_u32; lia). lia. }
  cbv beta. intros _ t' w' (sl & sb & lg & -> & HI' & ->).
  set (t2 := update_field m_largest _ _) in *.
  assert (G : m_recover t2 = m_recover t1 /\ m_rto_base t2 = m_rto_base t1 /\
    m_state t2 = m_state t1 /\ recv_view t2 = recv_view t1) by done.
  assert (HB2 : base_inv conv t2) by (base_keep HB1).
  destruct G as (G1 & G2 & G3 & G4). clearbody t2. rewrite <- Hk, Hn in HI'.
  split; [done|]. split; [done|]. split; [|congruence].
  assert (Hsplit : seg_sum sent = ack - P + seg_sum (drop k sent)).
  { rewrite <- Hn, Hk, <- seg_sum_app, take_drop. done. }
  exists (P + (ack - P)), R, (drop k sent), unsent. destruct HS. split; try done.
  - lia.
  - unfold rto_ok. rewrite G2, F6. destruct (Z.eqb_spec ack (m_snd_nxt t)) as [|Hne]; [done|].
    intros _ Hnil. rewrite Hnil in Hsplit. cbn [seg_sum] in Hsplit.
    rewrite (si_nxt _ _ _ _ _ HI) in Hne, Hnxt, Hack. rewrite Hsplit in *.
    assert (P + (ack - P + 0) = ack) as E by lia. rewrite E in *.
    rewrite u32_small in Hne; [done|]. unfold is_u32.
    assert (ack < 4294967296) by lia. lia.
  - rewrite G1, F7. split; [tauto|]. lia.
  - by rewrite G3, F8.
Qed.

Lemma went_on_trans s t t1 ok t2 w2 : recv_view t1 = recv_view t ->
  went_on s t1 ok t2 w2 -> went_on s t ok t2 w2.
Proof.
  intros Hv. destruct ok; simpl.
  - intros (?&?&?&?). split_and!; try done. congruence.
  - intros ((?&?&?)&?). split; [|done]. split_and!; try done. congruence.
Qed.

Lemma valuable_ack_spec s t w g now bConnect : base_inv conv t -> live s t -> evs_ok conv s w ->
  m_snd_una t < g_ack g <= m_snd_nxt t -> ack_boundary t (g_ack g) -> 0 <= g_wnd g <= 65535 ->
  g_tsecr g = 0 \/ 0 <= TimeDiff now (g_tsecr g) ->
  wp (valuable_ack clock network g now bConnect) (fun ok t' w' => went_on s t ok t' w') t w.
Proof.
  intros HB HL Hev Hack Hbd Hwnd Hts. unfold valuable_ack. wp_step.
  wp_apply (update_rtt_spec t w now (g_tsecr g) HB Hts).
  intros _ t1 w1 (-> & HB1 & Hlv & Hv1 & Hst1).
  assert (HL1 : live s t1) by (apply (live_view_eq s t); [done|by rewrite Hst1|done]).
  assert (E : m_snd_una t1 = m_snd_una t /\ m_snd_nxt t1 = m_snd_nxt t /\ m_slist t1 = m_slist t)
    by (unfold live_view in Hlv; split_and!; congruence).
  destruct E as (E1 & E2 & E3).
  assert (Hbd1 : ack_boundary t1 (g_ack g)) by (unfold ack_boundary; by rewrite E1, E3).
  rewrite <- E1, <- E2 in Hack.
  wp_step. wp_step. wp_step. wp_step. wp_step.
  wp_apply (free_acked_kept s t1 w (g_ack g) now (g_wnd g) HB1 HL1 Hack Hbd1 Hwnd).
  intros _ t2 w2 (-> & HB2 & HL2 & Hv2). wp_step.
  wp_apply (ack_congestion_spec s t2 w (g_ack g -u m_snd_una t1) now HB2 HL2 Hev).
  intros ok t3 w3 Hk. destruct ok.
  - destruct Hk as (HB3 & HL3 & Hev3 & Hv3). wp_step.
    wp_apply (ack_notify_spec s t3 w3 bConnect HB3 HL3 Hev3).
    intros _ t4 w4 (?&?&?&?). wp_steps. split_and!; try done. congruence.
  - wp_steps. apply (went_on_trans s t t2 false); [congruence|done].
Qed.

Lemma live_recover s t ssth cw : live s t ->
  live s (t <| m_recover := m_snd_nxt t |> <| m_ssthresh := ssth |> <| m_cwnd := cw |>).
Proof.
  intros (P & R & sent & unsent & []). exists P, (P + seg_sum sent), sent, unsent.
  split; try done.
  - destruct so_inv0. by split.
  - destruct (inflight _ _ _ _ _ so_inv0) as (_ & ? & _). pose proof (si_pos _ _ _ _ _ so_inv0).
    split; [apply so_inv0|lia].
Qed.

Lemma fast_retransmit_spec s t w now : base_inv conv t -> live s t -> evs_ok conv s w ->
  m_snd_una t <> m_snd_nxt t ->
  wp (ok ← transmit clock network 0 now;
      if ok : bool then
        modify (fun t =>
          let nInFlight := m_snd_nxt t -u m_snd_una t in
          let ssthresh := Z.max (nInFlight / 2) (2 *u m_mss t) in
          t <| m_recover := m_snd_nxt t |> <| m_ssthresh := ssthresh |>
            <| m_cwnd := ssthresh +u (3 *u m_mss t) |>);;
        mret true
      else closedown ECONNABORTED;; mret false)
    (fun ok t' w' => went_on s t ok t' w') t w.
Proof.
  intros HB HL Hev Hne. wp_step. wp_apply (retransmit_kept s t w now HB HL Hev Hne).
  intros ok t1 w1 ((HB1 & HL1 & Hev1 & Hv1) & _). destruct ok.
  - wp_steps. cbv zeta. set (ssth := Z.max _ _). set (cw := u32 (ssth + _)).
    assert (Hssth : 1 <= ssth).
    { destruct (b_mss _ _ HB1) as (? & _). unfold ssth. rewrite (u32_small (2 * m_mss t1)); [lia|].
      unfold is_u32. lia. }
    assert (Hcw : is_u32 cw) by apply u32_range. clearbody ssth cw.
    split_and!; [base_keep HB1|by apply live_recover|done|done].
  - wp_step. wp_apply (closedown_spec s t1 w1 ECONNABORTED HB1 Hev1).
    intros _ t2 w2 (Hk & Hc). wp_steps. by apply (went_on_trans s t t1 false).
Qed.

Lemma duplicate_ack_spec s t w g now : base_inv conv t -> live s t -> evs_ok conv s w ->
  0 <= g_wnd g <= 65535 ->
  wp (duplicate_ack clock network g now) (fun ok t' w' => went_on s t ok t' w') t w.
Proof.
  intros HB HL Hev Hwnd. unfold duplicate_ack. wp_step. wp_step. wp_step. wp_step.
  set (t1 := t <| m_snd_wnd := g_wnd g |>).
  assert (F : base_inv conv t1 /\ live s t1 /\ recv_view t1 = recv_view t).
  { split_and!; [base_keep HB|by apply (live_view_eq s t)|done]. }
  destruct F as (HB1 & HL1 & Hv1). clearbody t1.
  assert (Hid : went_on s t true t1 w) by (by split_and!).
  destruct (0 <? g_len g); [by wp_steps|].
  destruct (Z.eqb_spec (m_snd_una t1) (m_snd_nxt t1)) as [|Hne]; cbn [negb].
  - wp_steps. split_and!; try done; [base_keep HB1|by apply (live_view_eq s t1)].
  - wp_step. wp_step. wp_step. wp_step. 
    set (t3 := update_field m_dup_acks _ t1).
    assert (G : base_inv conv t3 /\ live s t3 /\ recv_view t3 = recv_view t /\
      m_snd_una t3 <> m_snd_nxt t3).
    { split_and!; [base_keep HB1|by apply (live_view_eq s t1)|done|done]. }
    destruct G as (HB3 & HL3 & Hv3 & Hne3). clearbody t3.
    destruct (m_dup_acks t3 =? 3).
    + eapply wp_mono; [by apply (fast_retransmit_spec s)|]. cbv beta. intros ok t4 w4.
      by apply went_on_trans.
    + wp_steps. destruct (3 <? m_dup_acks t3); [|by split_and!].
      split_and!; try done; [base_keep HB3; apply u32_range|by apply (live_view_eq s t3)].
Qed.

(** What the sender of a segment must know of this connection: it acknowledges
    whole segments, and echoes a time stamp of the past. *)
Definition ack_ok (t : TCB) (now : Z) (g : Segment) : Prop :=
  m_snd_una t < g_ack g <= m_snd_nxt t ->
  ack_boundary t (g_ack g) /\ (g_tsecr g = 0 \/ 0 <= TimeDiff now (g_tsecr g)).

Lemma process_ack_spec s t w g now bConnect : base_inv conv t -> live s t -> evs_ok conv s w ->
  0 <= g_wnd g <= 65535 -> ack_ok t now g ->
  wp (process_ack clock network g now bConnect) (fun ok t' w' => went_on s t ok t' w') t w.
Proof.
  intros HB HL Hev Hwnd Hok. unfold process_ack. wp_steps.
  destruct ((m_snd_una t <? g_ack g) && (g_ack g <=? m_snd_nxt t)) eqn:Hc.
  - apply andb_true_iff in Hc as [Hc1%Z.ltb_lt Hc2%Z.leb_le].
    destruct (Hok (conj Hc1 Hc2)). by apply valuable_ack_spec.
  - destruct (_ =? _); [by apply duplicate_ack_spec|]. wp_steps. by split_and!.
Qed.

(** *** Data *)

Lemma attemptSend_kept s t w fl : base_inv conv t -> live s t -> evs_ok conv s w ->
  wp (attemptSend clock network fl) (fun _ t' w' => kept_live s t t' w' /\
    m_state t' = m_state t /\ m_bReadEnable t' = m_bReadEnable t) t w.
Proof.
  intros HB (P & R & sent & unsent & HS) Hev. pose proof (b_conv _ _ HB) as Hconv.
  eapply wp_mono; [apply (attemptSend_spec clock network s P sent unsent fl t w)|]; try apply HB.
  - apply HS.
  - by rewrite Hconv.
  - cbv beta. rewrite Hconv. intros _ t' w' (sent' & unsent' & Hp & Hev').
    pose proof (snd_frame_other _ _ (sp_frame _ _ _ _ _ _ _ Hp))
      as (E1 & E2 & _ & _ & _ & _ & _ & _ & _ & E3).
    split; [split_and!; try done|by split].
    + by apply (base_snd_post conv s P sent t t' sent' unsent').
    + exists P, R, sent', unsent'. by apply (snd_ok_post s P R sent unsent t).
Qed.

(** The receiving side moved on along the honest peer's stream. *)
Definition rcv_advance (t : TCB) (g : Segment) (t' : TCB) : Prop :=
  m_shutdown t' = m_shutdown t /\
  forall o D, m_shutdown t = SD_NONE -> seg_honest o t g -> rcv_stream o D t -> rcv_stream o D t'.

Lemma rcv_advance_view t g t' : recv_view t' = recv_view t -> rcv_advance t g t'.
Proof.
  intros E. split; [unfold recv_view in E; congruence|]. intros. by apply (rcv_stream_view o D t).
Qed.

Lemma trim_honest o t g : rcv_inv t -> seg_safe g -> seg_honest o t g ->
  seg_honest o t (trim_new t (trim_old t g)).
Proof.
  intros HI Hg Hh. destruct (trim_spec t g HI Hg) as (_ & Hf & Hn & Hl & Hs & He & Hb).
  unfold seg_honest. rewrite Hf. destruct Hh as [?|[(?&?&?)|(?&?&?)]].
  - left. lia.
  - right. left. auto.
  - destruct (decide (g_len (trim_new t (trim_old t g)) = 0)); [by left|]. right. right.
    destruct HI. unfold is_u32 in *. split; [done|]. lia.
Qed.

Lemma process_rest_spec s t w g : base_inv conv t -> live s t -> evs_ok conv s w -> seg_safe g ->
  wp (process_rest clock network g) (fun _ t' w' =>
    base_inv conv t' /\ live s t' /\ evs_ok conv s w' /\ rcv_advance t g t') t w.
Proof.
  intros HB HL Hev Hg. unfold process_rest. wp_steps.
  destruct (trim_spec t g (b_rcv _ _ HB) Hg) as (Htr & _).
  wp_apply (process_data_spec t w (trim_new t (trim_old t g)) (ack_flags t g) (b_rcv _ _ HB) Htr).
  intros [fl bNew] t1 w1 (-> & Hr1 & Hf1 & _ & Hst1).
  assert (Hsd : m_shutdown t1 = m_shutdown t) by (by destruct Hf1 as (?&?&?&?&?&?&->)).
  wp_step. eapply wp_mono.
  { apply (attemptSend_kept s); [by apply (base_rcv_frame conv t)|by apply (live_rcv_frame s t)|done]. }
  cbv beta. intros _ t2 w2 ((HB2 & HL2 & Hev2 & Hv2) & _). wp_steps.
  assert (Hadv : rcv_advance t g t2).
  { split; [unfold recv_view in Hv2; congruence|]. intros o D Hn Hh Hr.
    apply (rcv_stream_view o D t1); [done|]. apply Hst1; [done| |done].
    apply trim_honest; [apply HB|done|done]. }
  destruct (_ && _); wp_steps; split_and!; try done.
  - base_keep HB2.
  - by apply (live_view_eq s t2).
  - by apply evs_ok_emit.
  - destruct Hadv as [Ha1 Ha2]. split; [done|]. intros o D H1 H2 H3.
    apply (rcv_stream_view o D t2); [done|auto].
Qed.
End Triples.
