(* ===== verification/TcpMain.v ===== *)
(** * PseudoTcp: the interface, and what holds of every run

    The triples of the calls of the interface; the calls as steps
    ([run_call]), and the states reachable from a fresh connection by calls
    that satisfy [call_ok]: safety, delivery in order, the contents of packets,
    timers. *)

From S2P Require Import Prelude TimeUtil ByteOrder PseudoTcp TcpLogic TcpSend TcpRecv TcpConn.
#[local] Open Scope jingle_scope.
Import Tcp.

(** The fields as [parse_segment] bounds them. *)
Record seg_wf (g : Segment) : Prop := {
  sw_seq : is_u32 (g_seq g);
  sw_wnd : 0 <= g_wnd g <= 65535;
  sw_tsval : is_u32 (g_tsval g);
  sw_len : g_len g = Z.of_nat (length (g_data g));
}.

Section Calls.
Context `{Platform}.
Variable clock : nat -> Z.
Variable network : nat -> WriteResult.
Variable conv : Z.

Lemma parse_segment_wf buffer : (24 <= length buffer)%nat -> Z.of_nat (length buffer) <= 65535 ->
  seg_wf (parse_segment buffer).
Proof.
  intros H1 H2. split; unfold parse_segment; cbn [g_seq g_wnd g_tsval g_len g_data].
  - apply bytes_to_long_range. rewrite length_drop. lia.
  - assert (is_u16 (bytes_to_short (drop 14 buffer))) as HR
      by (apply bytes_to_short_range; rewrite length_drop; lia).
    unfold is_u16 in HR. lia.
  - apply bytes_to_long_range. rewrite length_drop. lia.
  - rewrite length_drop. unfold HEADER_SIZE. rewrite u32_small; unfold is_u32; lia.
Qed.

(** What the connection asks of a segment of its conversation. *)
Definition seg_ok (t : TCB) (now : Z) (g : Segment) : Prop :=
  g_conv g = m_conv t -> m_state t <> TCP_CLOSED ->
  g_seq g + g_len g < 4294967296 /\ ack_ok t now g.

(** The stream is as before, or the connect message is now its first byte. *)
Definition grown (s s' : bytes) : Prop := s' = s \/ s = [] /\ s' = [mkbyte CTL_CONNECT].

(** The receiving side moved on along an honest peer's stream [o]; segments of
    other conversations do not matter. *)
Definition rcv_moved (t : TCB) (g : Segment) (t' : TCB) : Prop :=
  m_shutdown t' = m_shutdown t /\
  forall o D, m_shutdown t = SD_NONE -> (g_conv g = m_conv t -> seg_honest o t g) ->
    rcv_stream o D t -> rcv_stream o D t'.

Lemma rcv_moved_view t g t' : recv_view t' = recv_view t -> rcv_moved t g t'.
Proof.
  intros E. split; [unfold recv_view in E; congruence|]. intros. by apply (rcv_stream_view o D t).
Qed.

Definition processed (s : bytes) (t : TCB) (g : Segment) (t' : TCB) (w' : World) : Prop :=
  exists s', grown s s' /\ tcp_inv conv s' t' /\ evs_ok conv s' w' /\ rcv_moved t g t'.

Lemma live_base_inv s t : base_inv conv t -> live s t -> tcp_inv conv s t.
Proof. split; [done|by right]. Qed.

Lemma tcp_live s t : tcp_inv conv s t -> m_state t <> TCP_CLOSED -> live s t.
Proof. by intros [_ []]. Qed.

(** Fields no invariant speaks of. *)
Lemma tcp_inv_traffic s t a b c : tcp_inv conv s t ->
  tcp_inv conv s (t <| m_lasttraffic := a |> <| m_lastrecv := b |> <| m_bOutgoing := c |>).
Proof.
  intros [HB HL]. split; [base_keep HB|]. destruct HL as [|HL]; [by left|right].
  by apply (live_view_eq s t).
Qed.

Lemma update_timestamp_spec s t g : base_inv conv t -> live s t -> seg_wf g ->
  let t' := update_timestamp g t in
  base_inv conv t' /\ live s t' /\ recv_view t' = recv_view t /\ live_view t' = live_view t.
Proof.
  intros HB HL Hg t'. unfold t', update_timestamp. destruct (_ && _); [|done].
  split_and!; [|by apply (live_view_eq s t)|done|done]. destruct (b_head _ _ HB) as (?&?&?).
  base_keep HB. split_and!; try done. apply Hg.
Qed.

Lemma ack_ok_view t t' now g : m_snd_una t' = m_snd_una t -> m_snd_nxt t' = m_snd_nxt t ->
  (m_snd_una t <> m_snd_nxt t -> m_slist t' = m_slist t) -> ack_ok t now g -> ack_ok t' now g.
Proof.
  unfold ack_ok, ack_boundary. intros -> -> Hs Hok Ha. rewrite Hs by lia. by apply Hok.
Qed.

Lemma process_spec s t w g : tcp_inv conv s t -> evs_ok conv s w -> seg_wf g ->
  seg_ok t (u32 (clock (w_ticks w))) g ->
  wp (process clock network g) (fun _ t' w' => processed s t g t' w') t w.
Proof.
  intros HT Hev Hg Hok. unfold process. wp_steps.
  destruct (Z.eqb_spec (g_conv g) (m_conv t)) as [Hconv|]; cbn [negb]; wp_steps.
  2: { exists s. split_and!; [by left|done|done|by apply rcv_moved_view]. }
  set (now := u32 (clock (w_ticks w))) in *.
  specialize (Hok Hconv). fold now in Hok.
  set (w1 := mkWorld _ _ _). assert (Hev1 : evs_ok conv s w1) by done. clearbody w1.
  pose proof (tcp_inv_traffic s t now now false HT) as HT1.
  set (t1 := update_field m_bOutgoing _ _) in *.
  assert (F : m_state t1 = m_state t /\ recv_view t1 = recv_view t /\ m_snd_una t1 = m_snd_una t /\
    m_snd_nxt t1 = m_snd_nxt t /\ m_slist t1 = m_slist t) by done.
  destruct F as (F1 & F2 & F3 & F4 & F5). clearbody t1.
  destruct (decide (m_state t = TCP_CLOSED)) as [|Hopen]; wp_steps.
  { exists s. split_and!; [by left|done|done|by apply rcv_moved_view]. }
  destruct (Hok Hopen) as [Hend Hack]. rewrite <- F1 in Hopen.
  pose proof (tcp_live s t1 HT1 Hopen) as HL1. pose proof (ti_base _ _ _ HT1) as HB1.
  destruct (negb _).
  { wp_step. wp_apply (closedown_spec conv s t1 w1 ECONNRESET HB1 Hev1).
    intros _ t2 w2 ((?&?&?)&_). wp_steps. exists s. split_and!; [by left|done|done|].
    apply rcv_moved_view. congruence. }
  wp_step. wp_apply (process_control_spec conv s t1 w1 g HB1 HL1 Hev1).
  { rewrite (sw_len _ Hg). by destruct (g_data g). }
  intros c t2 w2 (s' & (HB2 & HL2 & Hev2 & Hv2) & Hgrow & U2 & N2 & S2).
  destruct c as [bConnect|]; wp_steps.
  2: { exists s'. split_and!; [done|by apply live_base_inv|done|]. apply rcv_moved_view. congruence. }
  destruct (update_timestamp_spec s' t2 g HB2 HL2 Hg) as (HB3 & HL3 & Hv3 & Hlv3).
  assert (Hack3 : ack_ok (update_timestamp g t2) now g).
  { assert (m_snd_una (update_timestamp g t2) = m_snd_una t2 /\
      m_snd_nxt (update_timestamp g t2) = m_snd_nxt t2 /\ m_slist (update_timestamp g t2) = m_slist t2)
      as (E1 & E2 & E3) by (unfold live_view in Hlv3; split_and!; congruence).
    apply (ack_ok_view t); [congruence|congruence| |done].
    intros. rewrite E3, S2, F5; [done|congruence]. }
  set (t3 := update_timestamp g t2) in *. clearbody t3.
  wp_apply (process_ack_spec clock network conv s' t3 w2 g now bConnect HB3 HL3 Hev2 (sw_wnd _ Hg) Hack3).
  intros ok t4 w4 Hok4. destruct ok.
  - destruct Hok4 as (HB4 & HL4 & Hev4 & Hv4).
    assert (Hsafe : seg_safe g).
    { destruct Hg. unfold is_u32 in *. split; [lia|]. split; lia. }
    wp_apply (process_rest_spec clock network conv s' t4 w4 g HB4 HL4 Hev4 Hsafe).
    intros _ t5 w5 (HB5 & HL5 & Hev5 & Ha1 & Ha2).
    assert (Hv : recv_view t4 = recv_view t) by congruence.
    assert (Hnx : m_rcv_nxt t4 = m_rcv_nxt t) by (unfold recv_view in Hv; congruence).
    assert (Hsd : m_shutdown t4 = m_shutdown t) by (unfold recv_view in Hv; congruence).
    exists s'. split_and!; [done|by apply live_base_inv|done|]. split; [congruence|].
    intros o D H1 H2 H3. apply Ha2; [congruence| |by apply (rcv_stream_view o D t)].
    specialize (H2 Hconv). unfold seg_honest in *. by rewrite Hnx.
  - wp_steps. destruct Hok4 as ((?&?&?)&_). exists s'. split_and!; try done.
    apply rcv_moved_view. congruence.
Qed.

Lemma NotifyPacket_spec s t w buffer : tcp_inv conv s t -> evs_ok conv s w ->
  (12 <= length buffer -> 24 <= length buffer)%nat ->
  seg_ok t (u32 (clock (w_ticks w))) (parse_segment buffer) ->
  wp (NotifyPacket clock network buffer)
    (fun _ t' w' => processed s t (parse_segment buffer) t' w') t w.
Proof.
  intros HT Hev Hlen Hok. unfold NotifyPacket, parse.
  assert (Hid : processed s t (parse_segment buffer) t w).
  { exists s. split_and!; [by left|done|done|by apply rcv_moved_view]. }
  destruct (Z.ltb_spec MAX_PACKET (Z.of_nat (length buffer))); [by wp_steps|].
  destruct (Z.ltb_spec (Z.of_nat (length buffer)) 12); [by wp_steps|].
  wp_step. apply wp_in_bounds; [apply Z.leb_le; unfold HEADER_SIZE; lia|].
  apply process_spec; [done|done|apply parse_segment_wf; [lia|done]|done].
Qed.

(** *** The clock *)

Lemma packet_kept s t w seq : base_inv conv t -> live s t -> evs_ok conv s w -> is_u32 seq ->
  wp (packet clock network seq 0 None 0) (fun _ t' w' => kept_live conv s t t' w') t w.
Proof.
  intros HB HL Hev Hs. pose proof (b_conv _ _ HB) as Hconv.
  eapply wp_mono; [apply (packet_ack_spec clock network s t w seq); [apply HB|done|by rewrite Hconv]|].
  cbv beta. rewrite Hconv. intros _ t' w' (Hf & Hev').
  destruct (pk_frame_sizes _ _ Hf) as (E1 & E2 & E3 & Htx). destruct HL as (P & R & sent & unsent & HS).
  assert (Hp : snd_post s P sent t t' sent unsent).
  { apply (snd_post_tx s P sent unsent); [apply HS|done| |by left].
    destruct (b_mss _ _ HB) as (?&?&?). unfold mss_inv. by rewrite E1, E2. }
  split_and!; try done.
  - by apply (base_snd_post conv s P sent t t' sent unsent).
  - exists P, R, sent, unsent. by apply (snd_ok_post s P R sent unsent t).
  - by apply (snd_frame_other t t'), (sp_frame _ _ _ _ _ _ _ Hp).
Qed.

Lemma live_rto s t t' : live s t -> m_snd_una t <> m_snd_nxt t ->
  (m_slist t', m_slen t', m_sbuf t', m_snd_una t', m_snd_nxt t', m_recover t', m_state t') =
  (m_slist t, m_slen t, m_sbuf t, m_snd_una t, m_snd_nxt t, m_recover t, m_state t) -> live s t'.
Proof.
  intros (P & R & sent & unsent & HS) Hne E.
  apply (in_flight_sent _ _ _ _ _ (so_inv _ _ _ _ _ _ HS)) in Hne.
  exists P, R, sent, unsent. destruct HS as [[] ? ? ? ?]. split.
  - split; congruence.
  - done.
  - intros _. done.
  - assert (m_recover t' = m_recover t) as -> by congruence. done.
  - assert (m_state t' = m_state t) as -> by congruence. done.
Qed.

Lemma rto_in_flight s t : live s t -> m_rto_base t <> 0 ->
  m_snd_una t <> m_snd_nxt t /\ length (m_slist t) <> 0%nat.
Proof.
  intros (P & R & sent & unsent & HS) Hr. pose proof (so_inv _ _ _ _ _ _ HS) as HI.
  pose proof (so_rto _ _ _ _ _ _ HS Hr) as Hne. split; [by apply (in_flight_sent _ _ _ _ _ HI)|].
  rewrite (si_slist _ _ _ _ _ HI). by destruct sent.
Qed.

Lemma clock_retransmit_spec s t w now : base_inv conv t -> live s t -> evs_ok conv s w ->
  wp (clock_retransmit clock network now) (fun ok t' w' => went_on conv s t ok t' w') t w.
Proof.
  intros HB HL Hev. unfold clock_retransmit. wp_steps.
  destruct (Z.eqb_spec (m_rto_base t) 0) as [|Hr]; cbn [negb andb]; [wp_steps; by split_and!|].
  destruct (_ <=? 0); [|wp_steps; by split_and!].
  destruct (rto_in_flight s t HL Hr) as [Hne Hl].
  wp_step. apply wp_assert; [by rewrite bool_decide_false|]. wp_step.
  wp_apply (retransmit_kept clock network conv s t w now HB HL Hev Hne).
  intros ok t1 w1 ((HB1 & HL1 & Hev1 & Hv1) & Hne1 & _). destruct ok.
  - wp_steps. cbv zeta. set (ssth := Z.max _ _). set (rto := Z.min _ _).
    assert (Hssth : 1 <= ssth).
    { destruct (b_mss _ _ HB1) as (?&?&?). unfold ssth. rewrite (u32_small (2 * m_mss t1)); [lia|].
      unfold is_u32. lia. }
    assert (Hrto : MIN_RTO <= rto <= MAX_RTO).
    { pose proof (b_rto _ _ HB1) as Hb. unfold rto. unfold MIN_RTO, MAX_RTO, DEF_RTO in *.
      rewrite u32_small by (unfold is_u32; lia). destruct (before_established _); lia. }
    destruct (b_mss _ _ HB1) as (Hm1 & Hm2 & Hm3). clearbody ssth rto.
    split_and!; try done; [|by apply (live_rto s t1)].
    base_keep HB1. unfold cwnd_ok, is_u32. cbn [m_cwnd update_field]. lia.
  - wp_step. wp_apply (closedown_spec conv s t1 w1 ECONNABORTED HB1 Hev1).
    intros _ t2 w2 (Hk & Hc). wp_steps. by apply (went_on_trans conv s t t1 false).
Qed.

Lemma clock_probe_spec s t w now : base_inv conv t -> live s t -> evs_ok conv s w ->
  wp (clock_probe clock network now) (fun ok t' w' => went_on conv s t ok t' w') t w.
Proof.
  intros HB HL Hev. unfold clock_probe. wp_steps.
  destruct (_ && _); [|wp_steps; by split_and!].
  destruct (_ <=? _).
  - wp_step. wp_apply (closedown_spec conv s t w ECONNABORTED HB Hev). intros _ t2 w2 (Hk & Hc).
    wp_steps. by split.
  - wp_step. eapply wp_mono; [apply (packet_kept s); try done; apply u32_range|]. cbv beta.
    intros _ t1 w1 (HB1 & HL1 & Hev1 & Hv1). wp_steps.
    set (rto := Z.min _ _).
    assert (Hrto : MIN_RTO <= rto <= MAX_RTO).
    { pose proof (b_rto _ _ HB1) as Hb. unfold rto. cbn [m_rx_rto update_field].
      unfold MIN_RTO, MAX_RTO in *. rewrite u32_small by (unfold is_u32; lia). lia. }
    clearbody rto. split_and!; try done; [base_keep HB1|by apply (live_view_eq s t1)].
Qed.

Lemma live_nxt s t : live s t -> is_u32 (m_snd_nxt t).
Proof.
  intros (P & R & sent & unsent & HS). rewrite (si_nxt _ _ _ _ _ (so_inv _ _ _ _ _ _ HS)).
  apply u32_range.
Qed.

Lemma went_on_kept s t t' w' ok : went_on conv s t ok t' w' -> kept conv s t t' w'.
Proof. destruct ok; [apply kept_live_kept|by intros []]. Qed.

Lemma NotifyClock_spec s t w now : tcp_inv conv s t -> evs_ok conv s w ->
  wp (NotifyClock clock network now) (fun _ t' w' => kept conv s t t' w') t w.
Proof.
  intros HT Hev. unfold NotifyClock. wp_steps.
  destruct (decide (m_state t = TCP_CLOSED)) as [|Ho]; [by wp_steps|].
  pose proof (tcp_live s t HT Ho) as HL. pose proof (ti_base _ _ _ HT) as HB.
  wp_step. wp_apply (clock_retransmit_spec s t w now HB HL Hev).
  intros ok t1 w1 Hk1. destruct ok; cbn [negb]; [|wp_steps; by apply Hk1].
  destruct Hk1 as (HB1 & HL1 & Hev1 & Hv1).
  wp_step. wp_apply (clock_probe_spec s t1 w1 now HB1 HL1 Hev1).
  intros ok t2 w2 Hk2. destruct ok; cbn [negb].
  - destruct Hk2 as (HB2 & HL2 & Hev2 & Hv2). wp_steps.
    destruct (_ && _).
    + wp_step. eapply wp_mono; [apply (packet_kept s); try done; by apply (live_nxt s)|]. cbv beta.
      intros _ t3 w3 (HB3 & HL3 & Hev3 & Hv3). wp_steps.
      split_and!; [by apply live_base_inv|done|congruence].
    + wp_steps. split_and!; [by apply live_base_inv|done|congruence].
  - wp_steps. apply went_on_kept in Hk2 as (?&?&?). split_and!; try done. congruence.
Qed.

(** *** The user's calls *)

Lemma tcp_inv_error s t e : tcp_inv conv s t -> tcp_inv conv s (t <| m_error := e |>).
Proof.
  intros [HB HL]. split; [base_keep HB|]. destruct HL; [by left|right; by apply (live_view_eq s t)].
Qed.
Lemma tcp_inv_error_write s t e b :
  tcp_inv conv s t -> tcp_inv conv s (t <| m_bWriteEnable := b |> <| m_error := e |>).
Proof.
  intros [HB HL]. split; [base_keep HB|]. destruct HL; [by left|right; by apply (live_view_eq s t)].
Qed.
Lemma tcp_inv_error_read s t e b :
  tcp_inv conv s t -> tcp_inv conv s (t <| m_bReadEnable := b |> <| m_error := e |>).
Proof.
  intros [HB HL]. split; [base_keep HB|]. destruct HL; [by left|right; by apply (live_view_eq s t)].
Qed.

Lemma live_slen s t : live s t -> 0 <= m_slen t <= 92160.
Proof.
  intros (P & R & sent & unsent & HS). destruct (inflight _ _ _ _ _ (so_inv _ _ _ _ _ _ HS)) as (_&?&?).
  lia.
Qed.

Lemma Connect_spec s t w : tcp_inv conv s t -> evs_ok conv s w ->
  wp (Connect clock network) (fun _ t' w' => exists s', grown s s' /\ tcp_inv conv s' t' /\
    evs_ok conv s' w' /\ recv_view t' = recv_view t) t w.
Proof.
  intros HT Hev. unfold Connect. wp_steps.
  destruct (decide (m_state t = TCP_LISTEN)) as [Hl|Hl].
  2: { rewrite bool_decide_false by done. cbn [negb]. wp_steps. exists s.
       split_and!; [by left|by apply tcp_inv_error|done|done]. }
  rewrite bool_decide_true by done. cbn [negb]. wp_steps.
  assert (HL : live s t) by (apply tcp_live; [done|by rewrite Hl]).
  destruct (listen_idle s t HL Hl) as [_ ->]. pose proof (ti_base _ _ _ HT) as HB.
  eapply wp_mono; [exact (queue_kept conv [] t w [mkbyte CTL_CONNECT] true TCP_SYN_SENT HB HL Hev
      ltac:(done) ltac:(done))|].
  cbv beta. intros r t1 w1 (-> & Hr & HB1 & HL1 & Hv1 & Hst1 & _).
  assert (Hr1 : r = 1).
  { destruct HL as (P & R & sent & unsent & HS). apply (snd_ok_empty _ _ _ _ _ _ HS) in Hl.
    pose proof (si_pos _ _ _ _ _ (so_inv _ _ _ _ _ _ HS)).
    destruct (inflight _ _ _ _ _ (so_inv _ _ _ _ _ _ HS)) as (_ & ? & _).
    rewrite Hr. unfold kSndBufSize. simpl. lia. }
  rewrite Hr1 in HL1. wp_step.
  eapply wp_mono; [apply (attemptSend_kept clock network conv [mkbyte CTL_CONNECT]); try done|].
  { apply (evs_ok_app conv [] _ w Hev). }
  cbv beta. intros _ t2 w2 ((HB2 & HL2 & Hev2 & Hv2) & _). wp_steps.
  exists [mkbyte CTL_CONNECT]. split_and!; [by right|by apply live_base_inv|done|congruence].
Qed.

Lemma NotifyMTU_spec s t w mtu : tcp_inv conv s t -> evs_ok conv s w -> 117 <= mtu <= MAX_PACKET ->
  wp (NotifyMTU mtu) (fun _ t' w' => kept conv s t t' w') t w.
Proof.
  intros [HB HL] Hev Hm. unfold NotifyMTU. wp_steps. cbv zeta. set (t1 := t <| m_mtu_advise := mtu |>).
  assert (HB1 : base_inv conv t1) by (base_keep HB).
  assert (HL1 : m_state t1 = TCP_CLOSED \/ live s t1)
    by (destruct HL; [by left|right; by apply (live_view_eq s t)]).
  assert (Hv1 : recv_view t1 = recv_view t) by done. clearbody t1.
  destruct (decide (m_state t1 = TCP_ESTABLISHED)) as [He|].
  - destruct (adjustMTU_spec conv s t1 HB1) as (HB2 & HL2 & Hv2 & _).
    split_and!; [split; [done|]|done|congruence].
    right. apply HL2. destruct HL1; [congruence|done].
  - by split_and!.
Qed.

(** What a read hands over. *)
Definition received (t : TCB) (r : Z) (data : bytes) (t' : TCB) : Prop :=
  m_shutdown t' = m_shutdown t /\
  (r = -1 /\ data = [] /\ recv_view t' = recv_view t \/
   0 <= r /\ Z.of_nat (length data) = r /\
   forall o D, rcv_stream o D t -> data = sub (Z.to_nat D) (Z.to_nat r) o /\ rcv_stream o (D + r) t').

Lemma Recv_spec s t w len : tcp_inv conv s t -> evs_ok conv s w ->
  wp (Recv clock network len) (fun '(r, data) t' w' =>
    tcp_inv conv s t' /\ evs_ok conv s w' /\ received t r data t') t w.
Proof.
  intros HT Hev. unfold Recv. wp_steps.
  destruct (decide (m_state t = TCP_ESTABLISHED)) as [He|He].
  2: { rewrite bool_decide_false by done. cbn [negb]. wp_steps.
       split_and!; [by apply tcp_inv_error|done|split; [done|by left]]. }
  rewrite bool_decide_true by done. cbn [negb].
  pose proof (ti_base _ _ _ HT) as HB. pose proof (b_rcv _ _ HB) as HR.
  assert (HL : live s t) by (apply tcp_live; [done|by rewrite He]).
  pose proof HR as [_ Hp Hl _ _]. wp_step. apply wp_assert; [apply Z.leb_le; lia|].
  destruct (Z.eqb_spec (m_rlen t) (m_rpos t)) as [|Hne].
  { wp_steps. split_and!; [by apply tcp_inv_error_read|done|split; [done|by left]]. }
  assert (Hsub : m_rlen t -u m_rpos t = m_rlen t - m_rpos t) by (apply u32_small; unfold is_u32; lia).
  rewrite Hsub. set (n := Z.min _ _).
  assert (Hn : 0 <= n <= m_rlen t - m_rpos t) by (pose proof (u32_range len) as Hu; unfold is_u32 in Hu; lia).
  set (data := zsub (m_rpos t) n (m_rbuf t)).
  assert (Hdl : Z.of_nat (length data) = n).
  { unfold data, zsub. rewrite length_sub; [lia|]. destruct HR as [-> _ _ _ _]. unfold kRcvBufSize. lia. }
  destruct (advance_spec t n HR Hn) as (HR1 & Hpos1 & Hf1 & Hst1).
  set (t1 := t <| m_rpos := m_rpos t +u n |>) in *.
  assert (HB1 : base_inv conv t1) by (by apply (base_rcv_frame conv t)).
  assert (HL1 : live s t1) by (by apply (live_rcv_frame s t)).
  assert (Hrecv : forall t', recv_view t' = recv_view t1 -> received t n data t').
  { intros t' Hv. split; [change (m_shutdown t) with (m_shutdown t1); unfold recv_view in Hv; congruence|].
    right. split; [lia|]. split; [done|]. intros o D Hs. split; [by apply read_spec|].
    apply (rcv_stream_view o _ t1); [done|]. destruct (decide (1 <= n)); [by apply Hst1|].
    replace (D + n) with D by lia. apply (rcv_stream_view o D t); [|done].
    unfold recv_view. rewrite Hpos1. replace (m_rpos t + n) with (m_rpos t) by lia. done. }
  clearbody data. wp_steps. change (update_field m_rpos _ t) with t1. clearbody t1.
  assert (Hend : forall t2 w2, kept_live conv s t1 t2 w2 ->
    tcp_inv conv s t2 /\ evs_ok conv s w2 /\ received t n data t2).
  { intros t2 w2 (?&?&?&?). split_and!; [by apply live_base_inv|done|by apply Hrecv]. }
  destruct (_ <=? _); [|wp_steps; apply Hend; by split_and!].
  wp_step. wp_step. cbv beta.
  set (t2 := update_field m_rcv_wnd _ t1).
  assert (Hk : kept_live conv s t1 t2 w)
    by (split_and!; [base_keep HB1|by apply (live_view_eq s t1)|done|done]).
  assert (Hv2 : recv_view t2 = recv_view t1) by done. clearbody t2.
  destruct (m_rcv_wnd t1 =? 0); [|wp_steps; by apply Hend].
  destruct Hk as (HB2 & HL2 & Hev2 & _).
  eapply wp_mono; [by apply (attemptSend_kept clock network conv s)|]. cbv beta.
  intros _ t3 w3 ((?&?&?&?)&_). wp_steps. apply Hend. split_and!; try done. congruence.
Qed.

(** A write hands over a prefix of the buffer, as much as fits. *)
Lemma Send_spec s t w buffer : tcp_inv conv s t -> evs_ok conv s w ->
  Z.of_nat (length buffer) < 4294967296 ->
  wp (Send clock network buffer) (fun r t' w' =>
    tcp_inv conv (s ++ take (Z.to_nat r) buffer) t' /\ evs_ok conv (s ++ take (Z.to_nat r) buffer) w' /\
    recv_view t' = recv_view t /\
    (m_state t <> TCP_ESTABLISHED -> r = -1) /\
    (m_state t = TCP_ESTABLISHED -> m_slen t < kSndBufSize ->
     r = Z.min (Z.of_nat (length buffer)) (kSndBufSize - m_slen t))) t w.
Proof.
  intros HT Hev Hlen. unfold Send. wp_steps.
  destruct (decide (m_state t = TCP_ESTABLISHED)) as [He|He].
  2: { rewrite bool_decide_false by done. cbn [negb]. wp_steps. cbn [Z.to_nat].
       rewrite take_0, app_nil_r. split; [by apply tcp_inv_error|done]. }
  rewrite bool_decide_true by done. cbn [negb].
  pose proof (ti_base _ _ _ HT) as HB.
  assert (HL : live s t) by (apply tcp_live; [done|by rewrite He]).
  destruct (Z.eqb_spec (m_slen t) kSndBufSize) as [|Hfull].
  { wp_steps. cbn [Z.to_nat]. rewrite take_0, app_nil_r.
    split; [by apply tcp_inv_error_write|]. split_and!; try done. lia. }
  wp_step.
  assert (Et : t <| m_state := m_state t |> = t) by (by destruct t).
  pose proof (queue_kept conv s t w buffer false (m_state t) HB HL Hev
    ltac:(split; [by rewrite He|done]) Hlen) as Hq.
  rewrite Et in Hq. eapply wp_mono; [exact Hq|]. cbv beta.
  intros r t1 w1 (-> & Hr & HB1 & HL1 & Hv1 & _). wp_step.
  eapply wp_mono; [apply (attemptSend_kept clock network conv (s ++ take (Z.to_nat r) buffer)); try done|].
  { by apply evs_ok_app. }
  cbv beta. intros _ t2 w2 ((?&?&?&?)&_). wp_steps.
  split_and!; try done; [by apply live_base_inv|congruence].
Qed.

Lemma Close_spec s t w force : tcp_inv conv s t -> evs_ok conv s w ->
  wp (Close force) (fun _ t' w' => tcp_inv conv s t' /\ w' = w /\ m_shutdown t' <> SD_NONE) t w.
Proof.
  intros [HB HL] Hev. unfold Close. wp_steps. split; [|split; [done|by destruct force]].
  split; [|destruct HL; [by left|right; by apply (live_view_eq s t)]].
  assert (Hr : rcv_inv (t <| m_shutdown := if force then SD_FORCEFUL else SD_GRACEFUL |>))
    by (destruct (b_rcv _ _ HB); by split).
  destruct HB. by split.
Qed.

Lemma SetOption_spec s t opt v : tcp_inv conv s t ->
  tcp_inv conv s (SetOption opt v t) /\ recv_view (SetOption opt v t) = recv_view t.
Proof.
  intros [HB HL]. destruct opt; cbn [SetOption]; (split; [split; [base_keep HB|]|done]);
    (destruct HL; [by left|right; by apply (live_view_eq s t)]).
Qed.
End Calls.
