(* ===== verification/TcpNet.v ===== *)
(** * PseudoTcp: two endpoints over a network

    Two connections of the same conversation exchange packets over a network
    that may lose, repeat and reorder them: a step is a call of the user at one
    side, or the arrival of any packet the other side ever wrote.  The bytes
    read at each side are an initial part of the bytes written at the other.
    [exec_net] runs scripts of such steps, to evaluate witnesses. *)

From S2P Require Import Prelude TimeUtil ByteOrder PseudoTcp TcpLogic TcpSend TcpRecv TcpConn TcpMain TcpRuns.
#[local] Open Scope jingle_scope.
Import Tcp.

(** A longer stream of the peer has the same beginning. *)
Lemma rcv_stream_app o o' D t : rcv_stream o D t -> rcv_stream (o ++ o') D t.
Proof.
  assert (Hat : forall p, at_pos o t p -> at_pos (o ++ o') t p).
  { intros p (b & Hb & Ho). exists b. split; [done|]. by apply lookup_app_l_Some. }
  intros []. split; auto. eapply Forall_impl; [done|]. unfold saved_ok. auto.
Qed.

Section Net.
Context `{Platform}.
Variable clock : bool -> nat -> Z.
Variable network : bool -> nat -> WriteResult.
Variable conv : Z.
Variable now : bool -> Z.

Definition Net := bool -> End.
Definition put_end (i : bool) (y : End) (n : Net) : Net := fun j => if Bool.eqb i j then y else n j.

Definition user_call (c : call) : bool := match c with CPacket _ => false | _ => true end.

(** Data of the peer arrive after its connect message. *)
Definition after_connect (p : bytes) (x : End) : Prop :=
  let g := parse_segment p in
  g_conv g = m_conv (e_tcb x) -> g_len g <> 0 -> g_flags g = 0 -> 1 <= m_rcv_nxt (e_tcb x).

Inductive net_step (n : Net) : Net -> Prop :=
  | net_call i c y : user_call c = true -> call_ok (clock i) c (n i) ->
      step_end (clock i) (network i) c (n i) y -> net_step n (put_end i y n)
  | net_arrive i p y : TcpWritePacket p ∈ w_events (e_world (n (negb i))) ->
      call_ok (clock i) (CPacket p) (n i) -> after_connect p (n i) ->
      step_end (clock i) (network i) (CPacket p) (n i) y -> net_step n (put_end i y n).

Definition net_start : Net := fun i => fresh conv (now i).

Inductive net_reach : Net -> Prop :=
  | net_reach_start : net_reach net_start
  | net_reach_step n n' : net_reach n -> net_step n n' -> net_reach n'.

(** ** The invariant of the network *)

(** Side [x] read the beginning of what side [y] wrote. *)
Definition side_inv (x y : End) : Prop :=
  (exists s, end_inv conv s x) /\
  (m_shutdown (e_tcb x) = SD_NONE -> Z.of_nat (length (stream_of (e_acc y))) < 4294967296 ->
   delivered (stream_of (e_acc y)) x).

Lemma delivered_app o o' x : delivered o x -> delivered (o ++ o') x.
Proof.
  intros [Hs Hd]. split; [by apply rcv_stream_app|].
  assert (Hl : length (sub 1 (length (e_del x)) o) = length (e_del x)) by (by rewrite <- Hd).
  unfold sub in *. rewrite length_take, length_drop in Hl.
  destruct (decide (length (e_del x) = 0)%nat) as [E|].
  - rewrite E. by apply nil_length_inv in E.
  - rewrite drop_app_le, take_app_le by (rewrite ?length_drop; lia). done.
Qed.

Lemma side_start i j : is_u32 conv -> side_inv (net_start i) (net_start j).
Proof. intros Hc. split; [eexists; by apply fresh_inv|]. intros _ _. apply fresh_delivered. Qed.

(** The other side moved: it accepted more bytes, and wrote more packets. *)
Lemma side_peer x y y' a : side_inv x y -> e_acc y' = e_acc y ++ a -> side_inv x y'.
Proof.
  intros [Hs Hd] E. split; [done|]. intros Hn Hl. rewrite E in *.
  change (stream_of (e_acc y ++ a)) with (stream_of (e_acc y) ++ a) in *.
  rewrite length_app in Hl. apply delivered_app, Hd; [done|lia].
Qed.

Lemma side_step i c x y x' : side_inv x y -> call_ok (clock i) c x ->
  step_end (clock i) (network i) c x x' -> peer_ok (stream_of (e_acc y)) c x ->
  side_inv x' y /\ exists a, e_acc x' = e_acc x ++ a.
Proof.
  intros [[s HI] Hd] Hok Hs Hp.
  destruct (step_post (clock i) (network i) conv s x c x' HI Hok Hs) as (s' & HI' & a & d & Ha & _).
  split; [|by exists a]. split; [by exists s'|]. intros Hn Hl.
  destruct (step_delivered _ _ conv s _ x c x' HI Hok Hs Hl Hp Hn) as [Hn' Hdel].
  by apply Hdel, Hd.
Qed.

(** The packets of one side are those of an honest peer to the other. *)
Lemma peer_packets x y p : side_inv y x -> m_conv (e_tcb x) = conv ->
  TcpWritePacket p ∈ w_events (e_world y) -> after_connect p x -> peer_ok (stream_of (e_acc y)) (CPacket p) x.
Proof.
  intros [[s [Hs _ He]] _] Hc Hp Ha Hg. split; [|by apply Ha].
  assert (He' : evs_ok conv (stream_of (e_acc y)) (e_world y)).
  { destruct Hs as [[-> _]| ->]; [|done]. apply (evs_ok_app conv [] _ _ He). }
  unfold evs_ok in He'. rewrite Forall_forall in He'. by destruct (He' _ Hp) as (_ & _ & ?).
Qed.

Lemma put_same i y n : put_end i y n i = y.
Proof. unfold put_end. by rewrite eqb_reflx. Qed.
Lemma put_other i y n : put_end i y n (negb i) = n (negb i).
Proof. unfold put_end. by destruct i. Qed.

Lemma net_inv n : is_u32 conv -> net_reach n -> forall i, side_inv (n i) (n (negb i)).
Proof.
  intros Hc. induction 1 as [|n n' _ IH Hstep]; intros j; [by apply side_start|].
  assert (Hgo : forall i c y, call_ok (clock i) c (n i) -> step_end (clock i) (network i) c (n i) y ->
    peer_ok (stream_of (e_acc (n (negb i)))) c (n i) ->
    side_inv (put_end i y n j) (put_end i y n (negb j))).
  { intros i c y Hok Hs Hp. destruct (side_step i c (n i) (n (negb i)) y (IH i) Hok Hs Hp) as [Hy [a Ha]].
    destruct (decide (j = i)) as [->|Hne].
    - by rewrite put_same, put_other.
    - assert (j = negb i) as -> by (by destruct i, j). rewrite put_other, negb_involutive, put_same.
      pose proof (IH (negb i)) as Hi. rewrite negb_involutive in Hi. by apply (side_peer _ (n i) y a). }
  destruct Hstep as [i c y Hu Hok Hs|i p y Hp Hok Ha Hs]; apply (Hgo i _ _ Hok Hs).
  - by destruct c.
  - destruct (IH i) as [[s [_ [HB _] _]] _]. apply peer_packets; [|apply HB|done|done].
    pose proof (IH (negb i)) as Hi. by rewrite negb_involutive in Hi.
Qed.

(** C1. End to end: what one user read is an initial part of what the other
    wrote, over a network that loses, repeats and delays packets, and reorders
    them but for one thing: no data of the peer come before its connect message
    ([after_connect]; the code misplaces such bytes, see [TcpFacts]).  Every
    packet that arrives is one the connection can take ([call_ok]): it does not
    run past the end of the sequence numbers, acknowledges whole segments and
    echoes no future time; the calls of the users are within [call_ok] too (an
    MTU of at least 117).  The reader has not closed, and the writer sent
    less than 4 GB. *)
Theorem tcp_end_to_end n i : is_u32 conv -> net_reach n ->
  m_shutdown (e_tcb (n i)) = SD_NONE ->
  Z.of_nat (length (e_acc (n (negb i)))) < 4294967295 ->
  exists rest, e_acc (n (negb i)) = e_del (n i) ++ rest.
Proof.
  intros Hc Hr Hn Hl. destruct (net_inv n Hc Hr i) as [_ Hd].
  destruct (Hd Hn) as [_ E]; [cbn [stream_of length]; lia|].
  exists (drop (length (e_del (n i))) (e_acc (n (negb i)))). rewrite E at 1.
  unfold sub. change (drop 1 (stream_of (e_acc (n (negb i))))) with (e_acc (n (negb i))).
  symmetry. apply take_drop.
Qed.
End Net.

(** ** Running scripts *)

Section Exec.
Context `{Platform}.

Definition seg_okb (t : TCB) (now : Z) (g : Segment) : bool :=
  negb (g_conv g =? m_conv t) || bool_decide (m_state t = TCP_CLOSED) ||
  ((g_seq g + g_len g <? 4294967296) &&
   (negb ((m_snd_una t <? g_ack g) && (g_ack g <=? m_snd_nxt t)) ||
    (existsb (fun k => g_ack g -u m_snd_una t =? seg_sum (take k (m_slist t)))
       (seq 0 (S (length (m_slist t)))) &&
     ((g_tsecr g =? 0) || (0 <=? TimeDiff now (g_tsecr g)))))).

Lemma seg_okb_ok t now g : seg_okb t now g = true -> seg_ok t now g.
Proof.
  unfold seg_okb. rewrite !orb_true_iff, !andb_true_iff, !orb_true_iff, !andb_true_iff, orb_true_iff.
  rewrite !negb_true_iff, Z.eqb_neq, bool_decide_eq_true, Z.ltb_lt, existsb_exists.
  intros [[?|?]|[? Hc]] Hconv Hst; [done|done|]. split; [done|]. intros [H1 H2].
  destruct Hc as [Hc|[(k & _ & Hk) Ht]].
  - apply andb_false_iff in Hc as [?%Z.ltb_ge|?%Z.leb_gt]; lia.
  - split; [exists k; by apply Z.eqb_eq|]. destruct Ht as [?%Z.eqb_eq|?%Z.leb_le]; auto.
Qed.

Definition call_okb (clock : nat -> Z) (c : call) (x : End) : bool :=
  match c with
  | CSend b => Z.of_nat (length b) <? 4294967296
  | CPacket p =>
      bool_decide (24 <= length p)%nat &&
      seg_okb (e_tcb x) (u32 (clock (w_ticks (e_world x)))) (parse_segment p)
  | CMTU mtu => (117 <=? mtu) && (mtu <=? MAX_PACKET)
  | _ => true
  end.

Lemma call_okb_ok clock c x : call_okb clock c x = true -> call_ok clock c x.
Proof.
  destruct c; cbn [call_okb call_ok]; try done.
  - apply Z.ltb_lt.
  - rewrite andb_true_iff, bool_decide_eq_true. intros [? ?]. split; [done|]. by apply seg_okb_ok.
  - rewrite andb_true_iff, !Z.leb_le. done.
Qed.

Definition data_okb (o : bytes) (g : Segment) : bool :=
  (g_len g =? 0) ||
  ((0 <=? g_seq g) && (g_seq g <? 4294967296) && (1 <=? g_len g) &&
   (g_seq g + g_len g <=? Z.of_nat (length o)) &&
   bool_decide (g_data g = sub (Z.to_nat (g_seq g)) (Z.to_nat (g_len g)) o) &&
   ((g_seq g =? 0) && (g_len g =? 1) && (g_flags g =? FLAG_CTL) ||
    (1 <=? g_seq g) && (g_flags g =? 0))).

Lemma data_okb_ok o g : data_okb o g = true -> data_ok o g.
Proof.
  unfold data_okb, data_ok. rewrite !orb_true_iff, !andb_true_iff, !orb_true_iff, !andb_true_iff.
  rewrite !Z.eqb_eq, !Z.leb_le, Z.ltb_lt, bool_decide_eq_true.
  intros [?|(((((?&?)&?)&?)&?)&Hf)]; [by left|right]. exists (g_seq g).
  rewrite u32_small by done. split_and!; try done. destruct Hf as [[[-> ->] ->]|[? ?]]; [by left|by right].
Qed.

Definition after_connectb (p : bytes) (x : End) : bool :=
  let g := parse_segment p in
  negb (g_conv g =? m_conv (e_tcb x)) || (g_len g =? 0) || negb (g_flags g =? 0) ||
  (1 <=? m_rcv_nxt (e_tcb x)).

Lemma after_connectb_ok p x : after_connectb p x = true -> after_connect p x.
Proof.
  unfold after_connectb, after_connect. rewrite !orb_true_iff, !negb_true_iff, !Z.eqb_neq, Z.eqb_eq, Z.leb_le.
  tauto.
Qed.

Definition peer_okb (o : bytes) (c : call) (x : End) : bool :=
  match c with
  | CPacket p => data_okb o (parse_segment p) && after_connectb p x
  | _ => true
  end.

Lemma peer_okb_ok o c x : peer_okb o c x = true -> peer_ok o c x.
Proof.
  destruct c; cbn [peer_okb peer_ok]; try done. rewrite andb_true_iff. intros [Hd Ha] Hc.
  split; [by apply data_okb_ok|]. intros. by apply (after_connectb_ok datagram x Ha).
Qed.

(** One call, if the test passes and it does not fault. *)
Definition exec_end (clock : nat -> Z) (network : nat -> WriteResult) (okb : bool) (c : call) (x : End)
    : option End :=
  if okb then
    match run_call clock network c (e_tcb x) (e_world x) with
    | Ok (a, d) t' w' => Some (mkEnd t' w' (e_acc x ++ a) (e_del x ++ d))
    | Fault _ => None
    end
  else None.

Lemma exec_end_step clock network okb c x y :
  exec_end clock network okb c x = Some y -> okb = true /\ step_end clock network c x y.
Proof.
  unfold exec_end. destruct okb; [|done].
  destruct (run_call clock network c (e_tcb x) (e_world x)) as [[a d] t' w'|] eqn:E; [|done].
  intros [= <-]. split; [done|]. by exists a, d, t', w'.
Qed.

Fixpoint exec_calls clock network (o : bytes) (cs : list call) (x : End) : option End :=
  match cs with
  | [] => Some x
  | c :: cs =>
      match exec_end clock network (call_okb clock c x && peer_okb o c x) c x with
      | Some y => exec_calls clock network o cs y
      | None => None
      end
  end.

Lemma exec_calls_reach clock network conv now o cs : forall x y,
  reach clock network (fun c z => call_ok clock c z /\ peer_ok o c z) conv now x ->
  exec_calls clock network o cs x = Some y ->
  reach clock network (fun c z => call_ok clock c z /\ peer_ok o c z) conv now y.
Proof.
  induction cs as [|c cs IH]; intros x y Hx; cbn [exec_calls]; [by intros [= <-]|].
  destruct (exec_end _ _ _ c x) as [z|] eqn:E; [|done].
  apply exec_end_step in E as [Hok Hs]. apply andb_true_iff in Hok as [H1 H2].
  apply IH. econstructor; [exact Hx| |exact Hs]. split; [by apply call_okb_ok|by apply peer_okb_ok].
Qed.

(** Scripts for two endpoints: a call of the user at side [i], or the arrival
    at [i] of the [k]-th event of the other side. *)
Inductive action := ACall (i : bool) (c : call) | AArrive (i : bool) (k : nat).

Definition exec_action clock network (a : action) (n : Net) : option Net :=
  match a with
  | ACall i c =>
      (fun y => put_end i y n) <$>
      exec_end (clock i) (network i) (user_call c && call_okb (clock i) c (n i)) c (n i)
  | AArrive i k =>
      match w_events (e_world (n (negb i))) !! k with
      | Some (TcpWritePacket p) =>
          (fun y => put_end i y n) <$>
          exec_end (clock i) (network i) (call_okb (clock i) (CPacket p) (n i) && after_connectb p (n i))
            (CPacket p) (n i)
      | _ => None
      end
  end.

Fixpoint exec_net clock network (l : list action) (n : Net) : option Net :=
  match l with
  | [] => Some n
  | a :: l => match exec_action clock network a n with Some n' => exec_net clock network l n' | None => None end
  end.

Lemma exec_net_reach clock network conv now l : forall n n',
  net_reach clock network conv now n -> exec_net clock network l n = Some n' ->
  net_reach clock network conv now n'.
Proof.
  induction l as [|a l IH]; intros n n' Hn; cbn [exec_net]; [by intros [= <-]|].
  destruct (exec_action clock network a n) as [n1|] eqn:E; [|done].
  apply IH. econstructor; [exact Hn|]. destruct a as [i c|i k]; cbn [exec_action] in E.
  - apply fmap_Some in E as (y & E & ->). apply exec_end_step in E as [Hok Hs].
    apply andb_true_iff in Hok as [? ?]. apply (net_call _ _ _ i c); [done|by apply call_okb_ok|done].
  - destruct (_ !! k) as [[p| | | |]|] eqn:Hk; try done.
    apply fmap_Some in E as (y & E & ->). apply exec_end_step in E as [Hok Hs].
    apply andb_true_iff in Hok as [? ?].
    apply (net_arrive _ _ _ i p); [by eapply list_elem_of_lookup_2|by apply call_okb_ok|by apply after_connectb_ok|done].
Qed.
End Exec.

(** ** A conversation *)

Section Example.
#[local] Existing Instance little_host.

Definition ex_clock (k : nat) : Z := 1000 + 10 * Z.of_nat k.
Definition ex_network (k : nat) : WriteResult := WR_SUCCESS.
Definition ex_data : bytes := [mkbyte 104; mkbyte 105].

(** Side false connects and sends two bytes; its data packet arrives twice;
    side true reads them. *)
Definition ex_script : list action :=
  [ACall false CConnect; AArrive true 0; AArrive false 0; ACall false (CSend ex_data);
   AArrive true 2; AArrive true 2; ACall true (CRecv 10)].
Definition ex_final : option Net :=
  exec_net (fun _ => ex_clock) (fun _ => ex_network) ex_script (net_start 7 (fun _ => 1000)).

Lemma ex_final_ends :
  (fun n => (e_del (n true), e_acc (n false), m_shutdown (e_tcb (n true)), m_state (e_tcb (n true)))) <$> ex_final
    = Some (ex_data, ex_data, SD_NONE, TCP_ESTABLISHED).
Proof. vm_compute. reflexivity. Qed.

Lemma tcp_end_to_end_witness :
  exists n rest, net_reach (fun _ => ex_clock) (fun _ => ex_network) 7 (fun _ => 1000) n /\
    e_del (n true) = ex_data /\ e_acc (n false) = e_del (n true) ++ rest.
Proof.
  pose proof ex_final_ends as E.
  assert (Hr : forall n, ex_final = Some n ->
    net_reach (fun _ => ex_clock) (fun _ => ex_network) 7 (fun _ => 1000) n)
    by (intros n; apply exec_net_reach; constructor).
  destruct ex_final as [n|]; [|done]. specialize (Hr n eq_refl).
  simpl in E. injection E as E1 E2 E3 E4.
  destruct (tcp_end_to_end (fun _ => ex_clock) (fun _ => ex_network) 7 (fun _ => 1000) n true) as [rest Hrest].
  - by split.
  - exact Hr.
  - exact E3.
  - simpl. rewrite E2. reflexivity.
  - exists n, rest. split; [exact Hr|]. split; [exact E1|exact Hrest].
Defined.

(** The same bytes for one side: a peer with the stream of the connect message
    and [ex_data] sends them out of order and twice. *)
Definition peer_packet (seq flags ack : Z) (data : bytes) : bytes :=
  build_packet ((make 7 1000) <| m_rcv_nxt := ack |>) seq flags 1000 data.
Definition ex_calls : list call :=
  [CPacket (peer_packet 0 FLAG_CTL 0 [mkbyte 0]); CPacket (peer_packet 2 0 1 [mkbyte 105]);
   CPacket (peer_packet 1 0 1 ex_data); CRecv 1; CSend ex_data; CPacket (peer_packet 1 0 1 ex_data)].
Definition wrote_first (x : End) : bool :=
  match w_events (e_world x) with TcpWritePacket p :: _ => true | _ => false end.
Definition ex_end : option End :=
  exec_calls ex_clock ex_network (stream_of ex_data) ex_calls (fresh 7 1000).

Lemma ex_end_state :
  (fun x => (e_del x, e_acc x, m_shutdown (e_tcb x),
     zsub (m_rpos (e_tcb x)) (m_rlen (e_tcb x) - m_rpos (e_tcb x)) (m_rbuf (e_tcb x)),
     wrote_first x)) <$> ex_end
    = Some ([mkbyte 104], ex_data, SD_NONE, [mkbyte 105],
        true).
Proof. vm_compute. reflexivity. Qed.

Lemma ex_end_reach : exists x,
  reach ex_clock ex_network (fun c z => call_ok ex_clock c z /\ peer_ok (stream_of ex_data) c z) 7 1000 x /\
  e_del x = [mkbyte 104] /\ e_acc x = ex_data /\ m_shutdown (e_tcb x) = SD_NONE /\
  zsub (m_rpos (e_tcb x)) (m_rlen (e_tcb x) - m_rpos (e_tcb x)) (m_rbuf (e_tcb x)) = [mkbyte 105] /\
  exists p, TcpWritePacket p ∈ w_events (e_world x).
Proof.
  pose proof ex_end_state as E.
  assert (Hr : forall x, ex_end = Some x -> reach ex_clock ex_network
    (fun c z => call_ok ex_clock c z /\ peer_ok (stream_of ex_data) c z) 7 1000 x)
    by (intros x; apply exec_calls_reach; constructor).
  apply fmap_Some_1 in E as (x & Ex & E). exists x. split; [by apply Hr|].
  injection E as E1 E2 E3 E4 E5. do 4 (split; [symmetry; assumption|]).
  unfold wrote_first in E5. destruct (w_events (e_world x)) as [|[p| | | |] l]; try discriminate E5.
  exists p. apply list_elem_of_here.
Qed.

Lemma ex_end_ok : exists x, reach ex_clock ex_network (call_ok ex_clock) 7 1000 x /\
  e_acc x = ex_data /\ exists p, TcpWritePacket p ∈ w_events (e_world x).
Proof.
  destruct ex_end_reach as (x & Hr & _ & Ha & _ & _ & Hl). exists x. split; [|by split].
  eapply reach_mono; [|exact Hr]. by intros ? ? [].
Qed.

Lemma tcp_never_faults_witness : exists x y, reach ex_clock ex_network (call_ok ex_clock) 7 1000 x /\
  e_acc x = ex_data /\ step_end ex_clock ex_network (CRecv 5) x y.
Proof.
  destruct ex_end_ok as (x & Hr & Ha & _).
  destruct (tcp_never_faults ex_clock ex_network 7 1000 x (CRecv 5)) as [y Hy];
    [by split|exact Hr|exact I|].
  exists x, y. split; [exact Hr|]. split; [exact Ha|exact Hy].
Defined.

Lemma tcp_invariant_witness : exists x, reach ex_clock ex_network (call_ok ex_clock) 7 1000 x /\
  e_acc x = ex_data /\ 1 <= m_mss (e_tcb x) <= 65419.
Proof.
  destruct ex_end_ok as (x & Hr & Ha & _).
  destruct (tcp_invariant ex_clock ex_network 7 1000 x) as [Hm _]; [by split|exact Hr|].
  exists x. split; [exact Hr|]. split; [exact Ha|exact Hm].
Defined.

Lemma tcp_packets_carry_stream_witness : exists x p,
  reach ex_clock ex_network (call_ok ex_clock) 7 1000 x /\ TcpWritePacket p ∈ w_events (e_world x) /\
  g_conv (parse_segment p) = 7.
Proof.
  destruct ex_end_ok as (x & Hr & _ & p & Hp).
  destruct (tcp_packets_carry_stream ex_clock ex_network 7 1000 x p) as (_ & Hc & _);
    [by split|exact Hr|exact Hp|].
  exists x, p. split; [exact Hr|]. split; [exact Hp|exact Hc].
Defined.

Lemma tcp_delivers_in_order_witness : exists x,
  e_del x = [mkbyte 104] /\
  e_del x ++ zsub (m_rpos (e_tcb x)) (m_rlen (e_tcb x) - m_rpos (e_tcb x)) (m_rbuf (e_tcb x)) = ex_data.
Proof.
  destruct ex_end_reach as (x & Hr & Hd & _ & Hn & Hz & _). exists x. split; [exact Hd|].
  pose proof (tcp_delivers_in_order ex_clock ex_network 7 1000 x (stream_of ex_data)
    ltac:(by split) ltac:(reflexivity) Hr Hn) as H1.
  cbv zeta in H1. rewrite H1, Hd, Hz. reflexivity.
Defined.
End Example.
