(* ===== verification/TcpFacts.v ===== *)
(** * PseudoTcp: windows, timers, results, and limits

    Further promises of a connection, and closed runs that show where the code
    needs the conditions of [call_ok]: without them one datagram makes it read
    or write outside its buffers. *)

From S2P Require Import Prelude TimeUtil ByteOrder PseudoTcp TcpLogic TcpSend TcpRecv TcpConn TcpMain TcpRuns TcpNet.
#[local] Open Scope jingle_scope.
Import Tcp.

Section Facts.
Context `{Platform}.

(** What the receiver parses from a packet is what the sender put in it. *)
Theorem tcp_packet_roundtrip t seq flags now data :
  is_u32 (m_conv t) -> is_u32 seq -> is_u32 (m_rcv_nxt t) -> is_u8 flags -> is_u32 now ->
  is_u32 (m_ts_recent t) -> Z.of_nat (length data) < 65536 ->
  parse_segment (build_packet t seq flags now data) =
    {| g_conv := m_conv t; g_seq := seq; g_ack := m_rcv_nxt t; g_flags := flags;
       g_wnd := u16 (m_rcv_wnd t); g_data := data; g_len := Z.of_nat (length data);
       g_tsval := now; g_tsecr := m_ts_recent t |}.
Proof. apply parse_build_packet. Qed.

(** What is sent next fits the peer's window with what is in flight, fits a
    segment, and is data of the queue. *)
Theorem tcp_window_respected clock network conv now x :
  is_u32 conv -> reach clock network (call_ok clock) conv now x ->
  let t := e_tcb x in
  m_state t <> TCP_CLOSED ->
  let inflight := m_snd_nxt t -u m_snd_una t in
  0 <= inflight <= m_slen t /\ 0 <= nAvailable t <= m_slen t - inflight /\ nAvailable t <= m_mss t /\
  (nAvailable t = 0 \/ inflight + nAvailable t <= m_snd_wnd t).
Proof.
  intros Hc Hr t Ho inflight. destruct (reach_inv _ _ _ _ _ Hc Hr) as [s [_ HT _]]. fold t in HT.
  destruct (tcp_live _ s t HT Ho) as (P & R & sent & unsent & HS). pose proof (ti_base _ _ _ HT) as HB.
  destruct (TcpSend.inflight _ _ _ _ _ (so_inv _ _ _ _ _ _ HS)) as (E & Hi & Hs).
  fold inflight in E. split; [lia|].
  destruct (b_mss _ _ HB) as (Hm & _). pose proof (b_cwnd _ _ HB) as Hcw. unfold cwnd_ok, is_u32 in Hcw.
  apply nAvailable_bounds; [done|lia|lia|lia|apply HB|lia].
Qed.

(** The time [GetNextClock] gives is short enough: while it is positive no
    timer is due, and [NotifyClock] leaves the connection as it is. *)
Theorem tcp_next_clock_enough clock network now t w n :
  GetNextClock now t = Some n -> 0 < n -> n <= CLOSED_TIMEOUT /\
  NotifyClock clock network now t w = Ok tt t w.
Proof.
  unfold GetNextClock, clock_check.
  destruct (decide (m_shutdown t = SD_FORCEFUL)); [done|]. destruct (_ && _); [done|].
  unfold NotifyClock, mbind, M_bind, get.
  destruct (decide (m_state t = TCP_CLOSED)); [intros [= <-] _; done|].
  intros [= Hn] Hpos.
  set (ta := TimeDiff (m_t_ack t +u m_ack_delay t) now) in *.
  set (tr := TimeDiff (m_rto_base t +u m_rx_rto t) now) in *.
  set (tp := TimeDiff (m_lastsend t +u m_rx_rto t) now) in *.
  unfold DEFAULT_TIMEOUT, CLOSED_TIMEOUT in *.
  unfold clock_retransmit, clock_probe, mbind, M_bind, get, mret, M_ret. fold tr tp.
  assert (Hr : negb (m_rto_base t =? 0) && (tr <=? 0) = false).
  { destruct (m_rto_base t =? 0), (m_t_ack t =? 0), (m_snd_wnd t =? 0); cbn [negb andb];
      try reflexivity; apply Z.leb_gt; lia. }
  assert (Hp : (m_snd_wnd t =? 0) && (tp <=? 0) = false).
  { destruct (m_rto_base t =? 0), (m_t_ack t =? 0), (m_snd_wnd t =? 0); cbn [negb andb];
      try reflexivity; apply Z.leb_gt; lia. }
  assert (Ha : negb (m_t_ack t =? 0) && (ta <=? 0) = false).
  { destruct (m_rto_base t =? 0), (m_t_ack t =? 0), (m_snd_wnd t =? 0); cbn [negb andb];
      try reflexivity; apply Z.leb_gt; lia. }
  split.
  - destruct (m_rto_base t =? 0), (m_t_ack t =? 0), (m_snd_wnd t =? 0); lia.
  - rewrite Hr. cbn. fold tp. rewrite Hp. cbn. fold ta. rewrite Ha. done.
Qed.

(** C28. The results of [Send]: as many bytes as fit the buffer; an error when it
    is full, or the connection is not established. *)
Theorem tcp_send_results clock network conv now x b :
  is_u32 conv -> reach clock network (call_ok clock) conv now x -> Z.of_nat (length b) < 4294967296 ->
  let t := e_tcb x in
  wp (Send clock network b) (fun r t' _ =>
    (m_state t <> TCP_ESTABLISHED -> r = -1 /\ m_error t' = ENOTCONN) /\
    (m_state t = TCP_ESTABLISHED -> m_slen t = kSndBufSize -> r = -1 /\ m_error t' = EWOULDBLOCK) /\
    (m_state t = TCP_ESTABLISHED -> m_slen t < kSndBufSize ->
       r = Z.min (Z.of_nat (length b)) (kSndBufSize - m_slen t))) t (e_world x).
Proof.
  intros Hc Hr Hb t. destruct (reach_inv _ _ _ _ _ Hc Hr) as [s [_ HT Hev]]. fold t in HT.
  pose proof (Send_spec clock network conv s t _ b HT Hev Hb) as Hs.
  destruct (decide (m_state t = TCP_ESTABLISHED)) as [He|He].
  - destruct (decide (m_slen t = kSndBufSize)) as [Hf|Hf].
    + unfold Send. wp_steps. rewrite bool_decide_true by done. cbn [negb].
      rewrite (proj2 (Z.eqb_eq _ _) Hf). wp_steps. split; [done|]. split; [done|]. lia.
    + eapply wp_mono; [exact Hs|]. cbv beta. intros r t' w' (_ & _ & _ & _ & Hres).
      split; [done|]. split; [done|]. done.
  - unfold Send. wp_steps. rewrite bool_decide_false by done. cbn [negb]. wp_steps. done.
Qed.
End Facts.

Section Examples.
#[local] Existing Instance little_host.

Lemma tcp_packet_roundtrip_witness :
  parse_segment (build_packet (make 7 1000) 5 FLAG_CTL 99 ex_data) =
    {| g_conv := 7; g_seq := 5; g_ack := 0; g_flags := 2; g_wnd := 61440; g_data := ex_data;
       g_len := 2; g_tsval := 99; g_tsecr := 0 |}.
Proof.
  exact (tcp_packet_roundtrip (make 7 1000) 5 FLAG_CTL 99 ex_data ltac:(by split) ltac:(by split)
    ltac:(by split) ltac:(by split) ltac:(by split) ltac:(by split) ltac:(done)).
Defined.

Lemma ex_end_sizes :
  (fun x => (m_state (e_tcb x), m_slen (e_tcb x))) <$> ex_end = Some (TCP_ESTABLISHED, 2).
Proof. vm_compute. reflexivity. Qed.

Lemma ex_end_open : exists x, reach ex_clock ex_network (call_ok ex_clock) 7 1000 x /\
  m_state (e_tcb x) = TCP_ESTABLISHED /\ m_slen (e_tcb x) = 2.
Proof.
  pose proof ex_end_sizes as E.
  assert (Hr : forall x, ex_end = Some x -> reach ex_clock ex_network
    (fun c z => call_ok ex_clock c z /\ peer_ok (stream_of ex_data) c z) 7 1000 x)
    by (intros x; apply exec_calls_reach; constructor).
  destruct ex_end as [x|]; [|done]. exists x. specialize (Hr x eq_refl). split.
  - eapply reach_mono; [|exact Hr]. by intros ? ? [].
  - injection E as E1 E2. by split.
Qed.

Lemma tcp_window_respected_witness : exists x,
  reach ex_clock ex_network (call_ok ex_clock) 7 1000 x /\ m_slen (e_tcb x) = 2 /\
  nAvailable (e_tcb x) <= m_mss (e_tcb x).
Proof.
  destruct ex_end_open as (x & Hr & Hst & Hl). exists x. split; [exact Hr|]. split; [exact Hl|].
  destruct (tcp_window_respected ex_clock ex_network 7 1000 x) as (_ & _ & Hm & _);
    [by split|exact Hr|by rewrite Hst|]. exact Hm.
Defined.

Lemma tcp_send_results_witness : exists x,
  wp (Send ex_clock ex_network ex_data) (fun r _ _ => r = 2) (e_tcb x) (e_world x).
Proof.
  destruct ex_end_open as (x & Hr & Hst & Hl). exists x.
  eapply wp_mono; [apply (tcp_send_results ex_clock ex_network 7 1000 x ex_data); [by split|exact Hr|done]|].
  cbv beta. intros r t' w' (_ & _ & Hres). rewrite (Hres Hst); rewrite Hl; done.
Defined.

Lemma tcp_next_clock_enough_witness :
  GetNextClock 1500 (make 7 1000) = Some 4000 /\
  NotifyClock ex_clock ex_network 1500 (make 7 1000) (mkWorld 0 0 []) = Ok tt (make 7 1000) (mkWorld 0 0 []).
Proof.
  split; [reflexivity|].
  apply (tcp_next_clock_enough ex_clock ex_network 1500 (make 7 1000) (mkWorld 0 0 []) 4000);
    [reflexivity|lia].
Defined.

(** ** Limits *)

(** [parse] lets a packet of 12 to 23 bytes through to the reads of the header. *)
Example short_packet_overreads :
  NotifyPacket ex_clock ex_network (repeat Byte.x00 12) (make 0 1000) (mkWorld 0 0 []) = Fault OutOfBounds.
Proof. vm_compute. reflexivity. Qed.

(** A segment that runs past the end of the sequence space is placed before the
    buffer: one datagram to a fresh connection. *)
Example wrapping_segment_overwrites :
  NotifyPacket ex_clock ex_network (peer_packet 4294967286 0 0 (repeat Byte.x00 20)) (make 7 1000)
    (mkWorld 0 0 []) = Fault OutOfBounds.
Proof. vm_compute. reflexivity. Qed.

(** After an acknowledgement of a part of a segment, the segment keeps its old
    number: [transmit] of the front segment takes its data from offset
    4294967294 of the send buffer. *)
Definition partial_ack_script : list call :=
  [CPacket (peer_packet 0 FLAG_CTL 0 [mkbyte 0]); CPacket (peer_packet 1 0 1 []);
   CSend [mkbyte 1; mkbyte 2; mkbyte 3; mkbyte 4; mkbyte 5]; CPacket (peer_packet 1 0 3 [])].
Fixpoint run_calls (cs : list call) (t : TCB) (w : World) : option fault :=
  match cs with
  | [] => None
  | c :: cs => match run_call ex_clock ex_network c t w with
               | Ok _ t w => run_calls cs t w
               | Fault f => Some f
               end
  end.
Fixpoint run_tcb (cs : list call) (t : TCB) (w : World) : option TCB :=
  match cs with
  | [] => Some t
  | c :: cs => match run_call ex_clock ex_network c t w with
               | Ok _ t w => run_tcb cs t w
               | Fault f => None
               end
  end.
Example partial_ack_offset :
  (fun t => (m_snd_una t, m_slist t, (fun seg => s_seq seg -u m_snd_una t) <$> m_slist t)) <$>
    run_tcb partial_ack_script (make 7 1000) (mkWorld 0 0 [])
  = Some (3, [mkSSegment 1 3 1 false], [4294967294]).
Proof. vm_compute. reflexivity. Qed.

(** A time stamp from the future fails an assertion. *)
Example future_echo_asserts :
  run_calls [CPacket (peer_packet 0 FLAG_CTL 0 [mkbyte 0]);
    CPacket (build_packet ((make 7 1000) <| m_rcv_nxt := 1 |> <| m_ts_recent := 5000 |>) 1 0 1000 [])]
    (make 7 1000) (mkWorld 0 0 []) = Some AssertFailed.
Proof. vm_compute. reflexivity. Qed.

(** An MTU below the packet overhead gives a segment size of 4 GB. *)
Example small_mtu_wraps : m_mss (adjustMTU ((make 7 1000) <| m_mtu_advise := 100 |>)) = 4294967280.
Proof. vm_compute. reflexivity. Qed.

(** Data that overtake the connect message are kept one byte too far: bytes 1 and
    2 of the stream are [ex_data], a resend of byte 1 alone then delivers the
    first of them twice. *)
Definition early_data_script : list call :=
  [CPacket (peer_packet 1 0 0 ex_data); CPacket (peer_packet 0 FLAG_CTL 0 [mkbyte 0]);
   CPacket (peer_packet 1 0 1 [mkbyte 104]); CRecv 10].
Fixpoint run_delivers (cs : list call) (t : TCB) (w : World) : option bytes :=
  match cs with
  | [] => Some []
  | c :: cs => match run_call ex_clock ex_network c t w with
               | Ok (_, d) t w => (fun d' => d ++ d') <$> run_delivers cs t w
               | Fault f => None
               end
  end.
Example early_data_misplaced :
  run_delivers early_data_script (make 7 1000) (mkWorld 0 0 []) = Some [mkbyte 104; mkbyte 104].
Proof. vm_compute. reflexivity. Qed.
End Examples.
