(* ===== verification/MediaFilters.v ===== *)
(** * Filters of media packets (talk/session/phone/rtputils.cc,
    rtcpmuxfilter.cc, srtpfilter.cc)

    The fields of RTP headers, and the two filters whose state is negotiated by
    an offer and an answer: multiplexing of RTP and RTCP, and the SRTP keys. *)

From S2P Require Import Prelude ByteOrder TimeUtil StdMap Base64.
#[local] Open Scope jingle_scope.

(** [cricket::ContentSource] *)
Inductive ContentSource := CS_LOCAL | CS_REMOTE.
#[export] Instance ContentSource_eq_dec : EqDecision ContentSource.
Proof. solve_decision. Defined.

(** The states of both filters. *)
Inductive FilterState := ST_INIT | ST_SENTOFFER | ST_RECEIVEDOFFER | ST_ACTIVE.
#[export] Instance FilterState_eq_dec : EqDecision FilterState.
Proof. solve_decision. Defined.

(** ** RTP headers: the value, or [None] when the packet is too short *)

Module Rtp.
Definition kMinRtpPacketLen : nat := 12.
Definition kMinRtcpPacketLen : nat := 4.

Definition GetRtpPayloadType (data : bytes) : option Z :=
  if (length data <? kMinRtpPacketLen)%nat then None else Some (Z.land (Get8 data 1) 127).
Definition GetRtpSeqNum (data : bytes) : option Z :=
  if (length data <? kMinRtpPacketLen)%nat then None else Some (GetBE16 (drop 2 data)).
Definition GetRtpTimestamp (data : bytes) : option Z :=
  if (length data <? kMinRtpPacketLen)%nat then None else Some (GetBE32 (drop 4 data)).
Definition GetRtpSsrc (data : bytes) : option Z :=
  if (length data <? kMinRtpPacketLen)%nat then None else Some (GetBE32 (drop 8 data)).
Definition GetRtpHeaderLen (data : bytes) : option nat :=
  if (length data <? kMinRtpPacketLen)%nat then None
  else
    let header_size := (kMinRtpPacketLen + Z.to_nat (Z.land (Get8 data 0) 15) * 4)%nat in
    if (length data <? header_size)%nat then None
    else if negb (Z.land (Get8 data 0) 16 =? 0) then
      if (length data <? header_size + 4)%nat then None
      else
        let header_size := (header_size + Z.to_nat (GetBE16 (drop (header_size + 2) data) + 1) * 4)%nat in
        if (length data <? header_size)%nat then None else Some header_size
    else Some header_size.
Definition GetRtcpType (data : bytes) : option Z :=
  if (length data <? kMinRtcpPacketLen)%nat then None else Some (Get8 data 1).
End Rtp.

(** ** Multiplexing of RTP and RTCP *)

Module Mux.
Record RtcpMuxFilter := mkMux { state_ : FilterState; offer_enable_ : bool }.
#[export] Instance RtcpMuxFilter_eta : Eta RtcpMuxFilter := fun f => mkMux (state_ f) (offer_enable_ f).

Definition make : RtcpMuxFilter := mkMux ST_INIT false.
Definition IsActive (f : RtcpMuxFilter) : bool :=
  bool_decide (state_ f = ST_SENTOFFER) || bool_decide (state_ f = ST_ACTIVE).
Definition SetOffer (offer_enable : bool) (source : ContentSource) (f : RtcpMuxFilter) : RtcpMuxFilter * bool :=
  match state_ f with
  | ST_INIT =>
      (f <| offer_enable_ := offer_enable |>
         <| state_ := match source with CS_LOCAL => ST_SENTOFFER | CS_REMOTE => ST_RECEIVEDOFFER end |>, true)
  | _ => (f, false)
  end.
Definition SetAnswer (answer_enable : bool) (source : ContentSource) (f : RtcpMuxFilter) : RtcpMuxFilter * bool :=
  if (bool_decide (state_ f = ST_SENTOFFER) && bool_decide (source = CS_REMOTE)) ||
     (bool_decide (state_ f = ST_RECEIVEDOFFER) && bool_decide (source = CS_LOCAL)) then
    if offer_enable_ f then (f <| state_ := if answer_enable then ST_ACTIVE else ST_INIT |>, true)
    else if negb answer_enable then (f <| state_ := ST_INIT |>, true)
    else (f, false)
  else (f, false).
Definition DemuxRtcp (f : RtcpMuxFilter) (data : bytes) : bool :=
  if negb (IsActive f) then false
  else
    let type := if (2 <=? length data)%nat then Z.land (Get8 data 1) 127 else 0 in
    (64 <=? type) && (type <? 96).

(** ** Negotiation of multiplexing *)

(** One end offers, the other answers; both ends hear both.  [a_offers] says
    which end makes the offer. *)
Record round := mkRound { a_offers : bool; offered : bool; answered : bool }.
Definition exec_round (r : round) (ends : RtcpMuxFilter * RtcpMuxFilter) : RtcpMuxFilter * RtcpMuxFilter :=
  let side (offers : bool) f :=
    fst (SetAnswer (answered r) (if offers then CS_REMOTE else CS_LOCAL)
      (fst (SetOffer (offered r) (if offers then CS_LOCAL else CS_REMOTE) f))) in
  (side (a_offers r) (fst ends), side (negb (a_offers r)) (snd ends)).
Definition exec (rounds : list round) : RtcpMuxFilter * RtcpMuxFilter := fold_left (fun e r => exec_round r e) rounds (make, make).
(** An answer does not ask for more than the offer. *)
Definition valid_round (r : round) : Prop := answered r = true -> offered r = true.
Definition both (r : round) : bool := offered r && answered r.

Lemma exec_state rounds : Forall valid_round rounds ->
  let s := if existsb both rounds then ST_ACTIVE else ST_INIT in
  state_ (fst (exec rounds)) = s /\ state_ (snd (exec rounds)) = s.
Proof.
  unfold exec. induction rounds as [|r rounds IH] using rev_ind; [done|].
  rewrite Forall_app, fold_left_app, existsb_app. intros [Hr Hv]. apply Forall_inv in Hv. specialize (IH Hr).
  cbn [fold_left existsb]. rewrite orb_false_r. destruct (fold_left _ rounds _) as [fa fb]. cbn [fst snd] in IH.
  destruct IH as [Ha Hb]. destruct fa as [sa oa], fb as [sb ob]. cbn in Ha, Hb. subst sa sb.
  destruct r as [[] o a]; unfold valid_round in Hv; cbn in Hv; destruct (existsb both rounds), o, a; cbn; try done; discriminate (Hv eq_refl).
Qed.

(** The packet type of RTCP under multiplexing: the range RFC 5761 reserves. *)
Lemma demux_spec f data : DemuxRtcp f data = true <->
  IsActive f = true /\ (2 <= length data)%nat /\ 64 <= Get8 data 1 mod 128 < 96.
Proof.
  unfold DemuxRtcp. destruct (IsActive f); cbn [negb]; [|split; [done | by intros []]].
  destruct (Nat.leb_spec 2 (length data)).
  - rewrite (Z.land_ones _ 7 ltac:(lia) : Z.land (Get8 data 1) 127 = _). change (2 ^ 7) with 128. rewrite andb_true_iff, Z.leb_le, Z.ltb_lt. tauto.
  - split; [done | lia].
Qed.

(** Whatever rounds of offers and answers two ends go through, both use
    multiplexing or neither does, and they do exactly if in some round both
    sides agreed; every packet is then taken for RTCP by both or by neither. *)
Theorem mux_ends_agree (rounds : list round) (data : bytes) :
  Forall valid_round rounds ->
  let '(a, b) := exec rounds in
  IsActive a = existsb both rounds /\ IsActive b = existsb both rounds /\
  DemuxRtcp a data = DemuxRtcp b data /\
  (DemuxRtcp a data = true <-> existsb both rounds = true /\ (2 <= length data)%nat /\ 64 <= Get8 data 1 mod 128 < 96).
Proof.
  intros H. destruct (exec_state rounds H) as [Ha Hb]. destruct (exec rounds) as [a b]. cbn in Ha, Hb.
  assert (Hact : forall f, state_ f = (if existsb both rounds then ST_ACTIVE else ST_INIT) -> IsActive f = existsb both rounds).
  { intros f Hf. unfold IsActive. rewrite Hf. by destruct (existsb both rounds). }
  apply Hact in Ha, Hb. split; [done|]. split; [done|].
  split; [unfold DemuxRtcp; by rewrite Ha, Hb | by rewrite demux_spec, Ha].
Qed.
Lemma mux_ends_agree_witness :
  let rounds := [mkRound true true false; mkRound false true true] in
  Forall valid_round rounds /\ DemuxRtcp (fst (exec rounds)) [mkbyte 128; mkbyte 200] = true.
Proof.
  assert (H : Forall valid_round [mkRound true true false; mkRound false true true]) by (repeat constructor; discriminate).
  split; [exact H|].
  refine (proj2 (proj2 (proj2 (proj2 (mux_ends_agree _ [mkbyte 128; mkbyte 200] H)))) _).
  split; [reflexivity | split; [apply le_n | split; [discriminate | reflexivity]]].
Defined.

(** A sent offer without multiplexing makes the filter active all the same: RTP
    of the payload types 64 to 95 is then taken for RTCP. *)
Example offer_without_mux_active :
  let f := fst (SetOffer false CS_LOCAL make) in IsActive f = true /\ DemuxRtcp f [mkbyte 128; mkbyte 72] = true.
Proof. split; reflexivity. Qed.
End Mux.

(** ** SRTP *)

Module Srtp.

(** [struct CryptoParams] *)
Record CryptoParams := mkParams { tag : Z; cipher_suite : bytes; key_params : bytes; session_params : bytes }.
#[export] Instance CryptoParams_eq_dec : EqDecision CryptoParams.
Proof. solve_decision. Defined.
Definition Matches (p q : CryptoParams) : bool := (tag p =? tag q) && bool_decide (cipher_suite p = cipher_suite q).

Definition SRTP_MASTER_KEY_LEN : nat := 30.
Definition CS_AES_CM_128_HMAC_SHA1_80 : bytes := str "AES_CM_128_HMAC_SHA1_80".
Definition CS_AES_CM_128_HMAC_SHA1_32 : bytes := str "AES_CM_128_HMAC_SHA1_32".
Definition CS_DEFAULT : bytes := CS_AES_CM_128_HMAC_SHA1_80.

(** *** Error statistics *)

Inductive Mode := PROTECT | UNPROTECT.
Inductive Error := ERROR_NONE | ERROR_FAIL | ERROR_AUTH | ERROR_REPLAY.
#[export] Instance Error_eq_dec : EqDecision Error.
Proof. solve_decision. Defined.
Definition mode_num (m : Mode) : Z := match m with PROTECT => 0 | UNPROTECT => 1 end.
Definition error_num (e : Error) : Z := match e with ERROR_NONE => 0 | ERROR_FAIL => 1 | ERROR_AUTH => 2 | ERROR_REPLAY => 3 end.

Record FailureKey := mkKey { key_ssrc : Z; key_mode : Mode; key_error : Error }.
Definition key_lt (a b : FailureKey) : bool :=
  (key_ssrc a <? key_ssrc b) || (mode_num (key_mode a) <? mode_num (key_mode b)) || (error_num (key_error a) <? error_num (key_error b)).
#[export] Instance FailureKey_key : MapKey FailureKey := key_lt.

(** [failures_] maps a key to its [last_signal_time]. *)
Record SrtpStat := mkStat { failures_ : smap FailureKey Z; signal_silent_time_ : Z }.
#[export] Instance SrtpStat_eta : Eta SrtpStat := fun s => mkStat (failures_ s) (signal_silent_time_ s).
(** [SignalSrtpError(ssrc, mode, error)] *)
Definition signal : Type := Z * Mode * Error.

Definition HandleSrtpResult (now : Z) (key : FailureKey) (s : SrtpStat) : SrtpStat * list signal :=
  if negb (bool_decide (key_error key = ERROR_NONE)) then
    let last_signal_time := default 0 (map_find key (failures_ s)) in
    if (last_signal_time =? 0) || (s32 (signal_silent_time_ s) <? TimeDiff now last_signal_time) then
      (s <| failures_ := map_set key now (failures_ s) |>, [(key_ssrc key, key_mode key, key_error key)])
    else (s <| failures_ := map_set key last_signal_time (failures_ s) |>, [])
  else (s, []).

(** The status codes of libsrtp that the code distinguishes. *)
Definition err_status_ok : Z := 0.
Definition err_status_auth_fail : Z := 7.
Definition err_status_replay_fail : Z := 9.
Definition err_status_replay_old : Z := 10.

Definition AddProtectRtpResult (now ssrc result : Z) : SrtpStat -> SrtpStat * list signal :=
  HandleSrtpResult now (mkKey ssrc PROTECT
    (if result =? err_status_ok then ERROR_NONE else if result =? err_status_auth_fail then ERROR_AUTH else ERROR_FAIL)).
Definition AddUnprotectRtpResult (now ssrc result : Z) : SrtpStat -> SrtpStat * list signal :=
  HandleSrtpResult now (mkKey ssrc UNPROTECT
    (if result =? err_status_ok then ERROR_NONE else if result =? err_status_auth_fail then ERROR_AUTH
     else if (result =? err_status_replay_fail) || (result =? err_status_replay_old) then ERROR_REPLAY else ERROR_FAIL)).
Definition AddProtectRtcpResult (now result : Z) : SrtpStat -> SrtpStat * list signal := AddProtectRtpResult now 0 result.
Definition AddUnprotectRtcpResult (now result : Z) : SrtpStat -> SrtpStat * list signal := AddUnprotectRtpResult now 0 result.
Definition stat_make : SrtpStat := mkStat [] 1000.

(** *** The library

    The crypto policies, and libsrtp: its contexts, and its calls with the
    status they return.  [srtp_create] gives a context, or a status and what it
    left in the handle. *)

Inductive crypto_policy := aes_cm_128_hmac_sha1_80 | aes_cm_128_hmac_sha1_32.
Inductive ssrc_type := ssrc_any_inbound | ssrc_any_outbound.
Record policy := mkPolicy {
  p_rtp : crypto_policy; p_rtcp : crypto_policy; p_type : ssrc_type; p_key : bytes; p_window_size : Z; p_allow_repeat_tx : bool }.

Section filter.
Context {ctx : Type} (srtp_init srtp_install_event_handler : Z) (auth_tag_len : crypto_policy -> Z)
  (srtp_create : policy -> ctx + Z * option ctx)
  (srtp_protect srtp_protect_rtcp srtp_unprotect srtp_unprotect_rtcp : ctx -> bytes -> Z * ctx * bytes).

Record SrtpSession := mkSession {
  session_ : option ctx; rtp_auth_tag_len_ : Z; rtcp_auth_tag_len_ : Z; srtp_stat_ : SrtpStat; last_send_seq_num_ : option Z }.
#[export] Instance SrtpSession_eta : Eta SrtpSession := fun s =>
  mkSession (session_ s) (rtp_auth_tag_len_ s) (rtcp_auth_tag_len_ s) (srtp_stat_ s) (last_send_seq_num_ s).
Definition session_make : SrtpSession := mkSession None 0 0 stat_make (Some (-1)).

(** [Init]; the argument and the first result are the static [inited_]. *)
Definition Init (inited : bool) : bool * bool :=
  if inited then (true, true)
  else if negb (srtp_init =? err_status_ok) then (false, false)
  else if negb (srtp_install_event_handler =? err_status_ok) then (false, false)
  else (true, true).
Definition suite_policies (cs : bytes) : option (crypto_policy * crypto_policy) :=
  if bool_decide (cs = CS_AES_CM_128_HMAC_SHA1_80) then Some (aes_cm_128_hmac_sha1_80, aes_cm_128_hmac_sha1_80)
  else if bool_decide (cs = CS_AES_CM_128_HMAC_SHA1_32) then Some (aes_cm_128_hmac_sha1_32, aes_cm_128_hmac_sha1_80)
  else None.
Definition SetKey (type : ssrc_type) (cs key : bytes) (inited : bool) (s : SrtpSession) : bool * SrtpSession * bool :=
  if bool_decide (is_Some (session_ s)) then (inited, s, false)
  else
    let '(inited, ok) := Init inited in
    if negb ok then (inited, s, false)
    else
      match suite_policies cs with
      | None => (inited, s, false)
      | Some (rtp, rtcp) =>
          if negb (length key =? SRTP_MASTER_KEY_LEN)%nat then (inited, s, false)
          else
            match srtp_create (mkPolicy rtp rtcp type key 1024 true) with
            | inr (_, handle) => (inited, s <| session_ := handle |>, false)
            | inl c =>
                (inited, s <| session_ := Some c |> <| rtp_auth_tag_len_ := auth_tag_len rtp |>
                           <| rtcp_auth_tag_len_ := auth_tag_len rtcp |>, true)
            end
      end.
Definition SetSend (cs key : bytes) : bool -> SrtpSession -> bool * SrtpSession * bool := SetKey ssrc_any_outbound cs key.
Definition SetRecv (cs key : bytes) : bool -> SrtpSession -> bool * SrtpSession * bool := SetKey ssrc_any_inbound cs key.

(** What a call on a packet does: the packet in place, whether it succeeded
    and the errors it signals. *)
Record outcome := mkOutcome { o_session : SrtpSession; o_data : bytes; o_ok : bool; o_signals : list signal }.
(** The result for the statistics, when the packet has an SSRC. *)
Definition report (add : Z -> SrtpStat -> SrtpStat * list signal) (p : bytes) (st : SrtpStat) : SrtpStat * list signal :=
  match Rtp.GetRtpSsrc p with Some ssrc => add ssrc st | None => (st, []) end.

Definition session_ProtectRtp (now : Z) (p : bytes) (max_len : Z) (s : SrtpSession) : outcome :=
  match session_ s with
  | None => mkOutcome s p false []
  | Some c =>
      if max_len <? Z.of_nat (length p) + rtp_auth_tag_len_ s then mkOutcome s p false []
      else
        let '(err, c, out) := srtp_protect c p in
        let '(st, sig) := report (fun ssrc => AddProtectRtpResult now ssrc err) (take (length p) out) (srtp_stat_ s) in
        let seq_num := Rtp.GetRtpSeqNum (take (length p) out) in
        let s := s <| session_ := Some c |> <| srtp_stat_ := st |> in
        if negb (err =? err_status_ok) then mkOutcome s out false sig
        else mkOutcome (s <| last_send_seq_num_ := seq_num |>) out true sig
  end.
Definition session_ProtectRtcp (now : Z) (p : bytes) (max_len : Z) (s : SrtpSession) : outcome :=
  match session_ s with
  | None => mkOutcome s p false []
  | Some c =>
      if max_len <? Z.of_nat (length p) + 4 + rtcp_auth_tag_len_ s then mkOutcome s p false []
      else
        let '(err, c, out) := srtp_protect_rtcp c p in
        let '(st, sig) := AddProtectRtcpResult now err (srtp_stat_ s) in
        mkOutcome (s <| session_ := Some c |> <| srtp_stat_ := st |>) out (err =? err_status_ok) sig
  end.
Definition session_UnprotectRtp (now : Z) (p : bytes) (s : SrtpSession) : outcome :=
  match session_ s with
  | None => mkOutcome s p false []
  | Some c =>
      let '(err, c, out) := srtp_unprotect c p in
      let '(st, sig) := report (fun ssrc => AddUnprotectRtpResult now ssrc err) (out ++ drop (length out) p) (srtp_stat_ s) in
      mkOutcome (s <| session_ := Some c |> <| srtp_stat_ := st |>) out (err =? err_status_ok) sig
  end.
Definition session_UnprotectRtcp (now : Z) (p : bytes) (s : SrtpSession) : outcome :=
  match session_ s with
  | None => mkOutcome s p false []
  | Some c =>
      let '(err, c, out) := srtp_unprotect_rtcp c p in
      let '(st, sig) := AddUnprotectRtcpResult now err (srtp_stat_ s) in
      mkOutcome (s <| session_ := Some c |> <| srtp_stat_ := st |>) out (err =? err_status_ok) sig
  end.

(** *** The filter *)

Record SrtpFilter : Type := mkFilter {
  state_ : FilterState; offer_params_ : list CryptoParams; send_session_ : SrtpSession; recv_session_ : SrtpSession }.
#[export] Instance SrtpFilter_eta : Eta SrtpFilter := fun f =>
  mkFilter (state_ f) (offer_params_ f) (send_session_ f) (recv_session_ f).
Definition make : SrtpFilter := mkFilter ST_INIT [] session_make session_make.

Definition IsActive (f : SrtpFilter) : bool := bool_decide (state_ f = ST_ACTIVE).
Definition StoreParams (params : list CryptoParams) (source : ContentSource) (f : SrtpFilter) : SrtpFilter * bool :=
  (f <| offer_params_ := params |>
     <| state_ := match source with CS_LOCAL => ST_SENTOFFER | CS_REMOTE => ST_RECEIVEDOFFER end |>, true).
Definition SetOffer (offer_params : list CryptoParams) (source : ContentSource) (f : SrtpFilter) : SrtpFilter * bool :=
  if bool_decide (state_ f = ST_INIT) then StoreParams offer_params source f else (f, false).

(** The selected parameters; [None] for the result false. *)
Definition NegotiateParams (answer_params : list CryptoParams) (f : SrtpFilter) : option CryptoParams :=
  match answer_params with
  | [a] => if bool_decide (offer_params_ f = []) then None else List.find (Matches a) (offer_params_ f)
  | _ => None
  end.
Definition ParseKeyParams (key_params : bytes) (len : nat) : option bytes :=
  if negb (bool_decide (take 7 key_params = str "inline:")) then None
  else
    match B64.DecodeFromArray (drop 7 key_params) B64.DO_STRICT with
    | Some (true, key_str, _) => if (length key_str =? len)%nat then Some key_str else None
    | _ => None
    end.
Definition ApplyParams (send_params recv_params : CryptoParams) (inited : bool) (f : SrtpFilter) : bool * SrtpFilter * bool :=
  match ParseKeyParams (key_params send_params) SRTP_MASTER_KEY_LEN, ParseKeyParams (key_params recv_params) SRTP_MASTER_KEY_LEN with
  | Some send_key, Some recv_key =>
      let '(inited, send, ok) := SetSend (cipher_suite send_params) send_key inited (send_session_ f) in
      let f := f <| send_session_ := send |> in
      if negb ok then (inited, f, false)
      else
        let '(inited, recv, ok) := SetRecv (cipher_suite recv_params) recv_key inited (recv_session_ f) in
        let f := f <| recv_session_ := recv |> in
        if negb ok then (inited, f, false)
        else (inited, f <| offer_params_ := [] |> <| state_ := ST_ACTIVE |>, true)
  | _, _ => (inited, f, false)
  end.
Definition ResetParams (f : SrtpFilter) : SrtpFilter * bool := (f <| offer_params_ := [] |> <| state_ := ST_INIT |>, true).
Definition SetAnswer (answer_params : list CryptoParams) (source : ContentSource) (inited : bool) (f : SrtpFilter) : bool * SrtpFilter * bool :=
  if (bool_decide (state_ f = ST_SENTOFFER) && bool_decide (source = CS_REMOTE)) ||
     (bool_decide (state_ f = ST_RECEIVEDOFFER) && bool_decide (source = CS_LOCAL)) then
    match answer_params with
    | answer :: _ =>
        match NegotiateParams answer_params f with
        | Some selected_params =>
            if bool_decide (state_ f = ST_SENTOFFER) then ApplyParams selected_params answer inited f
            else ApplyParams answer selected_params inited f
        | None => (inited, f, false)
        end
    | [] => let '(f, ok) := ResetParams f in (inited, f, ok)
    end
  else (inited, f, false).

(** The packets of a filter that is not active are refused. *)
Definition filtered (session : SrtpSession) (call : SrtpSession -> outcome) (f : SrtpFilter) (p : bytes) : outcome :=
  if negb (IsActive f) then mkOutcome session p false [] else call session.
Definition ProtectRtp (now : Z) (p : bytes) (max_len : Z) (f : SrtpFilter) : SrtpFilter * outcome :=
  let o := filtered (send_session_ f) (session_ProtectRtp now p max_len) f p in (f <| send_session_ := o_session o |>, o).
Definition ProtectRtcp (now : Z) (p : bytes) (max_len : Z) (f : SrtpFilter) : SrtpFilter * outcome :=
  let o := filtered (send_session_ f) (session_ProtectRtcp now p max_len) f p in (f <| send_session_ := o_session o |>, o).
Definition UnprotectRtp (now : Z) (p : bytes) (f : SrtpFilter) : SrtpFilter * outcome :=
  let o := filtered (recv_session_ f) (session_UnprotectRtp now p) f p in (f <| recv_session_ := o_session o |>, o).
Definition UnprotectRtcp (now : Z) (p : bytes) (f : SrtpFilter) : SrtpFilter * outcome :=
  let o := filtered (recv_session_ f) (session_UnprotectRtcp now p) f p in (f <| recv_session_ := o_session o |>, o).
Definition set_signal_silent_time (t : Z) (f : SrtpFilter) : SrtpFilter :=
  let upd (s : SrtpSession) := s <| srtp_stat_ := (srtp_stat_ s) <| signal_silent_time_ := t |> |> in
  f <| send_session_ := upd (send_session_ f) |> <| recv_session_ := upd (recv_session_ f) |>.
(** *** Facts *)

(** The key parameters that are accepted: one text for every key. *)
Lemma parse_key_params kp len key : ParseKeyParams kp len = Some key <-> kp = str "inline:" ++ B64.Encode key /\ length key = len.
Proof.
  unfold ParseKeyParams. split.
  - destruct (bool_decide_reflect (take 7 kp = str "inline:")) as [Hi|]; cbn [negb]; [|done].
    destruct (B64.DecodeFromArray (drop 7 kp) B64.DO_STRICT) as [[[[] k] n]|] eqn:E; try done.
    destruct (Nat.eqb_spec (length k) len); [|done]. intros [= <-]. apply B64.strict_sound in E as [E _].
    rewrite <- (take_drop 7 kp), Hi, E. done.
  - intros [-> <-]. rewrite take_app_length', drop_app_length' by done. rewrite bool_decide_true by done. cbn [negb].
    rewrite B64.base64_roundtrip by done. rewrite Nat.eqb_refl. done.
Qed.

(** A session that [SetKey] has created. *)
Definition created (type : ssrc_type) (cs key : bytes) (s : SrtpSession) : Prop :=
  exists rtp rtcp c, suite_policies cs = Some (rtp, rtcp) /\ srtp_create (mkPolicy rtp rtcp type key 1024 true) = inl c /\
    session_ s = Some c /\ rtp_auth_tag_len_ s = auth_tag_len rtp /\ rtcp_auth_tag_len_ s = auth_tag_len rtcp.
Lemma SetKey_created type cs key i s i' s' :
  SetKey type cs key i s = (i', s', true) -> session_ s = None /\ created type cs key s'.
Proof.
  unfold SetKey. destruct (bool_decide_reflect (is_Some (session_ s))) as [|Hn]; [done|].
  destruct (Init i) as [i1 []]; cbn [negb]; [|done].
  destruct (suite_policies cs) as [[rtp rtcp]|] eqn:Hp; [|done].
  destruct (length key =? SRTP_MASTER_KEY_LEN)%nat; cbn [negb]; [|done].
  destruct (srtp_create _) as [c|[err handle]] eqn:Hc; [|done].
  intros [= <- <-]. split; [by apply eq_None_not_Some|]. exists rtp, rtcp, c. done.
Qed.
(** What an accepted answer leaves behind. *)
Definition keyed (send_params recv_params : CryptoParams) (f : SrtpFilter) : Prop :=
  exists send_key recv_key,
    ParseKeyParams (key_params send_params) SRTP_MASTER_KEY_LEN = Some send_key /\
    ParseKeyParams (key_params recv_params) SRTP_MASTER_KEY_LEN = Some recv_key /\
    created ssrc_any_outbound (cipher_suite send_params) send_key (send_session_ f) /\
    created ssrc_any_inbound (cipher_suite recv_params) recv_key (recv_session_ f).
Lemma ApplyParams_keyed sp rp i f i' f' :
  ApplyParams sp rp i f = (i', f', true) -> state_ f' = ST_ACTIVE /\ keyed sp rp f'.
Proof.
  unfold ApplyParams. destruct (ParseKeyParams (key_params sp) _) as [sk|] eqn:Es; [|done].
  destruct (ParseKeyParams (key_params rp) _) as [rk|] eqn:Er; [|done].
  destruct (SetSend _ _ _ _) as [[i1 s1] []] eqn:E1; cbn [negb]; [|done].
  destruct (SetRecv _ _ _ _) as [[i2 s2] []] eqn:E2; cbn [negb]; [|done].
  intros [= <- <-]. split; [done|]. exists sk, rk. apply SetKey_created in E1 as [_ ?], E2 as [_ ?]. done.
Qed.
Lemma ApplyParams_state sp rp i f i' f' :
  ApplyParams sp rp i f = (i', f', false) -> state_ f' = state_ f /\ offer_params_ f' = offer_params_ f.
Proof. unfold ApplyParams. repeat case_match; cbn; intros [= <- <-]; done. Qed.

(** The offer and the answer that a filter agreed on, and in which roles. *)
Definition selected (offer : list CryptoParams) (answer p : CryptoParams) : Prop :=
  List.find (Matches answer) offer = Some p.
Lemma SetAnswer_accepts answer source i f i' f' :
  SetAnswer [answer] source i f = (i', f', true) ->
  exists p, selected (offer_params_ f) answer p /\ state_ f' = ST_ACTIVE /\
    ((state_ f = ST_SENTOFFER /\ source = CS_REMOTE /\ keyed p answer f') \/
     (state_ f = ST_RECEIVEDOFFER /\ source = CS_LOCAL /\ keyed answer p f')).
Proof.
  unfold SetAnswer, NegotiateParams. destruct (_ || _) eqn:Hs; [|done].
  destruct (bool_decide (offer_params_ f = [])); [done|].
  destruct (List.find _ _) as [p|] eqn:Hf; [|done]. exists p. split; [done|].
  rewrite orb_true_iff, !andb_true_iff, !bool_decide_eq_true in Hs.
  destruct (bool_decide_reflect (state_ f = ST_SENTOFFER)) as [E|E].
  - destruct Hs as [[_ ->]|[E2 _]]; [|congruence]. apply ApplyParams_keyed in H as [? ?]. auto.
  - destruct Hs as [[? _]|[E2 ->]]; [done|]. apply ApplyParams_keyed in H as [? ?]. auto.
Qed.

(** *** One end protects, the other unprotects *)

(** The packets [a] is given, until one cannot be protected, and what [b]
    makes of them when they arrive in order. *)
Fixpoint stream (packets : list (Z * bytes * Z)) (a b : SrtpFilter) : list (bytes * option bytes) :=
  match packets with
  | [] => []
  | (now, p, max_len) :: packets =>
      let '(a, o) := ProtectRtp now p max_len a in
      if o_ok o then
        let '(b, o') := UnprotectRtp now (o_data o) b in
        (p, if o_ok o' then Some (o_data o') else None) :: stream packets a b
      else []
  end.

(** Packets in sequence: one with a whole RTP header, later than the last one of
    its source by less than half of the sequence numbers.  Others may be refused
    as replayed, also when the sender may repeat them. *)
Definition of_source (ssrc : option Z) (p : bytes) : bool := bool_decide (Rtp.GetRtpSsrc p = ssrc).
Definition in_sequence (before : list bytes) (p : bytes) : bool :=
  bool_decide (is_Some (Rtp.GetRtpHeaderLen p)) &&
  match last (List.filter (of_source (Rtp.GetRtpSsrc p)) before) with
  | None => true
  | Some q =>
      let ahead := (default 0 (Rtp.GetRtpSeqNum p) - default 0 (Rtp.GetRtpSeqNum q)) mod 2 ^ 16 in
      (0 <? ahead) && (ahead <? 2 ^ 15)
  end.
Fixpoint sequenced (before : list bytes) (packets : list (Z * bytes * Z)) : Prop :=
  match packets with
  | [] => True
  | (_, p, _) :: packets => in_sequence before p = true /\ sequenced (before ++ [p]) packets
  end.

Section media.
(** The contexts of a sender and of its receiver, after these packets. *)
Context (paired : list bytes -> ctx -> ctx -> Prop).
(** What libsrtp promises of two contexts with the same key and policies: the
    receiver reads a packet that was protected, when it is in sequence. *)
Definition create_pairs : Prop := forall rtp rtcp key cs ci,
  srtp_create (mkPolicy rtp rtcp ssrc_any_outbound key 1024 true) = inl cs ->
  srtp_create (mkPolicy rtp rtcp ssrc_any_inbound key 1024 true) = inl ci -> paired [] cs ci.
Definition unprotect_inverts : Prop := forall before cs ci p cs' out,
  paired before cs ci -> in_sequence before p = true -> srtp_protect cs p = (err_status_ok, cs', out) ->
  exists ci', srtp_unprotect ci out = (err_status_ok, ci', p) /\ paired (before ++ [p]) cs' ci'.

Definition linked (before : list bytes) (a b : SrtpFilter) : Prop :=
  state_ a = ST_ACTIVE /\ state_ b = ST_ACTIVE /\
  exists cs ci, session_ (send_session_ a) = Some cs /\ session_ (recv_session_ b) = Some ci /\ paired before cs ci.

Lemma stream_linked : unprotect_inverts -> forall packets before a b, linked before a b -> sequenced before packets ->
  Forall (fun r => snd r = Some (fst r)) (stream packets a b).
Proof.
  intros Hlib packets. induction packets as [|[[now p] max_len] packets IH]; intros before a b (Ha & Hb & cs & ci & Hs & Hr & Hp) Hq; [done|].
  destruct Hq as [Hin Hq].
  cbn [stream]. unfold ProtectRtp, filtered, IsActive. rewrite Ha, bool_decide_true by done. cbn [negb].
  unfold session_ProtectRtp. rewrite Hs. destruct (max_len <? _); [done|].
  destruct (srtp_protect cs p) as [[err cs'] out] eqn:Ep. destruct (report _ _ _) as [st sig].
  destruct (Z.eqb_spec err err_status_ok) as [->|]; cbn [negb o_ok]; [|done].
  cbn [o_data]. unfold UnprotectRtp, filtered, IsActive. rewrite Hb, bool_decide_true by done. cbn [negb].
  unfold session_UnprotectRtp. rewrite Hr. destruct (Hlib _ _ _ _ _ _ Hp Hin Ep) as (ci' & -> & Hp').
  destruct (report _ _ _) as [st' sig']. cbn [o_ok o_data Z.eqb err_status_ok]. constructor; [done|].
  apply (IH (before ++ [p])); [|exact Hq]. split; [done|]. split; [done|]. exists cs', ci'. done.
Qed.

Lemma created_paired cs key s r : create_pairs ->
  created ssrc_any_outbound cs key s -> created ssrc_any_inbound cs key r ->
  exists c1 c2, session_ s = Some c1 /\ session_ r = Some c2 /\ paired [] c1 c2.
Proof.
  intros Hlib (rtp & rtcp & c1 & E & C1 & S1 & _) (rtp' & rtcp' & c2 & E' & C2 & S2 & _).
  rewrite E in E'. injection E' as <- <-. exists c1, c2. eauto.
Qed.
Lemma keyed_linked sp rp a b : create_pairs -> Matches sp rp = true \/ Matches rp sp = true ->
  state_ a = ST_ACTIVE -> state_ b = ST_ACTIVE -> keyed sp rp a -> keyed rp sp b -> linked [] a b /\ linked [] b a.
Proof.
  intros Hlib Hm Ha Hb (k1 & k2 & P1 & P2 & S1 & R1) (k3 & k4 & P3 & P4 & S2 & R2).
  rewrite P2 in P3. rewrite P1 in P4. injection P3 as <-. injection P4 as <-.
  unfold Matches in Hm. assert (cipher_suite sp = cipher_suite rp) as E.
  { destruct Hm as [Hm|Hm]; apply andb_true_iff in Hm as [_ Hm%bool_decide_eq_true]; congruence. }
  rewrite <- E in *. split; (split; [done|]; split; [done|]); by eapply created_paired.
Qed.

(** C35. When both ends accept an offer and its answer, both are active, and the
    packets in sequence that either of them protects are read by the other, in
    that order, as they were. *)
Theorem srtp_call (offer : list CryptoParams) (answer : CryptoParams) (a b a1 b1 a2 b2 : SrtpFilter) (ia ib ia' ib' : bool)
    (packets : list (Z * bytes * Z)) :
  create_pairs -> unprotect_inverts -> sequenced [] packets ->
  SetOffer offer CS_LOCAL a = (a1, true) -> SetOffer offer CS_REMOTE b = (b1, true) ->
  SetAnswer [answer] CS_LOCAL ib b1 = (ib', b2, true) -> SetAnswer [answer] CS_REMOTE ia a1 = (ia', a2, true) ->
  IsActive a2 = true /\ IsActive b2 = true /\
  Forall (fun r => snd r = Some (fst r)) (stream packets a2 b2) /\
  Forall (fun r => snd r = Some (fst r)) (stream packets b2 a2).
Proof.
  intros Hc Hu Hq Ha Hb Sb Sa.
  assert (Hoff : forall src f f', SetOffer offer src f = (f', true) ->
    state_ f' = (match src with CS_LOCAL => ST_SENTOFFER | CS_REMOTE => ST_RECEIVEDOFFER end) /\ offer_params_ f' = offer).
  { intros src f f'. unfold SetOffer, StoreParams. case_bool_decide; [|done]. by intros [= <-]. }
  apply Hoff in Ha as [Ea Oa], Hb as [Eb Ob].
  apply SetAnswer_accepts in Sa as (p & Hp & Hsa & [(_ & _ & Ka) | (E & _)]); [|congruence].
  apply SetAnswer_accepts in Sb as (p' & Hp' & Hsb & [(E & _) | (_ & _ & Kb)]); [congruence|].
  unfold selected in *. rewrite Oa in Hp. rewrite Ob, Hp in Hp'. injection Hp' as <-.
  destruct (keyed_linked p answer a2 b2 Hc) as [L1 L2]; [right; apply (find_some _ _ Hp) | done.. |].
  unfold IsActive. rewrite !bool_decide_true by done. split; [done|]. split; [done|]. split; by eapply stream_linked.
Qed.

End media.

(** *** What a filter does on its own *)

Inductive call :=
| SetOffer_ (offer : list CryptoParams) (source : ContentSource)
| SetAnswer_ (answer : list CryptoParams) (source : ContentSource)
| ProtectRtp_ (now : Z) (p : bytes) (max_len : Z) | ProtectRtcp_ (now : Z) (p : bytes) (max_len : Z)
| UnprotectRtp_ (now : Z) (p : bytes) | UnprotectRtcp_ (now : Z) (p : bytes)
| set_signal_silent_time_ (t : Z).
Definition apply (c : call) (s : bool * SrtpFilter) : bool * SrtpFilter :=
  let '(i, f) := s in
  match c with
  | SetOffer_ o src => (i, fst (SetOffer o src f))
  | SetAnswer_ a src => fst (SetAnswer a src i f)
  | ProtectRtp_ now p m => (i, fst (ProtectRtp now p m f))
  | ProtectRtcp_ now p m => (i, fst (ProtectRtcp now p m f))
  | UnprotectRtp_ now p => (i, fst (UnprotectRtp now p f))
  | UnprotectRtcp_ now p => (i, fst (UnprotectRtcp now p f))
  | set_signal_silent_time_ t => (i, set_signal_silent_time t f)
  end.
Definition run (i : bool) (calls : list call) : bool * SrtpFilter := fold_left (fun s c => apply c s) calls (i, make).

Definition other_side (s : ContentSource) : ContentSource := match s with CS_LOCAL => CS_REMOTE | CS_REMOTE => CS_LOCAL end.
(** In an offer the filter knows the parameters and the side they came from;
    when it is active one of them was chosen by an answer of the other side. *)
Definition offered_by (calls : list call) (f : SrtpFilter) : Prop :=
  match state_ f with
  | ST_INIT => True
  | ST_SENTOFFER => SetOffer_ (offer_params_ f) CS_LOCAL ∈ calls
  | ST_RECEIVEDOFFER => SetOffer_ (offer_params_ f) CS_REMOTE ∈ calls
  | ST_ACTIVE =>
      exists offer src answer p k1 k2,
        SetOffer_ offer src ∈ calls /\ SetAnswer_ [answer] (other_side src) ∈ calls /\ p ∈ offer /\ Matches answer p = true /\
        key_params p = str "inline:" ++ B64.Encode k1 /\ length k1 = SRTP_MASTER_KEY_LEN /\
        key_params answer = str "inline:" ++ B64.Encode k2 /\ length k2 = SRTP_MASTER_KEY_LEN /\
        is_Some (session_ (send_session_ f)) /\ is_Some (session_ (recv_session_ f))
  end.
Lemma offered_more calls c f : offered_by calls f -> offered_by (calls ++ [c]) f.
Proof.
  unfold offered_by. destruct (state_ f); rewrite ?elem_of_app; [done | tauto | tauto |].
  intros (offer & src & answer & p & k1 & k2 & H1 & H2 & H). exists offer, src, answer, p, k1, k2. rewrite !elem_of_app. tauto.
Qed.
(** The packet calls keep the negotiation and the contexts. *)
Definition packet_same (f f' : SrtpFilter) : Prop :=
  state_ f' = state_ f /\ offer_params_ f' = offer_params_ f /\
  (is_Some (session_ (send_session_ f)) -> is_Some (session_ (send_session_ f'))) /\
  (is_Some (session_ (recv_session_ f)) -> is_Some (session_ (recv_session_ f'))).
Lemma offered_same calls f f' : packet_same f f' -> offered_by calls f -> offered_by calls f'.
Proof.
  intros (E1 & E2 & H1 & H2). unfold offered_by. rewrite E1, E2. destruct (state_ f); try done.
  intros (offer & src & answer & p & k1 & k2 & H). exists offer, src, answer, p, k1, k2. tauto.
Qed.
Lemma filtered_session s call f p : (forall s', is_Some (session_ s') -> is_Some (session_ (o_session (call s')))) ->
  is_Some (session_ s) -> is_Some (session_ (o_session (filtered s call f p))).
Proof. intros H Hs. unfold filtered. destruct (negb _); [done | by apply H]. Qed.
Ltac keeps_session := intros s [x Hx]; rewrite Hx; repeat case_match; cbn; rewrite ?Hx; by eexists.
Lemma packet_calls c f i : (forall o s, c <> SetOffer_ o s) -> (forall a s, c <> SetAnswer_ a s) -> packet_same f (snd (apply c (i, f))).
Proof.
  assert (H1 : forall now p m s, is_Some (session_ s) -> is_Some (session_ (o_session (session_ProtectRtp now p m s)))).
  { unfold session_ProtectRtp. intros now p m. keeps_session. }
  assert (H2 : forall now p m s, is_Some (session_ s) -> is_Some (session_ (o_session (session_ProtectRtcp now p m s)))).
  { unfold session_ProtectRtcp. intros now p m. keeps_session. }
  assert (H3 : forall now p s, is_Some (session_ s) -> is_Some (session_ (o_session (session_UnprotectRtp now p s)))).
  { unfold session_UnprotectRtp. intros now p. keeps_session. }
  assert (H4 : forall now p s, is_Some (session_ s) -> is_Some (session_ (o_session (session_UnprotectRtcp now p s)))).
  { unfold session_UnprotectRtcp. intros now p. keeps_session. }
  intros Ho Ha. destruct c as [o s|a s| | | | |]; [by destruct (Ho o s) | by destruct (Ha a s) | ..]; unfold packet_same; cbn;
    (split; [done|]; split; [done|]); split; try done; apply filtered_session; auto.
Qed.

Lemma SetKey_keeps type cs key i s i' s' ok : SetKey type cs key i s = (i', s', ok) -> is_Some (session_ s) -> is_Some (session_ s').
Proof. unfold SetKey. destruct (bool_decide_reflect (is_Some (session_ s))); [by intros [= <- <- <-] | done]. Qed.
Lemma SetAnswer_refused a src i f i' f' : SetAnswer a src i f = (i', f', false) -> packet_same f f'.
Proof.
  assert (Happly : forall sp rp, ApplyParams sp rp i f = (i', f', false) -> packet_same f f').
  { intros sp rp. unfold ApplyParams. destruct (ParseKeyParams (key_params sp) _); [|by intros [= <- <-]].
    destruct (ParseKeyParams (key_params rp) _); [|by intros [= <- <-]].
    destruct (SetSend _ _ _ _) as [[i1 s1] ok1] eqn:E1. pose proof (SetKey_keeps _ _ _ _ _ _ _ _ E1).
    destruct ok1; cbn [negb]; [|by intros [= <- <-]].
    destruct (SetRecv _ _ _ _) as [[i2 s2] ok2] eqn:E2. pose proof (SetKey_keeps _ _ _ _ _ _ _ _ E2).
    destruct ok2; [done|]. by intros [= <- <-]. }
  unfold SetAnswer. destruct (_ || _); [|by intros [= <- <-]]. destruct a as [|answer a]; [done|].
  destruct (NegotiateParams _ _); [|by intros [= <- <-]]. destruct (bool_decide _); apply Happly.
Qed.
Lemma run_offered calls i : offered_by calls (snd (run i calls)).
Proof.
  induction calls as [|c calls IH] using rev_ind; [done|]. unfold run in *. rewrite fold_left_app. cbn [fold_left].
  destruct (fold_left _ calls _) as [i1 f]. cbn [snd] in IH.
  destruct c as [o src|a src| | | | |]; try (eapply offered_same; [by apply packet_calls | by apply offered_more]); cbn [apply snd].
  - unfold SetOffer, StoreParams. destruct (bool_decide _); [|by apply offered_more]. unfold offered_by. cbn.
    destruct src; apply elem_of_app; right; by left.
  - destruct (SetAnswer a src i1 f) as [[i2 f2] []] eqn:E; cbn [fst snd].
    + destruct a as [|answer [|answer' a]].
      * unfold SetAnswer in E. destruct (_ || _); [|done]. injection E as <- <-. done.
      * apply SetAnswer_accepts in E as (p & Hp & Hs & [(Hf & -> & Hk) | (Hf & -> & Hk)]);
          destruct Hk as (k1 & k2 & P1 & P2 & (? & ? & c1 & _ & _ & S1 & _) & (? & ? & c2 & _ & _ & S2 & _));
          apply parse_key_params in P1 as [P1 L1], P2 as [P2 L2]; unfold offered_by in *; rewrite Hs; rewrite Hf in IH;
          apply find_some in Hp as [Hp Hm]; apply list_elem_of_In in Hp.
        { exists (offer_params_ f), CS_LOCAL, answer, p, k1, k2. rewrite !elem_of_app, S1, S2. cbn [other_side].
          split; [tauto|]. split; [right; by left|]. eauto 10. }
        { exists (offer_params_ f), CS_REMOTE, answer, p, k2, k1. rewrite !elem_of_app, S1, S2. cbn [other_side].
          split; [tauto|]. split; [right; by left|]. eauto 10. }
      * unfold SetAnswer in E. cbn in E. destruct (_ || _); done.
    + apply (offered_same _ f); [by eapply SetAnswer_refused | by apply offered_more].
Qed.

(** C36. A filter is active only after an answer of the other side chose one of the
    parameters offered, with two keys of the right size; until then every
    packet is refused and left alone, and then both contexts exist. *)
Theorem srtp_active_negotiated (calls : list call) (i : bool) (now max_len : Z) (data : bytes) :
  let f := snd (run i calls) in
  offered_by calls f /\
  (IsActive f = false -> Forall (fun o => o_ok o = false /\ o_data o = data /\ o_signals o = [])
     [snd (ProtectRtp now data max_len f); snd (ProtectRtcp now data max_len f);
      snd (UnprotectRtp now data f); snd (UnprotectRtcp now data f)]).
Proof.
  cbn zeta. split; [apply run_offered|]. intros E.
  unfold ProtectRtp, ProtectRtcp, UnprotectRtp, UnprotectRtcp, filtered. rewrite E. repeat constructor.
Qed.
End filter.

(** *** The theorem at work

    A library whose contexts are the key and the packets so far: it protects
    whatever it is given, and reads back only packets in sequence. *)

Definition toy : Type := bytes * list bytes.
Definition toy_create (p : policy) : toy + Z * option toy := inl (p_key p, []).
Definition toy_protect (c : toy) (p : bytes) : Z * toy * bytes := (err_status_ok, (fst c, snd c ++ [p]), p ++ take 1 (fst c)).
Definition toy_unprotect (c : toy) (p : bytes) : Z * toy * bytes :=
  let q := take (length p - length (take 1 (fst c))) p in
  if in_sequence (snd c) q then (err_status_ok, (fst c, snd c ++ [q]), q) else (err_status_replay_fail, c, p).
Definition toy_tag (p : crypto_policy) : Z := match p with aes_cm_128_hmac_sha1_80 => 10 | aes_cm_128_hmac_sha1_32 => 4 end.

Definition ex_offer : CryptoParams := mkParams 1 CS_DEFAULT (str "inline:YUJDZGVmZ2hpSktMbW9QUXJzVHVWd3l6MTIzNDU2") [].
Definition ex_answer : CryptoParams := mkParams 1 CS_DEFAULT (str "inline:MTIzNDU2Nzg5MDEyMzQ1Njc4OTAxMjM0NTY3ODkw") [].
Definition ex_packet : bytes := mkbyte 128 :: replicate 15 (mkbyte 1).
Definition ex_set : list CryptoParams -> ContentSource -> bool -> SrtpFilter -> bool * SrtpFilter * bool :=
  SetAnswer 0 0 toy_tag toy_create.
Definition ex_b : SrtpFilter := snd (fst (ex_set [ex_answer] CS_LOCAL false (fst (SetOffer [ex_offer] CS_REMOTE make)))).
Definition ex_a : SrtpFilter := snd (fst (ex_set [ex_answer] CS_REMOTE false (fst (SetOffer [ex_offer] CS_LOCAL make)))).

Definition ex_next : bytes := [mkbyte 128; mkbyte 1; mkbyte 1; mkbyte 2] ++ replicate 12 (mkbyte 1).
Definition ex_packets : list (Z * bytes * Z) := [(0, ex_packet, 100); (20, ex_next, 100)].
Lemma srtp_call_witness :
  stream toy_protect toy_unprotect ex_packets ex_a ex_b = [(ex_packet, Some ex_packet); (ex_next, Some ex_next)] /\
  Forall (fun r => snd r = Some (fst r)) (stream toy_protect toy_unprotect ex_packets ex_a ex_b).
Proof.
  split; [vm_compute; reflexivity|].
  refine (proj1 (proj2 (proj2 (srtp_call 0 0 toy_tag toy_create toy_protect toy_unprotect
    (fun before cs ci => cs = ci /\ snd cs = before)
    [ex_offer] ex_answer make make _ _ ex_a ex_b false false true true ex_packets _ _ _ eq_refl eq_refl _ _)))).
  - intros rtp rtcp key cs ci [= <-] [= <-]. split; reflexivity.
  - intros before [k l] ci p cs' out [<- <-] Hin [= <- <-]. exists (k, l ++ [p]). unfold toy_unprotect. cbn [fst snd] in *.
    rewrite length_app, Nat.add_sub, take_app_length, Hin. split; [reflexivity | split; reflexivity].
  - vm_compute. repeat split.
  - vm_compute. reflexivity.
  - vm_compute. reflexivity.
Defined.
(** A packet that is sent again is protected, and refused by the receiver. *)
Example repeat_refused :
  stream toy_protect toy_unprotect [(0, ex_packet, 100); (20, ex_packet, 100)] ex_a ex_b = [(ex_packet, Some ex_packet); (ex_packet, None)].
Proof. vm_compute. reflexivity. Qed.
Lemma srtp_active_negotiated_witness :
  let f := snd (run 0 0 toy_tag toy_create toy_protect toy_protect toy_unprotect toy_unprotect false [SetOffer_ [ex_offer] CS_LOCAL]) in
  IsActive f = false /\ o_ok (snd (ProtectRtp toy_protect 0 ex_packet 100 f)) = false.
Proof.
  split; [reflexivity|].
  exact (proj1 (Forall_inv (proj2 (srtp_active_negotiated 0 0 toy_tag toy_create toy_protect toy_protect toy_unprotect toy_unprotect
    [SetOffer_ [ex_offer] CS_LOCAL] false 0 100 ex_packet) eq_refl))).
Defined.

(** Two failures of different streams and modes precede each other: the
    comparison of [failures_] is not an order, which [std::map] requires. *)
Example FailureKey_unordered :
  key_lt (mkKey 1 UNPROTECT ERROR_FAIL) (mkKey 2 PROTECT ERROR_FAIL) = true /\
  key_lt (mkKey 2 PROTECT ERROR_FAIL) (mkKey 1 UNPROTECT ERROR_FAIL) = true.
Proof. split; reflexivity. Qed.
(** A context that could not be completed stays in the handle: it is used for
    nothing and no later key is accepted. *)
Example failed_create_blocks :
  let fails (p : policy) : toy + Z * option toy := inr (3, Some ([], [])) in
  let '(_, s, ok) := SetSend 0 0 toy_tag fails CS_DEFAULT (replicate 30 (mkbyte 7)) true session_make in
  ok = false /\ snd (SetSend 0 0 toy_tag toy_create CS_DEFAULT (replicate 30 (mkbyte 7)) true s) = false.
Proof. split; reflexivity. Qed.
End Srtp.
