(* ===== verification/MessageQueue.v ===== *)
(** * Message queues and threads (talk/base/messagequeue.h, messagequeue.cc,
    messagehandler.cc, thread.h, thread.cc)

    [Mq] has the queue: one function per critical section.  [Thr] has the thread
    that owns it, as a transition system: the thread runs [Get] and [Send]s of
    its own to other threads step by step, while other threads post, send, clear
    and quit between any two steps. *)

From Stdlib Require Import Sorting.Sorted.
From S2P Require Import Prelude TimeUtil.
#[local] Open Scope jingle_scope.

Module Mq.

Definition kForever : Z := -1.
Definition MQID_ANY : Z := u32 (-1).
Definition MQID_DISPOSE : Z := u32 (-2).
Definition kMaxMsgLatency : Z := 150.

(** Handlers and data are named by numbers; [None] is NULL. *)
Record Message := mkMessage { phandler : option nat; message_id : Z; pdata : option nat; ts_sensitive : Z }.
#[export] Instance Message_eta : Eta Message := fun m => mkMessage (phandler m) (message_id m) (pdata m) (ts_sensitive m).
#[export] Instance Message_eq_dec : EqDecision Message.
Proof. solve_decision. Defined.
Definition no_message : Message := mkMessage None 0 None 0.
Definition Match (handler : option nat) (id : Z) (m : Message) : bool :=
  (bool_decide (handler = None) || bool_decide (handler = phandler m)) && ((id =? MQID_ANY) || (id =? message_id m)).

Record DelayedMessage := mkDelayed { cmsDelay_ : Z; msTrigger_ : Z; num_ : Z; msg_ : Message }.
(** [operator<]: the greatest is the one to come first. *)
Definition dm_lt (a b : DelayedMessage) : bool :=
  (msTrigger_ b <? msTrigger_ a) || ((msTrigger_ b =? msTrigger_ a) && (num_ b <? num_ a)).

(** [ss_] is the state of the socket server: whether a [WakeUp] has not been
    consumed by a [Wait] yet.  The priority queue is the list of its elements. *)
Record MessageQueue := mkQueue {
  ss_ : bool; fStop_ : bool; fPeekKeep_ : bool; msgPeek_ : Message; active_ : bool;
  msgq_ : list Message; dmsgq_ : list DelayedMessage; dmsgq_next_num_ : Z }.
#[export] Instance MessageQueue_eta : Eta MessageQueue := fun q =>
  mkQueue (ss_ q) (fStop_ q) (fPeekKeep_ q) (msgPeek_ q) (active_ q) (msgq_ q) (dmsgq_ q) (dmsgq_next_num_ q).
Definition make : MessageQueue := mkQueue false false false no_message false [] [] 0.

Definition WakeUp (q : MessageQueue) : MessageQueue := q <| ss_ := true |>.
(** [Quit] stops the queue, then wakes it: two steps. *)
Definition Quit_stop (q : MessageQueue) : MessageQueue := q <| fStop_ := true |>.
Definition Quit (q : MessageQueue) : MessageQueue := WakeUp (Quit_stop q).
Definition IsQuitting (q : MessageQueue) : bool := fStop_ q.
Definition Restart (q : MessageQueue) : MessageQueue := q <| fStop_ := false |>.
Definition EnsureActive (q : MessageQueue) : MessageQueue := q <| active_ := true |>.

Definition Post (now : Z) (handler : option nat) (id : Z) (data : option nat) (time_sensitive : bool) (q : MessageQueue) : MessageQueue :=
  if fStop_ q then q
  else
    let msg := mkMessage handler id data (if time_sensitive then now +u kMaxMsgLatency else 0) in
    WakeUp (EnsureActive q <| msgq_ := msgq_ q ++ [msg] |>).
(** [None] when the VERIFY of the counter fails. *)
Definition DoDelayPost (cmsDelay tstamp : Z) (handler : option nat) (id : Z) (data : option nat) (q : MessageQueue) : option MessageQueue :=
  if fStop_ q then Some q
  else
    let dmsg := mkDelayed cmsDelay tstamp (dmsgq_next_num_ q) (mkMessage handler id data 0) in
    let next := dmsgq_next_num_ q +u 1 in
    if negb (next =? 0) then Some (WakeUp (EnsureActive q <| dmsgq_ := dmsgq_ q ++ [dmsg] |> <| dmsgq_next_num_ := next |>)) else None.
Definition PostDelayed (now cmsDelay : Z) (handler : option nat) (id : Z) (data : option nat) (q : MessageQueue) : option MessageQueue :=
  t ← TimeAfter now cmsDelay; DoDelayPost cmsDelay t handler id data q.
Definition PostAt (now tstamp : Z) (handler : option nat) (id : Z) (data : option nat) (q : MessageQueue) : option MessageQueue :=
  DoDelayPost (TimeUntil now tstamp) tstamp handler id data q.
Definition Dispose (now : Z) (doomed : option nat) (q : MessageQueue) : MessageQueue :=
  if bool_decide (doomed = None) then q else Post now None MQID_DISPOSE doomed false q.

(** The greatest element, and the others. *)
Fixpoint pop_top (d : DelayedMessage) (l : list DelayedMessage) : DelayedMessage * list DelayedMessage :=
  match l with
  | [] => (d, [])
  | x :: l => if dm_lt d x then let '(t, r) := pop_top x l in (t, d :: r) else let '(t, r) := pop_top d l in (t, x :: r)
  end.

Definition GetDelay (now : Z) (q : MessageQueue) : Z :=
  match msgq_ q with
  | _ :: _ => 0
  | [] =>
      match dmsgq_ q with
      | d :: l => let delay := TimeUntil now (msTrigger_ (fst (pop_top d l))) in if delay <? 0 then 0 else delay
      | [] => kForever
      end
  end.

(** The messages that are removed, in an order of the heap's own. *)
Definition Clear (handler : option nat) (id : Z) (q : MessageQueue) : MessageQueue * list Message :=
  let peeked := fPeekKeep_ q && Match handler id (msgPeek_ q) in
  (q <| fPeekKeep_ := fPeekKeep_ q && negb peeked |>
     <| msgq_ := List.filter (fun m => negb (Match handler id m)) (msgq_ q) |>
     <| dmsgq_ := List.filter (fun d => negb (Match handler id (msg_ d))) (dmsgq_ q) |>,
   (if peeked then [msgPeek_ q] else []) ++ List.filter (Match handler id) (msgq_ q) ++
   List.filter (Match handler id) (map msg_ (dmsgq_ q))).

(** *** The critical section of [Get] *)

(** The triggered messages, in the order they enter the queue, those that stay,
    and the time to the next. *)
Fixpoint triggered (fuel : nat) (msCurrent : Z) (delayed : list DelayedMessage) : list DelayedMessage * list DelayedMessage * Z :=
  match fuel, delayed with
  | S fuel, d :: l =>
      let '(top, rest) := pop_top d l in
      if TimeIsLater msCurrent (msTrigger_ top) then ([], delayed, TimeDiff (msTrigger_ top) msCurrent)
      else let '(moved, stay, next) := triggered fuel msCurrent rest in (top :: moved, stay, next)
  | _, _ => ([], delayed, kForever)
  end.
(** The first message that is not to be disposed of: the disposed ones, it and
    the rest; [None] when an ASSERT fails. *)
Fixpoint take_front (l : list Message) : option (list Message * option Message * list Message) :=
  match l with
  | [] => Some ([], None, [])
  | m :: l =>
      if message_id m =? MQID_DISPOSE then
        if bool_decide (phandler m = None) then '(gone, r, rest) ← take_front l; Some (m :: gone, r, rest) else None
      else Some ([], Some m, l)
  end.
Record checked := mkChecked {
  c_queue : MessageQueue; c_message : option Message; c_delay_next : Z; c_moved : list DelayedMessage; c_disposed : list Message }.
Definition check (msCurrent : Z) (q : MessageQueue) : option checked :=
  let '(moved, stay, next) := triggered (length (dmsgq_ q)) msCurrent (dmsgq_ q) in
  '(gone, r, rest) ← take_front (msgq_ q ++ map msg_ moved);
  Some (mkChecked (q <| dmsgq_ := stay |> <| msgq_ := rest |>) r next moved gone).

(** How long to wait: [cmsNext]. *)
Definition next_wait (cmsWait cmsElapsed cmsDelayNext : Z) : Z :=
  if cmsWait =? kForever then cmsDelayNext
  else
    let cmsNext := Z.max 0 (cmsWait - cmsElapsed) in
    if negb (cmsDelayNext =? kForever) && (cmsDelayNext <? cmsNext) then cmsDelayNext else cmsNext.
Definition empty (q : MessageQueue) : bool :=
  bool_decide (msgq_ q = []) && match dmsgq_ q with [] => true | _ => false end && negb (fPeekKeep_ q).
Definition size (q : MessageQueue) : nat := (length (msgq_ q) + length (dmsgq_ q) + if fPeekKeep_ q then 1 else 0)%nat.
(** ** The priority queue *)

Lemma dm_lt_spec a b : dm_lt a b = true <-> msTrigger_ b < msTrigger_ a \/ (msTrigger_ b = msTrigger_ a /\ num_ b < num_ a).
Proof. unfold dm_lt. rewrite orb_true_iff, andb_true_iff, !Z.ltb_lt, Z.eqb_eq. done. Qed.
Lemma dm_lt_false a b : dm_lt a b = false <-> msTrigger_ a < msTrigger_ b \/ (msTrigger_ a = msTrigger_ b /\ num_ a <= num_ b).
Proof. rewrite <- not_true_iff_false, dm_lt_spec. lia. Qed.
(** [a] comes no later than [b]. *)
Definition first (a b : DelayedMessage) : Prop := dm_lt a b = false.
Lemma pop_top_spec d l : let '(t, r) := pop_top d l in Permutation (d :: l) (t :: r) /\ Forall (first t) r.
Proof.
  revert d. induction l as [|x l IH]; intros d; cbn [pop_top]; [done|].
  destruct (dm_lt d x) eqn:E.
  - specialize (IH x). destruct (pop_top x l) as [t r]. destruct IH as [Hp Hf]. split.
    + rewrite Hp. apply Permutation_swap.
    + constructor; [|done]. assert (t = x \/ x ∈ r) as [->|Hx].
      { assert (x ∈ t :: r) as Hin by (rewrite <- Hp; by left). apply elem_of_cons in Hin as [->|]; auto. }
      * apply dm_lt_spec in E. apply dm_lt_false. lia.
      * rewrite Forall_forall in Hf. specialize (Hf x Hx). unfold first in *. rewrite dm_lt_false in *. apply dm_lt_spec in E. lia.
  - specialize (IH d). destruct (pop_top d l) as [t r]. destruct IH as [Hp Hf]. split.
    + rewrite Permutation_swap, Hp. apply Permutation_swap.
    + constructor; [|done]. assert (t = d \/ d ∈ r) as [->|Hx].
      { assert (d ∈ t :: r) as Hin by (rewrite <- Hp; by left). apply elem_of_cons in Hin as [->|]; auto. }
      * done.
      * rewrite Forall_forall in Hf. specialize (Hf d Hx). unfold first in *. rewrite dm_lt_false in *. lia.
Qed.

(** ** The critical section *)

Lemma triggered_perm fuel now l : let '(moved, stay, next) := triggered fuel now l in Permutation l (moved ++ stay).
Proof.
  revert l. induction fuel as [|fuel IH]; intros l; [destruct l; cbn; reflexivity|]. destruct l as [|d l]; [cbn; reflexivity|]. cbn [triggered].
  pose proof (pop_top_spec d l) as Hp. destruct (pop_top d l) as [t r]. destruct Hp as [Hp _].
  destruct (TimeIsLater now (msTrigger_ t)); [cbn; reflexivity|]. specialize (IH r). destruct (triggered fuel now r) as [[moved stay] next].
  cbn. rewrite Hp, IH. done.
Qed.
Lemma triggered_due fuel now l : Forall (fun d => TimeIsLater now (msTrigger_ d) = false) (fst (fst (triggered fuel now l))).
Proof.
  revert l. induction fuel as [|fuel IH]; intros l; [destruct l; constructor|]. destruct l as [|d l]; [constructor|]. cbn [triggered].
  destruct (pop_top d l) as [t r]. destruct (TimeIsLater now (msTrigger_ t)) eqn:E; [constructor|].
  specialize (IH r). destruct (triggered fuel now r) as [[moved stay] next]. by constructor.
Qed.
(** The moved messages come in the order of their times and numbers, before all
    that stay. *)
Lemma triggered_sorted fuel now l : let '(moved, stay, _) := triggered fuel now l in
  StronglySorted first moved /\ Forall (fun m => Forall (first m) stay) moved.
Proof.
  revert l. induction fuel as [|fuel IH]; intros l; [destruct l; repeat constructor|]. destruct l as [|d l]; [repeat constructor|]. cbn [triggered].
  pose proof (pop_top_spec d l) as Hp. destruct (pop_top d l) as [t r]. destruct Hp as [_ Hf].
  destruct (TimeIsLater now (msTrigger_ t)); [repeat constructor|].
  pose proof (triggered_perm fuel now r) as Hperm. specialize (IH r). destruct (triggered fuel now r) as [[moved stay] next].
  destruct IH as [Hs Hst]. rewrite Hperm in Hf. apply Forall_app in Hf as [Hm Hy]. split; by constructor.
Qed.

(** The time to the next message, when the clock does not wrap between now and
    the times of the messages. *)
Definition near (now : Z) (l : list DelayedMessage) : Prop :=
  Forall (fun d => is_u32 (msTrigger_ d) /\ -2147483648 < msTrigger_ d - now < 2147483648) l.
Lemma later_near now t : is_u32 now -> is_u32 t -> -2147483648 < t - now < 2147483648 ->
  TimeIsLater now t = (now <? t) /\ TimeDiff t now = t - now.
Proof.
  intros Hn Ht H. assert (E : TimeDiff t now = t - now).
  { pose proof (TimeDiff_exact now t) as Hd. rewrite !u32_small in Hd by done. apply Hd. lia. }
  split; [|done]. rewrite TimeIsLater_diff, E. apply eq_true_iff_eq. rewrite !Z.ltb_lt. lia.
Qed.
Lemma triggered_complete fuel now l : is_u32 now -> near now l -> (length l <= fuel)%nat ->
  let '(moved, stay, next) := triggered fuel now l in
  Forall (fun d => msTrigger_ d <= now) moved /\ Forall (fun d => now < msTrigger_ d) stay /\
  (stay = [] -> next = kForever) /\
  (stay <> [] -> 0 < next /\ Forall (fun d => next <= msTrigger_ d - now) stay /\ Exists (fun d => next = msTrigger_ d - now) stay).
Proof.
  intros Hn. revert l. induction fuel as [|fuel IH]; intros l Hl Hf.
  - destruct l; [|cbn in Hf; lia]. cbn. repeat constructor; done.
  - destruct l as [|d l]; [cbn; repeat constructor; done|]. cbn [triggered].
    pose proof (pop_top_spec d l) as Hp. destruct (pop_top d l) as [t r]. destruct Hp as [Hp Hft].
    unfold near in Hl. rewrite Hp in Hl. apply Forall_cons in Hl as [[Ht Htn] Hr].
    destruct (later_near now (msTrigger_ t) Hn Ht Htn) as [-> ->].
    assert (Hfirst : Forall (fun d => msTrigger_ t <= msTrigger_ d) (d :: l)).
    { rewrite Hp. constructor; [lia|]. eapply Forall_impl; [exact Hft|]. unfold first. intros x Hx. rewrite dm_lt_false in Hx. lia. }
    destruct (Z.ltb_spec now (msTrigger_ t)).
    + split; [done|]. split; [eapply Forall_impl; [exact Hfirst|]; cbn; lia|]. split; [done|]. intros _. split; [lia|].
      split; [eapply Forall_impl; [exact Hfirst|]; cbn; lia|].
      apply Exists_exists. exists t. split; [|done]. rewrite Hp. by left.
    + specialize (IH r Hr). apply Permutation_length in Hp. cbn in Hp, Hf. specialize (IH ltac:(lia)).
      destruct (triggered fuel now r) as [[moved stay] next]. destruct IH as (H1 & H2). split; [by constructor | done].
Qed.

Lemma take_front_spec l gone r rest : take_front l = Some (gone, r, rest) ->
  l = gone ++ (match r with Some m => [m] | None => [] end) ++ rest /\
  Forall (fun m => message_id m = MQID_DISPOSE /\ phandler m = None) gone /\
  (forall m, r = Some m -> message_id m <> MQID_DISPOSE) /\ (r = None -> rest = []).
Proof.
  revert gone. induction l as [|m l IH]; intros gone; cbn [take_front]; [by intros [= <- <- <-]|].
  destruct (Z.eqb_spec (message_id m) MQID_DISPOSE).
  - destruct (bool_decide_reflect (phandler m = None)); [|done].
    destruct (take_front l) as [[[g r'] rest']|]; [|done]. cbn. intros [= <- -> ->].
    destruct (IH g eq_refl) as (-> & Hg & H). split; [done|]. split; [by constructor | done].
  - intros [= <- <- <-]. split; [done|]. split; [done|]. split; [by intros ? [= <-] | done].
Qed.
Lemma check_spec now q c : check now q = Some c ->
  let moved := c_moved c in
  (exists stay next, triggered (length (dmsgq_ q)) now (dmsgq_ q) = (moved, stay, next) /\ dmsgq_ (c_queue c) = stay /\ c_delay_next c = next) /\
  msgq_ q ++ map msg_ moved = c_disposed c ++ (match c_message c with Some m => [m] | None => [] end) ++ msgq_ (c_queue c) /\
  Forall (fun m => message_id m = MQID_DISPOSE /\ phandler m = None) (c_disposed c) /\
  (c_message c = None -> msgq_ (c_queue c) = []) /\
  ss_ (c_queue c) = ss_ q /\ fStop_ (c_queue c) = fStop_ q /\ fPeekKeep_ (c_queue c) = fPeekKeep_ q /\ msgPeek_ (c_queue c) = msgPeek_ q /\
  active_ (c_queue c) = active_ q /\ dmsgq_next_num_ (c_queue c) = dmsgq_next_num_ q.
Proof.
  unfold check. destruct (triggered _ _ _) as [[moved stay] next] eqn:Et.
  destruct (take_front _) as [[[gone r] rest]|] eqn:E; [|done]. cbn. intros [= <-]. cbn.
  destruct (take_front_spec _ _ _ _ E) as (H1 & H2 & H3 & H4). split; [eauto|]. auto 20.
Qed.
End Mq.

Module Thr.
Import Mq.

(** ** The thread that owns a queue *)

(** [_SendMessage]: the sender is known by the ticket of its call, whose [ready]
    flag is membership in [ready_]. *)
Record SendMessage := mkSend { ticket : nat; s_msg : Message }.

(** Where the thread is in [Get]: about to read [has_sends_], to take the next
    sent message, in the handler of one, before the critical section, before
    the test of [fStop_], in [Wait].  [Replying] and [Sleeping] are the loop of a
    [Send] of its own to another thread: the test of [ready], and its [Wait].
    In [Idle] and in [Handling] the thread runs code of its client. *)
Inductive pc := Idle | Receiving | Popping | Handling (s : SendMessage) | Checking | Stopping (cmsDelayNext : Z) | Waiting (cmsNext : Z)
| Replying | Sleeping.

(** A [Send] of the thread itself that waits for its reply: [ready] is membership
    of its number in [replied_]; it was called by client code at [call_from]. *)
Record call := mkCall { call_number : nat; call_waited : bool; call_from : pc }.

(** How a message entered the queue: posted, or delayed and due; then with the
    time by the clock of [Get] and the number the next delayed message gets. *)
Inductive arrival := Posted (m : Message) | Due (d : DelayedMessage) (now next_num : Z).
Definition arrival_msg (a : arrival) : Message := match a with Posted m => m | Due d _ _ => msg_ d end.

(** [waking] counts the calls of other threads that have changed the state,
    [Quit], [Send] and replies, and have yet to call [WakeUp].  [calls_] are the
    sends the thread waits for, the innermost first.  The fields from [accepted]
    on are the history: the messages that were posted, that entered the queue,
    that [Get] returned, that [Clear] removed, that were disposed of, the sends
    that were made, whose handler was started, that were handled and cleared,
    the number of the sends that handlers of sends made, and whether a wake-up
    was used up by the [Wait] of a [Send] and not made up for. *)
Record state := mkState {
  queue : MessageQueue; sendlist_ : list SendMessage; has_sends_ : bool;
  pc_ : pc; peek_ : bool; cmsWait_ : Z; msStart_ : Z; msCurrent_ : Z;
  waking : nat; ready_ : list nat; calls_ : list call; next_call_ : nat; replied_ : list nat;
  accepted : list Message; arrived : list arrival; delivered : list Message; dropped : list Message; disposed : list Message;
  sent : list SendMessage; started : list SendMessage; handled : list SendMessage; cleared : list SendMessage;
  nested : nat; owed : bool }.
#[export] Instance state_eta : Eta state := fun s =>
  mkState (queue s) (sendlist_ s) (has_sends_ s) (pc_ s) (peek_ s) (cmsWait_ s) (msStart_ s) (msCurrent_ s) (waking s) (ready_ s)
    (calls_ s) (next_call_ s) (replied_ s)
    (accepted s) (arrived s) (delivered s) (dropped s) (disposed s) (sent s) (started s) (handled s) (cleared s) (nested s) (owed s).
Definition start : state := mkState make [] false Idle false 0 0 0 0 [] [] 0 [] [] [] [] [] [] [] [] [] [] 0 false.

Inductive event :=
| EPost (now : Z) (handler : option nat) (id : Z) (data : option nat) (time_sensitive : bool)
| EDelayPost (cmsDelay tstamp : Z) (handler : option nat) (id : Z) (data : option nat)
| EClear (handler : option nat) (id : Z)
| EQuit | EWakeUp | ERestart
| ESend (handler : option nat) (id : Z) (data : option nat)
| EReply (number : nat)
| TSend | TReply | TSleep
| TGet (peek : bool) (cmsWait now : Z) | TReceive | TPop | THandled | TCheck | TStop | TWait (ok : bool) (now : Z).

(** [Get] returns; [Peek] keeps the message. *)
Definition return_ (r : option Message) (s : state) : state :=
  let s := s <| pc_ := Idle |> in
  match r with
  | None => s
  | Some m =>
      if peek_ s then s <| queue := (queue s) <| msgPeek_ := m |> <| fPeekKeep_ := true |> |>
      else s <| delivered := delivered s ++ [m] |>
  end.
(** The start of [Peek] and [Get]. *)
Definition Get_start (peek : bool) (cmsWait now : Z) (s : state) : state :=
  let q := queue s in
  if fPeekKeep_ q then
    if peek then s else s <| queue := q <| fPeekKeep_ := false |> |> <| delivered := delivered s ++ [msgPeek_ q] |>
  else s <| pc_ := Receiving |> <| peek_ := peek |> <| cmsWait_ := cmsWait |> <| msStart_ := now |> <| msCurrent_ := now |>.
(** [Thread::Send] up to its critical section. *)
Definition Send_push (handler : option nat) (id : Z) (data : option nat) (s : state) : state :=
  let smsg := mkSend (length (sent s)) (mkMessage handler id data 0) in
  s <| queue := EnsureActive (queue s) |> <| sendlist_ := sendlist_ s ++ [smsg] |> <| has_sends_ := true |>
    <| waking := S (waking s) |> <| sent := sent s ++ [smsg] |>.
(** [Thread::ReceiveSends]: the unlocked test, one turn of the loop up to the
    handler, and what follows the handler.  [Get] and the loop of [Send] call it
    and go on with the critical section and with [Wait]. *)
Definition after_receive (s : state) : pc := match calls_ s with [] => Checking | _ :: _ => Sleeping end.
Definition receive_test (s : state) : state := s <| pc_ := if has_sends_ s then Popping else after_receive s |>.
Definition receive_pop (s : state) : state :=
  match sendlist_ s with
  | [] => s <| has_sends_ := false |> <| pc_ := after_receive s |>
  | smsg :: l => s <| sendlist_ := l |> <| started := started s ++ [smsg] |> <| pc_ := Handling smsg |>
  end.
Definition receive_ready (smsg : SendMessage) (s : state) : state :=
  s <| ready_ := ticket smsg :: ready_ s |> <| handled := handled s ++ [smsg] |> <| pc_ := Popping |>.
(** [Thread::Send] to another thread: its message is in the list of that thread,
    and that thread was woken; the test of [ready], with the [WakeUp] that makes
    up for what the loop has used up; and the [Wait] of the loop. *)
Definition is_handling (p : pc) : bool := match p with Handling _ => true | _ => false end.
Definition Send_call (s : state) : state :=
  s <| calls_ := mkCall (next_call_ s) false (pc_ s) :: calls_ s |> <| next_call_ := S (next_call_ s) |> <| pc_ := Replying |>
    <| nested := if is_handling (pc_ s) then S (nested s) else nested s |>.
Definition Send_test (c : call) (rest : list call) (s : state) : state :=
  if bool_decide (call_number c ∈ replied_ s) then
    let q := if call_waited c then WakeUp (queue s) else queue s in
    s <| queue := q |> <| calls_ := rest |> <| pc_ := call_from c |> <| owed := owed s && negb (ss_ q) |>
  else s <| pc_ := Receiving |>.
Definition Send_wait (c : call) (rest : list call) (s : state) : state :=
  s <| queue := (queue s) <| ss_ := false |> |> <| calls_ := mkCall (call_number c) true (call_from c) :: rest |> <| pc_ := Replying |>
    <| owed := owed s || ss_ (queue s) |>.
(** [Thread::Clear]. *)
Definition Clear (handler : option nat) (id : Z) (s : state) : state :=
  let gone := List.filter (fun x => Match handler id (s_msg x)) (sendlist_ s) in
  let '(q, removed) := Mq.Clear handler id (queue s) in
  s <| sendlist_ := List.filter (fun x => negb (Match handler id (s_msg x))) (sendlist_ s) |>
    <| ready_ := map ticket gone ++ ready_ s |> <| queue := q |>
    <| dropped := dropped s ++ removed |> <| cleared := cleared s ++ gone |>.
(** After [Wait]. *)
Definition after_wait (ok : bool) (now : Z) (s : state) : state :=
  let s := s <| queue := (queue s) <| ss_ := false |> |> in
  if negb ok then return_ None s
  else
    let cmsElapsed := TimeDiff now (msStart_ s) in
    let s := s <| msCurrent_ := now |> in
    if negb (cmsWait_ s =? kForever) && (cmsWait_ s <=? cmsElapsed) then return_ None s else s <| pc_ := Receiving |>.

(** One atomic step; [None] when it cannot happen there, or an ASSERT fails. *)
Definition step (e : event) (s : state) : option state :=
  match e, pc_ s with
  | EPost now h id data ts, _ =>
      let q := Post now h id data ts (queue s) in
      let new := drop (length (msgq_ (queue s))) (msgq_ q) in
      Some (s <| queue := q |> <| accepted := accepted s ++ new |> <| arrived := arrived s ++ map Posted new |>)
  | EDelayPost delay tstamp h id data, _ =>
      q ← DoDelayPost delay tstamp h id data (queue s);
      Some (s <| queue := q |> <| accepted := accepted s ++ map msg_ (drop (length (dmsgq_ (queue s))) (dmsgq_ q)) |>)
  | EClear h id, _ => Some (Clear h id s)
  | EQuit, _ => Some (s <| queue := Quit_stop (queue s) |> <| waking := S (waking s) |>)
  | EWakeUp, _ => match waking s with S n => Some (s <| queue := WakeUp (queue s) |> <| waking := n |>) | 0%nat => None end
  | ERestart, _ => Some (s <| queue := Restart (queue s) |>)
  | ESend h id data, _ => Some (Send_push h id data s)
  | EReply t, _ =>
      if bool_decide (t ∈ map call_number (calls_ s) /\ t ∉ replied_ s) then
        Some (s <| replied_ := t :: replied_ s |> <| waking := S (waking s) |>)
      else None
  | TSend, (Idle | Handling _) => Some (Send_call s)
  | TReply, Replying => match calls_ s with c :: rest => Some (Send_test c rest s) | [] => None end
  | TSleep, Sleeping => match calls_ s with c :: rest => Some (Send_wait c rest s) | [] => None end
  | TGet peek cmsWait now, Idle => Some (Get_start peek cmsWait now s)
  | TReceive, Receiving => Some (receive_test s)
  | TPop, Popping => Some (receive_pop s)
  | THandled, Handling smsg => Some (receive_ready smsg s)
  | TCheck, Checking =>
      c ← check (msCurrent_ s) (queue s);
      let s := s <| queue := c_queue c |> <| arrived := arrived s ++ map (fun d => Due d (msCurrent_ s) (dmsgq_next_num_ (queue s))) (c_moved c) |> <| disposed := disposed s ++ c_disposed c |> in
      Some (match c_message c with Some m => return_ (Some m) s | None => s <| pc_ := Stopping (c_delay_next c) |> end)
  | TStop, Stopping next =>
      Some (if fStop_ (queue s) then return_ None s
            else s <| pc_ := Waiting (next_wait (cmsWait_ s) (TimeDiff (msCurrent_ s) (msStart_ s)) next) |>)
  | TWait ok now, Waiting _ => Some (after_wait ok now s)
  | _, _ => None
  end.
Fixpoint run (es : list event) (s : state) : option state :=
  match es with [] => Some s | e :: es => s ← step e s; run es s end.
Inductive reach : state -> Prop :=
| reach_start : reach start
| reach_step e s s' : reach s -> step e s = Some s' -> reach s'.
(** [ProcessMessages], with what happens in its turns: what [Get] gave, whether
    the queue is quitting after it, and the time after [Dispatch].  The messages
    it dispatches and the waits it asks for; [None] while it goes on. *)
Fixpoint process_loop (cmsLoop msEnd cmsNext : Z) (turns : list (option Message * bool * Z)) : list Message * list Z * option bool :=
  match turns with
  | [] => ([], [], None)
  | (got, quitting, now) :: turns =>
      match got with
      | None => ([], [cmsNext], Some (negb quitting))
      | Some m =>
          if cmsLoop =? kForever then
            let '(ms, waits, r) := process_loop cmsLoop msEnd cmsNext turns in (m :: ms, cmsNext :: waits, r)
          else
            let next := TimeUntil now msEnd in
            if next <? 0 then ([m], [cmsNext], Some true)
            else let '(ms, waits, r) := process_loop cmsLoop msEnd next turns in (m :: ms, cmsNext :: waits, r)
      end
  end.
(** [None] when the ASSERT of [TimeAfter] fails. *)
Definition ProcessMessages (cmsLoop now : Z) (turns : list (option Message * bool * Z)) : option (list Message * list Z * option bool) :=
  msEnd ← (if cmsLoop =? kForever then Some 0 else TimeAfter now cmsLoop);
  Some (process_loop cmsLoop msEnd cmsLoop turns).

(** ** Every message is in one place *)

Definition peeked (q : MessageQueue) : list Message := if fPeekKeep_ q then [msgPeek_ q] else [].
(** Where client code was when it called the outermost send, or where it is. *)
Fixpoint base_of (p : pc) (l : list call) : pc := match l with [] => p | c :: l => base_of (call_from c) l end.
Definition base (s : state) : pc := base_of (pc_ s) (calls_ s).
Definition message_inv (s : state) : Prop :=
  Permutation (accepted s)
    (delivered s ++ peeked (queue s) ++ msgq_ (queue s) ++ map msg_ (dmsgq_ (queue s)) ++ dropped s ++ disposed s) /\
  sublist (delivered s ++ peeked (queue s) ++ msgq_ (queue s)) (map arrival_msg (arrived s)) /\
  match base s with Idle => True | _ => fPeekKeep_ (queue s) = false end.

(** A delayed message enters the queue before another if its time, as a number,
    is before that of the other, or is the same and it was posted first; unless
    the other was posted after it had entered. *)
Definition comes_first (d e : DelayedMessage) : Prop :=
  msTrigger_ d < msTrigger_ e \/ (msTrigger_ d = msTrigger_ e /\ num_ d <= num_ e).
Definition in_due_order (a b : arrival) : Prop :=
  match a, b with Due d _ next_num, Due e _ _ => comes_first d e \/ next_num <= num_ e | _, _ => True end.
(** Its time had come. *)
Definition was_due (a : arrival) : Prop :=
  match a with Due d now _ => TimeIsLater now (msTrigger_ d) = false | Posted _ => True end.

(** The sends whose handlers run, the innermost first. *)
Definition handling (p : pc) : list SendMessage := match p with Handling x => [x] | _ => [] end.
Definition current (s : state) : list SendMessage := handling (pc_ s) ++ concat (map (fun c => handling (call_from c)) (calls_ s)).
Definition send_inv (s : state) : Prop :=
  Permutation (sent s) (handled s ++ current s ++ sendlist_ s ++ cleared s) /\
  Permutation (started s) (handled s ++ current s) /\
  sublist (started s ++ sendlist_ s) (sent s) /\
  map ticket (sent s) = seq 0 (length (sent s)) /\
  (forall t, t ∈ ready_ s <-> t ∈ map ticket (handled s ++ cleared s)) /\
  (nested s = 0%nat -> started s = handled s ++ current s /\ Forall (fun c => call_from c = Idle) (calls_ s)).
(** Only client code makes sends: outside [Get], or in the handler of a send. *)
Fixpoint calls_ok (l : list call) : Prop :=
  match l with
  | [] => True
  | c :: l => (is_handling (call_from c) = true \/ (call_from c = Idle /\ l = [])) /\ calls_ok l
  end.
Definition call_inv (s : state) : Prop :=
  calls_ok (calls_ s) /\
  match pc_ s with
  | Replying | Sleeping => calls_ s <> []
  | Idle | Checking | Stopping _ | Waiting _ => calls_ s = []
  | _ => True
  end.

(** The steps that do not touch the messages. *)
Definition same_messages (s s' : state) : Prop :=
  accepted s' = accepted s /\ arrived s' = arrived s /\ delivered s' = delivered s /\ dropped s' = dropped s /\ disposed s' = disposed s /\
  peeked (queue s') = peeked (queue s) /\ msgq_ (queue s') = msgq_ (queue s) /\ dmsgq_ (queue s') = dmsgq_ (queue s).
Lemma message_inv_same s s' : same_messages s s' ->
  (match base s' with Idle => True | _ => fPeekKeep_ (queue s') = false end) -> message_inv s -> message_inv s'.
Proof.
  unfold message_inv. intros (-> & -> & -> & -> & -> & -> & -> & ->) Hp (H1 & H2 & _). done.
Qed.

Lemma filter_partition {A} (f : A -> bool) (l : list A) : Permutation l (List.filter f l ++ List.filter (fun x => negb (f x)) l).
Proof.
  induction l as [|x l IH]; cbn [List.filter]; [done|]. destruct (f x); cbn [negb app]; [by constructor|].
  rewrite <- Permutation_middle. by constructor.
Qed.
Lemma filter_map_msg (f : Message -> bool) l :
  List.filter f (map msg_ l) = map msg_ (List.filter (fun d => f (msg_ d)) l).
Proof. induction l as [|x l IH]; cbn [List.filter map]; [done|]. rewrite IH. by destruct (f (msg_ x)). Qed.
Lemma filter_sublist {A} (f : A -> bool) (l : list A) : sublist (List.filter f l) l.
Proof. induction l as [|x l IH]; cbn [List.filter]; [done|]. destruct (f x); by constructor. Qed.

Lemma Clear_messages h id q : let '(q', removed) := Mq.Clear h id q in
  Permutation (peeked q ++ msgq_ q ++ map msg_ (dmsgq_ q)) (peeked q' ++ msgq_ q' ++ map msg_ (dmsgq_ q') ++ removed) /\
  sublist (peeked q' ++ msgq_ q') (peeked q ++ msgq_ q) /\ (fPeekKeep_ q = false -> fPeekKeep_ q' = false).
Proof.
  unfold Mq.Clear, peeked. cbn. rewrite <- (filter_map_msg (fun m => negb (Match h id m))).
  pose proof (filter_partition (Match h id) (msgq_ q)) as P1.
  pose proof (filter_partition (Match h id) (map msg_ (dmsgq_ q))) as P2.
  pose proof (filter_sublist (fun m => negb (Match h id m)) (msgq_ q)) as S1.
  destruct (fPeekKeep_ q), (Match h id (msgPeek_ q)); cbn; (split; [|split; [|done]]).
  all: try solve [by apply sublist_cons | by apply sublist_skip | done].
  all: rewrite P1 at 1; rewrite P2 at 1; solve_Permutation.
Qed.

Lemma Post_spec now h id data ts q : let q' := Post now h id data ts q in
  exists new, msgq_ q' = msgq_ q ++ new /\ drop (length (msgq_ q)) (msgq_ q') = new /\
    Forall (fun m => phandler m = h) new /\ (new <> [] -> ss_ q' = true) /\ (ss_ q = true -> ss_ q' = true) /\
    dmsgq_ q' = dmsgq_ q /\ fPeekKeep_ q' = fPeekKeep_ q /\ msgPeek_ q' = msgPeek_ q /\ fStop_ q' = fStop_ q.
Proof.
  unfold Post. destruct (fStop_ q) eqn:E.
  - exists []. rewrite app_nil_r, drop_all. auto 20.
  - eexists. split; [reflexivity|]. cbn. rewrite drop_app_length. auto 20.
Qed.
Lemma DoDelayPost_spec delay t h id data q q' : DoDelayPost delay t h id data q = Some q' ->
  exists new, dmsgq_ q' = dmsgq_ q ++ new /\ drop (length (dmsgq_ q)) (dmsgq_ q') = new /\
    Forall (fun d => phandler (msg_ d) = h) new /\ (ss_ q = true -> ss_ q' = true) /\
    msgq_ q' = msgq_ q /\ fPeekKeep_ q' = fPeekKeep_ q /\ msgPeek_ q' = msgPeek_ q /\ fStop_ q' = fStop_ q.
Proof.
  unfold DoDelayPost. destruct (fStop_ q) eqn:E.
  - intros [= <-]. exists []. rewrite app_nil_r, drop_all. auto 20.
  - destruct (negb _); [|done]. intros [= <-]. eexists. split; [reflexivity|]. cbn. rewrite drop_app_length. auto 20.
Qed.

Lemma base_of_elsewhere s p : pc_ s <> Idle -> base_of p (calls_ s) = base s \/ base s <> Idle.
Proof. unfold base. destruct (calls_ s); cbn; auto. Qed.
(** A step within [Get], or within the loop of a send, keeps the outermost caller. *)
Lemma base_at s p : pc_ s = p -> p <> Idle -> forall s', calls_ s' = calls_ s -> base s' = base s \/ base s <> Idle.
Proof. intros <- Hp s' E. unfold base at 1. rewrite E. by apply base_of_elsewhere. Qed.
Lemma message_inv_start : message_inv start.
Proof. split; [done|]. split; done. Qed.
(** What the critical section does to the thread. *)
Definition checked_state (c : checked) (s : state) : state :=
  let s := s <| queue := c_queue c |> <| arrived := arrived s ++ map (fun d => Due d (msCurrent_ s) (dmsgq_next_num_ (queue s))) (c_moved c) |> <| disposed := disposed s ++ c_disposed c |> in
  match c_message c with Some m => return_ (Some m) s | None => s <| pc_ := Stopping (c_delay_next c) |> end.
Lemma check_step s c : check (msCurrent_ s) (queue s) = Some c -> calls_ s = [] -> fPeekKeep_ (queue s) = false -> message_inv s ->
  message_inv (checked_state c s).
Proof.
  intros Ec Hcalls Hk (Hp & Hs & _). unfold checked_state.
  destruct (check_spec _ _ _ Ec) as ((stay & next & Et & E2 & E3) & E4 & _ & _ & _ & _ & E5 & E6 & _).
  pose proof (triggered_perm (length (dmsgq_ (queue s))) (msCurrent_ s) (dmsgq_ (queue s))) as Ht. rewrite Et in Ht.
  unfold peeked in *. rewrite Hk in *. cbn [app] in *.
  assert (Hall : Permutation (msgq_ (queue s) ++ map msg_ (dmsgq_ (queue s)))
    (c_disposed c ++ (match c_message c with Some m => [m] | None => [] end) ++ msgq_ (c_queue c) ++ map msg_ stay)).
  { rewrite Ht, map_app, app_assoc, E4. rewrite <- !app_assoc. done. }
  assert (Hsub : sublist (delivered s ++ (match c_message c with Some m => [m] | None => [] end) ++ msgq_ (c_queue c))
    (map arrival_msg (arrived s ++ map (fun d => Due d (msCurrent_ s) (dmsgq_next_num_ (queue s))) (c_moved c)))).
  { assert (Ha : forall l, map arrival_msg (map (fun d => Due d (msCurrent_ s) (dmsgq_next_num_ (queue s))) l) = map msg_ l)
      by (intros l; by rewrite map_map).
    rewrite map_app, Ha. etransitivity; [|apply sublist_app; [exact Hs | reflexivity]]. rewrite <- app_assoc. apply sublist_app; [done|]. rewrite E4. by apply sublist_inserts_l. }
  assert (Hp' : Permutation (accepted s) (delivered s ++ (c_disposed c ++ (match c_message c with Some m => [m] | None => [] end) ++
    msgq_ (c_queue c) ++ map msg_ stay) ++ dropped s ++ disposed s)) by (rewrite Hp, <- Hall; solve_Permutation).
  destruct (c_message c) as [m|]; unfold return_, message_inv, peeked, base; cbn.
  - destruct (peek_ s); cbn; rewrite ?Hcalls, ?E5, ?E2; (split; [rewrite Hp'; solve_Permutation | split; [|done]]); [done | rewrite <- app_assoc; done].
  - rewrite E5, E2, Hcalls. split; [|done]. rewrite Hp'. solve_Permutation.
Qed.
Lemma step_TSend s s' : step TSend s = Some s' -> s' = Send_call s /\ (pc_ s = Idle \/ exists x, pc_ s = Handling x).
Proof. cbn [step]. destruct (pc_ s) eqn:E; try done; intros [= <-]; split; eauto. Qed.
Lemma message_inv_step e s s' : call_inv s -> message_inv s -> step e s = Some s' -> message_inv s'.
Proof.
  intros [Hcok Hcp] Hinv. pose proof Hinv as (Hp & Hs & Hk).
  assert (Hsame : forall s1, same_messages s s1 -> fPeekKeep_ (queue s1) = fPeekKeep_ (queue s) ->
    (base s1 = Idle \/ base s1 = base s \/ (base s <> Idle)) -> message_inv s1).
  { intros s1 H1 H2 H3. apply (message_inv_same s); [done| |done]. rewrite H2. destruct H3 as [-> | [-> | H3]]; [done | done |].
    destruct (base s1), (base s); done. }
  assert (Hpc : forall p, pc_ s = p -> p <> Idle -> forall s1, same_messages s s1 -> fPeekKeep_ (queue s1) = fPeekKeep_ (queue s) ->
    calls_ s1 = calls_ s -> message_inv s1) by (intros; apply Hsame; eauto using base_at).
  destruct e as [now h id data ts|delay t h id data|h id| | | |h id data|number| | | |peek cmsWait now| | | | | |ok now]; cbn [step].
  - intros [= <-]. destruct (Post_spec now h id data ts (queue s)) as (new & E1 & -> & _ & _ & _ & E2 & E3 & E4 & _).
    unfold message_inv, peeked in *. cbn. rewrite E1, E2, E3, E4. split; [rewrite Hp; solve_Permutation|]. split; [|done].
    rewrite map_app, map_map, map_id. rewrite !app_assoc in *. by apply sublist_app.
  - destruct (DoDelayPost _ _ _ _ _ _) as [q|] eqn:E; [|done]. cbn. intros [= <-].
    destruct (DoDelayPost_spec _ _ _ _ _ _ _ E) as (new & E1 & -> & _ & _ & E2 & E3 & E4 & _).
    unfold message_inv, peeked in *. cbn. rewrite E1, E2, E3, E4, map_app. split; [rewrite Hp; solve_Permutation | done].
  - unfold Clear. pose proof (Clear_messages h id (queue s)) as Hc. destruct (Mq.Clear h id (queue s)) as [q removed].
    destruct Hc as (C1 & C2 & C3). intros [= <-]. unfold message_inv. cbn. split; [|split].
    + rewrite Hp. transitivity (delivered s ++ (peeked (queue s) ++ msgq_ (queue s) ++ map msg_ (dmsgq_ (queue s))) ++ dropped s ++ disposed s); [solve_Permutation|].
      rewrite C1. solve_Permutation.
    + etransitivity; [|exact Hs]. by apply sublist_app.
    + unfold base in *. cbn. destruct (base_of _ _); auto.
  - intros [= <-]. apply Hsame; [done | done | auto].
  - destruct (waking s); [done|]. intros [= <-]. apply Hsame; [done | done | auto].
  - intros [= <-]. apply Hsame; [done | done | auto].
  - intros [= <-]. apply Hsame; [done | done | auto].
  - destruct (bool_decide _); [|done]. intros [= <-]. apply Hsame; [done | done | auto].
  - intros Hst. change (step TSend s = Some s') in Hst. apply step_TSend in Hst as [-> _]. apply Hsame; [done|done|by right; left].
  - destruct (pc_ s) eqn:Epc; try done. destruct (calls_ s) as [|c l] eqn:Ec; [done|]. intros [= <-]. unfold Send_test.
    assert (Hb : base s = base_of (call_from c) l) by (unfold base; by rewrite Ec).
    destruct (bool_decide _); [|by apply (Hpc Replying)].
    apply Hsame; [by destruct (call_waited c) | by destruct (call_waited c) | right; left]. rewrite Hb. by destruct (call_waited c).
  - destruct (pc_ s) eqn:Epc; try done. destruct (calls_ s) as [|c l] eqn:Ec; [done|]. intros [= <-].
    apply Hsame; [done | done | right; left]. unfold base. by rewrite Ec.
  - destruct (pc_ s) eqn:Epc; try done. intros [= <-]. unfold Get_start. destruct (fPeekKeep_ (queue s)) eqn:Ek.
    + destruct peek; [done|]. unfold message_inv, base, peeked in *. rewrite Ek, Hcp in *. cbn. split; [rewrite Hp; solve_Permutation|].
      rewrite Hcp, Epc, <- app_assoc. done.
    + split; [done|]. split; [done|]. unfold base. cbn. by destruct (base_of _ _).
  - destruct (pc_ s) eqn:Epc; try done. intros [= <-]. by apply (Hpc Receiving).
  - destruct (pc_ s) eqn:Epc; try done. intros [= <-]. unfold receive_pop. destruct (sendlist_ s); by apply (Hpc Popping).
  - destruct (pc_ s) as [| | |x| | | | |] eqn:Epc; try done. intros [= <-]. by apply (Hpc (Handling x)).
  - destruct (pc_ s) eqn:Epc; try done. destruct (check _ _) as [c|] eqn:Ec; [|done]. cbn [mbind option_bind]. intros [= <-].
    unfold base in Hk. rewrite Hcp, Epc in Hk. apply (check_step s c Ec); done.
  - destruct (pc_ s) as [| | | | |n| | |] eqn:Epc; try done. intros [= <-]. destruct (fStop_ _); by apply (Hpc (Stopping n)).
  - destruct (pc_ s) as [| | | | | |n| |] eqn:Epc; try done. intros [= <-]. unfold after_wait, return_.
    destruct ok; cbn [negb]; [|by apply (Hpc (Waiting n))]. destruct (_ && _); by apply (Hpc (Waiting n)).
Qed.

(** ** Sends *)

Definition same_sends (s s' : state) : Prop :=
  sent s' = sent s /\ handled s' = handled s /\ cleared s' = cleared s /\ ready_ s' = ready_ s /\ sendlist_ s' = sendlist_ s /\
  current s' = current s /\ started s' = started s /\ (nested s' = 0%nat -> nested s = 0%nat) /\
  (nested s' = 0%nat -> Forall (fun c => call_from c = Idle) (calls_ s) -> Forall (fun c => call_from c = Idle) (calls_ s')).
Lemma send_inv_same s s' : same_sends s s' -> send_inv s -> send_inv s'.
Proof.
  unfold send_inv. intros (-> & -> & -> & -> & -> & -> & -> & Hn & Hc) (H1 & H2 & H3 & H4 & H5 & H6). split_and!; try done.
  intros Hz. destruct (H6 (Hn Hz)) as [? ?]. auto.
Qed.
(** A step that changes the place of the thread, with no handler before or after. *)
Lemma current_step s s' : handling (pc_ s) = [] -> handling (pc_ s') = [] -> calls_ s' = calls_ s -> current s' = current s.
Proof. unfold current. by intros -> -> ->. Qed.
Lemma no_handler_above s : Forall (fun c => call_from c = Idle) (calls_ s) -> concat (map (fun c => handling (call_from c)) (calls_ s)) = [].
Proof. induction 1 as [|c l Hc _ IH]; [done|]. cbn. by rewrite Hc, IH. Qed.
Lemma send_inv_step e s s' : send_inv s -> step e s = Some s' -> send_inv s'.
Proof.
  intros Hinv. pose proof (fun s1 H => send_inv_same s s1 H Hinv) as Hsame.
  assert (Hgo : forall s1, sent s1 = sent s -> handled s1 = handled s -> cleared s1 = cleared s -> ready_ s1 = ready_ s ->
    sendlist_ s1 = sendlist_ s -> current s1 = current s -> started s1 = started s -> nested s1 = nested s -> calls_ s1 = calls_ s -> send_inv s1).
  { intros s1 E1 E2 E3 E4 E5 E6 E7 E8 E9. apply Hsame. unfold same_sends. by rewrite E8, E9. }
  pose proof Hinv as (Hp & Hst & Hs & Ht & Hr & Hn).
  destruct e as [now h id data ts|delay t h id data|h id| | | |h id data|number| | | |peek cmsWait now| | | | | |ok now]; cbn [step].
  - intros [= <-]. by apply Hgo.
  - destruct (DoDelayPost _ _ _ _ _ _); [|done]. intros [= <-]. by apply Hgo.
  - unfold Clear. destruct (Mq.Clear h id (queue s)) as [q removed]. intros [= <-]. unfold send_inv, current in *. cbn.
    pose proof (filter_partition (fun x => Match h id (s_msg x)) (sendlist_ s)) as Hf.
    split; [rewrite Hp, Hf at 1; solve_Permutation|]. split; [done|]. split; [|split; [done|split; [|done]]].
    + etransitivity; [|exact Hs]. apply sublist_app; [done|]. apply filter_sublist.
    + intros x. rewrite elem_of_app, Hr, !map_app, !elem_of_app. tauto.
  - intros [= <-]. by apply Hgo.
  - destruct (waking s); [done|]. intros [= <-]. by apply Hgo.
  - intros [= <-]. by apply Hgo.
  - intros [= <-]. unfold Send_push, send_inv, current in *. cbn. split; [rewrite Hp; solve_Permutation|].
    split; [done|]. split; [|split; [|done]].
    + rewrite !app_assoc in *. by apply sublist_app.
    + rewrite map_app, Ht, length_app, seq_app. done.
  - destruct (bool_decide _); [|done]. intros [= <-]. by apply Hgo.
  - intros Hstep. change (step TSend s = Some s') in Hstep. apply step_TSend in Hstep as [-> Hpc]. apply Hsame.
    unfold same_sends, Send_call, current. cbn. destruct Hpc as [Epc | [x Epc]]; rewrite Epc; cbn; split_and!; try done.
    intros _ ?. by constructor.
  - destruct (pc_ s) eqn:Epc; try done. destruct (calls_ s) as [|c l] eqn:Ec; [done|]. intros [= <-]. unfold Send_test.
    destruct (bool_decide _); apply Hsame; unfold same_sends, current; cbn; rewrite ?Epc, ?Ec; cbn; split_and!; try done.
    by intros _ [_ ?]%Forall_cons.
  - destruct (pc_ s) eqn:Epc; try done. destruct (calls_ s) as [|c l] eqn:Ec; [done|]. intros [= <-]. apply Hsame.
    unfold same_sends, current. cbn. rewrite ?Epc, ?Ec. cbn. split_and!; try done. intros _ [? ?]%Forall_cons. by constructor.
  - destruct (pc_ s) eqn:Epc; try done. intros [= <-]. unfold Get_start, current.
    destruct (fPeekKeep_ _); [destruct peek|]; apply Hgo; cbn; rewrite ?Epc; unfold current; cbn; rewrite ?Epc; done.
  - destruct (pc_ s) eqn:Epc; try done. intros [= <-]. apply Hgo; try done. apply current_step; [by rewrite Epc| |done].
    unfold receive_test, after_receive. cbn. destruct (has_sends_ s); [done|]. by destruct (calls_ s).
  - destruct (pc_ s) eqn:Epc; try done. intros [= <-]. unfold receive_pop. destruct (sendlist_ s) as [|x l] eqn:El.
    + apply Hgo; try done. apply current_step; [by rewrite Epc| |done]. unfold after_receive. cbn. by destruct (calls_ s).
    + unfold send_inv, current in *. rewrite Epc in *. cbn in *. split; [rewrite Hp; solve_Permutation|].
      split; [rewrite Hst; solve_Permutation|]. rewrite <- app_assoc. split_and!; try done. intros Hz. destruct (Hn Hz) as [Hn1 Hn2].
      split; [|done]. rewrite Hn1, no_handler_above by done. by rewrite app_nil_r.
  - destruct (pc_ s) as [| | |x| | | | |] eqn:Epc; try done. intros [= <-]. unfold send_inv, current, receive_ready in *. rewrite Epc in *. cbn in *.
    split; [rewrite Hp; solve_Permutation|]. split; [rewrite Hst; solve_Permutation|]. split_and!; try done.
    + intros t. cbn [app]. rewrite map_app, elem_of_app, map_app, elem_of_app, elem_of_cons, Hr, map_app, elem_of_app. cbn [map].
      rewrite list_elem_of_singleton. tauto.
    + intros Hz. destruct (Hn Hz) as [Hn1 Hn2]. split; [|done]. rewrite Hn1, no_handler_above by done. by rewrite <- !app_assoc.
  - destruct (pc_ s) eqn:Epc; try done. destruct (check _ _) as [c|]; [|done]. cbn [mbind option_bind]. intros [= <-].
    unfold return_. destruct (c_message c); [destruct (peek_ s) eqn:Epk|]; cbn; rewrite ?Epk; apply Hgo; try done;
      apply current_step; by rewrite ?Epc.
  - destruct (pc_ s) eqn:Epc; try done. intros [= <-]. destruct (fStop_ _); apply Hgo; try done; apply current_step; by rewrite ?Epc.
  - destruct (pc_ s) eqn:Epc; try done. intros [= <-]. unfold after_wait, return_.
    destruct ok; cbn; [destruct (_ && _)|]; apply Hgo; try done; apply current_step; by rewrite ?Epc.
Qed.

(** ** Calls *)

Lemma call_inv_step e s s' : call_inv s -> step e s = Some s' -> call_inv s'.
Proof.
  intros [Hc Hp]. pose proof Hp as Hp'.
  assert (Hsame : forall s1, calls_ s1 = calls_ s -> pc_ s1 = pc_ s -> call_inv s1) by (intros s1 E1 E2; unfold call_inv; by rewrite E1, E2).
  assert (Hin : forall s1, calls_ s1 = calls_ s -> (match pc_ s1 with Receiving | Popping | Handling _ => True | _ => False end) -> call_inv s1)
    by (intros s1 E1 E2; unfold call_inv; rewrite E1; by destruct (pc_ s1)).
  assert (Hnil : forall s1, calls_ s1 = calls_ s -> calls_ s = [] -> pc_ s1 <> Replying -> pc_ s1 <> Sleeping -> call_inv s1)
    by (intros s1 E1 E0 E2 E3; unfold call_inv; rewrite E1, E0; by destruct (pc_ s1)).
  assert (Hrec : forall s1, calls_ s1 = calls_ s -> pc_ s1 = after_receive s -> call_inv s1)
    by (intros s1 E1 E2; unfold call_inv, after_receive in *; rewrite E1, E2; by destruct (calls_ s)).
  destruct e as [now h id data ts|delay t h id data|h id| | | |h id data|number| | | |peek cmsWait now| | | | | |ok now]; cbn [step].
  - intros [= <-]. by apply Hsame.
  - destruct (DoDelayPost _ _ _ _ _ _); [|done]. intros [= <-]. by apply Hsame.
  - intros [= <-]. by apply Hsame.
  - intros [= <-]. by apply Hsame.
  - destruct (waking s); [done|]. intros [= <-]. by apply Hsame.
  - intros [= <-]. by apply Hsame.
  - intros [= <-]. by apply Hsame.
  - destruct (bool_decide _); [|done]. intros [= <-]. by apply Hsame.
  - intros Hstep. change (step TSend s = Some s') in Hstep. apply step_TSend in Hstep as [-> Hpc]. unfold call_inv, Send_call. cbn.
    split; [|done]. split; [|done]. destruct Hpc as [Epc | [x Epc]]; rewrite Epc in *; auto.
  - destruct (pc_ s) eqn:Epc; try done. destruct (calls_ s) as [|c l] eqn:Ec; [done|]. intros [= <-]. unfold Send_test.
    destruct (bool_decide _); [|by apply Hin]. destruct Hc as [Hc Hl]. unfold call_inv. cbn. split; [done|].
    destruct Hc as [Hc | [-> ->]]; [|done]. by destruct (call_from c).
  - destruct (pc_ s) eqn:Epc; try done. destruct (calls_ s) as [|c l] eqn:Ec; [done|]. intros [= <-]. unfold call_inv. cbn. by destruct Hc.
  - destruct (pc_ s) eqn:Epc; try done. intros [= <-]. unfold Get_start. destruct (fPeekKeep_ _); [destruct peek|].
    + by apply Hsame.
    + by apply Hsame.
    + by apply Hin.
  - destruct (pc_ s) eqn:Epc; try done. intros [= <-]. unfold receive_test. destruct (has_sends_ s); [by apply Hin | by apply Hrec].
  - destruct (pc_ s) eqn:Epc; try done. intros [= <-]. unfold receive_pop. destruct (sendlist_ s); [by apply Hrec | by apply Hin].
  - destruct (pc_ s) eqn:Epc; try done. intros [= <-]. by apply Hin.
  - destruct (pc_ s) eqn:Epc; try done. destruct (check _ _) as [c|]; [|done]. cbn [mbind option_bind]. intros [= <-].
    unfold return_. destruct (c_message c); [destruct (peek_ s) eqn:Epk|]; cbn; rewrite ?Epk; by apply Hnil.
  - destruct (pc_ s) eqn:Epc; try done. intros [= <-]. destruct (fStop_ _); by apply Hnil.
  - destruct (pc_ s) eqn:Epc; try done. intros [= <-]. unfold after_wait, return_. destruct ok; cbn; [destruct (_ && _)|]; by apply Hnil.
Qed.

(** ** Wake-ups *)

(** The next [Wait] returns at once, or a caller is about to wake it. *)
Definition awake (s : state) : Prop := ss_ (queue s) = true \/ (0 < waking s)%nat.
(** Each send whose reply is there ends its [Wait] at once, or an inner send has
    used the wake-up and will make up for it. *)
Fixpoint replies_seen (woken : bool -> Prop) (waited : bool) (replied : list nat) (l : list call) : Prop :=
  match l with
  | [] => True
  | c :: l => (call_number c ∈ replied -> woken waited) /\ replies_seen woken (waited || call_waited c) replied l
  end.
Definition woken (s : state) (waited : bool) : Prop := waited = true \/ awake s.
Definition reply_inv (s : state) : Prop :=
  match pc_ s, calls_ s with
  | Replying, c :: l => replies_seen (woken s) (call_waited c) (replied_ s) l
  | _, l => replies_seen (woken s) false (replied_ s) l
  end.
Definition wake_inv (s : state) : Prop :=
  (sendlist_ s <> [] -> has_sends_ s = true) /\
  match pc_ s with
  | Checking | Sleeping => sendlist_ s <> [] -> awake s
  | Stopping next => (sendlist_ s <> [] \/ msgq_ (queue s) <> [] \/ (dmsgq_ (queue s) <> [] /\ next <= 0)) -> awake s
  | Waiting n => (sendlist_ s <> [] \/ msgq_ (queue s) <> [] \/ fStop_ (queue s) = true \/ (dmsgq_ (queue s) <> [] /\ n < 0)) -> awake s
  | _ => True
  end.
Lemma awake_mono s s' : (ss_ (queue s) = true -> ss_ (queue s') = true) -> (waking s <= waking s')%nat -> awake s -> awake s'.
Proof. unfold awake. intros H1 H2 [?|?]; [left; auto | right; lia]. Qed.

Lemma triggered_next fuel now l : (length l <= fuel)%nat -> let '(_, stay, next) := triggered fuel now l in stay <> [] -> 0 < next.
Proof.
  revert l. induction fuel as [|fuel IH]; intros [|d l] Hf; cbn in Hf; try lia; try (by cbn). cbn [triggered].
  pose proof (pop_top_spec d l) as Hp. destruct (pop_top d l) as [t r]. destruct Hp as [Hp _].
  destruct (TimeIsLater now (msTrigger_ t)) eqn:E.
  - intros _. rewrite TimeIsLater_diff in E. by apply Z.ltb_lt in E.
  - apply Permutation_length in Hp. cbn in Hp. specialize (IH r ltac:(lia)). destruct (triggered fuel now r) as [[moved stay] next]. done.
Qed.
Lemma next_wait_pos cmsWait elapsed next : 0 < next -> 0 <= next_wait cmsWait elapsed next.
Proof. intros H. unfold next_wait. destruct (cmsWait =? kForever); [lia|]. destruct (_ && _); lia. Qed.

(** Steps that only make it easier. *)
Lemma wake_inv_weaker s s' : pc_ s' = pc_ s -> (has_sends_ s = true -> has_sends_ s' = true) ->
  (sendlist_ s' <> [] -> sendlist_ s <> [] \/ (has_sends_ s' = true /\ awake s')) ->
  (msgq_ (queue s') <> [] -> msgq_ (queue s) <> [] \/ awake s') ->
  (dmsgq_ (queue s') <> [] -> dmsgq_ (queue s) <> [] \/ awake s') ->
  (fStop_ (queue s') = true -> fStop_ (queue s) = true \/ awake s') -> (awake s -> awake s') ->
  wake_inv s -> wake_inv s'.
Proof.
  unfold wake_inv. intros -> Hh Hl Hm Hd Hf Ha [H1 H2]. split; [intros Hn; destruct (Hl Hn) as [?|[? _]]; auto|].
  destruct (pc_ s); try done.
  - intros Hn. destruct (Hl Hn) as [?|[_ ?]]; auto.
  - intros [Hn|[Hn|[Hn ?]]]; [destruct (Hl Hn) as [?|[_ ?]] | destruct (Hm Hn) | destruct (Hd Hn)]; auto 10.
  - intros [Hn|[Hn|[Hn|[Hn ?]]]]; [destruct (Hl Hn) as [?|[_ ?]] | destruct (Hm Hn) | destruct (Hf Hn) | destruct (Hd Hn)]; auto 10.
  - intros Hn. destruct (Hl Hn) as [?|[_ ?]]; auto.
Qed.
Lemma filter_nonempty {A} (f : A -> bool) l : List.filter f l <> [] -> l <> [].
Proof. by destruct l. Qed.

Lemma wake_inv_step e s s' : call_inv s -> wake_inv s -> step e s = Some s' -> wake_inv s'.
Proof.
  unfold call_inv. intros Hc Hinv. destruct e as [now h id data ts|delay t h id data|h id| | | |h id data|number| | | |peek cmsWait now| | | | | |ok now]; cbn [step].
  - intros [= <-]. destruct (Post_spec now h id data ts (queue s)) as (new & E1 & -> & _ & Hw & Hw' & E2 & E3 & E4 & E5).
    revert Hinv. apply wake_inv_weaker; cbn; rewrite ?E1, ?E2, ?E5; auto.
    + destruct new; [rewrite app_nil_r; auto | intros _; right; left; cbn; auto].
    + apply awake_mono; cbn; auto.
  - destruct (DoDelayPost _ _ _ _ _ _) as [q|] eqn:E; [|done]. cbn. intros [= <-].
    destruct (DoDelayPost_spec _ _ _ _ _ _ _ E) as (new & E1 & _ & _ & Hw & E2 & E3 & E4 & E5).
    revert Hinv. apply wake_inv_weaker; cbn; rewrite ?E1, ?E2, ?E5; auto.
    + destruct new; [rewrite app_nil_r; auto|]. intros _. right. left. cbn. unfold DoDelayPost in E. destruct (fStop_ (queue s)).
      * injection E as <-. apply (f_equal length) in E1. rewrite length_app in E1. cbn in E1. lia.
      * destruct (negb _); [|done]. injection E as <-. done.
    + apply awake_mono; cbn; auto.
  - unfold Clear, Mq.Clear. intros [= <-]. revert Hinv. apply wake_inv_weaker; cbn; auto; intros H%filter_nonempty; auto.
  - intros [= <-]. revert Hinv. apply wake_inv_weaker; cbn; auto; [intros _; right; right; cbn; lia | apply awake_mono; cbn; auto].
  - destruct (waking s) eqn:Ew; [done|]. intros [= <-]. revert Hinv. apply wake_inv_weaker; cbn; auto. by left.
  - intros [= <-]. revert Hinv. apply wake_inv_weaker; cbn; auto. done.
  - intros [= <-]. revert Hinv. apply wake_inv_weaker; cbn; auto; [intros _; right; split; [done | right; cbn; lia] | apply awake_mono; cbn; auto].
  - destruct (bool_decide _); [|done]. intros [= <-]. revert Hinv. apply wake_inv_weaker; cbn; auto. apply awake_mono; cbn; auto.
  - intros Hstep. change (step TSend s = Some s') in Hstep. apply step_TSend in Hstep as [-> _]. destruct Hinv as [H _]. by split.
  - destruct (pc_ s) eqn:Epc; try done. destruct (calls_ s) as [|c l] eqn:Ec; [done|]. intros [= <-]. destruct Hinv as [H _].
    destruct Hc as [[Hf _] _]. unfold Send_test. destruct (bool_decide _); [|by split]. unfold wake_inv. cbn. split; [by destruct (call_waited c)|].
    destruct Hf as [Hf | [-> _]]; [|done]. by destruct (call_from c).
  - destruct (pc_ s) eqn:Epc; try done. destruct (calls_ s) as [|c l] eqn:Ec; [done|]. intros [= <-]. destruct Hinv as [H _]. by split.
  - destruct (pc_ s) eqn:Epc; try done. intros [= <-]. unfold Get_start, wake_inv in *. rewrite Epc in Hinv.
    destruct (fPeekKeep_ _); [destruct peek|]; cbn; rewrite ?Epc; tauto.
  - destruct (pc_ s) eqn:Epc; try done. intros [= <-]. unfold receive_test, wake_inv in *. rewrite Epc in Hinv. cbn.
    destruct Hinv as [H _]. split; [done|]. unfold after_receive. destruct (has_sends_ s); [done|].
    destruct (calls_ s); cbn; intros Hn; by apply H in Hn.
  - destruct (pc_ s) eqn:Epc; try done. intros [= <-]. unfold receive_pop, wake_inv in *. rewrite Epc in Hinv.
    destruct Hinv as [H _]. destruct (sendlist_ s) as [|x l] eqn:El; cbn; rewrite ?El.
    + split; [done|]. unfold after_receive. by destruct (calls_ s).
    + split; [|done]. intros _. by apply H.
  - destruct (pc_ s) eqn:Epc; try done. intros [= <-]. unfold receive_ready, wake_inv in *. cbn. tauto.
  - destruct (pc_ s) eqn:Epc; try done. destruct (check _ _) as [c|] eqn:Ec; [|done]. cbn [mbind option_bind]. intros [= <-].
    destruct (check_spec _ _ _ Ec) as ((stay & next & Et & E2 & E3) & _ & _ & Hn & E4 & E5 & _).
    unfold wake_inv in *. rewrite Epc in Hinv. destruct Hinv as [H1 H2].
    destruct (c_message c) as [m|]; unfold return_; [destruct (peek_ s) eqn:Epk|]; cbn; rewrite ?Epk; try (split; [done|]; done).
    split; [done|]. unfold awake in *. cbn. rewrite E4, Hn by done. intros [H|[H|[H H']]]; [auto | done |].
    pose proof (triggered_next (length (dmsgq_ (queue s))) (msCurrent_ s) (dmsgq_ (queue s)) ltac:(lia)) as Hpos.
    rewrite Et in Hpos. rewrite E2 in H. apply Hpos in H. lia.
  - destruct (pc_ s) as [| | | | |next| | |] eqn:Epc; try done. intros [= <-]. unfold wake_inv in *. rewrite Epc in Hinv. destruct Hinv as [H1 H2].
    destruct (fStop_ (queue s)) eqn:Ef; cbn; [done|]. split; [done|]. unfold awake in *. cbn. rewrite Ef.
    intros [H|[H|[H|[H H']]]]; [auto | auto | done |]. apply H2. right. right. split; [done|].
    destruct (Z.le_gt_cases next 0) as [|Hgt]; [done|]. pose proof (next_wait_pos (cmsWait_ s) (TimeDiff (msCurrent_ s) (msStart_ s)) next Hgt). lia.
  - destruct (pc_ s) eqn:Epc; try done. intros [= <-]. unfold after_wait, return_, wake_inv in *. destruct Hinv as [H1 _].
    destruct ok; cbn; [|done]. destruct (_ && _); cbn; done.
Qed.

(** The replies to the sends of the thread itself. *)
Lemma replies_seen_mono (f g : bool -> Prop) w w' r l : (forall w, f w -> g w) -> (forall w w', (w = true -> w' = true) -> g w -> g w') ->
  (w = true -> w' = true) -> replies_seen f w r l -> replies_seen g w' r l.
Proof.
  intros Hfg Hg. revert w w'. induction l as [|c l IH]; intros w w' Hw; [done|]. cbn. intros [H1 H2]. split; [eauto|].
  eapply IH; [|exact H2]. destruct w, w', (call_waited c); cbn; auto.
Qed.
Lemma replies_seen_all (f : bool -> Prop) w r l : (forall w', (w = true -> w' = true) -> f w') -> replies_seen f w r l.
Proof.
  revert w. induction l as [|c l IH]; intros w Hf; [done|]. cbn. split; [intros _; by apply Hf|]. apply IH. intros w' H. apply Hf.
  intros ->. by apply H.
Qed.
Lemma woken_mono s s' w w' : (awake s -> awake s') -> (w = true -> w' = true) -> woken s w -> woken s' w'.
Proof. unfold woken. intros ? ? [?|?]; auto. Qed.
Lemma seen_mono s s' w r l : (awake s -> awake s') -> replies_seen (woken s) w r l -> replies_seen (woken s') w r l.
Proof. intros Ha. apply replies_seen_mono; [|intros ? ?; by apply woken_mono|done]. intros w'. by apply woken_mono. Qed.
Lemma seen_awake s w r l : awake s -> replies_seen (woken s) w r l.
Proof. intros Ha. apply replies_seen_all. intros w' _. by right. Qed.

(** Steps that leave the calls and the replies alone. *)
Lemma reply_inv_same s s' : calls_ s' = calls_ s -> replied_ s' = replied_ s -> (awake s -> awake s') ->
  (pc_ s = Replying <-> pc_ s' = Replying) -> reply_inv s -> reply_inv s'.
Proof.
  unfold reply_inv. intros -> -> Ha Hpc.
  assert (E : (match pc_ s', calls_ s with
    | Replying, c :: l => replies_seen (woken s') (call_waited c) (replied_ s) l
    | _, l => replies_seen (woken s') false (replied_ s) l end) = (match pc_ s, calls_ s with
    | Replying, c :: l => replies_seen (woken s') (call_waited c) (replied_ s) l
    | _, l => replies_seen (woken s') false (replied_ s) l end)).
  { destruct Hpc as [H1 H2]. destruct (pc_ s), (pc_ s'); try done; first [by specialize (H1 eq_refl) | by specialize (H2 eq_refl)]. }
  rewrite E. destruct (pc_ s), (calls_ s); by apply seen_mono.
Qed.
Lemma reply_inv_nil s : calls_ s = [] -> reply_inv s.
Proof. unfold reply_inv. intros ->. by destruct (pc_ s). Qed.
Lemma reply_inv_step e s s' : call_inv s -> reply_inv s -> step e s = Some s' -> reply_inv s'.
Proof.
  intros [Hc Hp] Hinv. pose proof (fun s1 => reply_inv_same s s1) as Hsame.
  assert (Hgo : forall s1, calls_ s1 = calls_ s -> replied_ s1 = replied_ s -> ss_ (queue s1) = ss_ (queue s) -> waking s1 = waking s ->
    (pc_ s = Replying <-> pc_ s1 = Replying) -> reply_inv s1).
  { intros s1 E1 E2 E3 E4 E5. apply (Hsame s1); try done. unfold awake. by rewrite E3, E4. }
  assert (Hpcs : forall s1, pc_ s <> Replying -> pc_ s1 <> Replying -> (pc_ s = Replying <-> pc_ s1 = Replying)) by tauto.
  destruct e as [now h id data ts|delay t h id data|h id| | | |h id data|number| | | |peek cmsWait now| | | | | |ok now]; cbn [step].
  - intros [= <-]. destruct (Post_spec now h id data ts (queue s)) as (new & _ & _ & _ & _ & Hw & _).
    apply Hsame; try done. apply awake_mono; [exact Hw | cbn; lia].
  - destruct (DoDelayPost _ _ _ _ _ _) as [q|] eqn:E; [|done]. cbn. intros [= <-].
    destruct (DoDelayPost_spec _ _ _ _ _ _ _ E) as (new & _ & _ & _ & Hw & _).
    apply Hsame; try done. apply awake_mono; [exact Hw | cbn; lia].
  - intros [= <-]. by apply Hgo.
  - intros [= <-]. apply Hsame; try done. apply awake_mono; cbn; [done | lia].
  - destruct (waking s) eqn:Ew; [done|]. intros [= <-]. apply Hsame; try done. intros _. by left.
  - intros [= <-]. by apply Hgo.
  - intros [= <-]. apply Hsame; try done. apply awake_mono; cbn; [done | lia].
  - destruct (bool_decide _); [|done]. intros [= <-]. unfold reply_inv. cbn.
    assert (Ha : awake (s <| replied_ := number :: replied_ s |> <| waking := S (waking s) |>)) by (right; cbn; lia).
    destruct (pc_ s); try (by apply seen_awake). destruct (calls_ s); [done | by apply seen_awake].
  - intros Hstep. change (step TSend s = Some s') in Hstep. apply step_TSend in Hstep as [-> Hpc]. unfold reply_inv in *. cbn.
    destruct Hpc as [Epc | [x Epc]]; rewrite Epc in *; exact Hinv.
  - destruct (pc_ s) eqn:Epc; try done. destruct (calls_ s) as [|c l] eqn:Ec; [done|]. intros [= <-]. unfold Send_test, reply_inv in *.
    rewrite Epc, Ec in Hinv. destruct (bool_decide_reflect (call_number c ∈ replied_ s)) as [Hr|Hr]; cbn.
    + destruct Hc as [Hc _]. assert (Hn : call_from c <> Replying) by (destruct Hc as [Hc | [-> _]]; [by destruct (call_from c) | done]).
      assert (Hs : replies_seen (woken (s <| queue := if call_waited c then WakeUp (queue s) else queue s |> <| calls_ := l |> <| pc_ := call_from c |>
        <| owed := owed s && negb (ss_ (if call_waited c then WakeUp (queue s) else queue s)) |>)) false (replied_ s) l).
      { destruct (call_waited c); [apply seen_awake; by left | exact Hinv]. }
      by destruct (call_from c).
    + rewrite Ec. split; [done | exact Hinv].
  - destruct (pc_ s) eqn:Epc; try done. destruct (calls_ s) as [|c l] eqn:Ec; [done|]. intros [= <-]. unfold Send_wait, reply_inv. cbn.
    apply replies_seen_all. intros w Hw. left. by apply Hw.
  - destruct (pc_ s) eqn:Epc; try done. intros [= <-]. unfold Get_start. destruct (fPeekKeep_ _); [destruct peek|]; apply Hgo; try done; apply Hpcs; cbn; by rewrite ?Epc.
  - destruct (pc_ s) eqn:Epc; try done. intros [= <-]. unfold receive_test, after_receive.
    apply Hgo; try done; apply Hpcs; [done|]. cbn. by destruct (has_sends_ s), (calls_ s).
  - destruct (pc_ s) eqn:Epc; try done. intros [= <-]. unfold receive_pop, after_receive.
    destruct (sendlist_ s); apply Hgo; try done; apply Hpcs; try done; cbn; by destruct (calls_ s).
  - destruct (pc_ s) eqn:Epc; try done. intros [= <-]. apply Hgo; try done; apply Hpcs; by rewrite ?Epc.
  - destruct (pc_ s) eqn:Epc; try done. destruct (check _ _) as [c|]; [|done]. cbn [mbind option_bind]. intros [= <-].
    apply reply_inv_nil. unfold return_. destruct (c_message c); [destruct (peek_ s) eqn:Epk|]; cbn; by rewrite ?Epk.
  - destruct (pc_ s) eqn:Epc; try done. intros [= <-]. apply reply_inv_nil. by destruct (fStop_ _).
  - destruct (pc_ s) eqn:Epc; try done. intros [= <-]. apply reply_inv_nil. unfold after_wait, return_. destruct ok; cbn; [|done]. by destruct (_ && _).
Qed.

(** A wake-up that the loop of a send has used up is made up for when it ends. *)
Definition owed_inv (s : state) : Prop := owed s = true -> Exists (fun c => call_waited c = true) (calls_ s).
Lemma owed_inv_step e s s' : owed_inv s -> step e s = Some s' -> owed_inv s'.
Proof.
  unfold owed_inv. intros Hinv.
  assert (Hsame : forall s1, owed s1 = owed s -> calls_ s1 = calls_ s -> owed s1 = true -> Exists (fun c => call_waited c = true) (calls_ s1))
    by (by intros s1 -> ->).
  destruct e as [now h id data ts|delay t h id data|h id| | | |h id data|number| | | |peek cmsWait now| | | | | |ok now]; cbn [step].
  - intros [= <-]. by apply Hsame.
  - destruct (DoDelayPost _ _ _ _ _ _); [|done]. intros [= <-]. by apply Hsame.
  - intros [= <-]. by apply Hsame.
  - intros [= <-]. by apply Hsame.
  - destruct (waking s); [done|]. intros [= <-]. by apply Hsame.
  - intros [= <-]. by apply Hsame.
  - intros [= <-]. by apply Hsame.
  - destruct (bool_decide _); [|done]. intros [= <-]. by apply Hsame.
  - intros Hstep. change (step TSend s = Some s') in Hstep. apply step_TSend in Hstep as [-> _]. cbn. intros Ho. right. auto.
  - destruct (pc_ s) eqn:Epc; try done. destruct (calls_ s) as [|c l] eqn:Ec; [done|]. intros [= <-]. unfold Send_test.
    destruct (bool_decide _); [|rewrite <- Ec in Hinv; by apply Hsame]. cbn. intros [Ho Hw]%andb_true_iff. specialize (Hinv Ho).
    apply Exists_cons in Hinv as [Hcw|]; [|done]. rewrite Hcw in Hw. done.
  - destruct (pc_ s) eqn:Epc; try done. destruct (calls_ s) as [|c l] eqn:Ec; [done|]. intros [= <-]. cbn. intros _. by left.
  - destruct (pc_ s) eqn:Epc; try done. intros [= <-]. unfold Get_start. destruct (fPeekKeep_ _); [destruct peek|]; by apply Hsame.
  - destruct (pc_ s) eqn:Epc; try done. intros [= <-]. by apply Hsame.
  - destruct (pc_ s) eqn:Epc; try done. intros [= <-]. unfold receive_pop. destruct (sendlist_ s); by apply Hsame.
  - destruct (pc_ s) eqn:Epc; try done. intros [= <-]. by apply Hsame.
  - destruct (pc_ s) eqn:Epc; try done. destruct (check _ _) as [c|]; [|done]. cbn [mbind option_bind]. intros [= <-].
    unfold return_. destruct (c_message c); [destruct (peek_ s) eqn:Epk|]; cbn; rewrite ?Epk; by apply Hsame.
  - destruct (pc_ s) eqn:Epc; try done. intros [= <-]. destruct (fStop_ _); by apply Hsame.
  - destruct (pc_ s) eqn:Epc; try done. intros [= <-]. unfold after_wait, return_. destruct ok; cbn; [destruct (_ && _)|]; by apply Hsame.
Qed.

(** ** The order in which messages enter the queue *)

Definition order_inv (s : state) : Prop :=
  let next_num := dmsgq_next_num_ (queue s) in
  is_u32 next_num /\ Forall (fun a => match a with Due _ _ n => n <= next_num | Posted _ => True end) (arrived s) /\
  Forall (fun a => Forall (fun e => in_due_order a (Due e 0 0)) (dmsgq_ (queue s))) (arrived s) /\
  StronglySorted in_due_order (arrived s) /\ Forall was_due (arrived s).
Lemma first_comes_first d e : first d e <-> comes_first d e.
Proof. unfold first, comes_first. apply dm_lt_false. Qed.
Lemma sorted_both {A} (R : A -> A -> Prop) l k :
  StronglySorted R l -> StronglySorted R k -> Forall (fun a => Forall (R a) k) l -> StronglySorted R (l ++ k).
Proof.
  intros Hl Hk. induction Hl as [|a l Hl IH Ha]; [done|]. intros [Hak Hlk]%Forall_cons. cbn. constructor; [auto|]. by apply Forall_app.
Qed.
Lemma due_sorted l now n : StronglySorted first l -> StronglySorted in_due_order (map (fun d => Due d now n) l).
Proof.
  induction 1 as [|d l _ IH Hd]; cbn; constructor; [done|]. apply Forall_map. eapply Forall_impl; [exact Hd|].
  intros e He. left. by apply first_comes_first.
Qed.
Lemma order_inv_same s s' : arrived s' = arrived s -> dmsgq_next_num_ (queue s') = dmsgq_next_num_ (queue s) ->
  sublist (dmsgq_ (queue s')) (dmsgq_ (queue s)) -> order_inv s -> order_inv s'.
Proof.
  unfold order_inv. intros -> -> Hd (H1 & H2 & H3 & H4 & H5). split_and!; try done. eapply Forall_impl; [exact H3|]. intros a Ha.
  rewrite Forall_forall in Ha |- *. intros e He. apply Ha. by eapply elem_of_sublist.
Qed.
Lemma order_inv_check s c : check (msCurrent_ s) (queue s) = Some c -> order_inv s -> order_inv (checked_state c s).
Proof.
  intros Ec (H1 & H2 & H3 & H4 & H5). destruct (check_spec _ _ _ Ec) as ((stay & next & Et & E2 & E3) & _ & _ & _ & _ & _ & _ & _ & _ & E4).
  pose proof (triggered_perm (length (dmsgq_ (queue s))) (msCurrent_ s) (dmsgq_ (queue s))) as Hp. rewrite Et in Hp.
  pose proof (triggered_due (length (dmsgq_ (queue s))) (msCurrent_ s) (dmsgq_ (queue s))) as Hdue. rewrite Et in Hdue. cbn [fst] in Hdue.
  pose proof (triggered_sorted (length (dmsgq_ (queue s))) (msCurrent_ s) (dmsgq_ (queue s))) as Hs. rewrite Et in Hs. destruct Hs as [Hs Hst].
  assert (Hall : Forall (fun a => Forall (fun e => in_due_order a (Due e 0 0)) (c_moved c ++ stay)) (arrived s)).
  { eapply Forall_impl; [exact H3|]. intros a Ha. cbn in Ha. by rewrite Hp in Ha. }
  set (moved := map (fun d => Due d (msCurrent_ s) (dmsgq_next_num_ (queue s))) (c_moved c)).
  assert (Hgo : order_inv (s <| queue := c_queue c |> <| arrived := arrived s ++ moved |>)).
  { unfold order_inv. cbn. rewrite E4, E2. split; [done|]. unfold moved. split_and!.
    - apply Forall_app. split; [done|]. apply Forall_map, Forall_true. intros d. reflexivity.
    - apply Forall_app. split; [eapply Forall_impl; [exact Hall|]; by intros a [_ ?]%Forall_app|].
      apply Forall_map. eapply Forall_impl; [exact Hst|]. intros d Hd. eapply Forall_impl; [exact Hd|]. intros e He. left. by apply first_comes_first.
    - apply sorted_both; [done | by apply due_sorted|]. eapply Forall_impl; [exact Hall|]. intros a [Ha _]%Forall_app.
      apply Forall_map. exact Ha.
    - apply Forall_app. split; [done|]. apply Forall_map. exact Hdue. }
  revert Hgo. unfold checked_state, return_. destruct (c_message c); [destruct (peek_ s) eqn:Epk|]; cbn; rewrite ?Epk; done.
Qed.
Lemma order_inv_step e s s' : order_inv s -> step e s = Some s' -> order_inv s'.
Proof.
  intros Hinv.
  assert (Hsame : forall s1, arrived s1 = arrived s -> dmsgq_next_num_ (queue s1) = dmsgq_next_num_ (queue s) ->
    dmsgq_ (queue s1) = dmsgq_ (queue s) -> order_inv s1) by (intros s1 E1 E2 E3; apply (order_inv_same s); try done; by rewrite E3).
  pose proof Hinv as (H1 & H2 & H3 & H4 & H5).
  destruct e as [now h id data ts|delay t h id data|h id| | | |h id data|number| | | |peek cmsWait now| | | | | |ok now]; cbn [step].
  - intros [= <-]. assert (En : dmsgq_next_num_ (Post now h id data ts (queue s)) = dmsgq_next_num_ (queue s)) by (unfold Post; by destruct (fStop_ _)).
    destruct (Post_spec now h id data ts (queue s)) as (new & _ & -> & _ & _ & _ & Ed & _).
    unfold order_inv. cbn. rewrite En, Ed. split; [done|].
    assert (Hnew : forall P : arrival -> Prop, (forall m, P (Posted m)) -> Forall P (map Posted new)) by (intros P HP; by apply Forall_map, Forall_true).
    split_and!; try (apply Forall_app; split; [done|]; apply Hnew); try done; [by intros m; apply Forall_true|].
    apply sorted_both; [done | |].
    + clear. induction new; cbn; constructor; [done|]. by apply Forall_map, Forall_true.
    + apply Forall_true. intros []; by apply Hnew.
  - unfold DoDelayPost. destruct (fStop_ (queue s)).
    + intros [= <-]. by apply Hsame.
    + destruct (negb _) eqn:Ez; [|done]. intros [= <-]. unfold order_inv. cbn. apply negb_true_iff, Z.eqb_neq in Ez.
      assert (En : dmsgq_next_num_ (queue s) +u 1 = dmsgq_next_num_ (queue s) + 1) by word_lia.
      split_and!; try done; [word_lia | eapply Forall_impl; [exact H2|]; cbn; intros []; [done | lia]|].
      apply Forall_forall. intros a Ha. rewrite Forall_forall in H2, H3. apply Forall_app. split; [by apply H3|].
      apply Forall_singleton. specialize (H2 a Ha). destruct a; [done|]. by right.
  - unfold Clear, Mq.Clear. intros [= <-]. apply (order_inv_same s); try done. apply filter_sublist.
  - intros [= <-]. by apply Hsame.
  - destruct (waking s); [done|]. intros [= <-]. by apply Hsame.
  - intros [= <-]. by apply Hsame.
  - intros [= <-]. by apply Hsame.
  - destruct (bool_decide _); [|done]. intros [= <-]. by apply Hsame.
  - intros Hstep. change (step TSend s = Some s') in Hstep. apply step_TSend in Hstep as [-> _]. by apply Hsame.
  - destruct (pc_ s); try done. destruct (calls_ s) as [|c l]; [done|]. intros [= <-]. unfold Send_test.
    destruct (bool_decide _); apply Hsame; by destruct (call_waited c).
  - destruct (pc_ s); try done. destruct (calls_ s) as [|c l]; [done|]. intros [= <-]. by apply Hsame.
  - destruct (pc_ s); try done. intros [= <-]. unfold Get_start. destruct (fPeekKeep_ _); [destruct peek|]; by apply Hsame.
  - destruct (pc_ s); try done. intros [= <-]. by apply Hsame.
  - destruct (pc_ s); try done. intros [= <-]. unfold receive_pop. destruct (sendlist_ s); by apply Hsame.
  - destruct (pc_ s); try done. intros [= <-]. by apply Hsame.
  - destruct (pc_ s); try done. destruct (check _ _) as [c|] eqn:Ec; [|done]. cbn [mbind option_bind]. intros [= <-].
    by apply (order_inv_check s c Ec).
  - destruct (pc_ s); try done. intros [= <-]. destruct (fStop_ _); by apply Hsame.
  - destruct (pc_ s); try done. intros [= <-]. unfold after_wait, return_. destruct ok; cbn; [destruct (_ && _)|]; by apply Hsame.
Qed.

(** ** Handlers that are gone *)

Definition other (h : nat) (m : Message) : Prop := phandler m <> Some h.
(** Nothing in the thread is for the handler. *)
Definition quiet (h : nat) (s : state) : Prop :=
  Forall (other h) (peeked (queue s)) /\ Forall (other h) (msgq_ (queue s)) /\
  Forall (fun d => other h (msg_ d)) (dmsgq_ (queue s)) /\ Forall (fun x => other h (s_msg x)) (sendlist_ s).
(** The event does not post or send to it. *)
Definition avoids (h : nat) (e : event) : Prop :=
  match e with
  | EPost _ h' _ _ _ | EDelayPost _ _ h' _ _ | ESend h' _ _ => h' <> Some h
  | _ => True
  end.
Lemma Forall_filter_keep {A} (P : A -> Prop) f (l : list A) : Forall P l -> Forall P (List.filter f l).
Proof. rewrite !Forall_forall. intros H x Hx%list_elem_of_In. apply List.filter_In in Hx as [Hx _]. by apply H, list_elem_of_In. Qed.
Lemma Match_any h m : Match (Some h) MQID_ANY m = bool_decide (phandler m = Some h).
Proof. unfold Match. cbn. rewrite andb_true_r. apply bool_decide_ext. split; congruence. Qed.
Lemma Forall_filter_out {A} h (msg : A -> Message) l : Forall (fun x => other h (msg x)) (List.filter (fun x => negb (Match (Some h) MQID_ANY (msg x))) l).
Proof.
  apply Forall_forall. intros x Hx%list_elem_of_In. apply List.filter_In in Hx as [_ Hx]. rewrite Match_any in Hx.
  apply negb_true_iff, bool_decide_eq_false in Hx. done.
Qed.
Lemma Clear_quiet h s : quiet h (Clear (Some h) MQID_ANY s).
Proof.
  unfold Clear, Mq.Clear, quiet, peeked. cbn. split; [|split; [apply (Forall_filter_out h (fun m => m)) | split; apply Forall_filter_out]].
  rewrite Match_any. destruct (fPeekKeep_ (queue s)), (bool_decide_reflect (phandler (msgPeek_ (queue s)) = Some h)); cbn; by repeat constructor.
Qed.

(** What the thread gives out: messages, and sends it starts to handle. *)
Definition given (s : state) : list Message := delivered s ++ map s_msg (handled s ++ current s).
Lemma quiet_check h s c : check (msCurrent_ s) (queue s) = Some c -> pc_ s = Checking -> quiet h s ->
  quiet h (checked_state c s) /\ exists new, Permutation (given (checked_state c s)) (given s ++ new) /\ Forall (other h) new.
Proof.
  intros Ec Epc (Q1 & Q2 & Q3 & Q4). unfold given, checked_state.
  destruct (check_spec _ _ _ Ec) as ((stay & next & Et & E2 & E3) & E4 & _ & _ & _ & _ & E5 & E6 & _).
  pose proof (triggered_perm (length (dmsgq_ (queue s))) (msCurrent_ s) (dmsgq_ (queue s))) as Ht. rewrite Et in Ht.
  assert (Hm : Forall (fun d => other h (msg_ d)) (c_moved c) /\ Forall (fun d => other h (msg_ d)) stay) by (rewrite Ht in Q3; by apply Forall_app).
  destruct Hm as [Hm Hst]. assert (Hall : Forall (other h) (msgq_ (queue s) ++ map msg_ (c_moved c))).
  { apply Forall_app_2; [done|]. by apply Forall_map. }
  rewrite E4 in Hall. apply Forall_app in Hall as [_ Hall]. apply Forall_app in Hall as [Hr Hrest].
  unfold quiet, peeked, current, return_ in *. rewrite Epc.
  destruct (c_message c) as [m|]; [destruct (peek_ s) eqn:Epk|]; cbn; rewrite ?Epk; cbn; rewrite ?E5, ?E6, ?E2; (split; [done|]).
  - exists []. split; [solve_Permutation | done].
  - exists [m]. split; [solve_Permutation | done].
  - exists []. split; [solve_Permutation | done].
Qed.
Lemma quiet_step h e s s' : quiet h s -> avoids h e -> step e s = Some s' ->
  quiet h s' /\ exists new, Permutation (given s') (given s ++ new) /\ Forall (other h) new.
Proof.
  intros Hq Ha. pose proof Hq as (Q1 & Q2 & Q3 & Q4).
  assert (Hsame : forall s1, delivered s1 = delivered s -> handled s1 = handled s -> current s1 = current s ->
    exists new, Permutation (delivered s1 ++ map s_msg (handled s1 ++ current s1)) ((delivered s ++ map s_msg (handled s ++ current s)) ++ new) /\ Forall (other h) new).
  { intros s1 -> -> ->. exists []. rewrite app_nil_r. done. }
  destruct e as [now h' id data ts|delay t h' id data|h' id| | | |h' id data|number| | | |peek cmsWait now| | | | | |ok now]; cbn [step avoids] in *.
  - intros [= <-]. split; [|by apply Hsame]. destruct (Post_spec now h' id data ts (queue s)) as (new & E1 & _ & Hf & _ & _ & E2 & E3 & E4 & _).
    unfold quiet, peeked. cbn. rewrite E1, E2, E3, E4. split; [done|]. split; [|done]. apply Forall_app_2; [done|].
    eapply Forall_impl; [exact Hf|]. unfold other. congruence.
  - destruct (DoDelayPost _ _ _ _ _ _) as [q|] eqn:E; [|done]. cbn. intros [= <-]. split; [|by apply Hsame].
    destruct (DoDelayPost_spec _ _ _ _ _ _ _ E) as (new & E1 & _ & Hf & _ & E2 & E3 & E4 & _).
    unfold quiet, peeked. cbn. rewrite E1, E2, E3, E4. split; [done|]. split; [done|]. split; [|done]. apply Forall_app_2; [done|].
    eapply Forall_impl; [exact Hf|]. unfold other. congruence.
  - unfold Clear, Mq.Clear. intros [= <-]. split; [|by apply Hsame]. unfold quiet, peeked in *. cbn.
    split; [|split; [|split]]; try by apply Forall_filter_keep.
    destruct (fPeekKeep_ (queue s)); cbn in *; [|done]. by destruct (Match _ _ _).
  - intros [= <-]. split; [done | by apply Hsame].
  - destruct (waking s); [done|]. intros [= <-]. split; [done | by apply Hsame].
  - intros [= <-]. split; [done | by apply Hsame].
  - intros [= <-]. split; [|by apply Hsame]. unfold quiet, Send_push. cbn. split; [done|]. split; [done|]. split; [done|].
    apply Forall_app_2; [done|]. repeat constructor. done.
  - destruct (bool_decide _); [|done]. intros [= <-]. split; [done | by apply Hsame].
  - intros Hstep. change (step TSend s = Some s') in Hstep. apply step_TSend in Hstep as [-> Hpc]. split; [done|].
    apply Hsame; [done | done|]. unfold current, Send_call. cbn. by destruct Hpc as [-> | [x ->]].
  - destruct (pc_ s) eqn:Epc; try done. destruct (calls_ s) as [|c l] eqn:Ec; [done|]. intros [= <-]. unfold Send_test, current.
    split; [by destruct (bool_decide _), (call_waited c)|].
    destruct (bool_decide _); apply Hsame; try done; unfold current; cbn; by rewrite ?Epc, ?Ec.
  - destruct (pc_ s) eqn:Epc; try done. destruct (calls_ s) as [|c l] eqn:Ec; [done|]. intros [= <-]. split; [done|].
    apply Hsame; try done; unfold current; cbn; by rewrite ?Epc, ?Ec.
  - destruct (pc_ s) eqn:Epc; try done. intros [= <-]. unfold Get_start, quiet, given, peeked, current in *. rewrite Epc in *.
    destruct (fPeekKeep_ (queue s)) eqn:Ek; [destruct peek|]; cbn; rewrite ?Epc, ?Ek; cbn.
    + split; [done|]. exists []. split; [solve_Permutation | done].
    + split; [done|]. exists [msgPeek_ (queue s)]. split; [solve_Permutation | done].
    + split; [done|]. exists []. split; [solve_Permutation | done].
  - destruct (pc_ s) eqn:Epc; try done. intros [= <-]. split; [done|]. apply Hsame; [done | done|].
    apply current_step; [by rewrite Epc| |done]. unfold receive_test, after_receive. cbn. by destruct (has_sends_ s), (calls_ s).
  - destruct (pc_ s) eqn:Epc; try done. intros [= <-]. unfold receive_pop. destruct (sendlist_ s) as [|x l] eqn:El.
    + split; [unfold quiet; cbn; rewrite El; done|]. apply Hsame; [done | done|].
      apply current_step; [by rewrite Epc| |done]. unfold after_receive. cbn. by destruct (calls_ s).
    + apply Forall_cons in Q4 as [Qx Ql]. split; [done|]. exists [s_msg x]. unfold given, current. rewrite Epc. cbn.
      rewrite !map_app. split; [cbn; solve_Permutation | by repeat constructor].
  - destruct (pc_ s) eqn:Epc; try done. intros [= <-]. split; [done|]. exists []. unfold given, current, receive_ready. cbn. rewrite Epc.
    rewrite !app_nil_r, <- !app_assoc. done.
  - destruct (pc_ s) eqn:Epc; try done. destruct (check _ _) as [c|] eqn:Ec; [|done]. cbn [mbind option_bind]. intros [= <-].
    by apply (quiet_check h s c Ec).
  - destruct (pc_ s) eqn:Epc; try done. intros [= <-]. split; [by destruct (fStop_ _)|]. apply Hsame; unfold current; rewrite ?Epc; by destruct (fStop_ _).
  - destruct (pc_ s) eqn:Epc; try done. intros [= <-]. unfold after_wait, return_. destruct ok; cbn [negb].
    + destruct (_ && _); (split; [done|]; apply Hsame; unfold current; cbn; by rewrite ?Epc).
    + split; [done|]. apply Hsame; unfold current; cbn; by rewrite ?Epc.
Qed.

(** ** What holds *)

Lemma mq_reach_inv s : reach s -> call_inv s /\ message_inv s /\ send_inv s /\ wake_inv s /\ reply_inv s /\ owed_inv s /\ order_inv s.
Proof.
  induction 1 as [|e s s' _ (H1 & H2 & H3 & H4 & H5 & H6 & H7) He].
  - split; [done|]. split; [apply message_inv_start|]. unfold send_inv, reply_inv, owed_inv, order_inv. cbn.
    split_and!; try done; repeat constructor; done.
  - split_and!; eauto using call_inv_step, message_inv_step, send_inv_step, wake_inv_step, reply_inv_step, owed_inv_step, order_inv_step.
Qed.
Lemma run_reach es s s' : reach s -> run es s = Some s' -> reach s'.
Proof.
  revert s. induction es as [|e es IH]; intros s Hr; cbn; [by intros [= <-]|].
  destruct (step e s) as [s1|] eqn:E; [|done]. cbn. apply IH. by eapply reach_step.
Qed.

(** C37. Whatever the threads do in whatever order, every message that was accepted
    is in one place: returned by [Get], kept by [Peek], queued, delayed, cleared
    or disposed of.  The messages are returned in the order in which they entered
    the queue.  A delayed message enters it when its time has come by the clock
    of [Get], and of two delayed ones the one with the smaller time, as a number,
    enters first, or with the same time the one that was posted first, unless it
    was posted after the other had entered. *)
Theorem messages_conserved (s : state) :
  reach s ->
  Permutation (accepted s)
    (delivered s ++ peeked (queue s) ++ msgq_ (queue s) ++ map msg_ (dmsgq_ (queue s)) ++ dropped s ++ disposed s) /\
  sublist (delivered s ++ peeked (queue s) ++ msgq_ (queue s)) (map arrival_msg (arrived s)) /\
  Forall was_due (arrived s) /\ StronglySorted in_due_order (arrived s).
Proof. intros H. destruct (mq_reach_inv s H) as (_ & (H1 & H2 & _) & _ & _ & _ & _ & _ & _ & _ & H3 & H4). done. Qed.

(** C38. A thread never sleeps on work.  In the [Wait] of [Get], when messages are
    queued or sent to it, or it was told to quit, the wait ends at once or a
    caller is about to wake it; with delayed messages it does not wait forever.
    In the [Wait] of a [Send] of its own to another thread the same holds when a
    message was sent to it or the reply to that [Send] is there; messages that
    are posted to it meanwhile have to wait for the end of the [Send], and a
    wake-up that the loop has used up is made up for when it ends. *)
Theorem no_lost_wakeup (s : state) :
  reach s ->
  (forall cmsNext, pc_ s = Waiting cmsNext ->
     sendlist_ s <> [] \/ msgq_ (queue s) <> [] \/ fStop_ (queue s) = true \/ (dmsgq_ (queue s) <> [] /\ cmsNext < 0) ->
     ss_ (queue s) = true \/ (0 < waking s)%nat) /\
  (forall c rest, pc_ s = Sleeping -> calls_ s = c :: rest -> sendlist_ s <> [] \/ call_number c ∈ replied_ s ->
     ss_ (queue s) = true \/ (0 < waking s)%nat) /\
  (owed s = true -> exists c, c ∈ calls_ s /\ call_waited c = true).
Proof.
  intros H. destruct (mq_reach_inv s H) as (_ & _ & _ & [_ Hw] & Hr & Ho & _). split; [|split].
  - intros n E. rewrite E in Hw. exact Hw.
  - intros c rest E Ec. unfold reply_inv in Hr. rewrite E in Hw, Hr. rewrite Ec in Hr. destruct Hr as [Hr _].
    intros [Hl | Hin]; [by apply Hw|]. by destruct (Hr Hin).
  - intros E. by apply Exists_exists, Ho.
Qed.

Lemma ticket_inj l x y : NoDup (map ticket l) -> x ∈ l -> y ∈ l -> ticket x = ticket y -> x = y.
Proof.
  induction l as [|z l IH]; cbn; [intros _ H; by apply elem_of_nil in H|]. intros [Hz Hn]%NoDup_cons Hx Hy E.
  apply elem_of_cons in Hx as [->|Hx], Hy as [->|Hy]; [done | | | by apply IH]; destruct Hz.
  - rewrite E. by apply list_elem_of_fmap_2.
  - rewrite <- E. by apply list_elem_of_fmap_2.
Qed.
(** C40. A [Send] is released exactly when its message was handled or cleared; no
    message is handled twice, and the handlers of sends are started in the order
    the sends came; they also end in it unless a handler makes a send of its own,
    which lets others in. *)
Theorem send_synchronous (s : state) :
  reach s ->
  Permutation (sent s) (handled s ++ current s ++ sendlist_ s ++ cleared s) /\
  NoDup (map ticket (sent s)) /\
  Permutation (started s) (handled s ++ current s) /\ sublist (started s ++ sendlist_ s) (sent s) /\
  (nested s = 0%nat -> sublist (handled s ++ current s ++ sendlist_ s) (sent s)) /\
  (forall x, x ∈ sent s -> (ticket x ∈ ready_ s <-> x ∈ handled s ++ cleared s)).
Proof.
  intros H. destruct (mq_reach_inv s H) as (_ & _ & (H1 & H2 & H3 & H4 & H5 & H6) & _).
  assert (Hn : NoDup (map ticket (sent s))) by (rewrite H4; apply NoDup_seq).
  do 4 (split; [done|]). split.
  { intros Hz. destruct (H6 Hz) as [E _]. rewrite E, <- app_assoc in H3. exact H3. }
  intros x Hx. rewrite H5. split; [|apply list_elem_of_fmap_2].
  intros Ht. apply list_elem_of_fmap in Ht as (y & E & Hy).
  assert (Hys : y ∈ sent s) by (rewrite H1, !elem_of_app; rewrite elem_of_app in Hy; tauto).
  by rewrite (ticket_inj (sent s) x y).
Qed.

(** Once a thread is cleared of a handler, and no one posts or sends to it, the
    thread gives it nothing more. *)
Theorem cleared_handler_silent (s s' : state) (h : nat) (es : list event) :
  run es (Clear (Some h) MQID_ANY s) = Some s' -> Forall (avoids h) es ->
  quiet h s' /\ exists new, Permutation (given s') (given s ++ new) /\ Forall (other h) new.
Proof.
  intros Hr Ha. assert (Hg : given (Clear (Some h) MQID_ANY s) = given s) by done. rewrite <- Hg. clear Hg.
  pose proof (Clear_quiet h s) as Hq. revert Hr Hq. generalize (Clear (Some h) MQID_ANY s). clear s.
  induction Ha as [|e es He Ha IH]; intros s; cbn [run].
  - intros [= <-] Hq. split; [done|]. exists []. rewrite app_nil_r. done.
  - destruct (step e s) as [s1|] eqn:E; [|done]. cbn. intros Hr Hq. destruct (quiet_step h e s s1 Hq He E) as (Hq1 & n1 & P1 & F1).
    destruct (IH s1 Hr Hq1) as (Hq2 & n2 & P2 & F2). split; [done|]. exists (n1 ++ n2). rewrite P2, P1, app_assoc. split; [done|]. by apply Forall_app_2.
Qed.

(** The critical section of [Get] takes over exactly the delayed messages whose
    time has come, in the order of their times and numbers, and when it finds no
    message it knows the time to the next one, as long as the clock does not
    wrap between now and their times. *)
Theorem check_timely (now : Z) (q : MessageQueue) (c : checked) :
  is_u32 now -> near now (dmsgq_ q) -> check now q = Some c ->
  let moved := c_moved c in
  let stay := dmsgq_ (c_queue c) in
  Permutation (dmsgq_ q) (moved ++ stay) /\ StronglySorted first moved /\
  Forall (fun d => msTrigger_ d <= now) moved /\ Forall (fun d => now < msTrigger_ d) stay /\
  msgq_ q ++ map msg_ moved = c_disposed c ++ (match c_message c with Some m => [m] | None => [] end) ++ msgq_ (c_queue c) /\
  (c_message c = None -> msgq_ (c_queue c) = [] /\
     (stay = [] -> c_delay_next c = kForever) /\
     (stay <> [] -> Forall (fun d => c_delay_next c <= msTrigger_ d - now) stay /\ Exists (fun d => c_delay_next c = msTrigger_ d - now) stay)).
Proof.
  intros Hn Hnear Hc. destruct (check_spec now q c Hc) as ((stay & next & Et & -> & ->) & E4 & _ & Hm & _). cbn zeta.
  pose proof (triggered_perm (length (dmsgq_ q)) now (dmsgq_ q)) as Hp.
  pose proof (triggered_sorted (length (dmsgq_ q)) now (dmsgq_ q)) as Hs.
  pose proof (triggered_complete (length (dmsgq_ q)) now (dmsgq_ q) Hn Hnear ltac:(lia)) as Hd. rewrite Et in Hp, Hs, Hd.
  destruct Hs as [Hs _], Hd as (H1 & H2 & H3 & H4). do 5 (split; [done|]). intros Hnone. split; [auto|]. split; [done|].
  intros Hne. destruct (H4 Hne) as (_ & H5 & H6). done.
Qed.
End Thr.

(** ** The manager of all queues *)

Module Mgr.
Import Mq Thr.

(** The threads by their names, and the list of the queues that are active. *)
Record world := mkWorld { threads : gmap nat state; message_queues_ : list nat }.
#[export] Instance world_eta : Eta world := fun w => mkWorld (threads w) (message_queues_ w).

Definition Add (id : nat) (w : world) : world := w <| message_queues_ := message_queues_ w ++ [id] |>.
Fixpoint erase_first (id : nat) (l : list nat) : list nat :=
  match l with [] => [] | x :: l => if (x =? id)%nat then l else x :: erase_first id l end.
Definition Remove (id : nat) (w : world) : world := w <| message_queues_ := erase_first id (message_queues_ w) |>.
(** The virtual [Clear] of every queue in the list. *)
Definition ClearAll (handler : option nat) (w : world) : world :=
  w <| threads := fold_left (fun m id => alter (Thr.Clear handler MQID_ANY) id m) (message_queues_ w) (threads w) |>.

Inductive event :=
| WCreate (id : nat)
| WStep (id : nat) (e : Thr.event)
| WDestroy (id : nat)
| WHandlerGone (h : nat).
(** A queue becomes known to the manager with its first message ([EnsureActive]);
    its destructor removes it, and that of a handler clears all queues. *)
Definition wstep (e : event) (w : world) : option world :=
  match e with
  | WCreate id => if bool_decide (threads w !! id = None) then Some (w <| threads := <[id := start]> (threads w) |>) else None
  | WStep id e =>
      s ← threads w !! id; s' ← step e s;
      let w' := w <| threads := <[id := s']> (threads w) |> in
      Some (if negb (active_ (queue s)) && active_ (queue s') then Add id w' else w')
  | WDestroy id =>
      s ← threads w !! id;
      let w' := if active_ (queue s) then Remove id w else w in
      Some (w' <| threads := delete id (threads w') |>)
  | WHandlerGone h => Some (ClearAll (Some h) w)
  end.
Inductive wreach : world -> Prop :=
| wreach_start : wreach (mkWorld ∅ [])
| wreach_step e w w' : wreach w -> wstep e w = Some w' -> wreach w'.

(** A queue that is not active is empty. *)
Definition idle_empty (s : state) : Prop :=
  active_ (queue s) = false ->
  fPeekKeep_ (queue s) = false /\ msgq_ (queue s) = [] /\ dmsgq_ (queue s) = [] /\ sendlist_ s = [].
Lemma idle_empty_step e s s' : idle_empty s -> step e s = Some s' ->
  idle_empty s' /\ (active_ (queue s) = true -> active_ (queue s') = true).
Proof.
  unfold idle_empty. intros Hi.
  destruct e as [now h id data ts|delay t h id data|h id| | | |h id data|number| | | |peek cmsWait now| | | | | |ok now]; cbn [step].
  - intros [= <-]. unfold Post. cbn. destruct (fStop_ (queue s)); cbn; [done|]. split; [done | auto].
  - unfold DoDelayPost. destruct (fStop_ (queue s)); [by intros [= <-]|]. destruct (negb _); [|done]. intros [= <-]. cbn. split; [done | auto].
  - unfold Thr.Clear, Mq.Clear. intros [= <-]. cbn. split; [|done]. intros Ha. destruct (Hi Ha) as (-> & -> & -> & ->). done.
  - by intros [= <-].
  - destruct (waking s); [done|]. by intros [= <-].
  - by intros [= <-].
  - by intros [= <-].
  - destruct (bool_decide _); [|done]. by intros [= <-].
  - intros Hstep. change (step TSend s = Some s') in Hstep. by apply step_TSend in Hstep as [-> _].
  - destruct (pc_ s); try done. destruct (calls_ s) as [|c l]; [done|]. intros [= <-]. unfold Send_test.
    by destruct (bool_decide _), (call_waited c).
  - destruct (pc_ s); try done. destruct (calls_ s) as [|c l]; [done|]. by intros [= <-].
  - destruct (pc_ s); try done. intros [= <-]. unfold Get_start. destruct (fPeekKeep_ (queue s)) eqn:Ek; [destruct peek|]; cbn; rewrite ?Ek; split; try done;
      intros Ha; destruct (Hi Ha) as [? _]; congruence.
  - destruct (pc_ s); try done. by intros [= <-].
  - destruct (pc_ s); try done. unfold receive_pop. intros [= <-]. destruct (sendlist_ s) eqn:El; cbn; rewrite ?El; [done|].
    split; [|done]. intros Ha. destruct (Hi Ha) as (_ & _ & _ & ?). done.
  - destruct (pc_ s); try done. by intros [= <-].
  - destruct (pc_ s) eqn:Epc; try done. destruct (check _ _) as [c|] eqn:Ec; [|done]. cbn [mbind option_bind]. intros [= <-].
    destruct (check_spec _ _ _ Ec) as ((stay & next & Et & E2 & E3) & E4 & _ & _ & _ & _ & E5 & E6 & E7 & _).
    unfold return_. destruct (active_ (queue s)) eqn:Ea.
    + destruct (c_message c); [destruct (peek_ s) eqn:Epk|]; cbn; rewrite ?Epk; cbn; rewrite E7; done.
    + destruct (Hi eq_refl) as (H1 & H2 & H3 & H4). rewrite H3 in Et. cbn in Et. injection Et as Em Es En.
      rewrite <- Em, H2 in E4. cbn in E4. symmetry in E4. apply app_eq_nil in E4 as [_ E4]. destruct (c_message c); [done|]. cbn in *.
      rewrite E7, E5, E4, E2, <- Es, H1, H4. done.
  - destruct (pc_ s); try done. intros [= <-]. by destruct (fStop_ (queue s)).
  - destruct (pc_ s); try done. intros [= <-]. unfold after_wait, return_. destruct ok; cbn; [|done]. by destruct (_ && _).
Qed.

(** The list of the manager is that of the active queues. *)
Definition world_inv (w : world) : Prop :=
  NoDup (message_queues_ w) /\
  (forall id, id ∈ message_queues_ w <-> exists s, threads w !! id = Some s /\ active_ (queue s) = true) /\
  map_Forall (fun _ => idle_empty) (threads w).
Lemma erase_first_spec id l : NoDup l -> NoDup (erase_first id l) /\ forall x, x ∈ erase_first id l <-> x ∈ l /\ x <> id.
Proof.
  induction l as [|y l IH]; cbn; [intros _; split; [constructor|]; intros x; rewrite elem_of_nil; tauto|]. intros [Hy Hn]%NoDup_cons.
  destruct (IH Hn) as [H1 H2]. destruct (Nat.eqb_spec y id) as [->|].
  - split; [done|]. intros x. rewrite elem_of_cons. split; [intros Hx; split; [auto | by intros ->] | by intros [[->|?] ?]].
  - split.
    + apply NoDup_cons. split; [|done]. rewrite H2. tauto.
    + intros x. rewrite !elem_of_cons, H2. split; [intros [->|[? ?]]; auto | intros [[->|?] ?]; auto].
Qed.
Lemma cleared_all h l (m : gmap nat state) id : fold_left (fun m id => alter (Thr.Clear h MQID_ANY) id m) l m !! id =
  (fun s => Nat.iter (count_occ Nat.eq_dec l id) (Thr.Clear h MQID_ANY) s) <$> m !! id.
Proof.
  revert m. induction l as [|x l IH]; intros m; cbn [fold_left count_occ].
  - by destruct (m !! id).
  - rewrite IH. destruct (Nat.eq_dec x id) as [->|].
    + rewrite lookup_alter_eq. destruct (m !! id) as [s|]; [|done]. cbn [fmap option_fmap option_map]. by rewrite Nat.iter_succ_r.
    + rewrite lookup_alter_ne by done. done.
Qed.

Lemma Clear_idle h s : idle_empty s -> idle_empty (Thr.Clear h MQID_ANY s).
Proof. intros Hi. unfold idle_empty, Thr.Clear, Mq.Clear in *. cbn. intros Ha. destruct (Hi Ha) as (-> & -> & -> & ->). done. Qed.
Lemma Clear_active h s : active_ (queue (Thr.Clear h MQID_ANY s)) = active_ (queue s).
Proof. done. Qed.
Lemma iter_clear h n s : idle_empty s -> idle_empty (Nat.iter n (Thr.Clear h MQID_ANY) s) /\
  active_ (queue (Nat.iter n (Thr.Clear h MQID_ANY) s)) = active_ (queue s).
Proof. intros Hi. induction n as [|n [IH1 IH2]]; cbn [Nat.iter]; [done|]. split; [by apply Clear_idle | done]. Qed.

(** An operation on one queue: what it does to the invariant. *)
Lemma world_inv_step e w w' : world_inv w -> wstep e w = Some w' -> world_inv w'.
Proof.
  intros (Hn & Ha & Hi). destruct e as [id|id e|id|h]; cbn [wstep].
  - destruct (bool_decide_reflect (threads w !! id = None)) as [E|]; [|done]. intros [= <-]. split; [done|]. split; cbn.
    + intros x. rewrite Ha. split; intros (s & Hs & Hact); exists s; (split; [|done]).
      * rewrite lookup_insert_ne; [done|]. intros <-. congruence.
      * destruct (decide (id = x)) as [->|]; [rewrite lookup_insert_eq in Hs; by injection Hs as <- | by rewrite lookup_insert_ne in Hs].
    + apply map_Forall_insert_2; [done | done].
  - destruct (threads w !! id) as [s|] eqn:Es; [|done]. cbn. destruct (step e s) as [s'|] eqn:E; [|done]. cbn.
    destruct (idle_empty_step e s s' (Hi id s Es) E) as [Hi' Hmono].
    assert (HF : map_Forall (fun _ => idle_empty) (<[id:=s']> (threads w))) by (by apply map_Forall_insert_2).
    assert (Hother : forall x, x <> id -> x ∈ message_queues_ w <-> exists t, <[id:=s']> (threads w) !! x = Some t /\ active_ (queue t) = true).
    { intros x Hx. rewrite Ha, lookup_insert_ne by done. done. }
    assert (Hid : (exists t, <[id:=s']> (threads w) !! id = Some t /\ active_ (queue t) = true) <-> active_ (queue s') = true).
    { rewrite lookup_insert_eq. split; [by intros (t & [= <-] & ?) | eauto]. }
    assert (Hin : id ∈ message_queues_ w <-> active_ (queue s) = true).
    { rewrite Ha, Es. split; [by intros (t & [= <-] & ?) | eauto]. }
    intros [= <-]. destruct (active_ (queue s)) eqn:E1, (active_ (queue s')) eqn:E2; cbn [negb andb]; split_and!; try done; cbn.
    + intros x. destruct (decide (x = id)) as [->|]; [rewrite Hid; tauto | by apply Hother].
    + by specialize (Hmono eq_refl).
    + apply NoDup_app. split; [done|]. split; [|by apply NoDup_singleton]. intros x Hx ->%list_elem_of_singleton. apply Hin in Hx. done.
    + intros x. rewrite elem_of_app, list_elem_of_singleton. destruct (decide (x = id)) as [->|]; [rewrite Hid; tauto|]. rewrite Hother by done. tauto.
    + intros x. destruct (decide (x = id)) as [->|]; [rewrite Hid, Hin; done | by apply Hother].
  - destruct (threads w !! id) as [s|] eqn:Es; [|done]. cbn. intros [= <-]. cbn.
    destruct (erase_first_spec id (message_queues_ w) Hn) as [H1 H2].
    assert (Hdel : forall x, (exists t, delete id (threads w) !! x = Some t /\ active_ (queue t) = true) <-> x ∈ message_queues_ w /\ x <> id).
    { intros x. rewrite Ha. destruct (decide (id = x)) as [->|].
      - rewrite lookup_delete_eq. split; [by intros (t & ? & _) | by intros [_ ?]].
      - rewrite lookup_delete_ne by done. split; [intros (t & ? & ?); eauto | by intros [(t & ? & ?) _]; eauto]. }
    destruct (active_ (queue s)) eqn:E1; cbn; (split; [done|]; split; [|by apply map_Forall_delete]); intros x; rewrite Hdel; [done|].
    split; [|tauto]. intros Hx. split; [done|]. intros ->. apply Ha in Hx as (t & Ht & Ht'). congruence.
  - intros [= <-]. unfold ClearAll. split; [done|]. split; cbn.
    + intros x. rewrite Ha, cleared_all. destruct (threads w !! x) as [s|] eqn:Es; cbn.
      * destruct (iter_clear (Some h) (count_occ Nat.eq_dec (message_queues_ w) x) s (Hi x s Es)) as [_ E].
        split; intros (t & [= <-] & Ht); eexists; (split; [done|]); congruence.
      * split; intros (t & ? & _); done.
    + intros x t Ht. rewrite cleared_all in Ht. destruct (threads w !! x) as [s|] eqn:Es; [|done]. injection Ht as <-.
      apply iter_clear, (Hi x s Es).
Qed.

Lemma wreach_inv w : wreach w -> world_inv w.
Proof.
  induction 1 as [|e w w' _ IH He]; [|by eapply world_inv_step]. split; [constructor|]. split; [|by apply map_Forall_empty].
  intros id. cbn. split; [intros Hx; by apply elem_of_nil in Hx | by intros (s & Hs & _)].
Qed.
Lemma idle_quiet h s : idle_empty s -> active_ (queue s) = false -> quiet h s.
Proof. intros Hi Ha. destruct (Hi Ha) as (H1 & H2 & H3 & H4). unfold quiet, peeked. rewrite H1, H2, H3, H4. done. Qed.

(** C39. When a handler is destroyed nothing for it is left in any queue, known to
    the manager or not, and [step] by [step] it stays so. *)
Theorem handler_destroyed (w : world) (h : nat) (id : nat) (s : state) :
  wreach w -> threads (ClearAll (Some h) w) !! id = Some s -> quiet h s.
Proof.
  intros Hw Hs. destruct (wreach_inv w Hw) as (_ & Ha & Hi). unfold ClearAll in Hs. cbn in Hs. rewrite cleared_all in Hs.
  destruct (threads w !! id) as [s0|] eqn:Es; [|done]. injection Hs as <-.
  destruct (active_ (queue s0)) eqn:E.
  - assert (Hin : In id (message_queues_ w)) by (apply list_elem_of_In, Ha; eauto).
    apply (count_occ_In Nat.eq_dec) in Hin. destruct (count_occ Nat.eq_dec (message_queues_ w) id) as [|n]; [lia|]. apply Clear_quiet.
  - destruct (iter_clear (Some h) (count_occ Nat.eq_dec (message_queues_ w) id) s0 (Hi id s0 Es)) as [H1 H2].
    apply idle_quiet; [done | by rewrite H2].
Qed.
End Mgr.

(** ** Runs *)

Module MqRuns.
Import Mq Thr Mgr.

(** A post, a delayed post and a send, taken by the thread; another post while
    it is on its way to [Wait]. *)
Definition ex_events : list Thr.event :=
  [EPost 1000 (Some 1%nat) 7 None false; EDelayPost 50 1050 (Some 2%nat) 8 None; ESend (Some 3%nat) 9 None; EWakeUp;
   TGet false kForever 1000; TReceive; TPop; THandled; TPop; TCheck;
   TGet false kForever 1010; TReceive; TCheck; EPost 1010 (Some 1%nat) 10 None false; TStop].
Definition ex_state : state := default start (run ex_events start).
Lemma mq_ex_reach : reach ex_state.
Proof. apply (run_reach ex_events start); [apply reach_start | vm_compute; reflexivity]. Qed.

Lemma messages_conserved_witness : reach ex_state /\
  Permutation [mkMessage (Some 1%nat) 7 None 0; mkMessage (Some 2%nat) 8 None 0; mkMessage (Some 1%nat) 10 None 0]
    ([mkMessage (Some 1%nat) 7 None 0] ++ [] ++ [mkMessage (Some 1%nat) 10 None 0] ++ [mkMessage (Some 2%nat) 8 None 0] ++ [] ++ []).
Proof. split; [exact mq_ex_reach | exact (proj1 (messages_conserved ex_state mq_ex_reach))]. Defined.
(** While the thread waits for a send of its own it handles one of another
    thread, whose handler makes a send too; that one uses up the wake-up of the
    reply to the first, and makes up for it. *)
Definition ex_calls : list Thr.event :=
  [ESend (Some 3%nat) 9 None; EWakeUp; TSend; TReply; TReceive; TPop; TSend; TReply; TReceive; TPop;
   EReply 0; EWakeUp; TSleep; EReply 1; TReply; THandled; TPop].
Definition ex_sleeping : state := default start (run ex_calls start).
Lemma ex_sleeping_reach : reach ex_sleeping.
Proof. apply (run_reach ex_calls start); [apply reach_start | vm_compute; reflexivity]. Qed.
Lemma no_lost_wakeup_witness :
  pc_ ex_state = Waiting 40 /\ (ss_ (queue ex_state) = true \/ (0 < waking ex_state)%nat) /\
  pc_ ex_sleeping = Sleeping /\ (ss_ (queue ex_sleeping) = true \/ (0 < waking ex_sleeping)%nat).
Proof.
  split; [vm_compute; reflexivity|]. split; [|split; [vm_compute; reflexivity|]].
  - apply (proj1 (no_lost_wakeup ex_state mq_ex_reach) 40); [vm_compute; reflexivity | right; left; vm_compute; discriminate].
  - eapply (proj1 (proj2 (no_lost_wakeup ex_sleeping ex_sleeping_reach))); [vm_compute; reflexivity | vm_compute; reflexivity|].
    right. vm_compute. right. left.
Defined.
Lemma send_synchronous_witness : reach ex_state /\ NoDup (map ticket (sent ex_state)) /\ map ticket (sent ex_state) = [0%nat].
Proof.
  split; [exact mq_ex_reach|]. split; [exact (proj1 (proj2 (send_synchronous ex_state mq_ex_reach))) | vm_compute; reflexivity].
Defined.
Lemma check_timely_witness :
  let q := make <| dmsgq_ := [mkDelayed 60 1060 0 no_message; mkDelayed 50 1050 1 no_message; mkDelayed 40 1040 2 no_message] |> in
  exists c, check 1050 q = Some c /\ c_message c = Some no_message /\
  StronglySorted first (c_moved c) /\ map msTrigger_ (c_moved c) = [1040; 1050].
Proof.
  eexists. split; [vm_compute; reflexivity|]. split; [reflexivity|]. split; [|reflexivity].
  refine (proj1 (proj2 (check_timely 1050 (make <| dmsgq_ := [mkDelayed 60 1060 0 no_message; mkDelayed 50 1050 1 no_message; mkDelayed 40 1040 2 no_message] |>) _ _ _ _))).
  - split; [discriminate | reflexivity].
  - repeat constructor; discriminate.
  - vm_compute. reflexivity.
Defined.
Definition ex_world : world := mkWorld {[5%nat := default start (step (EPost 0 (Some 1%nat) 7 None false) start)]} [5%nat].
Lemma ex_world_reach : wreach ex_world.
Proof.
  apply (wreach_step (WStep 5 (EPost 0 (Some 1%nat) 7 None false)) (mkWorld {[5%nat := start]} [])); [|vm_compute; reflexivity].
  apply (wreach_step (WCreate 5) (mkWorld ∅ [])); [apply wreach_start | vm_compute; reflexivity].
Qed.
Lemma handler_destroyed_witness : exists s, threads (ClearAll (Some 1%nat) ex_world) !! 5%nat = Some s /\ quiet 1 s /\ dropped s <> [].
Proof.
  eexists. split; [vm_compute; reflexivity|]. split; [|discriminate].
  refine (handler_destroyed ex_world 1 5 _ ex_world_reach _). vm_compute. reflexivity.
Defined.

(** *** Limits *)

(** The queue orders the times as numbers: when the clock wraps, a message after
    the wrap hides one whose time has come. *)
Example due_message_hidden :
  let q := make <| dmsgq_ := [mkDelayed 20 4294967290 0 no_message; mkDelayed 20 10 1 no_message] |> in
  option_map c_message (check 4294967295 q) = Some None /\ option_map c_delay_next (check 4294967295 q) = Some 11.
Proof. split; vm_compute; reflexivity. Qed.
(** A [Send] that read [fStop_] before [Quit] is not answered by the thread,
    which has left [Get]; it waits until the queue is cleared. *)
Example send_after_quit :
  let s := run [TGet false kForever 0; TReceive; TCheck; EQuit; TStop; EWakeUp; ESend (Some 1%nat) 7 None; EWakeUp] start in
  option_map pc_ s = Some Idle /\ option_map ready_ s = Some [] /\
  option_map (fun s => ready_ (Thr.Clear None MQID_ANY s)) s = Some [0%nat].
Proof. repeat split; vm_compute; reflexivity. Qed.
End MqRuns.
