(* ===== verification/Xml.v ===== *)
(** * XML elements (talk/xmllite/qname.cc, xmlelement.cc, talk/p2p/base/parsing.cc)

    A qualified name is a namespace and a local part; the static names live in
    a hash table of 512 slots with open addressing ([Names]).  An element owns
    its attributes and children, so it is a value: the first and last pointers
    and the links of the C++ are the order of the two lists. *)

From S2P Require Import Prelude.
From Stdlib Require Import Znumtheory.

Module Xml.

(** ** Names *)

(** The [const char *] of a string ends at its first zero byte. *)
Fixpoint c_str (s : bytes) : bytes :=
  match s with [] => [] | c :: s => if decide (c = Byte.x00) then [] else c :: c_str s end.

Record QName := mkQName { Namespace : bytes; LocalPart : bytes }.
#[export] Instance QName_eq_dec : EqDecision QName.
Proof. solve_decision. Defined.

Definition qname (ns local : bytes) : QName := mkQName ns (c_str local).
Definition Merged (n : QName) : bytes :=
  if decide (Namespace n = []) then LocalPart n else Namespace n ++ str ":" ++ LocalPart n.

(** [rfind(':')]: the text before the last colon and the text after it. *)
Fixpoint rsplit (s : bytes) : option (bytes * bytes) :=
  match s with
  | [] => None
  | c :: s' =>
      match rsplit s' with
      | Some (a, b) => Some (c :: a, b)
      | None => if decide (c = Byte.x3a) then Some ([], s') else None
      end
  end.
Definition QName_LocalPart (name : bytes) : bytes :=
  match rsplit name with None => name | Some (_, b) => b end.
Definition QName_Namespace (name : bytes) : bytes :=
  match rsplit name with None => [] | Some (a, _) => a end.
Definition qname_merged (mergedOrLocal : bytes) : QName :=
  qname (QName_Namespace mergedOrLocal) (QName_LocalPart mergedOrLocal).

(** ** Elements *)

Inductive XmlElement : Type :=
  | Element (name_ : QName) (attrs : list (QName * bytes)) (children : list XmlChild) (cdata_ : bool)
with XmlChild : Type :=
  | XmlText (text_ : bytes)
  | AsElement (e : XmlElement).

Definition Name (e : XmlElement) : QName := let (n, _, _, _) := e in n.
Definition attrs_ (e : XmlElement) : list (QName * bytes) := let (_, a, _, _) := e in a.
Definition children_ (e : XmlElement) : list XmlChild := let (_, _, c, _) := e in c.
Definition IsCDATA (e : XmlElement) : bool := let (_, _, _, d) := e in d.
Definition with_attrs (a : list (QName * bytes)) (e : XmlElement) : XmlElement :=
  let (n, _, c, d) := e in Element n a c d.
Definition with_children (c : list XmlChild) (e : XmlElement) : XmlElement :=
  let (n, a, _, d) := e in Element n a c d.

Definition QN_EMPTY : QName := qname [] [].
Definition QN_XMLNS : QName := qname [] (str "xmlns").

Definition new_element (name : QName) : XmlElement := Element name [] [] false.
Definition new_default (name : QName) (useDefaultNs : bool) : XmlElement :=
  Element name (if useDefaultNs then [(QN_XMLNS, Namespace name)] else []) [] false.

(** *** Attributes *)

Fixpoint find_attr (name : QName) (l : list (QName * bytes)) : option bytes :=
  match l with
  | [] => None
  | (n, v) :: l => if decide (n = name) then Some v else find_attr name l
  end.
Definition Attr (name : QName) (e : XmlElement) : bytes := default [] (find_attr name (attrs_ e)).
Definition HasAttr (name : QName) (e : XmlElement) : bool := bool_decide (is_Some (find_attr name (attrs_ e))).
Fixpoint set_attr (name : QName) (value : bytes) (l : list (QName * bytes)) : list (QName * bytes) :=
  match l with
  | [] => [(name, value)]
  | (n, v) :: l => if decide (n = name) then (n, value) :: l else (n, v) :: set_attr name value l
  end.
Definition SetAttr (name : QName) (value : bytes) (e : XmlElement) : XmlElement :=
  with_attrs (set_attr name value (attrs_ e)) e.
(** The caller has to respect [ASSERT(!HasAttr(name))]. *)
Definition AddAttr (name : QName) (value : bytes) (e : XmlElement) : XmlElement :=
  with_attrs (attrs_ e ++ [(name, value)]) e.
Fixpoint clear_attr (name : QName) (l : list (QName * bytes)) : list (QName * bytes) :=
  match l with
  | [] => []
  | (n, v) :: l => if decide (n = name) then l else (n, v) :: clear_attr name l
  end.
Definition ClearAttr (name : QName) (e : XmlElement) : XmlElement := with_attrs (clear_attr name (attrs_ e)) e.
Definition ClearAttributes (e : XmlElement) : XmlElement := with_attrs [] e.

(** *** Children *)

Definition child_element (c : XmlChild) : option XmlElement :=
  match c with XmlText _ => None | AsElement e => Some e end.
(** The elements that [FirstElement] and then [NextElement] reach. *)
Definition elements (e : XmlElement) : list XmlElement := omap child_element (children_ e).
(** Those that [FirstNamed] and [NextNamed] reach, and by namespace. *)
Definition all_named (name : QName) (e : XmlElement) : list XmlElement :=
  filter (fun c => Name c = name) (elements e).
Definition all_with_namespace (ns : bytes) (e : XmlElement) : list XmlElement :=
  filter (fun c => Namespace (Name c) = ns) (elements e).
Definition FirstElement (e : XmlElement) : option XmlElement := head (elements e).
Definition FirstNamed (name : QName) (e : XmlElement) : option XmlElement := head (all_named name e).
Definition FirstWithNamespace (ns : bytes) (e : XmlElement) : option XmlElement := head (all_with_namespace ns e).
Definition FirstElementName (e : XmlElement) : QName :=
  match FirstElement e with None => QN_EMPTY | Some c => Name c end.

Definition BodyText (e : XmlElement) : bytes :=
  match children_ e with [XmlText t] => t | _ => [] end.
Definition TextNamed (name : QName) (e : XmlElement) : bytes :=
  match FirstNamed name e with Some c => BodyText c | None => [] end.

Definition ClearChildren (e : XmlElement) : XmlElement := with_children [] e.
(** Text goes to the last child when that is a text. *)
Definition append_text (text : bytes) (l : list XmlChild) : list XmlChild :=
  match last l with
  | Some (XmlText t) => take (length l - 1) l ++ [XmlText (t ++ text)]
  | _ => l ++ [XmlText text]
  end.
Definition AddText (text : bytes) (e : XmlElement) : XmlElement :=
  if decide (text = []) then e else with_children (append_text text (children_ e)) e.
Definition AddParsedText (text : bytes) (e : XmlElement) : XmlElement := AddText text e.
Definition AddCDATAText (text : bytes) (e : XmlElement) : XmlElement :=
  let (n, a, c, _) := e in AddParsedText text (Element n a c true).
Definition SetBodyText (text : bytes) (e : XmlElement) : XmlElement :=
  if decide (text = []) then ClearChildren e else
  match children_ e with
  | [] => AddText text e
  | [XmlText _] => with_children [XmlText text] e
  | _ => AddText text (ClearChildren e)
  end.
Definition AddElement (child : XmlElement) (e : XmlElement) : XmlElement :=
  with_children (children_ e ++ [AsElement child]) e.
Definition FindOrAddNamedChild (name : QName) (e : XmlElement) : XmlElement * XmlElement :=
  match FirstNamed name e with
  | Some child => (child, e)
  | None => (new_element name, AddElement (new_element name) e)
  end.
Definition is_named (name : QName) (c : XmlChild) : bool :=
  match c with XmlText _ => false | AsElement e => bool_decide (Name e = name) end.
Definition ClearNamedChildren (name : QName) (e : XmlElement) : XmlElement :=
  with_children (List.filter (fun c => negb (is_named name c)) (children_ e)) e.

(** ** Parsing helpers *)

(** What a parser or writer returns: its outputs, or the text of the error. *)
Inductive result (A : Type) := Good (a : A) | Bad (text : bytes).
#[global] Arguments Good {A} a.
#[global] Arguments Bad {A} text.
#[export] Instance result_ret : MRet result := @Good.
#[export] Instance result_bind : MBind result := fun A B f r =>
  match r with Good a => f a | Bad t => Bad t end.
Definition BadParse {A} (text : bytes) : result A := Bad text.
Definition BadWrite {A} (text : bytes) : result A := Bad text.

Definition GetXmlAttr (name : QName) (def : bytes) (e : XmlElement) : bytes :=
  if decide (Attr name e = []) then def else Attr name e.
Definition tolower (c : byte) : byte :=
  let v := byte.unsigned c in if (65 <=? v) && (v <=? 90) then mkbyte (v + 32) else c.
Definition GetXmlAttr_bool (name : QName) (def : bool) (e : XmlElement) : bool :=
  let val := map tolower (Attr name e) in
  if decide (val = []) then def else bool_decide (val = str "true") || bool_decide (val = str "1").
Definition GetXmlChild (name : bytes) (parent : XmlElement) : option XmlElement :=
  head (filter (fun c => LocalPart (Name c) = name) (elements parent)).
Definition RequireXmlChild (parent : XmlElement) (name : bytes) : result XmlElement :=
  match GetXmlChild name parent with
  | None => BadParse (str "element '" ++ Merged (Name parent) ++ str "' missing required child '" ++ name)
  | Some child => Good child
  end.
Definition RequireXmlAttr (e : XmlElement) (name : QName) : result bytes :=
  if HasAttr name e then Good (Attr name e)
  else BadParse (str "element '" ++ Merged (Name e) ++ str "' missing required attribute '" ++ Merged name ++ str "'").
Definition AddXmlChildren (parent : XmlElement) (l : list XmlElement) : XmlElement :=
  foldl (fun p c => AddElement c p) parent l.
(** A copied child is equal to the original. *)
Definition CopyXmlChildren (source dest : XmlElement) : XmlElement := AddXmlChildren dest (elements source).
Definition CopyOfXmlChildren (e : XmlElement) : list XmlElement := elements e.

(** ** Facts *)

Lemma c_str_idemp s : c_str (c_str s) = c_str s.
Proof. induction s as [|c s IH]; simpl; [done|]. case_decide; [done|]. simpl. rewrite decide_False by done. by rewrite IH. Qed.

Lemma find_attr_set n m v l :
  find_attr n (set_attr m v l) = if decide (m = n) then Some v else find_attr n l.
Proof.
  induction l as [|[k w] l IH]; simpl; [done|].
  destruct (decide (k = m)) as [->|]; simpl; repeat case_decide; congruence || done.
Qed.
Lemma find_attr_app n l l' :
  find_attr n (l ++ l') = match find_attr n l with Some v => Some v | None => find_attr n l' end.
Proof. induction l as [|[k w] l IH]; simpl; [done|]. by case_decide. Qed.

(** [SetAttr] overwrites where [Attr] and [HasAttr] look. *)
Lemma Attr_SetAttr n m v e : Attr n (SetAttr m v e) = if decide (m = n) then v else Attr n e.
Proof. unfold Attr, SetAttr. destruct e. simpl. rewrite find_attr_set. by case_decide. Qed.
Lemma HasAttr_SetAttr n m v e : HasAttr n (SetAttr m v e) = bool_decide (m = n) || HasAttr n e.
Proof.
  unfold HasAttr, SetAttr. destruct e. simpl. rewrite find_attr_set. case_decide as H.
  - by rewrite (bool_decide_true (m = n)).
  - by rewrite (bool_decide_false (m = n)).
Qed.
Lemma Name_SetAttr m v e : Name (SetAttr m v e) = Name e.
Proof. by destruct e. Qed.
Lemma elements_SetAttr m v e : elements (SetAttr m v e) = elements e.
Proof. by destruct e. Qed.

Lemma elements_AddElement c e : elements (AddElement c e) = elements e ++ [c].
Proof. destruct e. unfold elements. simpl. by rewrite omap_app. Qed.
Lemma Name_AddElement c e : Name (AddElement c e) = Name e.
Proof. by destruct e. Qed.
Lemma attrs_AddElement c e : attrs_ (AddElement c e) = attrs_ e.
Proof. by destruct e. Qed.
Lemma elements_AddXmlChildren l e : elements (AddXmlChildren e l) = elements e ++ l.
Proof.
  unfold AddXmlChildren. revert e. induction l as [|c l IH]; intros e; simpl; [by rewrite app_nil_r|].
  rewrite IH, elements_AddElement. by rewrite <- app_assoc.
Qed.
Lemma Name_AddXmlChildren l e : Name (AddXmlChildren e l) = Name e.
Proof. unfold AddXmlChildren. revert e. induction l as [|c l IH]; intros e; simpl; [done|]. by rewrite IH, Name_AddElement. Qed.
Lemma attrs_AddXmlChildren l e : attrs_ (AddXmlChildren e l) = attrs_ e.
Proof. unfold AddXmlChildren. revert e. induction l as [|c l IH]; intros e; simpl; [done|]. by rewrite IH, attrs_AddElement. Qed.
Lemma Attr_AddXmlChildren n l e : Attr n (AddXmlChildren e l) = Attr n e.
Proof. unfold Attr. by rewrite attrs_AddXmlChildren. Qed.
Lemma Attr_AddElement n c e : Attr n (AddElement c e) = Attr n e.
Proof. unfold Attr. by rewrite attrs_AddElement. Qed.
Lemma HasAttr_AddElement n c e : HasAttr n (AddElement c e) = HasAttr n e.
Proof. unfold HasAttr. by rewrite attrs_AddElement. Qed.
Lemma HasAttr_AddXmlChildren n l e : HasAttr n (AddXmlChildren e l) = HasAttr n e.
Proof. unfold HasAttr. by rewrite attrs_AddXmlChildren. Qed.

Create Rewrite HintDb xml.
#[export] Hint Rewrite elements_SetAttr elements_AddElement elements_AddXmlChildren Name_SetAttr Name_AddElement
  Name_AddXmlChildren Attr_AddElement Attr_AddXmlChildren HasAttr_AddElement HasAttr_AddXmlChildren : xml.
End Xml.

(** ** The table of names

    [Add] puts a static name into the table for good; [AllocateOrFind] shares
    the entry of a name that is there and allocates any other. *)
Module Names.
Import Xml.

Definition bits : Z := 9.
Definition size : nat := 512.
(** A free slot is [None]. *)
Abbreviation table := (list (option QName)).
Definition empty : table := replicate size None.

(** A [char] is signed; the products wrap at 32 bits. *)
Definition schar (c : byte) : Z :=
  let v := byte.unsigned c in if v <? 128 then v else v - 256.
Definition QName_Hash (ns local : bytes) : Z :=
  foldl (fun result c => s32 (s32 (result * 19) + schar c)) (s32 (Z.of_nat (length ns) * 101)) (c_str local).
Definition increment (hash : Z) : Z := Z.lor (Z.shiftr hash (bits - 1)) 1.

Inductive slot := Free (i : nat) | Found (i : nat).
(** One turn of the loop looks at [index & 511]. *)
Fixpoint probe (fuel : nat) (t : table) (name : QName) (index inc : Z) : option slot :=
  match fuel with
  | O => None
  | S fuel =>
      let index := Z.land index (Z.shiftl 1 bits - 1) in
      match t !! Z.to_nat index with
      | Some (Some n) => if decide (n = name) then Some (Found (Z.to_nat index)) else probe fuel t name (index + inc) inc
      | _ => Some (Free (Z.to_nat index))
      end
  end.
Definition search (fuel : nat) (t : table) (ns local : bytes) : option slot :=
  let hash := QName_Hash ns local in probe fuel t (qname ns local) hash (increment hash).

(** The name behind the pointer that is returned, and the new table. *)
Definition AllocateOrFind (fuel : nat) (t : table) (ns local : bytes) : option QName :=
  match search fuel t ns local with
  | Some (Free _) => Some (qname ns local)
  | Some (Found i) => mjoin (t !! i)
  | None => None
  end.
Definition Add (fuel : nat) (t : table) (ns local : bytes) : option (QName * table) :=
  match search fuel t ns local with
  | Some (Free i) => Some (qname ns local, <[i := Some (qname ns local)]> t)
  | Some (Found i) => n ← mjoin (t !! i); Some (n, t)
  | None => None
  end.

(** ** The search ends, unless the table is full *)

(** The slot of the [k]th turn. *)
Definition nth_slot (h inc : Z) (k : nat) : nat := Z.to_nat ((h + Z.of_nat k * inc) mod 512).

Lemma mask_mod z : Z.land z (Z.shiftl 1 bits - 1) = z mod 512.
Proof. change (Z.shiftl 1 bits - 1) with (Z.ones 9). by rewrite Z.land_ones. Qed.

Lemma nth_slot_S h inc k : nth_slot h inc (S k) = nth_slot ((h mod 512) + inc) inc k.
Proof.
  unfold nth_slot. f_equal. rewrite <- Z.add_assoc, Zplus_mod_idemp_l. f_equal. lia.
Qed.
Lemma nth_slot_lt h inc k : (nth_slot h inc k < size)%nat.
Proof. unfold nth_slot, size. pose proof (Z.mod_pos_bound (h + Z.of_nat k * inc) 512). lia. Qed.

(** A slot that ends the search for [name]. *)
Definition stops (t : table) (name : QName) (i : nat) : Prop := t !! i = Some None \/ t !! i = Some (Some name).

Lemma probe_stops fuel t name h inc :
  length t = size ->
  match probe fuel t name h inc with
  | None => forall k, (k < fuel)%nat -> ~ stops t name (nth_slot h inc k)
  | Some r =>
      exists k, (k < fuel)%nat /\ (forall j, (j < k)%nat -> ~ stops t name (nth_slot h inc j)) /\
      match r with
      | Free i => i = nth_slot h inc k /\ t !! i = Some None
      | Found i => i = nth_slot h inc k /\ t !! i = Some (Some name)
      end
  end.
Proof.
  intros Hl. revert h. induction fuel as [|fuel IH]; intros h; simpl; [intros; lia|].
  rewrite mask_mod.
  assert (E0 : nth_slot h inc 0 = Z.to_nat (h mod 512)) by (unfold nth_slot; f_equal; f_equal; lia).
  assert (is_Some (t !! Z.to_nat (h mod 512))) as [o Ho].
  { apply lookup_lt_is_Some. rewrite Hl, <- E0. apply nth_slot_lt. }
  rewrite Ho. destruct o as [n|].
  2:{ exists 0%nat. split_and!; [lia|intros; lia|done|done]. }
  case_decide as En; [subst n; exists 0%nat; split_and!; [lia|intros; lia|done|done]|].
  assert (H0 : ~ stops t name (nth_slot h inc 0)).
  { rewrite E0. intros [Hs|Hs]; rewrite Hs in Ho; congruence. }
  specialize (IH (h mod 512 + inc)). destruct (probe fuel t name (h mod 512 + inc) inc) as [r|].
  - destruct IH as (k & Hk & Hj & Hr). exists (S k). split; [lia|]. split.
    + intros [|j] Hlt; [done|]. rewrite nth_slot_S. apply Hj. lia.
    + by rewrite !nth_slot_S.
  - intros [|k] Hk; [done|]. rewrite nth_slot_S. apply IH. lia.
Qed.

(** An odd step visits every slot in 512 turns. *)
Lemma nth_slot_onto h inc i :
  Z.odd inc = true -> (i < size)%nat -> exists k, (k < size)%nat /\ nth_slot h inc k = i.
Proof.
  unfold size. intros Ho Hi.
  assert (Hp : Z.coprime inc (2 ^ 9)).
  { apply Z.coprime_pow_r; [lia|]. apply Z.coprime_Bezout. exists 1, (- (inc / 2)).
    rewrite (Z.div_mod inc 2) at 1 by lia. rewrite Zmod_odd, Ho. lia. }
  apply Z.Bezout_coprime in Hp as (u & v & Huv). change (2 ^ 9) with 512 in Huv.
  exists (Z.to_nat (((Z.of_nat i - h) * u) mod 512)).
  pose proof (Z.mod_pos_bound ((Z.of_nat i - h) * u) 512 ltac:(lia)). split; [lia|].
  unfold nth_slot. rewrite Z2Nat.id by lia. rewrite Zplus_mod, Zmult_mod_idemp_l, <- Zplus_mod.
  replace (h + (Z.of_nat i - h) * u * inc) with (Z.of_nat i + (v * (h - Z.of_nat i)) * 512) by nia.
  rewrite Z_mod_plus_full, Z.mod_small by lia. lia.
Qed.

Lemma increment_odd h : Z.odd (increment h) = true.
Proof. unfold increment. rewrite <- Z.bit0_odd, Z.lor_spec. by rewrite orb_true_r. Qed.

(** The search of a table with a free slot, or with the name, ends within 512
    turns; no number of turns ends any other. *)
Lemma search_ends t ns local :
  length t = size ->
  is_Some (search size t ns local) <-> exists i, stops t (qname ns local) i.
Proof.
  intros Hl. unfold search. pose proof (probe_stops size t (qname ns local) (QName_Hash ns local) (increment (QName_Hash ns local)) Hl) as Hp.
  destruct (probe _ _ _ _ _) as [r|].
  - destruct Hp as (k & _ & _ & Hr). split; [|done]. intros _. destruct r as [i|i], Hr as [_ Hr]; exists i; [by left|by right].
  - split; [by intros []|]. intros (i & Hi). exfalso.
    destruct (nth_slot_onto (QName_Hash ns local) (increment (QName_Hash ns local)) i) as (k & Hk & <-);
      [apply increment_odd| |by eapply Hp].
    destruct Hi as [Hi|Hi]; apply lookup_lt_Some in Hi; by rewrite <- Hl.
Qed.
Lemma search_never t ns local fuel :
  length t = size -> (forall i, ~ stops t (qname ns local) i) -> search fuel t ns local = None.
Proof.
  intros Hl Hn. unfold search.
  pose proof (probe_stops fuel t (qname ns local) (QName_Hash ns local) (increment (QName_Hash ns local)) Hl) as Hp.
  destruct (probe _ _ _ _ _) as [r|]; [|done].
  destruct Hp as (k & _ & _ & Hr). exfalso. destruct r as [i|i], Hr as [_ Hr]; apply (Hn i); [by left|by right].
Qed.

(** ** Names that are added are found *)

Definition hash (n : QName) : Z := QName_Hash (Namespace n) (LocalPart n).
Definition slot_of (n : QName) (k : nat) : nat := nth_slot (hash n) (increment (hash n)) k.
Lemma hash_qname ns local : QName_Hash ns local = hash (qname ns local).
Proof. unfold hash, QName_Hash. simpl. by rewrite c_str_idemp. Qed.

(** The search for a name in slot [i] passes only other names. *)
Definition reached (t : table) (n : QName) (i : nat) : Prop :=
  exists k, (k < size)%nat /\ slot_of n k = i /\ forall j, (j < k)%nat -> ~ stops t n (slot_of n j).
Definition placed (t : table) : Prop :=
  length t = size /\ forall i n, t !! i = Some (Some n) -> reached t n i.

Lemma search_reached t ns local i :
  length t = size -> reached t (qname ns local) i -> stops t (qname ns local) i ->
  search size t ns local = Some (match t !! i with Some (Some _) => Found i | _ => Free i end).
Proof.
  intros Hl (k & Hk & <- & Hb) Hs. unfold search. rewrite hash_qname.
  pose proof (probe_stops size t (qname ns local) (hash (qname ns local)) (increment (hash (qname ns local))) Hl) as Hp.
  fold (slot_of (qname ns local) k) in *. destruct (probe _ _ _ _ _) as [r|]; [|by destruct (Hp k)].
  destruct Hp as (k' & Hk' & Hb' & Hr).
  assert (k = k') as <-.
  { destruct (Nat.lt_trichotomy k k') as [Hlt|[->|Hlt]]; [by destruct (Hb' k)|done|].
    destruct (Hb k'); [done|]. unfold slot_of, stops. destruct r as [i|i], Hr as [-> Hr]; auto. }
  unfold slot_of. destruct r as [i|i], Hr as [-> Hr]; by rewrite Hr.
Qed.

Lemma search_free_reached t ns local i :
  length t = size -> search size t ns local = Some (Free i) -> reached t (qname ns local) i /\ t !! i = Some None.
Proof.
  intros Hl. unfold search. rewrite hash_qname.
  pose proof (probe_stops size t (qname ns local) (hash (qname ns local)) (increment (hash (qname ns local))) Hl) as Hp.
  destruct (probe _ _ _ _ _) as [r|]; [|done]. intros [= ->]. destruct Hp as (k & Hk & Hb & -> & Hn).
  split; [|done]. by exists k.
Qed.
Lemma search_found t ns local i :
  length t = size -> search size t ns local = Some (Found i) -> t !! i = Some (Some (qname ns local)).
Proof.
  intros Hl. unfold search.
  pose proof (probe_stops size t (qname ns local) (QName_Hash ns local) (increment (QName_Hash ns local)) Hl) as Hp.
  destruct (probe _ _ _ _ _) as [r|]; [|done]. intros [= ->]. by destruct Hp as (k & Hk & Hb & -> & Hn).
Qed.

Lemma placed_insert t n i :
  placed t -> reached t n i -> t !! i = Some None -> placed (<[i := Some n]> t).
Proof.
  intros [Hl Hp] Hr Hi.
  assert (Hkeep : forall m k, ~ stops t m (slot_of m k) -> ~ stops (<[i := Some n]> t) m (slot_of m k)).
  { intros m k Hs [Hs'|Hs']; destruct (decide (i = slot_of m k)) as [->|Hne]; try (by apply Hs; left);
      rewrite list_lookup_insert_ne in Hs' by done; apply Hs; [by left|by right]. }
  split; [by rewrite length_insert|]. intros j m Hj.
  assert (reached t m j) as (k & Hk & Hkj & Hb).
  { destruct (decide (i = j)) as [->|Hne].
    - rewrite list_lookup_insert_eq in Hj by (by eapply lookup_lt_Some). by injection Hj as <-.
    - rewrite list_lookup_insert_ne in Hj by done. by apply Hp. }
  exists k. split_and!; [done..|]. intros j' Hj'. apply Hkeep. by apply Hb.
Qed.

(** The names of a table; each is there once. *)
Definition names_of (t : table) : list QName := omap id t.
Lemma elem_of_names n t : n ∈ names_of t <-> exists i, t !! i = Some (Some n).
Proof.
  unfold names_of. rewrite list_elem_of_omap. setoid_rewrite list_elem_of_lookup.
  split; [intros (o & [i Hi] & Ho); exists i; by rewrite <- Ho | intros [i Hi]; exists (Some n); split; [by exists i|done]].
Qed.
Lemma names_insert t n i :
  t !! i = Some None -> names_of (<[i := Some n]> t) ≡ₚ n :: names_of t.
Proof.
  intros Hi. pose proof (take_drop_middle t i None Hi) as E. apply lookup_lt_Some in Hi.
  rewrite insert_take_drop by done. rewrite <- E at 3. unfold names_of. rewrite !omap_app. simpl.
  by rewrite Permutation_middle.
Qed.
Lemma names_length t : (length (names_of t) <= length t)%nat.
Proof.
  induction t as [|[n|] t IH]; [done| |].
  - change (names_of (Some n :: t)) with (n :: names_of t). rewrite !length_cons. lia.
  - change (names_of (None :: t)) with (names_of t). rewrite length_cons. lia.
Qed.
Lemma names_full t : length (names_of t) = length t -> forall i, t !! i <> Some None.
Proof.
  intros Hf i Hi. pose proof (names_insert t (QN_EMPTY) i Hi) as Hp. apply Permutation_length in Hp. rewrite length_cons in Hp.
  pose proof (names_length (<[i := Some QN_EMPTY]> t)) as Hle. rewrite length_insert, Hp, Hf in Hle. lia.
Qed.
Lemma names_free t : (length (names_of t) < length t)%nat -> exists i, t !! i = Some None.
Proof.
  induction t as [|[n|] t IH]; [simpl; lia| |by exists 0%nat].
  change (names_of (Some n :: t)) with (n :: names_of t). rewrite !length_cons.
  intros Hlt. destruct IH as [i Hi]; [lia|]. by exists (S i).
Qed.

(** The static names of a program, put in one after the other. *)
Fixpoint Adds (l : list (bytes * bytes)) (t : table) : option table :=
  match l with
  | [] => Some t
  | (ns, local) :: l => r ← Add size t ns local; Adds l (snd r)
  end.
Definition all_names (l : list (bytes * bytes)) : list QName := map (fun p => qname (fst p) (snd p)) l.

(** One [Add]: the name is in the table afterwards, and no other has come or
    gone. *)
Lemma Add_spec t ns local :
  placed t -> NoDup (names_of t) ->
  (length (names_of t) < size)%nat \/ qname ns local ∈ names_of t ->
  exists t', Add size t ns local = Some (qname ns local, t') /\ placed t' /\ NoDup (names_of t') /\
    forall n, n ∈ names_of t' <-> n = qname ns local \/ n ∈ names_of t.
Proof.
  intros Hp Hd Hroom. pose proof Hp as [Hl _]. unfold Add.
  assert (is_Some (search size t ns local)) as [r Hr].
  { apply search_ends; [done|]. destruct Hroom as [Hf|Hin].
    - destruct (names_free t) as [i Hi]; [lia|]. exists i. by left.
    - apply elem_of_names in Hin as [i Hi]. exists i. by right. }
  rewrite Hr. destruct r as [i|i].
  - destruct (search_free_reached t ns local i Hl Hr) as [Hre Hi]. eexists. split; [done|].
    assert (Hn : qname ns local ∉ names_of t).
    { intros [j Hj]%elem_of_names. pose proof (search_reached t ns local j Hl) as Hs.
      rewrite Hj in Hs. rewrite Hs in Hr; [done| |by right]. by apply Hp. }
    split_and!; [by apply placed_insert| |].
    + rewrite names_insert by done. by constructor.
    + intros n. rewrite names_insert by done. by rewrite elem_of_cons.
  - pose proof (search_found t ns local i Hl Hr) as Hi. rewrite Hi. simpl. exists t. split_and!; [done..|].
    intros n. split; [by right|]. intros [->|]; [|done]. apply elem_of_names. by exists i.
Qed.

Lemma Adds_spec l t :
  placed t -> NoDup (names_of t) ->
  (length (remove_dups (all_names l ++ names_of t)) <= size)%nat ->
  exists t', Adds l t = Some t' /\ placed t' /\ NoDup (names_of t') /\
    forall n, n ∈ names_of t' <-> n ∈ all_names l \/ n ∈ names_of t.
Proof.
  revert t. induction l as [|[ns local] l IH]; intros t Hp Hd Hlen; simpl.
  - exists t. split_and!; try done. intros n. rewrite elem_of_nil. tauto.
  - destruct (Add_spec t ns local Hp Hd) as (t1 & -> & Hp1 & Hd1 & Hm1).
    { destruct (decide (qname ns local ∈ names_of t)) as [|Hn]; [by right|left].
      assert (NoDup (qname ns local :: names_of t)) as Hnd by (by constructor).
      apply (Nat.lt_le_trans _ (length (qname ns local :: names_of t))); [simpl; lia|].
      etransitivity; [|done]. apply submseteq_length, NoDup_submseteq; [done|].
      intros n Hn'. rewrite elem_of_remove_dups. simpl. set_solver. }
    simpl. destruct (IH t1 Hp1 Hd1) as (t2 & -> & Hp2 & Hd2 & Hm2).
    { etransitivity; [|done]. apply submseteq_length, NoDup_submseteq; [apply NoDup_remove_dups|].
      intros n. rewrite !elem_of_remove_dups. simpl. set_solver. }
    exists t2. split_and!; [done..|]. intros n. rewrite Hm2, Hm1. set_solver.
Qed.

Lemma placed_empty : placed empty.
Proof. split; [done|]. intros i n Hi. by apply lookup_replicate in Hi as []. Qed.
Lemma names_empty : names_of empty = [].
Proof. done. Qed.

(** C34. A program may have 512 static names: each of them is found in its slot, and
    as long as there are fewer any other name is recognised as new; with all
    slots taken the search for another name never ends. *)
Theorem static_names (l : list (bytes * bytes)) :
  (length (remove_dups (all_names l)) <= size)%nat ->
  exists t, Adds l empty = Some t /\ forall ns local,
    if decide (qname ns local ∈ all_names l)
    then exists i, search size t ns local = Some (Found i) /\ t !! i = Some (Some (qname ns local))
    else if decide (length (remove_dups (all_names l)) = size)
    then forall fuel, search fuel t ns local = None
    else exists i, search size t ns local = Some (Free i).
Proof.
  intros Hlen. destruct (Adds_spec l empty) as (t & Ht & Hp & Hd & Hm);
    [apply placed_empty|constructor|by rewrite names_empty, app_nil_r|].
  assert (Hcount : length (names_of t) = length (remove_dups (all_names l))).
  { apply Permutation_length, NoDup_Permutation; [done|apply NoDup_remove_dups|].
    intros n. rewrite Hm, elem_of_remove_dups, names_empty. set_solver. }
  assert (Hnew : forall ns local i, qname ns local ∉ all_names l -> t !! i <> Some (Some (qname ns local))).
  { intros ns local i Hn Hi. apply Hn. assert (qname ns local ∈ names_of t) as Hin by (apply elem_of_names; by exists i).
    apply Hm in Hin as [|Hin]; [done|]. by apply not_elem_of_nil in Hin. }
  pose proof Hp as [Hl Hpl]. exists t. split; [done|]. intros ns local. case_decide as Hin; [|case_decide as Hfull].
  - assert (qname ns local ∈ names_of t) as [i Hi]%elem_of_names by (apply Hm; by left).
    exists i. split; [|done]. rewrite (search_reached t ns local i); [by rewrite Hi|done|by apply Hpl|by right].
  - intros fuel. apply search_never; [done|]. intros i [Hi|Hi]; [|by eapply Hnew].
    eapply names_full; [|exact Hi]. by rewrite Hcount, Hl.
  - assert (is_Some (search size t ns local)) as [r Hr].
    { apply search_ends; [done|]. destruct (names_free t) as [i Hi]; [lia|]. exists i. by left. }
    destruct r as [i|i]; [by exists i|]. apply search_found in Hr; [|done]. by apply Hnew in Hr.
Qed.

Definition ex_names : list (bytes * bytes) :=
  [([], []); ([], str "xmlns"); (str "jabber:client", str "iq"); ([], str "id"); (str "jabber:client", str "iq")].
Lemma static_names_witness :
  (length (remove_dups (all_names ex_names)) <= size)%nat /\
  exists t, Adds ex_names empty = Some t /\ exists i, search size t (str "jabber:client") (str "iq") = Some (Found i).
Proof.
  split; [vm_compute; lia|].
  destruct (static_names ex_names) as (t & Ht & Hs); [vm_compute; lia|].
  exists t. split; [done|]. specialize (Hs (str "jabber:client") (str "iq")).
  rewrite decide_True in Hs by (vm_compute; set_solver). destruct Hs as (i & Hi & _). by exists i.
Defined.
End Names.
