(* ===== verification/SessionMessages.v ===== *)
(** * Session messages (talk/p2p/base/sessionmessages.cc, sessiondescription.cc,
    constants.cc)

    The stanzas two sessions exchange, in the two syntaxes of Jingle and of its
    predecessor Gingle, and as hybrids of both.  The contents of a session and
    its candidates are written and read by parsers that the sessions register:
    [ContentParser] and [TransportParser] are their interfaces, with the laws
    the round trips rely on. *)

From S2P Require Import Prelude SocketAddress Port Xml.
Import Xml.

(** ** Names and texts *)

Module Const.
Definition NS_JINGLE : bytes := str "urn:xmpp:jingle:1".
Definition NS_GINGLE : bytes := str "http://www.google.com/session".
Definition NS_CLIENT : bytes := str "jabber:client".
Definition NS_STANZA : bytes := str "urn:ietf:params:xml:ns:xmpp-stanzas".
Definition NS_JINGLE_RTP : bytes := str "urn:xmpp:jingle:apps:rtp:1".
Definition NS_GINGLE_AUDIO : bytes := str "http://www.google.com/session/phone".
Definition NS_GINGLE_VIDEO : bytes := str "http://www.google.com/session/video".
Definition NS_GINGLE_P2P : bytes := str "http://www.google.com/transport/p2p".
Definition NS_XML : bytes := str "http://www.w3.org/XML/1998/namespace".
Definition STR_EMPTY : bytes := [].
Definition STR_SET : bytes := str "set".

Definition QN_IQ : QName := qname NS_CLIENT (str "iq").
Definition QN_ERROR : QName := qname NS_CLIENT (str "error").
Definition QN_TO : QName := qname [] (str "to").
Definition QN_FROM : QName := qname [] (str "from").
Definition QN_TYPE : QName := qname [] (str "type").
Definition QN_ID : QName := qname [] (str "id").
Definition QN_NAME : QName := qname [] (str "name").
Definition QN_XML_LANG : QName := qname NS_XML (str "lang").
Definition QN_STANZA_BAD_REQUEST : QName := qname NS_STANZA (str "bad-request").
Definition QN_STANZA_ITEM_NOT_FOUND : QName := qname NS_STANZA (str "item-not-found").
Definition QN_STANZA_NOT_ACCEPTABLE : QName := qname NS_STANZA (str "not-acceptable").
Definition QN_STANZA_NOT_ALLOWED : QName := qname NS_STANZA (str "not-allowed").
Definition QN_STANZA_REDIRECT : QName := qname NS_STANZA (str "redirect").
Definition QN_STANZA_UNDEFINED_CONDITION : QName := qname NS_STANZA (str "undefined-condition").
Definition QN_STANZA_TEXT : QName := qname NS_STANZA (str "text").

Definition QN_ACTION : QName := qname [] (str "action").
Definition LN_INITIATOR : bytes := str "initiator".
Definition QN_INITIATOR : QName := qname [] LN_INITIATOR.
Definition QN_CREATOR : QName := qname [] (str "creator").
Definition QN_JINGLE : QName := qname NS_JINGLE (str "jingle").
Definition QN_JINGLE_CONTENT : QName := qname NS_JINGLE (str "content").
Definition QN_JINGLE_CONTENT_NAME : QName := qname [] (str "name").
Definition QN_JINGLE_REASON : QName := qname NS_JINGLE (str "reason").
Definition QN_GINGLE_SESSION : QName := qname NS_GINGLE (str "session").
Definition QN_GINGLE_REDIRECT : QName := qname NS_GINGLE (str "redirect").
Definition QN_GINGLE_AUDIO_CONTENT : QName := qname NS_GINGLE_AUDIO (str "description").
Definition QN_SID : QName := qname [] (str "sid").
Definition QN_GINGLE_P2P_UNKNOWN_CHANNEL_NAME : QName := qname NS_GINGLE_P2P (str "unknown-channel-name").

Definition JINGLE_ACTION_SESSION_INITIATE : bytes := str "session-initiate".
Definition JINGLE_ACTION_SESSION_INFO : bytes := str "session-info".
Definition JINGLE_ACTION_SESSION_ACCEPT : bytes := str "session-accept".
Definition JINGLE_ACTION_SESSION_TERMINATE : bytes := str "session-terminate".
Definition JINGLE_ACTION_TRANSPORT_INFO : bytes := str "transport-info".
Definition JINGLE_ACTION_TRANSPORT_ACCEPT : bytes := str "transport-accept".
Definition JINGLE_ACTION_DESCRIPTION_INFO : bytes := str "description-info".
Definition GINGLE_ACTION_INITIATE : bytes := str "initiate".
Definition GINGLE_ACTION_INFO : bytes := str "info".
Definition GINGLE_ACTION_ACCEPT : bytes := str "accept".
Definition GINGLE_ACTION_REJECT : bytes := str "reject".
Definition GINGLE_ACTION_TERMINATE : bytes := str "terminate".
Definition GINGLE_ACTION_CANDIDATES : bytes := str "candidates".
Definition GINGLE_ACTION_UPDATE : bytes := str "update".

Definition LN_ERROR : bytes := str "error".
Definition LN_DESCRIPTION : bytes := str "description".
Definition LN_TRANSPORT : bytes := str "transport".
Definition LN_CANDIDATE : bytes := str "candidate".
Definition STR_REDIRECT_PREFIX : bytes := str "xmpp:".
Definition CN_AUDIO : bytes := str "audio".
Definition CN_VIDEO : bytes := str "video".
Definition CN_OTHER : bytes := str "main".
Definition GINGLE_CANDIDATE_NAME_RTP : bytes := str "rtp".
Definition GINGLE_CANDIDATE_NAME_RTCP : bytes := str "rtcp".
Definition GINGLE_CANDIDATE_NAME_VIDEO_RTP : bytes := str "video_rtp".
Definition GINGLE_CANDIDATE_NAME_VIDEO_RTCP : bytes := str "video_rtcp".
Definition STR_TERMINATE_SUCCESS : bytes := str "success".
Definition STR_TERMINATE_ERROR : bytes := str "general-error".
End Const.

Module Messages.
Import Const.

Inductive SignalingProtocol := PROTOCOL_JINGLE | PROTOCOL_GINGLE | PROTOCOL_HYBRID.
#[export] Instance SignalingProtocol_eq_dec : EqDecision SignalingProtocol.
Proof. solve_decision. Defined.

Inductive ActionType :=
  | ACTION_UNKNOWN
  | ACTION_SESSION_INITIATE | ACTION_SESSION_INFO | ACTION_SESSION_ACCEPT | ACTION_SESSION_REJECT
  | ACTION_SESSION_TERMINATE
  | ACTION_TRANSPORT_INFO | ACTION_TRANSPORT_ACCEPT
  | ACTION_UPDATE.
#[export] Instance ActionType_eq_dec : EqDecision ActionType.
Proof. solve_decision. Defined.

(** The comparisons of [ToActionType], in their order. *)
Definition action_names : list (bytes * ActionType) :=
  [(GINGLE_ACTION_INITIATE, ACTION_SESSION_INITIATE);
   (GINGLE_ACTION_INFO, ACTION_SESSION_INFO);
   (GINGLE_ACTION_ACCEPT, ACTION_SESSION_ACCEPT);
   (GINGLE_ACTION_REJECT, ACTION_SESSION_REJECT);
   (GINGLE_ACTION_TERMINATE, ACTION_SESSION_TERMINATE);
   (GINGLE_ACTION_CANDIDATES, ACTION_TRANSPORT_INFO);
   (JINGLE_ACTION_SESSION_INITIATE, ACTION_SESSION_INITIATE);
   (JINGLE_ACTION_TRANSPORT_INFO, ACTION_TRANSPORT_INFO);
   (JINGLE_ACTION_TRANSPORT_ACCEPT, ACTION_TRANSPORT_ACCEPT);
   (JINGLE_ACTION_SESSION_INFO, ACTION_SESSION_INFO);
   (JINGLE_ACTION_SESSION_ACCEPT, ACTION_SESSION_ACCEPT);
   (JINGLE_ACTION_SESSION_TERMINATE, ACTION_SESSION_TERMINATE);
   (JINGLE_ACTION_TRANSPORT_INFO, ACTION_TRANSPORT_INFO);
   (JINGLE_ACTION_TRANSPORT_ACCEPT, ACTION_TRANSPORT_ACCEPT);
   (JINGLE_ACTION_DESCRIPTION_INFO, ACTION_UPDATE);
   (GINGLE_ACTION_UPDATE, ACTION_UPDATE)].
Definition ToActionType (type : bytes) : ActionType :=
  match List.find (fun p => bool_decide (type = fst p)) action_names with
  | Some (_, a) => a
  | None => ACTION_UNKNOWN
  end.
Definition ToJingleString (type : ActionType) : bytes :=
  match type with
  | ACTION_SESSION_INITIATE => JINGLE_ACTION_SESSION_INITIATE
  | ACTION_SESSION_INFO => JINGLE_ACTION_SESSION_INFO
  | ACTION_SESSION_ACCEPT => JINGLE_ACTION_SESSION_ACCEPT
  | ACTION_SESSION_REJECT | ACTION_SESSION_TERMINATE => JINGLE_ACTION_SESSION_TERMINATE
  | ACTION_TRANSPORT_INFO => JINGLE_ACTION_TRANSPORT_INFO
  | ACTION_TRANSPORT_ACCEPT => JINGLE_ACTION_TRANSPORT_ACCEPT
  | _ => []
  end.
Definition ToGingleString (type : ActionType) : bytes :=
  match type with
  | ACTION_SESSION_INITIATE => GINGLE_ACTION_INITIATE
  | ACTION_SESSION_INFO => GINGLE_ACTION_INFO
  | ACTION_SESSION_ACCEPT => GINGLE_ACTION_ACCEPT
  | ACTION_SESSION_REJECT => GINGLE_ACTION_REJECT
  | ACTION_SESSION_TERMINATE => GINGLE_ACTION_TERMINATE
  | ACTION_TRANSPORT_INFO => GINGLE_ACTION_CANDIDATES
  | _ => []
  end.

(** ** Stanzas *)

Record SessionMessage := mkMessage {
  m_id : bytes; m_from : bytes; m_to : bytes; protocol : SignalingProtocol; m_type : ActionType;
  m_sid : bytes; m_initiator : bytes; action_elem : XmlElement; stanza : XmlElement }.

Definition IsJingleMessage (stanza : XmlElement) : bool :=
  match FirstNamed QN_JINGLE stanza with
  | None => false
  | Some jingle => HasAttr QN_ACTION jingle && HasAttr QN_SID jingle
  end.
Definition IsGingleMessage (stanza : XmlElement) : bool :=
  match FirstNamed QN_GINGLE_SESSION stanza with
  | None => false
  | Some session => HasAttr QN_TYPE session && HasAttr QN_ID session && HasAttr QN_INITIATOR session
  end.
Definition IsSessionMessage (stanza : XmlElement) : bool :=
  bool_decide (Name stanza = QN_IQ) && bool_decide (Attr QN_TYPE stanza = STR_SET) &&
  (IsJingleMessage stanza || IsGingleMessage stanza).

Definition ParseGingleSessionMessage (stanza session : XmlElement) : result SessionMessage :=
  let type_string := Attr QN_TYPE session in
  let type := ToActionType type_string in
  if decide (type = ACTION_UNKNOWN) then BadParse (str "unknown action: " ++ type_string) else
  Good (mkMessage (Attr QN_ID stanza) (Attr QN_FROM stanza) (Attr QN_TO stanza) PROTOCOL_GINGLE type
          (Attr QN_ID session) (Attr QN_INITIATOR session) session stanza).
Definition ParseJingleSessionMessage (p : SignalingProtocol) (stanza jingle : XmlElement) : result SessionMessage :=
  let type_string := Attr QN_ACTION jingle in
  let type := ToActionType type_string in
  if decide (type = ACTION_UNKNOWN) then BadParse (str "unknown action: " ++ type_string) else
  Good (mkMessage (Attr QN_ID stanza) (Attr QN_FROM stanza) (Attr QN_TO stanza) p type
          (Attr QN_SID jingle) (GetXmlAttr QN_INITIATOR STR_EMPTY jingle) jingle stanza).
Definition ParseHybridSessionMessage (stanza jingle : XmlElement) : result SessionMessage :=
  ParseJingleSessionMessage PROTOCOL_HYBRID stanza jingle.
Definition ParseSessionMessage (stanza : XmlElement) : result SessionMessage :=
  match FirstNamed QN_JINGLE stanza, FirstNamed QN_GINGLE_SESSION stanza with
  | Some jingle, Some _ => ParseHybridSessionMessage stanza jingle
  | Some jingle, None => ParseJingleSessionMessage PROTOCOL_JINGLE stanza jingle
  | None, Some session => ParseGingleSessionMessage stanza session
  | None, None => Bad []
  end.

(** The fields of a message that is written. *)
Record Outgoing := mkOutgoing {
  o_protocol : SignalingProtocol; o_type : ActionType; o_sid : bytes; o_initiator : bytes; o_to : bytes }.
Definition WriteGingleAction (msg : Outgoing) (action_elems : list XmlElement) : XmlElement :=
  let session := new_default QN_GINGLE_SESSION true in
  let session := AddAttr QN_TYPE (ToGingleString (o_type msg)) session in
  let session := AddAttr QN_ID (o_sid msg) session in
  let session := AddAttr QN_INITIATOR (o_initiator msg) session in
  AddXmlChildren session action_elems.
Definition WriteJingleAction (msg : Outgoing) (action_elems : list XmlElement) : XmlElement :=
  let jingle := new_default QN_JINGLE true in
  let jingle := AddAttr QN_ACTION (ToJingleString (o_type msg)) jingle in
  let jingle := AddAttr QN_SID (o_sid msg) jingle in
  let jingle :=
    if decide (o_type msg = ACTION_SESSION_INITIATE) then AddAttr QN_INITIATOR (o_initiator msg) jingle else jingle in
  AddXmlChildren jingle action_elems.
Definition WriteSessionMessage (msg : Outgoing) (action_elems : list XmlElement) (stanza : XmlElement) : XmlElement :=
  let stanza := SetAttr QN_TO (o_to msg) stanza in
  let stanza := SetAttr QN_TYPE STR_SET stanza in
  if decide (o_protocol msg = PROTOCOL_GINGLE) then AddElement (WriteGingleAction msg action_elems) stanza
  else AddElement (WriteJingleAction msg action_elems) stanza.

(** ** Contents and transports *)

Record ContentParser (D : Type) := mkContentParser {
  ParseContent : SignalingProtocol -> XmlElement -> result D;
  WriteContent : SignalingProtocol -> D -> result XmlElement }.
#[global] Arguments mkContentParser {D}.
#[global] Arguments ParseContent {D}.
#[global] Arguments WriteContent {D}.
Record TransportParser := mkTransportParser {
  tp_ParseCandidates : SignalingProtocol -> XmlElement -> result (list Port.Candidate);
  tp_WriteCandidates : SignalingProtocol -> list Port.Candidate -> result (list XmlElement) }.

(** A content is described by a value of [D], the description that its parser
    knows. *)
Record ContentInfo (D : Type) := mkContent { cn_name : bytes; cn_type : bytes; cn_description : D }.
#[global] Arguments mkContent {D}.
#[global] Arguments cn_name {D}.
#[global] Arguments cn_type {D}.
#[global] Arguments cn_description {D}.
Record TransportInfo := mkTransportInfo {
  content_name : bytes; transport_type : bytes; ti_candidates : list Port.Candidate }.
Record ContentMessage (D : Type) := mkContents { contents : list (ContentInfo D); transports : list TransportInfo }.
#[global] Arguments mkContents {D}.
#[global] Arguments contents {D}.
#[global] Arguments transports {D}.
Record SessionTerminate := mkTerminate { reason : bytes; debug_reason : bytes }.

(** [f] on the elements of a list in order, up to the first error. *)
Fixpoint map_result {A B} (f : A -> result B) (l : list A) : result (list B) :=
  match l with
  | [] => Good []
  | a :: l => b ← f a; bs ← map_result f l; Good (b :: bs)
  end.

Section Contents.
Context {D : Type}.
Implicit Types (content_parsers : gmap bytes (ContentParser D)) (trans_parsers : gmap bytes TransportParser).

Definition FindContentInfoByName (cs : list (ContentInfo D)) (name : bytes) : option (ContentInfo D) :=
List.find (fun c => bool_decide (cn_name c = name)) cs.
Definition FindContentInfoByType (cs : list (ContentInfo D)) (type : bytes) : option (ContentInfo D) :=
List.find (fun c => bool_decide (cn_type c = type)) cs.

(** *** Transports *)

Definition ParseCandidates (p : SignalingProtocol) (candidates_elem : XmlElement) trans_parsers (type : bytes)
: result (list Port.Candidate) :=
match trans_parsers !! type with
| None => BadParse (str "unknown transport type: " ++ type)
| Some trans_parser => tp_ParseCandidates trans_parser p candidates_elem
end.
Definition is_one_of (a b : bytes) (c : Port.Candidate) : bool :=
bool_decide (Port.c_name c = a) || bool_decide (Port.c_name c = b).
Definition is_audio : Port.Candidate -> bool := is_one_of GINGLE_CANDIDATE_NAME_RTP GINGLE_CANDIDATE_NAME_RTCP.
Definition is_video (c : Port.Candidate) : bool :=
negb (is_audio c) && is_one_of GINGLE_CANDIDATE_NAME_VIDEO_RTP GINGLE_CANDIDATE_NAME_VIDEO_RTCP c.
Definition ParseGingleTransportInfos (action_elem : XmlElement) (cs : list (ContentInfo D)) trans_parsers
: result (list TransportInfo) :=
candidates ← ParseCandidates PROTOCOL_GINGLE action_elem trans_parsers NS_GINGLE_P2P;
let has_audio := bool_decide (is_Some (FindContentInfoByName cs CN_AUDIO)) in
let has_video := bool_decide (is_Some (FindContentInfoByName cs CN_VIDEO)) in
if negb has_audio && negb has_video then Good [mkTransportInfo CN_OTHER NS_GINGLE_P2P candidates] else
let audio_tinfo := mkTransportInfo CN_AUDIO NS_GINGLE_P2P (List.filter is_audio candidates) in
let video_tinfo := mkTransportInfo CN_VIDEO NS_GINGLE_P2P (List.filter is_video candidates) in
Good ((if has_audio then [audio_tinfo] else []) ++ (if has_video then [video_tinfo] else [])).
Definition ParseJingleTransportInfo (trans_elem : XmlElement) (content : ContentInfo D) trans_parsers
: result TransportInfo :=
let transport_type := Namespace (Name trans_elem) in
candidates ← ParseCandidates PROTOCOL_JINGLE trans_elem trans_parsers transport_type;
Good (mkTransportInfo (cn_name content) transport_type candidates).
(** The body of the loop, for one content element. *)
Definition pair_transport (cs : list (ContentInfo D)) trans_parsers (pair_elem : XmlElement) : result TransportInfo :=
content_name ← RequireXmlAttr pair_elem QN_JINGLE_CONTENT_NAME;
match FindContentInfoByName cs content_name with
| None => BadParse (str "Unknown content name: " ++ content_name)
| Some content =>
  trans_elem ← RequireXmlChild pair_elem LN_TRANSPORT;
  ParseJingleTransportInfo trans_elem content trans_parsers
end.
Definition ParseJingleTransportInfos (jingle : XmlElement) (cs : list (ContentInfo D)) trans_parsers
: result (list TransportInfo) :=
map_result (pair_transport cs trans_parsers) (all_named QN_JINGLE_CONTENT jingle).

Definition NewTransportElement (name : bytes) : XmlElement := new_default (qname name LN_TRANSPORT) true.
Definition WriteCandidates (p : SignalingProtocol) (trans_type : bytes) (candidates : list Port.Candidate) trans_parsers
: result (list XmlElement) :=
match trans_parsers !! trans_type with
| None => BadWrite (str "unknown transport type: " ++ trans_type)
| Some trans_parser => tp_WriteCandidates trans_parser p candidates
end.
Definition WriteGingleTransportInfos (tinfos : list TransportInfo) trans_parsers : result (list XmlElement) :=
l ← map_result (fun t => WriteCandidates PROTOCOL_GINGLE (transport_type t) (ti_candidates t) trans_parsers) tinfos;
Good (concat l).
Definition WriteJingleTransportInfo (tinfo : TransportInfo) trans_parsers : result XmlElement :=
candidate_elems ← WriteCandidates PROTOCOL_JINGLE (transport_type tinfo) (ti_candidates tinfo) trans_parsers;
Good (AddXmlChildren (NewTransportElement (transport_type tinfo)) candidate_elems).
Definition WriteJingleContentPair (name : bytes) (pair_elems : list XmlElement) : XmlElement :=
let pair_elem := new_element QN_JINGLE_CONTENT in
let pair_elem := SetAttr QN_JINGLE_CONTENT_NAME name pair_elem in
let pair_elem := SetAttr QN_CREATOR LN_INITIATOR pair_elem in
AddXmlChildren pair_elem pair_elems.
Definition WriteJingleTransportInfos (tinfos : list TransportInfo) trans_parsers : result (list XmlElement) :=
map_result (fun tinfo =>
e ← WriteJingleTransportInfo tinfo trans_parsers; Good (WriteJingleContentPair (content_name tinfo) [e])) tinfos.

(** *** Contents *)

Definition ParseContentInfo (p : SignalingProtocol) (name type : bytes) (elem : XmlElement) content_parsers
: result (ContentInfo D) :=
match content_parsers !! type with
| None => BadParse (str "unknown application content: " ++ type)
| Some parser => desc ← ParseContent parser p elem; Good (mkContent name type desc)
end.
(** The first child that is a description, and its namespace. *)
Definition content_elem_type (parent_elem : XmlElement) : result (bytes * XmlElement) :=
content_elem ← RequireXmlChild parent_elem LN_DESCRIPTION;
Good (Namespace (Name content_elem), content_elem).
Definition ParseGingleContentInfos (session : XmlElement) content_parsers : result (list (ContentInfo D)) :=
'(content_type, content_elem) ← content_elem_type session;
if decide (content_type = NS_GINGLE_VIDEO) then
let audio_elem := CopyXmlChildren content_elem (new_element QN_GINGLE_AUDIO_CONTENT) in
audio ← ParseContentInfo PROTOCOL_GINGLE CN_AUDIO NS_JINGLE_RTP audio_elem content_parsers;
video ← ParseContentInfo PROTOCOL_GINGLE CN_VIDEO NS_JINGLE_RTP content_elem content_parsers;
Good [audio; video]
else if decide (content_type = NS_GINGLE_AUDIO) then
audio ← ParseContentInfo PROTOCOL_GINGLE CN_AUDIO NS_JINGLE_RTP content_elem content_parsers;
Good [audio]
else
other ← ParseContentInfo PROTOCOL_GINGLE CN_OTHER content_type content_elem content_parsers;
Good [other].
(** The body of the loop, for one content element. *)
Definition pair_content content_parsers (pair_elem : XmlElement) : result (ContentInfo D) :=
content_name ← RequireXmlAttr pair_elem QN_JINGLE_CONTENT_NAME;
'(content_type, content_elem) ← content_elem_type pair_elem;
ParseContentInfo PROTOCOL_JINGLE content_name content_type content_elem content_parsers.
Definition ParseJingleContentInfos (jingle : XmlElement) content_parsers : result (list (ContentInfo D)) :=
map_result (pair_content content_parsers) (all_named QN_JINGLE_CONTENT jingle).
Definition WriteContentInfo (p : SignalingProtocol) (content : ContentInfo D) content_parsers : result XmlElement :=
match content_parsers !! cn_type content with
| None => BadWrite (str "unknown content type: " ++ cn_type content)
| Some parser => WriteContent parser p (cn_description content)
end.
Definition WriteGingleContentInfos (cs : list (ContentInfo D)) content_parsers : result (list XmlElement) :=
match cs with
| [c] => elem ← WriteContentInfo PROTOCOL_GINGLE c content_parsers; Good [elem]
| [a; v] =>
  if bool_decide (cn_type a = NS_JINGLE_RTP) && bool_decide (cn_type v = NS_JINGLE_RTP) then
    audio ← WriteContentInfo PROTOCOL_GINGLE a content_parsers;
    video ← WriteContentInfo PROTOCOL_GINGLE v content_parsers;
    Good [CopyXmlChildren audio video]
  else BadWrite (str "Gingle protocol may only have one content.")
| _ => BadWrite (str "Gingle protocol may only have one content.")
end.
Definition GetTransportInfoByContentName (tinfos : list TransportInfo) (name : bytes) : option TransportInfo :=
List.find (fun t => bool_decide (name = content_name t)) tinfos.
(** The body of the loop, for one content. *)
Definition write_pair content_parsers (tinfos : list TransportInfo) trans_parsers (content : ContentInfo D) : result XmlElement :=
match GetTransportInfoByContentName tinfos (cn_name content) with
| None => BadWrite (str "No transport for content: " ++ cn_name content)
| Some tinfo =>
  elem ← WriteContentInfo PROTOCOL_JINGLE content content_parsers;
  transport ← WriteJingleTransportInfo tinfo trans_parsers;
  Good (WriteJingleContentPair (cn_name content) [elem; transport])
end.
Definition WriteJingleContentPairs (cs : list (ContentInfo D)) content_parsers (tinfos : list TransportInfo) trans_parsers
: result (list XmlElement) :=
map_result (write_pair content_parsers tinfos trans_parsers) cs.

(** *** Whole messages *)

(** The type of the contents, the same for all. *)
Definition ParseContentType (p : SignalingProtocol) (action_elem : XmlElement) : result bytes :=
if decide (p = PROTOCOL_GINGLE) then
'(content_type, _) ← content_elem_type action_elem;
if bool_decide (content_type = NS_GINGLE_AUDIO) || bool_decide (content_type = NS_GINGLE_VIDEO)
then Good NS_JINGLE_RTP else Good content_type
else
match all_named QN_JINGLE_CONTENT action_elem with
| [] => BadParse (str "No contents found")
| pair_elem :: pair_elems =>
    '(content_type, _) ← content_elem_type pair_elem;
    map_result (fun pair_elem =>
      '(content_type2, _) ← content_elem_type pair_elem;
      if decide (content_type2 = content_type) then Good tt
      else BadParse (str "More than one content type found")) (pair_elem :: pair_elems);;
    Good content_type
end.
Definition ParseContentMessage (p : SignalingProtocol) (action_elem : XmlElement) content_parsers trans_parsers
: result (ContentMessage D) :=
if decide (p = PROTOCOL_GINGLE) then
cs ← ParseGingleContentInfos action_elem content_parsers;
ts ← ParseGingleTransportInfos action_elem cs trans_parsers;
Good (mkContents cs ts)
else
cs ← ParseJingleContentInfos action_elem content_parsers;
ts ← ParseJingleTransportInfos action_elem cs trans_parsers;
Good (mkContents cs ts).
Definition WriteContentMessage (p : SignalingProtocol) (cs : list (ContentInfo D)) (tinfos : list TransportInfo)
content_parsers trans_parsers : result (list XmlElement) :=
if decide (p = PROTOCOL_GINGLE) then
l ← WriteGingleContentInfos cs content_parsers;
l' ← WriteGingleTransportInfos tinfos trans_parsers;
Good (l ++ l')
else WriteJingleContentPairs cs content_parsers tinfos trans_parsers.
Definition ParseSessionInitiate := ParseContentMessage.
Definition WriteSessionInitiate := WriteContentMessage.
Definition ParseSessionAccept := ParseContentMessage.
Definition WriteSessionAccept := WriteContentMessage.
Definition ParseDescriptionInfo := ParseContentMessage.
Definition ParseTransportInfos (p : SignalingProtocol) (action_elem : XmlElement) (cs : list (ContentInfo D)) trans_parsers
: result (list TransportInfo) :=
if decide (p = PROTOCOL_GINGLE) then ParseGingleTransportInfos action_elem cs trans_parsers
else ParseJingleTransportInfos action_elem cs trans_parsers.
Definition WriteTransportInfos (p : SignalingProtocol) (tinfos : list TransportInfo) trans_parsers : result (list XmlElement) :=
if decide (p = PROTOCOL_GINGLE) then WriteGingleTransportInfos tinfos trans_parsers
else WriteJingleTransportInfos tinfos trans_parsers.
End Contents.

Definition ParseSessionTerminate (p : SignalingProtocol) (action_elem : XmlElement) : SessionTerminate :=
  let local o := match o with Some e => LocalPart (Name e) | None => [] end in
  if decide (p = PROTOCOL_GINGLE) then
    match FirstElement action_elem with
    | None => mkTerminate [] []
    | Some reason_elem => mkTerminate (LocalPart (Name reason_elem)) (local (FirstElement reason_elem))
    end
  else
    match FirstNamed QN_JINGLE_REASON action_elem with
    | None => mkTerminate [] []
    | Some reason_elem => mkTerminate (local (FirstElement reason_elem)) []
    end.
Definition WriteSessionTerminate (p : SignalingProtocol) (term : SessionTerminate) : list XmlElement :=
  if decide (p = PROTOCOL_GINGLE) then [new_element (qname NS_GINGLE (reason term))]
  else if decide (reason term = []) then []
  else [AddElement (new_element (qname NS_JINGLE (reason term))) (new_element QN_JINGLE_REASON)].

(** [str.find(prefix)]: what follows the first occurrence of [prefix]. *)
Fixpoint after_prefix (prefix s : bytes) : option bytes :=
  if bool_decide (prefix `prefix_of` s) then Some (drop (length prefix) s) else
  match s with [] => None | _ :: s => after_prefix prefix s end.
Definition GetUriTarget (prefix s : bytes) : option bytes := after_prefix prefix s.
Definition FindSessionRedirect (stanza : XmlElement) : option bytes :=
  error_elem ← GetXmlChild LN_ERROR stanza;
  redirect_elem ← match FirstNamed QN_GINGLE_REDIRECT error_elem with
                  | Some e => Some e
                  | None => FirstNamed QN_STANZA_REDIRECT error_elem
                  end;
  GetUriTarget STR_REDIRECT_PREFIX (BodyText redirect_elem).

(** ** What is written is read *)

(** A description need not be read as it was written: a syntax may leave out what
    has a default, or what it cannot say.  A [Reading] says for which
    descriptions and candidates the parsers answer, and what the receiver gets:
    what it is [told] of a description in a syntax, what it has [heard] of a
    candidate. *)
Record Reading (D : Type) := mkReading {
  desc_ok : D -> Prop;
  told : SignalingProtocol -> D -> D;
  gingle_audio : D -> Prop;
  gingle_video : D -> Prop;
  cand_ok : Port.Candidate -> Prop;
  heard : Port.Candidate -> Port.Candidate }.
#[global] Arguments mkReading {D}.
#[global] Arguments desc_ok {D}.
#[global] Arguments told {D}.
#[global] Arguments gingle_audio {D}.
#[global] Arguments gingle_video {D}.
#[global] Arguments cand_ok {D}.
#[global] Arguments heard {D}.

(** What a description's parser promises, as the parser of contents of type
    [type]. *)
Class ContentLaws {D} (R : Reading D) (cp : ContentParser D) (type : bytes) : Prop := {
  content_jingle d e : desc_ok R d -> WriteContent cp PROTOCOL_JINGLE d = Good e ->
    Name e = mkQName type LN_DESCRIPTION /\ ParseContent cp PROTOCOL_JINGLE e = Good (told R PROTOCOL_JINGLE d);
  content_gingle d e : desc_ok R d -> type <> NS_JINGLE_RTP -> WriteContent cp PROTOCOL_GINGLE d = Good e ->
    Name e = mkQName type LN_DESCRIPTION /\ ParseContent cp PROTOCOL_GINGLE e = Good (told R PROTOCOL_GINGLE d) }.
(** Gingle has a name for audio and one for audio and video; the parser of a
    media content takes its own elements from the children of both. *)
Class MediaLaws {D} (R : Reading D) (cp : ContentParser D) : Prop := {
  media_audio d e : desc_ok R d -> gingle_audio R d -> WriteContent cp PROTOCOL_GINGLE d = Good e ->
    Name e = QN_GINGLE_AUDIO_CONTENT /\ ParseContent cp PROTOCOL_GINGLE e = Good (told R PROTOCOL_GINGLE d);
  media_both a v ea ev : desc_ok R a -> desc_ok R v -> gingle_audio R a -> gingle_video R v ->
    WriteContent cp PROTOCOL_GINGLE a = Good ea -> WriteContent cp PROTOCOL_GINGLE v = Good ev ->
    Name ev = mkQName NS_GINGLE_VIDEO LN_DESCRIPTION /\
    let both := CopyXmlChildren ea ev in
    ParseContent cp PROTOCOL_GINGLE (CopyXmlChildren both (new_element QN_GINGLE_AUDIO_CONTENT)) = Good (told R PROTOCOL_GINGLE a) /\
    ParseContent cp PROTOCOL_GINGLE both = Good (told R PROTOCOL_GINGLE v) }.

(** What a parser of candidates promises: it finds its elements between others. *)
Definition is_candidate_elem (e : XmlElement) : Prop := LocalPart (Name e) = LN_CANDIDATE.
Class TransportLaws {D} (R : Reading D) (tp : TransportParser) : Prop := {
  transport_roundtrip p cs es : Forall (cand_ok R) cs -> tp_WriteCandidates tp p cs = Good es ->
    Forall is_candidate_elem es /\
    forall parent, filter is_candidate_elem (elements parent) = es -> tp_ParseCandidates tp p parent = Good (map (heard R) cs);
  transport_names c : Port.c_name (heard R c) = Port.c_name c;
  transport_nil p : tp_WriteCandidates tp p [] = Good [];
  transport_app p cs cs' es es' : tp_WriteCandidates tp p cs = Good es -> tp_WriteCandidates tp p cs' = Good es' ->
    tp_WriteCandidates tp p (cs ++ cs') = Good (es ++ es') }.

(** The syntax a message is read in: one in both is read as Jingle. *)
Definition syntax (p : SignalingProtocol) : SignalingProtocol := if decide (p = PROTOCOL_GINGLE) then PROTOCOL_GINGLE else PROTOCOL_JINGLE.
Definition told_content {D} (R : Reading D) (p : SignalingProtocol) (c : ContentInfo D) : ContentInfo D :=
  mkContent (cn_name c) (cn_type c) (told R (syntax p) (cn_description c)).
Definition heard_transport {D} (R : Reading D) (t : TransportInfo) : TransportInfo :=
  mkTransportInfo (content_name t) (transport_type t) (map (heard R) (ti_candidates t)).

Lemma bind_good {A B} (r : result A) (f : A -> result B) b :
  r ≫= f = Good b <-> exists a, r = Good a /\ f a = Good b.
Proof.
  destruct r as [a|]; simpl.
  - split; [by exists a|]. by intros (? & [= <-] & ?).
  - split; [done|]. by intros (? & ? & ?).
Qed.
Lemma map_result_good {A B} (f : A -> result B) l bs :
  map_result f l = Good bs <-> Forall2 (fun a b => f a = Good b) l bs.
Proof.
  revert bs. induction l as [|a l IH]; intros bs; simpl.
  - split; [intros [= <-]; constructor | by inversion 1].
  - rewrite bind_good. setoid_rewrite bind_good. setoid_rewrite IH. split.
    + intros (b & Hb & bs' & Hbs & [= <-]). by constructor.
    + inversion 1; subst. eauto.
Qed.
Lemma filter_all {A} (P : A -> Prop) `{!forall a, Decision (P a)} l : Forall P l -> filter P l = l.
Proof. induction 1; simpl; [done|]. rewrite filter_cons_True by done. by f_equal. Qed.

(** Decides the equality of names. *)
Ltac names := repeat match goal with
  | |- context [decide (?a = ?b)] =>
      let H := fresh in destruct (decide (a = b)) as [H|H]; [try discriminate H|try (exfalso; by apply H)]
  end.

(** *** Stanzas *)

(** The type a message arrives with: Jingle has no reject. *)
Definition received_type (p : SignalingProtocol) (t : ActionType) : ActionType :=
  if decide (p = PROTOCOL_GINGLE) then t else
  match t with ACTION_SESSION_REJECT => ACTION_SESSION_TERMINATE | _ => t end.
Definition writable (p : SignalingProtocol) (t : ActionType) : bool :=
  match t with
  | ACTION_UNKNOWN | ACTION_UPDATE => false
  | ACTION_TRANSPORT_ACCEPT => negb (bool_decide (p = PROTOCOL_GINGLE))
  | _ => true
  end.
Lemma ToActionType_Jingle t : writable PROTOCOL_JINGLE t = true -> ToActionType (ToJingleString t) = received_type PROTOCOL_JINGLE t.
Proof. by destruct t. Qed.
Lemma ToActionType_Gingle t : writable PROTOCOL_GINGLE t = true -> ToActionType (ToGingleString t) = t.
Proof. by destruct t. Qed.

Lemma jingle_attrs msg elems :
  let e := WriteJingleAction msg elems in
  Name e = QN_JINGLE /\ elements e = elems /\ Attr QN_ACTION e = ToJingleString (o_type msg) /\
  Attr QN_SID e = o_sid msg /\ HasAttr QN_ACTION e = true /\ HasAttr QN_SID e = true /\
  Attr QN_INITIATOR e = (if decide (o_type msg = ACTION_SESSION_INITIATE) then o_initiator msg else []).
Proof.
  cbv zeta. unfold WriteJingleAction. rewrite !HasAttr_AddXmlChildren, !Attr_AddXmlChildren, Name_AddXmlChildren, elements_AddXmlChildren.
  case_decide; vm_compute; done.
Qed.
Lemma gingle_attrs msg elems :
  let e := WriteGingleAction msg elems in
  Name e = QN_GINGLE_SESSION /\ elements e = elems /\ Attr QN_TYPE e = ToGingleString (o_type msg) /\
  Attr QN_ID e = o_sid msg /\ HasAttr QN_TYPE e = true /\ HasAttr QN_ID e = true /\ HasAttr QN_INITIATOR e = true /\
  Attr QN_INITIATOR e = o_initiator msg.
Proof.
  cbv zeta. unfold WriteGingleAction. rewrite !HasAttr_AddXmlChildren, !Attr_AddXmlChildren, Name_AddXmlChildren, elements_AddXmlChildren.
  vm_compute; done.
Qed.

(** The attributes of an action element are written once. *)
Lemma action_attrs_distinct msg elems :
  NoDup (map fst (attrs_ (WriteJingleAction msg elems))) /\ NoDup (map fst (attrs_ (WriteGingleAction msg elems))).
Proof.
  unfold WriteJingleAction, WriteGingleAction. rewrite !attrs_AddXmlChildren. split; [case_decide|];
    refine (bool_decide_unpack _ _); vm_compute; exact I.
Qed.

(** The stanza of a message, as the session writes it: a hybrid holds the action
    in both syntaxes. *)
Definition WriteStanza (msg : Outgoing) (jingle_elems gingle_elems : list XmlElement) : XmlElement :=
  let to p := mkOutgoing p (o_type msg) (o_sid msg) (o_initiator msg) (o_to msg) in
  let stanza := new_element QN_IQ in
  if decide (o_protocol msg = PROTOCOL_HYBRID) then
    WriteSessionMessage (to PROTOCOL_GINGLE) gingle_elems (WriteSessionMessage (to PROTOCOL_JINGLE) jingle_elems stanza)
  else WriteSessionMessage msg (if decide (o_protocol msg = PROTOCOL_GINGLE) then gingle_elems else jingle_elems) stanza.

(** The server adds the sender. *)
Definition from (name : bytes) (stanza : XmlElement) : XmlElement := SetAttr QN_FROM name stanza.
Definition with_id (id : bytes) (stanza : XmlElement) : XmlElement := SetAttr QN_ID id stanza.

Lemma stanza_parts msg jl gl sender id :
  let stanza := with_id id (from sender (WriteStanza msg jl gl)) in
  Name stanza = QN_IQ /\ Attr QN_TYPE stanza = STR_SET /\ Attr QN_TO stanza = o_to msg /\
  Attr QN_FROM stanza = sender /\ Attr QN_ID stanza = id /\
  elements stanza = match o_protocol msg with
                    | PROTOCOL_JINGLE => [WriteJingleAction msg jl]
                    | PROTOCOL_GINGLE => [WriteGingleAction msg gl]
                    | PROTOCOL_HYBRID => [WriteJingleAction msg jl; WriteGingleAction msg gl]
                    end.
Proof.
  destruct msg as [p t sid ini to]. cbv zeta. unfold with_id, from, WriteStanza. cbn [o_protocol o_type o_sid o_initiator o_to].
  rewrite !elements_SetAttr, !Name_SetAttr, !Attr_SetAttr.
  destruct p; case_decide; try done; unfold WriteSessionMessage; cbn [o_protocol o_to];
    repeat (case_decide; try done); subst;
    rewrite ?elements_AddElement, ?elements_SetAttr, ?Name_AddElement, ?Name_SetAttr, ?Attr_AddElement, ?Attr_SetAttr;
    names; done.
Qed.

Lemma parse_jingle p msg l st :
  writable PROTOCOL_JINGLE (o_type msg) = true ->
  ParseJingleSessionMessage p st (WriteJingleAction msg l) =
  Good (mkMessage (Attr QN_ID st) (Attr QN_FROM st) (Attr QN_TO st) p (received_type PROTOCOL_JINGLE (o_type msg)) (o_sid msg)
    (if bool_decide (o_type msg = ACTION_SESSION_INITIATE) then o_initiator msg else []) (WriteJingleAction msg l) st).
Proof.
  intros Hw. unfold ParseJingleSessionMessage, GetXmlAttr. pose proof (jingle_attrs msg l) as (_ & _ & -> & -> & _ & _ & ->).
  rewrite ToActionType_Jingle by done. case_decide as Hu; [by destruct (o_type msg)|]. do 2 f_equal.
  destruct (decide (o_type msg = ACTION_SESSION_INITIATE)) as [E|E]; rewrite ?E; simpl; repeat case_decide; try done.
Qed.
Lemma parse_gingle msg l st :
  writable PROTOCOL_GINGLE (o_type msg) = true ->
  ParseGingleSessionMessage st (WriteGingleAction msg l) =
  Good (mkMessage (Attr QN_ID st) (Attr QN_FROM st) (Attr QN_TO st) PROTOCOL_GINGLE (o_type msg) (o_sid msg)
    (o_initiator msg) (WriteGingleAction msg l) st).
Proof.
  intros Hw. unfold ParseGingleSessionMessage. pose proof (gingle_attrs msg l) as (_ & _ & -> & -> & _ & _ & _ & ->).
  rewrite ToActionType_Gingle by done. case_decide as Hu; [by destruct (o_type msg)|]. done.
Qed.
Lemma jingle_is_session msg l st : FirstNamed QN_JINGLE st = Some (WriteJingleAction msg l) -> IsJingleMessage st = true.
Proof. unfold IsJingleMessage. intros ->. by pose proof (jingle_attrs msg l) as (_ & _ & _ & _ & -> & -> & _). Qed.
Lemma gingle_is_session msg l st : FirstNamed QN_GINGLE_SESSION st = Some (WriteGingleAction msg l) -> IsGingleMessage st = true.
Proof. unfold IsGingleMessage. intros ->. by pose proof (gingle_attrs msg l) as (_ & _ & _ & _ & -> & -> & -> & _). Qed.

(** A stanza that is written arrives as the message it was written from, in the
    syntax it was written in: its action, session, addressee and elements; a
    hybrid is read as Jingle, where a reject arrives as a terminate. *)
Lemma stanza_read (msg : Outgoing) (jingle_elems gingle_elems : list XmlElement) (sender : bytes) (id : bytes) :
  writable (o_protocol msg) (o_type msg) = true ->
  let stanza := with_id id (from sender (WriteStanza msg jingle_elems gingle_elems)) in
  IsSessionMessage stanza = true /\
  exists m, ParseSessionMessage stanza = Good m /\
    protocol m = o_protocol msg /\ m_type m = received_type (o_protocol msg) (o_type msg) /\
    m_sid m = o_sid msg /\ m_from m = sender /\ m_to m = o_to msg /\ m_id m = id /\
    m_initiator m = (if bool_decide (o_protocol msg = PROTOCOL_GINGLE) || bool_decide (o_type msg = ACTION_SESSION_INITIATE)
                     then o_initiator msg else []) /\
    elements (action_elem m) = (if decide (o_protocol msg = PROTOCOL_GINGLE) then gingle_elems else jingle_elems).
Proof.
  intros Hw. cbv zeta. pose proof (stanza_parts msg jingle_elems gingle_elems sender id) as Hs. cbv zeta in Hs.
  set (st := with_id id _) in *. clearbody st. destruct Hs as (Hn & Hty & <- & <- & <- & He).
  pose proof (jingle_attrs msg jingle_elems) as (Jn & Je & _). pose proof (gingle_attrs msg gingle_elems) as (Gn & Ge & _).
  assert (HJ : FirstNamed QN_JINGLE st = if decide (o_protocol msg = PROTOCOL_GINGLE) then None else Some (WriteJingleAction msg jingle_elems)).
  { unfold FirstNamed, all_named. rewrite He. destruct (o_protocol msg); rewrite ?filter_cons, ?filter_nil, ?Jn, ?Gn; by names. }
  assert (HG : FirstNamed QN_GINGLE_SESSION st = if decide (o_protocol msg = PROTOCOL_JINGLE) then None else Some (WriteGingleAction msg gingle_elems)).
  { unfold FirstNamed, all_named. rewrite He. destruct (o_protocol msg); rewrite ?filter_cons, ?filter_nil, ?Jn, ?Gn; by names. }
  unfold IsSessionMessage, ParseSessionMessage, ParseHybridSessionMessage. rewrite Hn, Hty, HJ, HG. simpl.
  destruct (o_protocol msg); simpl in *.
  - rewrite (jingle_is_session _ _ _ HJ), parse_jingle by done. split; [done|]. by eexists.
  - rewrite (gingle_is_session _ _ _ HG), parse_gingle, orb_true_r by done. split; [done|]. by eexists.
  - rewrite (jingle_is_session _ _ _ HJ), parse_jingle by (by destruct (o_type msg)). split; [done|]. by eexists.
Qed.

(** *** Contents *)

Section Roundtrip.
Context {D : Type} (content_parsers : gmap bytes (ContentParser D)) (trans_parsers : gmap bytes TransportParser).
Context (R : Reading D).
(** Every parser keeps its promise. *)
Definition parsers_ok : Prop :=
(forall type cp, content_parsers !! type = Some cp -> ContentLaws R cp type) /\
(forall cp, content_parsers !! NS_JINGLE_RTP = Some cp -> MediaLaws R cp) /\
(forall type tp, trans_parsers !! type = Some tp -> TransportLaws R tp).
Hypothesis Hparsers : parsers_ok.
Implicit Types (cs : list (ContentInfo D)) (tinfos : list TransportInfo).

Lemma pair_facts name es :
let e := WriteJingleContentPair name es in
Name e = QN_JINGLE_CONTENT /\ RequireXmlAttr e QN_JINGLE_CONTENT_NAME = Good name /\ elements e = es.
Proof.
cbv zeta. unfold WriteJingleContentPair, RequireXmlAttr.
rewrite HasAttr_AddXmlChildren, Attr_AddXmlChildren, Name_AddXmlChildren, elements_AddXmlChildren. done.
Qed.
Lemma all_pairs l jingle :
elements jingle = map (fun p => WriteJingleContentPair (fst p) (snd p)) l -> all_named QN_JINGLE_CONTENT jingle = elements jingle.
Proof.
intros E. unfold all_named. apply filter_all. rewrite E. apply Forall_map, Forall_forall. intros p _. apply pair_facts.
Qed.

Lemma transport_facts tinfo e :
WriteJingleTransportInfo tinfo trans_parsers = Good e -> Forall (cand_ok R) (ti_candidates tinfo) ->
Name e = mkQName (transport_type tinfo) LN_TRANSPORT /\
ParseCandidates PROTOCOL_JINGLE e trans_parsers (transport_type tinfo) = Good (map (heard R) (ti_candidates tinfo)).
Proof.
unfold WriteJingleTransportInfo, WriteCandidates, ParseCandidates. rewrite bind_good. intros (es & Hes & [= <-]) Hok.
destruct (trans_parsers !! transport_type tinfo) as [tp|] eqn:Etp; [|done].
destruct Hparsers as (_ & _ & Htp). specialize (Htp _ _ Etp).
destruct (transport_roundtrip PROTOCOL_JINGLE (ti_candidates tinfo) es Hok Hes) as [Hall Hparse].
split; [by rewrite Name_AddXmlChildren|]. apply Hparse. rewrite elements_AddXmlChildren. by apply filter_all.
Qed.

Lemma FindContentInfoByName_in cs name : name ∈ map cn_name cs -> exists c', FindContentInfoByName cs name = Some c' /\ cn_name c' = name.
Proof.
intros (c & -> & Hin)%list_elem_of_fmap. unfold FindContentInfoByName. destruct (List.find _ cs) as [c'|] eqn:E.
- apply List.find_some in E as [_ E%bool_decide_eq_true]. by exists c'.
- pose proof (List.find_none _ _ E c) as Hn. rewrite list_elem_of_In in Hin. specialize (Hn Hin). simpl in Hn.
by apply bool_decide_eq_false in Hn.
Qed.

(** The transport that the receiver gets for a content. *)
Definition planned tinfos (c : ContentInfo D) : result TransportInfo :=
match GetTransportInfoByContentName tinfos (cn_name c) with
| None => Bad []
| Some t => Good (heard_transport R (mkTransportInfo (cn_name c) (transport_type t) (ti_candidates t)))
end.

(** A pair that was written, and what its two halves are parsed to. *)
Lemma pair_parsed cs tinfos content e :
cn_name content ∈ map cn_name cs -> desc_ok R (cn_description content) -> Forall (fun t => Forall (cand_ok R) (ti_candidates t)) tinfos ->
write_pair content_parsers tinfos trans_parsers content = Good e ->
exists ti, planned tinfos content = Good ti /\ Name e = QN_JINGLE_CONTENT /\
pair_content content_parsers e = Good (told_content R PROTOCOL_JINGLE content) /\ pair_transport cs trans_parsers e = Good ti.
Proof.
intros Hin Hd Hok. unfold write_pair, planned.
destruct (GetTransportInfoByContentName tinfos (cn_name content)) as [tinfo|] eqn:Et; [|done].
rewrite bind_good. intros (elem & Hel & H). apply bind_good in H as (trans & Htr & [= <-]). eexists. split; [done|].
assert (Hokt : Forall (cand_ok R) (ti_candidates tinfo)).
{ apply List.find_some in Et as [Ht _]. rewrite Forall_forall in Hok. apply Hok. by apply list_elem_of_In. }
destruct (transport_facts _ _ Htr Hokt) as [Hn Hp]. pose proof (pair_facts (cn_name content) [elem; trans]) as (Pn & Pa & Pe).
unfold WriteContentInfo in Hel. destruct (content_parsers !! cn_type content) as [cp|] eqn:Ecp; [|done].
destruct Hparsers as (Hcp & _ & _). specialize (Hcp _ _ Ecp). destruct (content_jingle _ _ Hd Hel) as [Hen Hpe].
unfold pair_content, pair_transport. rewrite Pa. unfold content_elem_type, RequireXmlChild, GetXmlChild. rewrite Pe.
split; [done|]. split.
- simpl. rewrite filter_cons_True by (by rewrite Hen). simpl. unfold ParseContentInfo. rewrite Hen. simpl. by rewrite Ecp, Hpe.
- simpl. destruct (FindContentInfoByName_in cs _ Hin) as (c' & -> & Hc').
rewrite filter_cons_False by (by rewrite Hen). rewrite filter_cons_True by (by rewrite Hn). simpl.
unfold ParseJingleTransportInfo. rewrite Hn, Hc'. simpl. by rewrite Hp.
Qed.

Lemma pairs_parsed cs tinfos l l' :
map cn_name l ⊆ map cn_name cs -> Forall (fun c => desc_ok R (cn_description c)) l ->
Forall (fun t => Forall (cand_ok R) (ti_candidates t)) tinfos ->
Forall2 (fun c e => write_pair content_parsers tinfos trans_parsers c = Good e) l l' ->
filter (fun e => Name e = QN_JINGLE_CONTENT) l' = l' /\ map_result (pair_content content_parsers) l' = Good (map (told_content R PROTOCOL_JINGLE) l) /\
exists ts, map_result (planned tinfos) l = Good ts /\ map_result (pair_transport cs trans_parsers) l' = Good ts.
Proof.
intros Hsub Hd Hok H. induction H as [|c e l l' Hce _ IH]; [by split_and!; [..|exists []]|].
inversion Hd as [|? ? Hdc Hd']; subst. destruct IH as (IH1 & IH2 & ts & IH3 & IH4); [set_solver|done|].
destruct (pair_parsed cs tinfos c e) as (ti & Ht & Hn & Hc & Hti); [set_solver|done..|].
split; [by rewrite filter_cons_True, IH1|]. split; [cbn [map_result]; by rewrite Hc, IH2|].
exists (ti :: ts). cbn [map_result]. by rewrite Ht, IH3, Hti, IH4.
Qed.

Lemma jingle_contents cs tinfos elems jingle :
Forall (fun c => desc_ok R (cn_description c)) cs -> Forall (fun t => Forall (cand_ok R) (ti_candidates t)) tinfos ->
WriteJingleContentPairs cs content_parsers tinfos trans_parsers = Good elems -> elements jingle = elems ->
exists ts, map_result (planned tinfos) cs = Good ts /\
ParseJingleContentInfos jingle content_parsers = Good (map (told_content R PROTOCOL_JINGLE) cs) /\
ParseJingleTransportInfos jingle (map (told_content R PROTOCOL_JINGLE) cs) trans_parsers = Good ts.
Proof.
intros Hdc Hok Hw He. unfold WriteJingleContentPairs in Hw. apply map_result_good in Hw.
destruct (pairs_parsed (map (told_content R PROTOCOL_JINGLE) cs) tinfos cs elems) as (H1 & H2 & ts & H3 & H4);
  [by rewrite map_map|done..|].
exists ts. unfold ParseJingleContentInfos, ParseJingleTransportInfos, all_named. by rewrite He, H1.
Qed.

(** One transport per content, under its name. *)
Lemma transports_of_contents cs tinfos :
NoDup (map cn_name cs) -> map content_name tinfos = map cn_name cs ->
map_result (planned tinfos) cs = Good (map (heard_transport R) tinfos).
Proof.
intros Hd Hm. apply map_result_good, Forall2_same_length_lookup. split.
{ by rewrite <- (length_map cn_name cs), <- Hm, !length_map. }
intros i c t' Hc Ht. apply list_lookup_fmap_Some in Ht as (t & -> & Ht).
assert (Hname : content_name t = cn_name c).
{ assert (map content_name tinfos !! i = map cn_name cs !! i) as E by by rewrite Hm.
rewrite !list_lookup_fmap, Hc, Ht in E. by injection E. }
assert (Hget : GetTransportInfoByContentName tinfos (cn_name c) = Some t).
{ unfold GetTransportInfoByContentName. rewrite <- Hm in Hd. clear Hm Hc. revert i Ht.
induction tinfos as [|t0 tl IH]; intros i Ht; [done|]. simpl. inversion Hd as [|? ? Hn Hd']; subst.
destruct i as [|i]; simpl in Ht.
- injection Ht as ->. by rewrite bool_decide_true.
- rewrite bool_decide_false; [by eapply IH|]. intros E. apply Hn. rewrite <- E, <- Hname.
  apply list_elem_of_fmap. exists t. split; [done|]. by eapply list_elem_of_lookup_2. }
unfold planned. rewrite Hget, <- Hname. by destruct t.
Qed.

Lemma gingle_candidates tinfos es tp :
trans_parsers !! NS_GINGLE_P2P = Some tp ->
Forall (fun t => transport_type t = NS_GINGLE_P2P /\ Forall (cand_ok R) (ti_candidates t)) tinfos ->
WriteGingleTransportInfos tinfos trans_parsers = Good es ->
Forall is_candidate_elem es /\
forall parent, filter is_candidate_elem (elements parent) = es ->
ParseCandidates PROTOCOL_GINGLE parent trans_parsers NS_GINGLE_P2P = Good (map (heard R) (concat (map ti_candidates tinfos))).
Proof.
intros Etp Hall. destruct Hparsers as (_ & _ & Htp). specialize (Htp _ _ Etp).
unfold WriteGingleTransportInfos, ParseCandidates. rewrite Etp, bind_good. intros (ess & Hw & [= <-]). apply map_result_good in Hw.
assert (tp_WriteCandidates tp PROTOCOL_GINGLE (concat (map ti_candidates tinfos)) = Good (concat ess) /\
      Forall (cand_ok R) (concat (map ti_candidates tinfos))) as [Hwr Hok].
{ induction Hw as [|t es tinfos ess Ht _ IH]; simpl; [split; [apply transport_nil|constructor]|].
inversion Hall as [|? ? [Hty Hokt] Hall']; subst. destruct (IH Hall') as [IH1 IH2].
unfold WriteCandidates in Ht. rewrite Hty, Etp in Ht. split; [by apply transport_app|]. by apply Forall_app. }
by apply (transport_roundtrip PROTOCOL_GINGLE).
Qed.

(** What Gingle can say: one content that is not media, audio, or audio and
video, each with the channels it has in Gingle. *)
Definition gingle_contents cs : Prop :=
match cs with
| [c] =>
  (cn_name c = CN_OTHER /\ cn_type c ∉ [NS_JINGLE_RTP; NS_GINGLE_AUDIO; NS_GINGLE_VIDEO]) \/
  (cn_name c = CN_AUDIO /\ cn_type c = NS_JINGLE_RTP /\ gingle_audio R (cn_description c))
| [a; v] =>
  cn_name a = CN_AUDIO /\ cn_type a = NS_JINGLE_RTP /\ gingle_audio R (cn_description a) /\
  cn_name v = CN_VIDEO /\ cn_type v = NS_JINGLE_RTP /\ gingle_video R (cn_description v)
| _ => False
end.
Definition gingle_transport (t : TransportInfo) : Prop :=
transport_type t = NS_GINGLE_P2P /\
(content_name t = CN_AUDIO -> Forall (fun c => is_audio c = true) (ti_candidates t)) /\
(content_name t = CN_VIDEO -> Forall (fun c => is_video c = true) (ti_candidates t)).

Lemma filter_in {A} (f : A -> bool) l : Forall (fun a => f a = true) l -> List.filter f l = l.
Proof. induction 1 as [|a l Ha _ IH]; simpl; [done|]. by rewrite Ha, IH. Qed.
Lemma filter_out {A} (f : A -> bool) l : Forall (fun a => f a = false) l -> List.filter f l = [].
Proof. induction 1 as [|a l Ha _ IH]; simpl; [done|]. by rewrite Ha, IH. Qed.
Lemma is_video_not_audio c : is_video c = true -> is_audio c = false.
Proof. unfold is_video. destruct (is_audio c); [done|]. done. Qed.

(** The description comes first, the candidates follow. *)
Lemma gingle_elements (desc : XmlElement) es session :
LocalPart (Name desc) = LN_DESCRIPTION -> Forall is_candidate_elem es -> elements session = desc :: es ->
content_elem_type session = Good (Namespace (Name desc), desc) /\ filter is_candidate_elem (elements session) = es.
Proof.
intros Hd Hes He. unfold content_elem_type, RequireXmlChild, GetXmlChild. rewrite He. split.
- by rewrite filter_cons_True by done.
- rewrite filter_cons_False by (unfold is_candidate_elem; rewrite Hd; done). by apply filter_all.
Qed.

Lemma gingle_contents_parsed cs elems es session :
Forall (fun c => desc_ok R (cn_description c)) cs -> gingle_contents cs -> Forall is_candidate_elem es ->
WriteGingleContentInfos cs content_parsers = Good elems -> elements session = elems ++ es ->
ParseGingleContentInfos session content_parsers = Good (map (told_content R PROTOCOL_GINGLE) cs) /\ filter is_candidate_elem (elements session) = es.
Proof.
intros Hdc Hg Hes Hw He. destruct Hparsers as (Hcp & Hmp & _).
unfold WriteGingleContentInfos in Hw. unfold ParseGingleContentInfos. unfold WriteContentInfo in Hw. unfold ParseContentInfo.
destruct cs as [|c [|v [|? ?]]]; try done.
- rewrite Forall_singleton in Hdc. apply bind_good in Hw as (e & Hw & [= <-]). destruct (content_parsers !! cn_type c) as [cp|] eqn:Ecp; [|done].
destruct Hg as [(Hname & Hty) | (Hname & Hty & Ha)].
+ destruct (Hcp _ _ Ecp) as [_ Hgi]. destruct (Hgi (cn_description c) e) as [Hn Hp]; [done|set_solver|done|].
  destruct (gingle_elements e es session) as [-> Hf]; [by rewrite Hn|done|done|]. split; [|done]. simpl. rewrite Hn. simpl.
  case_decide; [set_solver|]. case_decide; [set_solver|]. rewrite Ecp, Hp. simpl. unfold told_content. by rewrite Hname.
+ rewrite Hty in Ecp. destruct (media_audio (MediaLaws := Hmp _ Ecp) _ _ Hdc Ha Hw) as [Hn Hp].
  destruct (gingle_elements e es session) as [-> Hf]; [by rewrite Hn|done|done|]. split; [|done]. simpl. rewrite Hn. simpl.
  rewrite Ecp, Hp. simpl. unfold told_content. by rewrite Hname, Hty.
- rewrite Forall_cons, Forall_singleton in Hdc. destruct Hdc as [Hda Hdv]. destruct Hg as (Han & Hat & Ha & Hvn & Hvt & Hv). rewrite Hat, Hvt in Hw. rewrite !bool_decide_true in Hw by done.
apply bind_good in Hw as (ea & Hea & Hw). apply bind_good in Hw as (ev & Hev & [= <-]).
destruct (content_parsers !! NS_JINGLE_RTP) as [cp|] eqn:Ecp; [|done].
destruct (media_both (MediaLaws := Hmp _ eq_refl) _ _ _ _ Hda Hdv Ha Hv Hea Hev) as (Hn & Hpa & Hpv).
destruct (gingle_elements (CopyXmlChildren ea ev) es session) as [-> Hf];
  [unfold CopyXmlChildren; by rewrite Name_AddXmlChildren, Hn|done|done|]. split; [|done].
assert (Name (CopyXmlChildren ea ev) = mkQName NS_GINGLE_VIDEO LN_DESCRIPTION) as Hb
  by (unfold CopyXmlChildren; by rewrite Name_AddXmlChildren).
simpl. rewrite Hb. simpl.
rewrite Hpa. simpl. rewrite Hpv. simpl. unfold told_content. by rewrite Han, Hat, Hvn, Hvt.
Qed.

(** The names say which content a candidate belongs to. *)
Lemma heard_media type tp l : trans_parsers !! type = Some tp ->
List.filter is_audio (map (heard R) l) = map (heard R) (List.filter is_audio l) /\
List.filter is_video (map (heard R) l) = map (heard R) (List.filter is_video l).
Proof.
intros Etp. destruct Hparsers as (_ & _ & Htp). specialize (Htp _ _ Etp).
assert (forall c, is_audio (heard R c) = is_audio c /\ is_video (heard R c) = is_video c) as Hc
  by (intros c; pose proof (transport_names (R := R) (tp := tp) c) as Hc; unfold is_video, is_audio, is_one_of; by rewrite Hc).
induction l as [|c l [IHa IHv]]; [done|]. cbn [map List.filter]. destruct (Hc c) as [-> ->].
by destruct (is_audio c), (is_video c); cbn [map]; rewrite IHa, IHv.
Qed.

Lemma gingle_transports_parsed cs cs' tinfos es session :
gingle_contents cs -> map cn_name cs' = map cn_name cs -> map content_name tinfos = map cn_name cs ->
Forall (fun t => gingle_transport t /\ Forall (cand_ok R) (ti_candidates t)) tinfos ->
WriteGingleTransportInfos tinfos trans_parsers = Good es ->
filter is_candidate_elem (elements session) = es ->
ParseGingleTransportInfos session cs' trans_parsers = Good (map (heard_transport R) tinfos).
Proof.
intros Hg Hm' Hm Hall Hw Hf.
assert (exists tp, trans_parsers !! NS_GINGLE_P2P = Some tp) as [tp Etp].
{ destruct tinfos as [|t tinfos]; [by destruct cs as [|? [|? [|]]]|].
inversion Hall as [|? ? [[Hty _] _] _]; subst. unfold WriteGingleTransportInfos in Hw.
apply bind_good in Hw as (? & Hw & _). simpl in Hw. apply bind_good in Hw as (? & Hw & _).
unfold WriteCandidates in Hw. rewrite Hty in Hw. destruct (trans_parsers !! NS_GINGLE_P2P); [by eexists|done]. }
destruct (gingle_candidates tinfos es tp Etp) as [_ Hp]; [|done|].
{ eapply Forall_impl; [exact Hall|]. by intros t [[] ?]. }
unfold ParseGingleTransportInfos. rewrite (Hp session Hf). simpl. rewrite (proj1 (heard_media _ _ _ Etp)), (proj2 (heard_media _ _ _ Etp)).
clear Hw Hf Hp. destruct cs as [|c [|v [|? ?]]]; try done.
- destruct cs' as [|c' [|? ?]]; try done. injection Hm' as Hcn'.
destruct tinfos as [|t [|? ?]]; try done. injection Hm as Hname. simpl. rewrite app_nil_r.
inversion Hall as [|? ? [(Hty & Ha & _) _] _]; subst. unfold FindContentInfoByName. simpl. rewrite Hcn'. unfold heard_transport.
destruct Hg as [(Hcn & _) | (Hcn & _)]; rewrite Hcn in Hname |- *; simpl.
+ by rewrite Hname, Hty.
+ rewrite (filter_in is_audio) by auto. by rewrite Hname, Hty.
- destruct cs' as [|c' [|v' [|? ?]]]; try done. injection Hm' as Hcn' Hvn'. destruct tinfos as [|ta [|tv [|? ?]]]; try done. destruct Hg as (Han & _ & _ & Hvn & _). injection Hm as Hna Hnv.
inversion Hall as [|? ? [(Hta & Ha & _) _] Hall']; subst. inversion Hall' as [|? ? [(Htv & _ & Hv) _] _]; subst.
rewrite Han in Hna. rewrite Hvn in Hnv. specialize (Ha Hna). specialize (Hv Hnv).
unfold FindContentInfoByName. simpl. rewrite Hcn', Hvn', Han, Hvn. simpl. rewrite app_nil_r, !List.filter_app.
rewrite (filter_in is_audio _ Ha), (filter_in is_video _ Hv).
rewrite (filter_out is_audio), (filter_out is_video).
+ rewrite app_nil_r. simpl. unfold heard_transport. by rewrite Hna, Hnv, Hta, Htv.
+ eapply Forall_impl; [exact Ha|]. intros ? Hc. unfold is_video. by rewrite Hc.
+ eapply Forall_impl; [exact Hv|]. apply is_video_not_audio.
Qed.

(** The contents and transports of an initiate or accept that is written, in
either syntax, are what the receiver reads. *)
Lemma contents_read (p : SignalingProtocol) (cs : list (ContentInfo D)) (tinfos : list TransportInfo)
(elems : list XmlElement) (action : XmlElement) :
Forall (fun c => desc_ok R (cn_description c)) cs ->
NoDup (map cn_name cs) -> map content_name tinfos = map cn_name cs ->
Forall (fun t => Forall (cand_ok R) (ti_candidates t)) tinfos ->
(p = PROTOCOL_GINGLE -> gingle_contents cs /\ Forall gingle_transport tinfos) ->
WriteContentMessage p cs tinfos content_parsers trans_parsers = Good elems -> elements action = elems ->
ParseContentMessage p action content_parsers trans_parsers = Good (mkContents (map (told_content R p) cs) (map (heard_transport R) tinfos)).
Proof.
intros Hdc Hd Hm Hok Hg Hw He. assert (Hs : forall q, syntax p = syntax q -> map (told_content R p) cs = map (told_content R q) cs)
  by (intros q Hq; apply map_ext; intros c; unfold told_content; by rewrite Hq).
unfold WriteContentMessage in Hw. unfold ParseContentMessage. case_decide as Hp.
- destruct (Hg Hp) as [Hgc Hgt]. apply bind_good in Hw as (l & Hl & Hw). apply bind_good in Hw as (es & Hes & [= <-]).
assert (Forall (fun t => gingle_transport t /\ Forall (cand_ok R) (ti_candidates t)) tinfos) as Hall by (by apply Forall_and).
assert (Forall is_candidate_elem es) as Hce.
{ unfold WriteGingleTransportInfos in Hes. destruct (trans_parsers !! NS_GINGLE_P2P) as [tp|] eqn:Etp.
  - eapply gingle_candidates; [done| |done]. eapply Forall_impl; [exact Hall|]. by intros t [[] ?].
  - destruct tinfos as [|t ?]; [by injection Hes as <-|]. inversion Hall as [|? ? [[Hty _] _] _]; subst.
    simpl in Hes. unfold WriteCandidates in Hes. by rewrite Hty, Etp in Hes. }
destruct (gingle_contents_parsed cs l es action Hdc Hgc Hce Hl He) as [-> Hf]. simpl.
rewrite (gingle_transports_parsed cs _ tinfos es action) by (try done; by rewrite map_map). simpl. by rewrite (Hs PROTOCOL_GINGLE) by (by rewrite Hp).
- destruct (jingle_contents cs tinfos elems action Hdc Hok Hw He) as (ts & Hts & -> & Ht). simpl. rewrite Ht. simpl.
rewrite transports_of_contents in Hts by done. injection Hts as <-. by rewrite (Hs PROTOCOL_JINGLE) by (by destruct p).
Qed.

(** C15. An initiate or accept, written in either syntax or in both, is read back from
its stanza: the same action, session and addressee, and of the contents and
transports what their parsers promise, under the same names. *)
Theorem message_roundtrip (msg : Outgoing) (cs : list (ContentInfo D)) (tinfos : list TransportInfo)
(jingle_elems gingle_elems : list XmlElement) (sender id : bytes) :
(o_type msg = ACTION_SESSION_INITIATE \/ o_type msg = ACTION_SESSION_ACCEPT) ->
Forall (fun c => desc_ok R (cn_description c)) cs ->
NoDup (map cn_name cs) -> map content_name tinfos = map cn_name cs ->
Forall (fun t => Forall (cand_ok R) (ti_candidates t)) tinfos ->
(o_protocol msg = PROTOCOL_GINGLE -> gingle_contents cs /\ Forall gingle_transport tinfos) ->
WriteContentMessage (o_protocol msg) cs tinfos content_parsers trans_parsers =
Good (if decide (o_protocol msg = PROTOCOL_GINGLE) then gingle_elems else jingle_elems) ->
let stanza := with_id id (from sender (WriteStanza msg jingle_elems gingle_elems)) in
IsSessionMessage stanza = true /\
exists m, ParseSessionMessage stanza = Good m /\
m_type m = o_type msg /\ m_sid m = o_sid msg /\ m_from m = sender /\ m_to m = o_to msg /\ m_id m = id /\
(o_type msg = ACTION_SESSION_INITIATE -> m_initiator m = o_initiator msg) /\
ParseContentMessage (protocol m) (action_elem m) content_parsers trans_parsers =
  Good (mkContents (map (told_content R (o_protocol msg)) cs) (map (heard_transport R) tinfos)).
Proof.
intros Ht Hdc Hd Hm Hok Hg Hw stanza.
destruct (stanza_read msg jingle_elems gingle_elems sender id) as (His & m & Hp & Hpr & Hty & Hsid & Hf & Hto & Hid & Hini & He).
{ by destruct Ht as [-> | ->]. }
split; [done|]. exists m. split_and!; try done.
- rewrite Hty. unfold received_type. case_decide; [done|]. by destruct Ht as [-> | ->].
- intros E. rewrite Hini, E. by rewrite orb_true_r.
- rewrite Hpr. by eapply contents_read.
Qed.

(** *** Candidates *)

(** The candidates that a message has for a content. *)
Definition candidates_of (name : bytes) tinfos : list Port.Candidate :=
concat (map ti_candidates (filter (fun t => content_name t = name) tinfos)).

Lemma candidates_of_cons name t tinfos :
candidates_of name (t :: tinfos) = (if decide (content_name t = name) then ti_candidates t else []) ++ candidates_of name tinfos.
Proof. unfold candidates_of. rewrite filter_cons. by case_decide. Qed.

Lemma jingle_tinfos_parsed cs tinfos elems jingle :
Forall (fun t => content_name t ∈ map cn_name cs /\ Forall (cand_ok R) (ti_candidates t)) tinfos ->
WriteJingleTransportInfos tinfos trans_parsers = Good elems -> elements jingle = elems ->
ParseJingleTransportInfos jingle cs trans_parsers = Good (map (heard_transport R) tinfos).
Proof.
intros Hall Hw He. unfold WriteJingleTransportInfos in Hw. apply map_result_good in Hw.
assert (filter (fun e => Name e = QN_JINGLE_CONTENT) elems = elems /\
      map_result (pair_transport cs trans_parsers) elems = Good (map (heard_transport R) tinfos)) as [H1 H2].
{ clear He. induction Hw as [|t e tinfos elems Hte _ IH]; [done|]. inversion Hall as [|? ? [Hin Hok] Hall']; subst.
destruct (IH Hall') as [IH1 IH2]. apply bind_good in Hte as (trans & Htr & [= <-]).
destruct (transport_facts _ _ Htr Hok) as [Hn Hp]. pose proof (pair_facts (content_name t) [trans]) as (Pn & Pa & Pe).
rewrite filter_cons_True by done. split; [by rewrite IH1|].
assert (pair_transport cs trans_parsers (WriteJingleContentPair (content_name t) [trans]) = Good (heard_transport R t)) as Ht.
{ unfold pair_transport, RequireXmlChild, GetXmlChild. rewrite Pa, Pe. simpl.
  destruct (FindContentInfoByName_in cs _ Hin) as (c' & -> & Hc').
  rewrite filter_cons_True by (by rewrite Hn). simpl. unfold ParseJingleTransportInfo. rewrite Hn. simpl.
  rewrite Hp. simpl. by rewrite Hc'. }
cbn [map_result]. by rewrite Ht, IH2. }
unfold ParseJingleTransportInfos, all_named. by rewrite He, H1.
Qed.

Definition has_name (name : bytes) cs : bool := bool_decide (name ∈ map cn_name cs).
(** A transport that Gingle can attribute to its content. *)
Definition gingle_addressed cs (t : TransportInfo) : Prop :=
transport_type t = NS_GINGLE_P2P /\
if has_name CN_AUDIO cs || has_name CN_VIDEO cs then
(content_name t = CN_AUDIO /\ Forall (fun c => is_audio c = true) (ti_candidates t)) \/
(content_name t = CN_VIDEO /\ Forall (fun c => is_video c = true) (ti_candidates t))
else content_name t = CN_OTHER.

Lemma FindContentInfoByName_is cs name : is_Some (FindContentInfoByName cs name) <-> name ∈ map cn_name cs.
Proof.
split.
- intros [c Hc]. apply List.find_some in Hc as [Hin <-%bool_decide_eq_true]. apply list_elem_of_fmap. exists c.
split; [done|]. by apply list_elem_of_In.
- intros Hin. destruct (FindContentInfoByName_in cs _ Hin) as (c' & -> & _). by eexists.
Qed.

Lemma candidates_of_heard name tinfos : candidates_of name (map (heard_transport R) tinfos) = map (heard R) (candidates_of name tinfos).
Proof. induction tinfos as [|t l IH]; [done|]. cbn [map]. rewrite !candidates_of_cons, IH, map_app. simpl. by case_decide. Qed.

Lemma gingle_split cs tinfos :
Forall (gingle_addressed cs) tinfos ->
if has_name CN_AUDIO cs || has_name CN_VIDEO cs then
List.filter is_audio (concat (map ti_candidates tinfos)) = candidates_of CN_AUDIO tinfos /\
List.filter is_video (concat (map ti_candidates tinfos)) = candidates_of CN_VIDEO tinfos
else concat (map ti_candidates tinfos) = candidates_of CN_OTHER tinfos.
Proof.
unfold gingle_addressed. destruct (has_name CN_AUDIO cs || has_name CN_VIDEO cs).
- induction 1 as [|t tinfos [_ Ht] _ [IHa IHv]]; [done|]. cbn [map concat]. rewrite !List.filter_app, !candidates_of_cons, IHa, IHv.
destruct Ht as [[-> Hc] | [-> Hc]]; simpl.
+ rewrite (filter_in is_audio) by done. rewrite (filter_out is_video); [done|].
  eapply Forall_impl; [exact Hc|]. intros c H. unfold is_video. by rewrite H.
+ rewrite (filter_in is_video) by done. rewrite (filter_out is_audio); [done|].
  eapply Forall_impl; [exact Hc|]. apply is_video_not_audio.
- induction 1 as [|t tinfos [_ Ht] _ IH]; [done|]. cbn [map concat]. rewrite candidates_of_cons, IH, Ht. by rewrite decide_True.
Qed.

(** A transport-info message brings every content, in either syntax, the
candidates it was written with, in their order. *)
Theorem transport_infos_roundtrip (p : SignalingProtocol) (cs : list (ContentInfo D)) (tinfos : list TransportInfo)
(elems : list XmlElement) (action : XmlElement) (name : bytes) :
is_Some (trans_parsers !! NS_GINGLE_P2P) -> name ∈ map cn_name cs ->
Forall (fun t => Forall (cand_ok R) (ti_candidates t)) tinfos ->
Forall (fun t => if decide (p = PROTOCOL_GINGLE) then gingle_addressed cs t else content_name t ∈ map cn_name cs) tinfos ->
(p = PROTOCOL_GINGLE -> name ∈ (if has_name CN_AUDIO cs || has_name CN_VIDEO cs then [CN_AUDIO; CN_VIDEO] else [CN_OTHER])) ->
WriteTransportInfos p tinfos trans_parsers = Good elems -> elements action = elems ->
exists received, ParseTransportInfos p action cs trans_parsers = Good received /\
candidates_of name received = map (heard R) (candidates_of name tinfos).
Proof.
intros [tp Etp] Hin Hok Haddr Hname Hw He. unfold WriteTransportInfos in Hw. unfold ParseTransportInfos. case_decide as Hp.
- destruct (gingle_candidates tinfos elems tp Etp) as [Hce Hpa]; [|done|].
{ apply Forall_and. split; [|done]. eapply Forall_impl; [exact Haddr|]. by intros t []. }
unfold ParseGingleTransportInfos. rewrite Hpa by (rewrite He; by apply filter_all). simpl.
rewrite (proj1 (heard_media _ _ _ Etp)), (proj2 (heard_media _ _ _ Etp)). pose proof (gingle_split cs tinfos Haddr) as Hs. specialize (Hname Hp). unfold has_name in *.
rewrite !(bool_decide_ext _ _ (FindContentInfoByName_is cs _)).
destruct (bool_decide (CN_AUDIO ∈ map cn_name cs)) eqn:Ea, (bool_decide (CN_VIDEO ∈ map cn_name cs)) eqn:Ev; simpl in *;
  eexists; (split; [done|]).
all: rewrite ?elem_of_cons, ?elem_of_nil in Hname; apply bool_decide_eq_true in Ea || apply bool_decide_eq_false in Ea;
  apply bool_decide_eq_true in Ev || apply bool_decide_eq_false in Ev.
all: destruct_or?; subst; try done; rewrite !candidates_of_cons; simpl; unfold candidates_of at 1; simpl;
  rewrite ?app_nil_r; try done; first [by destruct Hs as [-> _]|by destruct Hs as [_ ->]|by rewrite Hs].
- exists (map (heard_transport R) tinfos). split; [|apply candidates_of_heard]. eapply jingle_tinfos_parsed; [|done|done]. by apply Forall_and.
Qed.
End Roundtrip.

(** *** Terminations *)

Theorem terminate_roundtrip (p : SignalingProtocol) (reason : bytes) (action : XmlElement) :
  c_str reason = reason -> elements action = WriteSessionTerminate p (mkTerminate reason []) ->
  ParseSessionTerminate p action = mkTerminate reason [].
Proof.
  intros Hr. unfold WriteSessionTerminate, ParseSessionTerminate, FirstElement, FirstNamed, all_named. cbn [Messages.reason].
  case_decide as Hp; [|case_decide as He]; intros ->; simpl.
  - by rewrite Hr.
  - by rewrite He.
  - unfold elements. simpl. by rewrite Hr.
Qed.

(** A redirect is found where it was put. *)
Lemma after_prefix_app prefix s : after_prefix prefix (prefix ++ s) = Some s.
Proof.
  destruct prefix as [|c prefix].
  - by destruct s.
  - cbn [app after_prefix]. rewrite bool_decide_true by (by exists s). simpl. by rewrite drop_app_length.
Qed.

(** ** Examples

    A media content that is the name of its codec, and candidates that are
    their names. *)

Definition Media : Type := bool * bytes.
Definition ex_ns (v : bool) : bytes := if v then NS_GINGLE_VIDEO else NS_GINGLE_AUDIO.
Definition ex_payload (ns name : bytes) : XmlElement := SetAttr QN_ID name (new_element (mkQName ns (str "payload-type"))).
Definition ex_write (p : SignalingProtocol) (d : Media) : result XmlElement :=
  let (v, name) := d in
  if decide (p = PROTOCOL_GINGLE) then
    Good (AddElement (ex_payload (ex_ns v) name) (new_element (mkQName (ex_ns v) LN_DESCRIPTION)))
  else
    Good (AddElement (ex_payload NS_JINGLE_RTP name)
            (SetAttr QN_NAME (if v then CN_VIDEO else CN_AUDIO) (new_element (mkQName NS_JINGLE_RTP LN_DESCRIPTION)))).
Definition ex_parse (p : SignalingProtocol) (e : XmlElement) : result Media :=
  let v := if decide (p = PROTOCOL_GINGLE) then bool_decide (Namespace (Name e) = NS_GINGLE_VIDEO)
           else bool_decide (Attr QN_NAME e = CN_VIDEO) in
  match FirstWithNamespace (Namespace (Name e)) e with
  | Some c => Good (v, Attr QN_ID c)
  | None => BadParse (str "no codec")
  end.
Definition ex_content_parser : ContentParser Media := mkContentParser ex_parse ex_write.
Definition ex_candidate (name : bytes) : Port.Candidate :=
  Port.mkCandidate name [] SockAddr.Clear (SpecFloat.S754_zero false) [] [] [] [] 0.
Definition ex_transport_parser : TransportParser :=
  mkTransportParser
    (fun p e => Good (map (fun c => ex_candidate (Attr QN_NAME c)) (filter is_candidate_elem (elements e))))
    (fun p cs => Good (map (fun c => SetAttr QN_NAME (Port.c_name c) (new_element (mkQName NS_GINGLE_P2P LN_CANDIDATE))) cs)).

Definition ex_reading : Reading Media :=
  mkReading (fun _ => True) (fun _ d => d) (fun d => fst d = false) (fun d => fst d = true)
    (fun c => c = ex_candidate (Port.c_name c)) (fun c => c).
#[export] Instance ex_content_laws : ContentLaws ex_reading ex_content_parser NS_JINGLE_RTP.
Proof.
  split.
  - intros [v name] e _ [= <-]. destruct v; done.
  - done.
Qed.
#[export] Instance ex_media_laws : MediaLaws ex_reading ex_content_parser.
Proof.
  split.
  - intros [v name] e _ Hv [= <-]. simpl in Hv. by subst.
  - intros [va na] [vv nv] ea ev _ _ Ha Hv [= <-] [= <-]. simpl in Ha, Hv. by subst.
Qed.
#[export] Instance ex_transport_laws : TransportLaws ex_reading ex_transport_parser.
Proof.
  split.
  - intros p cs es Hok [= <-]. split; [apply Forall_map, Forall_forall; done|].
    intros parent Hf. simpl. rewrite Hf, !map_map. f_equal. clear Hf. induction Hok as [|c cs Hc _ IH]; [done|]. cbn [map]. f_equal; [|exact IH].
    symmetry. exact Hc.
  - done.
  - done.
  - intros p cs cs' es es' [= <-] [= <-]. simpl. by rewrite map_app.
Qed.

Definition ex_content_parsers : gmap bytes (ContentParser Media) := {[NS_JINGLE_RTP := ex_content_parser]}.
Definition ex_trans_parsers : gmap bytes TransportParser := {[NS_GINGLE_P2P := ex_transport_parser]}.
Lemma ex_parsers_ok :
  parsers_ok ex_content_parsers ex_trans_parsers ex_reading.
Proof.
  unfold parsers_ok, ex_content_parsers, ex_trans_parsers. split_and!.
  - intros type cp [<- <-]%lookup_singleton_Some. apply _.
  - intros cp [_ <-]%lookup_singleton_Some. apply _.
  - intros type tp [<- <-]%lookup_singleton_Some. apply _.
Qed.

Definition ex_cs : list (ContentInfo Media) :=
  [mkContent CN_AUDIO NS_JINGLE_RTP (false, str "ISAC"); mkContent CN_VIDEO NS_JINGLE_RTP (true, str "H264")].
Definition ex_tinfos : list TransportInfo :=
  [mkTransportInfo CN_AUDIO NS_GINGLE_P2P [ex_candidate (str "rtp"); ex_candidate (str "rtcp")];
   mkTransportInfo CN_VIDEO NS_GINGLE_P2P [ex_candidate (str "video_rtp")]].
Definition ex_elems (p : SignalingProtocol) : list XmlElement :=
  match WriteContentMessage p ex_cs ex_tinfos ex_content_parsers ex_trans_parsers with Good l => l | Bad _ => [] end.
Definition ex_action (p : SignalingProtocol) : XmlElement :=
  let msg := mkOutgoing p ACTION_SESSION_INITIATE (str "7") (str "a@x") (str "b@x") in
  if decide (p = PROTOCOL_GINGLE) then WriteGingleAction msg (ex_elems p) else WriteJingleAction msg (ex_elems p).

Lemma message_roundtrip_witness :
  exists m, ParseSessionMessage (with_id (str "1") (from (str "a@x") (WriteStanza
    (mkOutgoing PROTOCOL_HYBRID ACTION_SESSION_INITIATE (str "7") (str "a@x") (str "b@x"))
    (ex_elems PROTOCOL_JINGLE) (ex_elems PROTOCOL_GINGLE)))) = Good m /\
    ParseContentMessage (protocol m) (action_elem m) ex_content_parsers ex_trans_parsers = Good (mkContents ex_cs ex_tinfos).
Proof.
  destruct (message_roundtrip _ _ _ ex_parsers_ok
    (mkOutgoing PROTOCOL_HYBRID ACTION_SESSION_INITIATE (str "7") (str "a@x") (str "b@x")) ex_cs ex_tinfos
    (ex_elems PROTOCOL_JINGLE) (ex_elems PROTOCOL_GINGLE) (str "a@x") (str "1")) as (_ & m & Hm & _ & _ & _ & _ & _ & _ & Hc).
  - by left.
  - by repeat constructor.
  - refine (bool_decide_unpack _ _); vm_compute; exact I.
  - reflexivity.
  - by repeat constructor.
  - by intros.
  - vm_compute; reflexivity.
  - exists m. split; [exact Hm|exact Hc].
Defined.

Definition ex_video_info : list TransportInfo := [mkTransportInfo CN_VIDEO NS_GINGLE_P2P [ex_candidate (str "video_rtcp")]].
Definition ex_info_action (p : SignalingProtocol) : XmlElement :=
  AddXmlChildren (new_element QN_GINGLE_SESSION)
    (match WriteTransportInfos p ex_video_info ex_trans_parsers with Good l => l | Bad _ => [] end).
Lemma transport_infos_roundtrip_witness :
  (exists received, ParseTransportInfos PROTOCOL_GINGLE (ex_info_action PROTOCOL_GINGLE) ex_cs ex_trans_parsers = Good received /\
    candidates_of CN_VIDEO received = [ex_candidate (str "video_rtcp")]) /\
  (exists received, ParseTransportInfos PROTOCOL_HYBRID (ex_info_action PROTOCOL_HYBRID) ex_cs ex_trans_parsers = Good received /\
    candidates_of CN_VIDEO received = [ex_candidate (str "video_rtcp")]).
Proof.
  split; eapply (transport_infos_roundtrip _ _ _ ex_parsers_ok _ ex_cs ex_video_info); try (vm_compute; reflexivity);
    try (by eexists); try done; try (refine (bool_decide_unpack _ _); vm_compute; exact I).
  - by repeat constructor.
  - by repeat constructor.
Defined.
End Messages.
