(* ===== verification/P2PTransport.v ===== *)
(** * Candidates in stanzas (talk/p2p/base/p2ptransport.cc, transport.cc)

    The parser and writer of candidates of the peer-to-peer transport, in both
    syntaxes.  They keep the promise [TransportLaws] that the messages of
    sessions rely on. *)

From S2P Require Import Prelude Numbers ByteOrder SocketAddress Port Base64 Xml SessionMessages.
From Stdlib Require Import SpecFloat.
Import Xml Const Messages.

Module P2P.

(** ** Names *)

Definition QN_ADDRESS : QName := qname [] (str "address").
Definition QN_PORT : QName := qname [] (str "port").
Definition QN_USERNAME : QName := qname [] (str "username").
Definition QN_PREFERENCE : QName := qname [] (str "preference").
Definition QN_PROTOCOL : QName := qname [] (str "protocol").
Definition QN_GENERATION : QName := qname [] (str "generation").
Definition QN_PASSWORD : QName := qname [] (str "password").
Definition QN_NETWORK : QName := qname [] (str "network").
Definition QN_GINGLE_P2P_CANDIDATE : QName := qname NS_GINGLE_P2P LN_CANDIDATE.
Definition QN_GINGLE_CANDIDATE : QName := qname NS_GINGLE LN_CANDIDATE.

(** ** Conversions of a candidate (candidate.h) *)

Definition preference_str (c : Port.Candidate) : bytes := Num.float_ToString (Port.c_preference c).
Definition generation_str (c : Port.Candidate) : bytes := Num.ToString (Port.c_generation c).
(** What [set_preference_str] and [set_generation_str] leave in a new
    candidate. *)
Definition preference_of (preference : bytes) : spec_float := fst (Num.extract_float (S754_zero false) preference).
Definition generation_of (generation : bytes) : Z := fst (Num.extract_uint32 0 generation).

(** ** Parsing *)

Definition kMaxUsernameSize : nat := 16.

Section Parser.
Context `{Platform} (inet_aton : bytes -> option Z).

(** The port is cut to 16 bits; the [ASSERT] of [SetPort] is the only check of
    its range. *)
Definition ParseAddress (e : XmlElement) (address_name port_name : QName) : result SocketAddress :=
  if negb (HasAttr address_name e) then BadParse (str "address does not have " ++ LocalPart address_name)
  else if negb (HasAttr port_name e) then BadParse (str "address does not have " ++ LocalPart port_name)
  else Good (SockAddr.SetPort (fst (Num.extract_int 0 (Attr port_name e)))
               (SockAddr.SetIP_host inet_aton (Attr address_name e) SockAddr.Clear)).

Definition VerifyUsernameFormat (username : bytes) : result unit :=
  if (kMaxUsernameSize <? length username)%nat then BadParse (str "candidate username is too long")
  else if negb (B64.IsBase64Encoded username) then BadParse (str "candidate username has non-base64 encoded characters")
  else Good tt.

Definition required : list QName :=
  [QN_NAME; QN_ADDRESS; QN_PORT; QN_USERNAME; QN_PREFERENCE; QN_PROTOCOL; QN_GENERATION].
Definition ParseCandidate (e : XmlElement) : result Port.Candidate :=
  if negb (forallb (fun n => HasAttr n e) required) then BadParse (str "candidate missing required attribute")
  else
    address ← ParseAddress e QN_ADDRESS QN_PORT;
    let candidate := Port.mkCandidate (Attr QN_NAME e) (Attr QN_PROTOCOL e) address
      (preference_of (Attr QN_PREFERENCE e)) (Attr QN_USERNAME e)
      (if HasAttr QN_PASSWORD e then Attr QN_PASSWORD e else [])
      (if HasAttr QN_TYPE e then Attr QN_TYPE e else [])
      (if HasAttr QN_NETWORK e then Attr QN_NETWORK e else [])
      (generation_of (Attr QN_GENERATION e)) in
    _ ← VerifyUsernameFormat (Port.c_username candidate);
    Good candidate.
(** Only the local part of a name is looked at: a candidate may be in a session
    or in a transport. *)
Definition ParseCandidates (p : SignalingProtocol) (e : XmlElement) : result (list Port.Candidate) :=
  map_result ParseCandidate (filter (fun c => LocalPart (Name c) = LN_CANDIDATE) (elements e)).

(** ** Writing *)

Definition GetCandidateQName (p : SignalingProtocol) : QName :=
  if decide (p = PROTOCOL_GINGLE) then QN_GINGLE_CANDIDATE else QN_GINGLE_P2P_CANDIDATE.
Definition set_nonempty (name : QName) (value : bytes) (e : XmlElement) : XmlElement :=
  if decide (value = []) then e else SetAttr name value e.
Definition WriteCandidate (c : Port.Candidate) (e : XmlElement) : XmlElement :=
  let e := SetAttr QN_NAME (Port.c_name c) e in
  let e := SetAttr QN_ADDRESS (SockAddr.IPAsString (Port.c_address c)) e in
  let e := SetAttr QN_PORT (SockAddr.PortAsString (Port.c_address c)) e in
  let e := SetAttr QN_PREFERENCE (preference_str c) e in
  let e := SetAttr QN_USERNAME (Port.c_username c) e in
  let e := SetAttr QN_PROTOCOL (Port.c_protocol c) e in
  let e := SetAttr QN_GENERATION (generation_str c) e in
  let e := set_nonempty QN_PASSWORD (Port.c_password c) e in
  let e := set_nonempty QN_TYPE (Port.c_type c) e in
  set_nonempty QN_NETWORK (Port.c_network_name c) e.
Definition WriteCandidates (p : SignalingProtocol) (candidates : list Port.Candidate) : result (list XmlElement) :=
  Good (map (fun c => WriteCandidate c (new_element (GetCandidateQName p))) candidates).

Definition P2PTransportParser : TransportParser := mkTransportParser ParseCandidates WriteCandidates.

(** ** What is read *)

(** A candidate that can be said: its user name is one a parser accepts, its
    numbers fit their types. *)
Definition candidate_ok (c : Port.Candidate) : Prop :=
  VerifyUsernameFormat (Port.c_username c) = Good tt /\ is_u16 (sa_port (Port.c_address c)) /\ is_u32 (Port.c_generation c).
(** The address is read from its text, the preference has six digits. *)
Definition heard_candidate (c : Port.Candidate) : Port.Candidate :=
  let host := SockAddr.IPAsString (Port.c_address c) in
  Port.mkCandidate (Port.c_name c) (Port.c_protocol c)
    (mkSocketAddress host (SockAddr.StringToIP inet_aton host) (sa_port (Port.c_address c)))
    (preference_of (preference_str c)) (Port.c_username c) (Port.c_password c) (Port.c_type c)
    (Port.c_network_name c) (Port.c_generation c).

(** The attributes of an element written with them, whatever their values. *)
Lemma written_attrs n name address port preference username protocol generation password type network :
  let e := set_nonempty QN_NETWORK network (set_nonempty QN_TYPE type (set_nonempty QN_PASSWORD password
    (SetAttr QN_GENERATION generation (SetAttr QN_PROTOCOL protocol (SetAttr QN_USERNAME username
    (SetAttr QN_PREFERENCE preference (SetAttr QN_PORT port (SetAttr QN_ADDRESS address
    (SetAttr QN_NAME name (new_element n)))))))))) in
  Name e = n /\ forallb (fun n => HasAttr n e) required = true /\
  HasAttr QN_ADDRESS e = true /\ HasAttr QN_PORT e = true /\
  Attr QN_NAME e = name /\ Attr QN_ADDRESS e = address /\ Attr QN_PORT e = port /\ Attr QN_PREFERENCE e = preference /\
  Attr QN_USERNAME e = username /\ Attr QN_PROTOCOL e = protocol /\ Attr QN_GENERATION e = generation /\
  (if HasAttr QN_PASSWORD e then Attr QN_PASSWORD e else []) = password /\
  (if HasAttr QN_TYPE e then Attr QN_TYPE e else []) = type /\
  (if HasAttr QN_NETWORK e then Attr QN_NETWORK e else []) = network.
Proof. destruct password, type, network; vm_compute; split_and!; reflexivity. Qed.

Lemma candidate_read p c : candidate_ok c ->
  let e := WriteCandidate c (new_element (GetCandidateQName p)) in
  LocalPart (Name e) = LN_CANDIDATE /\ ParseCandidate e = Good (heard_candidate c).
Proof.
  intros (Hu & Hp & Hg). cbv zeta. unfold WriteCandidate.
  destruct (written_attrs (GetCandidateQName p) (Port.c_name c) (SockAddr.IPAsString (Port.c_address c))
    (SockAddr.PortAsString (Port.c_address c)) (preference_str c) (Port.c_username c) (Port.c_protocol c) (generation_str c)
    (Port.c_password c) (Port.c_type c) (Port.c_network_name c))
    as (En & Er & Ha & Hpt & E1 & E2 & E3 & E4 & E5 & E6 & E7 & E8 & E9 & E10).
  set (e := set_nonempty _ _ _) in *. clearbody e. split; [rewrite En; by destruct p|].
  unfold ParseCandidate, ParseAddress. rewrite Er, Ha, Hpt, E1, E2, E3, E4, E5, E6, E7, E8, E9, E10. simpl. rewrite Hu. simpl.
  unfold heard_candidate, SockAddr.SetPort, SockAddr.SetIP_host, SockAddr.PortAsString, generation_of, generation_str. simpl.
  rewrite Num.extract_int_ToString by (unfold Num.is_s32; word_lia). rewrite Num.extract_uint32_ToString by done.
  simpl. by rewrite u16_small.
Qed.

(** The parser of the peer-to-peer transport keeps the promise that the messages
    of sessions rely on. *)
#[export] Instance P2PTransportParser_laws {D} (R : Reading D) :
  (forall c, cand_ok R c -> candidate_ok c) -> (forall c, heard R c = heard_candidate c) -> TransportLaws R P2PTransportParser.
Proof.
  intros Hok Hh. split.
  - intros p cs es Hcs [= <-]. split.
    + apply Forall_map. eapply Forall_impl; [exact Hcs|]. intros c Hc. by apply candidate_read, Hok.
    + intros parent Hf. simpl. unfold ParseCandidates. change (filter (fun c => LocalPart (Name c) = LN_CANDIDATE) (elements parent) = map (fun c => WriteCandidate c (new_element (GetCandidateQName p))) cs) in Hf.
      rewrite Hf.
      apply map_result_good. clear Hf. induction Hcs as [|c cs Hc _ IH]; [constructor|]. cbn [map]. constructor; [|exact IH].
      rewrite Hh. by apply candidate_read, Hok.
  - intros c. by rewrite Hh.
  - done.
  - intros p cs cs' es es' [= <-] [= <-]. cbn [P2PTransportParser tp_WriteCandidates]. unfold WriteCandidates. by rewrite map_app.
Qed.

(** As the code compares them, candidates with addresses are read as they were
    written. *)
Lemma heard_equivalent c : SockAddr.reads_dotted inet_aton -> is_u32 (sa_ip (Port.c_address c)) ->
  sa_hostname (Port.c_address c) = [] -> sa_ip (Port.c_address c) <> 0 -> Port.IsEquivalent c (heard_candidate c) = true.
Proof.
  intros Hr Hip Hh H0. unfold Port.IsEquivalent, heard_candidate, SockAddr.eqb, SockAddr.EqualIPs, SockAddr.EqualPorts, SockAddr.IPAsString.
  cbn [Port.c_name Port.c_protocol Port.c_address Port.c_username Port.c_password Port.c_type Port.c_generation sa_ip sa_port sa_hostname].
  rewrite Hh, (SockAddr.StringToIP_IPToString _ _ Hr) by done. rewrite !Z.eqb_refl.
  rewrite (proj2 (Z.eqb_neq _ _) H0). cbn [negb andb orb]. by rewrite !bool_decide_true by done.
Qed.

(** C0. What WriteCandidates writes, in either syntax and between other
    elements, ParseCandidates reads as equivalent candidates, in order, with
    their preferences to six digits; and whatever the peer sends, the
    candidates it accepts have user names of the right form and numbers that fit
    their types. *)
Theorem candidates_roundtrip (p : SignalingProtocol) (e : XmlElement) (cs : list Port.Candidate) (es : list XmlElement) :
  SockAddr.reads_dotted inet_aton ->
  (Forall (fun c => candidate_ok c /\ is_u32 (sa_ip (Port.c_address c)) /\ sa_hostname (Port.c_address c) = [] /\
     sa_ip (Port.c_address c) <> 0) cs ->
   WriteCandidates p cs = Good es -> filter is_candidate_elem (elements e) = es ->
   exists cs', ParseCandidates p e = Good cs' /\
     Forall2 (fun c c' => Port.IsEquivalent c c' = true /\ Port.c_network_name c' = Port.c_network_name c /\
       Port.c_preference c' = Num.read_back (Port.c_preference c)) cs cs') /\
  (forall cs', ParseCandidates p e = Good cs' -> Forall candidate_ok cs').
Proof.
  intros Hr. split.
  - intros Hcs Hw Hf. exists (map heard_candidate cs). split.
    + assert (Hl : TransportLaws (mkReading (D := unit) (fun _ => True) (fun _ d => d) (fun _ => True) (fun _ => True) candidate_ok
        heard_candidate) P2PTransportParser) by (apply P2PTransportParser_laws; done).
      apply (transport_roundtrip (TransportLaws := Hl) p cs es); [|exact Hw|exact Hf].
      eapply Forall_impl; [exact Hcs|]. by intros c [].
    + clear Hw. induction Hcs as [|c cs (Hok & Hip & Hh & H0) _ IH]; [constructor|]. cbn [map]. constructor; [|exact IH].
      split; [by apply heard_equivalent|done].
  - intros cs' Hp. apply map_result_good in Hp. induction Hp as [|c c' l l' Hc _ IH]; constructor; [|exact IH].
    unfold ParseCandidate, ParseAddress in Hc. destruct (negb _); [done|].
    apply bind_good in Hc as (a & Ha & Hc). apply bind_good in Hc as ([] & Hu & [= <-]). cbn in *.
    split; [done|]. split.
    + destruct (negb (HasAttr QN_ADDRESS _)); [done|]. destruct (negb (HasAttr QN_PORT _)); [done|]. injection Ha as <-. apply u16_range.
    + unfold generation_of. apply Num.extract_uint32_range. word_lia.
Qed.
End Parser.

(** ** An example

    Reading four decimal numbers is what [inet_aton] does to the text that
    [IPToString] writes. *)

Definition number_dot (s : bytes) : option (Z * bytes) :=
  let '(ds, s) := Num.span_digits s in
  match s with c :: s => if decide (c = Byte.x2e) then Some (Num.value ds, s) else None | [] => None end.
Definition dotted_quad `{Platform} (s : bytes) : option Z :=
  '(a, s) ← number_dot s; '(b, s) ← number_dot s; '(c, s) ← number_dot s;
  Some (HostToNetwork32 (a * 2 ^ 24 + b * 2 ^ 16 + c * 2 ^ 8 + Num.value (fst (Num.span_digits s)))).
Lemma ToString_digits z s : 0 <= z -> (forall c, head s = Some c -> Num.is_digit c = false) ->
  Num.span_digits (Num.ToString z ++ s) = (Num.ToString z, s) /\ Num.value (Num.ToString z) = z.
Proof.
  intros Hz Hs. unfold Num.ToString. destruct (z <? 0) eqn:E; [lia|]. destruct (Num.show_nat_spec z Hz) as (Hv & Hall & _).
  split; [by apply Num.span_digits_app|done].
Qed.
Lemma number_dot_ToString z s : 0 <= z -> number_dot (Num.ToString z ++ str "." ++ s) = Some (z, s).
Proof. intros Hz. unfold number_dot. destruct (ToString_digits z (str "." ++ s) Hz) as [-> ->]; [by intros c [= <-]|]. done. Qed.
Lemma dotted_quad_reads `{Platform} : SockAddr.reads_dotted dotted_quad.
Proof.
  intros ip Hip. unfold dotted_quad, SockAddr.IPToString.
  assert (Hb : forall k, 0 <= k -> Z.land (Z.shiftr ip k) 255 = ip / 2 ^ k mod 256)
    by (intros k Hk; change 255 with (Z.ones 8); rewrite Z.land_ones, Z.shiftr_div_pow2 by done; done).
  rewrite !Hb by done. assert (Hm : forall z, 0 <= z mod 256) by (intros z; apply Z.mod_pos_bound; lia).
  rewrite !number_dot_ToString by done. cbn [mbind option_bind]. rewrite number_dot_ToString by done. cbn [mbind option_bind].
  rewrite number_dot_ToString by done. cbn [mbind option_bind].
  destruct (ToString_digits (ip / 2 ^ 0 mod 256) [] (Hm _)) as [Hd Hv]; [done|]. rewrite app_nil_r in Hd. rewrite Hd. cbn [fst]. rewrite Hv.
  do 2 f_equal. word_lia.
Qed.

Definition ex_candidate : Port.Candidate :=
  Port.mkCandidate (str "rtp") (str "udp") (SockAddr.make 3232235777 5000) (Num.float_of_ratio false 9 10) (str "abcdefgh")
    (str "secret") (str "stun") (str "eth0") 2.
Definition ex_elems (p : SignalingProtocol) : list XmlElement := match WriteCandidates p [ex_candidate] with Good l => l | Bad _ => [] end.
Definition ex_parent : XmlElement := AddXmlChildren (new_element QN_GINGLE_SESSION) (new_element QN_GINGLE_AUDIO_CONTENT :: ex_elems PROTOCOL_GINGLE).
Lemma candidates_roundtrip_witness :
  exists cs', @ParseCandidates big_host (@dotted_quad big_host) PROTOCOL_GINGLE ex_parent = Good cs' /\
    Forall2 (fun c c' => Port.IsEquivalent c c' = true /\ Port.c_network_name c' = Port.c_network_name c /\
       Port.c_preference c' = Num.read_back (Port.c_preference c)) [ex_candidate] cs'.
Proof.
  apply (proj1 (@candidates_roundtrip big_host (@dotted_quad big_host) PROTOCOL_GINGLE ex_parent [ex_candidate] (ex_elems PROTOCOL_GINGLE)
    (@dotted_quad_reads big_host))).
  - repeat constructor; vm_compute; try discriminate; try reflexivity.
  - reflexivity.
  - vm_compute. reflexivity.
Defined.
(** A port out of range is cut: only an [ASSERT] would see it. *)
Example port_wraps :
  match @ParseAddress big_host (@dotted_quad big_host) (SetAttr QN_PORT (str "70000") (SetAttr QN_ADDRESS (str "10.0.0.1") (new_element QN_GINGLE_CANDIDATE)))
    QN_ADDRESS QN_PORT with Good a => sa_port a | Bad _ => 0 end = 4464.
Proof. vm_compute. reflexivity. Qed.
End P2P.
