(* ===== verification/MediaSession.v ===== *)
(** * Descriptions of media (talk/session/phone: mediasessionclient.cc, codec.cc)

    The contents of a call: codecs, keys and bandwidth of audio and of video,
    and their elements in both syntaxes.  They are the contents that
    [MediaSessionClient] parses and writes for the messages of sessions. *)

From S2P Require Import Prelude Numbers Xml SessionMessages MediaFilters.
Import Xml Const Messages.
#[local] Open Scope jingle_scope.

(** ** Names (talk/p2p/base/constants.cc) *)

Module MediaConst.
Definition QN_JINGLE_CONTENT_MEDIA : QName := qname [] (str "media").
Definition JINGLE_CONTENT_MEDIA_AUDIO : bytes := str "audio".
Definition JINGLE_CONTENT_MEDIA_VIDEO : bytes := str "video".
Definition LN_PAYLOADTYPE : bytes := str "payload-type".
Definition QN_CLOCKRATE : QName := qname [] (str "clockrate").
Definition QN_BITRATE : QName := qname [] (str "bitrate").
Definition QN_CHANNELS : QName := qname [] (str "channels").
Definition QN_WIDTH : QName := qname [] (str "width").
Definition QN_HEIGHT : QName := qname [] (str "height").
Definition QN_FRAMERATE : QName := qname [] (str "framerate").
Definition QN_PAYLOADTYPE_PARAMETER_NAME : QName := qname [] (str "name").
Definition QN_PAYLOADTYPE_PARAMETER_VALUE : QName := qname [] (str "value").
Definition PAYLOADTYPE_PARAMETER_BITRATE : bytes := str "bitrate".
Definition PAYLOADTYPE_PARAMETER_HEIGHT : bytes := str "height".
Definition PAYLOADTYPE_PARAMETER_WIDTH : bytes := str "width".
Definition PAYLOADTYPE_PARAMETER_FRAMERATE : bytes := str "framerate".
Definition LN_BANDWIDTH : bytes := str "bandwidth".
Definition QN_JINGLE_RTP_CONTENT : QName := qname NS_JINGLE_RTP LN_DESCRIPTION.
Definition QN_JINGLE_SSRC : QName := qname [] (str "ssrc").
Definition QN_JINGLE_RTP_PAYLOADTYPE : QName := qname NS_JINGLE_RTP LN_PAYLOADTYPE.
Definition QN_JINGLE_RTP_BANDWIDTH : QName := qname NS_JINGLE_RTP LN_BANDWIDTH.
Definition QN_PARAMETER : QName := qname NS_JINGLE_RTP (str "parameter").
Definition QN_GINGLE_AUDIO_PAYLOADTYPE : QName := qname NS_GINGLE_AUDIO LN_PAYLOADTYPE.
Definition QN_GINGLE_AUDIO_SRCID : QName := qname NS_GINGLE_AUDIO (str "src-id").
Definition QN_GINGLE_VIDEO_CONTENT : QName := qname NS_GINGLE_VIDEO LN_DESCRIPTION.
Definition QN_GINGLE_VIDEO_PAYLOADTYPE : QName := qname NS_GINGLE_VIDEO LN_PAYLOADTYPE.
Definition QN_GINGLE_VIDEO_SRCID : QName := qname NS_GINGLE_VIDEO (str "src-id").
Definition QN_GINGLE_VIDEO_BANDWIDTH : QName := qname NS_GINGLE_VIDEO LN_BANDWIDTH.
Definition QN_ENCRYPTION : QName := qname NS_JINGLE_RTP (str "encryption").
Definition QN_ENCRYPTION_REQUIRED : QName := qname [] (str "required").
Definition QN_CRYPTO : QName := qname NS_JINGLE_RTP (str "crypto").
Definition QN_GINGLE_AUDIO_CRYPTO_USAGE : QName := qname NS_GINGLE_AUDIO (str "usage").
Definition QN_GINGLE_VIDEO_CRYPTO_USAGE : QName := qname NS_GINGLE_VIDEO (str "usage").
Definition QN_CRYPTO_SUITE : QName := qname [] (str "crypto-suite").
Definition QN_CRYPTO_KEY_PARAMS : QName := qname [] (str "key-params").
Definition QN_CRYPTO_TAG : QName := qname [] (str "tag").
Definition QN_CRYPTO_SESSION_PARAMS : QName := qname [] (str "session-params").
End MediaConst.

Module Media.
Import MediaConst.

(** ** Codecs (codec.h, codec.cc) *)

Record AudioCodec := mkAudioCodec {
  a_id : Z; a_name : bytes; clockrate : Z; bitrate : Z; channels : Z; a_preference : Z; a_params : gmap bytes bytes }.
Record VideoCodec := mkVideoCodec {
  v_id : Z; v_name : bytes; width : Z; height : Z; framerate : Z; v_preference : Z; v_params : gmap bytes bytes }.
#[export] Instance AudioCodec_eq_dec : EqDecision AudioCodec.
Proof. solve_decision. Defined.
#[export] Instance VideoCodec_eq_dec : EqDecision VideoCodec.
Proof. solve_decision. Defined.
(** The constructors leave the parameters empty. *)
Definition make_audio (id : Z) (name : bytes) (clockrate bitrate channels preference : Z) : AudioCodec :=
  mkAudioCodec id name clockrate bitrate channels preference ∅.
Definition make_video (id : Z) (name : bytes) (width height framerate preference : Z) : VideoCodec :=
  mkVideoCodec id name width height framerate preference ∅.

Definition kMaxStaticPayloadId : Z := 95.
(** [AudioCodec::Matches] and [VideoCodec::Matches] of an id and a name. *)
Definition payload_matches (id : Z) (name : bytes) (payload : Z) (nm : bytes) : bool :=
  if payload <=? kMaxStaticPayloadId then id =? payload else bool_decide (name = nm).
Definition audio_Matches (ours theirs : AudioCodec) : bool :=
  payload_matches (a_id ours) (a_name ours) (a_id theirs) (a_name theirs) &&
  ((clockrate theirs =? 0) || (clockrate ours =? clockrate theirs)) &&
  ((bitrate theirs =? 0) || (bitrate ours =? -1) || (bitrate ours =? bitrate theirs)) &&
  ((channels theirs =? 0) || (channels ours =? channels theirs)).
Definition video_Matches (ours theirs : VideoCodec) : bool :=
  payload_matches (v_id ours) (v_name ours) (v_id theirs) (v_name theirs).

(** ** Descriptions (mediasessionclient.h) *)

Definition kAutoBandwidth : Z := -1.
Record MediaContentDescription := mkMedia {
  ssrc_ : Z; ssrc_set_ : bool; rtcp_mux_ : bool; bandwidth_ : Z; cryptos_ : list Srtp.CryptoParams;
  crypto_required_ : bool; rtp_header_extensions_ : list (bytes * Z); rtp_header_extensions_set_ : bool }.
#[export] Instance MediaContentDescription_eta : Eta MediaContentDescription := fun d =>
  mkMedia (ssrc_ d) (ssrc_set_ d) (rtcp_mux_ d) (bandwidth_ d) (cryptos_ d) (crypto_required_ d) (rtp_header_extensions_ d)
    (rtp_header_extensions_set_ d).
Definition new_media : MediaContentDescription := mkMedia 0 false false kAutoBandwidth [] false [] false.
Definition set_ssrc (ssrc : Z) (d : MediaContentDescription) : MediaContentDescription :=
  d <| ssrc_ := ssrc |> <| ssrc_set_ := true |>.
Definition AddCrypto (params : Srtp.CryptoParams) (d : MediaContentDescription) : MediaContentDescription :=
  d <| cryptos_ := cryptos_ d ++ [params] |>.

Record AudioContentDescription := mkAudio {
  a_media : MediaContentDescription; a_codecs : list AudioCodec; conference_mode_ : bool; lang_ : bytes }.
Record VideoContentDescription := mkVideo { v_media : MediaContentDescription; v_codecs : list VideoCodec }.
Inductive ContentDescription := Audio (a : AudioContentDescription) | Video (v : VideoContentDescription).
Definition new_audio : AudioContentDescription := mkAudio new_media [] false [].
Definition new_video : VideoContentDescription := mkVideo new_media [].
Definition media (d : ContentDescription) : MediaContentDescription :=
  match d with Audio a => a_media a | Video v => v_media v end.

(** ** Numbers in elements (talk/p2p/base/parsing.cc, parsing.h) *)

Definition GetXmlAttr_int (name : QName) (def : Z) (e : XmlElement) : Z :=
  if decide (Attr name e = []) then def else Num.atoi (Attr name e).
Definition AddXmlAttr (name : QName) (val : Z) (e : XmlElement) : XmlElement := AddAttr name (Num.ToString val) e.
Definition SetXmlBody (val : Z) (e : XmlElement) : XmlElement := SetBodyText (Num.ToString val) e.

(** ** Parsing *)

Definition ParseGingleAudioCodec (e : XmlElement) : option AudioCodec :=
  let id := GetXmlAttr_int QN_ID (-1) e in
  if id <? 0 then None
  else Some (make_audio id (GetXmlAttr QN_NAME [] e) (GetXmlAttr_int QN_CLOCKRATE 0 e) (GetXmlAttr_int QN_BITRATE 0 e)
               (GetXmlAttr_int QN_CHANNELS 1 e) 0).
Definition ParseGingleVideoCodec (e : XmlElement) : option VideoCodec :=
  let id := GetXmlAttr_int QN_ID (-1) e in
  if id <? 0 then None
  else Some (make_video id (GetXmlAttr QN_NAME [] e) (GetXmlAttr_int QN_WIDTH 0 e) (GetXmlAttr_int QN_HEIGHT 0 e)
               (GetXmlAttr_int QN_FRAMERATE 0 e) 0).

(** [FromString] with a default leaves the default only when the text is
    empty; the default is 0. *)
Definition parse_ssrc (ssrc : bytes) : Z := fst (Num.extract_uint32 0 ssrc).
Definition ParseGingleSsrc (parent_elem : XmlElement) (name : QName) (d : MediaContentDescription) : MediaContentDescription :=
  match FirstNamed name parent_elem with
  | Some ssrc_elem => set_ssrc (parse_ssrc (BodyText ssrc_elem)) d
  | None => d
  end.
Definition ParseJingleSsrc (desc_elem : XmlElement) (d : MediaContentDescription) : MediaContentDescription :=
  if decide (Attr QN_JINGLE_SSRC desc_elem = []) then d else set_ssrc (parse_ssrc (Attr QN_JINGLE_SSRC desc_elem)) d.

Definition ParseCryptoParams (e : XmlElement) : result Srtp.CryptoParams :=
  if negb (HasAttr QN_CRYPTO_SUITE e) then BadParse (str "crypto: crypto-suite attribute missing ")
  else if negb (HasAttr QN_CRYPTO_KEY_PARAMS e) then BadParse (str "crypto: key-params attribute missing ")
  else if negb (HasAttr QN_CRYPTO_TAG e) then BadParse (str "crypto: tag attribute missing ")
  else Good (Srtp.mkParams (GetXmlAttr_int QN_CRYPTO_TAG 0 e) (Attr QN_CRYPTO_SUITE e) (Attr QN_CRYPTO_KEY_PARAMS e)
               (Attr QN_CRYPTO_SESSION_PARAMS e)).
Fixpoint ParseCryptos (elems : list XmlElement) (d : MediaContentDescription) : result MediaContentDescription :=
  match elems with
  | [] => Good d
  | e :: elems => params ← ParseCryptoParams e; ParseCryptos elems (AddCrypto params d)
  end.
(** The flag and the keys of one encryption element. *)
Definition ParseEncryption (encryption : XmlElement) (d : MediaContentDescription) : result MediaContentDescription :=
  ParseCryptos (all_named QN_CRYPTO encryption)
    (d <| crypto_required_ := GetXmlAttr_bool QN_ENCRYPTION_REQUIRED false encryption |>).
(** The first that is for this use. *)
Definition ParseGingleEncryption (desc : XmlElement) (usage : QName) (d : MediaContentDescription) : result MediaContentDescription :=
  match head (filter (fun e => is_Some (FirstNamed usage e)) (all_named QN_ENCRYPTION desc)) with
  | Some encryption => ParseEncryption encryption d
  | None => Good d
  end.
Definition ParseJingleEncryption (content_elem : XmlElement) (d : MediaContentDescription) : result MediaContentDescription :=
  match FirstNamed QN_ENCRYPTION content_elem with
  | Some encryption => ParseEncryption encryption d
  | None => Good d
  end.
(** The product may wrap. *)
Definition ParseBandwidth (parent_elem : XmlElement) (d : MediaContentDescription) : MediaContentDescription :=
  match GetXmlChild LN_BANDWIDTH parent_elem with
  | Some bw_elem =>
      let '(bandwidth_kbps, ok) := Num.extract_int 0 (BodyText bw_elem) in
      if ok && (0 <=? bandwidth_kbps) then d <| bandwidth_ := s32 (bandwidth_kbps * 1000) |> else d
  | None => d
  end.

(** Without elements the other client is an old one, with two codecs. *)
Definition old_codecs : list AudioCodec :=
  [make_audio 103 (str "ISAC") 16000 (-1) 1 1; make_audio 0 (str "PCMU") 8000 64000 1 0].
Definition ParseGingleAudioContent (content_elem : XmlElement) : result ContentDescription :=
  let codecs := match FirstElement content_elem with
                | Some _ => omap ParseGingleAudioCodec (all_named QN_GINGLE_AUDIO_PAYLOADTYPE content_elem)
                | None => old_codecs
                end in
  d ← ParseGingleEncryption content_elem QN_GINGLE_AUDIO_CRYPTO_USAGE
        (ParseGingleSsrc content_elem QN_GINGLE_AUDIO_SRCID new_media);
  Good (Audio (mkAudio d codecs false [])).
Definition ParseGingleVideoContent (content_elem : XmlElement) : result ContentDescription :=
  let codecs := omap ParseGingleVideoCodec (all_named QN_GINGLE_VIDEO_PAYLOADTYPE content_elem) in
  d ← ParseGingleEncryption content_elem QN_GINGLE_VIDEO_CRYPTO_USAGE
        (ParseBandwidth content_elem (ParseGingleSsrc content_elem QN_GINGLE_VIDEO_SRCID new_media));
  Good (Video (mkVideo d codecs)).

(** [insert] keeps the first value of a name. *)
Definition add_parameter (paramap : gmap bytes bytes) (param : XmlElement) : gmap bytes bytes :=
  let name := GetXmlAttr QN_PAYLOADTYPE_PARAMETER_NAME [] param in
  let value := GetXmlAttr QN_PAYLOADTYPE_PARAMETER_VALUE [] param in
  if decide (name = [] \/ value = []) then paramap
  else match paramap !! name with Some _ => paramap | None => <[name := value]> paramap end.
Definition ParsePayloadTypeParameters (e : XmlElement) : gmap bytes bytes := foldl add_parameter ∅ (all_named QN_PARAMETER e).
Definition FindWithDefault (m : gmap bytes bytes) (key : bytes) (def : Z) : Z :=
  match m !! key with Some v => Num.atoi v | None => def end.
Definition ParseJingleAudioCodec (e : XmlElement) : option AudioCodec :=
  let id := GetXmlAttr_int QN_ID (-1) e in
  if id <? 0 then None
  else
    let paramap := ParsePayloadTypeParameters e in
    Some (make_audio id (GetXmlAttr QN_NAME [] e) (GetXmlAttr_int QN_CLOCKRATE 0 e)
            (FindWithDefault paramap PAYLOADTYPE_PARAMETER_BITRATE 0) (GetXmlAttr_int QN_CHANNELS 1 e) 0).
Definition ParseJingleVideoCodec (e : XmlElement) : option VideoCodec :=
  let id := GetXmlAttr_int QN_ID (-1) e in
  if id <? 0 then None
  else
    let paramap := ParsePayloadTypeParameters e in
    Some (make_video id (GetXmlAttr QN_NAME [] e) (FindWithDefault paramap PAYLOADTYPE_PARAMETER_WIDTH 0)
            (FindWithDefault paramap PAYLOADTYPE_PARAMETER_HEIGHT 0) (FindWithDefault paramap PAYLOADTYPE_PARAMETER_FRAMERATE 0) 0).
Definition ParseJingleAudioContent (content_elem : XmlElement) : result ContentDescription :=
  let codecs := omap ParseJingleAudioCodec (all_named QN_JINGLE_RTP_PAYLOADTYPE content_elem) in
  d ← ParseJingleEncryption content_elem (ParseJingleSsrc content_elem new_media);
  Good (Audio (mkAudio d codecs false [])).
Definition ParseJingleVideoContent (content_elem : XmlElement) : result ContentDescription :=
  let codecs := omap ParseJingleVideoCodec (all_named QN_JINGLE_RTP_PAYLOADTYPE content_elem) in
  d ← ParseJingleEncryption content_elem (ParseBandwidth content_elem (ParseJingleSsrc content_elem new_media));
  Good (Video (mkVideo d codecs)).

Definition ParseContent (p : SignalingProtocol) (content_elem : XmlElement) : result ContentDescription :=
  if decide (p = PROTOCOL_GINGLE) then
    let content_type := Namespace (Name content_elem) in
    if decide (NS_GINGLE_AUDIO = content_type) then ParseGingleAudioContent content_elem
    else if decide (NS_GINGLE_VIDEO = content_type) then ParseGingleVideoContent content_elem
    else BadParse (str "Unknown content type: " ++ content_type)
  else
    media ← RequireXmlAttr content_elem QN_JINGLE_CONTENT_MEDIA;
    if decide (media = JINGLE_CONTENT_MEDIA_AUDIO) then ParseJingleAudioContent content_elem
    else if decide (media = JINGLE_CONTENT_MEDIA_VIDEO) then ParseJingleVideoContent content_elem
    else BadParse (str "Unknown media: " ++ media).

(** ** Writing *)

Definition when {A} (b : bool) (f : A -> A) (a : A) : A := if b then f a else a.

Definition CreateGingleAudioCodecElem (codec : AudioCodec) : XmlElement :=
  let e := AddXmlAttr QN_ID (a_id codec) (new_default QN_GINGLE_AUDIO_PAYLOADTYPE true) in
  let e := AddAttr QN_NAME (a_name codec) e in
  let e := when (0 <? clockrate codec) (AddXmlAttr QN_CLOCKRATE (clockrate codec)) e in
  let e := when (0 <? bitrate codec) (AddXmlAttr QN_BITRATE (bitrate codec)) e in
  when (1 <? channels codec) (AddXmlAttr QN_CHANNELS (channels codec)) e.
Definition CreateGingleVideoCodecElem (codec : VideoCodec) : XmlElement :=
  let e := AddXmlAttr QN_ID (v_id codec) (new_default QN_GINGLE_VIDEO_PAYLOADTYPE true) in
  let e := AddAttr QN_NAME (v_name codec) e in
  let e := AddXmlAttr QN_WIDTH (width codec) e in
  let e := AddXmlAttr QN_HEIGHT (height codec) e in
  AddXmlAttr QN_FRAMERATE (framerate codec) e.
Definition CreateGingleSsrcElem (name : QName) (ssrc : Z) : XmlElement :=
  when (negb (ssrc =? 0)) (SetXmlBody ssrc) (new_default name true).
Definition CreateBandwidthElem (name : QName) (bps : Z) : XmlElement :=
  SetXmlBody (Z.quot bps 1000) (AddAttr QN_TYPE (str "AS") (new_element name)).
Definition CreateCryptoElem (p : Srtp.CryptoParams) : XmlElement :=
  let e := AddXmlAttr QN_CRYPTO_TAG (Srtp.tag p) (new_element QN_CRYPTO) in
  let e := AddAttr QN_CRYPTO_SUITE (Srtp.cipher_suite p) e in
  let e := AddAttr QN_CRYPTO_KEY_PARAMS (Srtp.key_params p) e in
  when (negb (bool_decide (Srtp.session_params p = []))) (AddAttr QN_CRYPTO_SESSION_PARAMS (Srtp.session_params p)) e.
Definition CreateJingleEncryptionElem (cryptos : list Srtp.CryptoParams) (required : bool) : XmlElement :=
  let e := when required (SetAttr QN_ENCRYPTION_REQUIRED (str "true")) (new_element QN_ENCRYPTION) in
  AddXmlChildren e (map CreateCryptoElem cryptos).
Definition CreateGingleEncryptionElem (cryptos : list Srtp.CryptoParams) (usage_qname : QName) (required : bool) : XmlElement :=
  let e := CreateJingleEncryptionElem cryptos required in
  let e := when required (SetAttr QN_ENCRYPTION_REQUIRED (str "true")) e in
  AddElement (new_element usage_qname) e.

Definition CreateGingleAudioContentElem (a : AudioContentDescription) (crypto_required : bool) : XmlElement :=
  let e := AddXmlChildren (new_default QN_GINGLE_AUDIO_CONTENT true) (map CreateGingleAudioCodecElem (a_codecs a)) in
  let e := when (ssrc_set_ (a_media a)) (AddElement (CreateGingleSsrcElem QN_GINGLE_AUDIO_SRCID (ssrc_ (a_media a)))) e in
  when (negb (bool_decide (cryptos_ (a_media a) = [])))
    (AddElement (CreateGingleEncryptionElem (cryptos_ (a_media a)) QN_GINGLE_AUDIO_CRYPTO_USAGE crypto_required)) e.
Definition CreateGingleVideoContentElem (v : VideoContentDescription) (crypto_required : bool) : XmlElement :=
  let e := AddXmlChildren (new_default QN_GINGLE_VIDEO_CONTENT true) (map CreateGingleVideoCodecElem (v_codecs v)) in
  let e := when (ssrc_set_ (v_media v)) (AddElement (CreateGingleSsrcElem QN_GINGLE_VIDEO_SRCID (ssrc_ (v_media v)))) e in
  let e := when (negb (bandwidth_ (v_media v) =? kAutoBandwidth))
             (AddElement (CreateBandwidthElem QN_GINGLE_VIDEO_BANDWIDTH (bandwidth_ (v_media v)))) e in
  when (negb (bool_decide (cryptos_ (v_media v) = [])))
    (AddElement (CreateGingleEncryptionElem (cryptos_ (v_media v)) QN_GINGLE_VIDEO_CRYPTO_USAGE crypto_required)) e.

Definition CreatePayloadTypeParameterElem (name : bytes) (value : Z) : XmlElement :=
  AddXmlAttr QN_PAYLOADTYPE_PARAMETER_VALUE value (AddAttr QN_PAYLOADTYPE_PARAMETER_NAME name (new_element QN_PARAMETER)).
Definition CreateJingleAudioCodecElem (codec : AudioCodec) : XmlElement :=
  let e := AddXmlAttr QN_ID (a_id codec) (new_element QN_JINGLE_RTP_PAYLOADTYPE) in
  let e := AddAttr QN_NAME (a_name codec) e in
  let e := when (0 <? clockrate codec) (AddXmlAttr QN_CLOCKRATE (clockrate codec)) e in
  let e := when (0 <? bitrate codec) (AddElement (CreatePayloadTypeParameterElem PAYLOADTYPE_PARAMETER_BITRATE (bitrate codec))) e in
  when (1 <? channels codec) (AddXmlAttr QN_CHANNELS (channels codec)) e.
Definition CreateJingleVideoCodecElem (codec : VideoCodec) : XmlElement :=
  let e := AddXmlAttr QN_ID (v_id codec) (new_element QN_JINGLE_RTP_PAYLOADTYPE) in
  let e := AddAttr QN_NAME (v_name codec) e in
  let e := AddElement (CreatePayloadTypeParameterElem PAYLOADTYPE_PARAMETER_WIDTH (width codec)) e in
  let e := AddElement (CreatePayloadTypeParameterElem PAYLOADTYPE_PARAMETER_HEIGHT (height codec)) e in
  AddElement (CreatePayloadTypeParameterElem PAYLOADTYPE_PARAMETER_FRAMERATE (framerate codec)) e.
Definition WriteJingleSsrc (d : MediaContentDescription) (e : XmlElement) : XmlElement :=
  when (ssrc_set_ d && negb (ssrc_ d =? 0)) (AddXmlAttr QN_JINGLE_SSRC (ssrc_ d)) e.
Definition CreateJingleAudioContentElem (a : AudioContentDescription) (crypto_required : bool) : XmlElement :=
  let e := SetAttr QN_JINGLE_CONTENT_MEDIA JINGLE_CONTENT_MEDIA_AUDIO (new_default QN_JINGLE_RTP_CONTENT true) in
  let e := AddXmlChildren (WriteJingleSsrc (a_media a) e) (map CreateJingleAudioCodecElem (a_codecs a)) in
  when (negb (bool_decide (cryptos_ (a_media a) = [])))
    (AddElement (CreateJingleEncryptionElem (cryptos_ (a_media a)) crypto_required)) e.
Definition CreateJingleVideoContentElem (v : VideoContentDescription) (crypto_required : bool) : XmlElement :=
  let e := SetAttr QN_JINGLE_CONTENT_MEDIA JINGLE_CONTENT_MEDIA_VIDEO (new_default QN_JINGLE_RTP_CONTENT true) in
  let e := AddXmlChildren (WriteJingleSsrc (v_media v) e) (map CreateJingleVideoCodecElem (v_codecs v)) in
  let e := when (negb (bool_decide (cryptos_ (v_media v) = [])))
             (AddElement (CreateJingleEncryptionElem (cryptos_ (v_media v)) crypto_required)) e in
  when (negb (bandwidth_ (v_media v) =? kAutoBandwidth))
    (AddElement (CreateBandwidthElem QN_JINGLE_RTP_BANDWIDTH (bandwidth_ (v_media v)))) e.

(** What the user allows without SRTP. *)
Inductive SecureMediaPolicy := SEC_DISABLED | SEC_ENABLED | SEC_REQUIRED.
#[export] Instance SecureMediaPolicy_eq_dec : EqDecision SecureMediaPolicy.
Proof. solve_decision. Defined.

Definition WriteContent (secure : SecureMediaPolicy) (p : SignalingProtocol) (d : ContentDescription) : result XmlElement :=
  let crypto_required := bool_decide (secure = SEC_REQUIRED) in
  Good (match d with
        | Audio a => if decide (p = PROTOCOL_GINGLE) then CreateGingleAudioContentElem a crypto_required
                     else CreateJingleAudioContentElem a crypto_required
        | Video v => if decide (p = PROTOCOL_GINGLE) then CreateGingleVideoContentElem v crypto_required
                     else CreateJingleVideoContentElem v crypto_required
        end).
Definition MediaParser (secure : SecureMediaPolicy) : ContentParser ContentDescription :=
  mkContentParser ParseContent (WriteContent secure).
End Media.
