(* ===== verification/MediaRead.v ===== *)
(** * Media descriptions that are written and read

    What a client of calls is told of a description in either syntax, and the
    proof that [MediaSessionClient] keeps the promises of [ContentLaws] and
    [MediaLaws] that the messages of sessions rely on. *)

From S2P Require Import Prelude Numbers ByteOrder Xml SessionMessages MediaFilters P2PTransport MediaSession.
Import ByteOrder Xml Const Messages MediaConst Media.
#[local] Open Scope jingle_scope.

Module MediaRead.

(** ** What is told *)

(** Numbers that are not positive are left out, and read as the default; the
    preference and the parameters of a codec are not said, and a codec with a
    negative id is not taken. *)
Definition told_audio (c : AudioCodec) : AudioCodec :=
  make_audio (a_id c) (a_name c) (if 0 <? clockrate c then clockrate c else 0) (if 0 <? bitrate c then bitrate c else 0)
    (if 1 <? channels c then channels c else 1) 0.
Definition told_video (c : VideoCodec) : VideoCodec := make_video (v_id c) (v_name c) (width c) (height c) (framerate c) 0.
Definition told_audios (l : list AudioCodec) : list AudioCodec := map told_audio (List.filter (fun c => 0 <=? a_id c) l).
Definition told_videos (l : list VideoCodec) : list VideoCodec := map told_video (List.filter (fun c => 0 <=? v_id c) l).
(** Bandwidth is said in thousands of bits. *)
Definition told_bandwidth (bps : Z) : Z :=
  if bps =? kAutoBandwidth then kAutoBandwidth
  else if 0 <=? Z.quot bps 1000 then Z.quot bps 1000 * 1000 else kAutoBandwidth.
(** Jingle does not say an SSRC of 0; whether keys are required is the policy of
    the client that writes, and said with the keys. *)
Definition told_media (required : bool) (p : SignalingProtocol) (bandwidth : Z) (d : MediaContentDescription) : MediaContentDescription :=
  let said := ssrc_set_ d && (bool_decide (p = PROTOCOL_GINGLE) || negb (ssrc_ d =? 0)) in
  mkMedia (if said then ssrc_ d else 0) said false bandwidth (cryptos_ d) (negb (bool_decide (cryptos_ d = [])) && required) [] false.
Definition told_description (required : bool) (p : SignalingProtocol) (d : ContentDescription) : ContentDescription :=
  match d with
  | Audio a => Audio (mkAudio (told_media required p kAutoBandwidth (a_media a)) (told_audios (a_codecs a)) false [])
  | Video v => Video (mkVideo (told_media required p (told_bandwidth (bandwidth_ (v_media v))) (v_media v)) (told_videos (v_codecs v)))
  end.

(** The numbers fit their types. *)
Definition media_ok (d : MediaContentDescription) : Prop :=
  is_u32 (ssrc_ d) /\ Num.is_s32 (bandwidth_ d) /\ Forall (fun p => Num.is_s32 (Srtp.tag p)) (cryptos_ d).
Definition audio_ok (c : AudioCodec) : Prop :=
  Num.is_s32 (a_id c) /\ Num.is_s32 (clockrate c) /\ Num.is_s32 (bitrate c) /\ Num.is_s32 (channels c).
Definition video_ok (c : VideoCodec) : Prop :=
  Num.is_s32 (v_id c) /\ Num.is_s32 (width c) /\ Num.is_s32 (height c) /\ Num.is_s32 (framerate c).
Definition description_ok (d : ContentDescription) : Prop :=
  media_ok (media d) /\
  match d with Audio a => Forall audio_ok (a_codecs a) | Video v => Forall video_ok (v_codecs v) end.

(** ** Attributes with numbers *)

Lemma int_attr name def e z : Attr name e = Num.ToString z -> Num.is_s32 z -> GetXmlAttr_int name def e = z.
Proof.
  intros E Hz. unfold GetXmlAttr_int. rewrite E. rewrite decide_False by apply Num.ToString_nonempty. by apply Num.atoi_ToString.
Qed.
Lemma int_attr_opt (b : bool) name def e z :
  Attr name e = (if b then Num.ToString z else []) -> Num.is_s32 z -> GetXmlAttr_int name def e = if b then z else def.
Proof. destruct b; [apply int_attr|]. intros E _. unfold GetXmlAttr_int. by rewrite E, decide_True. Qed.
Lemma text_attr name e v : Attr name e = v -> GetXmlAttr name [] e = v.
Proof. intros <-. unfold GetXmlAttr. by case_decide. Qed.

Lemma when_if {A B} (b : bool) (f : A -> A) (g : A -> B) a : g (when b f a) = if b then g (f a) else g a.
Proof. by destruct b. Qed.

(** *** Codecs *)

Lemma gingle_audio_attrs id name clockrate bitrate channels b1 b2 b3 :
  let e := when b3 (AddAttr QN_CHANNELS channels) (when b2 (AddAttr QN_BITRATE bitrate) (when b1 (AddAttr QN_CLOCKRATE clockrate)
    (AddAttr QN_NAME name (AddAttr QN_ID id (new_default QN_GINGLE_AUDIO_PAYLOADTYPE true))))) in
  Name e = QN_GINGLE_AUDIO_PAYLOADTYPE /\ Attr QN_ID e = id /\ Attr QN_NAME e = name /\
  Attr QN_CLOCKRATE e = (if b1 then clockrate else []) /\ Attr QN_BITRATE e = (if b2 then bitrate else []) /\
  Attr QN_CHANNELS e = (if b3 then channels else []).
Proof. destruct b1, b2, b3; vm_compute; split_and!; reflexivity. Qed.
Lemma gingle_audio_codec c : audio_ok c ->
  Name (CreateGingleAudioCodecElem c) = QN_GINGLE_AUDIO_PAYLOADTYPE /\
  ParseGingleAudioCodec (CreateGingleAudioCodecElem c) = if 0 <=? a_id c then Some (told_audio c) else None.
Proof.
  intros (H1 & H2 & H3 & H4). unfold CreateGingleAudioCodecElem, AddXmlAttr.
  destruct (gingle_audio_attrs (Num.ToString (a_id c)) (a_name c) (Num.ToString (clockrate c)) (Num.ToString (bitrate c))
    (Num.ToString (channels c)) (0 <? clockrate c) (0 <? bitrate c) (1 <? channels c)) as (En & E1 & E2 & E3 & E4 & E5).
  set (e := when _ _ _) in *. clearbody e. split; [done|]. unfold ParseGingleAudioCodec.
  rewrite (int_attr _ _ _ _ E1 H1), (text_attr _ _ _ E2), (int_attr_opt _ _ _ _ _ E3 H2), (int_attr_opt _ _ _ _ _ E4 H3),
    (int_attr_opt _ _ _ _ _ E5 H4).
  rewrite Z.leb_antisym. by destruct (a_id c <? 0).
Qed.

Lemma gingle_video_attrs id name width height framerate :
  let e := AddAttr QN_FRAMERATE framerate (AddAttr QN_HEIGHT height (AddAttr QN_WIDTH width
    (AddAttr QN_NAME name (AddAttr QN_ID id (new_default QN_GINGLE_VIDEO_PAYLOADTYPE true))))) in
  Name e = QN_GINGLE_VIDEO_PAYLOADTYPE /\ Attr QN_ID e = id /\ Attr QN_NAME e = name /\
  Attr QN_WIDTH e = width /\ Attr QN_HEIGHT e = height /\ Attr QN_FRAMERATE e = framerate.
Proof. vm_compute; split_and!; reflexivity. Qed.
Lemma gingle_video_codec c : video_ok c ->
  Name (CreateGingleVideoCodecElem c) = QN_GINGLE_VIDEO_PAYLOADTYPE /\
  ParseGingleVideoCodec (CreateGingleVideoCodecElem c) = if 0 <=? v_id c then Some (told_video c) else None.
Proof.
  intros (H1 & H2 & H3 & H4). unfold CreateGingleVideoCodecElem, AddXmlAttr.
  destruct (gingle_video_attrs (Num.ToString (v_id c)) (v_name c) (Num.ToString (width c)) (Num.ToString (height c))
    (Num.ToString (framerate c))) as (En & E1 & E2 & E3 & E4 & E5).
  set (e := AddAttr _ _ _) in *. clearbody e. split; [done|]. unfold ParseGingleVideoCodec.
  rewrite (int_attr _ _ _ _ E1 H1), (text_attr _ _ _ E2), (int_attr _ _ _ _ E3 H2), (int_attr _ _ _ _ E4 H3), (int_attr _ _ _ _ E5 H4).
  rewrite Z.leb_antisym. by destruct (v_id c <? 0).
Qed.

(** A parameter is kept under its name. *)
Lemma parameter_facts name value :
  let e := CreatePayloadTypeParameterElem name value in
  Name e = QN_PARAMETER /\ Attr QN_PAYLOADTYPE_PARAMETER_NAME e = name /\ Attr QN_PAYLOADTYPE_PARAMETER_VALUE e = Num.ToString value.
Proof. unfold CreatePayloadTypeParameterElem, AddXmlAttr. generalize (Num.ToString value). intros v. vm_compute. by split_and!. Qed.
Lemma parameters_read (l : list (bytes * Z)) (m : gmap bytes bytes) :
  Forall (fun e => fst e <> [] /\ m !! fst e = None) l -> NoDup (map fst l) ->
  foldl add_parameter
    m (map (fun e => CreatePayloadTypeParameterElem (fst e) (snd e)) l) =
  foldl (fun m e => <[fst e := Num.ToString (snd e)]> m) m l.
Proof.
  revert m. induction l as [|[n v] l IH]; intros m Hm Hd; [done|]. cbn [map foldl fst snd].
  inversion Hm as [|? ? [Hn Hf] Hm']; subst. inversion Hd as [|? ? Hni Hd']; subst. cbn [fst] in *.
  destruct (parameter_facts n v) as (_ & En & Ev). unfold add_parameter at 2. cbv zeta. rewrite (text_attr _ _ _ En), (text_attr _ _ _ Ev).
  rewrite decide_False by (intros [?|?]; [done|by eapply Num.ToString_nonempty]). rewrite Hf. apply IH; [|done].
  rewrite Forall_forall in Hm' |- *. intros e He. destruct (Hm' e He) as [He1 He2]. split; [done|].
  rewrite lookup_insert_ne; [done|]. intros ->. apply Hni, list_elem_of_fmap. by exists e.
Qed.

Lemma jingle_audio_attrs id name clockrate channels b1 b2 b3 param :
  Name param = QN_PARAMETER ->
  let e := when b3 (AddAttr QN_CHANNELS channels) (when b2 (AddElement param) (when b1 (AddAttr QN_CLOCKRATE clockrate)
    (AddAttr QN_NAME name (AddAttr QN_ID id (new_element QN_JINGLE_RTP_PAYLOADTYPE))))) in
  Name e = QN_JINGLE_RTP_PAYLOADTYPE /\ Attr QN_ID e = id /\ Attr QN_NAME e = name /\
  Attr QN_CLOCKRATE e = (if b1 then clockrate else []) /\ Attr QN_CHANNELS e = (if b3 then channels else []) /\
  all_named QN_PARAMETER e = if b2 then [param] else [].
Proof.
  intros Hp. destruct b1, b2, b3; cbv zeta; (split; [reflexivity|]; split; [vm_compute; reflexivity|]; split; [vm_compute; reflexivity|];
    split; [vm_compute; reflexivity|]; split; [vm_compute; reflexivity|]); unfold all_named, when; cbn -[QN_PARAMETER]; rewrite ?filter_cons, ?filter_nil;
    try rewrite decide_True by done; done.
Qed.
Lemma jingle_audio_codec c : audio_ok c ->
  Name (CreateJingleAudioCodecElem c) = QN_JINGLE_RTP_PAYLOADTYPE /\
  ParseJingleAudioCodec (CreateJingleAudioCodecElem c) = if 0 <=? a_id c then Some (told_audio c) else None.
Proof.
  intros (H1 & H2 & H3 & H4). unfold CreateJingleAudioCodecElem, AddXmlAttr.
  destruct (jingle_audio_attrs (Num.ToString (a_id c)) (a_name c) (Num.ToString (clockrate c)) (Num.ToString (channels c))
    (0 <? clockrate c) (0 <? bitrate c) (1 <? channels c) (CreatePayloadTypeParameterElem PAYLOADTYPE_PARAMETER_BITRATE (bitrate c)))
    as (En & E1 & E2 & E3 & E4 & E5); [apply parameter_facts|].
  set (e := when _ _ _) in *. clearbody e. split; [done|]. unfold ParseJingleAudioCodec, ParsePayloadTypeParameters.
  rewrite (int_attr _ _ _ _ E1 H1), (text_attr _ _ _ E2), (int_attr_opt _ _ _ _ _ E3 H2), (int_attr_opt _ _ _ _ _ E4 H4), E5.
  assert (Hb : FindWithDefault (foldl add_parameter ∅
    (if 0 <? bitrate c then [CreatePayloadTypeParameterElem PAYLOADTYPE_PARAMETER_BITRATE (bitrate c)] else []))
    PAYLOADTYPE_PARAMETER_BITRATE 0 = if 0 <? bitrate c then bitrate c else 0).
  { destruct (0 <? bitrate c); [|done].
    pose proof (parameters_read [(PAYLOADTYPE_PARAMETER_BITRATE, bitrate c)] ∅) as Hr. cbn [map fst snd] in Hr.
    rewrite Hr; [|apply Forall_singleton; split; [done|apply lookup_empty]|apply NoDup_singleton]. cbn [foldl fst snd].
    unfold FindWithDefault. rewrite lookup_insert_eq. by apply Num.atoi_ToString. }
  rewrite Hb. rewrite Z.leb_antisym. by destruct (a_id c <? 0).
Qed.

Lemma jingle_video_attrs id name ps :
  Forall (fun p => Name p = QN_PARAMETER) ps ->
  let e := AddXmlChildren (AddAttr QN_NAME name (AddAttr QN_ID id (new_element QN_JINGLE_RTP_PAYLOADTYPE))) ps in
  Name e = QN_JINGLE_RTP_PAYLOADTYPE /\ Attr QN_ID e = id /\ Attr QN_NAME e = name /\ all_named QN_PARAMETER e = ps.
Proof.
  intros Hp. cbv zeta. rewrite Name_AddXmlChildren, !Attr_AddXmlChildren. split_and!; [reflexivity|vm_compute; reflexivity..|].
  unfold all_named. rewrite elements_AddXmlChildren. by apply filter_all.
Qed.
Lemma jingle_video_codec c : video_ok c ->
  Name (CreateJingleVideoCodecElem c) = QN_JINGLE_RTP_PAYLOADTYPE /\
  ParseJingleVideoCodec (CreateJingleVideoCodecElem c) = if 0 <=? v_id c then Some (told_video c) else None.
Proof.
  intros (H1 & H2 & H3 & H4). unfold CreateJingleVideoCodecElem, AddXmlAttr.
  set (l := [(PAYLOADTYPE_PARAMETER_WIDTH, width c); (PAYLOADTYPE_PARAMETER_HEIGHT, height c); (PAYLOADTYPE_PARAMETER_FRAMERATE, framerate c)]).
  destruct (jingle_video_attrs (Num.ToString (v_id c)) (v_name c) (map (fun e => CreatePayloadTypeParameterElem (fst e) (snd e)) l))
    as (En & E1 & E2 & E3); [apply Forall_map, Forall_true; intros; apply parameter_facts|].
  change (AddElement _ _) with (AddXmlChildren (AddAttr QN_NAME (v_name c) (AddAttr QN_ID (Num.ToString (v_id c)) (new_element QN_JINGLE_RTP_PAYLOADTYPE)))
    (map (fun e => CreatePayloadTypeParameterElem (fst e) (snd e)) l)).
  set (e := AddXmlChildren _ _) in *. clearbody e. split; [done|]. unfold ParseJingleVideoCodec, ParsePayloadTypeParameters.
  rewrite (int_attr _ _ _ _ E1 H1), (text_attr _ _ _ E2), E3.
  rewrite (parameters_read l ∅); [|unfold l; rewrite !Forall_cons; split_and!; try done; by apply lookup_empty|refine (bool_decide_unpack _ _); vm_compute; exact I].
  unfold l, FindWithDefault. cbn [foldl fst snd].
  rewrite (lookup_insert_ne _ PAYLOADTYPE_PARAMETER_FRAMERATE PAYLOADTYPE_PARAMETER_WIDTH), (lookup_insert_ne _ PAYLOADTYPE_PARAMETER_HEIGHT PAYLOADTYPE_PARAMETER_WIDTH),
    lookup_insert_eq, (lookup_insert_ne _ PAYLOADTYPE_PARAMETER_FRAMERATE PAYLOADTYPE_PARAMETER_HEIGHT), lookup_insert_eq, lookup_insert_eq by done.
  rewrite !Num.atoi_ToString by done. rewrite Z.leb_antisym. by destruct (v_id c <? 0).
Qed.

(** ** Elements among others *)

Lemma filter_nothing {A} (P : A -> Prop) `{!forall a, Decision (P a)} l : Forall (fun a => ~ P a) l -> filter P l = [].
Proof. induction 1; [done|]. by rewrite filter_cons_False. Qed.
Lemma named_among n e pre l post :
  elements e = pre ++ l ++ post -> Forall (fun c => Name c <> n) pre -> Forall (fun c => Name c <> n) post ->
  all_named n e = filter (fun c => Name c = n) l.
Proof. intros He Hpre Hpost. unfold all_named. rewrite He, !filter_app, (filter_nothing _ pre), (filter_nothing _ post) by done. by rewrite app_nil_r. Qed.
Lemma omap_codecs {A B C} (parse : B -> option C) (create : A -> B) (told : A -> C) (taken : A -> bool) l :
  Forall (fun c => parse (create c) = if taken c then Some (told c) else None) l ->
  omap parse (map create l) = map told (List.filter taken l).
Proof. induction 1 as [|c l Hc _ IH]; [done|]. cbn. rewrite Hc. destruct (taken c); cbn; [f_equal|]; exact IH. Qed.

(** *** Keys *)

Lemma crypto_attrs (tag suite key session : bytes) (b : bool) :
  let e := when b (AddAttr QN_CRYPTO_SESSION_PARAMS session) (AddAttr QN_CRYPTO_KEY_PARAMS key (AddAttr QN_CRYPTO_SUITE suite
    (AddAttr QN_CRYPTO_TAG tag (new_element QN_CRYPTO)))) in
  Name e = QN_CRYPTO /\ HasAttr QN_CRYPTO_SUITE e = true /\ HasAttr QN_CRYPTO_KEY_PARAMS e = true /\ HasAttr QN_CRYPTO_TAG e = true /\
  Attr QN_CRYPTO_TAG e = tag /\ Attr QN_CRYPTO_SUITE e = suite /\ Attr QN_CRYPTO_KEY_PARAMS e = key /\
  Attr QN_CRYPTO_SESSION_PARAMS e = if b then session else [].
Proof. destruct b; vm_compute; split_and!; reflexivity. Qed.
Lemma crypto_read p : Num.is_s32 (Srtp.tag p) -> Name (CreateCryptoElem p) = QN_CRYPTO /\ ParseCryptoParams (CreateCryptoElem p) = Good p.
Proof.
  intros Ht. unfold CreateCryptoElem, AddXmlAttr.
  destruct (crypto_attrs (Num.ToString (Srtp.tag p)) (Srtp.cipher_suite p) (Srtp.key_params p) (Srtp.session_params p)
    (negb (bool_decide (Srtp.session_params p = [])))) as (En & H1 & H2 & H3 & E1 & E2 & E3 & E4).
  set (e := when _ _ _) in *. clearbody e. split; [done|]. unfold ParseCryptoParams.
  rewrite H1, H2, H3. cbn [negb]. rewrite (int_attr _ _ _ _ E1 Ht), E2, E3, E4. f_equal. destruct p as [t cs k sp]. cbn.
  f_equal. by destruct sp.
Qed.
Lemma cryptos_read l d : Forall (fun p => Num.is_s32 (Srtp.tag p)) l ->
  ParseCryptos (map CreateCryptoElem l) d = Good (d <| cryptos_ := cryptos_ d ++ l |>).
Proof.
  intros Hl. revert d. induction Hl as [|p l Hp _ IH]; intros d; cbn.
  - rewrite app_nil_r. by destruct d.
  - destruct (crypto_read p Hp) as [_ ->]. cbn. rewrite IH. destruct d. cbn. by rewrite <- app_assoc.
Qed.
Lemma encryption_facts l (required : bool) :
  let e := CreateJingleEncryptionElem l required in
  Name e = QN_ENCRYPTION /\ elements e = map CreateCryptoElem l /\ GetXmlAttr_bool QN_ENCRYPTION_REQUIRED false e = required.
Proof.
  cbv zeta. unfold CreateJingleEncryptionElem, GetXmlAttr_bool. rewrite Name_AddXmlChildren, elements_AddXmlChildren, Attr_AddXmlChildren.
  by destruct required.
Qed.
Lemma encryption_read e l required d :
  elements e = map CreateCryptoElem l \/ (exists u, Name u <> QN_CRYPTO /\ elements e = map CreateCryptoElem l ++ [u]) ->
  GetXmlAttr_bool QN_ENCRYPTION_REQUIRED false e = required -> Forall (fun p => Num.is_s32 (Srtp.tag p)) l ->
  ParseEncryption e d = Good (d <| crypto_required_ := required |> <| cryptos_ := cryptos_ d ++ l |>).
Proof.
  intros He Hr Hl. unfold ParseEncryption. rewrite Hr.
  assert (all_named QN_CRYPTO e = map CreateCryptoElem l) as ->.
  { assert (filter (fun c => Name c = QN_CRYPTO) (map CreateCryptoElem l) = map CreateCryptoElem l) as Hf.
    { apply filter_all, Forall_map. eapply Forall_impl; [exact Hl|]. intros p Hp. by apply crypto_read. }
    unfold all_named. destruct He as [-> | (u & Hu & ->)]; [done|]. rewrite filter_app, Hf, filter_cons_False by done. by rewrite filter_nil, app_nil_r. }
  rewrite cryptos_read by done. by destruct d.
Qed.
(** The keys that are written, if any, as a list of elements. *)
Definition key_elems (d : MediaContentDescription) (e : XmlElement) : list XmlElement := if decide (cryptos_ d = []) then [] else [e].
Lemma keys_told (required : bool) p bandwidth d (said : bool) n :
  n = mkMedia (if said then ssrc_ d else 0) said false bandwidth [] false [] false ->
  said = ssrc_set_ d && (bool_decide (p = PROTOCOL_GINGLE) || negb (ssrc_ d =? 0)) ->
  (if decide (cryptos_ d = []) then n else n <| crypto_required_ := required |> <| cryptos_ := cryptos_ n ++ cryptos_ d |>) =
  told_media required p bandwidth d.
Proof.
  intros -> ->. unfold told_media. case_decide as Hc.
  - by rewrite Hc.
  - rewrite (bool_decide_false (cryptos_ d = [])) by done. done.
Qed.
Lemma jingle_keys e pre post d required n :
  Forall (fun c => Name c <> QN_ENCRYPTION) pre -> Forall (fun c => Name c <> QN_ENCRYPTION) post ->
  elements e = pre ++ key_elems d (CreateJingleEncryptionElem (cryptos_ d) required) ++ post ->
  Forall (fun p => Num.is_s32 (Srtp.tag p)) (cryptos_ d) ->
  ParseJingleEncryption e n =
    Good (if decide (cryptos_ d = []) then n else n <| crypto_required_ := required |> <| cryptos_ := cryptos_ n ++ cryptos_ d |>).
Proof.
  intros Hpre Hpost He Ht. unfold ParseJingleEncryption, FirstNamed. rewrite (named_among _ _ _ _ _ He Hpre Hpost). unfold key_elems.
  case_decide as Hc; [done|]. destruct (encryption_facts (cryptos_ d) required) as (En & Ee & Er).
  rewrite filter_cons_True by done. cbn. eapply encryption_read; [by left|done|done].
Qed.
Lemma gingle_encryption_facts l usage (required : bool) :
  let e := CreateGingleEncryptionElem l usage required in
  Name e = QN_ENCRYPTION /\ elements e = map CreateCryptoElem l ++ [new_element usage] /\
  GetXmlAttr_bool QN_ENCRYPTION_REQUIRED false e = required.
Proof.
  cbv zeta. destruct (encryption_facts l required) as (En & Ee & Er). unfold CreateGingleEncryptionElem, GetXmlAttr_bool in *.
  rewrite Name_AddElement, elements_AddElement, Attr_AddElement. destruct required; cbn [when].
  - rewrite Name_SetAttr, elements_SetAttr, Attr_SetAttr, En, Ee. by names.
  - by rewrite En, Ee.
Qed.
(** An encryption element for another use is passed over. *)
Definition not_used (usage : QName) (c : XmlElement) : Prop := Name c = QN_ENCRYPTION -> FirstNamed usage c = None.
Lemma gingle_keys e pre post usage d required n :
  usage <> QN_CRYPTO -> Forall (not_used usage) pre -> Forall (not_used usage) post ->
  elements e = pre ++ key_elems d (CreateGingleEncryptionElem (cryptos_ d) usage required) ++ post ->
  Forall (fun p => Num.is_s32 (Srtp.tag p)) (cryptos_ d) ->
  ParseGingleEncryption e usage n =
    Good (if decide (cryptos_ d = []) then n else n <| crypto_required_ := required |> <| cryptos_ := cryptos_ n ++ cryptos_ d |>).
Proof.
  intros Hu Hpre Hpost He Ht. unfold ParseGingleEncryption.
  assert (Hno : forall l, Forall (not_used usage) l ->
    filter (fun e => is_Some (FirstNamed usage e)) (filter (fun c => Name c = QN_ENCRYPTION) l) = []).
  { intros l Hl. apply filter_nothing. apply Forall_forall. intros c [Hc Hin]%list_elem_of_filter.
    rewrite Forall_forall in Hl. rewrite (Hl c Hin Hc). by intros []. }
  unfold all_named at 1. rewrite He, !filter_app, (Hno pre), (Hno post) by done. rewrite app_nil_r. unfold key_elems.
  case_decide as Hc; [done|]. destruct (gingle_encryption_facts (cryptos_ d) usage required) as (Gn & Ge & Gr).
  set (enc := CreateGingleEncryptionElem (cryptos_ d) usage required) in *.
  assert (FirstNamed usage enc = Some (new_element usage)) as Hf.
  { unfold FirstNamed, all_named. rewrite Ge, filter_app, filter_nothing.
    - rewrite app_nil_l. by rewrite filter_cons_True.
    - apply Forall_map. eapply Forall_impl; [exact Ht|]. intros p Hp. destruct (crypto_read p Hp) as [-> _]. congruence. }
  rewrite filter_cons_True by done. rewrite filter_nil, filter_cons_True by (by rewrite Hf). cbn [head].
  eapply encryption_read; [right; exists (new_element usage); split; [exact Hu|exact Ge]|exact Gr|exact Ht].
Qed.

(** *** SSRC and bandwidth *)

Lemma ssrc_text ssrc : is_u32 ssrc -> parse_ssrc (if ssrc =? 0 then [] else Num.ToString ssrc) = ssrc.
Proof.
  intros Hs. unfold parse_ssrc. destruct (ssrc =? 0) eqn:E; [apply Z.eqb_eq in E; by subst|]. by rewrite Num.extract_uint32_ToString.
Qed.
Lemma SetXmlBody_text z e : children_ e = [] -> BodyText (SetXmlBody z e) = Num.ToString z /\ Name (SetXmlBody z e) = Name e.
Proof.
  intros He. unfold SetXmlBody, SetBodyText. rewrite decide_False by apply Num.ToString_nonempty. rewrite He. unfold AddText, BodyText.
  rewrite decide_False by apply Num.ToString_nonempty. destruct e as [n a c cd]. cbn in *. by subst.
Qed.
Lemma ssrc_elem name ssrc : is_u32 ssrc ->
  Name (CreateGingleSsrcElem name ssrc) = name /\ parse_ssrc (BodyText (CreateGingleSsrcElem name ssrc)) = ssrc.
Proof.
  intros Hs. pose proof (ssrc_text ssrc Hs) as Ht. unfold CreateGingleSsrcElem. destruct (ssrc =? 0) eqn:E; cbn [negb when]; [done|].
  destruct (SetXmlBody_text ssrc (new_default name true) eq_refl) as [-> ->]. done.
Qed.
Lemma gingle_ssrc e pre post name d :
  is_u32 (ssrc_ d) -> Forall (fun c => Name c <> name) pre -> Forall (fun c => Name c <> name) post ->
  elements e = pre ++ (if ssrc_set_ d then [CreateGingleSsrcElem name (ssrc_ d)] else []) ++ post ->
  ParseGingleSsrc e name new_media = mkMedia (if ssrc_set_ d then ssrc_ d else 0) (ssrc_set_ d) false kAutoBandwidth [] false [] false.
Proof.
  intros Hs Hpre Hpost He. unfold ParseGingleSsrc, FirstNamed. rewrite (named_among _ _ _ _ _ He Hpre Hpost).
  destruct (ssrc_elem name (ssrc_ d) Hs) as [Hn Hb]. destruct (ssrc_set_ d); [|done].
  rewrite filter_cons_True by done. cbn [head]. by rewrite Hb.
Qed.
Lemma bandwidth_elem name bps : Num.is_s32 bps ->
  Name (CreateBandwidthElem name bps) = name /\
  Num.extract_int 0 (BodyText (CreateBandwidthElem name bps)) = (Z.quot bps 1000, true).
Proof.
  intros Hb. unfold CreateBandwidthElem.
  destruct (SetXmlBody_text (Z.quot bps 1000) (AddAttr QN_TYPE (str "AS") (new_element name)) eq_refl) as [-> ->]. split; [done|].
  apply Num.extract_int_ToString. unfold Num.is_s32 in *. Z.quot_rem_to_equations. lia.
Qed.
Lemma bandwidth_read e pre post name bps n :
  LocalPart name = LN_BANDWIDTH -> Num.is_s32 bps -> bandwidth_ n = kAutoBandwidth ->
  Forall (fun c => LocalPart (Name c) <> LN_BANDWIDTH) pre -> Forall (fun c => LocalPart (Name c) <> LN_BANDWIDTH) post ->
  elements e = pre ++ (if bps =? kAutoBandwidth then [] else [CreateBandwidthElem name bps]) ++ post ->
  ParseBandwidth e n = n <| bandwidth_ := told_bandwidth bps |>.
Proof.
  intros Hl Hb Hn Hpre Hpost He. unfold ParseBandwidth, GetXmlChild.
  rewrite He, !filter_app, (filter_nothing _ pre), (filter_nothing _ post) by done. rewrite app_nil_r, app_nil_l.
  destruct (bandwidth_elem name bps Hb) as [Hen Hx]. unfold told_bandwidth. destruct (bps =? kAutoBandwidth) eqn:E.
  - rewrite filter_nil. cbn. rewrite <- Hn. by destruct n.
  - rewrite filter_cons_True by (by rewrite Hen). cbn [head]. rewrite Hx. cbn [andb]. destruct (0 <=? Z.quot bps 1000) eqn:E0.
    + rewrite s32_small; [done|]. unfold Num.is_s32 in Hb. Z.quot_rem_to_equations. lia.
    + rewrite <- Hn. by destruct n.
Qed.

Lemma named_other n m l : Forall (fun c => Name c = n) l -> n <> m -> Forall (fun c => Name c <> m) l.
Proof. intros Hl Hn. eapply Forall_impl; [exact Hl|]. cbn. intros c Hc. by rewrite Hc. Qed.
Lemma named_local n m l : Forall (fun c => Name c = n) l -> LocalPart n <> m -> Forall (fun c => LocalPart (Name c) <> m) l.
Proof. intros Hl Hn. eapply Forall_impl; [exact Hl|]. cbn. intros c Hc. by rewrite Hc. Qed.
Lemma named_not_used n usage l : Forall (fun c => Name c = n) l -> n <> QN_ENCRYPTION -> Forall (not_used usage) l.
Proof. intros Hl Hn. eapply Forall_impl; [exact Hl|]. intros c Hc He. cbn in Hc. by rewrite Hc in He. Qed.
Lemma gingle_audio_names l : Forall audio_ok l -> Forall (fun c => Name c = QN_GINGLE_AUDIO_PAYLOADTYPE) (map CreateGingleAudioCodecElem l).
Proof. intros Hl. apply Forall_map. eapply Forall_impl; [exact Hl|]. intros c Hc. by apply gingle_audio_codec. Qed.
Lemma gingle_video_names l : Forall video_ok l -> Forall (fun c => Name c = QN_GINGLE_VIDEO_PAYLOADTYPE) (map CreateGingleVideoCodecElem l).
Proof. intros Hl. apply Forall_map. eapply Forall_impl; [exact Hl|]. intros c Hc. by apply gingle_video_codec. Qed.
Lemma jingle_audio_names l : Forall audio_ok l -> Forall (fun c => Name c = QN_JINGLE_RTP_PAYLOADTYPE) (map CreateJingleAudioCodecElem l).
Proof. intros Hl. apply Forall_map. eapply Forall_impl; [exact Hl|]. intros c Hc. by apply jingle_audio_codec. Qed.
Lemma jingle_video_names l : Forall video_ok l -> Forall (fun c => Name c = QN_JINGLE_RTP_PAYLOADTYPE) (map CreateJingleVideoCodecElem l).
Proof. intros Hl. apply Forall_map. eapply Forall_impl; [exact Hl|]. intros c Hc. by apply jingle_video_codec. Qed.
Lemma ssrc_names (b : bool) name ssrc : is_u32 ssrc ->
  Forall (fun c => Name c = name) (if b then [CreateGingleSsrcElem name ssrc] else []).
Proof. intros Hs. destruct b; [|constructor]. apply Forall_singleton. by apply ssrc_elem. Qed.
Lemma bandwidth_names name bps : Num.is_s32 bps ->
  Forall (fun c => Name c = name) (if bps =? kAutoBandwidth then [] else [CreateBandwidthElem name bps]).
Proof. intros Hs. case_match; [constructor|]. apply Forall_singleton. by apply bandwidth_elem. Qed.
Lemma gingle_key_names d usage required :
  Forall (fun c => Name c = QN_ENCRYPTION) (key_elems d (CreateGingleEncryptionElem (cryptos_ d) usage required)).
Proof. unfold key_elems. case_decide; [constructor|]. apply Forall_singleton. by apply gingle_encryption_facts. Qed.
Lemma jingle_key_names d required :
  Forall (fun c => Name c = QN_ENCRYPTION) (key_elems d (CreateJingleEncryptionElem (cryptos_ d) required)).
Proof. unfold key_elems. case_decide; [constructor|]. apply Forall_singleton. by apply encryption_facts. Qed.
Lemma other_usage d usage usage' required : usage' <> usage -> usage' <> QN_CRYPTO -> Forall (fun p => Num.is_s32 (Srtp.tag p)) (cryptos_ d) ->
  Forall (not_used usage') (key_elems d (CreateGingleEncryptionElem (cryptos_ d) usage required)).
Proof.
  intros Hu Hc Ht. unfold key_elems. case_decide; [constructor|]. apply Forall_singleton. intros _.
  destruct (gingle_encryption_facts (cryptos_ d) usage required) as (_ & Ge & _). unfold FirstNamed, all_named.
  rewrite Ge, filter_nothing; [done|]. apply Forall_app. split; [|apply Forall_singleton; intros E; by apply Hu].
  apply Forall_map. eapply Forall_impl; [exact Ht|]. intros p Hp. destruct (crypto_read p Hp) as [-> _]. congruence.
Qed.

(** ** Whole contents *)

Lemma elements_when b c e : elements (when b (AddElement c) e) = elements e ++ (if b then [c] else []).
Proof. destruct b; cbn [when]; [apply elements_AddElement|by rewrite app_nil_r]. Qed.
Lemma Name_when b c e : Name (when b (AddElement c) e) = Name e.
Proof. destruct b; [apply Name_AddElement|done]. Qed.
Lemma Attr_when n b c e : Attr n (when b (AddElement c) e) = Attr n e.
Proof. destruct b; [apply Attr_AddElement|done]. Qed.
Lemma key_elems_if d e : (if negb (bool_decide (cryptos_ d = [])) then [e] else []) = key_elems d e.
Proof. unfold key_elems. case_bool_decide; by case_decide. Qed.

Section Contents.
Context (required : bool).

(** The children of the elements that are written. *)
Definition gingle_audio_parts (a : AudioContentDescription) : list XmlElement :=
  map CreateGingleAudioCodecElem (a_codecs a) ++
  (if ssrc_set_ (a_media a) then [CreateGingleSsrcElem QN_GINGLE_AUDIO_SRCID (ssrc_ (a_media a))] else []) ++
  key_elems (a_media a) (CreateGingleEncryptionElem (cryptos_ (a_media a)) QN_GINGLE_AUDIO_CRYPTO_USAGE required).
Definition gingle_video_parts (v : VideoContentDescription) : list XmlElement :=
  map CreateGingleVideoCodecElem (v_codecs v) ++
  (if ssrc_set_ (v_media v) then [CreateGingleSsrcElem QN_GINGLE_VIDEO_SRCID (ssrc_ (v_media v))] else []) ++
  (if bandwidth_ (v_media v) =? kAutoBandwidth then [] else [CreateBandwidthElem QN_GINGLE_VIDEO_BANDWIDTH (bandwidth_ (v_media v))]) ++
  key_elems (v_media v) (CreateGingleEncryptionElem (cryptos_ (v_media v)) QN_GINGLE_VIDEO_CRYPTO_USAGE required).

Lemma gingle_audio_elem a : let e := CreateGingleAudioContentElem a required in
  Name e = QN_GINGLE_AUDIO_CONTENT /\ elements e = gingle_audio_parts a.
Proof.
  cbv zeta. unfold CreateGingleAudioContentElem, gingle_audio_parts. rewrite !Name_when, !elements_when, Name_AddXmlChildren, elements_AddXmlChildren, key_elems_if.
  split; [done|]. by rewrite <- !app_assoc.
Qed.
Lemma gingle_video_elem v : let e := CreateGingleVideoContentElem v required in
  Name e = QN_GINGLE_VIDEO_CONTENT /\ elements e = gingle_video_parts v.
Proof.
  cbv zeta. unfold CreateGingleVideoContentElem, gingle_video_parts.
  rewrite !Name_when, !elements_when, Name_AddXmlChildren, elements_AddXmlChildren, key_elems_if.
  split; [done|]. rewrite <- !app_assoc. by destruct (bandwidth_ (v_media v) =? kAutoBandwidth).
Qed.

(** What the other content's elements are not taken for. *)
Definition audio_foreign (c : XmlElement) : Prop :=
  Name c <> QN_GINGLE_AUDIO_PAYLOADTYPE /\ Name c <> QN_GINGLE_AUDIO_SRCID /\ not_used QN_GINGLE_AUDIO_CRYPTO_USAGE c.
Definition video_foreign (c : XmlElement) : Prop :=
  Name c <> QN_GINGLE_VIDEO_PAYLOADTYPE /\ Name c <> QN_GINGLE_VIDEO_SRCID /\ LocalPart (Name c) <> LN_BANDWIDTH /\
  not_used QN_GINGLE_VIDEO_CRYPTO_USAGE c.

Lemma audio_foreign_facts l : Forall audio_foreign l ->
  Forall (fun c => Name c <> QN_GINGLE_AUDIO_PAYLOADTYPE) l /\ Forall (fun c => Name c <> QN_GINGLE_AUDIO_SRCID) l /\
  Forall (not_used QN_GINGLE_AUDIO_CRYPTO_USAGE) l.
Proof. intros Hl. rewrite <- !Forall_and. done. Qed.
Lemma video_foreign_facts l : Forall video_foreign l ->
  Forall (fun c => Name c <> QN_GINGLE_VIDEO_PAYLOADTYPE) l /\ Forall (fun c => Name c <> QN_GINGLE_VIDEO_SRCID) l /\
  Forall (fun c => LocalPart (Name c) <> LN_BANDWIDTH) l /\ Forall (not_used QN_GINGLE_VIDEO_CRYPTO_USAGE) l.
Proof. intros Hl. rewrite <- !Forall_and. done. Qed.

(** Elements around the ones that are looked for: each part has a name of its own. *)
Ltac apart := rewrite ?Forall_app; split_and?; first [done | by eapply named_other | by eapply named_local | by eapply named_not_used].
(** The place of a part among the children. *)
Ltac placed He := rewrite He, <- ?app_assoc; done.

Lemma first_of_parts e pre l post : elements e = pre ++ l ++ post -> l <> [] -> exists c, FirstElement e = Some c.
Proof. intros He Hl. unfold FirstElement. rewrite He. destruct pre as [|c ?]; [|by exists c]. destruct l as [|c ?]; [done|]. by exists c. Qed.

Lemma gingle_audio_read a pre post e :
  media_ok (a_media a) -> Forall audio_ok (a_codecs a) -> gingle_audio_parts a <> [] ->
  Forall audio_foreign pre -> Forall audio_foreign post -> elements e = pre ++ gingle_audio_parts a ++ post ->
  ParseGingleAudioContent e = Good (told_description required PROTOCOL_GINGLE (Audio a)).
Proof.
  intros (Hs & Hb & Ht) Hc Hne (P1 & P2 & P3)%audio_foreign_facts (Q1 & Q2 & Q3)%audio_foreign_facts He.
  destruct (first_of_parts e _ _ _ He Hne) as [c Hfe]. unfold gingle_audio_parts in He.
  pose proof (gingle_audio_names _ Hc) as Nc. pose proof (ssrc_names (ssrc_set_ (a_media a)) QN_GINGLE_AUDIO_SRCID _ Hs) as Ns.
  pose proof (gingle_key_names (a_media a) QN_GINGLE_AUDIO_CRYPTO_USAGE required) as Nk.
  set (cs := map CreateGingleAudioCodecElem _) in *. set (ss := if ssrc_set_ _ then _ else _) in *. set (ks := key_elems _ _) in *.
  unfold ParseGingleAudioContent. rewrite Hfe. cbv zeta.
  rewrite (named_among QN_GINGLE_AUDIO_PAYLOADTYPE e pre cs (ss ++ ks ++ post)); [|placed He|done|apart].
  rewrite filter_all by done. unfold cs at 1.
  rewrite (omap_codecs _ _ told_audio (fun c => 0 <=? a_id c)) by (eapply Forall_impl; [exact Hc|]; intros; by apply gingle_audio_codec).
  rewrite (gingle_ssrc e (pre ++ cs) (ks ++ post) QN_GINGLE_AUDIO_SRCID (a_media a) Hs); [|apart|apart|placed He].
  rewrite (gingle_keys e (pre ++ cs ++ ss) post QN_GINGLE_AUDIO_CRYPTO_USAGE (a_media a) required); [|done|apart|done|placed He|done].
  cbn [mbind result_bind].
  rewrite (keys_told required PROTOCOL_GINGLE kAutoBandwidth (a_media a) (ssrc_set_ (a_media a))) by (by rewrite ?andb_true_r). done.
Qed.
Lemma gingle_video_read v pre post e :
  media_ok (v_media v) -> Forall video_ok (v_codecs v) ->
  Forall video_foreign pre -> Forall video_foreign post -> elements e = pre ++ gingle_video_parts v ++ post ->
  ParseGingleVideoContent e = Good (told_description required PROTOCOL_GINGLE (Video v)).
Proof.
  intros (Hs & Hb & Ht) Hc (P1 & P2 & P3 & P4)%video_foreign_facts (Q1 & Q2 & Q3 & Q4)%video_foreign_facts He.
  unfold gingle_video_parts in He.
  pose proof (gingle_video_names _ Hc) as Nc. pose proof (ssrc_names (ssrc_set_ (v_media v)) QN_GINGLE_VIDEO_SRCID _ Hs) as Ns.
  pose proof (bandwidth_names QN_GINGLE_VIDEO_BANDWIDTH _ Hb) as Nb.
  pose proof (gingle_key_names (v_media v) QN_GINGLE_VIDEO_CRYPTO_USAGE required) as Nk.
  set (cs := map CreateGingleVideoCodecElem _) in *. set (ss := if ssrc_set_ _ then _ else _) in *. set (ks := key_elems _ _) in *.
  set (bs := if _ =? _ then _ else _) in *.
  unfold ParseGingleVideoContent. cbv zeta.
  rewrite (named_among QN_GINGLE_VIDEO_PAYLOADTYPE e pre cs (ss ++ bs ++ ks ++ post)); [|placed He|done|apart].
  rewrite filter_all by done. unfold cs at 1.
  rewrite (omap_codecs _ _ told_video (fun c => 0 <=? v_id c)) by (eapply Forall_impl; [exact Hc|]; intros; by apply gingle_video_codec).
  rewrite (gingle_ssrc e (pre ++ cs) (bs ++ ks ++ post) QN_GINGLE_VIDEO_SRCID (v_media v) Hs); [|apart|apart|placed He].
  rewrite (bandwidth_read e (pre ++ cs ++ ss) (ks ++ post) QN_GINGLE_VIDEO_BANDWIDTH (bandwidth_ (v_media v))); [|done|done|done|apart|apart|placed He].
  rewrite (gingle_keys e (pre ++ cs ++ ss ++ bs) post QN_GINGLE_VIDEO_CRYPTO_USAGE (v_media v) required); [|done|apart|done|placed He|done].
  cbn [mbind result_bind]. unfold update_field. cbn.
  rewrite (keys_told required PROTOCOL_GINGLE (told_bandwidth (bandwidth_ (v_media v))) (v_media v) (ssrc_set_ (v_media v))) by (by rewrite ?andb_true_r). done.
Qed.

Lemma jingle_ssrc d e : is_u32 (ssrc_ d) ->
  Attr QN_JINGLE_SSRC e = (if ssrc_set_ d && negb (ssrc_ d =? 0) then Num.ToString (ssrc_ d) else []) ->
  let said := ssrc_set_ d && negb (ssrc_ d =? 0) in
  ParseJingleSsrc e new_media = mkMedia (if said then ssrc_ d else 0) said false kAutoBandwidth [] false [] false.
Proof.
  intros Hs He. cbv zeta. unfold ParseJingleSsrc. rewrite He. pose proof (ssrc_text _ Hs) as Ht.
  destruct (ssrc_set_ d); cbn [andb]; [|done]. destruct (ssrc_ d =? 0); cbn [negb] in *; [done|].
  rewrite decide_False by apply Num.ToString_nonempty. by rewrite Ht.
Qed.
Lemma jingle_head d kind l : let e := AddXmlChildren (WriteJingleSsrc d (SetAttr QN_JINGLE_CONTENT_MEDIA kind (new_default QN_JINGLE_RTP_CONTENT true))) l in
  Name e = QN_JINGLE_RTP_CONTENT /\ elements e = l /\ RequireXmlAttr e QN_JINGLE_CONTENT_MEDIA = Good kind /\
  Attr QN_JINGLE_SSRC e = if ssrc_set_ d && negb (ssrc_ d =? 0) then Num.ToString (ssrc_ d) else [].
Proof.
  cbv zeta. unfold RequireXmlAttr, WriteJingleSsrc, AddXmlAttr.
  rewrite Name_AddXmlChildren, elements_AddXmlChildren, HasAttr_AddXmlChildren, !Attr_AddXmlChildren.
  generalize (Num.ToString (ssrc_ d)). intros v. destruct (ssrc_set_ d && negb (ssrc_ d =? 0)); vm_compute; split_and!; reflexivity.
Qed.
Definition jingle_keys_of (d : MediaContentDescription) : list XmlElement := key_elems d (CreateJingleEncryptionElem (cryptos_ d) required).
Definition jingle_bandwidth (bps : Z) : list XmlElement :=
  if bps =? kAutoBandwidth then [] else [CreateBandwidthElem QN_JINGLE_RTP_BANDWIDTH bps].
Lemma require_when b c e n : RequireXmlAttr (when b (AddElement c) e) n = RequireXmlAttr e n.
Proof. destruct b; [|done]. cbn [when]. unfold RequireXmlAttr. by rewrite HasAttr_AddElement, Attr_AddElement, Name_AddElement. Qed.
Lemma jingle_audio_elem a : let e := CreateJingleAudioContentElem a required in
  Name e = QN_JINGLE_RTP_CONTENT /\ elements e = map CreateJingleAudioCodecElem (a_codecs a) ++ jingle_keys_of (a_media a) /\
  RequireXmlAttr e QN_JINGLE_CONTENT_MEDIA = Good JINGLE_CONTENT_MEDIA_AUDIO /\
  Attr QN_JINGLE_SSRC e = if ssrc_set_ (a_media a) && negb (ssrc_ (a_media a) =? 0) then Num.ToString (ssrc_ (a_media a)) else [].
Proof.
  cbv zeta. unfold CreateJingleAudioContentElem. cbv zeta. rewrite Name_when, elements_when, Attr_when, require_when, key_elems_if.
  destruct (jingle_head (a_media a) JINGLE_CONTENT_MEDIA_AUDIO (map CreateJingleAudioCodecElem (a_codecs a))) as (-> & -> & -> & ->). done.
Qed.
Lemma jingle_video_elem v : let e := CreateJingleVideoContentElem v required in
  Name e = QN_JINGLE_RTP_CONTENT /\
  elements e = map CreateJingleVideoCodecElem (v_codecs v) ++ jingle_keys_of (v_media v) ++ jingle_bandwidth (bandwidth_ (v_media v)) /\
  RequireXmlAttr e QN_JINGLE_CONTENT_MEDIA = Good JINGLE_CONTENT_MEDIA_VIDEO /\
  Attr QN_JINGLE_SSRC e = if ssrc_set_ (v_media v) && negb (ssrc_ (v_media v) =? 0) then Num.ToString (ssrc_ (v_media v)) else [].
Proof.
  cbv zeta. unfold CreateJingleVideoContentElem. cbv zeta. rewrite !Name_when, !elements_when, !Attr_when, !require_when, key_elems_if.
  destruct (jingle_head (v_media v) JINGLE_CONTENT_MEDIA_VIDEO (map CreateJingleVideoCodecElem (v_codecs v))) as (-> & -> & -> & ->).
  split_and!; try done. rewrite <- app_assoc. unfold jingle_bandwidth. by destruct (_ =? _).
Qed.

Lemma jingle_audio_read a : media_ok (a_media a) -> Forall audio_ok (a_codecs a) ->
  ParseJingleAudioContent (CreateJingleAudioContentElem a required) = Good (told_description required PROTOCOL_JINGLE (Audio a)).
Proof.
  intros (Hs & Hb & Ht) Hc. destruct (jingle_audio_elem a) as (_ & He & _ & Hss). set (e := CreateJingleAudioContentElem a required) in *. clearbody e.
  pose proof (jingle_audio_names _ Hc) as Nc. pose proof (jingle_key_names (a_media a) required) as Nk. fold (jingle_keys_of (a_media a)) in Nk.
  set (cs := map CreateJingleAudioCodecElem _) in *. unfold ParseJingleAudioContent. cbv zeta.
  rewrite (named_among QN_JINGLE_RTP_PAYLOADTYPE e [] cs (jingle_keys_of (a_media a))); [|placed He|constructor|apart].
  rewrite filter_all by done. unfold cs.
  rewrite (omap_codecs _ _ told_audio (fun c => 0 <=? a_id c)) by (eapply Forall_impl; [exact Hc|]; intros; by apply jingle_audio_codec).
  rewrite (jingle_ssrc (a_media a) e Hs Hss).
  rewrite (jingle_keys e cs [] (a_media a) required); [|apart|constructor|rewrite app_nil_r; placed He|done]. cbn [mbind result_bind].
  rewrite (keys_told required PROTOCOL_JINGLE kAutoBandwidth (a_media a) (ssrc_set_ (a_media a) && negb (ssrc_ (a_media a) =? 0))) by done. done.
Qed.
Lemma jingle_video_read v : media_ok (v_media v) -> Forall video_ok (v_codecs v) ->
  ParseJingleVideoContent (CreateJingleVideoContentElem v required) = Good (told_description required PROTOCOL_JINGLE (Video v)).
Proof.
  intros (Hs & Hb & Ht) Hc. destruct (jingle_video_elem v) as (_ & He & _ & Hss). set (e := CreateJingleVideoContentElem v required) in *. clearbody e.
  pose proof (jingle_video_names _ Hc) as Nc. pose proof (jingle_key_names (v_media v) required) as Nk. fold (jingle_keys_of (v_media v)) in Nk.
  pose proof (bandwidth_names QN_JINGLE_RTP_BANDWIDTH _ Hb) as Nb. fold (jingle_bandwidth (bandwidth_ (v_media v))) in Nb.
  set (cs := map CreateJingleVideoCodecElem _) in *. set (bs := jingle_bandwidth _) in *. set (ks := jingle_keys_of _) in *.
  unfold ParseJingleVideoContent. cbv zeta.
  rewrite (named_among QN_JINGLE_RTP_PAYLOADTYPE e [] cs (ks ++ bs)); [|placed He|constructor|apart].
  rewrite filter_all by done. unfold cs at 1.
  rewrite (omap_codecs _ _ told_video (fun c => 0 <=? v_id c)) by (eapply Forall_impl; [exact Hc|]; intros; by apply jingle_video_codec).
  rewrite (jingle_ssrc (v_media v) e Hs Hss).
  rewrite (bandwidth_read e (cs ++ ks) [] QN_JINGLE_RTP_BANDWIDTH (bandwidth_ (v_media v))); [|done|done|done|apart|constructor|rewrite app_nil_r; placed He].
  rewrite (jingle_keys e cs bs (v_media v) required); [|apart|apart|placed He|done].
  cbn [mbind result_bind]. unfold update_field. cbn.
  rewrite (keys_told required PROTOCOL_JINGLE (told_bandwidth (bandwidth_ (v_media v))) (v_media v) (ssrc_set_ (v_media v) && negb (ssrc_ (v_media v) =? 0))) by done. done.
Qed.

(** Neither content's elements are taken for the other's. *)
Lemma audio_parts_foreign a : media_ok (a_media a) -> Forall audio_ok (a_codecs a) -> Forall video_foreign (gingle_audio_parts a).
Proof.
  intros (Hs & _ & Ht) Hc. unfold video_foreign, gingle_audio_parts.
  pose proof (gingle_audio_names _ Hc) as Nc. pose proof (ssrc_names (ssrc_set_ (a_media a)) QN_GINGLE_AUDIO_SRCID _ Hs) as Ns.
  pose proof (gingle_key_names (a_media a) QN_GINGLE_AUDIO_CRYPTO_USAGE required) as Nk.
  pose proof (other_usage (a_media a) QN_GINGLE_AUDIO_CRYPTO_USAGE QN_GINGLE_VIDEO_CRYPTO_USAGE required ltac:(done) ltac:(done) Ht) as Nu.
  rewrite !Forall_and. split_and!; apart.
Qed.
Lemma video_parts_foreign v : media_ok (v_media v) -> Forall video_ok (v_codecs v) -> Forall audio_foreign (gingle_video_parts v).
Proof.
  intros (Hs & Hb & Ht) Hc. unfold audio_foreign, gingle_video_parts.
  pose proof (gingle_video_names _ Hc) as Nc. pose proof (ssrc_names (ssrc_set_ (v_media v)) QN_GINGLE_VIDEO_SRCID _ Hs) as Ns.
  pose proof (bandwidth_names QN_GINGLE_VIDEO_BANDWIDTH _ Hb) as Nb.
  pose proof (gingle_key_names (v_media v) QN_GINGLE_VIDEO_CRYPTO_USAGE required) as Nk.
  pose proof (other_usage (v_media v) QN_GINGLE_VIDEO_CRYPTO_USAGE QN_GINGLE_AUDIO_CRYPTO_USAGE required ltac:(done) ltac:(done) Ht) as Nu.
  rewrite !Forall_and. split_and!; apart.
Qed.
End Contents.

(** ** The promises to the messages of sessions *)

(** In Gingle audio has something to say: without elements it would be read as
    the codecs of an old client. *)
Definition speaks (d : ContentDescription) : Prop :=
  match d with
  | Audio a => a_codecs a <> [] \/ ssrc_set_ (a_media a) = true \/ cryptos_ (a_media a) <> []
  | Video _ => False
  end.
Definition is_video_description (d : ContentDescription) : Prop := match d with Audio _ => False | Video _ => True end.
Lemma audio_parts_speak required a : speaks (Audio a) -> gingle_audio_parts required a <> [].
Proof.
  unfold gingle_audio_parts, key_elems. intros [Hc | [Hs | Hk]].
  - by destruct (a_codecs a).
  - rewrite Hs. by destruct (map _ _).
  - rewrite decide_False by done. by destruct (map _ _), (ssrc_set_ _).
Qed.

(** What the users of the two parsers rely on; [secure] is the policy of the
    client that writes. *)
Definition media_reading `{Platform} (inet_aton : bytes -> option Z) (secure : SecureMediaPolicy) : Reading ContentDescription :=
  mkReading description_ok (told_description (bool_decide (secure = SEC_REQUIRED))) speaks is_video_description
    P2P.candidate_ok (P2P.heard_candidate inet_aton).

Section Laws.
Context `{Platform} (inet_aton : bytes -> option Z) (secure : SecureMediaPolicy).
Let required := bool_decide (secure = SEC_REQUIRED).

Lemma parse_jingle_audio e : RequireXmlAttr e QN_JINGLE_CONTENT_MEDIA = Good JINGLE_CONTENT_MEDIA_AUDIO ->
  Media.ParseContent PROTOCOL_JINGLE e = ParseJingleAudioContent e.
Proof. unfold Media.ParseContent. by intros ->. Qed.
Lemma parse_jingle_video e : RequireXmlAttr e QN_JINGLE_CONTENT_MEDIA = Good JINGLE_CONTENT_MEDIA_VIDEO ->
  Media.ParseContent PROTOCOL_JINGLE e = ParseJingleVideoContent e.
Proof. unfold Media.ParseContent. by intros ->. Qed.
#[export] Instance MediaParser_content : ContentLaws (media_reading inet_aton secure) (MediaParser secure) NS_JINGLE_RTP.
Proof.
  split; [|done]. intros [a|v] e [Hm Hd] [= <-].
  - destruct (jingle_audio_elem required a) as (Hn & _ & Hr & _). split; [exact Hn|].
    refine (eq_trans (parse_jingle_audio _ Hr) _). by apply jingle_audio_read.
  - destruct (jingle_video_elem required v) as (Hn & _ & Hr & _). split; [exact Hn|].
    refine (eq_trans (parse_jingle_video _ Hr) _). by apply jingle_video_read.
Qed.

Lemma parse_gingle_audio e : Name e = QN_GINGLE_AUDIO_CONTENT -> Media.ParseContent PROTOCOL_GINGLE e = ParseGingleAudioContent e.
Proof. unfold Media.ParseContent. by intros ->. Qed.
Lemma parse_gingle_video e : Name e = QN_GINGLE_VIDEO_CONTENT -> Media.ParseContent PROTOCOL_GINGLE e = ParseGingleVideoContent e.
Proof. unfold Media.ParseContent. by intros ->. Qed.

#[export] Instance MediaParser_media : MediaLaws (media_reading inet_aton secure) (MediaParser secure).
Proof.
  split.
  - intros [a|v] e [Hm Hd] Hs; [|done]. intros [= <-]. destruct (gingle_audio_elem required a) as [Hn He].
    split; [exact Hn|]. refine (eq_trans (parse_gingle_audio _ Hn) _).
    apply (gingle_audio_read required a [] []); [done..|by apply audio_parts_speak|constructor|constructor|].
    change (bool_decide _) with required. by rewrite He, app_nil_r.
  - intros [a|va] [av|v] ea ev [Hma Hda] [Hmv Hdv] Hs Hv; try done. intros [= <-] [= <-].
    change (bool_decide (secure = SEC_REQUIRED)) with required.
    destruct (gingle_audio_elem required a) as [Hna Hea]. destruct (gingle_video_elem required v) as [Hnv Hev].
    split; [exact Hnv|]. cbv zeta. unfold CopyXmlChildren.
    pose proof (audio_parts_foreign required a Hma Hda). pose proof (video_parts_foreign required v Hmv Hdv). split.
    + refine (eq_trans (parse_gingle_audio _ _) _); [by rewrite Name_AddXmlChildren|].
      apply (gingle_audio_read required a (gingle_video_parts required v) []); [done..|by apply audio_parts_speak|done|constructor|].
      rewrite !elements_AddXmlChildren, Hea, Hev. by rewrite app_nil_r.
    + refine (eq_trans (parse_gingle_video _ _) _); [by rewrite Name_AddXmlChildren|].
      apply (gingle_video_read required v [] (gingle_audio_parts required a)); [done..|constructor|done|].
      by rewrite elements_AddXmlChildren, Hea, Hev.
Qed.

(** The parsers that a client of calls sets up: of the contents of media, and of
    the candidates of the transport of libjingle. *)
Definition media_parsers : gmap bytes (ContentParser ContentDescription) := {[ NS_JINGLE_RTP := MediaParser secure ]}.
Definition p2p_parsers : gmap bytes TransportParser := {[ NS_GINGLE_P2P := P2P.P2PTransportParser inet_aton ]}.
(** They keep every promise that the messages of sessions rely on. *)
Lemma media_parsers_ok : parsers_ok media_parsers p2p_parsers (media_reading inet_aton secure).
Proof.
  unfold media_parsers, p2p_parsers. split_and!.
  - intros type cp [<- <-]%lookup_singleton_Some. apply _.
  - intros cp [_ <-]%lookup_singleton_Some. apply _.
  - intros type tp [_ <-]%lookup_singleton_Some. by apply P2P.P2PTransportParser_laws.
Qed.

(** C32. What is written of an audio and of a video description is read as what
    the syntax carries of them ([told_description]): the codecs with an id that is
    not negative, the keys, the source and the bandwidth in thousands of bits; in
    Jingle each by itself, in Gingle the audio by itself, or both in the one element
    that Gingle uses for the two.  So the parsers of media contents and of candidates
    keep every promise that the messages of sessions rely on. *)
Theorem media_contents_roundtrip (a : AudioContentDescription) (v : VideoContentDescription) :
  description_ok (Audio a) -> description_ok (Video v) -> speaks (Audio a) ->
  (forall d, d = Audio a \/ d = Video v ->
   exists e, Media.WriteContent secure PROTOCOL_JINGLE d = Good e /\
     Media.ParseContent PROTOCOL_JINGLE e = Good (told_description required PROTOCOL_JINGLE d)) /\
  (exists ea ev, Media.WriteContent secure PROTOCOL_GINGLE (Audio a) = Good ea /\ Media.WriteContent secure PROTOCOL_GINGLE (Video v) = Good ev /\
     Media.ParseContent PROTOCOL_GINGLE ea = Good (told_description required PROTOCOL_GINGLE (Audio a)) /\
     let both := CopyXmlChildren ea ev in
     Media.ParseContent PROTOCOL_GINGLE (CopyXmlChildren both (new_element QN_GINGLE_AUDIO_CONTENT)) =
       Good (told_description required PROTOCOL_GINGLE (Audio a)) /\
     Media.ParseContent PROTOCOL_GINGLE both = Good (told_description required PROTOCOL_GINGLE (Video v))) /\
  parsers_ok media_parsers p2p_parsers (media_reading inet_aton secure).
Proof.
  intros Ha Hv Hs. split_and!; [| |exact media_parsers_ok].
  - intros d Hd. eexists. split; [reflexivity|]. apply (content_jingle (ContentLaws := MediaParser_content)); [|reflexivity].
    by destruct Hd as [-> | ->].
  - do 2 eexists. split_and!; [reflexivity..| |].
    + exact (proj2 (media_audio (MediaLaws := MediaParser_media) (Audio a) _ Ha Hs eq_refl)).
    + exact (proj2 (media_both (MediaLaws := MediaParser_media) (Audio a) (Video v) _ _ Ha Hv Hs I eq_refl eq_refl)).
Qed.
End Laws.

(** A call with two codecs of sound, one of video, a key and a limit of bandwidth. *)
Definition ex_key : Srtp.CryptoParams := Srtp.mkParams 1 (str "AES_CM_128_HMAC_SHA1_80") (str "inline:abcd") [].
Definition ex_audio : AudioContentDescription :=
  mkAudio (new_media <| ssrc_ := 1 |> <| ssrc_set_ := true |> <| cryptos_ := [ex_key] |>)
    [mkAudioCodec 103 (str "ISAC") 16000 32000 1 1 ∅; mkAudioCodec 0 (str "PCMU") 8000 64000 1 0 ∅] false [].
Definition ex_video : VideoContentDescription :=
  mkVideo (new_media <| bandwidth_ := 64500 |>) [mkVideoCodec 97 (str "H264-SVC") 320 200 30 0 ∅].
Lemma media_contents_roundtrip_witness :
  exists e, Media.WriteContent SEC_REQUIRED PROTOCOL_JINGLE (Video ex_video) = Good e /\
    Media.ParseContent PROTOCOL_JINGLE e =
      Good (Video (mkVideo (new_media <| bandwidth_ := 64000 |>) [mkVideoCodec 97 (str "H264-SVC") 320 200 30 0 ∅])).
Proof.
  assert (Hok : description_ok (Audio ex_audio) /\ description_ok (Video ex_video)).
  { split; (split; [split_and!|]); repeat constructor; vm_compute; (discriminate || reflexivity). }
  assert (Hs : speaks (Audio ex_audio)) by (left; discriminate).
  destruct Hok as [Ha Hv].
  pose proof (@media_contents_roundtrip big_host (@P2P.dotted_quad big_host) SEC_REQUIRED ex_audio ex_video Ha Hv Hs) as [Hj _].
  destruct (Hj (Video ex_video) (or_intror eq_refl)) as (e & He & Hp).
  exists e. split; [exact He|]. refine (eq_trans Hp _). vm_compute. reflexivity.
Defined.
End MediaRead.
