(* ===== verification/Transport.v ===== *)
(** * Transports (talk/p2p/base/transport.cc, p2ptransport.cc,
    transportchannelproxy.cc, the class TransportProxy of session.cc)

    A transport owns the channels of one content by name, connects them when it
    is asked to, and passes candidates, states and requests between the
    signaling and the worker thread.  What it posts to the threads is kept in two
    queues; what it sends to the worker thread runs at once, as the sender
    waits for it.  Its channels are objects it calls: of a channel the model
    has the two states it reports and the calls it got. *)

From S2P Require Import Prelude SocketAddress StdMap Port Xml SessionMessages.
Import Xml Messages.
#[local] Open Scope jingle_scope.

Module Transport.

Inductive ChannelCall :=
  | Connect
  | Reset
  | OnSignalingReady
  | OnCandidate (candidate : Port.Candidate)
  | SetOption (opt value : Z).
Record Impl := mkImpl { impl_readable : bool; impl_writable : bool; calls : list ChannelCall }.
Definition new_impl : Impl := mkImpl false false [].
Definition call (c : ChannelCall) (i : Impl) : Impl := mkImpl (impl_readable i) (impl_writable i) (calls i ++ [c]).

(** Messages to the signaling and to the worker thread. *)
Inductive Posted_s :=
  | MSG_CONNECTING | MSG_READSTATE | MSG_WRITESTATE | MSG_REQUESTSIGNALING | MSG_CANDIDATEREADY
  | MSG_ROUTECHANGE (name : bytes) (remote_candidate : Port.Candidate).
Inductive Posted_w :=
  | MSG_ONSIGNALINGREADY
  | MSG_ONREMOTECANDIDATE (candidate : Port.Candidate).
Inductive Signal :=
  | SignalConnecting | SignalReadableState | SignalWritableState | SignalRequestSignaling
  | SignalCandidatesReady (candidates : list Port.Candidate)
  | SignalRouteChange (name : bytes) (remote_candidate : Port.Candidate)
  | SignalChannelGone (name : bytes).

Record Transport := mkTransport {
  destroyed_ : bool;
  readable_ : bool;
  writable_ : bool;
  connect_requested_ : bool;
  allow_local_ips_ : bool;
  channels_ : gmap bytes Impl;
  ready_candidates_ : list Port.Candidate;
  s_posted : list Posted_s;
  w_posted : list Posted_w;
}.
#[export] Instance Transport_eta : Eta Transport := fun t =>
  mkTransport (destroyed_ t) (readable_ t) (writable_ t) (connect_requested_ t) (allow_local_ips_ t) (channels_ t)
    (ready_candidates_ t) (s_posted t) (w_posted t).
Definition make : Transport := mkTransport false false false false false ∅ [] [] [].
Definition type : bytes := Const.NS_GINGLE_P2P.

Definition Post_s (m : Posted_s) (t : Transport) : Transport := t <| s_posted := s_posted t ++ [m] |>.
Definition Post_w (m : Posted_w) (t : Transport) : Transport := t <| w_posted := w_posted t ++ [m] |>.
Definition set_allow_local_ips (value : bool) (t : Transport) : Transport := t <| allow_local_ips_ := value |>.

Definition GetChannel (name : bytes) (t : Transport) : option Impl := channels_ t !! name.
Definition HasChannel (name : bytes) (t : Transport) : bool := bool_decide (is_Some (GetChannel name t)).
Definition HasChannels (t : Transport) : bool := negb (bool_decide (channels_ t = ∅)).
Definition CallChannels_w (func : ChannelCall) (t : Transport) : Transport :=
  t <| channels_ := call func <$> channels_ t |>.

(** ** Channels *)

(** [None] is a failed [ASSERT]. *)
Definition CreateChannel (name : bytes) (t : Transport) : option Transport :=
  if HasChannel name t then None else
  let t := t <| channels_ := <[name := new_impl]> (channels_ t) |> <| destroyed_ := false |> in
  Some (if connect_requested_ t then
          let t := t <| channels_ := alter (call Connect) name (channels_ t) |> in
          if decide (size (channels_ t) = 1%nat) then Post_s MSG_CONNECTING t else t
        else t).
(** A channel that is gone was perhaps the only writable one. *)
Definition OnChannelWritableState (t : Transport) : Transport := Post_s MSG_WRITESTATE t.
Definition OnChannelReadableState (t : Transport) : Transport := Post_s MSG_READSTATE t.
Definition DestroyChannel (name : bytes) (t : Transport) : Transport :=
  match GetChannel name t with
  | None => t
  | Some _ =>
      let t := t <| channels_ := base.delete name (channels_ t) |> in
      let t := if connect_requested_ t && negb (HasChannels t) then Post_s MSG_CONNECTING t else t in
      OnChannelWritableState t
  end.
Definition ConnectChannels (t : Transport) : Transport :=
  if connect_requested_ t || negb (HasChannels t) then t else
  let t := t <| connect_requested_ := true |> in
  let t := Post_s MSG_CANDIDATEREADY t in
  let t := CallChannels_w Connect t in
  if HasChannels t then Post_s MSG_CONNECTING t else t.
Definition DestroyAllChannels (t : Transport) : Transport :=
  t <| channels_ := ∅ |> <| w_posted := [] |> <| s_posted := [] |> <| destroyed_ := true |>.
Definition ResetChannels (t : Transport) : Transport :=
  let t := t <| connect_requested_ := false |> <| ready_candidates_ := [] |> in
  CallChannels_w Reset t.
Definition OnSignalingReady_ (t : Transport) : Transport :=
  if destroyed_ t then t else Post_w MSG_ONSIGNALINGREADY t.

(** ** Candidates of the peer *)

Section Verify.
(** The host's name and addresses. *)
Variable hostname : bytes.
Variable local_ips : list Z.

Definition IsLocalIP (a : SocketAddress) : bool :=
SockAddr.IsLoopbackIP a ||
if sa_ip a =? 0 then negb (bool_decide (sa_hostname a = [])) && SockAddr.stricmp_eq (sa_hostname a) hostname
else bool_decide (sa_ip a ∈ local_ips).
Definition VerifyCandidate (cand : Port.Candidate) (t : Transport) : result unit :=
let a := Port.c_address cand in
if IsLocalIP a && negb (allow_local_ips_ t) then BadParse (str "candidate has local IP address")
else if SockAddr.IsAnyIP a then BadParse (str "candidate has address of zero")
else
  let port := sa_port a in
  if port <? 1024 then
    if negb (port =? 80) && negb (port =? 443) then BadParse (str "candidate has port below 1024, but not 80 or 443")
    else if SockAddr.IsPrivateIP a then BadParse (str "candidate has port of 80 or 443 with private IP address")
    else Good tt
  else Good tt.
End Verify.

Definition OnRemoteCandidate (candidate : Port.Candidate) (t : Transport) : Transport :=
  if destroyed_ t then t
  else if negb (HasChannel (Port.c_name candidate) t) then t
  else Post_w (MSG_ONREMOTECANDIDATE candidate) t.
Definition OnRemoteCandidates (candidates : list Port.Candidate) (t : Transport) : Transport :=
  foldl (fun t c => OnRemoteCandidate c t) t candidates.
Definition OnRemoteCandidate_w (candidate : Port.Candidate) (t : Transport) : Transport :=
  t <| channels_ := alter (call (OnCandidate candidate)) (Port.c_name candidate) (channels_ t) |>.

(** ** Signals of the channels, on the worker thread *)

(** [TransportChannel::set_readable] of a channel, and what it signals. *)
Definition set_readable (name : bytes) (readable : bool) (t : Transport) : Transport :=
  match channels_ t !! name with
  | None => t
  | Some i =>
      if bool_decide (impl_readable i = readable) then t
      else OnChannelReadableState (t <| channels_ := <[name := mkImpl readable (impl_writable i) (calls i)]> (channels_ t) |>)
  end.
Definition set_writable (name : bytes) (writable : bool) (t : Transport) : Transport :=
  match channels_ t !! name with
  | None => t
  | Some i =>
      if bool_decide (impl_writable i = writable) then t
      else OnChannelWritableState (t <| channels_ := <[name := mkImpl (impl_readable i) writable (calls i)]> (channels_ t) |>)
  end.
Definition OnChannelRequestSignaling (t : Transport) : Transport := Post_s MSG_REQUESTSIGNALING t.
Definition OnChannelCandidateReady (candidate : Port.Candidate) (t : Transport) : Transport :=
  let t := t <| ready_candidates_ := ready_candidates_ t ++ [candidate] |> in
  if connect_requested_ t then Post_s MSG_CANDIDATEREADY t else t.
Definition OnChannelRouteChange (name : bytes) (remote_candidate : Port.Candidate) (t : Transport) : Transport :=
  Post_s (MSG_ROUTECHANGE name remote_candidate) t.

(** ** On the signaling thread *)

Definition GetTransportState_s (read : bool) (t : Transport) : bool :=
  existsb (fun e => if read then impl_readable (snd e) else impl_writable (snd e)) (map_to_list (channels_ t)).
Definition OnChannelReadableState_s (t : Transport) : Transport * list Signal :=
  let readable := GetTransportState_s true t in
  if bool_decide (readable_ t = readable) then (t, []) else (t <| readable_ := readable |>, [SignalReadableState]).
Definition OnChannelWritableState_s (t : Transport) : Transport * list Signal :=
  let writable := GetTransportState_s false t in
  if bool_decide (writable_ t = writable) then (t, []) else (t <| writable_ := writable |>, [SignalWritableState]).
(** [None] is a failed [ASSERT]. *)
Definition OnChannelCandidateReady_s (t : Transport) : option (Transport * list Signal) :=
  if connect_requested_ t then
    let candidates := ready_candidates_ t in
    Some (t <| ready_candidates_ := [] |>,
          if decide (candidates = []) then [] else [SignalCandidatesReady candidates])
  else None.
Definition OnMessage_s (m : Posted_s) (t : Transport) : option (Transport * list Signal) :=
  match m with
  | MSG_CONNECTING => Some (t, [SignalConnecting])
  | MSG_READSTATE => Some (OnChannelReadableState_s t)
  | MSG_WRITESTATE => Some (OnChannelWritableState_s t)
  | MSG_REQUESTSIGNALING => Some (t, [SignalRequestSignaling])
  | MSG_CANDIDATEREADY => OnChannelCandidateReady_s t
  | MSG_ROUTECHANGE name remote_candidate => Some (t, [SignalRouteChange name remote_candidate])
  end.
Definition OnMessage_w (m : Posted_w) (t : Transport) : Transport :=
  match m with
  | MSG_ONSIGNALINGREADY => CallChannels_w OnSignalingReady t
  | MSG_ONREMOTECANDIDATE candidate => OnRemoteCandidate_w candidate t
  end.
(** The threads take the next message out of their queues. *)
Definition run_s (t : Transport) : option (Transport * list Signal) :=
  match s_posted t with [] => Some (t, []) | m :: q => OnMessage_s m (t <| s_posted := q |>) end.
Definition run_w (t : Transport) : Transport :=
  match w_posted t with [] => t | m :: q => OnMessage_w m (t <| w_posted := q |>) end.

(** [P2PTransport::OnTransportError]; its [ASSERT] on the namespace is the
    caller's condition. *)
Definition OnTransportError (error : XmlElement) (t : Transport) : list Signal :=
  if bool_decide (Name error = Const.QN_GINGLE_P2P_UNKNOWN_CHANNEL_NAME) && HasAttr Const.QN_NAME error then
    let channel_name := Attr Const.QN_NAME error in
    if HasChannel channel_name t then [SignalChannelGone channel_name] else []
  else [].
End Transport.

(** ** The proxy of a transport

    A session creates channels before it knows the transport: the proxy of a
    channel stands for it until the negotiation is complete. *)
Module Proxy.
Import Transport.

Inductive TransportState := STATE_INIT | STATE_CONNECTING | STATE_NEGOTIATED.
#[export] Instance TransportState_eq_dec : EqDecision TransportState.
Proof. solve_decision. Defined.

(** [TransportChannelProxy]: the flag says whether it has its implementation,
    the channel of its name in the transport. *)
Record ChannelProxy := mkProxy { impl_set : bool; pending_options_ : list (Z * Z) }.

Record TransportProxy := mkTransportProxy {
  transport_ : Transport;
  state_ : TransportState;
  proxies_ : smap bytes ChannelProxy;
  sent_candidates_ : list Port.Candidate;
  unsent_candidates_ : list Port.Candidate;
}.
#[export] Instance TransportProxy_eta : Eta TransportProxy := fun p =>
  mkTransportProxy (transport_ p) (state_ p) (proxies_ p) (sent_candidates_ p) (unsent_candidates_ p).
Definition make (t : Transport) : TransportProxy := mkTransportProxy t STATE_INIT [] [] [].
Definition with_transport (f : Transport -> Transport) (p : TransportProxy) : TransportProxy := p <| transport_ := f (transport_ p) |>.
Definition negotiated (p : TransportProxy) : bool := bool_decide (state_ p = STATE_NEGOTIATED).

Definition AddSentCandidates (candidates : list Port.Candidate) (p : TransportProxy) : TransportProxy :=
  p <| sent_candidates_ := sent_candidates_ p ++ candidates |>.
Definition AddUnsentCandidates (candidates : list Port.Candidate) (p : TransportProxy) : TransportProxy :=
  p <| unsent_candidates_ := unsent_candidates_ p ++ candidates |>.
Definition ClearSentCandidates (p : TransportProxy) : TransportProxy := p <| sent_candidates_ := [] |>.
Definition ClearUnsentCandidates (p : TransportProxy) : TransportProxy := p <| unsent_candidates_ := [] |>.

Definition GetProxy (name : bytes) (p : TransportProxy) : option ChannelProxy := map_find name (proxies_ p).
(** In the rest [None] is a failed [ASSERT]. *)
Definition GetOrCreateImpl (name : bytes) (p : TransportProxy) : option TransportProxy :=
  if HasChannel name (transport_ p) then Some p
  else t ← Transport.CreateChannel name (transport_ p); Some (p <| transport_ := t |>).
(** [TransportChannelProxy::SetImplementation] gives it the options that wait. *)
Definition SetImplementation (name : bytes) (c : ChannelProxy) (p : TransportProxy) : TransportProxy :=
  let set i := foldl (fun i o => call (SetOption (fst o) (snd o)) i) i (pending_options_ c) in
  let t := transport_ p in
  p <| transport_ := t <| channels_ := alter set name (channels_ t) |> |>
    <| proxies_ := map_set name (mkProxy true []) (proxies_ p) |>.
Definition SetProxyImpl (name : bytes) (p : TransportProxy) : option TransportProxy :=
  c ← GetProxy name p;
  p ← GetOrCreateImpl name p;
  Some (SetImplementation name c p).
(** [TransportChannelProxy::SetOption]. *)
Definition SetOption (name : bytes) (opt value : Z) (p : TransportProxy) : TransportProxy :=
  match GetProxy name p with
  | None => p
  | Some c =>
      let t := transport_ p in
      if impl_set c
      then p <| transport_ := t <| channels_ := alter (call (Transport.SetOption opt value)) name (channels_ t) |> |>
      else p <| proxies_ := map_set name (mkProxy false (pending_options_ c ++ [(opt, value)])) (proxies_ p) |>
  end.

Definition CreateChannel (name : bytes) (p : TransportProxy) : option TransportProxy :=
  if bool_decide (is_Some (GetProxy name p)) || HasChannel name (transport_ p) then None else
  let p := p <| proxies_ := map_set name (mkProxy false []) (proxies_ p) |> in
  match state_ p with
  | STATE_NEGOTIATED => SetProxyImpl name p
  | STATE_CONNECTING => GetOrCreateImpl name p
  | STATE_INIT => Some p
  end.
(** The proxy's destructor destroys the implementation if it has it. *)
Definition DestroyChannel (name : bytes) (p : TransportProxy) : TransportProxy :=
  match GetProxy name p with
  | None => p
  | Some c =>
      let p := p <| proxies_ := map_erase name (proxies_ p) |> in
      if impl_set c then p <| transport_ := Transport.DestroyChannel name (transport_ p) |> else p
  end.
(** The loop over the proxies, in the order of their names. *)
Definition for_proxies (f : bytes -> TransportProxy -> option TransportProxy) (p : TransportProxy) : option TransportProxy :=
  foldl (fun o name => p ← o; f name p) (Some p) (map fst (proxies_ p)).
Definition ConnectChannels (p : TransportProxy) : TransportProxy :=
  p <| transport_ := Transport.ConnectChannels (transport_ p) |>.
Definition SpeculativelyConnectChannels (p : TransportProxy) : option TransportProxy :=
  if bool_decide (state_ p = STATE_NEGOTIATED) then None else
  let p := p <| state_ := STATE_CONNECTING |> in
  p ← for_proxies GetOrCreateImpl p;
  Some (ConnectChannels p).
Definition CompleteNegotiation (p : TransportProxy) : option TransportProxy :=
  if bool_decide (state_ p = STATE_NEGOTIATED) then Some p else
  let p := p <| state_ := STATE_NEGOTIATED |> in
  p ← for_proxies SetProxyImpl p;
  Some (ConnectChannels p).
End Proxy.

(** ** Runs of a transport *)

Module TransportRuns.
Import Transport.

(** The calls of the session and the signals of the channels; the threads run
    the next message that was posted to them. *)
Inductive event :=
  | CallCreateChannel (name : bytes)
  | CallDestroyChannel (name : bytes)
  | CallConnectChannels
  | CallOnSignalingReady
  | CallOnRemoteCandidates (candidates : list Port.Candidate)
  | ChannelReadable (name : bytes) (readable : bool)
  | ChannelWritable (name : bytes) (writable : bool)
  | ChannelRequestSignaling
  | ChannelCandidateReady (candidate : Port.Candidate)
  | ChannelRouteChange (name : bytes) (remote_candidate : Port.Candidate)
  | RunSignaling
  | RunWorker.
Definition step (e : event) (t : Transport) : option (Transport * list Signal) :=
  match e with
  | CallCreateChannel name => t ← CreateChannel name t; Some (t, [])
  | CallDestroyChannel name => Some (DestroyChannel name t, [])
  | CallConnectChannels => Some (ConnectChannels t, [])
  | CallOnSignalingReady => Some (OnSignalingReady_ t, [])
  | CallOnRemoteCandidates candidates => Some (OnRemoteCandidates candidates t, [])
  | ChannelReadable name b => Some (set_readable name b t, [])
  | ChannelWritable name b => Some (set_writable name b t, [])
  | ChannelRequestSignaling => Some (OnChannelRequestSignaling t, [])
  | ChannelCandidateReady c => Some (OnChannelCandidateReady c t, [])
  | ChannelRouteChange name c => Some (OnChannelRouteChange name c t, [])
  | RunSignaling => run_s t
  | RunWorker => Some (run_w t, [])
  end.
Fixpoint run (l : list event) (t : Transport) : option (Transport * list Signal) :=
  match l with
  | [] => Some (t, [])
  | e :: l => '(t, s) ← step e t; '(t, s') ← run l t; Some (t, s ++ s')
  end.
(** The signaling thread runs everything that is posted. *)
Definition settle (t : Transport) : option (Transport * list Signal) :=
  run (replicate (length (s_posted t)) RunSignaling) t.

(** The candidates of the channels, and those the transport signalled. *)
Definition announced (l : list event) : list Port.Candidate :=
  omap (fun e => match e with ChannelCandidateReady c => Some c | _ => None end) l.
Definition signalled (l : list Signal) : list Port.Candidate :=
  concat (omap (fun s => match s with SignalCandidatesReady cs => Some cs | _ => None end) l).

Definition connected_once (connected : bool) (i : Impl) : Prop :=
  List.filter (fun c => match c with Connect => true | _ => false end) (calls i) = if connected then [Connect] else [].

Record inv (t : Transport) : Prop := {
  inv_writable : writable_ t = GetTransportState_s false t \/ MSG_WRITESTATE ∈ s_posted t;
  inv_connected : map_Forall (fun _ => connected_once (connect_requested_ t)) (channels_ t);
  inv_ready : connect_requested_ t = true -> ready_candidates_ t = [] \/ MSG_CANDIDATEREADY ∈ s_posted t;
  inv_pending : connect_requested_ t = false -> MSG_CANDIDATEREADY ∉ s_posted t;
}.

Lemma inv_make : inv make.
Proof. split; [by left|apply map_Forall_empty|done|set_solver]. Qed.

Lemma connected_call b c i :
  c <> Connect -> connected_once b i -> connected_once b (call c i).
Proof. unfold connected_once, call. simpl. intros Hc <-. rewrite List.filter_app. destruct c; simpl; try done; by rewrite app_nil_r. Qed.
Lemma state_true b t :
  GetTransportState_s b t = true <-> exists name i, channels_ t !! name = Some i /\ (if b then impl_readable i else impl_writable i) = true.
Proof.
  unfold GetTransportState_s. rewrite existsb_exists. split.
  - intros ([name i] & Hin%list_elem_of_In%elem_of_map_to_list & Hi). by exists name, i.
  - intros (name & i & Hn & Hi). exists (name, i). by rewrite <- list_elem_of_In, elem_of_map_to_list.
Qed.
(** The state that a name has: a channel that is not there is not writable. *)
Definition writable_at (name : bytes) (t : Transport) : bool := default false (impl_writable <$> channels_ t !! name).
Lemma state_ext t t' :
  (forall name, writable_at name t = writable_at name t') -> GetTransportState_s false t = GetTransportState_s false t'.
Proof.
  unfold writable_at. intros He. apply eq_true_iff_eq. rewrite !state_true.
  split; intros (name & i & Hn & Hi); specialize (He name); rewrite Hn in He; simpl in He.
  - destruct (channels_ t' !! name) as [i'|] eqn:E; simpl in He; [|congruence]. exists name, i'. by rewrite <- He.
  - destruct (channels_ t !! name) as [i'|] eqn:E; simpl in He; [|congruence]. exists name, i'. by rewrite He.
Qed.

(** A change that keeps the channels' states, their connections and what is
    posted keeps the invariant. *)
Lemma inv_keep t t' :
  inv t -> writable_ t' = writable_ t -> connect_requested_ t' = connect_requested_ t ->
  (forall name, writable_at name t' = writable_at name t) ->
  map_Forall (fun _ => connected_once (connect_requested_ t)) (channels_ t') ->
  (ready_candidates_ t' = ready_candidates_ t) ->
  (exists q, s_posted t' = s_posted t ++ q /\ MSG_CANDIDATEREADY ∉ q) ->
  inv t'.
Proof.
  intros [Hw Hc Hr Hp] Ew Ec Eh Hcon Er (q & Eq & Hq). split.
  - rewrite Ew, Eq, elem_of_app, (state_ext t' t Eh). tauto.
  - by rewrite Ec.
  - rewrite Ec, Er, Eq, elem_of_app. tauto.
  - rewrite Ec, Eq, elem_of_app. tauto.
Qed.
Ltac keep := eapply inv_keep; [eassumption|done|done| | |done|]; unfold writable_at; cbn.
Ltac same_posts := exists []; split; [by rewrite app_nil_r|set_solver].

Lemma alter_writable (f : Impl -> Impl) (name : bytes) (m : gmap bytes Impl) k :
  (forall i, impl_writable (f i) = impl_writable i) -> impl_writable <$> (alter f name m !! k) = impl_writable <$> (m !! k).
Proof.
  intros Hf. destruct (decide (name = k)) as [->|Hne].
  - rewrite lookup_alter_eq. destruct (m !! k); simpl; [by rewrite Hf|done].
  - by rewrite lookup_alter_ne.
Qed.
Lemma alter_forall (f : Impl -> Impl) (name : bytes) (P : Impl -> Prop) (m : gmap bytes Impl) :
  (forall i, P i -> P (f i)) -> map_Forall (fun _ => P) m -> map_Forall (fun _ => P) (alter f name m).
Proof.
  intros Hf Hm k i. destruct (decide (name = k)) as [->|Hne].
  - rewrite lookup_alter_eq. destruct (m !! k) as [j|] eqn:E; [|done]. intros [= <-]. by eapply Hf, Hm.
  - rewrite lookup_alter_ne by done. by apply Hm.
Qed.
Lemma fmap_forall (f : Impl -> Impl) (P Q : Impl -> Prop) (m : gmap bytes Impl) :
  (forall i, P i -> Q (f i)) -> map_Forall (fun _ => P) m -> map_Forall (fun _ => Q) (f <$> m).
Proof. intros Hf Hm k i. rewrite lookup_fmap. destruct (m !! k) as [j|] eqn:E; [|done]. intros [= <-]. by eapply Hf, Hm. Qed.

Lemma post_inv m t : inv t -> m <> MSG_CANDIDATEREADY -> inv (Post_s m t).
Proof. intros Hi Hm. keep; [done|by destruct Hi|]. exists [m]. split; [done|]. intros E%list_elem_of_singleton. by apply Hm. Qed.
Lemma post_w_inv m t : inv t -> inv (Post_w m t).
Proof. intros Hi. keep; [done|by destruct Hi|same_posts]. Qed.

Lemma create_inv name t t' : CreateChannel name t = Some t' -> inv t -> inv t'.
Proof.
  unfold CreateChannel, HasChannel, GetChannel. case_bool_decide as Hn; [done|]. cbn. apply eq_None_not_Some in Hn.
  intros He Hi.
  assert (Hins : forall i, impl_writable i = false -> connected_once (connect_requested_ t) i ->
    inv (t <| channels_ := <[name := i]> (channels_ t) |> <| destroyed_ := false |>)).
  { intros i Hwi Hci. keep; [| |same_posts].
    - intros k. destruct (decide (name = k)) as [<-|]; [|by rewrite lookup_insert_ne]. by rewrite lookup_insert_eq, Hn.
    - apply map_Forall_insert_2; [done|by destruct Hi]. }
  destruct (connect_requested_ t) eqn:Ec.
  - rewrite alter_insert_eq in He. specialize (Hins (call Connect new_impl) eq_refl eq_refl). cbn in Hins. rewrite Ec in Hins.
    case_decide; injection He as <-; [apply post_inv; [exact Hins|done]|exact Hins].
  - specialize (Hins new_impl eq_refl eq_refl). cbn in Hins. rewrite Ec in Hins. by injection He as <-.
Qed.
Lemma destroy_inv name t : inv t -> inv (DestroyChannel name t).
Proof.
  intros [Hw Hc Hr Hp]. unfold DestroyChannel, GetChannel. destruct (channels_ t !! name) eqn:E; [|done].
  set (b := connect_requested_ _ && _). destruct b; (split; cbn; [|by apply map_Forall_delete| |]);
    rewrite ?elem_of_app, ?list_elem_of_singleton; try tauto; intros Hn; specialize (Hp Hn); intros ?; destruct_or?; congruence.
Qed.
Lemma connect_inv t : inv t -> inv (ConnectChannels t).
Proof.
  intros Hi. unfold ConnectChannels. destruct (connect_requested_ t || negb (HasChannels t)) eqn:E; [done|].
  apply orb_false_iff in E as [Ec _]. destruct Hi as [Hw Hc Hr Hp]. rewrite Ec in Hc.
  assert (inv (CallChannels_w Connect (Post_s MSG_CANDIDATEREADY (t <| connect_requested_ := true |>)))) as Hi.
  { split; cbn.
    - rewrite elem_of_app. destruct Hw as [Hw|Hw]; [left|by right; left]. rewrite Hw. apply state_ext.
      intros k. unfold writable_at. cbn. rewrite lookup_fmap. by destruct (channels_ t !! k).
    - eapply fmap_forall, Hc. unfold connected_once, call. cbn. intros i Hi. by rewrite List.filter_app, Hi.
    - intros _. right. set_solver.
    - done. }
  case_match; [by apply post_inv|done].
Qed.
Lemma calls_inv c t : c <> Connect -> inv t -> inv (CallChannels_w c t).
Proof.
  intros Hc Hi. keep; [| |same_posts].
  - intros k. rewrite lookup_fmap. by destruct (channels_ t !! k).
  - eapply fmap_forall; [|by destruct Hi]. intros i. by apply connected_call.
Qed.

(** The next message of the signaling thread. *)
Lemma run_s_spec t m q :
  inv t -> s_posted t = m :: q ->
  exists t' s, run_s t = Some (t', s) /\ inv t' /\ s_posted t' = q /\ channels_ t' = channels_ t /\
    connect_requested_ t' = connect_requested_ t /\ ready_candidates_ t = signalled s ++ ready_candidates_ t'.
Proof.
  intros [Hw Hc Hr Hp] Eq. unfold run_s. rewrite Eq in *. rewrite elem_of_cons in *.
  destruct m; cbn [OnMessage_s].
  1, 4, 6: do 2 eexists; split; [done|]; split; [|done]; split; cbn; [|done| |]; rewrite ?elem_of_cons in *; naive_solver.
  - do 2 eexists. split; [by rewrite (surjective_pairing (OnChannelReadableState_s _))|].
    unfold OnChannelReadableState_s. case_bool_decide; cbn; (split; [|done]); split; cbn; [|done| | | |done| |];
      rewrite ?elem_of_cons in *; naive_solver.
  - do 2 eexists. split; [by rewrite (surjective_pairing (OnChannelWritableState_s _))|].
    unfold OnChannelWritableState_s. case_bool_decide as E; cbn; (split; [|done]); split; cbn; [|done| | | |done| |];
      rewrite ?elem_of_cons in *; try naive_solver; by left.
  - unfold OnChannelCandidateReady_s. cbn. destruct (connect_requested_ t) eqn:Ec; [|by destruct Hp; [|left]].
    do 2 eexists. split; [done|]. split.
    + split; cbn; rewrite ?Ec; [|done|by left|done]. rewrite ?elem_of_cons in *; naive_solver.
    + split_and!; try done. case_decide as E; [by rewrite E|]. unfold signalled. simpl. by rewrite !app_nil_r.
Qed.

Lemma step_inv e t t' s : step e t = Some (t', s) -> inv t -> inv t'.
Proof.
  intros He Hi. destruct e; cbn in He.
  - apply bind_Some in He as (t1 & He & [= <- <-]). by eapply create_inv.
  - injection He as <- _. by apply destroy_inv.
  - injection He as <- _. by apply connect_inv.
  - injection He as <- _. unfold OnSignalingReady_. destruct (destroyed_ t); [done|by apply post_w_inv].
  - injection He as <- _. unfold OnRemoteCandidates. revert t Hi. induction candidates as [|c cs IH]; intros t Hi; [done|]. simpl.
    apply IH. unfold OnRemoteCandidate. repeat case_match; try done. by apply post_w_inv.
  - injection He as <- _. unfold set_readable. destruct (channels_ t !! name) as [i|] eqn:E; [|done]. case_bool_decide; [done|].
    apply post_inv; [|done]. keep; [| |same_posts].
    + intros k. destruct (decide (name = k)) as [<-|]; [|by rewrite lookup_insert_ne]. by rewrite lookup_insert_eq, E.
    + destruct Hi as [_ Hc _ _]. apply map_Forall_insert_2; [exact (Hc name i E)|done].
  - injection He as <- _. unfold set_writable. destruct (channels_ t !! name) as [i|] eqn:E; [|done]. case_bool_decide; [done|].
    destruct Hi as [Hw Hc Hr Hp]. split; cbn; rewrite ?elem_of_app, ?list_elem_of_singleton.
    + tauto.
    + apply map_Forall_insert_2; [exact (Hc name i E)|done].
    + tauto.
    + intros Hn. specialize (Hp Hn). intros ?; destruct_or?; congruence.
  - injection He as <- _. by apply post_inv.
  - injection He as <- _. unfold OnChannelCandidateReady. destruct Hi as [Hw Hc Hr Hp]. cbn.
    destruct (connect_requested_ t) eqn:Ec; (split; cbn; [| | |]); rewrite ?Ec, ?elem_of_app; try done; try set_solver.
  - injection He as <- _. by apply post_inv.
  - unfold run_s in He. destruct (s_posted t) as [|m q] eqn:Eq; [by injection He as <- _|].
    destruct (run_s_spec t m q Hi Eq) as (t1 & s1 & He1 & Hi1 & _). unfold run_s in He1. rewrite Eq, He in He1. by injection He1 as <- _.
  - injection He as <- _. unfold run_w. destruct (w_posted t) as [|m q] eqn:Eq; [done|].
    assert (inv (t <| w_posted := q |>)) as Hi' by (keep; [done|by destruct Hi|same_posts]).
    destruct m; cbn [OnMessage_w]; [by apply calls_inv|]. unfold OnRemoteCandidate_w. keep; [| |same_posts].
    + intros k. by rewrite alter_writable.
    + apply alter_forall; [|by destruct Hi]. intros i. by apply connected_call.
Qed.

(** What is announced is signalled or kept. *)
Lemma step_candidates e t t' s :
  step e t = Some (t', s) -> inv t ->
  ready_candidates_ t ++ announced [e] = signalled s ++ ready_candidates_ t'.
Proof.
  intros He Hi. destruct e; cbn in He.
  - apply bind_Some in He as (t1 & He & [= <- <-]). unfold CreateChannel in He. repeat case_match; try done; injection He as <-; by rewrite app_nil_r.
  - injection He as <- <-. unfold DestroyChannel. rewrite app_nil_r. by repeat case_match.
  - injection He as <- <-. unfold ConnectChannels. rewrite app_nil_r. by repeat case_match.
  - injection He as <- <-. unfold OnSignalingReady_. rewrite app_nil_r. by case_match.
  - injection He as <- <-. rewrite app_nil_r. unfold OnRemoteCandidates. clear Hi. revert t. induction candidates as [|c cs IH]; intros t; [done|].
    etransitivity; [|apply (IH (OnRemoteCandidate c t))]. unfold OnRemoteCandidate. by repeat case_match.
  - injection He as <- <-. unfold set_readable. rewrite app_nil_r. by repeat case_match.
  - injection He as <- <-. unfold set_writable. rewrite app_nil_r. by repeat case_match.
  - injection He as <- <-. by rewrite app_nil_r.
  - injection He as <- <-. unfold OnChannelCandidateReady. cbn. by case_match.
  - injection He as <- <-. by rewrite app_nil_r.
  - rewrite app_nil_r. destruct (s_posted t) as [|m q] eqn:Eq.
    + unfold run_s in He. rewrite Eq in He. by injection He as <- <-.
    + destruct (run_s_spec t m q Hi Eq) as (t1 & s1 & He1 & _ & _ & _ & _ & Hr). rewrite He in He1. by injection He1 as <- <-.
  - injection He as <- <-. unfold run_w. rewrite app_nil_r. repeat case_match; try done. unfold OnMessage_w. by case_match.
Qed.

Lemma signalled_app s s' : signalled (s ++ s') = signalled s ++ signalled s'.
Proof. unfold signalled. by rewrite omap_app, concat_app. Qed.
Lemma run_inv l t t' s :
  run l t = Some (t', s) -> inv t ->
  inv t' /\ ready_candidates_ t ++ announced l = signalled s ++ ready_candidates_ t'.
Proof.
  revert t s. induction l as [|e l IH]; intros t s; simpl.
  - intros [= <- <-] Hi. by rewrite app_nil_r.
  - intros H Hi. apply bind_Some in H as ([t1 s1] & He & H). apply bind_Some in H as ([t2 s2] & Hl & [= <- <-]).
    destruct (IH t1 s2 Hl) as [Hi2 Hc]; [by eapply step_inv|]. split; [done|].
    pose proof (step_candidates e t t1 s1 He Hi) as Hc1. rewrite signalled_app, <- app_assoc, <- Hc, app_assoc, <- Hc1.
    rewrite <- app_assoc. f_equal. unfold announced. simpl. by destruct e.
Qed.

Lemma settle_spec t :
  inv t -> exists t' s, settle t = Some (t', s) /\ inv t' /\ s_posted t' = [] /\ channels_ t' = channels_ t /\
    connect_requested_ t' = connect_requested_ t /\ ready_candidates_ t = signalled s ++ ready_candidates_ t'.
Proof.
  unfold settle. remember (s_posted t) as q eqn:Eq. revert t Eq. induction q as [|m q IH]; intros t Eq Hi; simpl.
  - by exists t, [].
  - destruct (run_s_spec t m q Hi (eq_sym Eq)) as (t1 & s1 & -> & Hi1 & Hq1 & Hc1 & Hr1 & Hs1).
    destruct (IH t1 (eq_sym Hq1) Hi1) as (t2 & s2 & Hrun & Hi2 & Hq2 & Hc2 & Hr2 & Hs2).
    simpl. rewrite Hrun. simpl. exists t2, (s1 ++ s2). split_and!; try done; try congruence.
    by rewrite signalled_app, <- app_assoc, <- Hs2.
Qed.

(** C21. Once the signaling thread has run what is posted to it, the transport is
    writable exactly if one of its channels is, and if it was asked to connect
    it has signalled every candidate of the channels, once and in order; no
    message it runs fails. *)
Theorem transport_settles (l : list event) (t : Transport) (s : list Signal) :
  run l make = Some (t, s) ->
  exists t' s', settle t = Some (t', s') /\ s_posted t' = [] /\ channels_ t' = channels_ t /\
    writable_ t' = GetTransportState_s false t' /\
    map_Forall (fun _ => connected_once (connect_requested_ t')) (channels_ t') /\
    announced l = signalled (s ++ s') ++ ready_candidates_ t' /\
    (connect_requested_ t' = true -> ready_candidates_ t' = []).
Proof.
  intros Hrun. destruct (run_inv l make t s Hrun inv_make) as [Hi Hc].
  destruct (settle_spec t Hi) as (t' & s' & Hs & [Hw Hcon Hr Hp] & Hq & Hch & Hcr & Hcs).
  exists t', s'. split_and!; try done.
  - destruct Hw as [|Hw]; [done|]. rewrite Hq in Hw. by apply not_elem_of_nil in Hw.
  - rewrite signalled_app, <- app_assoc, <- Hcs. exact Hc.
  - intros Ht. destruct (Hr Ht) as [|Hin]; [done|]. rewrite Hq in Hin. by apply not_elem_of_nil in Hin.
Qed.
End TransportRuns.

(** ** Examples and limits *)

Module TransportExamples.
Import Transport Proxy TransportRuns.

Definition ex_candidate (name : bytes) (ip port : Z) : Port.Candidate :=
  Port.mkCandidate name (str "udp") (SockAddr.make ip port) (SpecFloat.S754_zero false) [] [] [] [] 0.
Definition ex_run : list event :=
  [CallCreateChannel (str "rtp"); ChannelCandidateReady (ex_candidate (str "rtp") 1 5000); CallConnectChannels;
   CallCreateChannel (str "rtcp"); RunSignaling; ChannelCandidateReady (ex_candidate (str "rtcp") 1 5001);
   ChannelWritable (str "rtp") true].
Lemma transport_settles_witness :
  exists t s t' s', run ex_run Transport.make = Some (t, s) /\ settle t = Some (t', s') /\ writable_ t' = GetTransportState_s false t'.
Proof.
  assert (Hr : bool_decide (is_Some (run ex_run Transport.make)) = true) by (vm_compute; reflexivity).
  apply bool_decide_eq_true in Hr as [[t s] E].
  destruct (transport_settles ex_run t s E) as (t' & s' & Hs & _ & _ & Hw & _).
  exists t, s, t', s'. exact (conj E (conj Hs Hw)).
Defined.

(** What [VerifyCandidate] accepts. *)
Theorem verify_candidate (hostname : bytes) (local_ips : list Z) (cand : Port.Candidate) (t : Transport) :
  let a := Port.c_address cand in
  VerifyCandidate hostname local_ips cand t = Good tt <->
  (IsLocalIP hostname local_ips a = true -> allow_local_ips_ t = true) /\ sa_ip a <> 0 /\
  (sa_port a < 1024 -> (sa_port a = 80 \/ sa_port a = 443) /\ SockAddr.IsPrivateIP a = false).
Proof.
  cbv zeta. unfold VerifyCandidate, SockAddr.IsAnyIP. set (a := Port.c_address cand). clearbody a.
  set (loc := IsLocalIP _ _ a). clearbody loc. set (priv := SockAddr.IsPrivateIP a). clearbody priv.
  set (ip := sa_ip a). set (port := sa_port a). clearbody ip port.
  destruct loc, (allow_local_ips_ t); cbn [andb negb]; try (split; [done|intros [Hl _]; by specialize (Hl eq_refl)]).
  all: destruct (Z.eqb_spec ip 0) as [|Hip]; [split; [done|tauto]|].
  all: destruct (Z.ltb_spec port 1024) as [Hp|Hp]; [|split; [intros _; split_and!; [done|done|lia]|done]].
  all: destruct (Z.eqb_spec port 80), (Z.eqb_spec port 443), priv; cbn [andb negb]; split; try done; intros H;
    try (split_and!; [done|done|intros _; split; [tauto|done]]);
    destruct H as (_ & _ & H); destruct (H Hp) as [[] ?]; done.
Qed.

(** The readable flag outlives the channel it came from: only the writable one is
    computed again. *)
Example destroyed_channel_stays_readable :
  (t ← fst <$> run [CallCreateChannel (str "rtp"); ChannelReadable (str "rtp") true; RunSignaling;
                    CallDestroyChannel (str "rtp")] Transport.make;
   '(t, _) ← settle t; Some (readable_ t, HasChannels t)) = Some (true, false).
Proof. vm_compute. reflexivity. Qed.

(** A request to connect is forgotten when there is no channel yet: a channel
    that is created after the negotiation never connects. *)
Example connect_without_channels :
  (p ← CompleteNegotiation (Proxy.make Transport.make);
   p ← Proxy.CreateChannel (str "rtp") p;
   i ← GetChannel (str "rtp") (transport_ p); Some (connect_requested_ (transport_ p), calls i)) = Some (false, []).
Proof. vm_compute. reflexivity. Qed.

(** A channel that is destroyed before the negotiation is complete stays in the
    transport; it cannot be created again. *)
Example speculative_channel_leaks :
  (p ← Proxy.CreateChannel (str "rtp") (Proxy.make Transport.make);
   p ← SpeculativelyConnectChannels p;
   let p := Proxy.DestroyChannel (str "rtp") p in
   Some (bool_decide (is_Some (GetProxy (str "rtp") p)), HasChannel (str "rtp") (transport_ p),
         bool_decide (is_Some (Proxy.CreateChannel (str "rtp") p)))) = Some (false, true, false).
Proof. vm_compute. reflexivity. Qed.

(** Options that were set before the channel existed reach it, in order. *)
Example pending_options_delivered :
  (p ← Proxy.CreateChannel (str "rtp") (Proxy.make Transport.make);
   let p := Proxy.SetOption (str "rtp") 1 10 (Proxy.SetOption (str "rtp") 2 20 p) in
   p ← CompleteNegotiation p;
   i ← GetChannel (str "rtp") (transport_ p); Some (calls i)) =
  Some [Transport.SetOption 2 20; Transport.SetOption 1 10; Connect].
Proof. vm_compute. reflexivity. Qed.
End TransportExamples.
