(* ===== verification/Jid.v ===== *)
(** * XMPP addresses (talk/xmpp/jid.cc)

    A Jid is a node, a domain and a resource in their normal form, or nothing
    when the text it is made from is not an address. *)

From S2P Require Import Prelude SocketAddress.

Module Jid.

(** ** Normalising the parts *)

Definition lower (c : byte) : byte := mkbyte (byte.unsigned c + 32).
Definition is_upper (v : Z) : bool := (65 <=? v) && (v <=? 90).
(** The ASCII characters that a node may not have; [None] is invalid.  The bytes
    above 0x7F stand for themselves. *)
Definition prepNodeAscii (c : byte) : option byte :=
  let v := byte.unsigned c in
  if 127 <? v then Some c
  else if is_upper v then Some (lower c)
  else if (v <=? 23) || bool_decide (v ∈ [32; 38; 47; 58; 60; 62; 64; 34; 39; 127]) then None
  else Some c.
Definition prepNode (s : bytes) : option bytes :=
  result ← mapM prepNodeAscii s;
  if decide (1023 < length result)%nat then None else Some result.

(** An invalid character of a resource is replaced by zero; nothing rejects it. *)
Definition prepResourceAscii (c : byte) : byte :=
  let v := byte.unsigned c in
  if (v <=? 23) || (v =? 127) then Byte.x00 else c.
Definition prepResource (s : bytes) : option bytes :=
  let result := map prepResourceAscii s in
  if decide (1023 < length result)%nat then None else Some result.

Definition prepDomainLabelAscii (c : byte) : option byte :=
  let v := byte.unsigned c in
  if 127 <? v then Some c
  else if is_upper v then Some (lower c)
  else if (v <=? 44) || ((46 <=? v) && (v <=? 47)) || ((58 <=? v) && (v <=? 64)) || ((91 <=? v) && (v <=? 96))
          || (123 <=? v) then None
  else Some c.
Definition prepDomainLabel (label : bytes) : option bytes :=
  buf ← mapM prepDomainLabelAscii label;
  if bool_decide (buf = []) || (63 <? Z.of_nat (length buf)) then None
  else if bool_decide (head buf = Some Byte.x2d) || bool_decide (last buf = Some Byte.x2d) then None
  else Some buf.
(** The text between the dots, and the text put together from it. *)
Fixpoint labels (s : bytes) : list bytes :=
  match s with
  | [] => [[]]
  | c :: s =>
      if decide (c = Byte.x2e) then [] :: labels s
      else match labels s with l :: ls => (c :: l) :: ls | [] => [[c]] end
  end.
Fixpoint join (ls : list bytes) : bytes :=
  match ls with [] => [] | [l] => l | l :: ls => l ++ [Byte.x2e] ++ join ls end.
Definition prepDomain (s : bytes) : option bytes :=
  ls ← mapM prepDomainLabel (labels s);
  if decide (1023 < length (join ls))%nat then None else Some (join ls).

(** ** Addresses *)

Record Data := mkData { node_name_ : bytes; domain_name_ : bytes; resource_name_ : bytes }.
#[export] Instance Data_eq_dec : EqDecision Data.
Proof. solve_decision. Defined.
Definition Jid : Type := option Data.

Definition make (node_name domain_name resource_name : bytes) : Jid :=
  if decide (domain_name = []) then None else
  node ← prepNode node_name;
  domain ← prepDomain domain_name;
  resource ← prepResource resource_name;
  Some (mkData node domain resource).
(** The text before the first [c] and the text after it. *)
Fixpoint split_at (c : byte) (s : bytes) : option (bytes * bytes) :=
  match s with
  | [] => None
  | d :: s =>
      if decide (d = c) then Some ([], s)
      else '(a, b) ← split_at c s; Some (d :: a, b)
  end.
Definition of_string (jid_string : bytes) : Jid :=
  if decide (jid_string = []) then None else
  let '(before, resource_name) := default (jid_string, []) (split_at Byte.x2f jid_string) in
  let '(node_name, domain_name) := default ([], before) (split_at Byte.x40 before) in
  make node_name domain_name resource_name.

Definition IsValid (j : Jid) : bool :=
  match j with None => false | Some d => negb (bool_decide (domain_name_ d = [])) end.
Definition Str (j : Jid) : bytes :=
  match j with
  | None => []
  | Some d =>
      (if decide (node_name_ d = []) then [] else node_name_ d ++ [Byte.x40]) ++ domain_name_ d ++
      (if decide (resource_name_ d = []) then [] else Byte.x2f :: resource_name_ d)
  end.
Definition IsFull (j : Jid) : bool :=
  match j with None => false | Some d => IsValid j && negb (bool_decide (resource_name_ d = [])) end.
Definition BareJid (j : Jid) : Jid :=
  match j with
  | None => None
  | Some d => if IsFull j then make (node_name_ d) (domain_name_ d) [] else j
  end.
Definition BareEquals (a b : Jid) : bool :=
  match a, b with
  | None, None => true
  | Some a, Some b => bool_decide (node_name_ b = node_name_ a) && bool_decide (domain_name_ b = domain_name_ a)
  | _, _ => false
  end.
Definition equal (a b : Jid) : bool := bool_decide (a = b).
(** [std::string::compare]. *)
Definition compare_string (s t : bytes) : Z :=
  if SockAddr.string_ltb s t then -1 else if SockAddr.string_ltb t s then 1 else 0.
Definition Compare (a b : Jid) : Z :=
  match a, b with
  | None, None => 0
  | None, _ => -1
  | _, None => 1
  | Some a, Some b =>
      let n := compare_string (node_name_ a) (node_name_ b) in
      if negb (n =? 0) then n else
      let d := compare_string (domain_name_ a) (domain_name_ b) in
      if negb (d =? 0) then d else compare_string (resource_name_ a) (resource_name_ b)
  end.

(** ** Facts *)

(** A character that comes out of [f] is fixed by it and satisfies [p]. *)
Definition fixed_by (f : byte -> option byte) (p : byte -> bool) (c : byte) : bool :=
  match f c with None => true | Some c' => bool_decide (f c' = Some c') && p c' end.
Definition separator (c : byte) : bool := bool_decide (c = Byte.x2f) || bool_decide (c = Byte.x40).
Lemma node_char_b c : fixed_by prepNodeAscii (fun c => negb (separator c)) c = true.
Proof. destruct c; vm_compute; reflexivity. Qed.
Lemma domain_char_b c : fixed_by prepDomainLabelAscii (fun c => negb (separator c) && negb (bool_decide (c = Byte.x2e))) c = true.
Proof. destruct c; vm_compute; reflexivity. Qed.
Lemma resource_char c : prepResourceAscii (prepResourceAscii c) = prepResourceAscii c.
Proof. destruct c; vm_compute; reflexivity. Qed.
Lemma separator_false c : separator c = false -> c <> Byte.x2f /\ c <> Byte.x40.
Proof. unfold separator. rewrite orb_false_iff, !bool_decide_eq_false. done. Qed.
Lemma node_char c c' : prepNodeAscii c = Some c' -> prepNodeAscii c' = Some c' /\ c' <> Byte.x2f /\ c' <> Byte.x40.
Proof.
  intros H. pose proof (node_char_b c) as Hb. unfold fixed_by in Hb. rewrite H in Hb.
  apply andb_true_iff in Hb as [H1%bool_decide_eq_true H2%negb_true_iff%separator_false]. done.
Qed.
Lemma domain_char c c' :
  prepDomainLabelAscii c = Some c' -> prepDomainLabelAscii c' = Some c' /\ c' <> Byte.x2f /\ c' <> Byte.x40 /\ c' <> Byte.x2e.
Proof.
  intros H. pose proof (domain_char_b c) as Hb. unfold fixed_by in Hb. rewrite H in Hb.
  apply andb_true_iff in Hb as [H1%bool_decide_eq_true [H2%negb_true_iff%separator_false H3%negb_true_iff%bool_decide_eq_false]%andb_true_iff].
  tauto.
Qed.

(** Characters that a map to valid characters leaves alone. *)
Lemma mapM_fixed (f : byte -> option byte) (P : byte -> Prop) l l' :
  (forall c c', f c = Some c' -> f c' = Some c' /\ P c') -> mapM f l = Some l' -> mapM f l' = Some l' /\ Forall P l'.
Proof.
  intros Hf H. apply mapM_Some in H. assert (Forall (fun c' => f c' = Some c' /\ P c') l') as Ha.
  { induction H as [|c c' l l' Hc _ IH]; [constructor|]. constructor; [by eapply Hf|done]. }
  split; [|eapply Forall_impl; [exact Ha|by intros ? []]].
  apply mapM_Some. clear H. induction Ha as [|c l' [Hc _] _ IH]; by constructor.
Qed.

Lemma prepNode_fixed s n : prepNode s = Some n -> prepNode n = Some n /\ Forall (fun c => c <> Byte.x2f /\ c <> Byte.x40) n.
Proof.
  unfold prepNode. intros H. apply bind_Some in H as (r & Hr & H). case_decide as Hl; [done|]. injection H as ->.
  destruct (mapM_fixed _ (fun c => c <> Byte.x2f /\ c <> Byte.x40) _ _ node_char Hr) as [-> Hp]. simpl. by rewrite decide_False.
Qed.
Lemma prepResource_fixed s r : prepResource s = Some r -> prepResource r = Some r.
Proof.
  unfold prepResource. case_decide as Hl; [done|]. intros [= <-]. rewrite map_map.
  rewrite (map_ext _ prepResourceAscii) by apply resource_char. by rewrite decide_False.
Qed.
Lemma prepDomainLabel_fixed s l :
  prepDomainLabel s = Some l ->
  prepDomainLabel l = Some l /\ l <> [] /\ Forall (fun c => c <> Byte.x2f /\ c <> Byte.x40 /\ c <> Byte.x2e) l.
Proof.
  unfold prepDomainLabel. intros H. apply bind_Some in H as (r & Hr & H).
  destruct (bool_decide (r = []) || _) eqn:E1; [done|]. destruct (bool_decide (head r = _) || _) eqn:E2; [done|]. injection H as ->.
  destruct (mapM_fixed _ (fun c => c <> Byte.x2f /\ c <> Byte.x40 /\ c <> Byte.x2e) _ _ domain_char Hr) as [-> Hp]. simpl.
  rewrite E1, E2. split; [done|]. split; [|done]. apply orb_false_iff in E1 as [E1 _]. by apply bool_decide_eq_false in E1.
Qed.

Lemma labels_single l : Forall (fun c => c <> Byte.x2e) l -> labels l = [l].
Proof. induction 1 as [|c l Hc _ IH]; [done|]. simpl. by rewrite decide_False, IH. Qed.
Lemma labels_join ls :
  ls <> [] -> Forall (fun l => Forall (fun c => c <> Byte.x2e) l) ls -> labels (join ls) = ls.
Proof.
  intros Hne H. induction H as [|l ls Hl Hls IH]; [done|].
  destruct ls as [|l' ls]; [by apply labels_single|].
  specialize (IH ltac:(done)). change (join (l :: l' :: ls)) with (l ++ [Byte.x2e] ++ join (l' :: ls)).
  revert IH. generalize (join (l' :: ls)) as rest. intros rest IH. clear Hls.
  induction Hl as [|c l Hc _ IHl]; simpl; [by rewrite IH|].
  rewrite decide_False by done. simpl in IHl. by rewrite IHl.
Qed.
Lemma labels_ne s : labels s <> [].
Proof. destruct s as [|c s]; simpl; [done|]. case_decide; [done|]. by destruct (labels s). Qed.

Lemma join_chars (P : byte -> Prop) ls : P Byte.x2e -> Forall (Forall P) ls -> Forall P (join ls).
Proof.
  intros Hd H. induction H as [|l ls Hl _ IH]; [constructor|]. destruct ls as [|l' ls]; [done|].
  change (join (l :: l' :: ls)) with (l ++ [Byte.x2e] ++ join (l' :: ls)). rewrite !Forall_app, Forall_singleton. done.
Qed.
Lemma prepDomain_fixed s d :
  prepDomain s = Some d -> prepDomain d = Some d /\ d <> [] /\ Forall (fun c => c <> Byte.x2f /\ c <> Byte.x40) d.
Proof.
  unfold prepDomain. intros H. apply bind_Some in H as (ls & Hls & H). case_decide as Hl; [done|]. injection H as <-.
  apply mapM_Some in Hls.
  assert (Forall (fun l => prepDomainLabel l = Some l /\ l <> [] /\ Forall (fun c => c <> Byte.x2f /\ c <> Byte.x40 /\ c <> Byte.x2e) l) ls) as Ha.
  { clear Hl. induction Hls as [|l l' k k' Hl _ IH]; constructor; [by eapply prepDomainLabel_fixed|done]. }
  assert (Hne : ls <> []).
  { intros ->. apply Forall2_length in Hls. pose proof (labels_ne s). by destruct (labels s). }
  rewrite labels_join; [|done|].
  2:{ eapply Forall_impl; [exact Ha|]. intros l (_ & _ & Hc). eapply Forall_impl; [exact Hc|]. by intros c (? & ? & ?). }
  assert (mapM prepDomainLabel ls = Some ls) as ->.
  { apply mapM_Some. clear Hls Hl Hne. induction Ha as [|l ls (Hl & _) _ IH]; by constructor. }
  simpl. rewrite decide_False by done. split; [done|]. split.
  - destruct Ha as [|l ls (_ & Hl' & _) _]; [done|]. destruct ls as [|l2 ls]; [done|]. simpl. by destruct l.
  - apply join_chars; [done|]. eapply Forall_impl; [exact Ha|]. intros l (_ & _ & Hc). eapply Forall_impl; [exact Hc|]. by intros c (? & ? & ?).
Qed.

Lemma split_at_none c s : Forall (fun d => d <> c) s -> split_at c s = None.
Proof. induction 1 as [|d s Hd _ IH]; [done|]. simpl. by rewrite decide_False, IH. Qed.
Lemma split_at_app c a b : Forall (fun d => d <> c) a -> split_at c (a ++ c :: b) = Some (a, b).
Proof. induction 1 as [|d a Hd _ IH]; simpl; [by rewrite decide_True|]. by rewrite decide_False, IH. Qed.

(** What [make] gives is in normal form. *)
Lemma make_fixed n d r j :
  make n d r = Some j ->
  make (node_name_ j) (domain_name_ j) (resource_name_ j) = Some j /\ domain_name_ j <> [] /\
  Forall (fun c => c <> Byte.x2f /\ c <> Byte.x40) (node_name_ j) /\ Forall (fun c => c <> Byte.x2f /\ c <> Byte.x40) (domain_name_ j).
Proof.
  unfold make. case_decide as Hd0; [done|]. intros H.
  apply bind_Some in H as (n' & Hn & H). apply bind_Some in H as (d' & Hdm & H). apply bind_Some in H as (r' & Hr & [= <-]). simpl.
  destruct (prepNode_fixed _ _ Hn) as [-> Hcn]. destruct (prepDomain_fixed _ _ Hdm) as (-> & Hne & Hcd).
  rewrite (prepResource_fixed _ _ Hr). rewrite decide_False by done. done.
Qed.

Lemma of_string_make s j : of_string s = Some j -> exists n d r, make n d r = Some j.
Proof.
  unfold of_string. case_decide as Hs; [done|]. destruct (default _ (split_at _ s)) as [before r].
  destruct (default _ (split_at _ before)) as [n d]. intros H. by exists n, d, r.
Qed.

(** The text of an address is its normal form: it is read back as the address,
    so that two texts are the same address exactly if their normal forms are
    equal. *)
Theorem jid_normal_form (s t : bytes) :
  of_string (Str (of_string s)) = of_string s /\
  (equal (of_string s) (of_string t) = true <-> Str (of_string s) = Str (of_string t)).
Proof.
  assert (Hrt : forall s, of_string (Str (of_string s)) = of_string s).
  { clear s t. intros s. destruct (of_string s) as [j|] eqn:E; [|done].
    destruct (of_string_make s j E) as (n & d & r & Hm). apply make_fixed in Hm as (Hm & Hne & Hn & Hd).
    assert (Hc : forall c, (c = Byte.x2f \/ c = Byte.x40) -> Forall (fun d => d <> c) (node_name_ j) /\ Forall (fun d => d <> c) (domain_name_ j)).
    { intros c Hc. split; [eapply Forall_impl; [exact Hn|]|eapply Forall_impl; [exact Hd|]]; intros x []; by destruct Hc as [-> | ->]. }
    destruct (Hc Byte.x2f (or_introl eq_refl)) as [Hns Hds]. destruct (Hc Byte.x40 (or_intror eq_refl)) as [Hna Hda].
    set (nd := (if decide (node_name_ j = []) then [] else node_name_ j ++ [Byte.x40]) ++ domain_name_ j).
    assert (Str (Some j) = nd ++ (if decide (resource_name_ j = []) then [] else Byte.x2f :: resource_name_ j)) as ->.
    { unfold Str, nd. by rewrite <- app_assoc. }
    assert (Hnd : Forall (fun d => d <> Byte.x2f) nd).
    { unfold nd. case_decide; [done|]. rewrite !Forall_app, Forall_singleton. done. }
    assert (nd <> []) as Hne' by (unfold nd; case_decide; [done|]; by destruct (node_name_ j)).
    assert (Hsplit : default ([], nd) (split_at Byte.x40 nd) = (node_name_ j, domain_name_ j)).
    { unfold nd. case_decide as En; simpl; [by rewrite split_at_none, En|].
      rewrite <- app_assoc. simpl. by rewrite split_at_app. }
    unfold of_string. rewrite decide_False by (intros [? _]%app_nil; done).
    case_decide as Er.
    - rewrite app_nil_r, split_at_none by done. simpl. rewrite Hsplit. by rewrite <- Hm, Er at 1.
    - rewrite split_at_app by done. simpl. by rewrite Hsplit. }
  split; [apply Hrt|]. unfold equal. rewrite bool_decide_eq_true. split; [by intros ->|].
  intros E. by rewrite <- (Hrt s), E, Hrt.
Qed.

(** [BareEquals] compares all but the resource. *)
Lemma bare_equals a b :
  BareEquals a b = true <-> (a = None /\ b = None) \/ exists d e, a = Some d /\ b = Some e /\ node_name_ d = node_name_ e /\ domain_name_ d = domain_name_ e.
Proof.
  destruct a as [a|], b as [b|]; simpl; rewrite ?andb_true_iff, ?bool_decide_eq_true; naive_solver.
Qed.

(** An invalid character of a resource is not rejected. *)
Example resource_control_accepted :
  of_string (str "a@b/" ++ [Byte.x01]) = Some (mkData (str "a") (str "b") [Byte.x00]) /\
  of_string ([Byte.x01] ++ str "@b") = None /\ IsValid (of_string ([Byte.x18] ++ str "@b")) = true.
Proof. by vm_compute. Qed.
Example jid_case_folded : equal (of_string (str "Ann@Example.ORG/Home")) (of_string (str "ann@example.org/Home")) = true.
Proof. by vm_compute. Qed.
End Jid.
