(* ===== verification/Session.v ===== *)
(** * Sessions (talk/p2p/base/session.cc, session.h)

    A session negotiates contents and transports with its peer by the messages
    of [SessionMessages].  Its state machine is driven by the calls of the
    client, by messages of the peer and by messages it posts to itself; every
    change of state is signalled, and the client may call back before the signal
    returns.  What a session signals and sends is kept in order in its effects. *)

From S2P Require Import Prelude SocketAddress StdMap Port Xml SessionMessages Effects Transport Jid.
Import Xml Const Messages.
#[local] Open Scope jingle_scope.

Module Session.

Inductive State :=
  | STATE_INIT | STATE_SENTINITIATE | STATE_RECEIVEDINITIATE | STATE_SENTACCEPT | STATE_RECEIVEDACCEPT
  | STATE_SENTMODIFY | STATE_RECEIVEDMODIFY | STATE_SENTREJECT | STATE_RECEIVEDREJECT | STATE_SENTREDIRECT
  | STATE_SENTTERMINATE | STATE_RECEIVEDTERMINATE | STATE_INPROGRESS | STATE_DEINIT.
#[export] Instance State_eq_dec : EqDecision State.
Proof. solve_decision. Defined.
Inductive Error := ERROR_NONE | ERROR_TIME | ERROR_RESPONSE | ERROR_NETWORK | ERROR_CONTENT.
#[export] Instance Error_eq_dec : EqDecision Error.
Proof. solve_decision. Defined.
Inductive Posted := MSG_ERROR | MSG_STATE.
#[export] Instance Posted_eq_dec : EqDecision Posted.
Proof. solve_decision. Defined.

(** What a session signals; [Out] is a stanza for the peer. *)
Inductive Effect :=
  | SignalState (state : State)
  | SignalError (error : Error)
  | Out (stanza : XmlElement)
  | SignalErrorMessage (stanza : XmlElement) (name : QName) (text : bytes)
  | SignalRequestSignaling
  | SignalChannelGone (name : bytes)
  | SignalReceivedTerminateReason (reason : bytes)
  | SignalInfoMessage (action_elem : XmlElement)
  | SignalRemoteDescriptionUpdate.

(** What the client may call. *)
Inductive ClientCall (D : Type) :=
  | CallInitiate (to : bytes) (sdesc : list (ContentInfo D))
  | CallAccept (sdesc : list (ContentInfo D))
  | CallReject (reason : bytes)
  | CallTerminate (reason : bytes)
  | CallSendInfo (elems : list XmlElement)
  | CallCreateChannel (content_name channel_name : bytes)
  | CallDestroyChannel (content_name channel_name : bytes)
  | CallSetError (error : Error).
#[global] Arguments CallInitiate {D}.
#[global] Arguments CallAccept {D}.
#[global] Arguments CallReject {D}.
#[global] Arguments CallTerminate {D}.
#[global] Arguments CallSendInfo {D}.
#[global] Arguments CallCreateChannel {D}.
#[global] Arguments CallDestroyChannel {D}.
#[global] Arguments CallSetError {D}.

(** [timer_] holds the delay of a posted [MSG_TIMEOUT]; [posted_] the other
    messages posted to the session, the oldest first. *)
Record Session (D : Type) := mkSession {
  local_name_ : bytes; remote_name_ : bytes; sid_ : bytes; initiator_name_ : bytes; content_type_ : bytes;
  client_ : ContentParser D;
  state_ : State; error_ : Error;
  initiator_ : bool; initiate_acked_ : bool;
  current_protocol_ : SignalingProtocol;
  local_description_ : option (list (ContentInfo D));
  remote_description_ : option (list (ContentInfo D));
  allow_local_ips_ : bool;
  transports_ : smap bytes Proxy.TransportProxy;
  posted_ : list Posted; timer_ : option Z;
  effects_ : list Effect;
}.
#[global] Arguments mkSession {D}.
#[global] Arguments local_name_ {D}.
#[global] Arguments remote_name_ {D}.
#[global] Arguments sid_ {D}.
#[global] Arguments initiator_name_ {D}.
#[global] Arguments content_type_ {D}.
#[global] Arguments client_ {D}.
#[global] Arguments state_ {D}.
#[global] Arguments error_ {D}.
#[global] Arguments initiator_ {D}.
#[global] Arguments initiate_acked_ {D}.
#[global] Arguments current_protocol_ {D}.
#[global] Arguments local_description_ {D}.
#[global] Arguments remote_description_ {D}.
#[global] Arguments allow_local_ips_ {D}.
#[global] Arguments transports_ {D}.
#[global] Arguments posted_ {D}.
#[global] Arguments timer_ {D}.
#[global] Arguments effects_ {D}.
#[export] Instance Session_eta D : Eta (Session D) := fun s =>
  mkSession (local_name_ s) (remote_name_ s) (sid_ s) (initiator_name_ s) (content_type_ s) (client_ s) (state_ s) (error_ s)
    (initiator_ s) (initiate_acked_ s) (current_protocol_ s) (local_description_ s) (remote_description_ s)
    (allow_local_ips_ s) (transports_ s) (posted_ s) (timer_ s) (effects_ s).

Definition transport_type_ : bytes := NS_GINGLE_P2P.
(** The constructor does not set [allow_local_ips_]. *)
Definition make {D} (local_name initiator_name sid content_type : bytes) (client : ContentParser D) (uninitialized : bool) : Session D :=
  mkSession local_name [] sid initiator_name content_type client STATE_INIT ERROR_NONE false false PROTOCOL_HYBRID None None
    uninitialized [] [] None [].

(** ** Descriptions *)

Section Description.
Context {D : Type}.
Definition GetContentByName (name : bytes) (contents : list (ContentInfo D)) : option (ContentInfo D) :=
FindContentInfoByName contents name.
Definition AddContent (c : ContentInfo D) (contents : list (ContentInfo D)) : list (ContentInfo D) := contents ++ [c].
(** The first content of the name. *)
Fixpoint RemoveContentByName (name : bytes) (contents : list (ContentInfo D)) : list (ContentInfo D) :=
match contents with
| [] => []
| c :: cs => if decide (cn_name c = name) then cs else c :: RemoveContentByName name cs
end.
Definition GetEmptyTransportInfos (contents : list (ContentInfo D)) : list TransportInfo :=
map (fun c => mkTransportInfo (cn_name c) transport_type_ []) contents.
End Description.

(** ** Operations *)

Section Code.
Context {D : Type}.
(** The parser of candidates, the seconds a transport may take to become
  writable, the host's name and addresses, and whether [ASSERT] is compiled
  in where the code goes on without it. *)
Context (transport_parser : TransportParser) (session_timeout : Z) (hostname : bytes) (local_ips : list Z) (debug : bool).
(** What the client calls before a signal returns. *)
Context (reaction : Session D -> Effect -> list (ClientCall D)).

Definition P (A : Type) : Type := Prog (Session D) A.
Definition emit (e : Effect) : P unit := modify (fun s => s <| effects_ := effects_ s ++ [e] |>).
Definition Post (m : Posted) : P unit := modify (fun s => s <| posted_ := posted_ s ++ [m] |>).
Definition debug_assert (b : bool) : P unit := if debug then ASSERT b else mret tt.

Definition GetContentParsers (s : Session D) : gmap bytes (ContentParser D) := {[content_type_ s := client_ s]}.
Definition GetTransportParsers : gmap bytes TransportParser := {[transport_type_ := transport_parser]}.
Definition initiator_description (s : Session D) : option (list (ContentInfo D)) :=
if initiator_ s then local_description_ s else remote_description_ s.

(** *** Transports *)

Definition GetTransportProxy (content_name : bytes) (s : Session D) : option Proxy.TransportProxy :=
map_find content_name (transports_ s).
Definition set_proxy (content_name : bytes) (p : Proxy.TransportProxy) : P unit :=
modify (fun s => s <| transports_ := map_set content_name p (transports_ s) |>).
Definition GetTransport (content_name : bytes) (s : Session D) : option Transport.Transport :=
Proxy.transport_ <$> GetTransportProxy content_name s.
Definition set_allow_local_ips (allow : bool) : P unit :=
modify (fun s => s <| allow_local_ips_ := allow |>
  <| transports_ := map (fun e => (fst e, Proxy.with_transport (Transport.set_allow_local_ips allow) (snd e))) (transports_ s) |>).
Definition GetChannel (content_name channel_name : bytes) (s : Session D) : option Proxy.ChannelProxy :=
p ← GetTransportProxy content_name s; Proxy.GetProxy channel_name p.
Definition GetFirstTransportProxy (s : Session D) : option (bytes * Proxy.TransportProxy) := head (transports_ s).
Definition GetOrCreateTransportProxy (content_name : bytes) : P Proxy.TransportProxy :=
s ← get;
match GetTransportProxy content_name s with
| Some transproxy => mret transproxy
| None =>
    let transproxy := Proxy.make (Transport.set_allow_local_ips (allow_local_ips_ s) Transport.make) in
    set_proxy content_name transproxy;; mret transproxy
end.
(** The text of the error, if any. *)
Fixpoint CreateTransportProxies (tinfos : list TransportInfo) : P (option bytes) :=
match tinfos with
| [] => mret None
| tinfo :: tinfos =>
    if decide (transport_type tinfo = transport_type_)
    then GetOrCreateTransportProxy (content_name tinfo);; CreateTransportProxies tinfos
    else mret (Some (str "No supported transport in offer."))
end.
Definition SpeculativelyConnectAllTransportChannels : P unit :=
s ← get;
for_each (fun content_name =>
  p ← gets (GetTransportProxy content_name);
  p ← the Dangling p;
  p ← the AssertFailed (Proxy.SpeculativelyConnectChannels p);
  set_proxy content_name p) (map fst (transports_ s)).

(** The candidates of one content are checked before any is handed on. *)
Definition VerifyCandidates (p : Proxy.TransportProxy) (cands : list Port.Candidate) (content_name : bytes) : option bytes :=
match map_result (fun cand =>
  Transport.VerifyCandidate hostname local_ips cand (Proxy.transport_ p);;
  if Transport.HasChannel (Port.c_name cand) (Proxy.transport_ p) then Good tt
  else BadParse (str "channel named in candidate does not exist: " ++ Port.c_name cand ++ str " for content: " ++ content_name)) cands
with Good _ => None | Bad text => Some text end.
Fixpoint OnRemoteCandidates (tinfos : list TransportInfo) : P (option bytes) :=
match tinfos with
| [] => mret None
| tinfo :: tinfos =>
    s ← get;
    match GetTransportProxy (content_name tinfo) s with
    | None => mret (Some (str "Unknown content name: " ++ content_name tinfo))
    | Some p =>
        p ← the AssertFailed (Proxy.CompleteNegotiation p);
        set_proxy (content_name tinfo) p;;
        match VerifyCandidates p (ti_candidates tinfo) (content_name tinfo) with
        | Some text => mret (Some text)
        | None =>
            let t := Transport.OnRemoteCandidates (ti_candidates tinfo) (Proxy.transport_ p) in
            set_proxy (content_name tinfo) (Proxy.with_transport (fun _ => t) p);;
            OnRemoteCandidates tinfos
        end
    end
end.

Definition CreateChannel (content_name channel_name : bytes) : P unit :=
p ← GetOrCreateTransportProxy content_name;
p ← the AssertFailed (Proxy.CreateChannel channel_name p);
set_proxy content_name p.
Definition DestroyChannel (content_name channel_name : bytes) : P unit :=
p ← gets (GetTransportProxy content_name);
p ← the AssertFailed p;
set_proxy content_name (Proxy.DestroyChannel channel_name p).

(** *** Sending *)

Definition outgoing (p : SignalingProtocol) (type : ActionType) (s : Session D) : Outgoing :=
mkOutgoing p type (sid_ s) (initiator_name_ s) (remote_name_ s).
(** [SendMessage] with elements. *)
Definition elements_stanza (type : ActionType) (action_elems : list XmlElement) (s : Session D) : XmlElement :=
WriteSessionMessage (outgoing (current_protocol_ s) type s) action_elems (new_element QN_IQ).
(** An action that can be written in either syntax. *)
Definition WriteActionMessage_protocol (p : SignalingProtocol) (type : ActionType)
  (write : SignalingProtocol -> result (list XmlElement)) (s : Session D) (stanza : XmlElement) : result XmlElement :=
action_elems ← write p;
Good (WriteSessionMessage (outgoing p type s) action_elems stanza).
Definition WriteActionMessage (type : ActionType) (write : SignalingProtocol -> result (list XmlElement)) (s : Session D)
  : result XmlElement :=
let stanza := new_element QN_IQ in
if decide (current_protocol_ s = PROTOCOL_HYBRID) then
  stanza ← WriteActionMessage_protocol PROTOCOL_JINGLE type write s stanza;
  WriteActionMessage_protocol PROTOCOL_GINGLE type write s stanza
else WriteActionMessage_protocol (current_protocol_ s) type write s stanza.
Definition SendMessage_elems (type : ActionType) (action_elems : list XmlElement) : P unit :=
s ← get; emit (Out (elements_stanza type action_elems s)).
Definition send_result (r : result XmlElement) : P bool :=
match r with Bad _ => mret false | Good stanza => emit (Out stanza);; mret true end.

Definition initiate_stanza (sdesc : list (ContentInfo D)) (s : Session D) : result XmlElement :=
WriteActionMessage ACTION_SESSION_INITIATE (fun p =>
  WriteSessionInitiate p sdesc (GetEmptyTransportInfos sdesc) (GetContentParsers s) GetTransportParsers) s.
Definition SendInitiateMessage (sdesc : list (ContentInfo D)) : P bool :=
s ← get; send_result (initiate_stanza sdesc s).
Definition accept_stanza (sdesc : list (ContentInfo D)) (s : Session D) : result XmlElement :=
elems ← WriteSessionAccept (current_protocol_ s) sdesc (GetEmptyTransportInfos sdesc) (GetContentParsers s) GetTransportParsers;
Good (elements_stanza ACTION_SESSION_ACCEPT elems s).
Definition SendAcceptMessage (sdesc : list (ContentInfo D)) : P bool :=
s ← get; send_result (accept_stanza sdesc s).
Definition SendRejectMessage (reason : bytes) : P unit := SendMessage_elems ACTION_SESSION_REJECT [].
Definition terminate_stanza (reason : bytes) (s : Session D) : result XmlElement :=
WriteActionMessage ACTION_SESSION_TERMINATE (fun p => Good (WriteSessionTerminate p (mkTerminate reason []))) s.
Definition SendTerminateMessage (reason : bytes) : P bool :=
s ← get; send_result (terminate_stanza reason s).
Definition transport_info_stanza (content_name : bytes) (candidates : list Port.Candidate) (s : Session D) : result XmlElement :=
WriteActionMessage ACTION_TRANSPORT_INFO (fun p =>
  WriteTransportInfos p [mkTransportInfo content_name Transport.type candidates] GetTransportParsers) s.
Definition SendTransportInfoMessage (content_name : bytes) (candidates : list Port.Candidate) : P bool :=
s ← get; send_result (transport_info_stanza content_name candidates s).
(** Sends what [pending] holds for each content and forgets it, up to a message
  that cannot be written. *)
Fixpoint SendAll (pending : Proxy.TransportProxy -> list Port.Candidate) (clear : Proxy.TransportProxy -> Proxy.TransportProxy)
  (content_names : list bytes) : P bool :=
match content_names with
| [] => mret true
| content_name :: content_names =>
    p ← gets (GetTransportProxy content_name);
    p ← the Dangling p;
    if decide (pending p = []) then SendAll pending clear content_names else
    ok ← SendTransportInfoMessage content_name (pending p);
    if ok : bool then set_proxy content_name (clear p);; SendAll pending clear content_names else mret false
end.
Definition ResendAllTransportInfoMessages : P bool :=
s ← get; SendAll Proxy.sent_candidates_ Proxy.ClearSentCandidates (map fst (transports_ s)).
Definition SendAllUnsentTransportInfoMessages : P bool :=
s ← get; SendAll Proxy.unsent_candidates_ Proxy.ClearUnsentCandidates (map fst (transports_ s)).
Definition acknowledgement (stanza : XmlElement) (s : Session D) : XmlElement :=
let ack := SetAttr QN_TO (remote_name_ s) (new_element QN_IQ) in
let ack := SetAttr QN_ID (Attr QN_ID stanza) ack in
SetAttr QN_TYPE (str "result") ack.
Definition SendAcknowledgementMessage (stanza : XmlElement) : P unit :=
s ← get; emit (Out (acknowledgement stanza s)).
Definition SendInfoMessage (elems : list XmlElement) : P bool := SendMessage_elems ACTION_SESSION_INFO elems;; mret true.

(** *** States, and the calls of the client

  [set] changes the state; it is a parameter of the calls because the client
  may make them from its handler of a change. *)

Definition BaseSession_SetError (notify : Effect -> P unit) (error : Error) : P unit :=
s ← get;
if decide (error = error_ s) then mret tt
else modify (fun s => s <| error_ := error |>);; notify (SignalError error).
Definition SetError (notify : Effect -> P unit) (error : Error) : P unit :=
BaseSession_SetError notify error;;
s ← get;
if decide (error_ s = ERROR_NONE) then mret tt else Post MSG_ERROR.

Section Calls.
Variable set : State -> P unit.
Variable notify : Effect -> P unit.

Definition Initiate (to : bytes) (sdesc : list (ContentInfo D)) : P bool :=
s ← get;
if negb (bool_decide (state_ s = STATE_INIT)) then mret false else
modify (fun s => s <| remote_name_ := to |> <| initiator_ := true |> <| local_description_ := Some sdesc |>);;
error ← CreateTransportProxies (GetEmptyTransportInfos sdesc);
if bool_decide (is_Some error) then mret false else
ok ← SendInitiateMessage sdesc;
if negb ok then mret false else
set STATE_SENTINITIATE;;
SpeculativelyConnectAllTransportChannels;;
mret true.
Definition Accept (sdesc : list (ContentInfo D)) : P bool :=
s ← get;
if negb (bool_decide (state_ s = STATE_RECEIVEDINITIATE)) then mret false else
modify (fun s => s <| initiator_ := false |> <| local_description_ := Some sdesc |>);;
ok ← SendAcceptMessage sdesc;
if negb ok then mret false else
set STATE_SENTACCEPT;;
mret true.
Definition Reject (reason : bytes) : P bool :=
s ← get;
if negb (bool_decide (state_ s = STATE_RECEIVEDINITIATE)) && negb (bool_decide (state_ s = STATE_RECEIVEDMODIFY))
then mret false else
modify (fun s => s <| initiator_ := false |>);;
SendRejectMessage reason;;
set STATE_SENTREJECT;;
mret true.
Definition TerminateWithReason (reason : bytes) : P bool :=
s ← get;
match state_ s with
| STATE_SENTTERMINATE | STATE_RECEIVEDTERMINATE => mret false
| STATE_SENTREJECT | STATE_RECEIVEDREJECT => set STATE_SENTTERMINATE;; mret true
| _ =>
    ok ← SendTerminateMessage reason;
    if negb ok then mret false else set STATE_SENTTERMINATE;; mret true
end.
Definition Terminate : P bool := TerminateWithReason STR_TERMINATE_SUCCESS.

Definition client_call (c : ClientCall D) : P unit :=
match c with
| CallInitiate to sdesc => Initiate to sdesc;; mret tt
| CallAccept sdesc => Accept sdesc;; mret tt
| CallReject reason => Reject reason;; mret tt
| CallTerminate reason => TerminateWithReason reason;; mret tt
| CallSendInfo elems => SendInfoMessage elems;; mret tt
| CallCreateChannel content_name channel_name => CreateChannel content_name channel_name
| CallDestroyChannel content_name channel_name => DestroyChannel content_name channel_name
| CallSetError error => SetError notify error
end.
End Calls.

Definition set_with (notify : Effect -> P unit) (state : State) : P unit :=
s ← get;
if decide (state = state_ s) then mret tt else
modify (fun s => s <| state_ := state |>);;
notify (SignalState state);;
Post MSG_STATE.
(** A signal runs the client before it returns: the calls it makes change the
  session, and signal in turn. *)
Fixpoint signal (fuel : nat) (e : Effect) : P unit :=
match fuel with
| O => fail OutOfFuel
| S fuel =>
    emit e;;
    s ← get;
    for_each (client_call (set_with (signal fuel)) (signal fuel)) (reaction s e)
end.
(** Every state the client can reach from its handlers is further on, and it can
  set an error between two of them. *)
Definition signal_fuel : nat := 12.
Definition notify : Effect -> P unit := signal signal_fuel.
Definition set_state : State -> P unit := set_with notify.

(** *** Messages of the peer

  A handler returns the error it finds: the name and the text of the answer. *)

Definition MessageError : Type := option (QName * bytes).
Definition parse_error (text : bytes) : MessageError := Some (QN_STANZA_BAD_REQUEST, text).
Definition CheckState (state : State) : P MessageError :=
s ← get;
debug_assert (bool_decide (state_ s = state));;
if decide (state_ s = state) then mret None
else mret (Some (QN_STANZA_NOT_ALLOWED, str "message not allowed in current state")).
(** Runs the rest if there was no error. *)
Definition and_then (m : P MessageError) (rest : P MessageError) : P MessageError :=
e ← m; match e with Some e => mret (Some e) | None => rest end.
Definition remote_candidates (tinfos : list TransportInfo) : P MessageError :=
e ← OnRemoteCandidates tinfos; mret (e ≫= parse_error).

Definition OnInitiateMessage (msg : SessionMessage) : P MessageError :=
and_then (CheckState STATE_INIT) (
s ← get;
match ParseSessionInitiate (protocol msg) (action_elem msg) (GetContentParsers s) GetTransportParsers with
| Bad text => mret (parse_error text)
| Good init =>
    error ← CreateTransportProxies (transports init);
    match error with
    | Some text => mret (Some (QN_STANZA_NOT_ACCEPTABLE, text))
    | None =>
        modify (fun s => s <| initiator_ := false |> <| remote_name_ := m_from msg |>
                           <| remote_description_ := Some (contents init) |>);;
        set_state STATE_RECEIVEDINITIATE;;
        s ← get;
        if decide (state_ s = STATE_SENTREJECT) then mret None else remote_candidates (transports init)
    end
end).

Definition OnInitiateAcked : P unit :=
s ← get;
if initiate_acked_ s then mret tt
else modify (fun s => s <| initiate_acked_ := true |>);; SendAllUnsentTransportInfoMessages;; mret tt.

Definition OnAcceptMessage (msg : SessionMessage) : P MessageError :=
and_then (CheckState STATE_SENTINITIATE) (
s ← get;
match ParseSessionAccept (protocol msg) (action_elem msg) (GetContentParsers s) GetTransportParsers with
| Bad text => mret (parse_error text)
| Good accept =>
    OnInitiateAcked;;
    modify (fun s => s <| remote_description_ := Some (contents accept) |>);;
    set_state STATE_RECEIVEDACCEPT;;
    s ← get;
    if decide (state_ s = STATE_SENTREJECT) then mret None else remote_candidates (transports accept)
end).
Definition OnRejectMessage (msg : SessionMessage) : P MessageError :=
and_then (CheckState STATE_SENTINITIATE) (set_state STATE_RECEIVEDREJECT;; mret None).
Definition OnInfoMessage (msg : SessionMessage) : P MessageError := notify (SignalInfoMessage (action_elem msg));; mret None.
Definition OnTerminateMessage (msg : SessionMessage) : P MessageError :=
let term := ParseSessionTerminate (protocol msg) (action_elem msg) in
notify (SignalReceivedTerminateReason (reason term));;
set_state STATE_RECEIVEDTERMINATE;;
mret None.
(** The description of the initiator is followed without a check. *)
Definition OnTransportInfoMessage (msg : SessionMessage) : P MessageError :=
s ← get;
description ← the Dangling (initiator_description s);
match ParseTransportInfos (protocol msg) (action_elem msg) description GetTransportParsers with
| Bad text => mret (parse_error text)
| Good tinfos => remote_candidates tinfos
end.
Definition OnTransportAcceptMessage (msg : SessionMessage) : P MessageError := mret None.
Definition OnUpdateMessage (msg : SessionMessage) : P MessageError :=
and_then (CheckState STATE_INPROGRESS) (
s ← get;
match ParseDescriptionInfo (protocol msg) (action_elem msg) (GetContentParsers s) GetTransportParsers with
| Bad text => mret (parse_error text)
| Good info =>
    description ← the Dangling (remote_description_ s);
    if forallb (fun c => bool_decide (is_Some (GetContentByName (cn_name c) description))) (contents info) then
      let description := foldl (fun d c => AddContent c (RemoveContentByName (cn_name c) d)) description (contents info) in
      modify (fun s => s <| remote_description_ := Some description |>);;
      notify SignalRemoteDescriptionUpdate;;
      mret None
    else mret (parse_error [])
end).

Definition message_handler (msg : SessionMessage) : P MessageError :=
match m_type msg with
| ACTION_SESSION_INITIATE => OnInitiateMessage msg
| ACTION_SESSION_INFO => OnInfoMessage msg
| ACTION_SESSION_ACCEPT => OnAcceptMessage msg
| ACTION_SESSION_REJECT => OnRejectMessage msg
| ACTION_SESSION_TERMINATE => OnTerminateMessage msg
| ACTION_TRANSPORT_INFO => OnTransportInfoMessage msg
| ACTION_TRANSPORT_ACCEPT => OnTransportAcceptMessage msg
| ACTION_UPDATE => OnUpdateMessage msg
| ACTION_UNKNOWN => mret (Some (QN_STANZA_BAD_REQUEST, str "unknown session message type"))
end.
Definition choose_protocol (p : SignalingProtocol) : P unit :=
modify (fun s =>
  if decide (current_protocol_ s = PROTOCOL_HYBRID)
  then s <| current_protocol_ := if decide (p = PROTOCOL_GINGLE) then PROTOCOL_GINGLE else PROTOCOL_JINGLE |> else s).
Definition OnIncomingMessage (msg : SessionMessage) : P unit :=
s ← get;
debug_assert (bool_decide (state_ s = STATE_INIT) || bool_decide (m_from msg = remote_name_ s));;
choose_protocol (protocol msg);;
error ← message_handler msg;
match error with
| None => SendAcknowledgementMessage (stanza msg)
| Some (name, text) => emit (SignalErrorMessage (stanza msg) name text)
end.

(** *** Answers of the peer *)

Definition OnIncomingResponse (msg : SessionMessage) : P unit :=
if decide (m_type msg = ACTION_SESSION_INITIATE) then OnInitiateAcked else mret tt.
Definition BareJidsEqual (name1 name2 : bytes) : bool :=
let jid1 := Jid.of_string name1 in
let jid2 := Jid.of_string name2 in
Jid.IsValid jid1 && Jid.IsValid jid2 && Jid.BareEquals jid1 jid2.
Definition OnRedirectError (target : bytes) : P bool :=
e ← CheckState STATE_SENTINITIATE;
if bool_decide (is_Some e) then mret false else
s ← get;
if negb (BareJidsEqual (remote_name_ s) target) then mret false else
modify (fun s => s <| remote_name_ := target |>);;
sdesc ← the Dangling (local_description_ s);
ok ← SendInitiateMessage sdesc;
if negb ok then mret false else ResendAllTransportInfoMessages.
Definition OnFailedSend (orig_stanza error_stanza : XmlElement) : P unit :=
match ParseSessionMessage orig_stanza with
| Bad _ => mret tt
| Good msg =>
    match FindSessionRedirect error_stanza with
    | Some target =>
        ok ← OnRedirectError target;
        if negb ok then SetError notify ERROR_RESPONSE else mret tt
    | None =>
        match FirstNamed QN_ERROR error_stanza with
        | None => mret tt
        | Some error =>
            let error_type := Attr QN_TYPE error in
            if decide (m_type msg = ACTION_TRANSPORT_INFO) then
              for_each (fun elem =>
                s ← get;
                match GetFirstTransportProxy s with
                | Some (_, transproxy) =>
                    if decide (Transport.type = Namespace (Name error)) then
                      debug_assert (bool_decide (Namespace (Name elem) = Transport.type));;
                      for_each (fun g => match g with Transport.SignalChannelGone name => notify (SignalChannelGone name) | _ => mret tt end)
                        (Transport.OnTransportError elem (Proxy.transport_ transproxy))
                    else mret tt
                | None => mret tt
                end) (elements error)
            else if negb (bool_decide (error_type = str "continue")) && negb (bool_decide (error_type = str "wait"))
            then SetError notify ERROR_RESPONSE
            else mret tt
        end
    end
end.

(** *** Signals of the transports *)

Definition OnTransportWritable (content_name : bytes) : P unit :=
modify (fun s => s <| timer_ := None |>);;
p ← gets (GetTransportProxy content_name);
p ← the Dangling p;
if Transport.HasChannels (Proxy.transport_ p) && negb (Transport.writable_ (Proxy.transport_ p))
then modify (fun s => s <| timer_ := Some (session_timeout * 1000) |>)
else mret tt.
Definition OnTransportConnecting : bytes -> P unit := OnTransportWritable.
Definition OnTransportCandidatesReady (content_name : bytes) (candidates : list Port.Candidate) : P unit :=
s ← get;
match GetTransportProxy content_name s with
| None => mret tt
| Some p =>
    if initiator_ s && negb (initiate_acked_ s) then set_proxy content_name (Proxy.AddUnsentCandidates candidates p)
    else
      (if Proxy.negotiated p then mret tt else set_proxy content_name (Proxy.AddSentCandidates candidates p));;
      SendTransportInfoMessage content_name candidates;;
      mret tt
end.
Definition on_transport_signal (content_name : bytes) (g : Transport.Signal) : P unit :=
match g with
| Transport.SignalConnecting => OnTransportConnecting content_name
| Transport.SignalWritableState => OnTransportWritable content_name
| Transport.SignalRequestSignaling => emit SignalRequestSignaling
| Transport.SignalCandidatesReady candidates => OnTransportCandidatesReady content_name candidates
| Transport.SignalChannelGone name => notify (SignalChannelGone name)
| Transport.SignalReadableState | Transport.SignalRouteChange _ _ => mret tt
end.
(** An event of the transport of a content: a signal of its channels, or the
  next message of one of its threads. *)
Definition transport_event (content_name : bytes) (e : TransportRuns.event) : P unit :=
p ← gets (GetTransportProxy content_name);
p ← the Dangling p;
'(t, signals) ← the AssertFailed (TransportRuns.step e (Proxy.transport_ p));
set_proxy content_name (Proxy.with_transport (fun _ => t) p);;
for_each (on_transport_signal content_name) signals.
Definition OnSignalingReady : P unit :=
modify (fun s => s <| transports_ :=
  map (fun e => (fst e, Proxy.with_transport Transport.OnSignalingReady_ (snd e))) (transports_ s) |>).

(** *** Posted messages *)

Definition BaseSession_OnMessage (m : Posted) : P unit :=
s ← get;
match m with
| MSG_ERROR => TerminateWithReason set_state STR_TERMINATE_ERROR;; mret tt
| MSG_STATE =>
    match state_ s with
    | STATE_SENTACCEPT | STATE_RECEIVEDACCEPT => set_state STATE_INPROGRESS
    | STATE_SENTREJECT | STATE_RECEIVEDREJECT => Terminate set_state;; mret tt
    | _ => mret tt
    end
end.
(** The destructor; the client does not call a session that goes. *)
Definition destroy : P unit :=
s ← get;
ASSERT (negb (bool_decide (state_ s = STATE_DEINIT)));;
modify (fun s => s <| state_ := STATE_DEINIT |>);;
emit (SignalState STATE_DEINIT);;
modify (fun s => s <| transports_ := [] |>).
(** Whether the session is to be destroyed. *)
Definition OnMessage (m : Posted) : P bool :=
s ← get;
BaseSession_OnMessage m;;
mret (match m, state_ s with
      | MSG_STATE, (STATE_SENTTERMINATE | STATE_RECEIVEDTERMINATE) => true
      | _, _ => false
      end).
(** The signaling thread takes the oldest message; the timer has its own. *)
Definition run_posted : P bool :=
s ← get;
match posted_ s with
| [] => mret false
| m :: q => modify (fun s => s <| posted_ := q |>);; OnMessage m
end.
Definition run_timer : P unit :=
s ← get;
match timer_ s with
| None => mret tt
| Some _ => modify (fun s => s <| timer_ := None |>);; SetError notify ERROR_TIME
end.

(** ** Runs

  What happens to a session, in the order of the signaling thread. *)
Inductive event :=
| Client (c : ClientCall D)
| Incoming (msg : SessionMessage)
| Response (msg : SessionMessage)
| FailedSend (orig_stanza error_stanza : XmlElement)
| TransportEvent (content_name : bytes) (e : TransportRuns.event)
| SignalingReady
| AllowLocalIps (allow : bool)
| RunPosted
| RunTimer.
(** Whether the session is to be destroyed. *)
Definition handle (e : event) : P bool :=
match e with
| Client c => client_call set_state notify c;; mret false
| Incoming msg => OnIncomingMessage msg;; mret false
| Response msg => OnIncomingResponse msg;; mret false
| FailedSend orig_stanza error_stanza => OnFailedSend orig_stanza error_stanza;; mret false
| TransportEvent content_name e => transport_event content_name e;; mret false
| SignalingReady => OnSignalingReady;; mret false
| AllowLocalIps allow => set_allow_local_ips allow;; mret false
| RunPosted => run_posted
| RunTimer => run_timer;; mret false
end.
End Code.
#[global] Arguments Client {D}.
#[global] Arguments Incoming {D}.
#[global] Arguments Response {D}.
#[global] Arguments FailedSend {D}.
#[global] Arguments TransportEvent {D}.
#[global] Arguments SignalingReady {D}.
#[global] Arguments AllowLocalIps {D}.
#[global] Arguments RunPosted {D}.
#[global] Arguments RunTimer {D}.
End Session.
