(* ===== verification/SessionSteps.v ===== *)
(** * What a session does to its state

    [evolves input s s'] is the abstract specification of a session: the changes
    the negotiation allows, each with the stanza that goes out before it and the
    message that brings it in.  A change is a big step: what the client does in
    its handler lies between the change and the message the session posts to
    itself.  Every operation of [Session] is shown to evolve its session, and to
    end, for a client that sets no error while it hears of one. *)

From S2P Require Import Prelude SocketAddress StdMap Port Xml SessionMessages Effects Transport Session.
Import Xml Const Messages Session.
#[local] Open Scope jingle_scope.

Module Steps.

(** ** The states *)

Definition is_state (a b : State) : bool := bool_decide (a = b).
Definition terminated (s : State) : bool := is_state s STATE_SENTTERMINATE || is_state s STATE_RECEIVEDTERMINATE.
Definition rejected (s : State) : bool := is_state s STATE_SENTREJECT || is_state s STATE_RECEIVEDREJECT.
Definition accepted (s : State) : bool := is_state s STATE_SENTACCEPT || is_state s STATE_RECEIVEDACCEPT.
(** The session leaves these states by itself. *)
Definition pending (s : State) : bool := accepted s || rejected s || terminated s.
Definition edge (s s' : State) : bool :=
  match s' with
  | STATE_SENTINITIATE | STATE_RECEIVEDINITIATE => is_state s STATE_INIT
  | STATE_SENTACCEPT => is_state s STATE_RECEIVEDINITIATE
  | STATE_RECEIVEDACCEPT | STATE_RECEIVEDREJECT => is_state s STATE_SENTINITIATE
  | STATE_SENTREJECT => is_state s STATE_RECEIVEDINITIATE || is_state s STATE_RECEIVEDMODIFY
  | STATE_INPROGRESS => accepted s
  | STATE_SENTTERMINATE => negb (terminated s)
  | STATE_RECEIVEDTERMINATE => negb (is_state s STATE_RECEIVEDTERMINATE)
  | _ => false
  end.
(** Every change goes up. *)
Definition rank (s : State) : nat :=
  match s with
  | STATE_INIT | STATE_DEINIT => 0
  | STATE_SENTINITIATE | STATE_RECEIVEDINITIATE | STATE_RECEIVEDMODIFY | STATE_SENTMODIFY | STATE_SENTREDIRECT => 1
  | STATE_SENTACCEPT | STATE_RECEIVEDACCEPT | STATE_SENTREJECT | STATE_RECEIVEDREJECT => 2
  | STATE_INPROGRESS => 3
  | STATE_SENTTERMINATE => 4
  | STATE_RECEIVEDTERMINATE => 5
  end.
Lemma edge_rank s s' : edge s s' = true -> (rank s < rank s')%nat.
Proof. destruct s, s'; vm_compute; intros H; (discriminate H || lia). Qed.
Lemma edge_differs s s' : edge s s' = true -> s' <> s.
Proof. intros H%edge_rank ->. lia. Qed.

Section Spec.
Context {D : Type} (transport_parser : TransportParser) (input : option SessionMessage).
Implicit Types s : Session D.

Definition emitted (e : Effect) s : Session D := s <| effects_ := effects_ s ++ [e] |>.
Definition post s : Session D := s <| posted_ := posted_ s ++ [MSG_STATE] |>.
Definition enter (out : list XmlElement) (remote : option (list (ContentInfo D))) (st : State) s : Session D :=
s <| remote_description_ := remote |> <| state_ := st |>
  <| effects_ := effects_ s ++ map Out out ++ [SignalState st] |>.

(** What leaves the negotiation as it is. *)
Record quiet s s' : Prop := mkQuiet {
q_names : local_name_ s' = local_name_ s /\ sid_ s' = sid_ s /\ initiator_name_ s' = initiator_name_ s;
q_client : content_type_ s' = content_type_ s /\ client_ s' = client_ s;
q_state : state_ s' = state_ s;
q_local : local_description_ s' = local_description_ s;
q_remote : remote_description_ s' = remote_description_ s;
q_effects : effects_ s' = effects_ s;
q_initiator : initiator_ s' = initiator_ s \/ state_ s = STATE_INIT \/
  (initiator_ s' = false /\ (state_ s = STATE_RECEIVEDINITIATE \/ state_ s = STATE_RECEIVEDMODIFY));
q_posted : exists n, posted_ s' = posted_ s ++ replicate n MSG_ERROR;
q_transports : forall name, is_Some (GetTransportProxy name s) -> is_Some (GetTransportProxy name s') }.

(** Stanzas and signals that say nothing of the negotiation. *)
Definition neutral s (x : XmlElement) : Prop :=
(exists elems, x = elements_stanza ACTION_SESSION_INFO elems s) \/
(exists name cands, transport_info_stanza transport_parser name cands s = Good x).
Definition plain s (e : Effect) : Prop :=
match e with
| SignalState _ | SignalErrorMessage _ _ _ => False
| Out x => neutral s x
| _ => True
end.

(** What goes out before a change to [st]. *)
Definition sends s (st : State) (out : list XmlElement) : Prop :=
match st with
| STATE_SENTINITIATE => initiator_ s = true /\
    exists d x, local_description_ s = Some d /\ initiate_stanza transport_parser d s = Good x /\ out = [x]
| STATE_SENTACCEPT => initiator_ s = false /\
    exists d x, local_description_ s = Some d /\ accept_stanza transport_parser d s = Good x /\ out = [x]
| STATE_SENTREJECT => out = [elements_stanza ACTION_SESSION_REJECT [] s]
| STATE_SENTTERMINATE =>
    if rejected (state_ s) then out = [] else exists reason x, terminate_stanza reason s = Good x /\ out = [x]
| _ => out = []
end.
(** The message that brings a change to [st]. *)
Definition cause (st : State) : option ActionType :=
match st with
| STATE_RECEIVEDINITIATE => Some ACTION_SESSION_INITIATE
| STATE_RECEIVEDACCEPT => Some ACTION_SESSION_ACCEPT
| STATE_RECEIVEDREJECT => Some ACTION_SESSION_REJECT
| STATE_RECEIVEDTERMINATE => Some ACTION_SESSION_TERMINATE
| _ => None
end.
Definition read s (msg : SessionMessage) (remote : option (list (ContentInfo D))) : Prop :=
exists c, ParseContentMessage (protocol msg) (action_elem msg) (GetContentParsers s) (GetTransportParsers transport_parser) = Good c /\
  remote = Some (contents c).
Definition receives s (st : State) (remote : option (list (ContentInfo D))) : Prop :=
match cause st with
| None => remote = remote_description_ s
| Some t => exists msg, input = Some msg /\ m_type msg = t /\
    match st with
    | STATE_RECEIVEDINITIATE => initiator_ s = false /\ read s msg remote
    | STATE_RECEIVEDACCEPT => read s msg remote
    | _ => remote = remote_description_ s
    end
end.

Inductive evolves : Session D -> Session D -> Prop :=
| ev_trans s1 s2 s3 : evolves s1 s2 -> evolves s2 s3 -> evolves s1 s3
| ev_quiet s s' : quiet s s' -> evolves s s'
| ev_emit s e : plain s e -> evolves s (emitted e s)
| ev_local s d : state_ s = STATE_INIT \/ state_ s = STATE_RECEIVEDINITIATE ->
    evolves s (s <| local_description_ := Some d |>)
| ev_update s msg d : input = Some msg -> m_type msg = ACTION_UPDATE -> state_ s = STATE_INPROGRESS ->
    evolves s (s <| remote_description_ := Some d |>)
| ev_redirect s d x : state_ s = STATE_SENTINITIATE -> local_description_ s = Some d ->
    initiate_stanza transport_parser d s = Good x -> evolves s (emitted (Out x) s)
| ev_change s s' st out remote : edge (state_ s) st = true -> sends s st out -> receives s st remote ->
    evolves (enter out remote st s) s' -> evolves s (post s').

(** ** Facts of the relation *)

Lemma quiet_refl s : quiet s s.
Proof. split; try done; [by left|]. exists 0%nat. by rewrite app_nil_r. Qed.
Lemma quiet_trans s1 s2 s3 : quiet s1 s2 -> quiet s2 s3 -> quiet s1 s3.
Proof.
intros [N1 C1 S1 L1 R1 E1 I1 [n1 P1] T1] [N2 C2 S2 L2 R2 E2 I2 [n2 P2] T2].
split; try (destruct_and?; split_and?; congruence).
- rewrite S1 in I2. destruct I2 as [I2|I2]; [|by right]. destruct I1 as [I1|[I1|[I1 H1]]]; [left; congruence|tauto|].
  right; right. by rewrite I2.
- exists (n1 + n2)%nat. by rewrite P2, P1, <- app_assoc, <- replicate_add.
- auto.
Qed.
Lemma ev_refl s : evolves s s.
Proof. apply ev_quiet, quiet_refl. Qed.

(** The rank never falls; what was posted stays posted, and a change posts. *)
Lemma evolves_rank s s' : evolves s s' -> (rank (state_ s) <= rank (state_ s'))%nat.
Proof.
induction 1 as [| s s' Hq | | | | |s s' st out remote He _ _ _ IH]; try done; [lia|by destruct Hq as [_ _ -> _ _ _ _ _ _]|].
apply edge_rank in He. cbn in IH |- *. lia.
Qed.
Lemma evolves_posted s s' : evolves s s' ->
exists l, posted_ s' = posted_ s ++ l /\ (state_ s' <> state_ s -> MSG_STATE ∈ l).
Proof.
induction 1 as [s1 s2 s3 _ (l1 & P1 & H1) _ (l2 & P2 & H2)| s s' Hq | | | | |s s' st out remote He _ _ _ (l & P & _)];
  try (exists []; by rewrite app_nil_r).
- exists (l1 ++ l2). rewrite P2, P1, app_assoc, elem_of_app. split; [done|]. intros Hn.
  destruct (decide (state_ s2 = state_ s1)) as [E|]; [right; apply H2; congruence|left; by apply H1].
- destruct Hq as [_ _ E _ _ _ _ [n P] _]. exists (replicate n MSG_ERROR). by rewrite E.
- exists (l ++ [MSG_STATE]). cbn in P |- *. rewrite P, app_assoc. split; [done|]. set_solver.
Qed.
End Spec.

(** ** Operations *)

#[local] Existing Instance Proxy.TransportProxy_eta.

(** A session with one field changed: [quiet] by computation. *)
Ltac quiet_tac :=
  split; cbn; try done; [try (by left)|exists 0%nat; by rewrite app_nil_r].

(** The calls that cannot fail from a handler of a message of the peer. *)
Definition modest {D} (c : ClientCall D) : bool :=
  match c with CallInitiate _ _ | CallCreateChannel _ _ | CallDestroyChannel _ _ => false | _ => true end.

Definition sets_error {D} (c : ClientCall D) : bool := match c with CallSetError _ => true | _ => false end.
(** What the client calls from its handlers: only what cannot fail, and no error
  while it hears of one. *)
Definition modest_calls {D} (reaction : Session D -> Effect -> list (ClientCall D)) : Prop :=
  forall s e c, c ∈ reaction s e -> modest c = true.
Definition calm_reaction {D} (reaction : Session D -> Effect -> list (ClientCall D)) : Prop :=
  forall s error c, c ∈ reaction s (SignalError error) -> sets_error c = false.
Definition modest_reaction {D} (reaction : Session D -> Effect -> list (ClientCall D)) : Prop :=
  modest_calls reaction /\ calm_reaction reaction.

Section Ops.
Context {D : Type} (transport_parser : TransportParser) (session_timeout : Z) (hostname : bytes) (local_ips : list Z) (debug : bool).
Context (reaction : Session D -> Effect -> list (ClientCall D)).
(** The faults that are allowed; the message that is handled. *)
Context (F : fault -> Prop) (input : option SessionMessage).
Implicit Types s : Session D.
#[local] Abbreviation evolves := (evolves transport_parser input).

(** The frame of most operations. *)
Definition frame s s' : Prop := quiet s s' /\ initiator_ s' = initiator_ s.
Definition still {A} (m : Prog (Session D) A) s : Prop := wpf F m (fun _ s' => frame s s') s.
Definition goes {A} (m : Prog (Session D) A) s : Prop := wpf F m (fun _ s' => evolves s s') s.

Lemma frame_refl s : frame s s.
Proof. split; [apply quiet_refl|done]. Qed.
Lemma frame_trans s1 s2 s3 : frame s1 s2 -> frame s2 s3 -> frame s1 s3.
Proof. intros [Q1 I1] [Q2 I2]. split; [by eapply quiet_trans|congruence]. Qed.
Lemma frame_evolves s s' : frame s s' -> evolves s s'.
Proof. intros [Q _]. by apply ev_quiet. Qed.

(** Chains what a run does so far with what the rest does. *)
Lemma goes_bind {A B} (m : Prog (Session D) A) (f : A -> Prog (Session D) B) s :
goes m s -> (forall a s', evolves s s' -> goes (f a) s') -> goes (m ≫= f) s.
Proof.
intros Hm Hf. apply wpf_bind. eapply wpf_mono; [exact Hm|]. intros a s' He. eapply wpf_mono; [by apply Hf|].
intros b s'' He'. exact (ev_trans _ _ _ _ _ He He').
Qed.
Lemma still_bind {A B} (m : Prog (Session D) A) (f : A -> Prog (Session D) B) s :
still m s -> (forall a s', frame s s' -> still (f a) s') -> still (m ≫= f) s.
Proof.
intros Hm Hf. apply wpf_bind. eapply wpf_mono; [exact Hm|]. intros a s' He. eapply wpf_mono; [by apply Hf|].
intros b s'' He'. exact (frame_trans _ _ _ He He').
Qed.
Lemma goes_after {A} (m : Prog (Session D) A) s0 s : evolves s0 s -> goes m s -> wpf F m (fun _ s' => evolves s0 s') s.
Proof. intros He Hm. eapply wpf_mono; [exact Hm|]. intros a s' He'. exact (ev_trans _ _ _ _ _ He He'). Qed.
Lemma still_goes {A} (m : Prog (Session D) A) s : still m s -> goes m s.
Proof. intros Hm. eapply wpf_mono; [exact Hm|]. intros a s'. apply frame_evolves. Qed.
Lemma goes_ret {A} (a : A) s : goes (mret a) s.
Proof. apply wpf_ret, ev_refl. Qed.
Lemma still_ret {A} (a : A) s : still (mret a) s.
Proof. apply wpf_ret, frame_refl. Qed.

(** *** Transports *)

Lemma frame_transports s l :
(forall name, is_Some (GetTransportProxy name s) -> is_Some (map_find name l)) -> frame s (s <| transports_ := l |>).
Proof. intros Hl. split; [|done]. by quiet_tac. Qed.
Lemma set_proxy_still name p s : still (set_proxy name p) s.
Proof.
apply wpf_modify, frame_transports. intros name' H. unfold GetTransportProxy in H. rewrite map_find_set.
by destruct (key_same name' name).
Qed.
Lemma has_proxy_after name p s : GetTransportProxy name (s <| transports_ := map_set name p (transports_ s) |>) = Some p.
Proof. unfold GetTransportProxy. cbn. by rewrite map_find_set, key_same_refl. Qed.
Lemma GetOrCreateTransportProxy_still name s : still (GetOrCreateTransportProxy name) s.
Proof.
unfold GetOrCreateTransportProxy. apply wpf_bind, wpf_get. destruct (GetTransportProxy name s); [apply still_ret|].
apply still_bind; [apply set_proxy_still|]. intros _ s' _. apply still_ret.
Qed.
Lemma CreateTransportProxies_still tinfos s : still (CreateTransportProxies tinfos) s.
Proof.
revert s. induction tinfos as [|t ts IH]; intros s; cbn [CreateTransportProxies]; [apply still_ret|].
case_decide; [|apply still_ret]. apply still_bind; [apply GetOrCreateTransportProxy_still|]. intros _ s' _. apply IH.
Qed.

(** A loop over the channels' names cannot fail when its body cannot. *)
Lemma for_proxies_some (f : bytes -> Proxy.TransportProxy -> option Proxy.TransportProxy) p :
(forall name p', is_Some (Proxy.GetProxy name p) -> (forall n, is_Some (Proxy.GetProxy n p) -> is_Some (Proxy.GetProxy n p')) ->
   exists p'', f name p' = Some p'' /\ forall n, is_Some (Proxy.GetProxy n p') -> is_Some (Proxy.GetProxy n p'')) ->
is_Some (Proxy.for_proxies f p).
Proof.
intros Hf. unfold Proxy.for_proxies.
assert (Hl : forall name, name ∈ map fst (Proxy.proxies_ p) -> is_Some (Proxy.GetProxy name p)).
{ intros name ([k v] & -> & Hin)%list_elem_of_fmap. unfold Proxy.GetProxy.
  induction (Proxy.proxies_ p) as [|[k' v'] m IH]; [by apply elem_of_nil in Hin|]. simpl.
  apply elem_of_cons in Hin as [[= <- <-]|Hin]; [by rewrite key_same_refl; eexists|].
  destruct (key_same k k'); [by eexists|by apply IH]. }
revert Hl. generalize (map fst (Proxy.proxies_ p)) as names.
assert (Hgen : forall names p', (forall n, is_Some (Proxy.GetProxy n p) -> is_Some (Proxy.GetProxy n p')) ->
  (forall name, name ∈ names -> is_Some (Proxy.GetProxy name p)) ->
  is_Some (foldl (fun o name => p ← o; f name p) (Some p') names)); [|intros names Hn; by apply Hgen].
induction names as [|n names IH]; intros p' Hp' Hn; [by eexists|]. simpl.
destruct (Hf n p') as (p'' & -> & Hp''); [apply Hn; set_solver|done|]. apply IH; [auto|]. intros m Hm. apply Hn. set_solver.
Qed.
Lemma GetOrCreateImpl_some name p : exists t, Proxy.GetOrCreateImpl name p = Some (Proxy.with_transport (fun _ => t) p).
Proof.
unfold Proxy.GetOrCreateImpl, Transport.CreateChannel. destruct (Transport.HasChannel name (Proxy.transport_ p)).
- exists (Proxy.transport_ p). by destruct p.
- by eexists.
Qed.
Lemma CompleteNegotiation_some p : is_Some (Proxy.CompleteNegotiation p).
Proof.
unfold Proxy.CompleteNegotiation. case_bool_decide; [by eexists|].
destruct (for_proxies_some Proxy.SetProxyImpl (p <| Proxy.state_ := Proxy.STATE_NEGOTIATED |>)) as [p' ->]; [|by eexists].
intros name p' Hn Hp'. apply Hp' in Hn. destruct Hn as [c Hc]. unfold Proxy.SetProxyImpl. rewrite Hc. simpl.
destruct (GetOrCreateImpl_some name p') as [t ->]. eexists. split; [done|]. intros n Hn.
unfold Proxy.SetImplementation, Proxy.GetProxy. cbn. rewrite map_find_set. by destruct (key_same n name).
Qed.
Lemma OnRemoteCandidates_still tinfos s : still (OnRemoteCandidates hostname local_ips tinfos) s.
Proof.
revert s. induction tinfos as [|t ts IH]; intros s; cbn [OnRemoteCandidates]; [apply still_ret|]. apply wpf_bind, wpf_get.
destruct (GetTransportProxy (content_name t) s) as [p|]; [|apply still_ret].
apply wpf_bind, wpf_the; [right; apply CompleteNegotiation_some|]. intros p' _.
apply still_bind; [apply set_proxy_still|]. intros _ s1 _. case_match; [apply still_ret|].
apply still_bind; [apply set_proxy_still|]. intros _ s2 _. apply IH.
Qed.
Lemma CreateChannel_still content channel s : F AssertFailed -> still (CreateChannel content channel) s.
Proof.
intros HF. apply still_bind; [apply GetOrCreateTransportProxy_still|]. intros p s' _.
apply wpf_bind, wpf_the; [by left|]. intros p' _. apply set_proxy_still.
Qed.
Lemma DestroyChannel_still content channel s : F AssertFailed -> still (DestroyChannel content channel) s.
Proof.
intros HF. apply wpf_bind, wpf_gets, wpf_bind, wpf_the; [by left|]. intros p _. apply set_proxy_still.
Qed.
Lemma map_find_mem {V} name (m : smap bytes V) : name ∈ map fst m -> is_Some (map_find name m).
Proof.
intros Hin. induction m as [|[k' v'] m IH]; [by apply elem_of_nil in Hin|]. simpl in *.
apply elem_of_cons in Hin as [->|Hin]; [by rewrite key_same_refl; eexists|].
destruct (key_same name k'); [by eexists|by apply IH].
Qed.
Lemma Speculatively_still s : F AssertFailed -> still SpeculativelyConnectAllTransportChannels s.
Proof.
intros HF. unfold SpeculativelyConnectAllTransportChannels. apply wpf_bind, wpf_get. apply wpf_for_each; [apply frame_refl|].
intros name s' Hin Hs. apply wpf_bind, wpf_gets, wpf_bind, wpf_the.
{ right. destruct Hs as [[_ _ _ _ _ _ _ _ Ht] _]. apply Ht. by apply map_find_mem. }
intros p _. apply wpf_bind, wpf_the; [by left|]. intros p' _. eapply wpf_mono; [apply set_proxy_still|].
intros [] s'' Hs''. exact (frame_trans _ _ _ Hs Hs'').
Qed.

(** *** Sending *)

Lemma emit_goes e s : plain transport_parser s e -> goes (emit e) s.
Proof. intros He. apply wpf_modify. by apply ev_emit. Qed.
(** What messages of transports leave alone. *)
Definition same_reader s s' : Prop := state_ s' = state_ s /\ GetContentParsers s' = GetContentParsers s.
Lemma frame_reader s s' : frame s s' -> same_reader s s'.
Proof. intros [[_ [E1 E2] E _ _ _ _ _ _] _]. split; [done|]. unfold GetContentParsers. by rewrite E1, E2. Qed.
Lemma SendTransportInfoMessage_spec name cands s :
wpf F (SendTransportInfoMessage transport_parser name cands)
  (fun ok s' => evolves s s' /\ transports_ s' = transports_ s /\ same_reader s s') s.
Proof.
apply wpf_bind, wpf_get. unfold send_result. destruct (transport_info_stanza _ _ _ s) as [x|] eqn:E.
- apply wpf_bind, wpf_modify, wpf_ret. split; [|done]. apply ev_emit. right. by exists name, cands.
- apply wpf_ret. split; [apply ev_refl|done].
Qed.
Lemma SendAll_spec get_cands clear names s :
Forall (fun name => is_Some (GetTransportProxy name s)) names ->
wpf F (SendAll transport_parser get_cands clear names) (fun _ s' => evolves s s' /\ same_reader s s') s.
Proof.
revert s. induction names as [|n names IH]; intros s Hn; cbn [SendAll]; [apply wpf_ret; split; [apply ev_refl|done]|].
inversion Hn as [|? ? H1 Hr]; subst. apply wpf_bind, wpf_gets, wpf_bind, wpf_the; [by right|]. intros p _.
case_decide; [by apply IH|]. apply wpf_bind. eapply wpf_mono; [apply SendTransportInfoMessage_spec|].
intros ok s' (He & Ht & Hsr). destruct ok; [|by apply wpf_ret]. apply wpf_bind.
eapply wpf_mono; [apply (set_proxy_still n (clear p) s')|]. intros [] s'' Hs.
eapply wpf_mono; [apply IH|]; cbv beta.
- eapply Forall_impl; [exact Hr|]. intros k Hk. destruct Hs as [[_ _ _ _ _ _ _ _ Hs] _]. apply Hs.
  unfold GetTransportProxy in *. by rewrite Ht.
- intros ok s3 [He3 Hsr3]. pose proof (frame_reader _ _ Hs) as Hsr2. split.
  + eapply ev_trans; [exact He|]. eapply ev_trans; [by apply frame_evolves|exact He3].
  + unfold same_reader in *. destruct_and?. split; congruence.
Qed.
Lemma names_found s : Forall (fun name => is_Some (GetTransportProxy name s)) (map fst (transports_ s)).
Proof. apply Forall_forall. intros n. apply map_find_mem. Qed.
Lemma ResendAll_goes s : goes (ResendAllTransportInfoMessages transport_parser) s.
Proof. apply wpf_bind, wpf_get. eapply wpf_mono; [apply SendAll_spec, names_found|by intros ? ? []]. Qed.
(** An accept is read by what was there before the initiate was acknowledged. *)
Lemma OnInitiateAcked_spec s :
wpf F (OnInitiateAcked transport_parser) (fun _ s' => evolves s s' /\ same_reader s s') s.
Proof.
unfold OnInitiateAcked. apply wpf_bind, wpf_get. case_match; [apply wpf_ret; split; [apply ev_refl|done]|].
apply wpf_bind, wpf_modify, wpf_bind, wpf_bind, wpf_get. set (s1 := s <| initiate_acked_ := true |>).
eapply wpf_mono; [apply (SendAll_spec _ _ _ s1), names_found|]. intros ok s' [He Hs]. apply wpf_ret. split; [|exact Hs].
eapply ev_trans; [|exact He]. apply ev_quiet. by quiet_tac.
Qed.
Lemma terminate_stanza_good reason s : exists x, terminate_stanza reason s = Good x.
Proof. unfold terminate_stanza, WriteActionMessage, WriteActionMessage_protocol. by case_decide; eexists. Qed.

(** *** Changes of the state *)

(** A state change before the client knows of it. *)
Definition changed (st : State) s : Session D := emitted (SignalState st) (s <| state_ := st |>).
Definition prepared (out : list XmlElement) (remote : option (list (ContentInfo D))) s : Session D :=
s <| remote_description_ := remote |> <| effects_ := effects_ s ++ map Out out |>.
Lemma enter_changed out remote st s : enter out remote st s = changed st (prepared out remote s).
Proof. unfold enter, changed, prepared, emitted. cbn. by rewrite <- app_assoc. Qed.

(** What changes a state can rely on: [set] works for the states that are far
  enough up. *)
Definition set_ok (k : nat) (set : State -> Prog (Session D) unit) : Prop :=
forall st s, (k <= rank st)%nat -> st <> state_ s ->
wpf F (set st) (fun _ s' => exists s1, evolves (changed st s) s1 /\ s' = post s1) s.
Lemma change_goes k set st out remote s s2 :
set_ok k set -> (k <= rank st)%nat -> s2 = prepared out remote s ->
edge (state_ s) st = true -> sends transport_parser s st out -> receives transport_parser input s st remote ->
wpf F (set st) (fun _ s' => evolves s s' /\ (rank st <= rank (state_ s'))%nat) s2.
Proof.
intros Hset Hk -> He Hs Hr. eapply wpf_mono; [apply Hset; [done|by apply edge_differs]|].
intros _ s' (s1 & Hev & ->). split.
- eapply ev_change; [done|done|done|]. by rewrite enter_changed.
- apply evolves_rank in Hev. exact Hev.
Qed.

(** *** Calls of the client *)

(** [tell] works when an error is set. *)
Definition tells (tell : Effect -> Prog (Session D) unit) s : Prop :=
forall error s', (rank (state_ s) <= rank (state_ s'))%nat -> goes (tell (SignalError error)) s'.
Lemma SetError_goes tell error s : tells tell s -> goes (SetError tell error) s.
Proof.
intros Ht. unfold SetError, BaseSession_SetError. apply goes_bind.
- apply wpf_bind, wpf_get. case_decide; [apply goes_ret|]. apply goes_bind; [|by intros [] s' He; apply Ht; apply evolves_rank in He].
  apply wpf_modify, ev_quiet. by quiet_tac.
- intros _ s' _. apply wpf_bind, wpf_get. case_decide; [apply goes_ret|]. apply wpf_modify, ev_quiet.
  split; cbn; try done; [by left|]. by exists 1%nat.
Qed.
Lemma SendInfo_goes elems s : goes (SendInfoMessage elems) s.
Proof. unfold SendInfoMessage, SendMessage_elems. apply wpf_bind, wpf_bind, wpf_get, wpf_modify, wpf_ret, ev_emit. left. by exists elems. Qed.

Section Calls.
Context (k : nat) (set : State -> Prog (Session D) unit) (tell : Effect -> Prog (Session D) unit).
Hypothesis Hset : set_ok k set.

Lemma sent_prepared x s : emitted (Out x) s = prepared [x] (remote_description_ s) s.
Proof. by destruct s. Qed.
Lemma same_prepared s : s = prepared [] (remote_description_ s) s.
Proof. unfold prepared. destruct s. cbn. by rewrite app_nil_r. Qed.

Lemma Initiate_goes to sdesc s :
F AssertFailed -> (k <= S (rank (state_ s)))%nat -> goes (Initiate transport_parser set to sdesc) s.
Proof.
intros HF Hk. unfold Initiate. apply wpf_bind, wpf_get. case_bool_decide as Hi; [|apply goes_ret]. cbn [negb].
rewrite Hi in Hk. apply wpf_bind, wpf_modify.
set (s1 := s <| remote_name_ := _ |> <| initiator_ := _ |> <| local_description_ := _ |>).
assert (He1 : evolves s s1).
{ eapply (ev_trans _ _ _ (s <| remote_name_ := to |> <| initiator_ := true |>)).
  - apply ev_quiet. quiet_tac. by right; left.
  - apply ev_local. by left. }
apply wpf_bind. eapply wpf_mono; [apply (CreateTransportProxies_still _ s1)|]. intros e s2 [Hq Hini].
assert (He2 : evolves s s2) by (eapply ev_trans; [exact He1|by apply ev_quiet]).
case_bool_decide; [by apply wpf_ret|]. apply wpf_bind, wpf_bind, wpf_get. unfold send_result.
destruct (initiate_stanza transport_parser sdesc s2) as [x|] eqn:Ex; [|by apply wpf_ret].
apply wpf_bind, wpf_modify, wpf_ret. cbn [negb]. apply wpf_bind.
assert (Hst2 : state_ s2 = STATE_INIT) by (by destruct Hq as [_ _ -> _ _ _ _ _ _]).
eapply wpf_mono; [eapply (change_goes k set STATE_SENTINITIATE [x]); [done|exact Hk|apply sent_prepared| | |done]|].
- by rewrite Hst2.
- split; [by rewrite Hini|]. exists sdesc, x. by destruct Hq as [_ _ _ -> _ _ _ _ _].
- intros _ s3 [He3 _]. apply wpf_bind. eapply wpf_mono; [by apply (Speculatively_still s3)|].
  intros [] s4 Hf. apply wpf_ret. eapply ev_trans; [exact He2|]. eapply ev_trans; [exact He3|]. by apply frame_evolves.
Qed.
Lemma Accept_goes sdesc s : (k <= S (rank (state_ s)))%nat -> goes (Accept transport_parser set sdesc) s.
Proof.
intros Hk. unfold Accept. apply wpf_bind, wpf_get. case_bool_decide as Hi; [|apply goes_ret]. cbn [negb].
rewrite Hi in Hk. apply wpf_bind, wpf_modify. set (s1 := s <| initiator_ := _ |> <| local_description_ := _ |>).
assert (He1 : evolves s s1).
{ eapply (ev_trans _ _ _ (s <| initiator_ := false |>)).
  - apply ev_quiet. quiet_tac. right; right. by split; [|left].
  - apply ev_local. by right. }
apply wpf_bind, wpf_bind, wpf_get. unfold send_result.
destruct (accept_stanza transport_parser sdesc s1) as [x|] eqn:Ex; [|by apply wpf_ret].
apply wpf_bind, wpf_modify, wpf_ret. cbn [negb]. apply wpf_bind.
eapply wpf_mono; [eapply (change_goes k set STATE_SENTACCEPT [x]); [done|exact Hk|apply sent_prepared| | |done]|].
- cbn. by rewrite Hi.
- split; [done|]. by exists sdesc, x.
- intros _ s3 [He3 _]. apply wpf_ret. by eapply ev_trans.
Qed.
Lemma Reject_goes reason s : (k <= S (rank (state_ s)))%nat -> goes (Reject set reason) s.
Proof.
intros Hk. unfold Reject. apply wpf_bind, wpf_get.
destruct (negb (bool_decide (state_ s = STATE_RECEIVEDINITIATE)) && negb (bool_decide (state_ s = STATE_RECEIVEDMODIFY))) eqn:Hg;
  [apply goes_ret|].
assert (Hst : state_ s = STATE_RECEIVEDINITIATE \/ state_ s = STATE_RECEIVEDMODIFY).
{ apply andb_false_iff in Hg. rewrite !negb_false_iff, !bool_decide_eq_true in Hg. tauto. }
apply wpf_bind, wpf_modify. set (s1 := s <| initiator_ := _ |>).
assert (He1 : evolves s s1) by (apply ev_quiet; quiet_tac; right; right; by split).
apply wpf_bind, wpf_bind, wpf_get, wpf_modify, wpf_bind.
eapply wpf_mono; [eapply (change_goes k set STATE_SENTREJECT [_]); [done| |apply (sent_prepared _ s1)| |done|done]|].
- destruct Hst as [E|E]; by rewrite E in Hk.
- cbn. by destruct Hst as [->| ->].
- intros _ s3 [He3 _]. apply wpf_ret. by eapply ev_trans.
Qed.
(** The state changes unless it is terminated. *)
Lemma Terminate_spec reason s :
(terminated (state_ s) = false -> (k <= 4)%nat) ->
wpf F (TerminateWithReason set reason)
  (fun _ s' => evolves s s' /\ (terminated (state_ s) = false -> (4 <= rank (state_ s'))%nat)) s.
Proof.
intros Hk. unfold TerminateWithReason. apply wpf_bind, wpf_get.
destruct (terminated (state_ s)) eqn:Et.
- destruct (state_ s); try done; (apply wpf_ret; split; [apply ev_refl|done]).
- destruct (rejected (state_ s)) eqn:Er.
  + assert (Hm : forall X (a b c : X), match state_ s with STATE_SENTTERMINATE | STATE_RECEIVEDTERMINATE => a
      | STATE_SENTREJECT | STATE_RECEIVEDREJECT => b | _ => c end = b) by (by intros; destruct (state_ s)).
    rewrite Hm. apply wpf_bind.
    eapply wpf_mono; [eapply (change_goes k set STATE_SENTTERMINATE []); [done|by apply Hk|apply (same_prepared s)| | |done]|].
    * cbn. by rewrite Et.
    * cbn. by rewrite Er.
    * intros _ s' [He Hr]. by apply wpf_ret.
  + assert (Hm : forall X (a b c : X), match state_ s with STATE_SENTTERMINATE | STATE_RECEIVEDTERMINATE => a
      | STATE_SENTREJECT | STATE_RECEIVEDREJECT => b | _ => c end = c) by (by intros; destruct (state_ s)).
    rewrite Hm. destruct (terminate_stanza_good reason s) as [x Ex]. apply wpf_bind, wpf_bind, wpf_get. rewrite Ex.
    apply wpf_bind, wpf_modify, wpf_ret, wpf_bind.
    eapply wpf_mono; [eapply (change_goes k set STATE_SENTTERMINATE [x]); [done|by apply Hk|apply (sent_prepared x s)| | |done]|].
    * cbn. by rewrite Et.
    * cbn. rewrite Er. by exists reason, x.
    * intros _ s' [He Hr]. by apply wpf_ret.
Qed.

(** A call works when it may fail or is one that cannot. *)
Lemma client_call_goes c s :
F AssertFailed \/ modest c = true -> (k <= S (rank (state_ s)))%nat -> (sets_error c = true -> tells tell s) ->
goes (client_call transport_parser set tell c) s.
Proof.
intros HF Hk Hc. destruct c; cbn [client_call].
- apply goes_bind; [apply Initiate_goes; [by destruct HF|done]|]. intros; apply goes_ret.
- apply goes_bind; [by apply Accept_goes|]. intros; apply goes_ret.
- apply goes_bind; [by apply Reject_goes|]. intros; apply goes_ret.
- apply goes_bind; [|intros; apply goes_ret]. eapply wpf_mono; [apply Terminate_spec|by intros ? ? []].
  intros Ht. destruct (state_ s); cbn in *; (lia || done).
- apply goes_bind; [apply SendInfo_goes|]. intros; apply goes_ret.
- apply still_goes, CreateChannel_still. by destruct HF.
- apply still_goes, DestroyChannel_still. by destruct HF.
- by apply SetError_goes, Hc.
Qed.
End Calls.

(** What the client calls from its handlers may fail, or cannot; an error it sets
  while it hears of an error may be heard of without end. *)
Hypothesis Hreact : F AssertFailed \/ modest_calls reaction.
Hypothesis Hcalm : F OutOfFuel \/ calm_reaction reaction.

(** The fuel is enough for what the client can do from here on. *)
Definition enough (fuel : nat) (e : Effect) s : Prop :=
F OutOfFuel \/ (match e with SignalError _ => 11 | _ => 12 end <= fuel + 2 * rank (state_ s))%nat.
Lemma set_with_ok fuel k :
(forall e s, enough fuel e s -> wpf F (signal transport_parser reaction fuel e) (fun _ s' => evolves (emitted e s) s') s) ->
F OutOfFuel \/ (12 <= fuel + 2 * k)%nat -> set_ok k (set_with (signal transport_parser reaction fuel)).
Proof.
intros Hsig Hf st s Hk Hne. unfold set_with. apply wpf_bind, wpf_get. rewrite decide_False by done.
apply wpf_bind, wpf_modify, wpf_bind. eapply wpf_mono.
- apply Hsig. destruct Hf as [?|?]; [by left|right]. cbn. lia.
- intros [] s' He. apply wpf_modify. by exists s'.
Qed.
(** The fuel after a signal, for the changes that follow it. *)
Definition above_state s : nat := S (rank (state_ s)).
Lemma signal_ok fuel e s :
enough fuel e s -> wpf F (signal transport_parser reaction fuel e) (fun _ s' => evolves (emitted e s) s') s.
Proof.
revert e s. induction fuel as [|fuel IH]; intros e s Hen; cbn [signal].
- destruct Hen as [?|Hr]; [done|]. exfalso. destruct (state_ s), e; cbn in Hr; lia.
- assert (Hset : set_ok (above_state s) (set_with (signal transport_parser reaction fuel))).
  { apply set_with_ok; [exact IH|]. destruct Hen as [?|?]; [by left|right]. unfold above_state. destruct e; lia. }
  apply wpf_bind, wpf_modify, wpf_bind, wpf_get. apply wpf_for_each; [apply ev_refl|].
  intros c s' Hc He. pose proof (evolves_rank _ _ _ _ He) as Hr. cbn in Hr. eapply goes_after; [exact He|].
  eapply client_call_goes; [exact Hset| | |].
  + destruct Hreact as [?|Hm]; [by left|]. right. by eapply Hm.
  + unfold above_state. lia.
  + intros Hse error s1 Hr1. eapply wpf_mono; [apply IH|intros [] s2 H; refine (ev_trans _ _ _ _ _ _ H); by apply ev_emit].
    destruct Hcalm as [?|Hcm]; [by left|]. destruct Hen as [?|Hen]; [by left|]. right.
    destruct e; try lia. by rewrite (Hcm _ _ _ Hc) in Hse.
Qed.
Lemma set_state_ok : set_ok 0 (set_state transport_parser reaction).
Proof. apply set_with_ok; [apply signal_ok|]. right. unfold signal_fuel. lia. Qed.
Lemma notify_goes e s : plain transport_parser s e -> goes (notify transport_parser reaction e) s.
Proof.
intros He. eapply wpf_mono; [apply signal_ok|].
- right. unfold signal_fuel. destruct e; lia.
- intros [] s' H. refine (ev_trans _ _ _ _ _ _ H). by apply ev_emit.
Qed.
Lemma notify_tells s : tells (notify transport_parser reaction) s.
Proof. intros error s' _. by apply notify_goes. Qed.

(** *** Messages of the peer *)

Hypothesis Hdebug : F AssertFailed \/ debug = false.

Lemma CheckState_spec st s : wpf F (CheckState debug st) (fun e s' => s' = s /\ (e = None -> state_ s = st)) s.
Proof.
unfold CheckState, debug_assert. apply wpf_bind, wpf_get, wpf_bind.
assert (Hrest : wpf F (if decide (state_ s = st) then mret None
    else mret (Some (QN_STANZA_NOT_ALLOWED, str "message not allowed in current state")))
  (fun e s' => s' = s /\ (e = None -> state_ s = st)) s).
{ case_decide; by apply wpf_ret. }
destruct debug; [|exact Hrest]. apply wpf_assert; [|done]. left. by destruct Hdebug.
Qed.
Lemma and_then_goes st (m : Prog (Session D) MessageError) s :
(state_ s = st -> goes m s) -> goes (and_then (CheckState debug st) m) s.
Proof.
intros Hm. unfold and_then. apply wpf_bind. eapply wpf_mono; [apply CheckState_spec|]. intros e s' [-> He].
destruct e; [apply goes_ret|by apply Hm, He].
Qed.
Lemma remote_candidates_goes tinfos s : goes (remote_candidates hostname local_ips tinfos) s.
Proof. apply goes_bind; [apply still_goes, OnRemoteCandidates_still|]. intros; apply goes_ret. Qed.
Lemma received_prepared d s : s <| remote_description_ := d |> = prepared [] d s.
Proof. unfold prepared. destruct s. cbn. by rewrite app_nil_r. Qed.
(** The end of the handlers of an initiate and of an accept. *)
Lemma unless_rejected_goes tinfos s : goes (s ← get; if decide (state_ s = STATE_SENTREJECT) then mret None
else remote_candidates hostname local_ips tinfos) s.
Proof. apply wpf_bind, wpf_get. case_decide; [apply goes_ret|apply remote_candidates_goes]. Qed.

Lemma OnInitiateMessage_goes msg s :
input = Some msg -> m_type msg = ACTION_SESSION_INITIATE ->
goes (OnInitiateMessage transport_parser hostname local_ips debug reaction msg) s.
Proof.
intros Hin Hty. apply and_then_goes. intros Hst. apply wpf_bind, wpf_get. unfold ParseSessionInitiate.
destruct (ParseContentMessage _ _ _ _) as [init|] eqn:Ep; [|apply goes_ret].
apply wpf_bind. eapply wpf_mono; [apply (CreateTransportProxies_still _ s)|]. intros e s1 [Hq Hini].
assert (He1 : evolves s s1) by (by apply ev_quiet). destruct e; [by apply wpf_ret|].
assert (Hst1 : state_ s1 = STATE_INIT) by (by destruct Hq as [_ _ -> _ _ _ _ _ _]).
apply wpf_bind, wpf_modify, wpf_bind. set (s2 := s1 <| initiator_ := false |> <| remote_name_ := m_from msg |>).
change (s1 <| initiator_ := false |> <| remote_name_ := m_from msg |> <| remote_description_ := Some (contents init) |>)
  with (s2 <| remote_description_ := Some (contents init) |>).
assert (He2 : evolves s1 s2) by (apply ev_quiet; quiet_tac; by right; left).
eapply wpf_mono; [eapply (change_goes 0 _ STATE_RECEIVEDINITIATE []);
  [apply set_state_ok|lia|apply received_prepared| |done|]|].
- cbn. by rewrite Hst1.
- exists msg. split_and!; [done..|]. exists init. split; [|done].
  destruct Hq as [_ [Ect Ecl] _ _ _ _ _ _ _]. unfold GetContentParsers in *. cbn. by rewrite Ect, Ecl.
- intros _ s3 [He3 _]. eapply goes_after; [|apply unless_rejected_goes].
  eapply ev_trans; [exact He1|]. by eapply ev_trans.
Qed.
Lemma OnAcceptMessage_goes msg s :
input = Some msg -> m_type msg = ACTION_SESSION_ACCEPT ->
goes (OnAcceptMessage transport_parser hostname local_ips debug reaction msg) s.
Proof.
intros Hin Hty. apply and_then_goes. intros Hst. apply wpf_bind, wpf_get. unfold ParseSessionAccept.
destruct (ParseContentMessage _ _ _ _) as [accept|] eqn:Ep; [|apply goes_ret].
apply wpf_bind. eapply wpf_mono; [apply OnInitiateAcked_spec|]. intros [] s1 (He1 & Hst1 & Hp1); unfold read.
apply wpf_bind, wpf_modify, wpf_bind.
eapply wpf_mono; [eapply (change_goes 0 _ STATE_RECEIVEDACCEPT []);
  [apply set_state_ok|lia|apply received_prepared| |done|]|].
- cbn. by rewrite Hst1, Hst.
- exists msg. split_and!; [done..|]. exists accept. split; [|done]. by rewrite Hp1.
- intros _ s3 [He3 _]. eapply goes_after; [|apply unless_rejected_goes]. by eapply ev_trans.
Qed.
Lemma OnRejectMessage_goes msg s :
input = Some msg -> m_type msg = ACTION_SESSION_REJECT -> goes (OnRejectMessage transport_parser debug reaction msg) s.
Proof.
intros Hin Hty. apply and_then_goes. intros Hst. apply wpf_bind.
eapply wpf_mono; [eapply (change_goes 0 _ STATE_RECEIVEDREJECT []);
  [apply set_state_ok|lia|apply (same_prepared s)| |done|]|].
- cbn. by rewrite Hst.
- by exists msg.
- intros _ s3 [He3 _]. by apply wpf_ret.
Qed.
Lemma OnTerminateMessage_goes msg s :
input = Some msg -> m_type msg = ACTION_SESSION_TERMINATE -> goes (OnTerminateMessage transport_parser reaction msg) s.
Proof.
intros Hin Hty. apply goes_bind; [by apply notify_goes|]. intros _ s1 _. apply wpf_bind.
destruct (decide (state_ s1 = STATE_RECEIVEDTERMINATE)) as [E|E].
- unfold set_state, set_with. apply wpf_bind, wpf_get. rewrite decide_True by done. apply goes_ret.
- eapply wpf_mono; [eapply (change_goes 0 _ STATE_RECEIVEDTERMINATE []);
    [apply set_state_ok|lia|apply (same_prepared s1)| |done|]|].
  + cbn. unfold is_state. by rewrite bool_decide_false.
  + by exists msg.
  + intros _ s3 [He3 _]. by apply wpf_ret.
Qed.
(** What the handlers follow without a check. *)
Record described s : Prop := {
d_local : state_ s = STATE_SENTINITIATE -> is_Some (local_description_ s);
d_remote : state_ s = STATE_INPROGRESS -> is_Some (remote_description_ s) }.
Lemma OnTransportInfoMessage_goes msg s :
F Dangling \/ is_Some (initiator_description s) -> goes (OnTransportInfoMessage transport_parser hostname local_ips msg) s.
Proof.
intros Hd. apply wpf_bind, wpf_get, wpf_bind, wpf_the; [by destruct Hd as [?|[? ?]]; [left|right]|]. intros d _.
case_match; [apply remote_candidates_goes|apply goes_ret].
Qed.
Lemma OnUpdateMessage_goes msg s :
input = Some msg -> m_type msg = ACTION_UPDATE -> F Dangling \/ described s ->
goes (OnUpdateMessage transport_parser debug reaction msg) s.
Proof.
intros Hin Hty Hd. apply and_then_goes. intros Hst. apply wpf_bind, wpf_get.
destruct (ParseDescriptionInfo _ _ _ _) as [info|] eqn:Ep; [|apply goes_ret].
apply wpf_bind, wpf_the; [destruct Hd as [?|[_ ?]]; [by left|right; auto]|]. intros d _.
case_match; [|apply goes_ret]. apply wpf_bind, wpf_modify.
eapply goes_after; [by eapply ev_update|]. apply goes_bind; [by apply notify_goes|]. intros; apply goes_ret.
Qed.

Lemma message_handler_goes msg s :
input = Some msg -> F Dangling \/ described s /\ (m_type msg = ACTION_TRANSPORT_INFO -> is_Some (initiator_description s)) ->
goes (message_handler transport_parser hostname local_ips debug reaction msg) s.
Proof.
intros Hin Hd. unfold message_handler. destruct (m_type msg) eqn:Hty.
- apply goes_ret.
- by apply OnInitiateMessage_goes.
- apply goes_bind; [by apply notify_goes|]. intros; apply goes_ret.
- by apply OnAcceptMessage_goes.
- by apply OnRejectMessage_goes.
- by apply OnTerminateMessage_goes.
- apply OnTransportInfoMessage_goes. destruct Hd as [?|[_ ?]]; auto.
- apply goes_ret.
- apply OnUpdateMessage_goes; [done..|]. destruct Hd as [?|[? _]]; auto.
Qed.

(** A message is answered once, last. *)
Definition answers (msg : SessionMessage) s (e : Effect) : Prop :=
e = Out (acknowledgement (stanza msg) s) \/ exists name text, e = SignalErrorMessage (stanza msg) name text.
Lemma OnIncomingMessage_spec msg s :
input = Some msg -> F Dangling \/ described s /\ (m_type msg = ACTION_TRANSPORT_INFO -> is_Some (initiator_description s)) ->
wpf F (OnIncomingMessage transport_parser hostname local_ips debug reaction msg)
  (fun _ s' => exists s1 e, evolves s s1 /\ answers msg s1 e /\ s' = emitted e s1) s.
Proof.
intros Hin Hd. unfold OnIncomingMessage. apply wpf_bind, wpf_get, wpf_bind.
assert (Hrest : wpf F (choose_protocol (protocol msg);;
    error ← message_handler transport_parser hostname local_ips debug reaction msg;
    match error with
    | None => SendAcknowledgementMessage (stanza msg)
    | Some (name, text) => emit (SignalErrorMessage (stanza msg) name text)
    end) (fun _ s' => exists s1 e, evolves s s1 /\ answers msg s1 e /\ s' = emitted e s1) s).
{ apply wpf_bind, wpf_modify, wpf_bind. set (s1 := if decide _ then _ else s).
  assert (Hs1 : evolves s s1 /\ (described s -> described s1) /\ initiator_description s1 = initiator_description s).
  { subst s1. case_decide; (split_and!; [|by intros []; split|done]); [apply ev_quiet; by quiet_tac|apply ev_refl]. }
  destruct Hs1 as (He1 & Ed & Ei). eapply wpf_mono; [apply (message_handler_goes msg s1); [done|rewrite Ei; tauto]|].
  intros e s2 He2. pose proof (ev_trans _ _ _ _ _ He1 He2) as He. destruct e as [[name text]|].
  - apply wpf_modify. exists s2. eexists. split; [done|]. split; [|done]. right. by exists name, text.
  - apply wpf_bind, wpf_get, wpf_modify. exists s2. eexists. split; [done|]. split; [by left|done]. }
unfold debug_assert. destruct debug; [|exact Hrest]. apply wpf_assert; [|by intros]. left. by destruct Hdebug.
Qed.
Lemma OnIncomingResponse_goes msg s : goes (OnIncomingResponse transport_parser msg) s.
Proof.
unfold OnIncomingResponse. case_decide; [|apply goes_ret].
eapply wpf_mono; [apply OnInitiateAcked_spec|by intros ? ? []].
Qed.

(** *** Answers of the peer, signals of the transports, posted messages *)

Lemma OnRedirectError_goes target s : F Dangling \/ described s -> goes (OnRedirectError transport_parser debug target) s.
Proof.
intros Hd. apply wpf_bind. eapply wpf_mono; [apply CheckState_spec|]. intros e s' [-> He].
case_bool_decide as Hb; [apply goes_ret|]. specialize (He (proj2 (eq_None_not_Some e) Hb)). apply wpf_bind, wpf_get. case_match; [apply goes_ret|].
apply wpf_bind, wpf_modify. set (s1 := s <| remote_name_ := target |>).
assert (He1 : evolves s s1) by (apply ev_quiet; by quiet_tac).
apply wpf_bind, wpf_the; [destruct Hd as [?|[Hl _]]; [by left|right; by apply Hl]|]. intros d Hd'.
apply wpf_bind, wpf_bind, wpf_get. unfold send_result.
destruct (initiate_stanza transport_parser d s1) as [x|] eqn:Ex; [|by apply wpf_ret].
apply wpf_bind, wpf_modify, wpf_ret. eapply goes_after; [|apply ResendAll_goes].
eapply ev_trans; [exact He1|]. by eapply ev_redirect.
Qed.
Lemma loop_goes {A} (f : A -> Prog (Session D) unit) l s : (forall a s', goes (f a) s') -> goes (for_each f l) s.
Proof. intros Hf. apply wpf_for_each; [apply ev_refl|]. intros a s' _ He. eapply goes_after; [exact He|apply Hf]. Qed.
Lemma OnFailedSend_goes orig err s : F Dangling \/ described s -> goes (OnFailedSend transport_parser debug reaction orig err) s.
Proof.
intros Hd. unfold OnFailedSend. destruct (ParseSessionMessage orig) as [msg|]; [|apply goes_ret].
destruct (FindSessionRedirect err) as [target|].
- apply goes_bind; [by apply OnRedirectError_goes|]. intros ok s' _. destruct ok; [apply goes_ret|apply SetError_goes, notify_tells].
- destruct (FirstNamed QN_ERROR err) as [error|]; [|apply goes_ret]. case_decide.
  + apply loop_goes. intros elem s'. apply wpf_bind, wpf_get. destruct (GetFirstTransportProxy s') as [[? p]|]; [|apply goes_ret].
    case_decide; [|apply goes_ret]. unfold debug_assert. apply goes_bind.
    * destruct debug; [|apply goes_ret]. apply wpf_assert; [|intros; apply ev_refl]. left. by destruct Hdebug.
    * intros _ s'' _. apply loop_goes. intros g s3. destruct g; try apply goes_ret. by apply notify_goes.
  + case_match; [apply SetError_goes, notify_tells|apply goes_ret].
Qed.
Lemma OnTransportWritable_goes name s : F Dangling -> goes (OnTransportWritable session_timeout name) s.
Proof.
intros HF. apply goes_bind; [apply wpf_modify, ev_quiet; by quiet_tac|]. intros _ s1 _.
apply wpf_bind, wpf_gets, wpf_bind, wpf_the; [by left|]. intros p _. case_match; [|apply goes_ret].
apply wpf_modify, ev_quiet. by quiet_tac.
Qed.
Lemma OnTransportCandidatesReady_goes name cands s : goes (OnTransportCandidatesReady transport_parser name cands) s.
Proof.
apply wpf_bind, wpf_get. destruct (GetTransportProxy name s) as [p|]; [|apply goes_ret].
case_match; [apply still_goes, set_proxy_still|]. apply goes_bind.
- case_match; [apply goes_ret|apply still_goes, set_proxy_still].
- intros _ s' _. apply goes_bind; [|intros; apply goes_ret].
  eapply wpf_mono; [apply SendTransportInfoMessage_spec|by intros ? ? []].
Qed.
Lemma transport_event_goes name e s :
F AssertFailed -> F Dangling -> goes (transport_event transport_parser session_timeout reaction name e) s.
Proof.
intros HA HD. apply wpf_bind, wpf_gets, wpf_bind, wpf_the; [by left|]. intros p _.
apply wpf_bind, wpf_the; [by left|]. intros [t signals] _. apply goes_bind; [apply still_goes, set_proxy_still|]. intros _ s' _.
apply loop_goes. intros g s''. destruct g; cbn [on_transport_signal]; try apply goes_ret;
  try (by apply OnTransportWritable_goes); try (by apply emit_goes); try (by apply notify_goes). apply OnTransportCandidatesReady_goes.
Qed.
Lemma map_transports_still f s : still (modify (fun s => s <| transports_ := map (fun e => (fst e, f (snd e))) (transports_ s) |>)) s.
Proof.
apply wpf_modify, frame_transports. intros name [p Hp]. unfold GetTransportProxy in Hp.
induction (transports_ s) as [|[k v] m IH]; [done|]. simpl in *. case_match; [by eexists|by apply IH].
Qed.

(** A posted change of state leads the session on, or ends it. *)
Lemma OnMessage_spec m s :
wpf F (OnMessage transport_parser reaction m) (fun d s' => evolves s s' /\
  (d = true <-> m = MSG_STATE /\ terminated (state_ s) = true) /\
  (m = MSG_STATE -> accepted (state_ s) || rejected (state_ s) = true -> state_ s' <> state_ s)) s.
Proof.
unfold OnMessage, BaseSession_OnMessage. apply wpf_bind, wpf_get, wpf_bind, wpf_bind, wpf_get. destruct m.
- apply wpf_bind. eapply wpf_mono; [apply (Terminate_spec 0 _ set_state_ok); lia|]. intros _ s' [He _].
  apply wpf_ret, wpf_ret. split_and!; [done| |done]. naive_solver.
- assert (Hterm : rejected (state_ s) = true ->
    wpf F (Terminate (set_state transport_parser reaction);; mret tt)
      (fun _ s' => evolves s s' /\ state_ s' <> state_ s) s).
  { intros Hr. apply wpf_bind. eapply wpf_mono; [apply (Terminate_spec 0 _ set_state_ok); lia|]. intros _ s' [He Hr'].
    apply wpf_ret. split; [done|]. intros E. destruct (state_ s) eqn:Es; try done; specialize (Hr' eq_refl); rewrite E in Hr'; cbn in Hr'; lia. }
  assert (Hprog : accepted (state_ s) = true ->
    wpf F (set_state transport_parser reaction STATE_INPROGRESS) (fun _ s' => evolves s s' /\ state_ s' <> state_ s) s).
  { intros Ha. eapply wpf_mono; [eapply (change_goes 0 _ STATE_INPROGRESS []);
      [apply set_state_ok|lia|apply (same_prepared s)|done|done|done]|].
    intros _ s' [He Hr]. split; [done|]. intros E. rewrite E in Hr. destruct (state_ s); cbn in *; (lia || done). }
  destruct (state_ s) eqn:Es;
    try (apply wpf_ret, wpf_ret; split_and!; [apply ev_refl|naive_solver|naive_solver]);
    (eapply wpf_mono; [(by apply Hterm) || (by apply Hprog)|]; intros _ s' [He Hne]; apply wpf_ret; split_and!; [done|naive_solver|done]).
Qed.
Lemma run_timer_goes s : goes (run_timer transport_parser reaction) s.
Proof.
apply wpf_bind, wpf_get. case_match; [|apply goes_ret]. apply goes_bind; [apply wpf_modify, ev_quiet; by quiet_tac|].
intros _ s' _. apply SetError_goes, notify_tells.
Qed.
End Ops.
End Steps.
