(* ===== verification/SessionFacts.v ===== *)
(** * Properties of sessions

    A session implements the specification of [SessionSteps] event by event; what
    the specification keeps holds of every session that runs: its states follow
    the state machine, it leaves the states it is to leave, its descriptions are
    there when they are followed, and what it sends says what it holds. *)

From S2P Require Import Prelude SocketAddress StdMap Port Xml SessionMessages Effects Transport Session SessionSteps.
Import Xml Const Messages Session Steps.
#[local] Open Scope jingle_scope.

Module SessionFacts.

(** The changes that were signalled, from a state on; [None] is a change that
    the state machine does not have. *)
Fixpoint walk (st : State) (l : list State) : option State :=
  match l with
  | [] => Some st
  | st' :: l => if edge st st' then walk st' l else None
  end.
Definition signalled {D} (s : Session D) : list State :=
  omap (fun e => match e with SignalState st => Some st | _ => None end) (effects_ s).
Lemma walk_app st l l' : walk st (l ++ l') = walk st l ≫= fun st' => walk st' l'.
Proof. revert st. induction l as [|x l IH]; intros st; [done|]. simpl. by destruct (edge st x). Qed.

(** What a state says of the descriptions. *)
Definition phase (st : State) (initiator local remote : bool) : Prop :=
  match st with
  | STATE_INIT | STATE_SENTTERMINATE | STATE_RECEIVEDTERMINATE => True
  | STATE_SENTINITIATE | STATE_RECEIVEDREJECT => initiator = true /\ local = true
  | STATE_RECEIVEDACCEPT => initiator = true /\ local = true /\ remote = true
  | STATE_RECEIVEDINITIATE | STATE_SENTREJECT => initiator = false /\ remote = true
  | STATE_SENTACCEPT => initiator = false /\ local = true /\ remote = true
  | STATE_INPROGRESS => local = true /\ remote = true
  | STATE_SENTMODIFY | STATE_RECEIVEDMODIFY | STATE_SENTREDIRECT | STATE_DEINIT => False
  end.
Definition there {A} (o : option A) : bool := match o with Some _ => true | None => false end.
Definition in_phase {D} (s : Session D) : Prop :=
  phase (state_ s) (initiator_ s) (there (local_description_ s)) (there (remote_description_ s)).
(** The descriptions have been sent. *)
Definition settled (st : State) : bool := negb (is_state st STATE_INIT) && negb (is_state st STATE_RECEIVEDINITIATE).

Section Invariants.
Context {D : Type} (transport_parser : TransportParser) (input : option SessionMessage).
Implicit Types s : Session D.
#[local] Abbreviation evolves := (evolves transport_parser input).

Lemma signalled_emitted e s : signalled (emitted e s) = signalled s ++ match e with SignalState st => [st] | _ => [] end.
Proof. unfold signalled, emitted. cbn. rewrite omap_app. simpl. by destruct e; rewrite ?app_nil_r. Qed.
Lemma signalled_enter out remote st s : signalled (enter out remote st s) = signalled s ++ [st].
Proof.
rewrite enter_changed. unfold changed. rewrite signalled_emitted. f_equal. unfold signalled, prepared. cbn.
rewrite omap_app. induction out; [by rewrite app_nil_r|]. done.
Qed.

(** The signalled changes continue the walk. *)
Lemma evolves_walk s s' : evolves s s' ->
exists l, signalled s' = signalled s ++ l /\ walk (state_ s) l = Some (state_ s').
Proof.
induction 1 as [s1 s2 s3 _ (l1 & E1 & W1) _ (l2 & E2 & W2)|s s' Hq|s e He|s d|s msg d|s d x|s s' st out remote He _ _ _ (l & E & W)].
- exists (l1 ++ l2). by rewrite E2, E1, walk_app, W1, app_assoc.
- destruct Hq as [_ _ E _ _ Ee _ _ _]. exists []. unfold signalled. by rewrite Ee, E, app_nil_r.
- exists []. rewrite signalled_emitted. by destruct e.
- exists []. by rewrite app_nil_r.
- exists []. by rewrite app_nil_r.
- exists []. by rewrite signalled_emitted.
- exists (st :: l). rewrite signalled_enter, <- app_assoc in E. split; [done|]. simpl. by rewrite He.
Qed.

Lemma evolves_phase s s' : evolves s s' -> in_phase s -> in_phase s'.
Proof.
unfold in_phase. induction 1 as [s1 s2 s3 _ IH1 _ IH2|s s' Hq| |s d Hst| |s d x|s s' st out remote He Hs Hr _ IH]; try done.
- auto.
- destruct Hq as [_ _ -> -> -> _ Hi _ _]. destruct Hi as [-> | [-> | [-> [-> | ->]]]]; [done|done| |done]. by intros [_ ?].
- cbn. by destruct Hst as [-> | ->].
- cbn. intros Hp. destruct (state_ s); cbn in *; naive_solver.
- intros Hp. apply IH. clear IH. cbn. unfold receives, sends in *.
  destruct st; cbn in *; try done;
  repeat match goal with
    | H : exists _, _ |- _ => destruct H
    | H : _ /\ _ |- _ => destruct H
    | H : read _ _ _ _ |- _ => destruct H as (? & ? & ->)
    | H : local_description_ _ = Some _ |- _ => rewrite H in *; clear H
    end; subst; destruct (state_ s); try done; cbn in *; naive_solver.
Qed.

Lemma evolves_ids s s' : evolves s s' ->
sid_ s' = sid_ s /\ initiator_name_ s' = initiator_name_ s /\ GetContentParsers s' = GetContentParsers s.
Proof.
induction 1 as [s1 s2 s3 _ IH1 _ IH2|s s' Hq| | | | |s s' st out remote _ _ _ _ IH]; try done.
- destruct_and?. split_and!; congruence.
- destruct Hq as [(_ & -> & ->) [E1 E2] _ _ _ _ _ _ _]. unfold GetContentParsers. by rewrite E1, E2.
Qed.
(** A description that was sent stays. *)
Lemma evolves_settled s s' : evolves s s' -> settled (state_ s) = true ->
settled (state_ s') = true /\ local_description_ s' = local_description_ s.
Proof.
induction 1 as [s1 s2 s3 _ IH1 _ IH2|s s' Hq| |s d Hst| | |s s' st out remote He _ _ _ IH]; try done.
- intros H. destruct (IH1 H) as [H2 E2]. destruct (IH2 H2) as [H3 E3]. split; congruence.
- destruct Hq as [_ _ -> -> _ _ _ _ _]. done.
- intros H. by destruct Hst as [E|E]; rewrite E in H.
- intros H. apply IH. cbn. destruct (state_ s), st; done.
Qed.
(** The description of the peer comes from a message of the peer. *)
Lemma evolves_remote s s' : evolves s s' ->
remote_description_ s' = remote_description_ s \/
exists msg, input = Some msg /\
  (m_type msg = ACTION_UPDATE \/
   (m_type msg = ACTION_SESSION_INITIATE \/ m_type msg = ACTION_SESSION_ACCEPT) /\ read transport_parser s msg (remote_description_ s')).
Proof.
induction 1 as [s1 s2 s3 H1 IH1 _ IH2|s s' Hq| | |s msg d Hin Hty| |s s' st out remote He _ Hr Hev IH].
- destruct IH2 as [E2 | (msg & Hin & [Hu | [Ht Hrd]])].
  + destruct IH1 as [E1 | IH1]; [left; congruence|]. right. by rewrite E2.
  + right. exists msg. split; [done|]. by left.
  + right. exists msg. split; [done|]. right. split; [done|]. unfold read in *.
    destruct (evolves_ids _ _ H1) as (_ & _ & E). by rewrite E in Hrd.
- left. by destruct Hq.
- by left.
- by left.
- right. exists msg. split; [done|]. by left.
- by left.
- cbn in *. destruct IH as [E | (msg & Hin & [Hu | [Ht Hrd]])].
  + unfold receives in Hr. destruct st; cbn in Hr; try (left; congruence);
      destruct Hr as (msg & Hin & Ht & Hr); try (left; congruence).
    * right. exists msg. split; [done|]. right. split; [by left|]. rewrite E. by destruct Hr.
    * right. exists msg. split; [done|]. right. split; [by right|]. by rewrite E.
  + right. exists msg. split; [done|]. by left.
  + right. exists msg. split; [done|]. right. split; [done|]. exact Hrd.
Qed.

(** ** What is sent *)

Definition same_ids s0 s : Prop :=
sid_ s0 = sid_ s /\ initiator_name_ s0 = initiator_name_ s /\ GetContentParsers s0 = GetContentParsers s.
(** A stanza was written by the session as it was then; the description in an
  initiate or accept is the one it still has. *)
Inductive sent s (x : XmlElement) : Prop :=
| sent_initiate s0 d : same_ids s0 s -> settled (state_ s) = true -> local_description_ s = Some d ->
    initiate_stanza transport_parser d s0 = Good x -> sent s x
| sent_accept s0 d : same_ids s0 s -> settled (state_ s) = true -> local_description_ s = Some d ->
    accept_stanza transport_parser d s0 = Good x -> sent s x
| sent_elements s0 type elems : type = ACTION_SESSION_INFO \/ type = ACTION_SESSION_REJECT ->
    x = elements_stanza type elems s0 -> sent s x
| sent_terminate s0 reason : terminate_stanza reason s0 = Good x -> sent s x
| sent_candidates s0 name cands : transport_info_stanza transport_parser name cands s0 = Good x -> sent s x
| sent_acknowledgement s0 stanza : x = acknowledgement stanza s0 -> sent s x.

Lemma sent_stays s s' x :
same_ids s s' -> (settled (state_ s) = true -> settled (state_ s') = true /\ local_description_ s' = local_description_ s) ->
sent s x -> sent s' x.
Proof.
intros Hids Hst Hx. destruct Hx as [s0 d Hi Hs Hd Hx|s0 d Hi Hs Hd Hx| | | |].
- destruct (Hst Hs) as [Hs' Hd']. eapply sent_initiate; [|done|by rewrite Hd'|exact Hx].
  unfold same_ids in *. destruct_and?. split_and!; congruence.
- destruct (Hst Hs) as [Hs' Hd']. eapply sent_accept; [|done|by rewrite Hd'|exact Hx].
  unfold same_ids in *. destruct_and?. split_and!; congruence.
- by eapply sent_elements.
- by eapply sent_terminate.
- by eapply sent_candidates.
- by eapply sent_acknowledgement.
Qed.
Lemma evolves_keeps_sent s s' x : evolves s s' -> sent s x -> sent s' x.
Proof.
intros He. apply sent_stays; [|by apply evolves_settled]. destruct (evolves_ids _ _ He) as (? & ? & ?). by split_and!.
Qed.
Lemma sends_sent s st out remote x : sends transport_parser s st out -> edge (state_ s) st = true -> x ∈ out -> sent (enter out remote st s) x.
Proof.
intros Hs He Hx. destruct st; cbn in Hs;
  repeat match goal with
    | H : exists _, _ |- _ => destruct H
    | H : _ /\ _ |- _ => destruct H
    end; subst; try (by apply elem_of_nil in Hx); try (by destruct (state_ s)).
- apply list_elem_of_singleton in Hx as ->. by eapply sent_initiate.
- apply list_elem_of_singleton in Hx as ->. by eapply sent_accept.
- apply list_elem_of_singleton in Hx as ->. eapply sent_elements; [by right|done].
- destruct (rejected (state_ s)); [subst; by apply elem_of_nil in Hx|]. destruct Hs as (reason & y & Hy & ->).
  apply list_elem_of_singleton in Hx as ->. by eapply sent_terminate.
Qed.
Lemma neutral_sent s s' x : neutral transport_parser s x -> sent s' x.
Proof.
intros [(elems & ->) | (name & cands & Hx)].
- eapply sent_elements; [by left|done].
- by eapply sent_candidates.
Qed.
Lemma evolves_sent s s' : evolves s s' -> forall x, Out x ∈ effects_ s' -> Out x ∈ effects_ s \/ sent s' x.
Proof.
induction 1 as [s1 s2 s3 H1 IH1 H2 IH2|s s' Hq|s e He|s d|s msg d|s d x Hst Hd Hx|s s' st out remote He Hs _ Hev IH]; intros y Hy;
  try (by left).
- apply IH2 in Hy as [Hy|Hy]; [|by right]. apply IH1 in Hy as [Hy|Hy]; [by left|]. right. by eapply evolves_keeps_sent.
- left. by destruct Hq as [_ _ _ _ _ <- _ _ _].
- cbn in Hy. apply elem_of_app in Hy as [Hy|Hy%list_elem_of_singleton]; [by left|]. subst. right. by eapply neutral_sent.
- cbn in Hy. apply elem_of_app in Hy as [Hy|Hy%list_elem_of_singleton]; [by left|]. injection Hy as ->. right.
  eapply (sent_initiate _ _ s d); [done| |done|done]. cbn. by rewrite Hst.
- apply IH in Hy as [Hy|Hy].
  + cbn in Hy. rewrite !elem_of_app in Hy. destruct Hy as [Hy|[Hy|Hy%list_elem_of_singleton]]; [by left| |done].
    apply list_elem_of_fmap in Hy as (z & [= <-] & Hz). right.
    eapply (sent_stays s'); [done|by intros|]. eapply evolves_keeps_sent; [exact Hev|]. by eapply sends_sent.
  + right. by eapply (sent_stays s').
Qed.
(** Nothing that is sent by itself is an answer. *)
Definition is_answer (e : Effect) : bool :=
match e with
| SignalErrorMessage _ _ _ => true
| Out x => negb (bool_decide (Attr QN_TYPE x = STR_SET))
| _ => false
end.
Lemma written_set msg elems stanza : Attr QN_TYPE (WriteSessionMessage msg elems stanza) = STR_SET.
Proof. unfold WriteSessionMessage. case_decide; rewrite Attr_AddElement, Attr_SetAttr; by names. Qed.
Lemma message_set x :
(exists type elems s, x = elements_stanza type elems s) \/ (exists type write s, WriteActionMessage type write s = Good x) ->
is_answer (Out x) = false.
Proof.
intros Hx. assert (Attr QN_TYPE x = STR_SET) as E.
{ destruct Hx as [(type & elems & s & ->) | (type & write & s & Hx)]; [apply written_set|].
  unfold WriteActionMessage, WriteActionMessage_protocol in Hx. case_decide; [apply bind_good in Hx as (y & _ & Hx)|];
    apply bind_good in Hx as (es & _ & [= <-]); apply written_set. }
unfold is_answer. by rewrite E.
Qed.
Lemma evolves_no_answer s s' : evolves s s' ->
exists l, effects_ s' = effects_ s ++ l /\ Forall (fun e => is_answer e = false) l.
Proof.
induction 1 as [s1 s2 s3 _ (l1 & E1 & W1) _ (l2 & E2 & W2)|s s' Hq|s e He|s d|s msg d|s d x _ _ Hx|s s' st out remote _ Hs _ _ (l & E & W)];
  try (exists []; by rewrite app_nil_r).
- exists (l1 ++ l2). rewrite E2, E1, app_assoc. split; [done|]. by apply Forall_app.
- exists []. destruct Hq as [_ _ _ _ _ -> _ _ _]. by rewrite app_nil_r.
- exists [e]. split; [done|]. constructor; [|done]. destruct e; try done. apply message_set.
  destruct He as [(elems & ->) | (name & cands & Hx)]; [left|right]; by do 3 eexists.
- exists [Out x]. split; [done|]. constructor; [|done]. apply message_set. right. by do 3 eexists.
- exists (map Out out ++ [SignalState st] ++ l). cbn in E |- *. rewrite E. split; [by rewrite <- !app_assoc|].
  apply Forall_app. split; [|by constructor]. apply Forall_map, Forall_forall. intros x Hx. apply message_set.
  destruct st; cbn in Hs;
  repeat match goal with
    | H : exists _, _ |- _ => destruct H
    | H : _ /\ _ |- _ => destruct H
    end; subst; try (by apply elem_of_nil in Hx).
  + apply list_elem_of_singleton in Hx as ->. right. by do 3 eexists.
  + apply list_elem_of_singleton in Hx as ->. left. unfold accept_stanza in *.
    match goal with H : _ = Good _ |- _ => apply bind_good in H as (? & _ & [= <-]) end. by do 3 eexists.
  + apply list_elem_of_singleton in Hx as ->. left. by do 3 eexists.
  + destruct (rejected (state_ s)); [subst; by apply elem_of_nil in Hx|]. destruct Hs as (reason & y & Hy & ->).
    apply list_elem_of_singleton in Hx as ->. right. by do 3 eexists.
Qed.
End Invariants.

(** ** Runs *)

Section Runs.
Context {D : Type} (transport_parser : TransportParser) (session_timeout : Z) (hostname : bytes) (local_ips : list Z) (debug : bool).
Context (reaction : Session D -> Effect -> list (ClientCall D)).
Implicit Types s : Session D.
#[local] Abbreviation evolves := (evolves transport_parser).
#[local] Abbreviation handle := (handle transport_parser session_timeout hostname local_ips debug reaction).
#[local] Abbreviation run_posted := (run_posted transport_parser reaction).

(** What one event may do; [d] says that the session is to be destroyed. *)
Definition spec_step (e : @event D) s (d : bool) s' : Prop :=
match e with
| Incoming msg => d = false /\
    exists s1 a, evolves (Some msg) s s1 /\ answers msg s1 a /\ s' = emitted a s1
| RunPosted =>
    match posted_ s with
    | [] => d = false /\ s' = s
    | m :: q => evolves None (s <| posted_ := q |>) s' /\
        (d = true <-> m = MSG_STATE /\ terminated (state_ s) = true) /\
        (m = MSG_STATE -> accepted (state_ s) || rejected (state_ s) = true -> state_ s' <> state_ s)
    end
| _ => d = false /\ evolves None s s'
end.

Lemma run_posted_spec (F : fault -> Prop) s :
F AssertFailed \/ modest_calls reaction -> F OutOfFuel \/ calm_reaction reaction -> wpf F run_posted (spec_step RunPosted s) s.
Proof.
intros Hr Hc. apply wpf_bind, wpf_get. cbv beta. destruct (posted_ s) as [|m q] eqn:Eq.
- apply wpf_ret. cbn. by rewrite Eq.
- apply wpf_bind, wpf_modify.
  eapply wpf_mono; [apply (OnMessage_spec transport_parser reaction F None Hr Hc m (s <| posted_ := q |>))|].
  intros d s'. cbn. by rewrite Eq.
Qed.
(** The events that cannot fault, and what they need. *)
Definition safe_event (e : @event D) : bool :=
match e with Client c => modest c | TransportEvent _ _ => false | _ => true end.
Definition ready (e : @event D) s : Prop :=
described s /\ match e with
               | Incoming msg => m_type msg = ACTION_TRANSPORT_INFO -> is_Some (initiator_description s)
               | _ => True
               end.
Lemma handle_spec (F : fault -> Prop) e s :
F AssertFailed \/ modest_calls reaction -> F OutOfFuel \/ calm_reaction reaction -> F AssertFailed \/ debug = false ->
F Dangling \/ ready e s -> (F AssertFailed /\ F Dangling) \/ safe_event e = true ->
wpf F (handle e) (spec_step e s) s.
Proof.
intros Hr Hc Hd Hy Hs.
assert (Hgo : forall (m : Prog (Session D) unit), goes transport_parser F None m s ->
  wpf F (m;; mret false) (fun d s' => d = false /\ evolves None s s') s).
{ intros m Hm. apply wpf_bind. eapply wpf_mono; [exact Hm|]. intros [] s' He. by apply wpf_ret. }
assert (Hdes : F Dangling \/ described s) by (destruct Hy as [?|[? _]]; auto).
destruct e; cbn [Session.handle spec_step].
- apply Hgo. eapply (client_call_goes _ reaction _ None 0).
  + by apply set_state_ok.
  + destruct Hs as [[? _]|?]; auto.
  + lia.
  + intros _. by apply notify_tells.
- apply wpf_bind. eapply wpf_mono; [apply (OnIncomingMessage_spec _ _ _ _ _ _ (Some msg) Hr Hc Hd); [done|]|].
  + destruct Hy as [?|[? ?]]; auto.
  + intros [] s' Hs'. by apply wpf_ret.
- apply Hgo, OnIncomingResponse_goes.
- by apply Hgo, OnFailedSend_goes.
- apply Hgo. destruct Hs as [[? ?]|?]; [|done]. by apply transport_event_goes.
- apply Hgo, still_goes. apply (map_transports_still F (Proxy.with_transport Transport.OnSignalingReady_)).
- apply Hgo, wpf_modify. eapply (ev_trans _ _ _ (s <| allow_local_ips_ := allow |>)).
  + apply ev_quiet. by quiet_tac.
  + pose proof (map_transports_still F (Proxy.with_transport (Transport.set_allow_local_ips allow)) (s <| allow_local_ips_ := allow |>)) as H.
    apply frame_evolves. exact H.
- by apply run_posted_spec.
- by apply Hgo, run_timer_goes.
Qed.

(** *** The invariant *)

Record inv s : Prop := {
inv_walk : walk STATE_INIT (signalled s) = Some (state_ s);
inv_pending : pending (state_ s) = true -> MSG_STATE ∈ posted_ s;
inv_phase : in_phase s;
inv_sent : forall x, Out x ∈ effects_ s -> sent transport_parser s x }.

Lemma session_inv_make local initiator sid type client u : inv (make local initiator sid type client u).
Proof. split; try done. cbn. intros x Hx. by apply elem_of_nil in Hx. Qed.
(** What evolves keeps the invariant, but for a message taken from the queue. *)
Lemma inv_evolves input s q s' :
inv s -> evolves input (s <| posted_ := q |>) s' ->
(state_ s' = state_ s -> pending (state_ s) = true -> MSG_STATE ∈ q) -> inv s'.
Proof.
intros [Hw _ Hp Hs] He Hq. set (s0 := s <| posted_ := q |>) in *. split.
- destruct (evolves_walk _ _ _ _ He) as (l & El & Wl). rewrite El. change (signalled s0) with (signalled s).
  by rewrite walk_app, Hw.
- intros Hpe. destruct (evolves_posted _ _ _ _ He) as (l & El & Hl). rewrite El, elem_of_app.
  destruct (decide (state_ s' = state_ s)) as [E|E]; [|by right; apply Hl]. left. apply Hq; congruence.
- by eapply evolves_phase.
- intros x Hx. destruct (evolves_sent _ _ _ _ He x Hx) as [Ho|Ho]; [|done].
  eapply evolves_keeps_sent; [exact He|]. eapply (sent_stays _ s); [done|done|by apply Hs].
Qed.
Lemma inv_emitted e s : inv s -> (forall st, e <> SignalState st) -> (forall x, e = Out x -> sent transport_parser s x) -> inv (emitted e s).
Proof.
intros [Hw Hq Hp Hs] Hst Hx. split; try done.
- rewrite signalled_emitted. destruct e; rewrite ?app_nil_r; try done. by edestruct Hst.
- intros x Ho. cbn in Ho. apply elem_of_app in Ho as [Ho|Ho%list_elem_of_singleton]; apply (sent_stays _ s); try done; [by apply Hs|by apply Hx].
Qed.
Lemma inv_step e s s' : inv s -> spec_step e s false s' -> inv s'.
Proof.
intros Hi He.
assert (Hev : forall input s1, evolves input s s1 -> inv s1).
{ intros input s1 He1. apply (inv_evolves input s (posted_ s)); [done|by destruct s|]. intros _. by apply inv_pending. }
destruct e; cbn in He; try (by destruct He as [_ He]; eapply Hev).
- destruct He as (_ & s1 & a & He1 & Ha & ->). apply inv_emitted; [by eapply Hev| |].
  + by destruct Ha as [-> | (name & text & ->)].
  + intros x ->. destruct Ha as [[= ->] | (name & text & ?)]; [|done]. by eapply sent_acknowledgement.
- destruct (posted_ s) as [|m q] eqn:Eq; [by destruct He as [_ ->]|]. destruct He as (He & Hd & Hn).
  eapply inv_evolves; [done|exact He|]. intros Est Hpe. pose proof (inv_pending _ Hi Hpe) as Hin. rewrite Eq in Hin.
  apply elem_of_cons in Hin as [<-|Hin]; [|done]. unfold pending in Hpe. apply orb_true_iff in Hpe as [Hpe|Hpe].
  + by destruct (Hn eq_refl Hpe).
  + destruct Hd as [_ Hd]. discriminate (Hd (conj eq_refl Hpe)).
Qed.

(** The sessions that runs reach. *)
Inductive reachable : Session D -> Prop :=
| reach_make local initiator sid type client u : reachable (make local initiator sid type client u)
| reach_step s e s' : reachable s -> handle e s = Done false s' -> reachable s'.
Lemma handle_ends e s d s' : handle e s = Done d s' -> spec_step e s d s'.
Proof. intros E. eapply wpf_done; [|exact E]. apply (handle_spec (fun _ => True)); by left. Qed.
Lemma reachable_inv s : reachable s -> inv s.
Proof. induction 1 as [|s e s' _ IH He]; [apply session_inv_make|]. eapply inv_step; [exact IH|]. by apply handle_ends. Qed.

(** C17. The states a session signals are a walk through the state machine that ends in
its state; it is destroyed by a posted message, when it is terminated. *)
Theorem states_follow_edges s :
reachable s ->
walk STATE_INIT (signalled s) = Some (state_ s) /\
forall e s', handle e s = Done true s' -> e = RunPosted /\ terminated (state_ s) = true.
Proof.
intros Hr%reachable_inv. split; [by destruct Hr|]. intros e s' He%handle_ends. destruct e; cbn in He; try by destruct He.
split; [done|]. destruct (posted_ s); [by destruct He|]. destruct He as (_ & [Hd _] & _). by destruct (Hd eq_refl).
Qed.

(** *** Leaving a state *)

(** The signaling thread runs [n] posted messages, or until the session is to be
  destroyed. *)
Fixpoint drain (n : nat) : Prog (Session D) bool :=
match n with
| O => mret false
| S n => d ← run_posted; if d : bool then mret true else drain n
end.
Lemma drain_app n m s s' : drain n s = Done false s' -> drain (n + m) s = drain m s'.
Proof.
revert s. induction n as [|n IH]; intros s; cbn [drain Nat.add]; [by intros [= ->]|].
unfold mbind, Prog_bind. destruct (run_posted s) as [[]|]; [done|apply IH|done].
Qed.
Lemma described_inv s : inv s -> described s.
Proof.
intros [_ _ Hp _]. unfold in_phase in Hp.
split; intros E; rewrite E in Hp; cbn in Hp; [destruct (local_description_ s)|destruct (remote_description_ s)]; naive_solver.
Qed.
(** A transport-info that comes before the description of the initiator, or after
  a session without one was terminated. *)
Definition early_candidates (e : @event D) s : Prop :=
exists msg, e = Incoming msg /\ m_type msg = ACTION_TRANSPORT_INFO /\ initiator_description s = None.
Lemma initiator_there s :
inv s -> state_ s <> STATE_INIT -> terminated (state_ s) = false -> is_Some (initiator_description s).
Proof.
intros [_ _ Hp _] Hn Ht. unfold in_phase in Hp. unfold initiator_description.
destruct (state_ s), (initiator_ s), (local_description_ s), (remote_description_ s); cbn in Hp; try done; naive_solver.
Qed.
Lemma ready_inv e s : inv s -> ~ early_candidates e s -> ready e s.
Proof.
intros Hi Hn. split; [by apply described_inv|]. destruct e as [c|msg| | | | | | |]; try done. intros Ht.
apply not_eq_None_Some. intros E. apply Hn. by exists msg.
Qed.
(** Nothing of the peer fails, or of the client that cannot fail by itself. *)
Lemma handle_total e s :
modest_reaction reaction -> debug = false -> reachable s -> safe_event e = true -> ~ early_candidates e s ->
exists d s', handle e s = Done d s' /\ spec_step e s d s'.
Proof.
intros [Hm Hc] Hd Hi%reachable_inv Hs Hn.
assert (Hw : wpf (fun _ => False) (handle e) (spec_step e s) s).
{ apply handle_spec; try (by right). right. by apply ready_inv. }
unfold wpf in Hw. destruct (handle e s) as [d s'|]; [by exists d, s'|done].
Qed.

(** C3. Every event that happens to a session does what the specification allows, if it
ends; unless the client sets an error while it hears of one, it does end, or in
a failed assertion or a missing object.  It ends in what the specification
allows, without a fault, when also assertions are off, the client makes only calls
that cannot fail from its handlers, and the event is not a signal of a
transport, an initiate or a change of channels by the client, or a
transport-info before the description of the initiator. *)
Theorem session_refines (e : @event D) s :
(forall d s', handle e s = Done d s' -> spec_step e s d s') /\
(calm_reaction reaction -> forall f, handle e s = Failed f -> f = AssertFailed \/ f = Dangling) /\
(modest_reaction reaction -> debug = false -> reachable s -> safe_event e = true -> ~ early_candidates e s ->
 exists d s', handle e s = Done d s' /\ spec_step e s d s').
Proof.
split; [apply handle_ends|]. split; [|apply handle_total]. intros Hc f Hf.
pose proof (handle_spec (fun f => f = AssertFailed \/ f = Dangling) e s) as Hw.
unfold wpf in Hw. rewrite Hf in Hw. apply Hw; auto.
Qed.

Lemma walk_rank st l st' : walk st l = Some st' -> (rank st + length l <= rank st')%nat.
Proof.
revert st. induction l as [|x l IH]; intros st; simpl; [intros [= ->]; lia|].
destruct (edge st x) eqn:E; [|done]. intros H%IH. apply edge_rank in E. lia.
Qed.
(** A session that was rejected can only be terminated. *)
Definition above (st st' : State) : Prop := (rank st < rank st')%nat /\ (rejected st = true -> (4 <= rank st')%nat).
Lemma evolves_up input s s' : evolves input s s' -> state_ s' <> state_ s -> above (state_ s) (state_ s').
Proof.
intros He Hne. destruct (evolves_walk _ _ _ _ He) as (l & _ & Hl). destruct l as [|st l]; [by injection Hl as Hl|].
simpl in Hl. destruct (edge (state_ s) st) eqn:E; [|done]. pose proof (walk_rank _ _ _ Hl). pose proof (edge_rank _ _ E).
split; [lia|]. intros Hr. destruct (state_ s), st; try done; cbn in *; lia.
Qed.

(** *** Answers *)

(** The state a message is for. *)
Definition required (t : ActionType) : option State :=
match t with
| ACTION_SESSION_INITIATE => Some STATE_INIT
| ACTION_SESSION_ACCEPT | ACTION_SESSION_REJECT => Some STATE_SENTINITIATE
| ACTION_UPDATE => Some STATE_INPROGRESS
| _ => None
end.
Definition not_allowed (msg : SessionMessage) : Effect :=
SignalErrorMessage (stanza msg) QN_STANZA_NOT_ALLOWED (str "message not allowed in current state").
(** The protocol of the first message is the session's from then on. *)
Definition chosen (p : SignalingProtocol) s : Session D :=
s <| current_protocol_ :=
  if decide (current_protocol_ s = PROTOCOL_HYBRID)
  then if decide (p = PROTOCOL_GINGLE) then PROTOCOL_GINGLE else PROTOCOL_JINGLE else current_protocol_ s |>.
Lemma choose_protocol_run p s : choose_protocol p s = Done tt (chosen p s).
Proof. unfold choose_protocol, modify, chosen. case_decide; [done|]. by destruct s. Qed.
Lemma CheckState_refuses st s :
state_ s <> st ->
CheckState debug st s = if debug then Failed AssertFailed
  else Done (Some (QN_STANZA_NOT_ALLOWED, str "message not allowed in current state")) s.
Proof.
intros Hs. unfold CheckState, debug_assert, mbind, Prog_bind, Effects.get, ASSERT.
destruct debug; [by rewrite bool_decide_false|]. unfold mret, Prog_ret. by rewrite decide_False.
Qed.
Lemma refused msg s st :
required (m_type msg) = Some st -> state_ s <> st ->
handle (Incoming msg) s =
  if debug then Failed AssertFailed else Done false (emitted (not_allowed msg) (chosen (protocol msg) s)).
Proof.
intros Ht Hs. cbn [Session.handle]. unfold OnIncomingMessage, debug_assert, mbind, Prog_bind, Effects.get.
set (s1 := chosen (protocol msg) s). assert (Hs1 : state_ s1 <> st) by done.
assert (Ec : forall rest, and_then (CheckState debug st) rest s1 =
  if debug then Failed AssertFailed else Done (Some (QN_STANZA_NOT_ALLOWED, str "message not allowed in current state")) s1).
{ intros rest. unfold and_then, mbind, Prog_bind. rewrite CheckState_refuses by done. by destruct debug. }
assert (Em : message_handler transport_parser hostname local_ips debug reaction msg s1 =
  if debug then Failed AssertFailed else Done (Some (QN_STANZA_NOT_ALLOWED, str "message not allowed in current state")) s1).
{ unfold message_handler. destruct (m_type msg); cbn in Ht; try done; injection Ht as <-; apply Ec. }
destruct debug; [destruct (bool_decide _ || bool_decide _); [|done]|]; cbn [ASSERT]; unfold mret, Prog_ret;
  rewrite choose_protocol_run; fold s1; by rewrite Em.
Qed.
(** A transport-info follows the description of the initiator. *)
Lemma early_fails msg s :
debug = false -> m_type msg = ACTION_TRANSPORT_INFO -> initiator_description s = None ->
handle (Incoming msg) s = Failed Dangling.
Proof.
intros Hd Ht Hn. cbn [Session.handle]. unfold OnIncomingMessage, debug_assert, mbind, Prog_bind, Effects.get. rewrite Hd.
unfold mret at 1, Prog_ret at 1. rewrite choose_protocol_run. unfold message_handler. rewrite Ht.
unfold OnTransportInfoMessage, mbind, Prog_bind, Effects.get.
assert (initiator_description (chosen (protocol msg) s) = None) as -> by exact Hn. done.
Qed.
(** The answer is addressed to the message. *)
Definition answers_id (msg : SessionMessage) (a : Effect) : Prop :=
match a with
| Out x => Attr QN_ID x = Attr QN_ID (stanza msg)
| SignalErrorMessage x _ _ => x = stanza msg
| _ => False
end.
Lemma acknowledgement_facts x s :
Attr QN_TYPE (acknowledgement x s) = str "result" /\ Attr QN_ID (acknowledgement x s) = Attr QN_ID x.
Proof. unfold acknowledgement. rewrite !Attr_SetAttr. by names. Qed.

Lemma incoming_answer msg s d s' :
handle (Incoming msg) s = Done d s' ->
exists l a, effects_ s' = effects_ s ++ l ++ [a] /\
  Forall (fun e => is_answer e = false) l /\ is_answer a = true /\ answers_id msg a.
Proof.
intros (_ & s1 & a & He & Ha & Es)%handle_ends. destruct (evolves_no_answer _ _ _ _ He) as (l & El & Hl). exists l, a. split_and!; [|done| |].
- rewrite Es. cbn. by rewrite El, <- app_assoc.
- destruct Ha as [-> | (name & text & ->)]; [|done]. unfold is_answer. by destruct (acknowledgement_facts (stanza msg) s1) as [-> _].
- destruct Ha as [-> | (name & text & ->)]; [|done]. by apply acknowledgement_facts.
Qed.

(** C18. Every message whose handling ends is answered exactly once, last and to its
id, by an acknowledgement or an error.  A message that is not for the state of
the session fails an assertion if assertions are on; if they are off it
is answered by an error, and nothing else of the session changes than the
protocol it speaks, which the first message chooses. *)
Theorem answered_once msg s :
(forall d s', handle (Incoming msg) s = Done d s' ->
 exists l a, effects_ s' = effects_ s ++ l ++ [a] /\
   Forall (fun e => is_answer e = false) l /\ is_answer a = true /\ answers_id msg a) /\
(forall st, required (m_type msg) = Some st -> state_ s <> st ->
 handle (Incoming msg) s =
   if debug then Failed AssertFailed else Done false (emitted (not_allowed msg) (chosen (protocol msg) s))).
Proof. split; [apply incoming_answer|apply refused]. Qed.

(** *** Leaving a state, without faults *)

Hypothesis Hmodest : modest_reaction reaction.
Lemma run_posted_ends s : exists d s', run_posted s = Done d s' /\ spec_step RunPosted s d s'.
Proof.
pose proof (run_posted_spec (fun _ => False) s (or_intror (proj1 Hmodest)) (or_intror (proj2 Hmodest))) as Hw. unfold wpf in Hw.
destruct (run_posted s) as [d s'|]; [|done]. by exists d, s'.
Qed.
Lemma drain_step n s d s' : run_posted s = Done d s' -> drain (S n) s = if d then Done true s' else drain n s'.
Proof. intros E. cbn. unfold mbind, Prog_bind. rewrite E. by destruct d. Qed.
(** A pending state is left when its message is run, or before. *)
Lemma drain_leaves s :
inv s -> pending (state_ s) = true ->
exists n d s', drain n s = Done d s' /\ (d = true -> terminated (state_ s) = true) /\
  (d = false -> inv s' /\ above (state_ s) (state_ s')).
Proof.
intros Hi Hpe. pose proof (inv_pending _ Hi Hpe) as (q1 & q2 & Eq)%list_elem_of_split.
revert s q2 Hi Hpe Eq. induction q1 as [|m q1 IH]; intros s q2 Hi Hpe Eq; destruct (run_posted_ends s) as (d & s' & Er & Hs);
  pose proof (fun Hd => inv_step _ _ _ Hi (eq_ind d (fun d => spec_step RunPosted s d s') Hs false Hd)) as Hi';
  cbn in Hs; rewrite Eq in Hs; destruct Hs as (He & Hd & Hn); pose proof (drain_step 0 _ _ _ Er) as H1;
  (destruct d; [exists 1%nat, true, s'; split; [exact H1|]; split; [intros _; by apply Hd|done]|]).
- exists 1%nat, false, s'. split; [exact H1|]. split; [done|]. intros _. split; [by apply Hi'|].
  apply (evolves_up _ _ _ He). apply orb_true_iff in Hpe as [Hpe|Hpe]; [by apply Hn|].
  by discriminate (proj2 Hd (conj eq_refl Hpe)).
- destruct (decide (state_ s' = state_ s)) as [E|E].
  + destruct (evolves_posted _ _ _ _ He) as (l & El & _). cbn in El. rewrite <- app_assoc in El. cbn in El.
    destruct (IH s' (q2 ++ l)) as (n & d & s'' & Hdr & Ht & Hf); [by apply Hi'|by rewrite E|done|].
    exists (S n), d, s''. rewrite (drain_step n _ _ _ Er), <- E. by split_and!.
  + exists 1%nat, false, s'. split; [exact H1|]. split; [done|]. intros _. split; [by apply Hi'|]. by apply (evolves_up _ _ _ He).
Qed.

(** A rejected or terminated session is destroyed. *)
Lemma drain_ends s : inv s -> rejected (state_ s) || terminated (state_ s) = true -> exists n s', drain n s = Done true s'.
Proof.
assert (Hend : forall k s, inv s -> (4 <= rank (state_ s))%nat -> (5 - rank (state_ s) <= k)%nat -> exists n s', drain n s = Done true s').
{ clear s. induction k as [|k IH]; intros s Hi Hr Hk;
    (destruct (drain_leaves s Hi) as (n & d & s' & Hdr & _ & Hf); [by destruct (state_ s); cbn in Hr; try lia|]);
    (destruct d; [by exists n, s'|]); destruct (Hf eq_refl) as [Hi' [Hab _]].
  - exfalso. assert (rank (state_ s') <= 5)%nat by (destruct (state_ s'); cbn; lia). lia.
  - destruct (IH s' Hi') as (m & s'' & Hm); [lia..|]. exists (n + m)%nat, s''. by rewrite (drain_app _ _ _ _ Hdr). }
intros Hi Hs. apply orb_true_iff in Hs as [Hs|Hs].
- destruct (drain_leaves s Hi) as (n & d & s' & Hdr & _ & Hf); [by destruct (state_ s)|]. destruct d; [by exists n, s'|].
  destruct (Hf eq_refl) as [Hi' [_ Hr4]]. destruct (Hend 5%nat s' Hi' (Hr4 Hs)) as (m & s'' & Hm); [lia|].
  exists (n + m)%nat, s''. by rewrite (drain_app _ _ _ _ Hdr).
- apply (Hend 5%nat); [done| |lia]. by destruct (state_ s); try done; cbn; lia.
Qed.

(** A session that is accepted, rejected or terminated goes on by itself: its own
messages bring an accepted session into progress or further, and end a rejected
or terminated one. *)
Theorem pending_settles s :
reachable s -> pending (state_ s) = true ->
exists n d s', drain n s = Done d s' /\ (d = true \/ accepted (state_ s) = true /\ (rank STATE_INPROGRESS <= rank (state_ s'))%nat).
Proof.
intros Hi%reachable_inv Hpe. destruct (accepted (state_ s)) eqn:Ea.
- destruct (drain_leaves s Hi Hpe) as (n & d & s' & Hdr & _ & Hf). exists n, d, s'. split; [done|]. destruct d; [by left|].
  destruct (Hf eq_refl) as [_ [Hr _]]. right. split; [done|]. destruct (state_ s); try done; cbn in *; lia.
- destruct (drain_ends s Hi) as (n & s' & Hdr); [by destruct (state_ s)|]. exists n, true, s'. auto.
Qed.

(** C6. A peer cannot make a session fault, when assertions are off and the client makes
only calls that cannot fail from its handlers and sets no error while it hears of
one: messages, answers and posted messages end without a fault, and so do the
client's own calls that cannot fail, exactly unless candidates come while
there is no description of the initiator, which is when no initiate has reached
the session or it is terminated; then a NULL pointer is followed. *)
Theorem peer_is_safe (e : @event D) s :
debug = false -> reachable s -> safe_event e = true ->
((exists d s', handle e s = Done d s') <-> ~ early_candidates e s) /\
(early_candidates e s -> handle e s = Failed Dangling /\ (state_ s = STATE_INIT \/ terminated (state_ s) = true)).
Proof.
intros Hd Hr Hs.
assert (He : early_candidates e s -> handle e s = Failed Dangling /\ (state_ s = STATE_INIT \/ terminated (state_ s) = true)).
{ intros (msg & -> & Ht & Hn). split; [by apply early_fails|].
  destruct (decide (state_ s = STATE_INIT)) as [|Hne]; [by left|]. right. destruct (terminated (state_ s)) eqn:Et; [done|].
  destruct (initiator_there s (reachable_inv _ Hr) Hne Et) as [d E]. by rewrite E in Hn. }
split; [|exact He]. split.
- intros (d & s' & E) [Hf _]%He. by rewrite E in Hf.
- intros Hn. destruct (handle_total e s Hmodest Hd Hr Hs Hn) as (d & s' & E & _). by exists d, s'.
Qed.
End Runs.

(** ** A client that is not calm

  A client that answers every error by another hears of errors without end,
  whatever fuel there is. *)
Definition restless {D} (s : Session D) (e : Effect) : list (ClientCall D) :=
  match e with
  | SignalError ERROR_TIME => [CallSetError ERROR_NETWORK]
  | SignalError ERROR_NETWORK => [CallSetError ERROR_TIME]
  | _ => []
  end.
Theorem restless_never_ends {D} transport_parser fuel (s : Session D) error :
  error_ s = error -> error = ERROR_TIME \/ error = ERROR_NETWORK ->
  signal transport_parser restless fuel (SignalError error) s = Failed OutOfFuel.
Proof.
  intros Es He. revert s error Es He. induction fuel as [|fuel IH]; intros s error Es He; [done|].
  cbn [signal]. unfold mbind at 1, Prog_bind at 1, emit, modify, mbind at 1, Prog_bind at 1, Effects.get.
  set (s1 := s <| effects_ := _ |>). assert (Es1 : error_ s1 = error) by exact Es.
  assert (Hstep : forall e', e' <> error -> e' = ERROR_TIME \/ e' = ERROR_NETWORK ->
    for_each (client_call transport_parser (set_with (signal transport_parser restless fuel)) (signal transport_parser restless fuel))
      [CallSetError e'] s1 = Failed OutOfFuel).
  { intros e' Hne He'. cbn [for_each client_call]. unfold SetError, BaseSession_SetError, mbind, Prog_bind, Effects.get, modify.
    rewrite decide_False by congruence. by rewrite (IH (s1 <| error_ := e' |>) e'). }
  destruct He as [-> | ->]; apply Hstep; auto.
Qed.
End SessionFacts.
