(* ===== verification/SessionNet.v ===== *)
(** * Two sessions

    Two sessions that talk to each other over a network that may lose, repeat and
    reorder what they send: what one knows of the other's contents is what the
    other has.  The examples run a negotiation. *)

From S2P Require Import Prelude SocketAddress StdMap Port Xml SessionMessages Effects Transport Session SessionSteps SessionFacts.
Import Xml Const Messages Session Steps SessionFacts.
#[local] Open Scope jingle_scope.

Module SessionNet.

(** ** What a session reads of what another sent *)

Section Read.
Context {D : Type} (transport_parser : TransportParser).
Context (R : Reading D).
Implicit Types s : Session D.

(** Contents that both syntaxes can carry. *)
Definition writable_contents (cs : list (ContentInfo D)) : Prop :=
  Forall (fun c => desc_ok R (cn_description c)) cs /\ NoDup (map cn_name cs) /\ gingle_contents R cs.
(** The contents [d] as they are read in some syntax. *)
Definition read_of (d' d : list (ContentInfo D)) : Prop := exists p, d' = map (told_content R p) d.

Lemma elements_written type elems s :
elements_stanza type elems s = WriteStanza (outgoing (syntax (current_protocol_ s)) type s) elems elems.
Proof.
unfold elements_stanza, WriteStanza, syntax, outgoing, WriteSessionMessage. cbn.
destruct (current_protocol_ s); cbn; repeat (case_decide; try done).
Qed.
Lemma action_written type write s x :
WriteActionMessage type write s = Good x ->
exists jl gl, x = WriteStanza (outgoing (current_protocol_ s) type s) jl gl /\
  write (syntax (current_protocol_ s)) = Good (if decide (current_protocol_ s = PROTOCOL_GINGLE) then gl else jl).
Proof.
unfold WriteActionMessage, WriteActionMessage_protocol, WriteStanza, syntax, outgoing. cbn [o_protocol o_type o_sid o_initiator o_to].
intros Hx. case_decide as Hh.
- apply bind_good in Hx as (y & Hy & Hx). apply bind_good in Hy as (jl & Hj & [= <-]). apply bind_good in Hx as (gl & Hg & [= <-]).
  exists jl, gl. split; [done|]. rewrite Hh. by repeat (case_decide; try done).
- apply bind_good in Hx as (l & Hl & [= <-]). destruct (current_protocol_ s) eqn:E; try done.
  + exists l, l. split; [|exact Hl]. by repeat (case_decide; try done).
  + exists l, l. split; [|exact Hl]. by repeat (case_decide; try done).
Qed.
Lemma empty_transports (cs : list (ContentInfo D)) :
map content_name (GetEmptyTransportInfos cs) = map cn_name cs /\
Forall (fun t => Forall (cand_ok R) (ti_candidates t)) (GetEmptyTransportInfos cs) /\ Forall gingle_transport (GetEmptyTransportInfos cs).
Proof.
unfold GetEmptyTransportInfos. split_and!; [by rewrite map_map|apply Forall_map, Forall_true; by intros; constructor|].
apply Forall_map, Forall_true. intros c. split; [done|]. by split; constructor.
Qed.

Lemma empty_heard (cs : list (ContentInfo D)) : map (heard_transport R) (GetEmptyTransportInfos cs) = GetEmptyTransportInfos cs.
Proof. unfold GetEmptyTransportInfos. by rewrite map_map. Qed.

Lemma WriteContentMessage_syntax p cs tinfos cps tps :
@WriteContentMessage D (syntax p) cs tinfos cps tps = WriteContentMessage p cs tinfos cps tps.
Proof. by destruct p. Qed.
(** Contents that were written are read, whatever the message around them. *)
Lemma contents_of_sent s type d jl gl p sid ini to name id msg :
parsers_ok (GetContentParsers s) (GetTransportParsers transport_parser) R ->
type = ACTION_SESSION_INITIATE \/ type = ACTION_SESSION_ACCEPT ->
WriteContentMessage p d (GetEmptyTransportInfos d) (GetContentParsers s) (GetTransportParsers transport_parser) =
  Good (if decide (p = PROTOCOL_GINGLE) then gl else jl) ->
ParseSessionMessage (with_id id (from name (WriteStanza (mkOutgoing p type sid ini to) jl gl))) = Good msg ->
m_type msg <> ACTION_UPDATE /\
(writable_contents d ->
 ParseContentMessage (protocol msg) (action_elem msg) (GetContentParsers s) (GetTransportParsers transport_parser) =
   Good (mkContents (map (told_content R p) d) (GetEmptyTransportInfos d))).
Proof.
intros Hp Ht Hw Hm. destruct (stanza_read (mkOutgoing p type sid ini to) jl gl name id) as (_ & m & Em & Epr & Ety & _ & _ & _ & _ & _ & Ee).
{ by destruct Ht as [-> | ->]. }
rewrite Hm in Em. injection Em as <-. split.
- rewrite Ety. unfold received_type. case_decide; by destruct Ht as [-> | ->].
- intros (Hdc & Hnd & Hg). destruct (empty_transports d) as (En & Eo & Eg). rewrite Epr. cbn [o_protocol].
  rewrite (contents_read _ _ R Hp _ d (GetEmptyTransportInfos d) _ _ Hdc Hnd En Eo (fun _ => conj Hg Eg) Hw Ee).
  by rewrite empty_heard.
Qed.
Lemma type_of_sent type jl gl p sid ini to name id msg :
writable p type = true ->
ParseSessionMessage (with_id id (from name (WriteStanza (mkOutgoing p type sid ini to) jl gl))) = Good msg ->
m_type msg = received_type p type.
Proof.
intros Hw Hm. destruct (stanza_read (mkOutgoing p type sid ini to) jl gl name id Hw) as (_ & m & Em & _ & Ety & _).
rewrite Hm in Em. by injection Em as <-.
Qed.

(** What a message that was sent says to the session that gets it. *)
Definition says s (msg : SessionMessage) : Prop :=
m_type msg <> ACTION_UPDATE /\
(m_type msg = ACTION_SESSION_INITIATE \/ m_type msg = ACTION_SESSION_ACCEPT ->
 settled (state_ s) = true /\ exists d, local_description_ s = Some d /\ (writable_contents d -> exists d', read_of d' d /\
   ParseContentMessage (protocol msg) (action_elem msg) (GetContentParsers s) (GetTransportParsers transport_parser) =
     Good (mkContents d' (GetEmptyTransportInfos d)))).
Lemma sent_says s x name id msg :
parsers_ok (GetContentParsers s) (GetTransportParsers transport_parser) R ->
sent transport_parser s x -> ParseSessionMessage (with_id id (from name x)) = Good msg -> says s msg.
Proof.
intros Hp Hx Hm. destruct Hx as [s0 d (_ & _ & Ep) Hs Hd Hx|s0 d (_ & _ & Ep) Hs Hd Hx|s0 type elems Hty ->|s0 reason Hx|s0 n cands Hx|s0 st ->].
- apply action_written in Hx as (jl & gl & -> & Hw). unfold WriteSessionInitiate in Hw. rewrite WriteContentMessage_syntax, Ep in Hw.
  destruct (contents_of_sent s _ d jl gl _ _ _ _ _ _ _ Hp (or_introl eq_refl) Hw Hm) as [Hu Hc].
  split; [done|]. intros _. split; [done|]. exists d. split; [done|]. intros Hwr. eexists. split; [by eexists|by apply Hc].
- unfold accept_stanza in Hx. apply bind_good in Hx as (elems & Hw & [= <-]). rewrite elements_written in Hm.
  rewrite Ep in Hw. unfold WriteSessionAccept in Hw. rewrite <- WriteContentMessage_syntax in Hw.
  destruct (contents_of_sent s ACTION_SESSION_ACCEPT d elems elems (syntax (current_protocol_ s0)) (sid_ s0) (initiator_name_ s0) (remote_name_ s0)
    name id msg Hp) as [Hu Hc]; [by right|rewrite Hw; by case_decide|exact Hm|].
  split; [done|]. intros _. split; [done|]. exists d. split; [done|]. intros Hwr. eexists. split; [by eexists|by apply Hc].
- rewrite elements_written in Hm. apply type_of_sent in Hm; [|by destruct (syntax _), Hty as [-> | ->]].
  unfold says. rewrite Hm. destruct (syntax _), Hty as [-> | ->]; cbn; by split; [|intros [?|?]].
- apply action_written in Hx as (jl & gl & -> & _). apply type_of_sent in Hm; [|by destruct (current_protocol_ s0)].
  unfold says. rewrite Hm. by destruct (current_protocol_ s0); cbn; split; [|intros [?|?]| |intros [?|?]| |intros [?|?]].
- apply action_written in Hx as (jl & gl & -> & _). apply type_of_sent in Hm; [|by destruct (current_protocol_ s0)].
  unfold says. rewrite Hm. by destruct (current_protocol_ s0); cbn; split; [|intros [?|?]| |intros [?|?]| |intros [?|?]].
- unfold acknowledgement, ParseSessionMessage, FirstNamed, all_named, with_id, from in Hm. rewrite !elements_SetAttr in Hm. done.
Qed.
End Read.

(** ** The network *)

Section Net.
Context {D : Type} (transport_parser : TransportParser).
Context (R : Reading D).
(** What each side is run with: its own timeout, host and client. *)
Record Side := mkSide {
side_timeout : Z; side_hostname : bytes; side_ips : list Z; side_debug : bool;
side_reaction : Session D -> Effect -> list (ClientCall D) }.
Implicit Types (s a b : Session D) (A B : Side).
Definition side_handle A : @event D -> Prog (Session D) bool :=
handle transport_parser (side_timeout A) (side_hostname A) (side_ips A) (side_debug A) (side_reaction A).

(** A message comes from what the other has sent at any time; everything else may
  happen as it likes. *)
Definition from_peer b (e : @event D) : Prop :=
match e with
| Incoming msg => exists x id name, Out x ∈ effects_ b /\ ParseSessionMessage (with_id id (from name x)) = Good msg
| _ => True
end.
Inductive net A B : Session D -> Session D -> Prop :=
| net_start local local' initiator initiator' sid type client u u' :
    net A B (make local initiator sid type client u) (make local' initiator' sid type client u')
| net_left a b e a' : net A B a b -> from_peer b e -> side_handle A e a = Done false a' -> net A B a' b
| net_right a b e b' : net A B a b -> from_peer a e -> side_handle B e b = Done false b' -> net A B a b'.

(** The contents that [a] knows of its peer are those of [b]. *)
Definition knows a b : Prop :=
forall d, remote_description_ a = Some d ->
settled (state_ b) = true /\ exists d', local_description_ b = Some d' /\ (writable_contents R d' -> read_of R d d').

Lemma knows_stays a b b' :
knows a b -> (settled (state_ b) = true -> settled (state_ b') = true /\ local_description_ b' = local_description_ b) -> knows a b'.
Proof.
intros Hk Hb d Hd. destruct (Hk d Hd) as (Hs & d' & Hl & Hw). destruct (Hb Hs) as [Hs' El]. split; [done|]. exists d'.
by rewrite El.
Qed.
Lemma spec_settled e s d s' : spec_step transport_parser e s d s' -> settled (state_ s) = true ->
settled (state_ s') = true /\ local_description_ s' = local_description_ s.
Proof.
intros He. destruct e; cbn in He; try (destruct He as [_ He]; by apply (evolves_settled _ _ _ _ He)).
- destruct He as (_ & s1 & a & He & _ & ->). apply (evolves_settled _ _ _ _ He).
- destruct (posted_ s); [by destruct He as [_ ->]|]. destruct He as [He _]. apply (evolves_settled _ _ _ _ He).
Qed.
Lemma spec_parsers e s d s' : spec_step transport_parser e s d s' -> GetContentParsers s' = GetContentParsers s.
Proof.
intros He. destruct e; cbn in He; try (destruct He as [_ He]; by destruct (evolves_ids _ _ _ _ He) as (_ & _ & ?)).
- destruct He as (_ & s1 & a & He & _ & ->). by destruct (evolves_ids _ _ _ _ He) as (_ & _ & ?).
- destruct (posted_ s); [by destruct He as [_ ->]|]. destruct He as [He _]. by destruct (evolves_ids _ _ _ _ He) as (_ & _ & ?).
Qed.
(** A step of [a] brings it what [b] says, or nothing. *)
Lemma knows_step e a a' b d :
spec_step transport_parser e a d a' -> GetContentParsers a = GetContentParsers b -> knows a b ->
(forall msg, e = Incoming msg -> says transport_parser R b msg) -> knows a' b.
Proof.
intros He Ep Hk Hs.
assert (Hno : forall s, evolves transport_parser None s a' -> remote_description_ s = remote_description_ a -> knows a' b).
{ intros s He' Er c Hc. apply Hk. destruct (evolves_remote _ _ _ _ He') as [E | (? & ? & _)]; [|done]. by rewrite <- Er, <- E. }
destruct e as [c|msg|msg|o er|n te| |al| |]; cbn in He; try (destruct He as [_ He]; by eapply Hno).
- destruct He as (_ & s1 & ans & He & _ & ->). intros c Hc. cbn in Hc.
  destruct (Hs msg eq_refl) as [Hu Hsay]. destruct (evolves_remote _ _ _ _ He) as [E | (m & [= <-] & [Hu' | [Ht Hr]])]; [by apply Hk; rewrite <- E|done|].
  destruct (Hsay Ht) as (Hse & d' & Hl & Hw). split; [done|]. exists d'. split; [done|]. intros Hwr.
  destruct Hr as (cm & Hcm & Er). destruct (Hw Hwr) as (d'' & Hrd & Hpa). rewrite Ep, Hpa in Hcm. injection Hcm as <-.
  rewrite Hc in Er. injection Er as ->. exact Hrd.
- destruct (posted_ a) as [|m q]; [by destruct He as [_ ->]|]. destruct He as [He _]. by eapply Hno.
Qed.

Lemma side_ends A e s d s' : side_handle A e s = Done d s' -> spec_step transport_parser e s d s'.
Proof. unfold side_handle. intros He. exact (handle_ends _ _ _ _ _ _ _ _ _ _ He). Qed.
Lemma from_peer_says b e : parsers_ok (GetContentParsers b) (GetTransportParsers transport_parser) R ->
inv transport_parser b -> from_peer b e -> forall msg, e = Incoming msg -> says transport_parser R b msg.
Proof. intros Hp Hi Hf msg ->. destruct Hf as (x & id & name & Hx & Hm). eapply sent_says; [exact Hp| |exact Hm]. by apply Hi. Qed.
Lemma session_net_inv A B a b :
net A B a b -> parsers_ok (GetContentParsers a) (GetTransportParsers transport_parser) R ->
inv transport_parser a /\ inv transport_parser b /\ GetContentParsers a = GetContentParsers b /\ knows a b /\ knows b a.
Proof.
intros Hn Hp. induction Hn as [|a b e a' Hn IH Hf He|a b e b' Hn IH Hf He].
- split_and!; try apply session_inv_make; try done.
- apply side_ends in He. pose proof (spec_parsers _ _ _ _ He) as Ep. rewrite Ep in Hp.
  destruct (IH Hp) as (Ia & Ib & E & Kab & Kba). split_and!.
  + exact (inv_step _ _ _ _ Ia He).
  + done.
  + congruence.
  + eapply knows_step; [exact He|done|done|]. apply from_peer_says; [by rewrite <- E|done..].
  + eapply knows_stays; [exact Kba|]. by eapply spec_settled.
- destruct (IH Hp) as (Ia & Ib & E & Kab & Kba). apply side_ends in He. pose proof (spec_parsers _ _ _ _ He) as Ep. split_and!.
  + done.
  + exact (inv_step _ _ _ _ Ib He).
  + congruence.
  + eapply knows_stays; [exact Kab|]. by eapply spec_settled.
  + eapply knows_step; [exact He|done|done|]. by apply from_peer_says.
Qed.

(** C2. Two sessions agree: over a network that may lose, repeat and reorder their
messages, the contents a session has of its peer are those the peer has of
itself, as they are read in one of the two syntaxes, from the first message on,
and a session in progress has them. *)
Theorem sessions_agree A B a b :
parsers_ok (GetContentParsers a) (GetTransportParsers transport_parser) R -> net A B a b ->
(forall d, remote_description_ a = Some d ->
   exists d', local_description_ b = Some d' /\ (writable_contents R d' -> read_of R d d')) /\
(forall d, remote_description_ b = Some d ->
   exists d', local_description_ a = Some d' /\ (writable_contents R d' -> read_of R d d')) /\
(state_ a = STATE_INPROGRESS -> is_Some (remote_description_ a)) /\ (state_ b = STATE_INPROGRESS -> is_Some (remote_description_ b)).
Proof.
intros Hp Hn. destruct (session_net_inv A B a b Hn Hp) as (Ia & Ib & _ & Kab & Kba). split_and!.
- intros d Hd. by destruct (Kab d Hd) as [_ ?].
- intros d Hd. by destruct (Kba d Hd) as [_ ?].
- apply (described_inv _ (side_reaction A) _ Ia).
- apply (described_inv _ (side_reaction A) _ Ib).
Qed.
End Net.

(** ** A negotiation

    Two clients that speak of audio and video; the second accepts in its handler
    of the initiate. *)

Definition ex_accept : Session Media -> Effect -> list (ClientCall Media) := fun s e =>
  match e with SignalState STATE_RECEIVEDINITIATE => [CallAccept ex_cs] | _ => [] end.
Definition ex_silent : Session Media -> Effect -> list (ClientCall Media) := fun _ _ => [].
Definition ex_side (r : Session Media -> Effect -> list (ClientCall Media)) : @Side Media := mkSide 50 [] [] false r.
Definition ex_make (local initiator : bytes) : Session Media :=
  make local initiator (str "7") NS_JINGLE_RTP ex_content_parser false.
Definition ex_a0 : Session Media := ex_make (str "a@x") (str "a@x").
Definition ex_b0 : Session Media := ex_make (str "b@x") (str "a@x").
Definition ex_handle r : @event Media -> Prog (Session Media) bool := side_handle ex_transport_parser (ex_side r).
(** The session after an event, and whether it goes on. *)
Definition after r (e : @event Media) (s : Session Media) : Session Media :=
  match ex_handle r e s with Done _ s' => s' | Failed _ => s end.
Definition goes_on r (e : @event Media) (s : Session Media) : bool :=
  match ex_handle r e s with Done d _ => negb d | Failed _ => false end.
Lemma after_done r e s : goes_on r e s = true -> ex_handle r e s = Done false (after r e s).
Proof. unfold goes_on, after. by destruct (ex_handle r e s) as [[]|]. Qed.

(** The message of the [n]th stanza that a session sent. *)
Definition stanzas (s : Session Media) : list XmlElement := omap (fun e => match e with Out x => Some x | _ => None end) (effects_ s).
Definition message (n : nat) (name : bytes) (s : Session Media) : option SessionMessage :=
  x ← stanzas s !! n;
  match ParseSessionMessage (with_id (str "1") (from name x)) with Good m => Some m | Bad _ => None end.
Definition no_message : SessionMessage :=
  mkMessage [] [] [] PROTOCOL_JINGLE ACTION_UNKNOWN [] [] (new_element QN_IQ) (new_element QN_IQ).
Definition deliver (n : nat) (name : bytes) (s : Session Media) : @event Media := Incoming (default no_message (message n name s)).
Lemma deliver_from n name s : there (message n name s) = true -> from_peer s (deliver n name s).
Proof.
  destruct (message n name s) as [m|] eqn:Hm; [|done]. intros _. unfold deliver. rewrite Hm. unfold message in Hm. apply bind_Some in Hm as (x & Hx & Hm).
  destruct (ParseSessionMessage _) as [m'|] eqn:E; [|done]. injection Hm as ->. exists x, (str "1"), name. split; [|exact E].
  apply list_elem_of_lookup_2 in Hx. unfold stanzas in Hx. apply list_elem_of_omap in Hx as (e & He & Hx).
  destruct e; try done. by injection Hx as ->.
Qed.

Definition ex_a1 : Session Media := after ex_silent (Client (CallInitiate (str "b@x") ex_cs)) ex_a0.
Definition ex_b1 : Session Media := after ex_accept (deliver 0 (str "a@x") ex_a1) ex_b0.
Definition ex_a2 : Session Media := after ex_silent (deliver 0 (str "b@x") ex_b1) ex_a1.
Definition ex_a3 : Session Media := after ex_silent RunPosted ex_a2.
Definition ex_a4 : Session Media := after ex_silent RunPosted ex_a3.

Example negotiation :
  map state_ [ex_a1; ex_b1; ex_a2; ex_a3; ex_a4] =
  [STATE_SENTINITIATE; STATE_SENTACCEPT; STATE_RECEIVEDACCEPT; STATE_INPROGRESS; STATE_INPROGRESS].
Proof. vm_compute. reflexivity. Qed.

Lemma ex_accept_modest : modest_reaction ex_accept.
Proof.
split; [|intros s error c Hc; by apply elem_of_nil in Hc]. intros s e c Hc.
destruct e as [st| | | | | | | |]; try (by apply elem_of_nil in Hc). destruct st; try (by apply elem_of_nil in Hc).
by apply list_elem_of_singleton in Hc as ->.
Qed.
#[local] Abbreviation ex_reachable r := (reachable ex_transport_parser 50 [] [] false r).
Lemma reach_after r e s : ex_reachable r s -> goes_on r e s = true -> ex_reachable r (after r e s).
Proof. intros Hr Hg. eapply reach_step; [exact Hr|]. exact (after_done r e s Hg). Qed.
Lemma answered_after r msg s :
  goes_on r (Incoming msg) s = true -> handle ex_transport_parser 50 [] [] false r (Incoming msg) s = Done false (after r (Incoming msg) s).
Proof. exact (after_done r (Incoming msg) s). Qed.
Lemma ex_b1_goes : goes_on ex_accept (deliver 0 (str "a@x") ex_a1) ex_b0 = true.
Proof. vm_compute. reflexivity. Qed.
Lemma ex_b1_reachable : ex_reachable ex_accept ex_b1.
Proof. apply reach_after; [apply reach_make|exact ex_b1_goes]. Qed.
#[local] Abbreviation ex_net r r' := (net ex_transport_parser (ex_side r) (ex_side r')).
Lemma net_after_left r r' e a b : ex_net r r' a b -> from_peer b e -> goes_on r e a = true -> ex_net r r' (after r e a) b.
Proof. intros Hn Hf Hg. eapply net_left; [exact Hn|exact Hf|]. exact (after_done r e a Hg). Qed.
Lemma net_after_right r r' e a b : ex_net r r' a b -> from_peer a e -> goes_on r' e b = true -> ex_net r r' a (after r' e b).
Proof. intros Hn Hf Hg. eapply net_right; [exact Hn|exact Hf|]. exact (after_done r' e b Hg). Qed.
Lemma ex_net1 : ex_net ex_silent ex_accept ex_a1 ex_b0.
Proof. apply net_after_left; [apply net_start|exact I|]. vm_compute. reflexivity. Qed.
Lemma ex_net2 : ex_net ex_silent ex_accept ex_a1 ex_b1.
Proof. apply net_after_right; [exact ex_net1|apply deliver_from; vm_compute; reflexivity|exact ex_b1_goes]. Qed.
Lemma ex_net3 : ex_net ex_silent ex_accept ex_a2 ex_b1.
Proof. apply net_after_left; [exact ex_net2|apply deliver_from|]; vm_compute; reflexivity. Qed.

Lemma states_follow_edges_witness : walk STATE_INIT (signalled ex_b1) = Some (state_ ex_b1).
Proof. apply (states_follow_edges _ _ _ _ _ _ ex_b1 ex_b1_reachable). Defined.
Lemma pending_settles_witness :
  exists n d s', drain ex_transport_parser ex_accept n ex_b1 = Done d s' /\
    (d = true \/ accepted (state_ ex_b1) = true /\ (rank STATE_INPROGRESS <= rank (state_ s'))%nat).
Proof. apply (pending_settles _ 50 [] [] false ex_accept ex_accept_modest ex_b1 ex_b1_reachable). vm_compute. reflexivity. Defined.
Lemma ex_not_early : ~ early_candidates (deliver 1 (str "a@x") ex_a1) ex_b1.
Proof.
  intros (msg & _ & _ & E). assert (H : there (initiator_description ex_b1) = true) by (vm_compute; reflexivity). by rewrite E in H.
Qed.
Lemma session_refines_witness :
  exists d s', ex_handle ex_accept (deliver 1 (str "a@x") ex_a1) ex_b1 = Done d s' /\
    spec_step ex_transport_parser (deliver 1 (str "a@x") ex_a1) ex_b1 d s'.
Proof.
  apply (proj2 (proj2 (session_refines ex_transport_parser 50 [] [] false ex_accept (deliver 1 (str "a@x") ex_a1) ex_b1))
    ex_accept_modest eq_refl ex_b1_reachable eq_refl ex_not_early).
Defined.
(** Candidates that come before the initiate. *)
Definition ex_early : SessionMessage :=
  mkMessage (str "2") (str "a@x") (str "b@x") PROTOCOL_JINGLE ACTION_TRANSPORT_INFO (str "7") (str "a@x") (new_element QN_JINGLE) (new_element QN_IQ).
(** An accept for the session that accepted. *)
Definition ex_accepted : SessionMessage :=
  mkMessage (str "2") (str "a@x") (str "b@x") PROTOCOL_JINGLE ACTION_SESSION_ACCEPT (str "7") (str "a@x") (new_element QN_JINGLE) (new_element QN_IQ).
Lemma peer_is_safe_witness :
  (exists d s', ex_handle ex_accept (deliver 1 (str "a@x") ex_a1) ex_b1 = Done d s') /\
  ex_handle ex_accept (Incoming ex_early) ex_b0 = Failed Dangling.
Proof.
  split.
  - apply (proj1 (peer_is_safe ex_transport_parser 50 [] [] false ex_accept ex_accept_modest (deliver 1 (str "a@x") ex_a1) ex_b1 eq_refl
      ex_b1_reachable eq_refl)), ex_not_early.
  - apply (proj2 (peer_is_safe ex_transport_parser 50 [] [] false ex_accept ex_accept_modest (Incoming ex_early) ex_b0 eq_refl
      (reach_make _ _ _ _ _ _ _ _ _ _ _ _) eq_refl)). by exists ex_early.
Defined.
Lemma answered_once_witness :
  (exists l a, effects_ (after ex_accept (deliver 0 (str "a@x") ex_a1) ex_b0) = effects_ ex_b0 ++ l ++ [a] /\
     Forall (fun e => is_answer e = false) l /\ is_answer a = true) /\
  ex_handle ex_accept (Incoming ex_accepted) ex_b1 = Done false (emitted (not_allowed ex_accepted) (chosen PROTOCOL_JINGLE ex_b1)).
Proof.
  split.
  - destruct (proj1 (answered_once _ _ _ _ _ _ _ _) _ _ (answered_after ex_accept _ ex_b0 ex_b1_goes)) as (l & a & El & Hl & Ha & _).
    exists l, a. split; [exact El|]. split; [exact Hl|exact Ha].
  - refine (proj2 (answered_once ex_transport_parser 50 [] [] false ex_accept ex_accepted ex_b1) STATE_SENTINITIATE eq_refl _).
    refine (bool_decide_unpack _ _). vm_compute. exact I.
Defined.
Lemma after_parsers r e s : GetContentParsers (after r e s) = GetContentParsers s.
Proof.
  unfold after. destruct (ex_handle r e s) as [d s'|] eqn:E; [|done]. eapply (spec_parsers ex_transport_parser).
  exact (side_ends _ _ _ _ _ _ E).
Qed.
Lemma ex_a2_parsers_ok : parsers_ok (GetContentParsers ex_a2) (GetTransportParsers ex_transport_parser)
  ex_reading.
Proof. unfold ex_a2, ex_a1. rewrite !after_parsers. exact ex_parsers_ok. Qed.
Lemma ex_a2_described : remote_description_ ex_a2 = Some ex_cs.
Proof. vm_compute. reflexivity. Qed.
Lemma sessions_agree_witness :
  exists d', local_description_ ex_b1 = Some d' /\
    (writable_contents ex_reading d' -> read_of ex_reading ex_cs d').
Proof. exact (proj1 (sessions_agree _ _ _ _ _ _ ex_a2_parsers_ok ex_net3) ex_cs ex_a2_described). Defined.
(** Both hold the contents of the example. *)
Example negotiated : remote_description_ ex_a4 = Some ex_cs /\ remote_description_ ex_b1 = Some ex_cs.
Proof. split; vm_compute; reflexivity. Qed.

(** The description that a transport-info message is read with is not there before an
    initiate. *)
Example transport_info_before_initiate :
  ex_handle ex_accept (Incoming (mkMessage [] (str "a@x") (str "b@x") PROTOCOL_JINGLE ACTION_TRANSPORT_INFO (str "7") []
    (new_element QN_JINGLE) (new_element QN_IQ))) ex_b0 = Failed Dangling.
Proof. vm_compute. reflexivity. Qed.
(** A message out of order is an error of the peer, and a failed assertion in a debug
    build. *)
Example out_of_order_asserts :
  side_handle ex_transport_parser (mkSide 50 [] [] true ex_silent) (Incoming (mkMessage [] (str "a@x") (str "b@x") PROTOCOL_JINGLE
    ACTION_SESSION_ACCEPT (str "7") [] (new_element QN_JINGLE) (new_element QN_IQ))) ex_b0 = Failed AssertFailed.
Proof. vm_compute. reflexivity. Qed.
End SessionNet.
