(* ===== verification/SessionManager.v ===== *)
(** * The session manager (talk/p2p/base/sessionmanager.cc, sessionmanager.h)

    The manager owns the sessions: it creates one for each initiate and each call
    of a client, finds the session of an incoming stanza by its id and its sender,
    and answers the stanzas that no session takes.  Sessions are objects with an
    identity; the map from session ids need not know all of them. *)

From S2P Require Import Prelude SocketAddress StdMap Port Xml SessionMessages Effects Transport Jid Session SessionSteps SessionFacts.
Import Xml Const Messages Session.
#[local] Open Scope jingle_scope.

Module Manager.

(** ** Error messages *)

Definition CreateErrorMessage (stanza : XmlElement) (name : QName) (type text : bytes) (extra_info : option XmlElement) : XmlElement :=
  let iq := new_element QN_IQ in
  let iq := SetAttr QN_TO (Attr QN_FROM stanza) iq in
  let iq := SetAttr QN_ID (Attr QN_ID stanza) iq in
  let iq := SetAttr QN_TYPE (str "error") iq in
  let iq := CopyXmlChildren stanza iq in
  let error := SetAttr QN_TYPE type (new_element QN_ERROR) in
  let error := if decide (Namespace name = NS_STANZA) then error
               else AddElement (new_element QN_STANZA_UNDEFINED_CONDITION) error in
  let error := AddElement (new_element name) error in
  let error := match extra_info with Some e => AddElement e error | None => error end in
  let error := if decide (text = []) then error
               else AddElement (SetBodyText text (SetAttr QN_XML_LANG (str "en") (new_element QN_STANZA_TEXT))) error in
  AddElement error iq.

(** ** The state *)

(** What the manager signals, in order; a session is named by its object. *)
Inductive Output :=
  | SignalOutgoingMessage (stanza : XmlElement)
  | SignalSessionCreate (session : nat) (received_initiate : bool)
  | SignalSessionDestroy (session : nat)
  | RequestSignaling
  | OfSession (session : nat) (e : Effect).

Record SessionManager (D : Type) := mkManager {
  timeout_ : Z;
  client_map_ : gmap bytes (ContentParser D);
  session_map_ : smap bytes nat;
  objects : gmap nat (Session D);
  next_object : nat;
  outputs : list Output;
}.
#[global] Arguments mkManager {D}.
#[global] Arguments timeout_ {D}.
#[global] Arguments client_map_ {D}.
#[global] Arguments session_map_ {D}.
#[global] Arguments objects {D}.
#[global] Arguments next_object {D}.
#[global] Arguments outputs {D}.
#[export] Instance SessionManager_eta D : Eta (SessionManager D) := fun m =>
  mkManager (timeout_ m) (client_map_ m) (session_map_ m) (objects m) (next_object m) (outputs m).
Definition make {D} : SessionManager D := mkManager 50 ∅ [] ∅ 0 [].

Section Code.
Context {D : Type}.
Context (transport_parser : TransportParser) (hostname : bytes) (local_ips : list Z) (debug : bool).
(** What a session leaves uninitialised; what the client calls in its handlers of
  a session's signals and of its creation. *)
Context (uninitialized : bool) (reaction : Session D -> Effect -> list (ClientCall D)) (on_create : bool -> list (ClientCall D)).
Definition P (A : Type) : Type := Prog (SessionManager D) A.
Implicit Types m : SessionManager D.
Definition output (o : Output) : P unit := modify (fun m => m <| outputs := outputs m ++ [o] |>).

(** *** Clients *)

Definition GetClient (content_type : bytes) m : option (ContentParser D) := client_map_ m !! content_type.
Definition AddClient (content_type : bytes) (client : ContentParser D) : P unit :=
m ← get;
ASSERT (negb (bool_decide (is_Some (GetClient content_type m))));;
modify (fun m => m <| client_map_ := <[content_type := client]> (client_map_ m) |>).
Definition RemoveClient (content_type : bytes) : P unit :=
m ← get;
ASSERT (bool_decide (is_Some (GetClient content_type m)));;
modify (fun m => m <| client_map_ := base.delete content_type (client_map_ m) |>).
Definition set_session_timeout (timeout : Z) : P unit := modify (fun m => m <| timeout_ := timeout |>).

(** *** Sessions *)

(** Errors of a session are sent as answers; its stanzas are passed on. *)
Definition relay (session : nat) (e : Effect) : Output :=
match e with
| Out stanza => SignalOutgoingMessage stanza
| SignalErrorMessage stanza name text => SignalOutgoingMessage (CreateErrorMessage stanza name (str "modify") text None)
| SignalRequestSignaling => RequestSignaling
| e => OfSession session e
end.
(** A call of a session; what it signals is passed on. *)
Definition with_session {A} (session : nat) (call : Prog (Session D) A) : P A := fun m =>
match objects m !! session with
| None => Failed Dangling
| Some s =>
    match call s with
    | Failed f => Failed f
    | Done a s' =>
        Done a (m <| objects := <[session := s']> (objects m) |>
                  <| outputs := outputs m ++ map (relay session) (drop (length (effects_ s)) (effects_ s')) |>)
    end
end.
Definition CreateSession (local_name initiator_name sid content_type : bytes) (received_initiate : bool) : P nat :=
m ← get;
client ← the AssertFailed (GetClient content_type m);
let session := next_object m in
modify (fun m => m
  <| objects := <[session := Session.make local_name initiator_name sid content_type client uninitialized]> (objects m) |>
  <| next_object := S session |>
  <| session_map_ := map_set sid session (session_map_ m) |>);;
output (SignalSessionCreate session received_initiate);;
with_session session (for_each (client_call transport_parser (set_state transport_parser reaction) (notify transport_parser reaction)) (on_create received_initiate));;
mret session.
(** A client creates a session with a random id. *)
Definition CreateSession_client (random_id : bytes) (local_name content_type : bytes) : P nat :=
CreateSession local_name local_name random_id content_type false.
Definition DestroySession (session : nat) : P unit :=
m ← get;
s ← the Dangling (objects m !! session);
match map_find (sid_ s) (session_map_ m) with
| None => mret tt
| Some _ =>
    output (SignalSessionDestroy session);;
    modify (fun m => m <| session_map_ := map_erase (sid_ s) (session_map_ m) |>);;
    with_session session destroy;;
    modify (fun m => m <| objects := base.delete session (objects m) |>)
end.
Definition GetSession (sid : bytes) m : option nat := map_find sid (session_map_ m).
(** The session of an id whose peer is [remote_name]. *)
Definition FindSession (sid remote_name : bytes) m : option nat :=
session ← map_find sid (session_map_ m);
s ← objects m !! session;
if Jid.equal (Jid.of_string remote_name) (Jid.of_string (remote_name_ s)) then Some session else None.
(** As long as there is a session, the first is terminated. *)
Fixpoint TerminateAll (fuel : nat) : P unit :=
match fuel with
| O => fail OutOfFuel
| S fuel =>
    m ← get;
    match session_map_ m with
    | [] => mret tt
    | (_, session) :: _ =>
        with_session session (Terminate (set_state transport_parser reaction));;
        TerminateAll fuel
    end
end.

(** *** Stanzas *)

Definition SendErrorMessage (stanza : XmlElement) (name : QName) (type text : bytes) (extra_info : option XmlElement) : P unit :=
output (SignalOutgoingMessage (CreateErrorMessage stanza name type text extra_info)).
Definition bad_request (stanza : XmlElement) (text : bytes) : P unit :=
SendErrorMessage stanza QN_STANZA_BAD_REQUEST (str "modify") text None.
Definition session_message (session : nat) (msg : SessionMessage) : P unit :=
with_session session (Session.OnIncomingMessage transport_parser hostname local_ips debug reaction msg).
Definition OnIncomingMessage (stanza : XmlElement) : P unit :=
match ParseSessionMessage stanza with
| Bad text => bad_request stanza text
| Good msg =>
    m ← get;
    match FindSession (m_sid msg) (m_from msg) m with
    | Some session => session_message session msg
    | None =>
        if negb (bool_decide (m_type msg = ACTION_SESSION_INITIATE)) then bad_request stanza (str "unknown session") else
        match ParseContentType (protocol msg) (action_elem msg) with
        | Bad text => bad_request stanza text
        | Good content_type =>
            if negb (bool_decide (is_Some (GetClient content_type m)))
            then bad_request stanza (str "unknown content type: " ++ content_type)
            else
              session ← CreateSession (m_to msg) (m_initiator msg) (m_sid msg) content_type true;
              session_message session msg
        end
    end
end.
Definition OnIncomingResponse (orig_stanza response_stanza : option XmlElement) : P unit :=
match orig_stanza, response_stanza with
| Some orig_stanza, Some _ =>
    match ParseSessionMessage orig_stanza with
    | Bad _ => mret tt
    | Good msg =>
        m ← get;
        match FindSession (m_sid msg) (m_to msg) m with
        | None => mret tt
        | Some session => with_session session (Session.OnIncomingResponse transport_parser msg)
        end
    end
| _, _ => mret tt
end.
(** A send that got no answer is an error of its addressee. *)
Definition OnFailedSend (orig_stanza : XmlElement) (error_stanza : option XmlElement) : P unit :=
match ParseSessionMessage orig_stanza with
| Bad _ => mret tt
| Good msg =>
    m ← get;
    match FindSession (m_sid msg) (m_to msg) m with
    | None => mret tt
    | Some session =>
        let error_stanza := default (CreateErrorMessage orig_stanza QN_STANZA_ITEM_NOT_FOUND (str "cancel")
          (str "Recipient did not respond") None) error_stanza in
        with_session session (Session.OnFailedSend transport_parser debug reaction orig_stanza error_stanza)
    end
end.
Definition OnSignalingReady : P unit :=
m ← get;
for_each (fun e => with_session (snd e) Session.OnSignalingReady) (session_map_ m).

(** ** Runs *)

Inductive event :=
| CallAddClient (content_type : bytes) (client : ContentParser D)
| CallRemoveClient (content_type : bytes)
| CallCreateSession (random_id local_name content_type : bytes)
| CallDestroySession (session : nat)
| IncomingStanza (stanza : XmlElement)
| IncomingResponse (orig_stanza response_stanza : option XmlElement)
| SendFailed (orig_stanza : XmlElement) (error_stanza : option XmlElement)
| CallOnSignalingReady
| OfSessionEvent (session : nat) (e : @Session.event D).
(** A session's own events: its messages come through the manager. *)
Definition session_event (session : nat) (e : @Session.event D) : P unit :=
m ← get;
d ← with_session session (Session.handle transport_parser (timeout_ m) hostname local_ips debug reaction e);
if d : bool then DestroySession session else mret tt.
Definition handle (e : event) : P unit :=
match e with
| CallAddClient content_type client => AddClient content_type client
| CallRemoveClient content_type => RemoveClient content_type
| CallCreateSession random_id local_name content_type => CreateSession_client random_id local_name content_type;; mret tt
| CallDestroySession session => DestroySession session
| IncomingStanza stanza => OnIncomingMessage stanza
| IncomingResponse orig_stanza response_stanza => OnIncomingResponse orig_stanza response_stanza
| SendFailed orig_stanza error_stanza => OnFailedSend orig_stanza error_stanza
| CallOnSignalingReady => OnSignalingReady
| OfSessionEvent session e => session_event session e
end.
End Code.
End Manager.
