(* ===== verification/ManagerFacts.v ===== *)
(** * Properties of the session manager

    Every stanza is answered once and touches no session but its own; the map of
    sessions holds live sessions under their ids, each of them one that the theorems
    of [SessionFacts] speak of; a session that is over is taken out of it. *)

From S2P Require Import Prelude SocketAddress StdMap Port Xml SessionMessages Effects Transport Jid Session SessionSteps SessionFacts SessionNet SessionManager.
Import Xml Const Messages Session Steps SessionFacts SessionNet Manager.
#[local] Open Scope jingle_scope.

Module ManagerFacts.

Section Facts.
Context {D : Type}.
Context (transport_parser : TransportParser) (hostname : bytes) (local_ips : list Z) (debug : bool).
Context (uninitialized : bool) (reaction : Session D -> Effect -> list (ClientCall D)) (on_create : bool -> list (ClientCall D)).
Implicit Types (m : SessionManager D) (s : Session D) (id : nat).
#[local] Abbreviation session_handle t := (Session.handle transport_parser t hostname local_ips debug reaction).
#[local] Abbreviation handle := (Manager.handle transport_parser hostname local_ips debug uninitialized reaction on_create).
#[local] Abbreviation session_step := (spec_step transport_parser).

(** ** Calls of a session *)

Lemma with_session_done {A} id (call : Prog (Session D) A) m a m' :
with_session id call m = Done a m' ->
exists s s', objects m !! id = Some s /\ call s = Done a s' /\
  m' = m <| objects := <[id := s']> (objects m) |>
         <| outputs := outputs m ++ map (relay id) (drop (length (effects_ s)) (effects_ s')) |>.
Proof.
unfold with_session. destruct (objects m !! id) as [s|]; [|done]. destruct (call s) as [a' s'|] eqn:E; [|done].
intros [= <- <-]. by exists s, s'.
Qed.
(** A call that is the whole of an event. *)
Lemma event_done (e : @Session.event D) (call : Prog (Session D) unit) t s u s' :
session_handle t e = (call;; mret false) -> call s = Done u s' -> session_handle t e s = Done false s'.
Proof. intros He Hc. rewrite He. unfold mbind, Prog_bind. by rewrite Hc. Qed.
Lemma handle_sid t e s d s' : session_handle t e s = Done d s' -> sid_ s' = sid_ s.
Proof.
intros He%handle_ends. destruct e; cbn in He; try (by destruct He as [_ He]; destruct (evolves_ids _ _ _ _ He) as (? & _)).
- destruct He as (_ & s1 & a & He & _ & ->). by destruct (evolves_ids _ _ _ _ He) as (? & _).
- destruct (posted_ s); [by destruct He as [_ ->]|]. destruct He as [He _]. by destruct (evolves_ids _ _ _ _ He) as (? & _).
Qed.
(** ** The map of sessions *)

#[local] Abbreviation session_reachable := (reachable transport_parser 50 hostname local_ips debug reaction).
(** A message that carries a session's id and whose other end is its peer. *)
Definition of_peer (msg : SessionMessage) (peer : bytes) s : Prop :=
m_sid msg = sid_ s /\ Jid.equal (Jid.of_string peer) (Jid.of_string (remote_name_ s)) = true.
(** The events of a session: stanzas from and answers of its peer under its id,
and whatever does not come in a stanza. *)
Definition own_event (e : @Session.event D) s : Prop :=
match e with
| Incoming msg => of_peer msg (m_from msg) s
| Response msg => of_peer msg (m_to msg) s
| FailedSend orig _ => exists msg, ParseSessionMessage orig = Good msg /\ of_peer msg (m_to msg) s
| _ => True
end.
(** What is reached by such events from a session that a client creates, or from
one that is created for an initiate of that id and given it, after the calls of
the client. *)
Inductive own_reachable : Session D -> Prop :=
| own_make local initiator sid type client : own_reachable (Session.make local initiator sid type client uninitialized)
| own_received msg local initiator type client s s' :
    m_type msg = ACTION_SESSION_INITIATE ->
    rtc (fun s s' => exists c, session_handle 50 (Client c) s = Done false s')
      (Session.make local initiator (m_sid msg) type client uninitialized) s ->
    session_handle 50 (Incoming msg) s = Done false s' -> own_reachable s'
| own_step s e s' : own_reachable s -> own_event e s -> session_handle 50 e s = Done false s' -> own_reachable s'.
Lemma client_rtc (P : Session D -> Prop) s s' :
(forall s c s', P s -> session_handle 50 (Client c) s = Done false s' -> P s') ->
rtc (fun s s' => exists c, session_handle 50 (Client c) s = Done false s') s s' -> P s -> P s'.
Proof. intros HP. induction 1 as [|s1 s2 s3 [c Hc] _ IH]; [done|]. intros H. apply IH. by eapply HP. Qed.
Lemma own_reachable_reachable s : own_reachable s -> session_reachable s.
Proof.
induction 1 as [| msg local initiator type client s s' _ Hr He | s e s' _ IH _ He].
- apply reach_make.
- eapply reach_step; [|exact He]. eapply (client_rtc session_reachable); [|exact Hr|apply reach_make]. intros s0 c s1 H Hc. by eapply reach_step.
- by eapply reach_step.
Qed.
Lemma client_calls_rtc (l : list (ClientCall D)) s u s' :
for_each (client_call transport_parser (set_state transport_parser reaction) (notify transport_parser reaction)) l s = Done u s' ->
rtc (fun s s' => exists c, session_handle 50 (Client c) s = Done false s') s s'.
Proof.
revert s. induction l as [|c l IH]; intros s Hs; cbn [for_each] in Hs; [injection Hs as _ <-; constructor|].
unfold mbind, Prog_bind in Hs. destruct (client_call _ _ _ c s) as [v s1|] eqn:E; [|done].
eapply rtc_l; [|by apply IH]. exists c. by eapply event_done.
Qed.

(** An entry of the map is a live session of that id; [G] holds of it. *)
Record consistent (G : nat -> Session D -> Prop) m : Prop := {
c_timeout : timeout_ m = 50;
c_fresh : forall id, is_Some (objects m !! id) -> (id < next_object m)%nat;
c_map : forall sid id, map_find sid (session_map_ m) = Some id -> exists s, objects m !! id = Some s /\ sid_ s = sid /\ G id s }.
Definition live : nat -> Session D -> Prop := fun _ s => own_reachable s.

Lemma c_outputs G m l : consistent G m -> consistent G (m <| outputs := l |>).
Proof. by intros [Ht Hf Hm]. Qed.
(** A session is changed in its place. *)
Lemma c_update (G G' : nat -> Session D -> Prop) m id s s' :
consistent G m -> objects m !! id = Some s -> sid_ s' = sid_ s -> (G id s -> G' id s') ->
(forall id' s', id' <> id -> G id' s' -> G' id' s') ->
consistent G' (m <| objects := <[id := s']> (objects m) |>).
Proof.
intros [Ht Hf Hm] Hs Esid HG Hne. split; [done| |].
- cbn. intros id' Hid. apply Hf. destruct (decide (id = id')) as [<-|]; [by rewrite Hs|by rewrite lookup_insert_ne in Hid].
- cbn. intros sid id' (s0 & Hs0 & Es0 & Hr0)%Hm. destruct (decide (id = id')) as [<-|].
  + exists s'. rewrite lookup_insert_eq. split_and!; [done| |]; replace s0 with s in * by congruence; [congruence|by apply HG].
  + exists s0. rewrite lookup_insert_ne by done. split_and!; [done..|]. by apply Hne.
Qed.
(** A call of a session that is one of its own events, or several. *)
Definition own_call id (call : Prog (Session D) unit) m : Prop :=
forall s u s', objects m !! id = Some s -> call s = Done u s' -> (own_reachable s -> own_reachable s') /\ sid_ s' = sid_ s.
Lemma with_session_consistent id (call : Prog (Session D) unit) m u m' :
consistent live m -> own_call id call m -> with_session id call m = Done u m' -> consistent live m'.
Proof.
intros Hc He (s & s' & Hs & Hcall & ->)%with_session_done. destruct (He s u s' Hs Hcall) as [Hr Hsid].
by apply c_outputs, (c_update live live m id s s').
Qed.
Lemma event_own id (e : @Session.event D) (call : Prog (Session D) unit) m :
session_handle 50 e = (call;; mret false) -> (forall s, objects m !! id = Some s -> own_event e s) -> own_call id call m.
Proof.
intros He Hown s u s' Hs Hc. pose proof (event_done e call 50 s u s' He Hc) as Hh. split; [|by eapply handle_sid].
intros Hr. eapply own_step; [exact Hr|by apply Hown|exact Hh].
Qed.
Lemma client_calls_own id (l : list (ClientCall D)) m :
own_call id (for_each (client_call transport_parser (set_state transport_parser reaction) (notify transport_parser reaction)) l) m.
Proof.
intros s u s' _ Hs%client_calls_rtc. split.
- eapply client_rtc; [|exact Hs]. intros s0 c s1 H Hc. by eapply (own_step _ (Client c)).
- eapply (client_rtc (fun x => sid_ x = sid_ s)); [|exact Hs|done]. intros s0 c s1 H Hc. rewrite <- H. by eapply handle_sid.
Qed.
(** The session that is found is that of the id, and its peer is the one asked for. *)
Lemma FindSession_own sid peer m id s :
consistent live m -> FindSession sid peer m = Some id -> objects m !! id = Some s ->
sid_ s = sid /\ Jid.equal (Jid.of_string peer) (Jid.of_string (remote_name_ s)) = true.
Proof.
intros Hc Hf Hs. unfold FindSession in Hf. apply bind_Some in Hf as (id1 & Hid1 & Hf). apply bind_Some in Hf as (s1 & Hs1 & Hf).
destruct (Jid.equal _ _) eqn:Ej; [|done]. injection Hf as ->. destruct (c_map _ _ Hc sid id Hid1) as (s2 & Hs2 & Esid & _).
rewrite Hs in Hs1, Hs2. injection Hs1 as <-. injection Hs2 as <-. done.
Qed.
Lemma destroy_done s u s' : destroy s = Done u s' -> sid_ s' = sid_ s.
Proof.
unfold destroy, mbind, Prog_bind, Effects.get, ASSERT. destruct (negb _); cbn; [|done]. by intros [= _ <-].
Qed.
(** Whatever the session that is destroyed has become. *)
Lemma DestroySession_consistent id m u m' :
consistent (fun id' s => id' <> id -> live id' s) m -> DestroySession id m = Done u m' -> consistent live m'.
Proof.
intros Hc Hd. unfold DestroySession, mbind, Prog_bind, Effects.get in Hd. destruct (objects m !! id) as [s|] eqn:Es; [|done].
cbn [the mret Prog_ret] in Hd. assert (Hlive : forall m', session_map_ m' = map_erase (sid_ s) (session_map_ m) -> timeout_ m' = 50 ->
  next_object m' = next_object m -> (exists x, objects m' = base.delete id (<[id := x]> (objects m))) -> consistent live m').
{ intros m1 Em Et En [x Eo]. destruct Hc as [_ Hf Hm]. split; [done| |].
  - intros id'. rewrite Eo, En. destruct (decide (id = id')) as [<-|]; [by rewrite lookup_delete_eq; intros [? [=]]|].
    rewrite lookup_delete_ne, lookup_insert_ne by done. apply Hf.
  - intros sid id'. rewrite Em, Eo, map_find_erase. destruct (key_same sid (sid_ s)) eqn:Ek; [done|].
    intros (s0 & Hs0 & Es0 & Hr0)%Hm. exists s0.
    assert (id' <> id) as Hne. { intros ->. rewrite Hs0 in Es. injection Es as ->. by rewrite Es0, key_same_refl in Ek. }
    rewrite lookup_delete_ne, lookup_insert_ne by done. split_and!; [done..|]. by apply Hr0. }
unfold the, mret, Prog_ret in Hd. destruct (map_find (sid_ s) (session_map_ m)) as [id'|] eqn:Ef.
- unfold output, modify in Hd. destruct (with_session id destroy _) as [v m1|] eqn:Ew; [|done]. injection Hd as _ <-.
  apply with_session_done in Ew as (s1 & s2 & Hs1 & Hs2 & ->). apply Hlive; cbn; [done|apply Hc|done|by eexists].
- injection Hd as _ <-. destruct Hc as [Ht Hf Hm]. split; [done..|]. intros sid id' Hi. destruct (Hm sid id' Hi) as (s0 & Hs0 & Es0 & Hr0).
  exists s0. split_and!; [done..|]. apply Hr0. intros ->. rewrite Hs0 in Es. injection Es as ->. by rewrite Es0, Hi in Ef.
Qed.
(** The session that is created replaces the one of its id. *)
Lemma CreateSession_done local initiator sid type received m id m' :
CreateSession transport_parser uninitialized reaction on_create local initiator sid type received m = Done id m' ->
exists client m1 u, GetClient type m = Some client /\ id = next_object m /\
  m1 = m <| objects := <[next_object m := Session.make local initiator sid type client uninitialized]> (objects m) |>
         <| next_object := S (next_object m) |> <| session_map_ := map_set sid (next_object m) (session_map_ m) |>
         <| outputs := outputs m ++ [SignalSessionCreate (next_object m) received] |> /\
  with_session (next_object m) (for_each (client_call transport_parser (set_state transport_parser reaction) (notify transport_parser reaction)) (on_create received)) m1
    = Done u m'.
Proof.
unfold CreateSession. intros (m0 & m1 & [= <- <-] & H)%bind_done. apply bind_done in H as (client & m2 & Hc & H).
unfold the in Hc. destruct (GetClient type m) as [c|] eqn:Ec; [|done]. injection Hc as -> <-.
apply bind_done in H as (u1 & m3 & Hm3 & H). injection Hm3 as _ <-. apply bind_done in H as (u2 & m4 & Hm4 & H). injection Hm4 as _ <-.
apply bind_done in H as (u3 & m5 & Hw & H). injection H as <- <-.
exists client. eexists. exists u3. split; [done|]. split; [done|]. split; [reflexivity|]. exact Hw.
Qed.
Lemma CreateSession_consistent local initiator sid type received m id m' :
consistent live m ->
CreateSession transport_parser uninitialized reaction on_create local initiator sid type received m = Done id m' -> consistent live m'.
Proof.
intros [Ht Hf Hm] (client & m1 & u & _ & -> & -> & Hw)%CreateSession_done.
eapply with_session_consistent; [|apply client_calls_own|exact Hw]. split; [done| |]; cbn.
- intros id Hid. destruct (decide (next_object m = id)) as [<-|]; [lia|]. rewrite lookup_insert_ne in Hid by done.
  specialize (Hf id Hid). lia.
- intros sid' id. rewrite map_find_set. destruct (key_same sid' sid) eqn:Ek.
  + intros [= <-]. apply string_same in Ek as ->. rewrite lookup_insert_eq. eexists. split_and!; [done..|]. apply own_make.
  + intros (s & Hs & Esid & Hr)%Hm. exists s. rewrite lookup_insert_ne; [done|]. intros <-.
    assert (is_Some (objects m !! next_object m)) as Hn by (by eexists). apply Hf in Hn. lia.
Qed.
(** The stanzas for a session come through the manager. *)
Definition no_stanza (e : @Session.event D) : Prop := match e with Incoming _ | Response _ | FailedSend _ _ => False | _ => True end.
Lemma session_event_consistent id e m u m' :
no_stanza e -> consistent live m -> session_event transport_parser hostname local_ips debug reaction id e m = Done u m' -> consistent live m'.
Proof.
intros Hn Hc He. unfold session_event in He. apply bind_done in He as (m0 & m1 & [= <- <-] & He).
apply bind_done in He as (d & m1 & Hw & He). rewrite (c_timeout _ _ Hc) in Hw.
apply with_session_done in Hw as (s & s' & Hs & Hcall & ->). pose proof (handle_sid _ _ _ _ _ Hcall) as Esid. destruct d.
- eapply DestroySession_consistent; [|exact He]. apply c_outputs, (c_update live _ m id s s'); try done.
- injection He as _ <-. refine (c_outputs live (m <| objects := <[id := s']> (objects m) |>) _ _).
  apply (c_update live live m id s s'); try done. intros Hr. eapply own_step; [exact Hr| |exact Hcall]. by destruct e.
Qed.

(** The managers that runs reach. *)
Inductive manager_reachable : SessionManager D -> Prop :=
| manager_make : manager_reachable Manager.make
| manager_step m e u m' :
    manager_reachable m -> (forall id e', e = OfSessionEvent id e' -> no_stanza e') -> handle e m = Done u m' -> manager_reachable m'.
(** A session that is created for an initiate, and given it. *)
Lemma created_consistent type msg m id m1 u m' :
consistent live m -> m_type msg = ACTION_SESSION_INITIATE ->
CreateSession transport_parser uninitialized reaction on_create (m_to msg) (m_initiator msg) (m_sid msg) type true m = Done id m1 ->
session_message transport_parser hostname local_ips debug reaction id msg m1 = Done u m' -> consistent live m'.
Proof.
intros Hc Ht Hcr He. pose proof (CreateSession_consistent _ _ _ _ _ _ _ _ Hc Hcr) as Hc1.
apply CreateSession_done in Hcr as (client & m2 & v & _ & -> & -> & Hw). apply with_session_done in Hw as (s0 & s1 & Hs0 & Hcalls & ->).
cbn in Hs0. rewrite lookup_insert_eq in Hs0. injection Hs0 as <-. eapply with_session_consistent; [exact Hc1| |exact He].
intros s w s' Hs Hcall. cbn in Hs. rewrite lookup_insert_eq in Hs. injection Hs as <-.
assert (Hh : session_handle 50 (Incoming msg) s1 = Done false s') by (by eapply event_done). split; [|by eapply handle_sid].
intros _. eapply own_received; [exact Ht|by eapply client_calls_rtc|exact Hh].
Qed.
Lemma OnIncomingMessage_consistent st m u m' :
consistent live m -> handle (IncomingStanza st) m = Done u m' -> consistent live m'.
Proof.
intros Hc He. cbn [Manager.handle] in He. unfold OnIncomingMessage, bad_request, SendErrorMessage, output, modify in He.
destruct (ParseSessionMessage st) as [msg|]; [|injection He as _ <-; by apply c_outputs].
apply bind_done in He as (m0 & m1 & [= <- <-] & He).
destruct (FindSession _ _ m) as [id|] eqn:Ef.
- eapply with_session_consistent; [exact Hc| |exact He]. apply (event_own id (Incoming msg)); [done|].
  intros s Hs. by destruct (FindSession_own _ _ _ _ _ Hc Ef Hs).
- case_match eqn:Et; [injection He as _ <-; by apply c_outputs|]. apply negb_false_iff, bool_decide_eq_true in Et.
  destruct (ParseContentType _ _) as [type|]; [|injection He as _ <-; by apply c_outputs].
  case_match; [injection He as _ <-; by apply c_outputs|].
  apply bind_done in He as (id & m1 & Hcr & He). by eapply created_consistent.
Qed.
Lemma handle_consistent e m u m' :
(forall id e', e = OfSessionEvent id e' -> no_stanza e') -> consistent live m -> handle e m = Done u m' -> consistent live m'.
Proof.
intros Hn Hc He. destruct e; cbn [Manager.handle] in He.
- unfold AddClient in He. apply bind_done in He as (m0 & m1 & [= <- <-] & He). apply bind_done in He as (v & m1 & Ha & He).
  unfold ASSERT in Ha. destruct (negb _); [|done]. injection Ha as _ <-. injection He as _ <-. by destruct Hc.
- unfold RemoveClient in He. apply bind_done in He as (m0 & m1 & [= <- <-] & He). apply bind_done in He as (v & m1 & Ha & He).
  unfold ASSERT in Ha. destruct (bool_decide _); [|done]. injection Ha as _ <-. injection He as _ <-. by destruct Hc.
- apply bind_done in He as (id & m1 & Hcr & He). injection He as _ <-. by eapply CreateSession_consistent.
- eapply DestroySession_consistent; [|exact He]. destruct Hc as [Ht Hf Hm]. split; [done..|].
  intros sid id (s & Hs & Es & Hr)%Hm. by exists s.
- by eapply OnIncomingMessage_consistent.
- unfold OnIncomingResponse in He. destruct orig_stanza as [orig|], response_stanza; try (by injection He as _ <-).
  destruct (ParseSessionMessage orig) as [msg|]; [|by injection He as _ <-]. apply bind_done in He as (m0 & m1 & [= <- <-] & He).
  destruct (FindSession _ _ m) as [id|] eqn:Ef; [|by injection He as _ <-].
  eapply with_session_consistent; [exact Hc| |exact He]. apply (event_own id (Response msg)); [done|].
  intros s Hs. by destruct (FindSession_own _ _ _ _ _ Hc Ef Hs).
- unfold OnFailedSend in He. destruct (ParseSessionMessage orig_stanza) as [msg|] eqn:Ep; [|by injection He as _ <-].
  apply bind_done in He as (m0 & m1 & [= <- <-] & He). destruct (FindSession _ _ m) as [id|] eqn:Ef; [|by injection He as _ <-].
  eapply with_session_consistent; [exact Hc| |exact He].
  match type of He with with_session _ (Session.OnFailedSend _ _ _ _ ?err) _ = _ => apply (event_own id (FailedSend orig_stanza err)); [done|] end.
  intros s Hs. exists msg. split; [done|]. by destruct (FindSession_own _ _ _ _ _ Hc Ef Hs).
- unfold OnSignalingReady in He. apply bind_done in He as (m0 & m1 & [= <- <-] & He). revert He. generalize (session_map_ m) as l.
  intros l. revert m Hc. induction l as [|[sid id] l IH]; intros m Hc He; cbn [for_each] in He; [by injection He as _ <-|].
  apply bind_done in He as (v & m1 & Hw & He). eapply IH; [|exact He]. eapply with_session_consistent; [exact Hc| |exact Hw].
  by apply (event_own id SignalingReady).
- eapply session_event_consistent; [by eapply Hn|exact Hc|exact He].
Qed.

Lemma reachable_consistent m : manager_reachable m -> consistent live m.
Proof.
induction 1 as [|m e u m' _ IH Hn He]; [by split; cbn; [|intros id [? [=]]|]|]. by eapply handle_consistent.
Qed.
(** C19. The map of sessions never holds a session that is gone: every entry is a live
session of that id, and no stanza has reached it but the initiate it was created
for, those of its peer under its id, and answers and failures of its own stanzas
to its peer. *)
Theorem sessions_live m sid id :
manager_reachable m -> GetSession sid m = Some id ->
exists s, objects m !! id = Some s /\ sid_ s = sid /\ own_reachable s.
Proof.
intros Hm%reachable_consistent Hf. by apply (c_map _ _ Hm).
Qed.

(** ** Answers *)



(** ** The end of sessions *)

Fixpoint run (l : list (@Manager.event D)) : Prog (SessionManager D) unit :=
match l with [] => mret tt | e :: l => handle e;; run l end.
Lemma destroys sid id s m :
GetSession sid m = Some id -> objects m !! id = Some s -> sid_ s = sid -> in_phase s ->
exists m', DestroySession id m = Done tt m' /\ GetSession sid m' = None /\ objects m' !! id = None.
Proof.
intros Hf Hs Esid Hp. unfold DestroySession, mbind, Prog_bind, Effects.get, the. rewrite Hs. unfold mret, Prog_ret.
unfold GetSession in *. rewrite Esid, Hf. unfold output, modify, with_session.
set (m1 := _ <| session_map_ := _ |>). change (objects m1) with (objects m). rewrite Hs.
unfold destroy, mbind, Prog_bind, Effects.get, ASSERT. rewrite bool_decide_false by (intros E; unfold in_phase in Hp; by rewrite E in Hp).
eexists. split; [reflexivity|]. split.
- change (map_find sid (map_erase sid (session_map_ m)) = None). by rewrite map_find_erase, key_same_refl.
- apply lookup_delete_eq.
Qed.

Hypothesis Hmodest : modest_reaction reaction.
Lemma removed_by_drain n s s' m sid id :
consistent live m -> GetSession sid m = Some id -> objects m !! id = Some s -> sid_ s = sid -> inv transport_parser s ->
drain transport_parser reaction n s = Done true s' ->
exists k m', run (replicate k (OfSessionEvent id RunPosted)) m = Done tt m' /\ GetSession sid m' = None /\ objects m' !! id = None.
Proof.
revert s m. induction n as [|n IH]; intros s m Hc Hf Hs Esid Hi Hd; [done|]. cbn [drain] in Hd.
apply bind_done in Hd as (d & s1 & Hr & Hd). pose proof (handle_ends transport_parser 50 hostname local_ips debug reaction RunPosted s d s1 Hr) as Hsp.
pose proof (handle_sid 50 RunPosted s d s1 Hr) as Es1.
set (m1 := m <| objects := <[id := s1]> (objects m) |>
             <| outputs := outputs m ++ map (relay id) (drop (length (effects_ s)) (effects_ s1)) |>).
assert (Hstep : session_event transport_parser hostname local_ips debug reaction id RunPosted m = (if d : bool then DestroySession id else mret tt) m1).
{ unfold session_event, mbind at 1, Prog_bind at 1, Effects.get, mbind, Prog_bind, with_session. rewrite Hs. cbn [Session.handle].
  by rewrite Hr. }
assert (Hs1 : objects m1 !! id = Some s1) by apply lookup_insert_eq. destruct d.
- destruct (destroys sid id s1 m1) as (m' & Hm' & Hg & Ho); [exact Hf|exact Hs1|congruence| |].
  + cbn in Hsp. destruct (posted_ s) as [|p q]; [by destruct Hsp|]. destruct Hsp as [He _].
    apply (evolves_phase _ _ _ _ He). by destruct Hi.
  + exists 1%nat, m'. split; [|done]. cbn. unfold mbind, Prog_bind. by rewrite Hstep, Hm'.
- assert (Hc1 : consistent live m1). { eapply (session_event_consistent id RunPosted); [done|exact Hc|]. by rewrite Hstep. }
  destruct (IH s1 m1 Hc1 Hf Hs1) as (k & m' & Hm' & Hg & Ho); [congruence|by eapply inv_step|exact Hd|].
  exists (S k), m'. split; [|done]. cbn. unfold mbind, Prog_bind. by rewrite Hstep.
Qed.
(** C20. A session that is rejected or terminated is taken out of the map and destroyed
when the messages posted to it are run, for a client that makes only calls that
cannot fail from its handlers and sets no error while it hears of one. *)
Theorem session_removed m sid id s :
manager_reachable m -> GetSession sid m = Some id -> objects m !! id = Some s ->
rejected (state_ s) || terminated (state_ s) = true ->
exists n m', run (replicate n (OfSessionEvent id RunPosted)) m = Done tt m' /\
  GetSession sid m' = None /\ objects m' !! id = None.
Proof.
intros Hm%reachable_consistent Hf Hs Hst. destruct (c_map _ _ Hm sid id Hf) as (s0 & Hs0 & Esid & Hr).
rewrite Hs in Hs0. injection Hs0 as <-. apply own_reachable_reachable, reachable_inv in Hr.
destruct (drain_ends transport_parser reaction Hmodest s Hr Hst) as (n & s' & Hd). by eapply removed_by_drain.
Qed.

(** As long as there is a session, terminating all of them never ends: a session
leaves the map only by a message that is posted to it. *)
Theorem TerminateAll_never_ends m fuel :
session_map_ m <> [] -> forall u m', TerminateAll transport_parser reaction fuel m <> Done u m'.
Proof.
revert m. induction fuel as [|fuel IH]; intros m Hm u m'; cbn [TerminateAll]; [done|].
intros (m0 & m1 & [= <- <-] & H)%bind_done. destruct (session_map_ m) as [|[sid id] l] eqn:E; [done|].
apply bind_done in H as (v & m1 & Hw & H). apply with_session_done in Hw as (s & s' & _ & _ & ->).
revert H. apply IH. cbn. by rewrite E.
Qed.
End Facts.

(** ** Examples

    A client for media that accepts what it gets. *)

Definition ex_run (e : @Manager.event Media) : Prog (SessionManager Media) unit :=
  Manager.handle ex_transport_parser [] [] false false ex_accept (fun _ => []) e.
Definition m_after (e : @Manager.event Media) (m : SessionManager Media) : SessionManager Media :=
  match ex_run e m with Done _ m' => m' | Failed _ => m end.
Definition m_goes (e : @Manager.event Media) (m : SessionManager Media) : bool :=
  match ex_run e m with Done _ _ => true | Failed _ => false end.
Lemma m_after_done e m :
  m_goes e m = true -> Manager.handle ex_transport_parser [] [] false false ex_accept (fun _ => []) e m = Done tt (m_after e m).
Proof. unfold m_goes, m_after, ex_run. by destruct (Manager.handle _ _ _ _ _ _ _ e m) as [[]|]. Qed.
#[local] Abbreviation ex_m_reachable := (manager_reachable ex_transport_parser [] [] false false ex_accept (fun _ => [])).
Lemma m_reach e m : ex_m_reachable m -> (forall id e', e = OfSessionEvent id e' -> no_stanza e') -> m_goes e m = true -> ex_m_reachable (m_after e m).
Proof. intros Hm Hn He. eapply manager_step; [exact Hm|exact Hn|]. by apply m_after_done. Qed.

(** The initiate of the example, as it comes from a sender. *)
Definition ex_initiate (sender : bytes) : XmlElement :=
  with_id (str "1") (from sender (default (new_element QN_IQ) (stanzas ex_a1 !! 0%nat))).
Definition ex_m1 : SessionManager Media := m_after (CallAddClient NS_JINGLE_RTP ex_content_parser) Manager.make.
Definition ex_m2 : SessionManager Media := m_after (IncomingStanza (ex_initiate (str "a@x"))) ex_m1.
Definition ex_m3 : SessionManager Media := m_after (OfSessionEvent 0 (Client (CallTerminate STR_TERMINATE_SUCCESS))) ex_m2.
Definition ex_m4 : SessionManager Media := m_after (IncomingStanza (ex_initiate (str "c@x"))) ex_m2.
Lemma ex_m1_reachable : ex_m_reachable ex_m1.
Proof. apply m_reach; [apply manager_make|done|]. vm_compute. reflexivity. Qed.
Lemma ex_m2_goes : m_goes (IncomingStanza (ex_initiate (str "a@x"))) ex_m1 = true.
Proof. vm_compute. reflexivity. Qed.
Lemma ex_m2_reachable : ex_m_reachable ex_m2.
Proof. apply m_reach; [exact ex_m1_reachable|done|exact ex_m2_goes]. Qed.
Lemma ex_m3_reachable : ex_m_reachable ex_m3.
Proof. apply m_reach; [exact ex_m2_reachable|by intros id e' [= _ <-]|]. vm_compute. reflexivity. Qed.

(** The state of a session of the manager. *)
Definition state_of (id : nat) (m : SessionManager Media) : option State := state_ <$> objects m !! id.
Example answered_and_accepted :
  map (state_of 0) [ex_m1; ex_m2; ex_m3] = [None; Some STATE_SENTACCEPT; Some STATE_SENTTERMINATE] /\
  map (fun x => Attr QN_TYPE x) (omap (fun o => match o with SignalOutgoingMessage x => Some x | _ => None end) (outputs ex_m2)) =
    [STR_SET; str "result"].
Proof. vm_compute. done. Qed.

Lemma sessions_live_witness : exists s, objects ex_m2 !! 0%nat = Some s /\ sid_ s = str "7".
Proof.
  destruct (sessions_live _ _ _ _ _ _ _ ex_m2 (str "7") 0 ex_m2_reachable) as (s & Hs & Es & _); [vm_compute; reflexivity|].
  exists s. split; [exact Hs|exact Es].
Defined.
Lemma session_removed_witness :
  exists s, objects ex_m3 !! 0%nat = Some s /\
  exists n m', run ex_transport_parser [] [] false false ex_accept (fun _ => []) (replicate n (OfSessionEvent 0 RunPosted)) ex_m3 = Done tt m' /\
    GetSession (str "7") m' = None /\ objects m' !! 0%nat = None.
Proof.
  assert (Hs : exists s, objects ex_m3 !! 0%nat = Some s /\ terminated (state_ s) = true).
  { assert (Ht : match objects ex_m3 !! 0%nat with Some s => terminated (state_ s) | None => false end = true) by (vm_compute; reflexivity).
    destruct (objects ex_m3 !! 0%nat) as [s|]; [by exists s|done]. }
  destruct Hs as (s & Hs & Ht). exists s. split; [exact Hs|].
  apply (session_removed _ _ _ _ _ _ _ ex_accept_modest ex_m3 _ 0 s ex_m3_reachable); [vm_compute; reflexivity|exact Hs|by rewrite Ht, orb_true_r].
Defined.
Lemma TerminateAll_never_ends_witness : forall fuel u m', TerminateAll ex_transport_parser ex_accept fuel ex_m2 <> Done u m'.
Proof. intros fuel. apply TerminateAll_never_ends. intros E. assert (H : length (session_map_ ex_m2) = 1%nat) by (vm_compute; reflexivity). by rewrite E in H. Defined.

(** A second peer that uses the same session id takes the place of the first: the
  manager no longer knows the first session, which lives on. *)
Example sid_taken :
  FindSession (str "7") (str "a@x") ex_m2 = Some 0%nat /\
  FindSession (str "7") (str "a@x") ex_m4 = None /\ FindSession (str "7") (str "c@x") ex_m4 = Some 1%nat /\
  map (state_of 0) [ex_m4] = [Some STATE_SENTACCEPT].
Proof. vm_compute. done. Qed.
(** An initiate that cannot be read leaves a session behind that no event will end. *)
Definition ex_bad_initiate : XmlElement :=
  with_id (str "1") (from (str "a@x") (WriteStanza (mkOutgoing PROTOCOL_JINGLE ACTION_SESSION_INITIATE (str "8") (str "a@x") (str "b@x"))
    [AddElement (new_element (mkQName NS_JINGLE_RTP LN_DESCRIPTION)) (new_element QN_JINGLE_CONTENT)] [])).
Example failed_initiate_leaks :
  map (state_of 0) [m_after (IncomingStanza ex_bad_initiate) ex_m1] = [Some STATE_INIT] /\
  map (fun s => posted_ s) (omap (fun id => objects (m_after (IncomingStanza ex_bad_initiate) ex_m1) !! id) [0%nat]) = [[]].
Proof. vm_compute. done. Qed.
End ManagerFacts.
